(* ===== verification/_CoqProject ===== *)
-Q . S2P
Prelude.v
ObjectId.v
ObjectDb.v
UndoRefinement.v
Block.v
ForkDb.v
Uint128.v
Safe.v
Asset.v
Vesting.v
Balance.v
Fees.v
FeeSchedule.v
Members.v
BlockDb.v
Raw.v
Schedule.v
Chain.v
Authority.v
Requirements.v
Apply.v
Wire.v
Names.v
Proposals.v
Votes.v
Budget.v
Maintenance.v
Accounts.v
Transfers.v
Collateral.v
Feeds.v
AssetRegistry.v
AssetText.v
Listings.v
Identities.v
Authentication.v
Gateways.v
