(* ===== verification/Prelude.v ===== *)
(** * zos-core: a verification development

    zos-core is the node of a block chain of the Graphene family, written in C++.  This
    library models the part of it that every node has to agree on, libraries/chain, with
    the object database below it (libraries/db) and the checked and wide integers of
    libraries/fc.  Paths below are under src/libraries.

    ** The program, and the files that model it

    A block that arrives from the network or from a witness of this node goes through

    - the fork database, the tree of the recent blocks, which decides whether the longest
      chain has changed: [ForkDb] (chain/fork_database.cpp), over the blocks and their
      identifiers of [Block] (chain/protocol/block.cpp);
    - the chain itself, which switches forks, pops blocks, keeps the queue of pending
      transactions and produces blocks: [Chain] (chain/db_block.cpp, chain/db_with.hpp),
      with the blocks on disk in [BlockDb] (chain/block_database.cpp);
    - the application of a block: header, transactions, signatures and authorities,
      duplicates, expiration: [Apply] (chain/db_block.cpp) and [Authority]
      (chain/protocol/transaction.cpp, chain/protocol/authority.hpp);
    - the schedule of the witnesses, their pay and the last irreversible block: [Schedule]
      (chain/db_witness_schedule.cpp, chain/db_update.cpp);
    - at the maintenance interval, the tally and the elections: [Votes], the budget of
      witnesses and workers: [Budget], and the whole of the maintenance with the fees for
      buybacks and the top holders of assets: [Maintenance] (chain/db_maint.cpp,
      chain/vote_count.hpp, chain/worker_evaluator.cpp, chain/fba_object.cpp).

    The operations of a transaction work on

    - the ledger of balances and vesting balances: [Balance] (chain/db_balance.cpp and the
      evaluators of chain/vesting_balance_evaluator.cpp) over [Vesting]
      (chain/vesting_balance_object.cpp);
    - the fees, from the schedule ([FeeSchedule], chain/protocol/fee_schedule.cpp) to the
      payment and the referrers ([Fees], chain/evaluator.cpp, chain/account_object.cpp);
    - amounts and prices: [Asset] (chain/protocol/asset.cpp), with [Safe] (fc/safe.hpp) and
      [Uint128] (fc/uint128.cpp) below;
    - accounts: their names ([Names], chain/protocol/account.cpp), their creation, update,
      lists and upgrade with the order in which authorities refer to each other ([Accounts],
      chain/account_evaluator.cpp), and the reverse index of authorities ([Members],
      chain/account_object.cpp);
    - transfers, issues, reserves, fee pools and withdraw permissions: [Transfers]
      (chain/transfer_evaluator.cpp, chain/withdraw_permission_evaluator.cpp,
      chain/asset_evaluator.cpp, chain/is_authorized_asset.cpp);
    - assets: [AssetRegistry] (chain/asset_evaluator.cpp, chain/protocol/asset_ops.cpp, the
      feeds and exchange rates of chain/db_update.cpp), their prices and medians ([Collateral],
      chain/protocol/asset.cpp, and [Feeds], chain/asset_object.cpp), amounts as texts
      ([AssetText]), and the gateways that carry them ([Listings], chain/gateway_evaluator.cpp);
    - the six roles of accounts and their pledges: [Identities] (the evaluators of witnesses,
      committee and budget members, gateways, carriers and authors, and change_identity);
    - what authors state about accounts ([Authentication], account_authenticate in
      chain/account_evaluator.cpp) and the money that gateways take and pay ([Gateways],
      chain/account_member_evaluator.cpp);
    - proposals, which hold a transaction until it is approved: [Proposals]
      (chain/proposal_evaluator.cpp, chain/proposal_object.cpp), with the authorities every
      operation requires in [Requirements] (chain/protocol/operations.cpp and the headers of
      chain/protocol and business/protocol).

    Blocks and transactions are packed by fc::raw: [Raw] (fc/include/fc/io/raw.hpp) has the
    encodings, [Wire] the formats of blocks built on them.

    Everything lives in the object database, whose undo history restores a snapshot when a
    transaction, a block or a fork fails: [ObjectDb] (db/object_database.cpp,
    db/undo_database.cpp, db/index.hpp), [ObjectId] (db/object_id.hpp), and [UndoRefinement]
    for its contract.  This file has the result and state monads, sums over maps, and the
    integers of fixed width that the others share.

    ** How the pieces fit

    Exceptions are values of [result].  A computation of type [M] discards its writes when
    it throws: it runs inside an undo session, and UndoRefinement shows that a session which
    is not committed gives the snapshot back, as long as modifications leave the unique keys
    of their objects as they are.  A computation of type [E] keeps its writes:
    the functions that catch exceptions themselves (Chain) and the members of [database] that
    no session restores (the buffers of Votes, the histories).  By the same theorem [Chain]
    represents the contents of the database by a type and the history by a list of
    snapshots; the class [StoresBlocks] of Block is what the chain needs of the store, and
    BlockDb discharges it.  [Apply]
    instantiates the contents and proves the theorems of transactions for every evaluator
    that keeps the index of transactions ([KeepsCore]); [Votes], [Budget] and [Fees] are
    composed by [Maintenance] in the order of [perform_chain_maintenance].  Code that is not in
    the repository enters the assets through interfaces with laws: rational numbers ([Rational],
    [RationalLaws]), the selection of a median ([Selection], [SelectionLaws]) and the market
    engine ([Market], [MarketLaws]); each has an instance that the examples run.  [Listings]
    works on the state of [AssetRegistry]; [Identities] joins it with the ledger of [Balance],
    [Authentication] adds the records of authors and [Gateways] closes the group: its steps are
    the operations of the three files and the blocks that pass, and its theorems are about all
    of them.

    ** What the theorems show

    - The undo history refines a stack of snapshots: undo, merge and commit of sessions, and
      which modification loses an object (UndoRefinement).
    - The fork database keeps a tree and follows the longest chain, two branches meet at
      their last common block (ForkDb); a fork switch is atomic, the queue of pending
      transactions is consistent with its session, a generated block applies (Chain); a
      stored block is found again (BlockDb).
    - A transaction is not applied twice, nor on a fork that it does not refer to; a block
      applies only when it extends the head at a slot of its witness (Apply); the signature
      check decides exactly the authority it stands for (Authority); the schedule is fair,
      slots and times are inverse, an irreversible block is confirmed by the threshold
      (Schedule).
    - No operation creates or loses shares: ledger, fees, budget, buybacks (Balance, Fees,
      Budget, Maintenance), up to the cases recorded as findings; vesting releases exactly
      what its policy allows (Vesting); conversion between assets is exact and gains nothing
      (Asset).
    - Elections choose the enabled candidates with the most votes, their authority is a majority that can be
      satisfied, stake counts once per opinion (Votes); the maintenance finds its next time
      in the future (Maintenance).
    - A transaction is signed by those who pay for its operations, but for the operations that
      put another account in their place, which is recorded as a finding (Requirements); a
      proposal carries out all of its operations, or none, when it is approved, expired ones are
      settled, nested ones terminate (Proposals); packed blocks are read back (Raw, Wire).
    - Names follow their grammar (Names); the registry of accounts keeps its invariants and the
      search of authorities ends (Accounts); a transfer does what it says on every branch, and
      supplies account for all shares (Transfers).
    - Only its issuer changes an asset, permissions that were given up stay so, symbols are
      unique, no stale price is shown, marks are cleared (AssetRegistry); the median feed lies
      in every range that more than half of the feeds keep to (Feeds), the prices of collateral
      are found, valid and exact unless they had to be rounded (Collateral), printed amounts are read back (AssetText).
    - Roles, pledges, lists of gateways, statements of authors and gateway money stay consistent
      through every sequence of operations, and what gateways were issued is backed one to one;
      an account passes the check of a gateway exactly when a trusted author knows it, for as
      long as the author said (Listings, Identities, Authentication, Gateways).

    ** Parameters, fuel and bounds

    Code that is not part of the repository is a parameter: hash functions and signatures
    (OpenSSL, secp256k1), the serializer where only its inverse matters,
    [boost::multiprecision::uint128_t] (classes [Multiprecision] and [Division128], with the
    integers of Uint128 as an instance), [find_msb] of boost.  The evaluators of operations
    are arguments of [Apply], the business objects (whose implementation is not in the
    repository) of [Maintenance]; what a machine has in memory where the code reads bytes it
    never wrote is an argument of [Authentication].  Loops run on the structure of their data or on fuel, and
    the theorems give a fuel that is enough: the height of the items for [fetch_branch_from],
    [max_recursion] for [sign_state], the 128 bits of a division, the number of levels for
    the merkle root.  Amounts are 64-bit integers that throw, counters wrap at the width
    the code gives them.  Several evaluators modify a copy of the statistics of an account:
    their index is a simple_index, which finds the stored object by its number
    (libraries/db/include/graphene/db/simple_index.hpp), so the stored object changes
    ([Identities.modify_statistics]).

    ** What is not modelled

    libraries/business has headers only (of which [Requirements] has the authorities that its
    operations require): its code is not in the repository, so the market, the
    lending and the exchange of the second layer appear as parameters where the code here calls
    them.  Of libraries/chain: the initialization of the database and genesis (db_init.cpp,
    genesis_state.cpp), which read a file and whose result is the start of the invariants; the
    opening and replay of the database (db_management.cpp), files around the modelled
    [push_block]; the queries of db_getter.cpp and the notification of plugins; the two
    operations by which the committee replaces the chain parameters, which copy them or read a
    variant; predicates of assert operations; settlement orders, whose evaluators throw.
    Addresses and memos are encodings of hashes and ciphers.  Networking (net), the wallet, the
    plugins, the application and its API, threads, streams, logging, and JSON of fc are input
    and output; utilities is a list of words; fc/vendor, miniz and the cryptography of fc are
    other projects.  Concurrency is left out: the chain runs in a single thread.

    ** Where to go on

    The operations above are modelled in groups with a state each.  What is left to do is to
    join the groups under the operation dispatcher of [Apply], and the text forms of fc (base58,
    hex, JSON). *)

From stdpp Require Export base gmap sets list strings fin_maps.
From Stdlib Require Export ZArith Lia.

(** ** Exceptions and the result monad *)

(** The exceptions the modelled code throws; the message arguments of
    [FC_ASSERT] and [GRAPHENE_ASSERT] are not modelled.  [undefined_behaviour] stands
    for what the C++ standard leaves undefined, [out_of_fuel] for a recursion deeper
    than the fuel of its function: no code throws it, and it is caught nowhere. *)
Inductive exn : Set :=
  | assert_exception
  | overflow_exception
  | underflow_exception
  | divide_by_zero_exception
  | unlinkable_block_exception
  | insufficient_fee
  | undo_database_exception
  | parse_error_exception
  | tx_missing_active_auth
  | tx_missing_owner_auth
  | tx_missing_other_auth
  | tx_irrelevant_sig
  | tx_duplicate_sig
  | invalid_committee_approval
  | out_of_range_exception
  | undefined_behaviour
  | proposal_create_review_period_required
  | proposal_create_review_period_insufficient
  | account_max_auth_exceeded
  | account_auth_account_not_found
  | account_create_buyback_incorrect_issuer
  | account_create_buyback_already_exists
  | account_create_buyback_too_many_markets
  | transfer_from_account_not_whitelisted
  | transfer_to_account_not_whitelisted
  | transfer_restricted_transfer_asset
  | asset_reserve_invalid_on_mia
  | out_of_fuel
  | other_exception.

#[export] Instance exn_eq_dec : EqDecision exn.
Proof. solve_decision. Defined.

Inductive result (A : Type) : Type :=
  | Ok (a : A)
  | Throw (e : exn).
Arguments Ok {A} a.
Arguments Throw {A} e.

#[export] Instance result_eq_dec `{EqDecision A} : EqDecision (result A).
Proof. solve_decision. Defined.

#[export] Instance result_ret : MRet result := @Ok.
#[export] Instance result_bind : MBind result := λ A B f m,
  match m with Ok a => f a | Throw e => Throw e end.
#[export] Instance result_fmap : FMap result := λ A B f m,
  match m with Ok a => Ok (f a) | Throw e => Throw e end.

Definition is_ok {A} (m : result A) : bool :=
  match m with Ok _ => true | Throw _ => false end.

(** [FC_ASSERT( b )] and [GRAPHENE_ASSERT( b, e, ... )]. *)
Definition FC_ASSERT (b : bool) : result () :=
  if b then Ok () else Throw assert_exception.
Definition GRAPHENE_ASSERT (b : bool) (e : exn) : result () :=
  if b then Ok () else Throw e.

(** ** State-passing computations

    [M S A] is a computation on a state [S] that returns an [A] or throws.  A
    throw discards the state: the callers that survive an exception restore the
    state of the enclosing undo session (file UndoRefinement), so the partial writes
    made before the throw are never observed. *)
Definition M (S A : Type) : Type := S → result (A * S).

#[export] Instance M_ret {S} : MRet (M S) := λ A a s, Ok (a, s).
#[export] Instance M_bind {S} : MBind (M S) := λ A B f m s,
  match m s with Ok (a, s') => f a s' | Throw e => Throw e end.

Definition get_st {S} : M S S := λ s, Ok (s, s).
Definition put_st {S} (s' : S) : M S () := λ _, Ok ((), s').
Definition modify_st {S} (f : S → S) : M S () := λ s, Ok ((), f s).
Definition throw {S A} (e : exn) : M S A := λ _, Throw e.
Definition lift {S A} (r : result A) : M S A := λ s,
  match r with Ok a => Ok (a, s) | Throw e => Throw e end.
Definition assert_st {S} (b : bool) : M S () := lift (FC_ASSERT b).

(** A computation on a part of the state. *)
Definition zoom {S T A} (part : S → T) (put : T → S → S) (m : M T A) : M S A := λ s,
  match m (part s) with Ok (a, t) => Ok (a, put t s) | Throw e => Throw e end.

(** [catch( const fc::exception& e )]: exceptions of the standard library pass by, and
    so does what is no exception. *)
Definition fc_exception (e : exn) : bool :=
  match e with out_of_range_exception | undefined_behaviour | out_of_fuel => false | _ => true end.

(** The handler starts in the state before the attempt: the code catches around an undo
    session. *)
Definition try_catch {S A} (m : M S A) (handler : exn → M S A) : M S A := λ s,
  match m s with
  | Throw e => if fc_exception e then handler e s else Throw e
  | r => r
  end.

(** [E S A] is a computation that keeps its state when it throws: it models the
    code whose exceptions are caught by a caller that goes on with the state as
    the throw left it. *)
Definition E (S A : Type) : Type := S → S * result A.

#[export] Instance E_ret {S} : MRet (E S) := λ A a s, (s, Ok a).
#[export] Instance E_bind {S} : MBind (E S) := λ A B f m s,
  match m s with (s', Ok a) => f a s' | (s', Throw e) => (s', Throw e) end.

Definition get_e {S} : E S S := λ s, (s, Ok s).
Definition put_e {S} (s' : S) : E S () := λ _, (s', Ok ()).
Definition modify_e {S} (f : S → S) : E S () := λ s, (f s, Ok ()).
Definition throw_e {S A} (e : exn) : E S A := λ s, (s, Throw e).
Definition assert_e {S} (b : bool) : E S () := λ s, (s, FC_ASSERT b).

Fixpoint mapE_ {S A} (f : A → E S ()) (l : list A) : E S () :=
  match l with
  | [] => mret ()
  | x :: l => f x ;; mapE_ f l
  end.

(** Run a computation over every element of a list, in order. *)
Fixpoint mapM_ {S A} (f : A → M S ()) (l : list A) : M S () :=
  match l with
  | [] => mret ()
  | x :: l => f x ;; mapM_ f l
  end.

(** ** Lemmas on results *)

Lemma Ok_bind {A B} (x : A) (f : A → result B) : Ok x ≫= f = f x.
Proof. done. Qed.

Lemma bind_Ok {A B} (f : A → result B) (m : result A) b :
  m ≫= f = Ok b ↔ ∃ a, m = Ok a ∧ f a = Ok b.
Proof. destruct m; simpl; naive_solver. Qed.

Lemma fmap_Ok {A B} (f : A → B) (m : result A) b :
  f <$> m = Ok b ↔ ∃ a, m = Ok a ∧ b = f a.
Proof. destruct m; simpl; unfold fmap; simpl; naive_solver. Qed.

Lemma FC_ASSERT_Ok b u : FC_ASSERT b = Ok u ↔ b = true.
Proof. destruct b, u; simpl; naive_solver. Qed.

Lemma GRAPHENE_ASSERT_Ok b e u : GRAPHENE_ASSERT b e = Ok u ↔ b = true.
Proof. destruct b, u; simpl; naive_solver. Qed.

Lemma M_bind_Ok {S A B} (f : A → M S B) (m : M S A) s b s' :
  (m ≫= f) s = Ok (b, s') ↔ ∃ a s1, m s = Ok (a, s1) ∧ f a s1 = Ok (b, s').
Proof.
  unfold mbind, M_bind. destruct (m s) as [[a s1]|e]; naive_solver.
Qed.

Lemma M_bind_run {S A B} (f : A → M S B) (m : M S A) s a s1 :
  m s = Ok (a, s1) → (m ≫= f) s = f a s1.
Proof. intros Hm. unfold mbind, M_bind. by rewrite Hm. Qed.

Lemma try_catch_Ok {S A} (m : M S A) h s a s' :
  try_catch m h s = Ok (a, s') ↔
  m s = Ok (a, s') ∨ ∃ e, m s = Throw e ∧ fc_exception e = true ∧ h e s = Ok (a, s').
Proof.
  unfold try_catch. destruct (m s) as [r|e]; [|destruct (fc_exception e) eqn:He].
  - split; [by left|]. by intros [|(e & He & _)].
  - split; [intros Hh; right; by exists e|]. intros [|(e' & [= <-] & _ & Hh)]; done.
  - split; [done|]. intros [|(e' & [= <-] & He' & _)]; congruence.
Qed.

Lemma lift_Ok {S A} (r : result A) (s : S) a s' :
  lift r s = Ok (a, s') ↔ r = Ok a ∧ s' = s.
Proof. unfold lift. destruct r; naive_solver. Qed.

Lemma assert_st_Ok {S} b (s s' : S) u :
  assert_st b s = Ok (u, s') ↔ b = true ∧ s' = s.
Proof. unfold assert_st. rewrite lift_Ok, FC_ASSERT_Ok. done. Qed.

Lemma zoom_Ok {S T A} part put (m : M T A) (s : S) a s' :
  zoom part put m s = Ok (a, s') ↔ ∃ t, m (part s) = Ok (a, t) ∧ s' = put t s.
Proof. unfold zoom. destruct (m (part s)) as [[b t]|]; naive_solver. Qed.

Lemma put_st_Ok {S} (s s1 s2 : S) u : put_st s1 s = Ok (u, s2) → s2 = s1.
Proof. by intros [= _ <-]. Qed.
Lemma modify_st_Ok {S} (f : S → S) (s s2 : S) u : modify_st f s = Ok (u, s2) → s2 = f s.
Proof. by intros [= _ <-]. Qed.

Lemma mapM_app {S A} (f : A → M S ()) l1 l2 s :
  mapM_ f (l1 ++ l2) s = (mapM_ f l1 ;; mapM_ f l2) s.
Proof.
  revert s. induction l1 as [|x l1 IH]; intros s; [done|].
  simpl. unfold mbind, M_bind. destruct (f x s) as [[[] s1]|]; [|done].
  rewrite IH. reflexivity.
Qed.

Lemma E_bind_step {S A B} (f : A → E S B) (m : E S A) s :
  (m ≫= f) s = match m s with (s', Ok a) => f a s' | (s', Throw e) => (s', Throw e) end.
Proof. reflexivity. Qed.

(** *** Invariants of computations that keep their state *)

(** [m] throws exceptions of [P] only. *)
Definition raises {S A} (P : exn → Prop) (m : M S A) : Prop := ∀ s e, m s = Throw e → P e.

Section Raises.
Context {S : Type} (P : exn → Prop).

Lemma raises_ret {A} (a : A) : raises (S := S) P (mret a).
Proof. done. Qed.
Lemma raises_get : raises (S := S) P get_st.
Proof. done. Qed.
Lemma raises_put (s : S) : raises P (put_st s).
Proof. done. Qed.
Lemma raises_modify (f : S → S) : raises P (modify_st f).
Proof. done. Qed.
Lemma raises_lift {A} (r : result A) : (∀ e, r = Throw e → P e) → raises (S := S) P (lift r).
Proof. intros Hr s e He. unfold lift in He. destruct r; [done|]. by apply Hr; injection He as ->. Qed.
Lemma raises_assert b : P assert_exception → raises (S := S) P (assert_st b).
Proof. intros HP. apply raises_lift. intros e. by destruct b; intros [= <-]. Qed.
Lemma raises_bind {A B} (m : M S A) (f : A → M S B) :
  raises P m → (∀ a, raises P (f a)) → raises P (m ≫= f).
Proof.
  intros Hm Hf s e. unfold mbind, M_bind. destruct (m s) as [[a s1]|e'] eqn:He; [apply Hf|].
  intros [= <-]. by eapply Hm.
Qed.
Lemma raises_try_catch {A} (m : M S A) h :
  raises (λ e, fc_exception e = false → P e) m → (∀ e, raises P (h e)) → raises P (try_catch m h).
Proof.
  intros Hm Hh s e. unfold try_catch. destruct (m s) as [|e'] eqn:He; [done|].
  destruct (fc_exception e') eqn:Hfc; [apply Hh|]. intros [= <-]. by eapply Hm.
Qed.
End Raises.

Lemma raises_weaken {S A} (P Q : exn → Prop) (m : M S A) : (∀ e, P e → Q e) → raises P m → raises Q m.
Proof. intros HPQ Hm s e He. eapply HPQ, Hm, He. Qed.

(** [m] keeps [P], whether it returns or throws. *)
Definition keeps {S A} (P : S → Prop) (m : E S A) : Prop := ∀ s, P s → P (fst (m s)).

Lemma keeps_ret {S A} (P : S → Prop) (a : A) : keeps P (mret a).
Proof. by intros s. Qed.
Lemma keeps_get {S} (P : S → Prop) : keeps P get_e.
Proof. by intros s. Qed.
Lemma keeps_throw {S A} (P : S → Prop) e : keeps (A := A) P (throw_e e).
Proof. by intros s. Qed.
Lemma keeps_assert {S} (P : S → Prop) b : keeps P (assert_e b).
Proof. by intros s. Qed.
Lemma keeps_modify {S} (P : S → Prop) f : (∀ s, P s → P (f s)) → keeps P (modify_e f).
Proof. intros Hf s. apply Hf. Qed.
Lemma keeps_bind {S A B} (P : S → Prop) (m : E S A) (f : A → E S B) :
  keeps P m → (∀ a, keeps P (f a)) → keeps P (m ≫= f).
Proof.
  intros Hm Hf s Hs. rewrite E_bind_step. specialize (Hm s Hs).
  destruct (m s) as [s' [a|e]]; [by apply Hf|exact Hm].
Qed.

(** *** Frames: the part [f] of the state that a computation leaves as it is *)

Definition same {S A V} (f : S → V) (m : M S A) : Prop := ∀ s a s', m s = Ok (a, s') → f s' = f s.

Section Same.
Context {S V : Type} (f : S → V).

Lemma same_ret {A} (a : A) : same f (mret a).
Proof. by intros s b s' [= _ <-]. Qed.
Lemma same_throw {A} e : same f (throw (A := A) e).
Proof. intros s b s' Hrun. discriminate Hrun. Qed.
Lemma same_lift {A} (r : result A) : same f (lift r).
Proof. intros s b s' [_ ->]%lift_Ok. done. Qed.
Lemma same_assert b : same f (assert_st b).
Proof. apply same_lift. Qed.
Lemma same_modify g : (∀ s, f (g s) = f s) → same f (modify_st g).
Proof. intros Hg s a s' [= _ <-]. apply Hg. Qed.
Lemma same_bind {A B} (m : M S A) (k : A → M S B) : same f m → (∀ a, same f (k a)) → same f (m ≫= k).
Proof.
  intros Hm Hk s b s' (a & s1 & H1 & H2)%M_bind_Ok. by rewrite (Hk _ _ _ _ H2), (Hm _ _ _ H1).
Qed.
(** After [get_st] the state is known. *)
Lemma same_get {B} (k : S → M S B) :
  (∀ s b s', k s s = Ok (b, s') → f s' = f s) → same f (get_st ≫= k).
Proof. intros Hk s b s' (a & s1 & [= <- <-] & H2)%M_bind_Ok. by eapply Hk. Qed.
Lemma same_mapM {A} (g : A → M S ()) l : (∀ x, x ∈ l → same f (g x)) → same f (mapM_ g l).
Proof.
  induction l as [|x l IH]; intros Hg; cbn; [apply same_ret|].
  apply same_bind; [apply Hg; by left|]. intros []. apply IH. intros y Hy. apply Hg. by right.
Qed.
End Same.

(** *** Relations between the states before and after *)

Definition moves {S A} (R : S → S → Prop) (m : M S A) : Prop := ∀ s a s', m s = Ok (a, s') → R s s'.

Section Moves.
Context {S : Type} (R : S → S → Prop) `{!PreOrder R}.

Lemma moves_ret {A} (a : A) : moves R (mret a).
Proof. intros s b s' [= _ <-]. reflexivity. Qed.
Lemma moves_get : moves R get_st.
Proof. intros s b s' [= _ <-]. reflexivity. Qed.
Lemma moves_throw {A} e : moves R (throw (A := A) e).
Proof. done. Qed.
Lemma moves_lift {A} (r : result A) : moves R (lift r).
Proof. intros s a s' [_ ->]%lift_Ok. reflexivity. Qed.
Lemma moves_assert b : moves R (assert_st b).
Proof. apply moves_lift. Qed.
Lemma moves_bind {A B} (m : M S A) (f : A → M S B) : moves R m → (∀ a, moves R (f a)) → moves R (m ≫= f).
Proof. intros Hm Hf s b s' (a & s1 & H1 & H2)%M_bind_Ok. etransitivity; [eapply Hm, H1|eapply Hf, H2]. Qed.
Lemma moves_mapM {A} (g : A → M S ()) l : (∀ x, moves R (g x)) → moves R (mapM_ g l).
Proof. intros Hg. induction l; cbn; [apply moves_ret|]. by apply moves_bind. Qed.
Lemma moves_try {A} (m : M S A) h : moves R m → (∀ e, moves R (h e)) → moves R (try_catch m h).
Proof. intros Hm Hh s b s' [H|(e & _ & _ & H)]%try_catch_Ok; [by eapply Hm|by eapply Hh]. Qed.
End Moves.

(** A computation taken apart into its steps; what the hints know of is left to them. *)
Ltac moves_step :=
  first [ apply moves_ret; apply _ | apply moves_get; apply _ | apply moves_throw | apply moves_assert; apply _
        | apply moves_lift; apply _ | solve [eauto 3 with zos] | apply moves_bind; [apply _| |intros ?]
        | apply moves_mapM; [apply _|intros ?] | progress case_match ].

(** A fold whose steps touch one key each acts on every key independently. *)
Lemma foldl_pointwise {S K A W} `{Countable K} (view : K → S → W)
    (step : S → K * A → S) (g : A → W → W) (l : list (K * A)) (s : S) (j : K) :
  (∀ s k a, view k (step s (k, a)) = g a (view k s)) →
  (∀ s k a j, j ≠ k → view j (step s (k, a)) = view j s) →
  NoDup l.*1 →
  view j (foldl step s l) =
    match (list_to_map l : gmap K A) !! j with
    | Some a => g a (view j s)
    | None => view j s
    end.
Proof.
  intros Heq Hne. revert s. induction l as [|[k a] l IH]; intros s Hnd; [done|].
  apply NoDup_cons in Hnd as [Hk Hnd]. simpl. rewrite IH by done.
  destruct (decide (j = k)) as [->|Hj].
  - rewrite lookup_insert_eq, not_elem_of_list_to_map_1 by done. apply Heq.
  - by rewrite lookup_insert_ne, Hne by done.
Qed.

(** An invariant kept by every step is kept by the loop. *)
Lemma mapM_invariant {S A} (P : S → Prop) (f : A → M S ()) l s s' u :
  (∀ x s s' u, x ∈ l → P s → f x s = Ok (u, s') → P s') →
  P s → mapM_ f l s = Ok (u, s') → P s'.
Proof.
  revert s. induction l as [|x l IH]; intros s Hf Hs Hrun; simpl in Hrun.
  - by inversion Hrun; subst.
  - apply M_bind_Ok in Hrun as (a & s1 & Hx & Hrest).
    eapply IH; [|eapply Hf; [left|exact Hs|exact Hx]|exact Hrest].
    intros y t t' w Hy. apply Hf. by right.
Qed.

(** ** Sums over maps *)

Definition msum {K A} `{Countable K} (f : K → A → Z) (m : gmap K A) : Z :=
  map_fold (λ k a acc, (f k a + acc)%Z) 0%Z m.

Section Sums.
Context {K A : Type} `{Countable K} (f : K → A → Z).
Implicit Types m : gmap K A.

Lemma msum_empty : msum f (∅ : gmap K A) = 0%Z.
Proof. apply map_fold_empty. Qed.

Lemma msum_insert_fresh m k a : m !! k = None → msum f (<[k:=a]> m) = (f k a + msum f m)%Z.
Proof.
  intros Hk. unfold msum. apply (map_fold_insert_L (λ k a acc, (f k a + acc)%Z)); [|done].
  intros j1 j2 z1 z2 y _ _ _. lia.
Qed.

Lemma msum_delete m k a : m !! k = Some a → msum f (delete k m) = (msum f m - f k a)%Z.
Proof.
  intros Hk. rewrite <- (insert_delete_id m k a Hk) at 2.
  rewrite msum_insert_fresh by apply lookup_delete_eq. lia.
Qed.

Lemma msum_insert m k a b : m !! k = Some a → msum f (<[k:=b]> m) = (msum f m - f k a + f k b)%Z.
Proof.
  intros Hk. rewrite <- insert_delete_eq, msum_insert_fresh by apply lookup_delete_eq.
  rewrite (msum_delete m k a Hk). lia.
Qed.

Lemma msum_ext m m' : (∀ k, option_Forall2 (λ a b, f k a = f k b) (m !! k) (m' !! k)) → msum f m = msum f m'.
Proof.
  revert m'. induction m as [|k a m Hk IH] using map_ind; intros m' Hm.
  - assert (m' = ∅) as ->; [|done]. apply map_eq. intros k. specialize (Hm k). rewrite lookup_empty in Hm |- *. by inversion Hm.
  - pose proof (Hm k) as Hb. rewrite lookup_insert_eq in Hb. inversion Hb as [x b Hab Ea Eb|]. subst x. symmetry in Eb.
    rewrite <- (insert_delete_id m' k b Eb), !msum_insert_fresh by (done || apply lookup_delete_eq). rewrite Hab. f_equal.
    apply IH. intros j. destruct (decide (j = k)) as [->|Hj]; [rewrite Hk, lookup_delete_eq; constructor|].
    specialize (Hm j). by rewrite lookup_insert_ne in Hm; [rewrite lookup_delete_ne|].
Qed.

Lemma msum_nonneg m : (∀ k a, m !! k = Some a → 0 ≤ f k a)%Z → (0 ≤ msum f m)%Z.
Proof.
  induction m as [|k a m Hk IH] using map_ind; intros Hm; [by rewrite msum_empty|].
  rewrite msum_insert_fresh by done.
  pose proof (Hm k a (lookup_insert_eq _ _ _)).
  assert (0 ≤ msum f m)%Z; [|lia]. apply IH. intros j b Hj. apply (Hm j).
  rewrite lookup_insert_ne; [done|]. intros ->. congruence.
Qed.
End Sums.

(** ** Sums of lists *)

Definition zsum (l : list Z) : Z := foldr Z.add 0%Z l.

Lemma zsum_cons x l : zsum (x :: l) = (x + zsum l)%Z.
Proof. done. Qed.

Lemma zsum_app l1 l2 : zsum (l1 ++ l2) = (zsum l1 + zsum l2)%Z.
Proof. induction l1 as [|x l1 IH]; cbn; [done|]. fold (zsum (l1 ++ l2)) (zsum l1). lia. Qed.

Lemma zsum_nonneg l : Forall (λ x, 0 ≤ x)%Z l → (0 ≤ zsum l)%Z.
Proof. induction 1 as [|x l Hx _ IH]; cbn; [done|]. fold (zsum l). lia. Qed.

#[export] Instance zsum_Permutation : Proper (Permutation ==> eq) zsum.
Proof. unfold zsum. induction 1; cbn; lia. Qed.

Lemma zsum_take_drop n l : (zsum (take n l) + zsum (drop n l))%Z = zsum l.
Proof. by rewrite <- zsum_app, take_drop. Qed.

Lemma zsum_bounds n l : Forall (λ x, 0 ≤ x ≤ n)%Z l → (0 ≤ zsum l ≤ n * Z.of_nat (length l))%Z.
Proof.
  induction 1 as [|x l Hx _ IH]; cbn [zsum foldr length]; [lia|]. fold (zsum l).
  rewrite Nat2Z.inj_succ, Z.mul_succ_r. lia.
Qed.

(** ** Automation *)

Create HintDb zos.

(** Decompose hypotheses saying that a computation returned. *)
Ltac inv_ok :=
  repeat match goal with
  | H : (_ ≫= _) = Ok _ |- _ => apply bind_Ok in H; destruct H as (?&?&H)
  | H : (_ ≫= _) _ = Ok (_, _) |- _ => apply M_bind_Ok in H; destruct H as (?&?&?&H)
  | H : FC_ASSERT _ = Ok _ |- _ => apply FC_ASSERT_Ok in H
  | H : GRAPHENE_ASSERT _ _ = Ok _ |- _ => apply GRAPHENE_ASSERT_Ok in H
  | H : lift _ _ = Ok (_, _) |- _ => apply lift_Ok in H; destruct H as [H ->]
  | H : assert_st _ _ = Ok (_, _) |- _ => apply assert_st_Ok in H; destruct H as [H ->]
  | H : mret _ = Ok _ |- _ => injection H as H
  | H : mret _ _ = Ok (_, _) |- _ => injection H as H
  | H : get_st _ = Ok (_, _) |- _ => injection H as H
  | H : put_st _ _ = Ok (_, _) |- _ => injection H as H
  | H : modify_st _ _ = Ok (_, _) |- _ => injection H as H
  | H : Ok _ = Ok _ |- _ => injection H as H
  | H : Throw _ = Ok _ |- _ => discriminate H
  | H : (_, _) = (_, _) |- _ => injection H as H
  end; simplify_eq.

(** Run the first steps of a computation of [E] or of [M]. *)
Ltac run_e :=
  cbv beta iota delta [mbind E_bind mret E_ret get_e put_e modify_e assert_e throw_e FC_ASSERT
                       M_bind M_ret get_st put_st modify_st assert_st throw lift].

(** Split the boolean guards of the code in the goal and the hypotheses. *)
Ltac split_guard :=
  match goal with
  | H : context [if ?b then _ else _] |- _ =>
      lazymatch b with
      | context [if _ then _ else _] => fail
      | _ => destruct b eqn:?
      end
  | |- context [if ?b then _ else _] =>
      lazymatch b with
      | context [if _ then _ else _] => fail
      | _ => destruct b eqn:?
      end
  end.

(** ** Machine integers *)

Local Open Scope Z_scope.

Definition int64_min : Z := - 2 ^ 63.
Definition int64_max : Z := 2 ^ 63 - 1.

Definition int64 (z : Z) : Prop := int64_min ≤ z ≤ int64_max.
Definition uint (w z : Z) : Prop := 0 ≤ z < 2 ^ w.

(** Conversion to an unsigned w-bit integer: the value modulo 2^w. *)
Definition to_uint (w z : Z) : Z := z mod 2 ^ w.
(** Conversion to a signed w-bit integer (two's complement). *)
Definition to_sint (w z : Z) : Z :=
  let r := z mod 2 ^ w in if r <? 2 ^ (w - 1) then r else r - 2 ^ w.

(** [lia] with the bounds of the integer types. *)
Ltac int_lia := unfold int64, int64_min, int64_max, uint in *; lia.

Lemma int64_0 : int64 0.
Proof. int_lia. Qed.

#[export] Instance int64_dec z : Decision (int64 z).
Proof. unfold int64. apply _. Defined.
#[export] Instance uint_dec w z : Decision (uint w z).
Proof. unfold uint. apply _. Defined.

Lemma to_uint_range w z : 0 ≤ w → uint w (to_uint w z).
Proof. intros Hw. unfold uint, to_uint. apply Z.mod_pos_bound. by apply Z.pow_pos_nonneg. Qed.

Lemma to_uint_id w z : uint w z → to_uint w z = z.
Proof. apply Z.mod_small. Qed.

Lemma to_sint_id w z : 0 < w → - 2 ^ (w - 1) ≤ z < 2 ^ (w - 1) → to_sint w z = z.
Proof.
  intros Hw Hz. unfold to_sint.
  assert (2 ^ w = 2 * 2 ^ (w - 1)) as Hpow.
  { rewrite <- Z.pow_succ_r by lia. f_equal. lia. }
  destruct (decide (0 ≤ z)).
  - rewrite Z.mod_small by lia. destruct (Z.ltb_spec z (2 ^ (w - 1))); lia.
  - replace (z mod 2 ^ w) with (z + 2 ^ w).
    + destruct (Z.ltb_spec (z + 2 ^ w) (2 ^ (w - 1))); lia.
    + rewrite <- (Z.mod_small (z + 2 ^ w) (2 ^ w)) by lia.
      rewrite <- (Z.mul_1_l (2 ^ w)) at 1. by rewrite Z_mod_plus_full.
Qed.

Lemma to_sint_range z : int64 (to_sint 64 z).
Proof.
  unfold to_sint. pose proof (Z.mod_pos_bound z (2 ^ 64) ltac:(lia)).
  unfold int64, int64_min, int64_max. destruct (Z.ltb_spec (z mod 2 ^ 64) (2 ^ (64 - 1))); lia.
Qed.

Lemma to_sint_64_id z : int64 z → to_sint 64 z = z.
Proof. unfold int64, int64_min, int64_max. intros. apply to_sint_id; lia. Qed.

(** Or-ing a multiple of 2^k with a smaller number adds them. *)
Lemma lor_add_low (k a b : Z) :
  0 ≤ k → 0 ≤ b < 2 ^ k → Z.lor (a * 2 ^ k) b = a * 2 ^ k + b.
Proof.
  intros Hk Hb. pose proof (Z.add_lor_land (a * 2 ^ k) b) as Hadd.
  assert (Z.land (a * 2 ^ k) b = 0) as Hland; [|lia].
  rewrite <- (Z.mod_small b (2 ^ k)), <- Z.land_ones by done.
  rewrite (Z.land_comm b), Z.land_assoc, Z.land_ones, Z.mod_mul by lia.
  apply Z.land_0_l.
Qed.

#[export] Hint Resolve to_uint_id to_sint_64_id : zos.
#[export] Hint Resolve raises_ret raises_get raises_put raises_modify raises_assert raises_bind : zos.
#[export] Hint Resolve same_ret same_throw same_lift same_assert same_bind : zos.
#[export] Hint Resolve keeps_ret keeps_get keeps_throw keeps_assert keeps_bind : zos.
