(* ===== verification/ObjectId.v ===== *)
(** * Object identifiers: [object_id_type] of libraries/db/include/graphene/db/object_id.hpp

    A 64-bit number packing an 8-bit space, an 8-bit type and a 48-bit instance,
    its accessors, its successor and its textual form ["space.type.instance"]. *)

From S2P Require Import Prelude.
From Stdlib Require Import Ascii DecimalString DecimalPos DecimalN.

Local Open Scope Z_scope.

Record object_id_type := mk_id { number : Z }.

#[export] Instance object_id_eq_dec : EqDecision object_id_type.
Proof. solve_decision. Defined.
#[export] Instance object_id_countable : Countable object_id_type.
Proof.
  refine (inj_countable' number mk_id _). by intros [].
Defined.

(** [GRAPHENE_DB_MAX_INSTANCE_ID], i.e. [uint64_t(-1)>>16]. *)
Definition GRAPHENE_DB_MAX_INSTANCE_ID : Z := Z.shiftr (to_uint 64 (-1)) 16.

(** The constructor [object_id_type( uint8_t s, uint8_t t, uint64_t i )]. *)
Definition make_id (s t i : Z) : result object_id_type :=
  FC_ASSERT (Z.shiftr i 48 =? 0) ;;
  mret (mk_id (Z.lor (Z.lor (to_uint 64 (Z.shiftl s 56)) (to_uint 64 (Z.shiftl t 48))) i)).

Definition space (id : object_id_type) : Z := to_uint 8 (Z.shiftr (number id) 56).
Definition type (id : object_id_type) : Z :=
  to_uint 8 (Z.land (Z.shiftr (number id) 48) 255).
Definition space_type (id : object_id_type) : Z := to_uint 16 (Z.shiftr (number id) 48).
Definition instance (id : object_id_type) : Z :=
  Z.land (number id) GRAPHENE_DB_MAX_INSTANCE_ID.
Definition is_null (id : object_id_type) : bool := instance id =? 0.

(** [operator++]: the number is incremented modulo 2^64. *)
Definition next (id : object_id_type) : object_id_type := mk_id (to_uint 64 (number id + 1)).

(** [operator+( id, int64_t delta )]. *)
Definition id_add (a : object_id_type) (delta : Z) : result object_id_type :=
  make_id (space a) (type a) (to_uint 64 (instance a + delta)).

(** [is<T>()] for a class whose static ids are [s] and [t]. *)
Definition is_type (s t : Z) (id : object_id_type) : bool :=
  Z.shiftr (number id) 48 =? Z.lor (Z.shiftl s 8) t.

(** ** Arithmetic reading of the packing *)

Definition pack (s t i : Z) : Z := s * 2 ^ 56 + t * 2 ^ 48 + i.

Lemma max_instance_ones : GRAPHENE_DB_MAX_INSTANCE_ID = Z.ones 48.
Proof. reflexivity. Qed.

Lemma make_id_Ok (s t i : Z) :
  uint 8 s → uint 8 t → uint 48 i → make_id s t i = Ok (mk_id (pack s t i)).
Proof.
  unfold uint, make_id, pack. intros Hs Ht Hi.
  rewrite Z.shiftr_div_pow2, Z.div_small by lia. simpl.
  unfold mret, result_ret. do 2 f_equal.
  rewrite !Z.shiftl_mul_pow2, !to_uint_id by (unfold uint; lia).
  replace (s * 2 ^ 56) with ((s * 2 ^ 8) * 2 ^ 48) by lia.
  replace (Z.lor (s * 2 ^ 8 * 2 ^ 48) (t * 2 ^ 48)) with ((s * 2 ^ 8 + t) * 2 ^ 48).
  - rewrite lor_add_low by lia. lia.
  - rewrite <- (lor_add_low 8 s t) by lia.
    rewrite <- !Z.shiftl_mul_pow2, Z.shiftl_lor by lia. reflexivity.
Qed.

Lemma space_pack (s t i : Z) :
  uint 8 s → uint 8 t → uint 48 i → space (mk_id (pack s t i)) = s.
Proof.
  unfold uint, space, pack. intros. simpl number. rewrite Z.shiftr_div_pow2 by lia.
  replace (s * 2 ^ 56 + t * 2 ^ 48 + i) with (t * 2 ^ 48 + i + s * 2 ^ 56) by lia.
  rewrite Z.div_add, Z.div_small by lia. rewrite to_uint_id; unfold uint; lia.
Qed.

Lemma type_pack (s t i : Z) :
  uint 8 s → uint 8 t → uint 48 i → type (mk_id (pack s t i)) = t.
Proof.
  unfold uint, type, pack. intros. simpl number. change 255 with (Z.ones 8).
  rewrite Z.shiftr_div_pow2, Z.land_ones by lia.
  replace (s * 2 ^ 56 + t * 2 ^ 48 + i) with (i + (t + s * 2 ^ 8) * 2 ^ 48) by lia.
  rewrite Z.div_add, Z.div_small, Z.add_0_l, Z_mod_plus_full, Z.mod_small by lia.
  rewrite to_uint_id; unfold uint; lia.
Qed.

Lemma instance_pack (s t i : Z) : uint 48 i → instance (mk_id (pack s t i)) = i.
Proof.
  unfold uint, instance, pack. intros. simpl number.
  rewrite max_instance_ones, Z.land_ones by lia.
  replace (s * 2 ^ 56 + t * 2 ^ 48 + i) with (i + (t + s * 2 ^ 8) * 2 ^ 48) by lia.
  by rewrite Z_mod_plus_full, Z.mod_small by lia.
Qed.

(** Every 64-bit number is the packing of its three fields. *)
Lemma pack_fields (id : object_id_type) :
  uint 64 (number id) → number id = pack (space id) (type id) (instance id).
Proof.
  unfold uint, pack, space, type, instance. intros Hn.
  change 255 with (Z.ones 8). rewrite max_instance_ones, !Z.land_ones by lia.
  rewrite !Z.shiftr_div_pow2 by lia. unfold to_uint.
  rewrite Z.mod_mod by lia.
  pose proof (Z.div_mod (number id) (2 ^ 48) ltac:(lia)).
  pose proof (Z.div_mod (number id / 2 ^ 48) (2 ^ 8) ltac:(lia)).
  rewrite Z.div_div in * by lia. change (2 ^ 48 * 2 ^ 8) with (2 ^ 56) in *.
  rewrite (Z.mod_small (number id / 2 ^ 56)); [lia|].
  split; [apply Z.div_pos; lia|]. apply Z.div_lt_upper_bound; lia.
Qed.

Lemma fields_range (id : object_id_type) :
  uint 8 (space id) ∧ uint 8 (type id) ∧ uint 48 (instance id).
Proof.
  unfold space, type, instance. split_and!; try (apply to_uint_range; lia).
  rewrite max_instance_ones, Z.land_ones by lia. apply Z.mod_pos_bound. lia.
Qed.

#[export] Hint Resolve fields_range : zos.

(** ** Text: [operator std::string] and [from_variant]

    [fc::to_string] and [fc::to_uint64] only call [boost::lexical_cast], which
    is not part of the repository: they are parameters. *)
Section Text.
Context (fc_to_string : Z → string) (fc_to_uint64 : string → result Z).

Definition id_to_string (id : object_id_type) : string :=
  (fc_to_string (space id) +:+ "." +:+ fc_to_string (type id) +:+ "."
    +:+ fc_to_string (instance id))%string.

(** [std::string::find( '.', from )] *)
Fixpoint find_dot (from : nat) (s : string) : option nat :=
  match s with
  | EmptyString => None
  | String c s =>
      match from with
      | O => if Ascii.eqb c "." then Some 0%nat else S <$> find_dot 0 s
      | S from => S <$> find_dot from s
      end
  end.

(** [from_variant( var, object_id_type& )], on the string of the variant.
    [std::string::npos + 1] wraps to 0. *)
Definition id_from_string (s : string) : result object_id_type :=
  let first_dot := find_dot 0 s in
  let after := λ d, match d with Some n => S n | None => 0%nat end in
  let second_dot := find_dot (after first_dot) s in
  FC_ASSERT (bool_decide (first_dot ≠ second_dot)) ;;
  FC_ASSERT (bool_decide (first_dot ≠ Some 0%nat) && bool_decide (first_dot ≠ None)) ;;
  let len := String.length s in
  i ← fc_to_uint64 (String.substring (after second_dot) (len - after second_dot) s) ;
  FC_ASSERT (i <=? GRAPHENE_DB_MAX_INSTANCE_ID) ;;
  let fd := default 0%nat first_dot in
  space_id ← fc_to_uint64 (String.substring 0 fd s) ;
  FC_ASSERT (space_id <=? 255) ;;
  let sd := default len second_dot in
  type_id ← fc_to_uint64 (String.substring (S fd) (sd - fd - 1) s) ;
  FC_ASSERT (type_id <=? 255) ;;
  mret (mk_id (Z.lor i (Z.lor (to_uint 64 (Z.shiftl space_id 56))
                              (to_uint 64 (Z.shiftl type_id 48))))).
End Text.

(** ** Properties *)

Fixpoint no_dot (s : string) : bool :=
  match s with
  | EmptyString => true
  | String c s => negb (Ascii.eqb c "."%char) && no_dot s
  end.

Lemma find_dot_first (a b : string) :
  no_dot a = true → find_dot 0 (a +:+ "." +:+ b) = Some (String.length a).
Proof.
  induction a as [|c a IH]; intros Ha; [done|]. simpl in *.
  apply andb_true_iff in Ha as [Hc Ha]. apply negb_true_iff in Hc.
  by rewrite Hc, IH.
Qed.

Lemma find_dot_skip (a b : string) (n : nat) :
  find_dot (String.length a + n) (a +:+ b) = Nat.add (String.length a) <$> find_dot n b.
Proof.
  induction a as [|c a IH]; simpl; [change ("" +:+ b) with b; by destruct (find_dot n b)|].
  rewrite IH. by destruct (find_dot n b).
Qed.

Lemma substring_full (s : string) : String.substring 0 (String.length s) s = s.
Proof. induction s as [|c s IH]; simpl; [done|f_equal; apply IH]. Qed.

Lemma substring_prefix (a b : string) : String.substring 0 (String.length a) (a +:+ b) = a.
Proof. induction a as [|c a IH]; simpl; [by destruct b|f_equal; apply IH]. Qed.

Lemma substring_skip (a b : string) (k n : nat) :
  String.substring (String.length a + k) n (a +:+ b) = String.substring k n b.
Proof. induction a; simpl; auto. Qed.

Lemma string_length_app (a b : string) :
  String.length (a +:+ b) = (String.length a + String.length b)%nat.
Proof. induction a as [|c a IH]; cbn; [done|by rewrite <- IH]. Qed.

(** The three substrings [from_variant] cuts out of ["a.b.c"]. *)
Lemma split_dots (a b c : string) :
  no_dot a = true → no_dot b = true →
  let s := (a +:+ "." +:+ b +:+ "." +:+ c)%string in
  let fd := String.length a in
  let sd := (fd + S (String.length b))%nat in
  find_dot 0 s = Some fd ∧ find_dot (S fd) s = Some sd ∧
  String.substring 0 fd s = a ∧ String.substring (S fd) (sd - fd - 1) s = b ∧
  String.substring (S sd) (String.length s - S sd) s = c.
Proof.
  intros Ha Hb s fd sd.
  assert (∀ k n, String.substring (S (fd + k)) n s = String.substring k n (b +:+ "." +:+ c)) as Hcut.
  { intros k n. unfold s, fd.
    replace (S (String.length a + k)) with (String.length a + S k)%nat by lia.
    by rewrite substring_skip. }
  split_and!.
  - by apply find_dot_first.
  - unfold s, fd, sd. replace (S (String.length a)) with (String.length a + 1)%nat by lia.
    rewrite find_dot_skip. change (find_dot 1 ("." +:+ (b +:+ "." +:+ c)))
      with (find_dot (String.length "." + 0) ("." +:+ (b +:+ "." +:+ c))).
    rewrite find_dot_skip, find_dot_first by done. done.
  - apply substring_prefix.
  - replace (S fd) with (S (fd + 0)) by lia. rewrite Hcut.
    replace (sd - fd - 1)%nat with (String.length b) by (unfold sd; lia).
    apply substring_prefix.
  - unfold sd. rewrite Hcut.
    replace (String.length s - _)%nat with (String.length c).
    + replace (S (String.length b)) with (String.length b + 1)%nat by lia.
      rewrite substring_skip. simpl. apply substring_full.
    + unfold s, fd. rewrite !string_length_app. cbn. lia.
Qed.

(** A space, type and instance within their widths are recovered from the
    packed number, and the packed number from them. *)
Lemma make_id_fields (s t i : Z) id :
  uint 8 s → uint 8 t → uint 64 i → make_id s t i = Ok id →
  space id = s ∧ type id = t ∧ instance id = i.
Proof.
  intros Hs Ht Hi Hok.
  assert (uint 48 i) as Hi48.
  { unfold make_id in Hok. inv_ok. apply Z.eqb_eq in H.
    rewrite Z.shiftr_div_pow2 in H by lia. unfold uint in *.
    apply Z.div_small_iff in H; lia. }
  rewrite make_id_Ok in Hok by done. inv_ok.
  by rewrite space_pack, type_pack, instance_pack by done.
Qed.

(** The parser of [from_variant] reassembles the number from its fields. *)
Lemma make_id_number id :
  uint 64 (number id) →
  mk_id (Z.lor (instance id) (Z.lor (to_uint 64 (Z.shiftl (space id) 56))
                                    (to_uint 64 (Z.shiftl (type id) 48)))) = id.
Proof.
  intros Hid. destruct (fields_range id) as (Hs & Ht & Hi).
  pose proof (make_id_Ok _ _ _ Hs Ht Hi) as Hmk. unfold make_id in Hmk. inv_ok.
  destruct id as [n]. f_equal. rewrite Z.lor_comm, Hmk. by rewrite <- pack_fields.
Qed.

Section TextRoundtrip.
Context (fc_to_string : Z → string) (fc_to_uint64 : string → result Z).
(** What the code relies on of [boost::lexical_cast]: it parses back what it
    prints for a [uint64_t], and what it prints is not empty and has no dot. *)
Hypothesis lexical_cast_parse : ∀ z, uint 64 z → fc_to_uint64 (fc_to_string z) = Ok z.
Hypothesis lexical_cast_digits : ∀ z, uint 64 z → no_dot (fc_to_string z) = true.
Hypothesis lexical_cast_nonempty : ∀ z, uint 64 z → fc_to_string z ≠ "".

(** Printing an identifier and parsing the text back gives the identifier. *)
Theorem id_text_roundtrip id :
  uint 64 (number id) →
  id_from_string fc_to_uint64 (id_to_string fc_to_string id) = Ok id.
Proof.
  intros Hid. destruct (fields_range id) as (Hs & Ht & Hi).
  assert (∀ w z, 0 ≤ w ≤ 64 → uint w z → uint 64 z) as Hwide.
  { unfold uint. intros w z Hw Hz. pose proof (Z.pow_le_mono_r 2 w 64). lia. }
  unfold id_from_string, id_to_string.
  assert (uint 64 (space id) ∧ uint 64 (type id) ∧ uint 64 (instance id)) as (Hs' & Ht' & Hi').
  { split_and!; [apply (Hwide 8)|apply (Hwide 8)|apply (Hwide 48)]; done || lia. }
  pose proof (split_dots (fc_to_string (space id)) (fc_to_string (type id))
    (fc_to_string (instance id)) (lexical_cast_digits _ Hs') (lexical_cast_digits _ Ht')) as Hd.
  pose proof (lexical_cast_digits _ Hs') as Hnd.
  cbv zeta in Hd. destruct Hd as (H1 & H2 & H3 & H4 & H5).
  rewrite H1. cbv beta iota. rewrite H2. cbv beta iota. simpl default.
  rewrite H3, H4, H5, !lexical_cast_parse by done.
  pose proof (lexical_cast_nonempty _ Hs') as Hne.
  assert (String.length (fc_to_string (space id)) ≠ 0%nat) as Hlen.
  { by destruct (fc_to_string (space id)). }
  rewrite !bool_decide_eq_true_2 by (intros ?; simplify_eq; lia).
  cbn [mbind result_bind FC_ASSERT andb].
  assert ((instance id <=? GRAPHENE_DB_MAX_INSTANCE_ID) = true) as ->.
  { apply Z.leb_le. change GRAPHENE_DB_MAX_INSTANCE_ID with (2 ^ 48 - 1). unfold uint in Hi. lia. }
  assert ((space id <=? 255) = true) as -> by (apply Z.leb_le; unfold uint in Hs; lia).
  assert ((type id <=? 255) = true) as -> by (apply Z.leb_le; unfold uint in Ht; lia).
  cbn [mbind result_bind FC_ASSERT andb mret result_ret].
  f_equal. by apply make_id_number.
Qed.
End TextRoundtrip.

(** ** Witnesses *)

(** A concrete [boost::lexical_cast] on unsigned integers. *)
Module DecimalText.
Definition print (z : Z) : string := NilZero.string_of_uint (N.to_uint (Z.to_N z)).
Definition parse (s : string) : result Z :=
  match NilZero.uint_of_string s with
  | Some u => Ok (Z.of_N (N.of_uint u))
  | None => Throw parse_error_exception
  end.

Lemma parse_print (z : Z) : 0 ≤ z → parse (print z) = Ok z.
Proof.
  intros Hz. unfold parse, print. rewrite NilZero.usu.
  - rewrite DecimalN.Unsigned.of_to. f_equal. by rewrite Z2N.id.
  - destruct (Z.to_N z); [done|]. apply DecimalPos.Unsigned.to_uint_nonnil.
Qed.

Lemma print_no_dot (z : Z) : no_dot (print z) = true.
Proof.
  unfold print. generalize (N.to_uint (Z.to_N z)). intros u.
  assert (∀ u, no_dot (NilEmpty.string_of_uint u) = true) as Hu by (induction u0; simpl; auto).
  destruct u; try apply Hu; done.
Qed.

Lemma print_nonempty (z : Z) : print z ≠ "".
Proof. unfold print. by destruct (N.to_uint (Z.to_N z)). Qed.
End DecimalText.

Lemma id_text_roundtrip_witness :
  id_from_string DecimalText.parse (id_to_string DecimalText.print (mk_id (pack 1 3 7)))
    = Ok (mk_id (pack 1 3 7))
  ∧ id_to_string DecimalText.print (mk_id (pack 1 3 7)) = "1.3.7".
Proof.
  split; [|reflexivity].
  apply (id_text_roundtrip DecimalText.print DecimalText.parse).
  - intros z [Hz _]. by apply DecimalText.parse_print.
  - intros. apply DecimalText.print_no_dot.
  - intros. apply DecimalText.print_nonempty.
  - vm_compute. by split.
Defined.
