(* ===== verification/ObjectDb.v ===== *)
(** * The object database and its undo history

    Models libraries/db: [object_database], the [generic_index] containers behind
    [primary_index], and [undo_database] with its sessions.  The file holds the
    operations only; UndoRefinement states and proves what they promise. *)

From S2P Require Import Prelude ObjectId.

Local Open Scope Z_scope.

(** [object_id_type( obj.id.space(), obj.id.type(), 0 )], the key of an index. *)
Definition index_id (id : object_id_type) : object_id_type :=
  match make_id (space id) (type id) 0 with Ok i => i | Throw _ => id end.

(** ** State *)

(** An object is its id (the key of the maps below) and its other fields, [V]. *)
Record undo_state (V : Type) := mk_undo_state {
  old_values : gmap object_id_type V;
  old_index_next_ids : gmap object_id_type object_id_type;
  new_ids : gset object_id_type;
  removed : gmap object_id_type V;
}.
Arguments mk_undo_state {V}.
Arguments old_values {V}.
Arguments old_index_next_ids {V}.
Arguments new_ids {V}.
Arguments removed {V}.

(** [stack] lists the deque [_stack] from its back to its front. *)
Record undo_database (V : Type) := mk_undo_db {
  active_sessions : Z;
  disabled : bool;
  stack : list (undo_state V);
  max_size : Z;
}.
Arguments mk_undo_db {V}.
Arguments active_sessions {V}.
Arguments disabled {V}.
Arguments stack {V}.
Arguments max_size {V}.

(** [next_ids] holds the [_next_id] of every registered index, keyed by
    [index_id]: an absent key is an index that was never added. *)
Record object_database (V : Type) := mk_db {
  objects : gmap object_id_type V;
  next_ids : gmap object_id_type object_id_type;
  undo_db : undo_database V;
}.
Arguments mk_db {V}.
Arguments objects {V}.
Arguments next_ids {V}.
Arguments undo_db {V}.

Definition empty_state {V} : undo_state V := mk_undo_state ∅ ∅ ∅ ∅.

Section Undo.
Context {V : Type}.
Abbreviation undo_state := (undo_state V).
Abbreviation undo_database := (undo_database V).

Definition set_stack (l : list undo_state) (u : undo_database) : undo_database :=
  mk_undo_db (active_sessions u) (disabled u) l (max_size u).
Definition set_active (n : Z) (u : undo_database) : undo_database :=
  mk_undo_db n (disabled u) (stack u) (max_size u).
Definition set_disabled (b : bool) (u : undo_database) : undo_database :=
  mk_undo_db (active_sessions u) b (stack u) (max_size u).
Definition set_max_size (n : Z) (u : undo_database) : undo_database :=
  mk_undo_db (active_sessions u) (disabled u) (stack u) n.
Definition enable : undo_database → undo_database := set_disabled false.
Definition disable : undo_database → undo_database := set_disabled true.

Definition size (u : undo_database) : Z := Z.of_nat (length (stack u)).

(** [_stack.back()], on a stack that gets one state when it is empty. *)
Definition update_back (f : undo_state → undo_state) (u : undo_database) : undo_database :=
  match stack u with
  | [] => set_stack [f empty_state] u
  | st :: l => set_stack (f st :: l) u
  end.

Definition state_on_create (id : object_id_type) (st : undo_state) : undo_state :=
  mk_undo_state (old_values st)
    (match old_index_next_ids st !! index_id id with
     | None => <[index_id id := id]> (old_index_next_ids st)
     | Some _ => old_index_next_ids st
     end)
    ({[id]} ∪ new_ids st) (removed st).

Definition state_on_modify (id : object_id_type) (v : V) (st : undo_state) : undo_state :=
  if bool_decide (id ∈ new_ids st) then st
  else match old_values st !! id with
       | Some _ => st
       | None => mk_undo_state (<[id := v]> (old_values st)) (old_index_next_ids st)
                   (new_ids st) (removed st)
       end.

Definition state_on_remove (id : object_id_type) (v : V) (st : undo_state) : undo_state :=
  if bool_decide (id ∈ new_ids st) then
    mk_undo_state (old_values st) (old_index_next_ids st) (new_ids st ∖ {[id]}) (removed st)
  else match old_values st !! id with
       | Some w => mk_undo_state (delete id (old_values st)) (old_index_next_ids st)
                     (new_ids st) (<[id := w]> (removed st))
       | None =>
           match removed st !! id with
           | Some _ => st
           | None => mk_undo_state (old_values st) (old_index_next_ids st) (new_ids st)
                       (<[id := v]> (removed st))
           end
       end.

Definition on_create (id : object_id_type) (u : undo_database) : undo_database :=
  if disabled u then u else update_back (state_on_create id) u.
Definition on_modify (id : object_id_type) (v : V) (u : undo_database) : undo_database :=
  if disabled u then u else update_back (state_on_modify id v) u.
Definition on_remove (id : object_id_type) (v : V) (u : undo_database) : undo_database :=
  if disabled u then u else update_back (state_on_remove id v) u.

(** The loops of [merge()]; each moves one entry of [state] into [prev_state]. *)
Definition merge_upd (prev : undo_state) (e : object_id_type * V) : undo_state :=
  let '(id, v) := e in
  if bool_decide (id ∈ new_ids prev) then prev
  else match old_values prev !! id with
       | Some _ => prev
       | None => mk_undo_state (<[id := v]> (old_values prev)) (old_index_next_ids prev)
                   (new_ids prev) (removed prev)
       end.
Definition merge_new (prev : undo_state) (id : object_id_type) : undo_state :=
  mk_undo_state (old_values prev) (old_index_next_ids prev) ({[id]} ∪ new_ids prev)
    (removed prev).
Definition merge_next (prev : undo_state) (e : object_id_type * object_id_type) : undo_state :=
  let '(idx, nx) := e in
  match old_index_next_ids prev !! idx with
  | None => mk_undo_state (old_values prev) (<[idx := nx]> (old_index_next_ids prev))
              (new_ids prev) (removed prev)
  | Some _ => prev
  end.
Definition merge_del (prev : undo_state) (e : object_id_type * V) : undo_state :=
  let '(id, v) := e in
  if bool_decide (id ∈ new_ids prev) then
    mk_undo_state (old_values prev) (old_index_next_ids prev) (new_ids prev ∖ {[id]})
      (removed prev)
  else match old_values prev !! id with
       | Some w => mk_undo_state (delete id (old_values prev)) (old_index_next_ids prev)
                     (new_ids prev) (<[id := w]> (removed prev))
       | None => mk_undo_state (old_values prev) (old_index_next_ids prev) (new_ids prev)
                   (<[id := v]> (removed prev))
       end.
Definition merge_state (st prev : undo_state) : undo_state :=
  let prev := foldl merge_upd prev (map_to_list (old_values st)) in
  let prev := foldl merge_new prev (elements (new_ids st)) in
  let prev := foldl merge_next prev (map_to_list (old_index_next_ids st)) in
  foldl merge_del prev (map_to_list (removed st)).

(** [merge()] *)
Definition merge (u : undo_database) : result undo_database :=
  FC_ASSERT (0 <? active_sessions u) ;;
  match stack u with
  | [_] =>
      if active_sessions u =? 1 then mret (set_active (active_sessions u - 1) (set_stack [] u))
      else Throw assert_exception
  | st :: prev :: l =>
      mret (set_active (active_sessions u - 1) (set_stack (merge_state st prev :: l) u))
  | [] => Throw assert_exception
  end.

(** [commit()] *)
Definition commit (u : undo_database) : result undo_database :=
  FC_ASSERT (0 <? active_sessions u) ;;
  mret (set_active (active_sessions u - 1) u).

(** [while( size() > max_size() ) _stack.pop_front();] *)
Definition drop_front (u : undo_database) : undo_database :=
  if max_size u <? size u then set_stack (take (Z.to_nat (max_size u)) (stack u)) u else u.

(** A session: the flags of the C++ object. *)
Record session := mk_session { apply_undo : bool; disable_on_exit : bool }.

Definition start_undo_session (force_enable : bool) (u : undo_database) : session * undo_database :=
  if disabled u && negb force_enable then (mk_session true false, u)
  else
    let disable_on_exit := disabled u && force_enable in
    let u := if force_enable then enable u else u in
    let u := drop_front u in
    (mk_session true disable_on_exit,
     set_active (active_sessions u + 1) (set_stack (empty_state :: stack u) u)).
End Undo.

(** ** The database operations *)

Section Database.
Context {V : Type}.
(** Whether two objects of one container are equivalent under one of its
    unique indices other than the id.  The containers are
    [boost::multi_index_container]s, which are not part of the repository. *)
Context (clash : V → V → bool).

Abbreviation db := (object_database V).
Abbreviation X := (E db).

Definition set_objects (m : gmap object_id_type V) (d : db) : db :=
  mk_db m (next_ids d) (undo_db d).
Definition set_next_ids (m : gmap object_id_type object_id_type) (d : db) : db :=
  mk_db (objects d) m (undo_db d).
Definition set_undo (u : undo_database V) (d : db) : db :=
  mk_db (objects d) (next_ids d) u.
Definition map_undo (f : undo_database V → undo_database V) (d : db) : db :=
  set_undo (f (undo_db d)) d.

(** The element [v] may be stored under [id] beside the others. *)
Definition admits (m : gmap object_id_type V) (id : object_id_type) (v : V) : bool :=
  bool_decide (map_Forall (λ id' w,
    id' = id ∨ index_id id' ≠ index_id id ∨ clash v w = false) m).

(** [get_index( space, type )]: asserts that the index was added. *)
Definition get_index (id : object_id_type) : X object_id_type :=
  d ← get_e ;
  match next_ids d !! index_id id with
  | Some nx => mret nx
  | None => throw_e assert_exception
  end.

Definition find_object (id : object_id_type) : X (option V) :=
  get_index id ;; d ← get_e ; mret (objects d !! id).

Definition get_object (id : object_id_type) : X V :=
  o ← find_object id ;
  match o with Some v => mret v | None => throw_e assert_exception end.

(** [multi_index_container::insert]: nothing is inserted when the element
    collides with another one. *)
Definition container_insert (id : object_id_type) (v : V) : X () :=
  d ← get_e ;
  assert_e (bool_decide (objects d !! id = None) && admits (objects d) id v) ;;
  put_e (set_objects (<[id := v]> (objects d)) d).

(** [multi_index_container::modify]: a modification that collides erases the
    element and is reported, which [generic_index::modify] asserts against. *)
Definition container_modify (id : object_id_type) (v : V) : X () :=
  d ← get_e ;
  if admits (delete id (objects d)) id v
  then put_e (set_objects (<[id := v]> (objects d)) d)
  else put_e (set_objects (delete id (objects d)) d) ;; throw_e assert_exception.

(** [primary_index::create] over [generic_index::create]. *)
Definition db_create (idx : object_id_type) (constructor : object_id_type → V) : X object_id_type :=
  id ← get_index idx ;
  container_insert id (constructor id) ;;
  modify_e (λ d, set_next_ids (<[index_id idx := next id]> (next_ids d)) d) ;;
  modify_e (map_undo (on_create id)) ;;
  mret id.

(** [primary_index::modify] on the object [get_object( id )] returns. *)
Definition db_modify (id : object_id_type) (m : V → V) : X () :=
  v ← get_object id ;
  modify_e (map_undo (on_modify id v)) ;;
  container_modify id (m v).

(** [primary_index::remove] on the object [get_object( id )] returns. *)
Definition db_remove (id : object_id_type) : X () :=
  v ← get_object id ;
  modify_e (map_undo (on_remove id v)) ;;
  modify_e (λ d, set_objects (delete id (objects d)) d).

(** [primary_index::insert] *)
Definition db_insert (id : object_id_type) (v : V) : X () :=
  get_index id ;;
  container_insert id v ;;
  modify_e (map_undo (on_create id)).

(** [primary_index::set_next_id] *)
Definition set_next_id (idx nx : object_id_type) : X () :=
  cur ← get_index idx ;
  assert_e (type cur =? type nx) ;;
  modify_e (λ d, set_next_ids (<[index_id idx := nx]> (next_ids d)) d).

(** The loops that [undo()] and [pop_commit()] share. *)
Definition restore (st : undo_state V) : X () :=
  mapE_ (λ '(id, v), db_modify id (λ _, v)) (map_to_list (old_values st)) ;;
  mapE_ db_remove (elements (new_ids st)) ;;
  mapE_ (λ '(idx, nx), set_next_id idx nx) (map_to_list (old_index_next_ids st)) ;;
  mapE_ (λ '(id, v), db_insert id v) (map_to_list (removed st)).

(** [undo()].  Reading [_stack.back()] of an empty stack is undefined in the
    code; the model throws. *)
Definition undo : X () :=
  d ← get_e ;
  assert_e (negb (disabled (undo_db d))) ;;
  assert_e (0 <? active_sessions (undo_db d)) ;;
  modify_e (map_undo disable) ;;
  match stack (undo_db d) with
  | [] => throw_e other_exception
  | st :: rest =>
      restore st ;;
      modify_e (map_undo (set_stack rest)) ;;
      modify_e (map_undo enable) ;;
      modify_e (map_undo (λ u, set_active (active_sessions u - 1) u))
  end.

(** [pop_commit()]: the handler re-enables the history and rethrows. *)
Definition pop_commit : X () :=
  d ← get_e ;
  assert_e (active_sessions (undo_db d) =? 0) ;;
  match stack (undo_db d) with
  | [] => throw_e assert_exception
  | st :: rest =>
      modify_e (map_undo disable) ;;
      ((λ d, let '(d', r) := (restore st ;; modify_e (map_undo (set_stack rest))) d in
             (map_undo enable d', r)) : X ())
  end.

Definition lift_undo (f : undo_database V → result (undo_database V)) : X () := λ d,
  match f (undo_db d) with
  | Ok u => (set_undo u d, Ok ())
  | Throw e => (d, Throw e)
  end.

(** The methods of [undo_database::session]. *)
Definition session_start (force_enable : bool) : X session := λ d,
  let '(s, u) := start_undo_session force_enable (undo_db d) in (set_undo u d, Ok s).
Definition session_commit (s : session) : X session :=
  lift_undo commit ;; mret (mk_session false (disable_on_exit s)).
Definition session_undo (s : session) : X session :=
  (if apply_undo s then undo else mret ()) ;; mret (mk_session false (disable_on_exit s)).
Definition session_merge (s : session) : X session :=
  (if apply_undo s then lift_undo merge else mret ()) ;; mret (mk_session false (disable_on_exit s)).
Definition session_destroy (s : session) : X () :=
  (if apply_undo s then undo else mret ()) ;;
  (if disable_on_exit s then modify_e (map_undo disable) else mret ()).

(** A block [{ auto s = start_undo_session(); body; finish( s ); }].  When the
    body throws, the destructor of [s] runs before the exception leaves the
    block; when [finish] throws, it runs on the session as [finish] left it,
    [failed s].  (An exception of the destructor while another one is in
    flight terminates the program; the model returns the first one.) *)
Definition with_session {A} (failed : session → session) (finish : session → X session)
    (body : X A) : X A := λ d,
  match session_start false d with
  | (d, Throw e) => (d, Throw e)
  | (d, Ok s) =>
      match body d with
      | (d, Throw e) => ((session_destroy s d).1, Throw e)
      | (d, Ok a) =>
          match finish s d with
          | (d, Throw e) => ((session_destroy (failed s) d).1, Throw e)
          | (d, Ok s') => (session_destroy s' ;; mret a) d
          end
      end
  end.
Definition with_merged_session {A} : X A → X A := with_session id session_merge.
Definition with_committed_session {A} : X A → X A :=
  with_session (λ s, mk_session false (disable_on_exit s)) session_commit.
End Database.
