(* ===== verification/UndoRefinement.v ===== *)
(** * The undo history implements a stack of snapshots

    The contract of [undo_database] (ObjectDb): every state of [_stack] stands for
    a snapshot of the whole database, [undo()] and [pop_commit()] return to the
    snapshot on top, [merge()] forgets it, and the mutators of the database
    change the current contents only.  [refines] relates a database to the
    current contents and the list of snapshots. *)

From S2P Require Import Prelude ObjectId ObjectDb.

Local Open Scope Z_scope.

(** ** Index keys *)

Lemma index_id_pack id : index_id id = mk_id (pack (space id) (type id) 0).
Proof.
  unfold index_id. destruct (fields_range id) as (Hs & Ht & _).
  rewrite make_id_Ok; [done..|]. unfold uint. lia.
Qed.

Lemma space_index id : space (index_id id) = space id.
Proof.
  rewrite index_id_pack. destruct (fields_range id) as (? & ? & _).
  apply space_pack; [done..|]. unfold uint. lia.
Qed.

Lemma type_index id : type (index_id id) = type id.
Proof.
  rewrite index_id_pack. destruct (fields_range id) as (? & ? & _).
  apply type_pack; [done..|]. unfold uint. lia.
Qed.

Lemma index_index id : index_id (index_id id) = index_id id.
Proof. rewrite !(index_id_pack (index_id _)), space_index, type_index. symmetry. apply index_id_pack. Qed.

(** As long as the 48-bit instance does not overflow, the successor of an id
    stays in its index. *)
Lemma next_in_index id :
  uint 64 (number id) → instance id < GRAPHENE_DB_MAX_INSTANCE_ID →
  number (next id) = number id + 1 ∧ uint 64 (number (next id)) ∧ index_id (next id) = index_id id.
Proof.
  intros Hid Hi. change GRAPHENE_DB_MAX_INSTANCE_ID with (2 ^ 48 - 1) in Hi.
  destruct (fields_range id) as (Hs & Ht & Hin).
  pose proof (pack_fields id Hid) as Hnum.
  assert (uint 64 (number id + 1)) as Hsucc.
  { unfold uint, pack in *. lia. }
  assert (number (next id) = number id + 1) as Hnext by (apply to_uint_id; done).
  split_and!; [done|by rewrite Hnext|].
  assert (next id = mk_id (pack (space id) (type id) (instance id + 1))) as ->.
  { destruct (next id) as [n] eqn:E. simpl in Hnext. f_equal. unfold pack in *. lia. }
  assert (uint 48 (instance id + 1)) by (unfold uint in *; lia).
  rewrite !index_id_pack, space_pack, type_pack by done. done.
Qed.

Lemma some_union {A} (x : A) (o : option A) : Some x ∪ o = Some x.
Proof. by destruct o. Qed.

(** ** Snapshots *)

Section Refinement.
Context {V : Type} (clash : V → V → bool).
Hypothesis clash_sym : ∀ v w, clash v w = clash w v.

Abbreviation undo_state := (undo_state V).
Abbreviation db := (object_database V).

(** The contents of a database: its objects and the next id of its indexes. *)
Definition snapshot : Type :=
  gmap object_id_type V * gmap object_id_type object_id_type.
Definition db_snap (d : db) : snapshot := (objects d, next_ids d).

(** [v] and [w] have the same unique keys. *)
Definition same_keys (v w : V) : Prop := ∀ x, clash v x = clash w x.

Record snap_ok (s : snapshot) : Prop := {
  (** no two objects of an index collide on a unique key *)
  ok_clash : ∀ id id' v w, s.1 !! id = Some v → s.1 !! id' = Some w →
    id' ≠ id → index_id id' = index_id id → clash v w = false;
  (** every object is older than the next id of its index *)
  ok_fresh : ∀ id v, s.1 !! id = Some v →
    ∃ nx, s.2 !! index_id id = Some nx ∧ number id < number nx;
  ok_next : ∀ idx nx, s.2 !! idx = Some nx → index_id nx = idx ∧ uint 64 (number nx);
}.

(** ** What a state of the stack says of one object *)

Definition entry : Type := bool * option V * option V.
Definition view (id : object_id_type) (st : undo_state) : entry :=
  (bool_decide (id ∈ new_ids st), old_values st !! id, removed st !! id).

(** The value of the object before the changes the entry records. *)
Definition rb (e : entry) (cur : option V) : option V :=
  match e with
  | (_, _, Some v) => Some v
  | (_, Some v, None) => Some v
  | (true, None, None) => None
  | (false, None, None) => cur
  end.

(** The entry is one of new, updated, deleted, untouched, and agrees with
    whether the object exists now. *)
Definition entry_ok (e : entry) (cur : option V) : Prop :=
  match e, cur with
  | (true, None, None), Some _ => True
  | (false, Some _, None), Some _ => True
  | (false, None, Some _), None => True
  | (false, None, None), _ => True
  | _, _ => False
  end.

(** The snapshot a state of the stack stands for. *)
Definition rollback (st : undo_state) (s : snapshot) : snapshot :=
  (removed st ∪ (old_values st ∪ filter (λ p, p.1 ∉ new_ids st) s.1),
   old_index_next_ids st ∪ s.2).

Lemma rollback_lookup st s id : (rollback st s).1 !! id = rb (view id st) (s.1 !! id).
Proof.
  unfold rollback, view, rb. simpl. rewrite !lookup_union, map_lookup_filter.
  destruct (removed st !! id) as [v|];
    [rewrite some_union; case_bool_decide; by destruct (old_values st !! id)|].
  rewrite (left_id_L None (∪)).
  destruct (old_values st !! id) as [v|]; [rewrite some_union; by case_bool_decide|].
  rewrite (left_id_L None (∪)).
  destruct (s.1 !! id) as [w|]; simpl; case_bool_decide as Hin; try done.
  - by rewrite option_guard_False by tauto.
  - by rewrite option_guard_True by done.
Qed.

Record wf (st : undo_state) (cur : snapshot) : Prop := {
  wf_entry : ∀ id, entry_ok (view id st) (cur.1 !! id);
  wf_new : ∀ id, id ∈ new_ids st →
    ∃ nb, (rollback st cur).2 !! index_id id = Some nb ∧ number nb ≤ number id;
  wf_next : ∀ idx nc, cur.2 !! idx = Some nc →
    ∃ nb, (rollback st cur).2 !! idx = Some nb ∧ number nb ≤ number nc;
  wf_dom : ∀ idx, is_Some (old_index_next_ids st !! idx) → is_Some (cur.2 !! idx);
  wf_keys : ∀ id v w, old_values st !! id = Some v → cur.1 !! id = Some w → same_keys v w;
  wf_base : snap_ok (rollback st cur);
}.

(** The states of the stack stand for the snapshots, from the newest on. *)
Fixpoint linked (stk : list undo_state) (cur : snapshot) (saved : list snapshot) : Prop :=
  match stk, saved with
  | [], [] => True
  | st :: stk, s :: saved => s = rollback st cur ∧ wf st cur ∧ linked stk s saved
  | _, _ => False
  end.

Definition refines (d : db) (cur : snapshot) (saved : list snapshot) : Prop :=
  db_snap d = cur ∧ snap_ok cur ∧ linked (stack (undo_db d)) cur saved.

(** ** Views of the updated states *)

Lemma view_empty id : view id (@empty_state V) = (false, None, None).
Proof. unfold view. simpl. by rewrite bool_decide_eq_false_2 by set_solver. Qed.

Lemma view_on_create id st j :
  view j (state_on_create id st) =
    if decide (j = id) then (true, old_values st !! j, removed st !! j) else view j st.
Proof.
  unfold view, state_on_create. simpl. case_decide as Hj.
  - subst. by rewrite bool_decide_eq_true_2 by set_solver.
  - do 2 f_equal. apply bool_decide_ext. set_solver.
Qed.

Lemma view_on_modify id v st j :
  view j (state_on_modify id v st) =
    if decide (j = id) then
      match view j st with
      | (false, None, r) => (false, Some v, r)
      | e => e
      end
    else view j st.
Proof.
  unfold view, state_on_modify.
  destruct (decide (id ∈ new_ids st)) as [Hn|Hn];
    [rewrite (bool_decide_eq_true_2 (id ∈ _)) by done
    |rewrite (bool_decide_eq_false_2 (id ∈ _)) by done];
    (destruct (decide (j = id)) as [->|Hj];
     [rewrite ?(bool_decide_eq_true_2 (id ∈ new_ids st)) by done;
      rewrite ?(bool_decide_eq_false_2 (id ∈ new_ids st)) by done|]); [done..| |];
    destruct (old_values st !! id) eqn:Ho; simpl;
    rewrite ?(bool_decide_eq_false_2 (id ∈ _)) by done;
    by rewrite ?lookup_insert_eq, ?lookup_insert_ne, ?Ho by done.
Qed.

Lemma view_on_remove id v st j :
  view j (state_on_remove id v st) =
    if decide (j = id) then
      match view j st with
      | (true, o, r) => (false, o, r)
      | (false, Some w, r) => (false, None, Some w)
      | (false, None, Some w) => (false, None, Some w)
      | (false, None, None) => (false, None, Some v)
      end
    else view j st.
Proof.
  unfold view, state_on_remove.
  destruct (decide (id ∈ new_ids st)) as [Hn|Hn];
    [rewrite (bool_decide_eq_true_2 (id ∈ _)) by done
    |rewrite (bool_decide_eq_false_2 (id ∈ _)) by done];
    (destruct (decide (j = id)) as [->|Hj];
     [rewrite ?(bool_decide_eq_true_2 (id ∈ new_ids st)) by done;
      rewrite ?(bool_decide_eq_false_2 (id ∈ new_ids st)) by done|]).
  - simpl. by rewrite bool_decide_eq_false_2 by set_solver.
  - simpl. do 2 f_equal. apply bool_decide_ext. set_solver.
  - destruct (old_values st !! id) eqn:Ho; simpl; rewrite ?(bool_decide_eq_false_2 (id ∈ _)) by done;
      rewrite ?lookup_delete_eq, ?lookup_insert_eq; [done|].
    destruct (removed st !! id) eqn:Hr; simpl; rewrite ?(bool_decide_eq_false_2 (id ∈ _)) by done;
      by rewrite ?Ho, ?Hr, ?lookup_insert_eq.
  - destruct (old_values st !! id) eqn:Ho; simpl;
      rewrite ?lookup_delete_ne, ?lookup_insert_ne by done; [done|].
    destruct (removed st !! id) eqn:Hr; simpl; by rewrite ?lookup_insert_ne by done.
Qed.

(** ** The mutators keep the snapshots *)

Lemma rollback_ext st st' s s' :
  (∀ id, rb (view id st') (s'.1 !! id) = rb (view id st) (s.1 !! id)) →
  (∀ idx, (old_index_next_ids st' ∪ s'.2) !! idx = (old_index_next_ids st ∪ s.2) !! idx) →
  rollback st' s' = rollback st s.
Proof.
  intros Hobj Hnext. rewrite (surjective_pairing (rollback st' s')).
  rewrite (surjective_pairing (rollback st s)). f_equal.
  - apply map_eq. intros id. rewrite !rollback_lookup. apply Hobj.
  - apply map_eq. apply Hnext.
Qed.

Lemma entry_rb_some st cur id v :
  wf st cur → (rollback st cur).1 !! id = Some v →
  ∃ nb, (rollback st cur).2 !! index_id id = Some nb ∧ number id < number nb.
Proof. intros Hwf Hid. by apply (ok_fresh _ (wf_base _ _ Hwf) id v). Qed.

(** What the next id of an index meets in the state: nothing. *)
Lemma fresh_entry st cur idx id :
  snap_ok cur → wf st cur → cur.2 !! idx = Some id →
  cur.1 !! id = None ∧ view id st = (false, None, None).
Proof.
  intros Hok Hwf Hidx. destruct (ok_next _ Hok _ _ Hidx) as [Hid _].
  assert (cur.1 !! id = None) as Hnone.
  { destruct (cur.1 !! id) as [v|] eqn:Hv; [|done].
    destruct (ok_fresh _ Hok _ _ Hv) as (nx & Hnx & Hlt). rewrite Hid in Hnx.
    simplify_eq. lia. }
  split; [done|]. pose proof (wf_entry _ _ Hwf id) as He. rewrite Hnone in He.
  destruct (view id st) as [[[] [v|]] [w|]] eqn:Hview; simpl in He; try done.
  assert ((rollback st cur).1 !! id = Some w) as Hw.
  { by rewrite rollback_lookup, Hview, Hnone. }
  destruct (entry_rb_some _ _ _ _ Hwf Hw) as (nb & Hnb & Hlt).
  destruct (wf_next _ _ Hwf _ _ Hidx) as (nb' & Hnb' & Hle).
  rewrite Hid in Hnb. simplify_eq. lia.
Qed.

Definition kept (st st' : undo_state) (cur cur' : snapshot) : Prop :=
  rollback st' cur' = rollback st cur ∧ wf st' cur' ∧ snap_ok cur'.

Lemma snap_ok_insert s id v :
  snap_ok s → admits clash s.1 id v = true →
  (∃ nx, s.2 !! index_id id = Some nx ∧ number id < number nx) →
  snap_ok (<[id := v]> s.1, s.2).
Proof.
  intros Hok Hadm Hfresh. apply bool_decide_eq_true in Hadm. split; simpl.
  - intros i i' w w' Hw Hw' Hne Hidx.
    apply lookup_insert_Some in Hw as [[<- <-]|[Hi Hw]];
      apply lookup_insert_Some in Hw' as [[<- <-]|[Hi' Hw']]; try done.
    + by destruct (Hadm _ _ Hw') as [?|[?|?]].
    + rewrite clash_sym. by destruct (Hadm _ _ Hw) as [?|[?|?]].
    + eapply (ok_clash _ Hok i i'); done.
  - intros i w Hw. apply lookup_insert_Some in Hw as [[<- <-]|[Hi Hw]]; [done|].
    by eapply ok_fresh.
  - apply (ok_next _ Hok).
Qed.

Lemma snap_ok_delete s id : snap_ok s → snap_ok (delete id s.1, s.2).
Proof.
  intros Hok. split; simpl.
  - intros i i' w w' [_ Hw]%lookup_delete_Some [_ Hw']%lookup_delete_Some. by eapply ok_clash.
  - intros i w [_ Hw]%lookup_delete_Some. by eapply ok_fresh.
  - apply (ok_next _ Hok).
Qed.

Lemma snap_ok_next s idx nx nx' :
  snap_ok s → s.2 !! idx = Some nx → number nx ≤ number nx' →
  index_id nx' = index_id nx → uint 64 (number nx') →
  snap_ok (s.1, <[idx := nx']> s.2).
Proof.
  intros Hok Hnx Hle Hidx H64. destruct (ok_next _ Hok _ _ Hnx) as [Hkey _]. split; simpl.
  - apply (ok_clash _ Hok).
  - intros id v Hv. destruct (ok_fresh _ Hok _ _ Hv) as (n & Hn & Hlt).
    destruct (decide (index_id id = idx)) as [Heq|Hne].
    + exists nx'. rewrite Heq in *. rewrite lookup_insert_eq. simplify_eq. split; [done|lia].
    + exists n. by rewrite lookup_insert_ne by done.
  - intros i n [[<- <-]|[_ Hn]]%lookup_insert_Some; [|by apply (ok_next _ Hok)].
    by rewrite Hidx.
Qed.

Lemma create_kept st cur idx id v :
  snap_ok cur → wf st cur → cur.2 !! idx = Some id → admits clash cur.1 id v = true →
  instance id < GRAPHENE_DB_MAX_INSTANCE_ID →
  kept st (state_on_create id st) cur (<[id := v]> cur.1, <[idx := next id]> cur.2).
Proof.
  intros Hok Hwf Hidx Hadm Hroom.
  destruct (ok_next _ Hok _ _ Hidx) as [Hkey H64].
  destruct (next_in_index id H64 Hroom) as (Hnum & H64' & Hkey').
  destruct (fresh_entry _ _ _ _ Hok Hwf Hidx) as [Hnone Hview].
  assert (rollback (state_on_create id st) (<[id:=v]> cur.1, <[idx:=next id]> cur.2)
    = rollback st cur) as Hrb.
  { apply rollback_ext; cbn [fst snd].
    - intros j. rewrite view_on_create. case_decide as Hj; [subst|by rewrite lookup_insert_ne].
      rewrite lookup_insert_eq, Hview, Hnone. injection Hview as _ Ho Hr. by rewrite Ho, Hr.
    - intros i. rewrite !lookup_union. unfold state_on_create. simpl. rewrite Hkey.
      destruct (decide (i = idx)) as [->|Hi];
        [|destruct (old_index_next_ids st !! idx); by rewrite ?lookup_insert_ne by done].
      rewrite lookup_insert_eq. destruct (old_index_next_ids st !! idx) as [o|] eqn:Ho;
        rewrite ?lookup_insert_eq, ?Ho, ?some_union, ?Hidx; [done|].
      by rewrite (left_id_L None (∪)). }
  split_and!; [done| |].
  - split; rewrite ?Hrb; cbn [fst snd].
    + intros j. rewrite view_on_create. case_decide as Hj; [subst|].
      * rewrite lookup_insert_eq. injection Hview as _ Ho Hr. by rewrite Ho, Hr.
      * rewrite lookup_insert_ne by done. apply (wf_entry _ _ Hwf).
    + intros j Hj. unfold state_on_create in Hj. cbn [new_ids] in Hj.
      apply elem_of_union in Hj as [->%elem_of_singleton|Hj].
      * rewrite Hkey. by apply (wf_next _ _ Hwf).
      * by apply (wf_new _ _ Hwf).
    + intros i nc [[<- <-]|[_ Hnc]]%lookup_insert_Some; [|by apply (wf_next _ _ Hwf)].
      destruct (wf_next _ _ Hwf _ _ Hidx) as (nb & Hnb & Hle). exists nb. split; [done|lia].
    + intros i Hi. unfold state_on_create in Hi. simpl in Hi. rewrite Hkey in Hi. destruct (decide (i = idx)) as [->|Hne].
      * rewrite lookup_insert_eq. by eexists.
      * rewrite lookup_insert_ne by done. apply (wf_dom _ _ Hwf).
        destruct (old_index_next_ids st !! idx); [done|]. by rewrite lookup_insert_ne in Hi.
    + intros j w w' Hw [[<- <-]|[_ Hw']]%lookup_insert_Some; [|by eapply wf_keys].
      injection Hview as _ Ho Hr. simpl in Hw. congruence.
    + apply (wf_base _ _ Hwf).
  - change (snap_ok (<[id := v]> (cur.1, <[idx := next id]> cur.2).1,
                     (cur.1, <[idx := next id]> cur.2).2)).
    apply snap_ok_insert; [|done|].
    + apply (snap_ok_next cur idx id); [done..|lia|congruence|done].
    + exists (next id). cbn [snd]. rewrite Hkey, lookup_insert_eq. split; [done|lia].
Qed.

(** A change of the objects alone that keeps what the state records. *)
Lemma objects_kept st st' cur objs :
  wf st cur → snap_ok (objs, cur.2) →
  old_index_next_ids st' = old_index_next_ids st → new_ids st' ⊆ new_ids st →
  (∀ id, rb (view id st') (objs !! id) = rb (view id st) (cur.1 !! id) ∧
         entry_ok (view id st') (objs !! id)) →
  (∀ id v w, old_values st' !! id = Some v → objs !! id = Some w → same_keys v w) →
  kept st st' cur (objs, cur.2).
Proof.
  intros Hwf Hok Hnext Hnew Hview Hkeys.
  assert (rollback st' (objs, cur.2) = rollback st cur) as Hrb.
  { apply rollback_ext; cbn [fst snd]; [apply Hview|]. by rewrite Hnext. }
  split_and!; [done| |done].
  split; rewrite ?Hrb; cbn [fst snd]; try apply Hwf; try done.
  - apply Hview.
  - intros id Hid. apply (wf_new _ _ Hwf). set_solver.
  - rewrite Hnext. apply (wf_dom _ _ Hwf).
Qed.

Lemma same_keys_trans v w x : same_keys v w → same_keys w x → same_keys v x.
Proof. intros H1 H2 y. by rewrite H1, H2. Qed.

Lemma modify_kept st cur id v v' :
  snap_ok cur → wf st cur → cur.1 !! id = Some v → same_keys v v' →
  kept st (state_on_modify id v st) cur (<[id := v']> cur.1, cur.2).
Proof.
  intros Hok Hwf Hv Hkeys. pose proof (wf_entry _ _ Hwf id) as He. rewrite Hv in He.
  apply objects_kept; [done| | | | |].
  - apply snap_ok_insert; [done| |by eapply ok_fresh].
    apply bool_decide_eq_true. intros j w Hw.
    destruct (decide (j = id)); [by left|right].
    destruct (decide (index_id j = index_id id)); [right|by left].
    rewrite <- Hkeys. by eapply (ok_clash _ Hok id j).
  - unfold state_on_modify. case_bool_decide; [done|]. by destruct (old_values st !! id).
  - unfold state_on_modify. case_bool_decide; [done|]. by destruct (old_values st !! id).
  - intros j. rewrite view_on_modify. case_decide as Hj; [subst j|].
    + rewrite lookup_insert_eq, Hv. by destruct (view id st) as [[[] [?|]] [?|]].
    + rewrite lookup_insert_ne by done. split; [done|]. apply (wf_entry _ _ Hwf).
  - intros j w w' Hw Hw'. pose proof (view_on_modify id v st j) as Hview.
    destruct (decide (j = id)) as [->|Hj].
    + rewrite lookup_insert_eq in Hw'. simplify_eq.
      destruct (view id st) as [[n o] r] eqn:Hold. unfold view in Hview. rewrite Hw in Hview.
      destruct n, o as [o|], r as [r|]; simpl in He; try done; simplify_eq; [|done].
      apply (same_keys_trans _ v); [|done]. eapply (wf_keys _ _ Hwf id); [|done].
      by injection Hold.
    + rewrite lookup_insert_ne in Hw' by done. eapply (wf_keys _ _ Hwf j); [|done].
      unfold view in Hview. simplify_eq. congruence.
Qed.

Lemma remove_kept st cur id v :
  snap_ok cur → wf st cur → cur.1 !! id = Some v →
  kept st (state_on_remove id v st) cur (delete id cur.1, cur.2).
Proof.
  intros Hok Hwf Hv. pose proof (wf_entry _ _ Hwf id) as He. rewrite Hv in He.
  apply objects_kept; [done|by apply snap_ok_delete| | | |].
  - unfold state_on_remove. case_bool_decide; [done|]. destruct (old_values st !! id); [done|].
    by destruct (removed st !! id).
  - unfold state_on_remove. case_bool_decide; [simpl; set_solver|].
    destruct (old_values st !! id); [done|]. by destruct (removed st !! id).
  - intros j. rewrite view_on_remove. case_decide as Hj; [subst j|].
    + rewrite lookup_delete_eq, Hv. by destruct (view id st) as [[[] [?|]] [?|]].
    + rewrite lookup_delete_ne by done. split; [done|]. apply (wf_entry _ _ Hwf).
  - intros j w w' Hw [Hj Hw']%lookup_delete_Some. eapply (wf_keys _ _ Hwf j); [|done].
    pose proof (view_on_remove id v st j) as Hview. rewrite decide_False in Hview by done.
    unfold view in Hview. congruence.
Qed.

Lemma empty_kept cur : snap_ok cur → rollback empty_state cur = cur ∧ wf empty_state cur.
Proof.
  intros Hok. assert (rollback empty_state cur = cur) as Hrb.
  { rewrite (surjective_pairing cur) at 2. rewrite (surjective_pairing (rollback _ _)). f_equal.
    - apply map_eq. intros id. by rewrite rollback_lookup, view_empty.
    - simpl. by rewrite (left_id_L ∅ (∪)). }
  split; [done|]. split; rewrite ?Hrb.
  - intros id. by rewrite view_empty.
  - cbn. set_solver.
  - intros idx nc ->. by exists nc.
  - intros idx [? H]. cbn in H. by rewrite lookup_empty in H.
  - intros id v w H. cbn in H. by rewrite lookup_empty in H.
  - done.
Qed.

(** The database after a mutator, given what it did to the top state. *)
Lemma linked_kept st st' stk cur cur' s saved :
  kept st st' cur cur' → linked (st :: stk) cur (s :: saved) →
  linked (st' :: stk) cur' (s :: saved).
Proof. intros (Hrb & Hwf & _) (-> & _ & Hl). by rewrite <- Hrb in *. Qed.

Lemma linked_top stk cur s saved :
  linked stk cur (s :: saved) →
  ∃ st rest, stk = st :: rest ∧ s = rollback st cur ∧ wf st cur ∧ linked rest s saved.
Proof. destruct stk as [|st rest]; [done|]. intros (? & ? & ?). eauto 10. Qed.

(** ** The mutators of the database *)

Inductive op : Type :=
  | OpCreate (idx : object_id_type) (constructor : object_id_type → V)
  | OpModify (id : object_id_type) (m : V → V)
  | OpRemove (id : object_id_type).

Definition exec_op (o : op) : E db () :=
  match o with
  | OpCreate idx c => db_create clash idx c ;; mret ()
  | OpModify id m => db_modify clash id m
  | OpRemove id => db_remove id
  end.

(** The same operations on the contents alone, with no history. *)
Definition spec_op (o : op) (cur : snapshot) : snapshot :=
  match o with
  | OpCreate idx c =>
      match cur.2 !! index_id idx with
      | Some id =>
          if admits clash cur.1 id (c id)
          then (<[id := c id]> cur.1, <[index_id idx := next id]> cur.2) else cur
      | None => cur
      end
  | OpModify id m =>
      match cur.1 !! id with Some v => (<[id := m v]> cur.1, cur.2) | None => cur end
  | OpRemove id =>
      match cur.1 !! id with Some _ => (delete id cur.1, cur.2) | None => cur end
  end.
Definition spec_outcome (o : op) (cur : snapshot) : result () :=
  match o with
  | OpCreate idx c =>
      match cur.2 !! index_id idx with
      | Some id => FC_ASSERT (admits clash cur.1 id (c id))
      | None => Throw assert_exception
      end
  | OpModify id _ | OpRemove id => FC_ASSERT (bool_decide (is_Some (cur.1 !! id)))
  end.

(** The index has an instance left, and a modification keeps the unique keys. *)
Definition op_ok (o : op) (cur : snapshot) : Prop :=
  match o with
  | OpCreate idx _ =>
      ∀ id, cur.2 !! index_id idx = Some id → instance id < GRAPHENE_DB_MAX_INSTANCE_ID
  | OpModify id m => ∀ v, cur.1 !! id = Some v → same_keys v (m v)
  | OpRemove _ => True
  end.

Lemma get_object_run (d : db) id cur :
  db_snap d = cur → snap_ok cur →
  get_object id d = (d, match cur.1 !! id with Some v => Ok v | None => Throw assert_exception end).
Proof.
  intros <- Hok. unfold get_object, find_object, get_index. run_e.
  destruct (objects d !! id) as [v|] eqn:Hv.
  - destruct (ok_fresh _ Hok id v Hv) as (nx & Hnx & _). cbn in Hnx. cbn -[index_id]. by rewrite Hnx, Hv.
  - destruct (next_ids d !! index_id id); cbn; by rewrite Hv.
Qed.

(** Recording a change in the top state of an enabled history. *)
Lemma record_top (f : undo_state → undo_state) (u : undo_database V) st rest :
  stack u = st :: rest → update_back f u = set_stack (f st :: rest) u.
Proof. unfold update_back. by intros ->. Qed.

(** [o] run on a database that refines [cur] with the snapshots [saved]:
    the outcome and the contents are those of the abstract operation and the
    snapshots do not change. *)
Definition op_refines (o : op) : Prop :=
  ∀ d cur s saved, refines d cur (s :: saved) → disabled (undo_db d) = false →
    op_ok o cur →
    ∃ d', exec_op o d = (d', spec_outcome o cur) ∧
      refines d' (spec_op o cur) (s :: saved) ∧
      disabled (undo_db d') = false ∧
      active_sessions (undo_db d') = active_sessions (undo_db d) ∧
      max_size (undo_db d') = max_size (undo_db d).

Lemma refines_step d cur s saved st rest st' objs nxs :
  refines d cur (s :: saved) → stack (undo_db d) = st :: rest →
  kept st st' cur (objs, nxs) →
  refines (mk_db objs nxs (set_stack (st' :: rest) (undo_db d))) (objs, nxs) (s :: saved).
Proof.
  intros (_ & _ & Hl) Hst Hk. rewrite Hst in Hl. split_and!; [done|apply Hk|].
  by eapply linked_kept.
Qed.

Lemma modify_refines id m : op_refines (OpModify id m).
Proof.
  intros d cur s saved Href Hen Hop. pose proof Href as (Hsnap & Hok & Hl).
  simpl. unfold db_modify. rewrite E_bind_step, (get_object_run d id cur) by done.
  destruct (cur.1 !! id) as [v|] eqn:Hv; [|by exists d].
  rewrite (bool_decide_eq_true_2 (is_Some _)) by done.
  destruct (linked_top _ _ _ _ Hl) as (st & rest & Hst & -> & Hwf & Hrest).
  pose proof (modify_kept st cur id v (m v) Hok Hwf Hv (Hop _ Hv)) as Hk.
  exists (mk_db (<[id := m v]> (objects d)) (next_ids d)
            (set_stack (state_on_modify id v st :: rest) (undo_db d))).
  rewrite <- Hsnap in *. split_and!; try done.
  - unfold container_modify. run_e. cbn -[admits].
    assert (admits clash (delete id (objects d)) id (m v) = true) as ->.
    { apply bool_decide_eq_true. intros j w [Hj Hw]%lookup_delete_Some.
      destruct (decide (index_id j = index_id id)); [right; right|right; by left].
      rewrite <- (Hop _ Hv). by eapply (ok_clash _ Hok id j). }
    unfold map_undo, set_undo, set_objects, on_modify. cbn.
    by rewrite Hen, (record_top _ _ st rest).
  - by eapply refines_step.
Qed.

Lemma remove_refines id : op_refines (OpRemove id).
Proof.
  intros d cur s saved Href Hen _. pose proof Href as (Hsnap & Hok & Hl).
  simpl. unfold db_remove. rewrite E_bind_step, (get_object_run d id cur) by done.
  destruct (cur.1 !! id) as [v|] eqn:Hv; [|by exists d].
  rewrite (bool_decide_eq_true_2 (is_Some _)) by done.
  destruct (linked_top _ _ _ _ Hl) as (st & rest & Hst & -> & Hwf & Hrest).
  pose proof (remove_kept st cur id v Hok Hwf Hv) as Hk.
  exists (mk_db (delete id (objects d)) (next_ids d)
            (set_stack (state_on_remove id v st :: rest) (undo_db d))).
  rewrite <- Hsnap in *. split_and!; try done.
  - run_e. unfold map_undo, set_undo, set_objects, on_remove. cbn.
    by rewrite Hen, (record_top _ _ st rest).
  - by eapply refines_step.
Qed.

Lemma create_refines idx c : op_refines (OpCreate idx c).
Proof.
  intros d cur s saved Href Hen Hop. pose proof Href as (Hsnap & Hok & Hl).
  destruct (linked_top _ _ _ _ Hl) as (st & rest & Hst & -> & Hwf & Hrest).
  simpl. unfold db_create, get_index. run_e. rewrite <- Hsnap in *. simpl in Hop. cbn -[index_id admits].
  destruct (next_ids d !! index_id idx) as [id|] eqn:Hid; [|by exists d].
  unfold container_insert. run_e.
  destruct (fresh_entry st (db_snap d) (index_id idx) id Hok Hwf Hid) as [Hnone _].
  cbn in Hnone. rewrite (bool_decide_eq_true_2 (objects d !! id = None)) by done.
  destruct (admits clash (objects d) id (c id)) eqn:Hadm; cbn -[index_id]; [|by exists d].
  pose proof (create_kept st (db_snap d) (index_id idx) id (c id) Hok Hwf Hid Hadm (Hop _ eq_refl)) as Hk.
  exists (mk_db (<[id := c id]> (objects d)) (<[index_id idx := next id]> (next_ids d))
            (set_stack (state_on_create id st :: rest) (undo_db d))).
  split_and!; try done.
  - unfold map_undo, set_undo, set_objects, set_next_ids, on_create. cbn -[index_id].
    by rewrite Hen, (record_top _ _ st rest).
  - by eapply refines_step.
Qed.

Lemma exec_op_refines o : op_refines o.
Proof. destruct o; auto using create_refines, modify_refines, remove_refines. Qed.

(** ** Restoring the snapshot on top *)

Lemma map_undo_id (f : undo_database V → undo_database V) d :
  f (undo_db d) = undo_db d → map_undo f d = d.
Proof. intros H. unfold map_undo, set_undo. rewrite H. by destruct d. Qed.

Lemma hooks_disabled (d : db) :
  disabled (undo_db d) = true →
  (∀ id, map_undo (on_create id) d = d) ∧
  (∀ id v, map_undo (on_modify id v) d = d) ∧
  (∀ id v, map_undo (on_remove id v) d = d).
Proof.
  intros Hd. split_and!; intros; apply map_undo_id;
    unfold on_create, on_modify, on_remove; by rewrite Hd.
Qed.

Lemma snap_ok_same_keys s id v w :
  snap_ok s → s.1 !! id = Some w → same_keys v w → snap_ok (<[id := v]> s.1, s.2).
Proof.
  intros Hok Hw Hkeys. apply snap_ok_insert; [done| |by eapply ok_fresh].
  apply bool_decide_eq_true. intros j x Hx.
  destruct (decide (j = id)); [by left|right].
  destruct (decide (index_id j = index_id id)); [right|by left].
  rewrite (Hkeys x). by eapply (ok_clash _ Hok id j).
Qed.

Lemma restore_old_values (l : list (object_id_type * V)) (d : db) :
  disabled (undo_db d) = true → snap_ok (db_snap d) → NoDup l.*1 →
  (∀ id v, (id, v) ∈ l → ∃ w, objects d !! id = Some w ∧ same_keys v w) →
  mapE_ (λ '(id, v), db_modify clash id (λ _, v)) l d
    = (set_objects (list_to_map l ∪ objects d) d, Ok ())
  ∧ snap_ok (list_to_map l ∪ objects d, next_ids d).
Proof.
  revert d. induction l as [|[id v] l IH]; intros d Hd Hok Hnd Hl; simpl.
  { rewrite (left_id_L ∅ (∪)). split; [|done]. by destruct d. }
  apply NoDup_cons in Hnd as [Hid Hnd].
  destruct (Hl id v) as (w & Hw & Hkeys); [left|].
  assert (snap_ok (<[id := v]> (objects d), next_ids d)) as Hok'.
  { by apply (snap_ok_same_keys (db_snap d) id v w). }
  destruct (IH (set_objects (<[id := v]> (objects d)) d)) as [IH1 IH2]; [done..| |].
  { intros j x Hj. destruct (Hl j x) as (y & Hy & ?); [by right|]. exists y. split; [|done].
    cbn. rewrite lookup_insert_ne; [done|]. intros <-. apply Hid.
    apply list_elem_of_fmap. by exists (id, x). }
  cbn [objects set_objects next_ids] in IH1, IH2.
  rewrite <- insert_union_r in IH1, IH2 by (by apply not_elem_of_list_to_map_1).
  rewrite insert_union_l in IH1, IH2. split; [|done].
  rewrite E_bind_step. unfold db_modify at 1.
  rewrite E_bind_step, (get_object_run d id (db_snap d)) by done. cbn [fst db_snap]. rewrite Hw.
  unfold container_modify. run_e. rewrite (proj1 (proj2 (hooks_disabled d Hd))).
  assert (admits clash (delete id (objects d)) id v = true) as ->; [|by rewrite IH1].
  apply bool_decide_eq_true. intros j x [Hj Hx]%lookup_delete_Some.
  destruct (decide (index_id j = index_id id)); [right; right|right; by left].
  rewrite (Hkeys x). by eapply (ok_clash _ Hok id j).
Qed.

Lemma restore_new_ids (l : list object_id_type) (d : db) :
  disabled (undo_db d) = true → snap_ok (db_snap d) → NoDup l →
  (∀ id, id ∈ l → is_Some (objects d !! id)) →
  mapE_ db_remove l d = (set_objects (filter (λ p, p.1 ∉ l) (objects d)) d, Ok ()).
Proof.
  revert d. induction l as [|id l IH]; intros d Hd Hok Hnd Hl; simpl.
  { rewrite map_filter_id; [by destruct d|]. intros i x _. simpl. set_solver. }
  apply NoDup_cons in Hnd as [Hid Hnd].
  rewrite E_bind_step. unfold db_remove at 1.
  rewrite E_bind_step, (get_object_run d id (db_snap d)) by done. cbn [fst db_snap].
  destruct (Hl id) as [v Hv]; [left|]. rewrite Hv. run_e.
  rewrite (proj2 (proj2 (hooks_disabled d Hd))).
  rewrite IH; cbn [objects set_objects undo_db next_ids]; try done.
  - f_equal. unfold set_objects. cbn. f_equal.
    apply map_eq. intros j. apply option_eq. intros w.
    rewrite !map_lookup_filter_Some, lookup_delete_Some. simpl. set_solver.
  - by apply (snap_ok_delete (db_snap d)).
  - intros j Hj. rewrite lookup_delete_ne by (intros ->; done). apply Hl. by right.
Qed.

Lemma restore_next_ids (l : list (object_id_type * object_id_type)) (d : db) :
  NoDup l.*1 →
  (∀ idx cur, next_ids d !! idx = Some cur → index_id cur = idx) →
  (∀ idx nx, (idx, nx) ∈ l → is_Some (next_ids d !! idx) ∧ index_id nx = idx) →
  mapE_ (λ '(idx, nx), set_next_id idx nx) l d
    = (set_next_ids (list_to_map l ∪ next_ids d) d, Ok ()).
Proof.
  revert d. induction l as [|[idx nx] l IH]; intros d Hnd Hkey Hl; simpl.
  { rewrite (left_id_L ∅ (∪)). by destruct d. }
  apply NoDup_cons in Hnd as [Hid Hnd].
  destruct (Hl idx nx) as [[cur Hcur] Hnx]; [left|].
  pose proof (Hkey _ _ Hcur) as Hck.
  assert (index_id idx = idx) as Hidx by (by rewrite <- Hck, index_index).
  rewrite E_bind_step. unfold set_next_id at 1, get_index. run_e. rewrite Hidx, Hcur.
  assert ((type cur =? type nx) = true) as ->.
  { apply Z.eqb_eq. rewrite <- (type_index cur), <- (type_index nx). by rewrite Hck, Hnx. }
  rewrite IH; cbn [next_ids set_next_ids].
  - f_equal. unfold set_next_ids. cbn. f_equal.
    rewrite <- insert_union_r by (by apply not_elem_of_list_to_map_1). by rewrite insert_union_l.
  - done.
  - intros i c [[<- <-]|[_ Hc]]%lookup_insert_Some; [done|by apply Hkey].
  - intros i n Hi. destruct (Hl i n) as [Hi1 Hi2]; [by right|]. split; [|done].
    apply lookup_insert_is_Some'. by right.
Qed.

Lemma restore_removed (l : list (object_id_type * V)) (d : db) :
  disabled (undo_db d) = true → NoDup l.*1 →
  snap_ok (list_to_map l ∪ objects d, next_ids d) →
  (∀ id v, (id, v) ∈ l → objects d !! id = None) →
  mapE_ (λ '(id, v), db_insert clash id v) l d
    = (set_objects (list_to_map l ∪ objects d) d, Ok ()).
Proof.
  revert d. induction l as [|[id v] l IH]; intros d Hd Hnd Hok Hl; simpl.
  { rewrite (left_id_L ∅ (∪)). by destruct d. }
  apply NoDup_cons in Hnd as [Hid Hnd]. simpl in Hok.
  pose proof (Hl id v ltac:(left)) as Hnone.
  rewrite E_bind_step. unfold db_insert at 1, get_index, container_insert. run_e.
  assert ((<[id:=v]> (list_to_map l) ∪ objects d) !! id = Some v) as Hv.
  { apply lookup_union_Some_l. apply lookup_insert_eq. }
  destruct (ok_fresh _ Hok id v Hv) as (nx & Hnx & _). cbn in Hnx. rewrite Hnx.
  rewrite (bool_decide_eq_true_2 (objects d !! id = None)) by done.
  assert (admits clash (objects d) id v = true) as ->.
  { apply bool_decide_eq_true. intros j x Hx.
    destruct (decide (j = id)) as [->|Hj]; [by left|right].
    destruct (decide (index_id j = index_id id)); [right|by left].
    assert (∃ y, (<[id:=v]> (list_to_map l) ∪ objects d) !! j = Some y ∧ y = x) as (y & Hy & ->).
    { exists x. split; [|done]. rewrite lookup_union_r; [done|].
      rewrite lookup_insert_ne by done. apply not_elem_of_list_to_map_1.
      intros [[j' z] [-> Hz]]%list_elem_of_fmap. simpl in *. by rewrite (Hl j' z) in Hx by (by right). }
    by eapply (ok_clash _ Hok id j). }
  cbn [andb]. rewrite (proj1 (hooks_disabled (set_objects (<[id := v]> (objects d)) d) Hd)).
  rewrite IH; cbn [objects set_objects undo_db next_ids]; try done.
  - f_equal. unfold set_objects. cbn. f_equal.
    rewrite <- insert_union_r by (by apply not_elem_of_list_to_map_1). by rewrite insert_union_l.
  - rewrite <- insert_union_r by (by apply not_elem_of_list_to_map_1). by rewrite insert_union_l.
  - intros j x Hj. rewrite lookup_insert_ne; [apply (Hl j x); by right|].
    intros <-. apply Hid. apply list_elem_of_fmap. by exists (id, x).
Qed.

(** The shared loops of [undo()] and [pop_commit()] return to the snapshot. *)
Lemma restore_rollback st (d : db) :
  disabled (undo_db d) = true → snap_ok (db_snap d) → wf st (db_snap d) →
  restore clash st d =
    (mk_db (rollback st (db_snap d)).1 (rollback st (db_snap d)).2 (undo_db d), Ok ()).
Proof.
  intros Hd Hok Hwf. unfold restore.
  assert (∀ id, entry_ok (view id st) (objects d !! id)) as He by apply Hwf.
  assert (∀ id v, old_values st !! id = Some v →
    removed st !! id = None ∧ (id ∉ new_ids st) ∧ (is_Some (objects d !! id))) as Hold.
  { intros id v Hv. specialize (He id). unfold view in He. rewrite Hv in He.
    case_bool_decide; [done|]. destruct (removed st !! id); [done|].
    destruct (objects d !! id); done. }
  destruct (restore_old_values (map_to_list (old_values st)) d) as [Hrun1 Hok1];
    [done|done|apply NoDup_fst_map_to_list| |].
  { intros id v Hv%elem_of_map_to_list. destruct (Hold _ _ Hv) as (_ & _ & w & Hw).
    exists w. split; [done|]. by eapply (wf_keys _ _ Hwf). }
  rewrite list_to_map_to_list in Hrun1, Hok1. rewrite E_bind_step, Hrun1.
  rewrite E_bind_step, restore_new_ids; [|done|done|apply NoDup_elements|].
  2: { intros id Hid%elem_of_elements. specialize (He id). unfold view in He.
    rewrite bool_decide_eq_true_2 in He by done. cbn. apply lookup_union_is_Some. right.
    destruct (old_values st !! id), (removed st !! id), (objects d !! id); done. }
  rewrite E_bind_step, restore_next_ids; [|apply NoDup_fst_map_to_list|intros; by eapply Hok|].
  2: { intros idx nx Hnx%elem_of_map_to_list. split; [by apply (wf_dom _ _ Hwf)|].
    eapply (ok_next _ (wf_base _ _ Hwf)). cbn. by apply lookup_union_Some_l. }
  rewrite list_to_map_to_list.
  assert (list_to_map (map_to_list (removed st)) ∪
      (filter (λ p, p.1 ∉ elements (new_ids st)) (old_values st ∪ objects d))
    = (rollback st (db_snap d)).1) as Hfinal.
  { rewrite list_to_map_to_list. cbn. f_equal. apply map_eq. intros id.
    apply option_eq. intros v. rewrite map_lookup_filter_Some, !lookup_union. simpl.
    rewrite elem_of_elements, map_lookup_filter.
    destruct (old_values st !! id) as [w|] eqn:Hw.
    - rewrite !some_union. destruct (Hold _ _ Hw) as (_ & ? & _). naive_solver.
    - rewrite !(left_id_L None (∪)). destruct (objects d !! id); simpl; [|naive_solver].
      case_guard; naive_solver. }
  rewrite restore_removed; cbn [undo_db set_next_ids set_objects objects next_ids];
    [|done|apply NoDup_fst_map_to_list| |].
  - by rewrite Hfinal.
  - rewrite Hfinal. rewrite <- surjective_pairing. apply (wf_base _ _ Hwf).
  - intros id v Hv%elem_of_map_to_list. apply map_lookup_filter_None. left.
    apply lookup_union_None. specialize (He id). unfold view in He. rewrite Hv in He.
    case_bool_decide; destruct (old_values st !! id), (objects d !! id); done.
Qed.

Lemma undo_refines d cur s saved :
  refines d cur (s :: saved) → disabled (undo_db d) = false → 0 < active_sessions (undo_db d) →
  ∃ d', undo clash d = (d', Ok ()) ∧ refines d' s saved ∧
    disabled (undo_db d') = false ∧ max_size (undo_db d') = max_size (undo_db d) ∧
    active_sessions (undo_db d') = active_sessions (undo_db d) - 1.
Proof.
  intros (<- & Hok & Hl) Hen Hact.
  destruct (linked_top _ _ _ _ Hl) as (st & rest & Hst & -> & Hwf & Hrest).
  unfold undo. run_e. rewrite Hen, (proj2 (Z.ltb_lt _ _) Hact), Hst. cbn [negb].
  change (db_snap d) with (db_snap (map_undo disable d)) in *.
  rewrite (restore_rollback st (map_undo disable d)) by done.
  eexists. split_and!; [reflexivity| |done..].
  split_and!; [by destruct d|apply (wf_base _ _ Hwf)|done].
Qed.

(** ** Merging the two newest states *)

(** What [merge_state b a] records of an object, from what [b] and [a] do. *)
Definition merge_entry (b a : entry) : entry :=
  let '(nb, ob, rmb) := b in
  let '(na, oa, rma) := a in
  let oa := match ob with
            | Some y => if na then oa else match oa with Some x => Some x | None => Some y end
            | None => oa
            end in
  let na := na || nb in
  match rmb with
  | None => (na, oa, rma)
  | Some y => if na then (false, oa, rma)
              else (false, None, match oa with Some x => Some x | None => Some y end)
  end.

Lemma view_merge_upd (l : list (object_id_type * V)) a j :
  NoDup l.*1 →
  view j (foldl merge_upd a l) =
    let '(n, o, r) := view j a in
    (n, match (list_to_map l : gmap _ V) !! j with
        | Some y => if n then o else match o with Some x => Some x | None => Some y end
        | None => o
        end, r).
Proof.
  intros Hnd.
  rewrite (foldl_pointwise view merge_upd (λ y e, let '(n, o, r) := e in
    (n, (if n then o else match o with Some x => Some x | None => Some y end), r))); [|..|done].
  - destruct (view j a) as [[n o] r]. by destruct (_ !! j).
  - intros st k y. unfold merge_upd. case_bool_decide as Hn; unfold view.
    + by rewrite bool_decide_eq_true_2.
    + destruct (old_values st !! k) eqn:Ho; simpl;
        rewrite ?(bool_decide_eq_false_2 (k ∈ new_ids st)) by done;
        by rewrite ?Ho, ?lookup_insert_eq.
  - intros st k y i Hi. unfold merge_upd. case_bool_decide; [done|].
    destruct (old_values st !! k); unfold view; simpl; by rewrite ?lookup_insert_ne by done.
Qed.

Lemma view_merge_new (l : list object_id_type) a j :
  view j (foldl merge_new a l) =
    let '(n, o, r) := view j a in (n || bool_decide (j ∈ l), o, r).
Proof.
  revert a. induction l as [|k l IH]; intros a; cbn [foldl].
  - destruct (view j a) as [[n o] r]. rewrite (bool_decide_eq_false_2 (j ∈ [])) by set_solver.
    by rewrite orb_false_r.
  - rewrite IH. unfold view. simpl. do 2 f_equal.
    rewrite <- !bool_decide_or. apply bool_decide_ext. set_solver.
Qed.

Lemma view_merge_next (l : list (object_id_type * object_id_type)) a j :
  view j (foldl merge_next a l) = view j a.
Proof.
  revert a. induction l as [|[k nx] l IH]; intros a; [done|]. simpl. rewrite IH.
  unfold merge_next. by destruct (old_index_next_ids a !! k).
Qed.

Lemma view_merge_del (l : list (object_id_type * V)) a j :
  NoDup l.*1 →
  view j (foldl merge_del a l) =
    match (list_to_map l : gmap _ V) !! j with
    | Some y =>
        let '(n, o, r) := view j a in
        if n then (false, o, r)
        else (false, None, match o with Some x => Some x | None => Some y end)
    | None => view j a
    end.
Proof.
  intros Hnd.
  rewrite (foldl_pointwise view merge_del (λ y e, let '(n, o, r) := e in
    if n then (false, o, r)
    else (false, None, match o with Some x => Some x | None => Some y end))); [|..|done].
  - done.
  - intros st k y. unfold merge_del. case_bool_decide as Hn; unfold view.
    + simpl. rewrite (bool_decide_eq_true_2 (k ∈ new_ids st)) by done.
      by rewrite bool_decide_eq_false_2 by set_solver.
    + destruct (old_values st !! k) eqn:Ho; simpl;
        rewrite ?(bool_decide_eq_false_2 (k ∈ new_ids st)) by done;
        by rewrite ?Ho, ?lookup_insert_eq, ?lookup_delete_eq.
  - intros st k y i Hi. unfold merge_del. case_bool_decide.
    + unfold view. simpl. do 2 f_equal. apply bool_decide_ext. set_solver.
    + destruct (old_values st !! k); unfold view; simpl;
        by rewrite ?lookup_insert_ne, ?lookup_delete_ne by done.
Qed.

Lemma view_merge b a j : view j (merge_state b a) = merge_entry (view j b) (view j a).
Proof.
  unfold merge_state.
  rewrite view_merge_del, view_merge_next, view_merge_new, view_merge_upd
    by apply NoDup_fst_map_to_list.
  rewrite !list_to_map_to_list. unfold merge_entry, view.
  rewrite (bool_decide_ext (j ∈ elements (new_ids b)) (j ∈ new_ids b)) by apply elem_of_elements.
  done.
Qed.

Lemma next_ids_fold_upd (l : list (object_id_type * V)) a :
  old_index_next_ids (foldl merge_upd a l) = old_index_next_ids a.
Proof.
  revert a. induction l as [|[k y] l IH]; intros a; [done|]. simpl. rewrite IH.
  unfold merge_upd. case_bool_decide; [done|]. by destruct (old_values a !! k).
Qed.

Lemma next_ids_fold_new (l : list object_id_type) (a : undo_state) :
  old_index_next_ids (foldl merge_new a l) = old_index_next_ids a.
Proof. revert a. induction l as [|k l IH]; intros a; [done|]. simpl. by rewrite IH. Qed.

Lemma next_ids_fold_del (l : list (object_id_type * V)) a :
  old_index_next_ids (foldl merge_del a l) = old_index_next_ids a.
Proof.
  revert a. induction l as [|[k y] l IH]; intros a; [done|]. simpl. rewrite IH.
  unfold merge_del. case_bool_decide; [done|]. by destruct (old_values a !! k).
Qed.

Lemma next_ids_fold_next (l : list (object_id_type * object_id_type)) (a : undo_state) :
  NoDup l.*1 →
  old_index_next_ids (foldl merge_next a l) = old_index_next_ids a ∪ list_to_map l.
Proof.
  revert a. induction l as [|[k nx] l IH]; intros a Hnd; simpl.
  { by rewrite (right_id_L ∅ (∪)). }
  apply NoDup_cons in Hnd as [Hk Hnd]. rewrite IH by done. unfold merge_next.
  destruct (old_index_next_ids a !! k) as [c|] eqn:Hc; simpl.
  - apply map_eq. intros j. rewrite !lookup_union.
    destruct (decide (j = k)) as [->|Hj]; [by rewrite Hc, !some_union|by rewrite lookup_insert_ne].
  - rewrite <- insert_union_l. by rewrite insert_union_r.
Qed.

Lemma next_ids_merge (b a : undo_state) :
  old_index_next_ids (merge_state b a) = old_index_next_ids a ∪ old_index_next_ids b.
Proof.
  unfold merge_state.
  rewrite next_ids_fold_del, next_ids_fold_next, next_ids_fold_new, next_ids_fold_upd
    by apply NoDup_fst_map_to_list.
  by rewrite list_to_map_to_list.
Qed.

(** The 4x4 matrix in the comment of [merge()]: unless [b] creates what [a]
    deleted, the merged entry undoes both changes at once. *)
Lemma merge_entry_rb (b a : entry) (c : option V) :
  entry_ok b c → entry_ok a (rb b c) → ¬ (b.1.1 = true ∧ is_Some a.2) →
  rb (merge_entry b a) c = rb a (rb b c) ∧ entry_ok (merge_entry b a) c.
Proof.
  destruct b as [[[] [yo|]] [yr|]], a as [[[] [xo|]] [xr|]], c as [c|]; simpl;
    try tauto; intros _ _ Hn; try done; exfalso; apply Hn; by split.
Qed.

Lemma merge_wf b a cur :
  wf b cur → wf a (rollback b cur) →
  rollback (merge_state b a) cur = rollback a (rollback b cur) ∧ wf (merge_state b a) cur.
Proof.
  intros Hb Ha.
  assert (∀ id, ¬ ((view id b).1.1 = true ∧ is_Some (view id a).2)) as Hnocreate.
  { intros id [Hn [v Hv]]. apply bool_decide_eq_true in Hn. simpl in Hv.
    destruct (wf_new _ _ Hb _ Hn) as (nb & Hnb & Hle).
    destruct (wf_next _ _ Ha _ _ Hnb) as (na & Hna & Hle').
    destruct (entry_rb_some a (rollback b cur) id v Ha) as (na' & Hna' & Hlt).
    { rewrite rollback_lookup. unfold view. rewrite Hv. simpl.
      destruct (old_values a !! id); by case_bool_decide. }
    simplify_eq. lia. }
  assert (∀ id, rb (view id (merge_state b a)) (cur.1 !! id)
                  = rb (view id a) ((rollback b cur).1 !! id)
                ∧ entry_ok (view id (merge_state b a)) (cur.1 !! id)) as Hentry.
  { intros id. rewrite view_merge, rollback_lookup.
    apply merge_entry_rb; [apply (wf_entry _ _ Hb)| |done].
    rewrite <- rollback_lookup. apply (wf_entry _ _ Ha). }
  assert (rollback (merge_state b a) cur = rollback a (rollback b cur)) as Hrb.
  { rewrite (surjective_pairing (rollback _ cur)), (surjective_pairing (rollback a _)). f_equal.
    - apply map_eq. intros id. rewrite (rollback_lookup _ cur), (rollback_lookup a). apply Hentry.
    - cbn. by rewrite next_ids_merge, (assoc_L (∪)). }
  split; [done|]. split; rewrite ?Hrb.
  - apply Hentry.
  - intros id Hid. assert ((view id (merge_state b a)).1.1 = true) as Hn.
    { simpl. by apply bool_decide_eq_true. }
    rewrite view_merge in Hn.
    destruct (decide (id ∈ new_ids a)) as [Hna|Hna]; [by apply (wf_new _ _ Ha)|].
    destruct (decide (id ∈ new_ids b)) as [Hnb|Hnb].
    + destruct (wf_new _ _ Hb _ Hnb) as (nb & Hnx & Hle).
      destruct (wf_next _ _ Ha _ _ Hnx) as (na & Hnx' & Hle'). exists na. split; [done|lia].
    + unfold view in Hn. rewrite !bool_decide_eq_false_2 in Hn by done. simpl in Hn.
      by destruct (removed b !! id).
  - intros idx nc Hnc. destruct (wf_next _ _ Hb _ _ Hnc) as (nb & Hnx & Hle).
    destruct (wf_next _ _ Ha _ _ Hnx) as (na & Hnx' & Hle'). exists na. split; [done|lia].
  - intros idx Hidx. rewrite next_ids_merge in Hidx.
    apply lookup_union_is_Some in Hidx as [Hidx|Hidx]; [|by apply (wf_dom _ _ Hb)].
    destruct (wf_dom _ _ Ha idx Hidx) as [n Hn]. cbn in Hn.
    apply lookup_union_Some_raw in Hn as [Hn|[_ Hn]]; [by apply (wf_dom _ _ Hb)|by exists n].
  - intros id v w Hv Hw. destruct (Hentry id) as [_ He].
    assert ((view id (merge_state b a)).1.2 = Some v) as Hv' by done.
    pose proof (wf_entry _ _ Hb id) as Heb. rewrite Hw in Heb.
    pose proof (wf_entry _ _ Ha id) as Hea. rewrite rollback_lookup, Hw in Hea.
    pose proof (λ v, wf_keys _ _ Hb id v w) as Hkb.
    pose proof (λ v u, wf_keys _ _ Ha id v u) as Hka. rewrite rollback_lookup, Hw in Hka.
    rewrite view_merge in Hv'. unfold view in *.
    destruct (bool_decide (id ∈ new_ids b)), (old_values b !! id) as [yo|], (removed b !! id) as [yr|];
      simpl in *; try done;
    destruct (bool_decide (id ∈ new_ids a)), (old_values a !! id) as [xo|], (removed a !! id) as [xr|];
      simpl in *; simplify_eq; try done; eauto using same_keys_trans.
  - apply (wf_base _ _ Ha).
Qed.

Lemma pop_commit_refines d cur s saved :
  refines d cur (s :: saved) → active_sessions (undo_db d) = 0 →
  ∃ d', pop_commit clash d = (d', Ok ()) ∧ refines d' s saved ∧
    disabled (undo_db d') = false ∧ active_sessions (undo_db d') = 0.
Proof.
  intros (<- & Hok & Hl) Hact.
  destruct (linked_top _ _ _ _ Hl) as (st & rest & Hst & -> & Hwf & Hrest).
  unfold pop_commit. run_e. rewrite Hact, Hst. simpl.
  change (db_snap d) with (db_snap (map_undo disable d)) in *.
  rewrite (restore_rollback st (map_undo disable d)) by done.
  eexists. split_and!; [reflexivity| |done..].
  split_and!; [by destruct d|apply (wf_base _ _ Hwf)|done].
Qed.

Lemma merge_refines d cur t s saved :
  refines d cur (t :: s :: saved) → 0 < active_sessions (undo_db d) →
  ∃ d', lift_undo merge d = (d', Ok ()) ∧ refines d' cur (s :: saved) ∧
    disabled (undo_db d') = disabled (undo_db d) ∧ max_size (undo_db d') = max_size (undo_db d) ∧
    active_sessions (undo_db d') = active_sessions (undo_db d) - 1.
Proof.
  intros (<- & Hok & Hl) Hact.
  destruct (linked_top _ _ _ _ Hl) as (b & rest & Hst & -> & Hwfb & Hl').
  destruct (linked_top _ _ _ _ Hl') as (a & rest' & -> & -> & Hwfa & Hrest).
  destruct (merge_wf _ _ _ Hwfb Hwfa) as [Hrb Hwf].
  unfold lift_undo, merge. rewrite (proj2 (Z.ltb_lt _ _) Hact), Hst. simpl.
  eexists. split_and!; [reflexivity| |done..].
  split_and!; [by destruct d|done|]. simpl. by rewrite Hrb.
Qed.

Lemma linked_take n stk cur saved : linked stk cur saved → linked (take n stk) cur (take n saved).
Proof.
  revert n cur saved. induction stk as [|st stk IH]; intros [|n] cur [|s saved]; try done.
  intros (-> & Hwf & Hl). simpl. split_and!; [done|done|by apply IH].
Qed.

Lemma linked_length stk cur saved : linked stk cur saved → length stk = length saved.
Proof.
  revert cur saved. induction stk as [|st stk IH]; intros cur [|s saved]; try done.
  intros (_ & _ & Hl). simpl. f_equal. by eapply IH.
Qed.

(** The snapshots a new session leaves in the history. *)
Definition retained (d : db) (saved : list snapshot) : list snapshot :=
  take (Z.to_nat (max_size (undo_db d))) saved.

Lemma start_refines d cur saved :
  refines d cur saved → disabled (undo_db d) = false →
  ∃ d', session_start false d = (d', Ok (mk_session true false)) ∧
    refines d' cur (cur :: retained d saved) ∧
    disabled (undo_db d') = false ∧ max_size (undo_db d') = max_size (undo_db d) ∧
    active_sessions (undo_db d') = active_sessions (undo_db d) + 1.
Proof.
  intros (<- & Hok & Hl) Hen. destruct (empty_kept _ Hok) as [Hrb Hwf].
  unfold session_start, start_undo_session. rewrite Hen. cbn [andb negb].
  assert (linked (stack (drop_front (undo_db d))) (db_snap d) (retained d saved)) as Hl'.
  { unfold drop_front, size, retained. case_match eqn:Hsize; simpl; [by apply linked_take|].
    rewrite take_ge; [done|]. rewrite <- (linked_length _ _ _ Hl).
    apply Z.ltb_ge in Hsize. lia. }
  eexists. split_and!; [reflexivity| | | |].
  - split_and!; [by destruct d|done|]. simpl. by rewrite Hrb.
  - simpl. unfold drop_front. by case_match.
  - simpl. unfold drop_front. by case_match.
  - simpl. unfold drop_front. by case_match.
Qed.

(** ** Sequences of mutators *)

Definition exec_ops (l : list op) : E db () := mapE_ exec_op l.

Fixpoint spec_ops (l : list op) (cur : snapshot) : snapshot * result () :=
  match l with
  | [] => (cur, Ok ())
  | o :: l =>
      match spec_outcome o cur with
      | Ok _ => spec_ops l (spec_op o cur)
      | Throw e => (spec_op o cur, Throw e)
      end
  end.

Fixpoint ops_ok (l : list op) (cur : snapshot) : Prop :=
  match l with
  | [] => True
  | o :: l => op_ok o cur ∧ ops_ok l (spec_op o cur)
  end.

Lemma exec_ops_refines l d cur s saved :
  refines d cur (s :: saved) → disabled (undo_db d) = false → ops_ok l cur →
  ∃ d', exec_ops l d = (d', (spec_ops l cur).2) ∧
    refines d' (spec_ops l cur).1 (s :: saved) ∧ disabled (undo_db d') = false ∧
    active_sessions (undo_db d') = active_sessions (undo_db d) ∧
    max_size (undo_db d') = max_size (undo_db d).
Proof.
  revert d cur. induction l as [|o l IH]; intros d cur Href Hen Hops; [by exists d|].
  destruct Hops as [Hop Hops]. unfold exec_ops. simpl. rewrite E_bind_step.
  destruct (exec_op_refines o d cur s saved Href Hen Hop) as (d1 & -> & Href1 & Hen1 & Hact1 & Hmax1).
  destruct (spec_outcome o cur) as [[]|e]; [|by exists d1].
  destruct (IH d1 _ Href1 Hen1 Hops) as (d2 & Hrun & ? & ? & Hact2 & Hmax2).
  exists d2. unfold exec_ops in Hrun. rewrite Hrun. split_and!; congruence || done.
Qed.

(** C1: a session runs any sequence of creations, modifications and removals in which the
    modifications leave the unique keys of their objects as they are and the numbers of an
    index do not run out ([ops_ok]).  Then, whether or not one of them throws, the
    destructor of the session returns every object and every next id to what they were
    when the session started; the older snapshots are still there, up to the size limit.
    Creations may collide: they throw.  Without the condition on modifications the
    statement is false ([modify_collision_loses_object]). *)
Theorem session_rollback l d cur saved :
  refines d cur saved → disabled (undo_db d) = false → 0 ≤ active_sessions (undo_db d) →
  ops_ok l cur →
  ∃ s d1 d2 d3,
    session_start false d = (d1, Ok s) ∧
    exec_ops l d1 = (d2, (spec_ops l cur).2) ∧
    session_destroy clash s d2 = (d3, Ok ()) ∧
    refines d3 cur (retained d saved) ∧
    active_sessions (undo_db d3) = active_sessions (undo_db d).
Proof.
  intros Href Hen Hact Hops.
  destruct (start_refines d cur saved Href Hen) as (d1 & Hstart & Href1 & Hen1 & Hmax1 & Hact1).
  destruct (exec_ops_refines l d1 _ _ _ Href1 Hen1 Hops) as (d2 & Hrun & Href2 & Hen2 & Hact2 & _).
  destruct (undo_refines d2 _ _ _ Href2 Hen2 ltac:(lia)) as (d3 & Hundo & Href3 & _ & _ & Hact3).
  exists (mk_session true false), d1, d2, d3. split_and!; try done; [|lia].
  unfold session_destroy. rewrite E_bind_step. simpl. by rewrite Hundo.
Qed.

(** C2: [merge()] of an inner session into an outer one, as in
    [_push_transaction], for a body whose modifications leave the unique keys as they
    are ([ops_ok], see [modify_collision_loses_object]): the block succeeds exactly
    when the body does, leaves the contents the body computes (or, when the body throws,
    the contents before it), and the outer session still undoes to its own start. *)
Theorem merged_session_atomic l d cur s saved :
  refines d cur (s :: saved) → disabled (undo_db d) = false → 0 < active_sessions (undo_db d) →
  0 < max_size (undo_db d) → ops_ok l cur →
  ∃ d' saved',
    with_merged_session clash (exec_ops l) d = (d', (spec_ops l cur).2) ∧
    refines d' (match (spec_ops l cur).2 with Ok _ => (spec_ops l cur).1 | Throw _ => cur end)
      (s :: saved') ∧
    saved' = take (Z.to_nat (max_size (undo_db d)) - 1) saved ∧
    active_sessions (undo_db d') = active_sessions (undo_db d).
Proof.
  intros Href Hen Hact Hmax Hops.
  destruct (start_refines d cur _ Href Hen) as (d1 & Hstart & Href1 & Hen1 & Hmax1 & Hact1).
  unfold retained in Href1. replace (Z.to_nat (max_size (undo_db d)))
    with (S (Z.to_nat (max_size (undo_db d)) - 1)) in Href1 by lia. simpl in Href1.
  destruct (exec_ops_refines l d1 _ _ _ Href1 Hen1 Hops) as (d2 & Hrun & Href2 & Hen2 & Hact2 & _).
  unfold with_merged_session, with_session. rewrite Hstart, Hrun.
  destruct (spec_ops l cur) as [cur' [[]|e]]; simpl in *.
  - destruct (merge_refines d2 _ _ _ _ Href2 ltac:(lia)) as (d3 & Hm & Href3 & _ & _ & Hact3).
    unfold session_merge. simpl. rewrite E_bind_step, Hm.
    eexists d3, _. split_and!; [reflexivity|done|done|lia].
  - destruct (undo_refines d2 _ _ _ Href2 Hen2 ltac:(lia)) as (d3 & Hu & Href3 & _ & _ & Hact3).
    unfold session_destroy. rewrite E_bind_step. simpl. rewrite Hu.
    eexists d3, _. split_and!; [reflexivity|done|done|lia].
Qed.

(** A committed session, as in [_push_block], followed by [pop_commit()],
    as in [pop_block]: the block is atomic, and popping it returns the
    database to what it was before the block. *)
Theorem committed_session_pop l d cur saved :
  refines d cur saved → disabled (undo_db d) = false → active_sessions (undo_db d) = 0 →
  ops_ok l cur →
  ∃ d',
    with_committed_session clash (exec_ops l) d = (d', (spec_ops l cur).2) ∧
    match (spec_ops l cur).2 with
    | Throw _ => refines d' cur (retained d saved)
    | Ok _ =>
        refines d' (spec_ops l cur).1 (cur :: retained d saved) ∧
        ∃ d'', pop_commit clash d' = (d'', Ok ()) ∧ refines d'' cur (retained d saved)
    end.
Proof.
  intros Href Hen Hact Hops.
  destruct (start_refines d cur saved Href Hen) as (d1 & Hstart & Href1 & Hen1 & Hmax1 & Hact1).
  destruct (exec_ops_refines l d1 _ _ _ Href1 Hen1 Hops) as (d2 & Hrun & Href2 & Hen2 & Hact2 & _).
  unfold with_committed_session, with_session. rewrite Hstart, Hrun.
  destruct (spec_ops l cur) as [cur' [[]|e]]; simpl in *.
  - unfold session_commit, lift_undo, commit. rewrite E_bind_step. run_e.
    rewrite (proj2 (Z.ltb_lt 0 (active_sessions (undo_db d2)))) by lia. simpl.
    set (d3 := set_undo (set_active (active_sessions (undo_db d2) - 1) (undo_db d2)) d2).
    assert (refines d3 cur' (cur :: retained d saved)) as Href3.
    { destruct Href2 as (<- & Hok2 & Hl2). split_and!; [by destruct d2|done|done]. }
    destruct (pop_commit_refines d3 _ _ _ Href3) as (d4 & Hpop & Href4 & _); [simpl; lia|].
    exists d3. split_and!; [done..|]. by exists d4.
  - destruct (undo_refines d2 _ _ _ Href2 Hen2 ltac:(lia)) as (d3 & Hu & Href3 & _ & _ & Hact3).
    unfold session_destroy. rewrite E_bind_step. simpl. rewrite Hu.
    exists d3. by split_and!.
Qed.
End Refinement.

(** ** A modification that collides on a unique key *)

(** Objects with one unique key; the fields of the witnesses. *)
Definition key_clash (v w : Z * string) : bool := v.1 =? w.1.

Lemma key_clash_sym v w : key_clash v w = key_clash w v.
Proof. apply Z.eqb_sym. Qed.

Definition obj_id (n : Z) : object_id_type := mk_id (pack 1 2 n).

(** An enabled database with one index (space 1, type 2) holding two objects,
    in a session. *)
Definition sample_db : object_database (Z * string) :=
  mk_db {[obj_id 0 := (10, "alice"); obj_id 1 := (11, "bob")]} {[obj_id 0 := obj_id 2]}
    (mk_undo_db 1 false [empty_state] 256).

(** [generic_index::modify] reports a modification that collides on a
    unique key only after the container has erased the object: the exception
    leaves a history whose [undo()] throws too, and the object is lost. *)
Theorem modify_collision_loses_object :
  ∃ d1 d2 : object_database (Z * string),
    db_modify key_clash (obj_id 0) (λ v, (11, v.2)) sample_db = (d1, Throw assert_exception) ∧
    objects d1 !! obj_id 0 = None ∧
    undo key_clash d1 = (d2, Throw assert_exception) ∧
    objects d2 !! obj_id 0 = None ∧ disabled (undo_db d2) = true.
Proof.
  eexists _, _. split_and!; [vm_compute; reflexivity|vm_compute; reflexivity
    |vm_compute; reflexivity|vm_compute; reflexivity|vm_compute; reflexivity].
Qed.

(** ** Witnesses *)

Definition sample_cur : snapshot (V := Z * string) := db_snap sample_db.
(** The same contents outside any session. *)
Definition idle_db : object_database (Z * string) :=
  mk_db sample_cur.1 sample_cur.2 (mk_undo_db 0 false [] 256).
(** Create an object, rename one, remove one. *)
Definition sample_ops : list (op (V := Z * string)) :=
  [OpCreate (obj_id 0) (λ _, (12, "carol")); OpModify (obj_id 0) (λ v, (v.1, "alan"));
   OpRemove (obj_id 1)].

Lemma sample_snap_ok : snap_ok key_clash sample_cur.
Proof.
  split.
  - intros id id' v w Hv Hw Hne _. cbn in Hv, Hw.
    apply lookup_insert_Some in Hv as [[<- <-]|[_ [<- <-]%lookup_singleton_Some]];
    apply lookup_insert_Some in Hw as [[<- <-]|[_ [<- <-]%lookup_singleton_Some]]; done.
  - intros id v Hv. exists (obj_id 2). cbn in Hv.
    apply lookup_insert_Some in Hv as [[<- <-]|[_ [<- <-]%lookup_singleton_Some]];
      by split; vm_compute.
  - intros idx nx Hnx. cbn in Hnx. apply lookup_singleton_Some in Hnx as [<- <-]. split; [reflexivity|]. by split; vm_compute.
Qed.

Lemma idle_refines : refines key_clash idle_db sample_cur [].
Proof. split_and!; [reflexivity|apply sample_snap_ok|done]. Qed.

Lemma sample_refines : refines key_clash sample_db sample_cur [sample_cur].
Proof.
  destruct (empty_kept key_clash key_clash_sym sample_cur sample_snap_ok) as [Hrb Hwf].
  split_and!; [reflexivity|apply sample_snap_ok|]. by split_and!.
Qed.

Lemma sample_ops_ok : ops_ok key_clash sample_ops sample_cur.
Proof.
  unfold sample_ops. cbn [ops_ok]. split; [|split; [intros v _ x; reflexivity|by split]].
  intros id Hid. vm_compute in Hid. simplify_eq. by vm_compute.
Qed.

Lemma session_rollback_witness :
  spec_ops key_clash sample_ops sample_cur
    = (({[obj_id 0 := (10, "alan"); obj_id 2 := (12, "carol")]}, {[obj_id 0 := obj_id 3]}), Ok ())
  ∧ ∃ s d1 d2 d3,
    session_start false idle_db = (d1, Ok s) ∧
    exec_ops key_clash sample_ops d1 = (d2, Ok ()) ∧
    session_destroy key_clash s d2 = (d3, Ok ()) ∧
    refines key_clash d3 sample_cur (retained idle_db []) ∧
    active_sessions (undo_db d3) = active_sessions (undo_db idle_db).
Proof.
  split; [vm_compute; reflexivity|].
  apply (session_rollback key_clash key_clash_sym sample_ops idle_db sample_cur []);
    [apply idle_refines|reflexivity|done|apply sample_ops_ok].
Defined.

Lemma merged_session_atomic_witness :
  ∃ d' saved',
    with_merged_session key_clash (exec_ops key_clash sample_ops) sample_db
      = (d', (spec_ops key_clash sample_ops sample_cur).2) ∧
    refines key_clash d' (match (spec_ops key_clash sample_ops sample_cur).2 with
      | Ok _ => (spec_ops key_clash sample_ops sample_cur).1
      | Throw _ => sample_cur end) (sample_cur :: saved') ∧
    saved' = take (Z.to_nat (max_size (undo_db sample_db)) - 1) [] ∧
    active_sessions (undo_db d') = active_sessions (undo_db sample_db).
Proof.
  apply (merged_session_atomic key_clash key_clash_sym sample_ops sample_db sample_cur sample_cur []);
    [apply sample_refines|reflexivity|done|done|apply sample_ops_ok].
Defined.

Lemma committed_session_pop_witness :
  ∃ d',
    with_committed_session key_clash (exec_ops key_clash sample_ops) idle_db
      = (d', (spec_ops key_clash sample_ops sample_cur).2) ∧
    match (spec_ops key_clash sample_ops sample_cur).2 with
    | Throw _ => refines key_clash d' sample_cur (retained idle_db [])
    | Ok _ =>
        refines key_clash d' (spec_ops key_clash sample_ops sample_cur).1
          (sample_cur :: retained idle_db []) ∧
        ∃ d'', pop_commit key_clash d' = (d'', Ok ()) ∧
          refines key_clash d'' sample_cur (retained idle_db [])
    end.
Proof.
  apply (committed_session_pop key_clash key_clash_sym sample_ops idle_db sample_cur []);
    [apply idle_refines|reflexivity|done|apply sample_ops_ok].
Defined.
