(* ===== verification/Block.v ===== *)
(** * Blocks: libraries/chain/protocol/block.cpp and protocol/block.hpp

    Block identifiers carry the height of their block in their first word; a
    block knows its own height from the identifier of its predecessor.  The file
    also models the computation of the merkle root, whose loop overwrites the
    vector of digests it reads.

    [sha224] and the digest functions are implemented on OpenSSL: they are
    parameters.  A [vector] index is a [nat]: the [uint32_t] counters of
    [calculate_merkle_root] are exact for blocks of fewer than 2^32 transactions. *)

From S2P Require Import Prelude.

Local Open Scope Z_scope.

(** [fc::endian_reverse_u32] (libraries/fc/include/fc/bitutil.hpp). *)
Definition endian_reverse_u32 (x : Z) : Z :=
  Z.lor (Z.lor (Z.lor (Z.land (Z.shiftr x 24) 255)
    (Z.shiftl (Z.land (Z.shiftr x 16) 255) 8))
    (Z.shiftl (Z.land (Z.shiftr x 8) 255) 16))
    (Z.shiftl (Z.land x 255) 24).

(** [block_id_type], an [fc::ripemd160]: five 32-bit words. *)
Record block_id_type := mk_block_id { _hash : list Z }.

#[export] Instance block_id_eq_dec : EqDecision block_id_type.
Proof. solve_decision. Defined.
#[export] Instance block_id_countable : Countable block_id_type.
Proof. refine (inj_countable' _hash mk_block_id _). by intros []. Defined.

(** The default constructor, [block_id_type()]. *)
Definition null_block_id : block_id_type := mk_block_id [0; 0; 0; 0; 0].

(** [block_header::num_from_id]. *)
Definition num_from_id (id : block_id_type) : Z := endian_reverse_u32 (_hash id !!! 0%nat).

Section Blocks.
(** A transaction, a digest and a signature, opaque to the block. *)
Context {T D Sg : Type} `{Inhabited D}.

Record signed_block := mk_block {
  version : Z;
  previous : block_id_type;
  timestamp : Z;
  witness : Z;
  transaction_merkle_root : D;
  witness_signature : Sg;
  transactions : list T
}.

(** What [sha224] is computed of: the fields [FC_REFLECT] names (the extensions
    of a header are a set of [void_t] and always empty). *)
Definition signed_block_header : Type := Z * block_id_type * Z * Z * D * Sg.

Definition reflected (b : signed_block) : signed_block_header :=
  (version b, previous b, timestamp b, witness b, transaction_merkle_root b, witness_signature b).

Definition block_num (b : signed_block) : Z := to_uint 64 (num_from_id (previous b) + 1).

(** [signed_block_header::id]. *)
Definition block_id (sha224 : signed_block_header → list Z) (b : signed_block) : block_id_type :=
  let tmp := sha224 (reflected b) in
  let tmp := <[0%nat := endian_reverse_u32 (to_uint 32 (block_num b))]> tmp in
  let tmp := <[1%nat := Z.land (tmp !!! 1%nat) 4294967040]> tmp in
  mk_block_id (take 5 tmp).

(** The [for] loop of [calculate_merkle_root]: [ids[k++] = hash( ids[i], ids[i+1] )]
    for [i = 0; i < i_max; i += 2]; [n] bounds the number of iterations. *)
Fixpoint merkle_pairs (hash : D → D → D) (n i_max i k : nat) (ids : list D) : nat * list D :=
  match n with
  | O => (k, ids)
  | S n =>
      if (i <? i_max)%nat then
        merkle_pairs hash n i_max (i + 2) (S k) (<[k := hash (ids !!! i) (ids !!! S i)]> ids)
      else (k, ids)
  end.

(** One iteration of the [while] loop: the new number of hashes and the vector. *)
Definition merkle_level (hash : D → D → D) (count : nat) (ids : list D) : nat * list D :=
  let odd := (count mod 2)%nat in
  let i_max := (count - odd)%nat in
  let '(k, ids) := merkle_pairs hash count i_max 0 0 ids in
  if (odd =? 0)%nat then (k, ids) else (S k, <[k := ids !!! i_max]> ids).

(** The [while( current_number_of_hashes > 1 )] loop. *)
Fixpoint merkle_loop (hash : D → D → D) (fuel : nat) (count : nat) (ids : list D)
    : option (list D) :=
  if (count <=? 1)%nat then Some ids else
  match fuel with
  | O => None
  | S fuel =>
      let '(count, ids) := merkle_level hash count ids in merkle_loop hash fuel count ids
  end.

(** [signed_block::calculate_merkle_root]; [zero] is [checksum_type()]. *)
Definition calculate_merkle_root {C} (merkle_digest : T → D) (hash : D → D → D)
    (checksum : D → C) (zero : C) (b : signed_block) : option C :=
  match transactions b with
  | [] => Some zero
  | txs =>
      let ids := merkle_digest <$> txs in
      ids ← merkle_loop hash (length ids) (length ids) ids;
      mret (checksum (ids !!! 0%nat))
  end.

(** ** Reference: a level of the tree, and the root of a list of leaves *)

Fixpoint pair_up (hash : D → D → D) (l : list D) : list D :=
  match l with
  | x :: y :: l => hash x y :: pair_up hash l
  | l => l
  end.

(** [merkle_tree hash l r]: [r] is the root of the tree whose leaves are [l]. *)
Inductive merkle_tree (hash : D → D → D) : list D → D → Prop :=
  | merkle_root1 r : merkle_tree hash [r] r
  | merkle_step l r :
      (1 < length l)%nat → merkle_tree hash (pair_up hash l) r → merkle_tree hash l r.

(** ** The in-place loop computes a level *)

Lemma pair_up_length hash l :
  length (pair_up hash l) = (length l / 2 + length l mod 2)%nat.
Proof.
  revert l. refine (fix IH l := _). destruct l as [|x [|y l]]; [done|done|].
  cbn [pair_up length]. rewrite IH.
  replace (S (S (length l))) with (length l + 1 * 2)%nat by lia.
  rewrite Nat.Div0.mod_add, Nat.div_add by lia. lia.
Qed.

Lemma pair_up_pair hash l k :
  (2 * k + 1 < length l)%nat →
  pair_up hash l !! k = Some (hash (l !!! (2 * k)%nat) (l !!! S (2 * k))).
Proof.
  revert l. induction k as [|k IH]; intros [|x [|y l]] Hk; simpl in Hk; try lia; [done|].
  replace (2 * S k)%nat with (S (S (2 * k))) by lia. simpl. apply IH. simpl. lia.
Qed.

Lemma pair_up_last hash l k :
  length l = S (2 * k) → pair_up hash l !! k = Some (l !!! (2 * k)%nat).
Proof.
  revert l. induction k as [|k IH]; intros [|x [|y l]] Hk; simpl in Hk; try lia; [done|].
  replace (2 * S k)%nat with (S (S (2 * k))) by lia. simpl. apply IH. simpl in *. lia.
Qed.

(** What the vector [v'] keeps of the vector [v] after [k] pairs: the first [k]
    cells hold the results, the cells not read yet are unchanged. *)
Definition level_inv (hash : D → D → D) (c : nat) (v : list D) (k : nat) (v' : list D) : Prop :=
  length v' = length v ∧ take k v' = take k (pair_up hash (take c v)) ∧
  ∀ j, (2 * k <= j)%nat → v' !! j = v !! j.

Lemma level_inv_step hash c v k v' x :
  (c <= length v)%nat → (k < c)%nat → pair_up hash (take c v) !! k = Some x →
  level_inv hash c v k v' →
  level_inv hash c v (S k) (<[k := x]> v').
Proof.
  intros Hc Hk Hx (Hlen & Hdone & Hrest). split_and!.
  - by rewrite length_insert.
  - rewrite (take_S_r _ _ x), (take_S_r (pair_up _ _) _ x); [|done|].
    + rewrite take_insert_ge by lia. by rewrite Hdone.
    + apply list_lookup_insert_eq. lia.
  - intros j Hj. rewrite list_lookup_insert_ne by lia. apply Hrest. lia.
Qed.

Lemma merkle_pairs_inv hash n c half v k v' :
  (c <= length v)%nat → (2 * half <= c)%nat → (half - k <= n)%nat → (k <= half)%nat →
  level_inv hash c v k v' →
  ∃ v'', merkle_pairs hash n (2 * half) (2 * k) k v' = (half, v'') ∧
         level_inv hash c v half v''.
Proof.
  revert k v'. induction n as [|n IH]; intros k v' Hc Hh Hn Hk Hinv; cbn [merkle_pairs].
  - assert (k = half) as -> by lia. eauto.
  - destruct (Nat.ltb_spec (2 * k) (2 * half)).
    + replace (2 * k + 2)%nat with (2 * S k)%nat by lia. apply IH; try lia.
      apply level_inv_step; try lia; [|done].
      destruct Hinv as (_ & _ & Hrest).
      rewrite pair_up_pair by (rewrite length_take; lia).
      rewrite !list_lookup_total_alt, !lookup_take_lt, !Hrest by lia. done.
    + assert (k = half) as -> by lia. eauto.
Qed.

Lemma merkle_level_spec hash c v :
  (1 < c <= length v)%nat →
  ∃ c' v', merkle_level hash c v = (c', v') ∧ length v' = length v ∧
    c' = length (pair_up hash (take c v)) ∧ take c' v' = pair_up hash (take c v) ∧ (c' < c)%nat.
Proof.
  intros Hc. unfold merkle_level.
  pose proof (Nat.div_mod_eq c 2) as Hdm. pose proof (Nat.mod_upper_bound c 2 ltac:(lia)) as Hm.
  destruct (merkle_pairs_inv hash c c (c / 2) v 0 v) as (v' & Hrun & Hinv); try lia.
  { split_and!; by rewrite ?take_0. }
  replace (c - c mod 2)%nat with (2 * (c / 2))%nat by lia.
  change (2 * 0)%nat with 0%nat in Hrun. rewrite Hrun.
  assert (length (pair_up hash (take c v)) = (c / 2 + c mod 2)%nat) as Hpl.
  { by rewrite pair_up_length, length_take, Nat.min_l by lia. }
  destruct (Nat.eqb_spec (c mod 2) 0) as [H0|H0].
  - destruct Hinv as (Hlen & Hdone & _).
    exists (c / 2)%nat, v'. split_and!; try done; try lia.
    rewrite Hdone. apply take_ge. lia.
  - pose proof (level_inv_step hash c v (c / 2) v' (v' !!! (2 * (c / 2))%nat)) as Hstep.
    destruct Hstep as (Hlen & Hdone & _); try lia; try done.
    { destruct Hinv as (_ & _ & Hrest).
      rewrite pair_up_last by (rewrite length_take; lia).
      rewrite !list_lookup_total_alt, lookup_take_lt, Hrest by lia. done. }
    eexists _, _. split_and!; [done|lia|lia| |lia].
    rewrite Hdone. apply take_ge. lia.
Qed.

Lemma merkle_loop_spec hash fuel c v :
  (1 <= c <= length v)%nat → (c <= S fuel)%nat →
  ∃ v', merkle_loop hash fuel c v = Some v' ∧ length v' = length v ∧
        merkle_tree hash (take c v) (v' !!! 0%nat).
Proof.
  revert c v. induction fuel as [|fuel IH]; intros c v Hc Hf; cbn [merkle_loop];
    (destruct (Nat.leb_spec c 1) as [H1|H1]; [|try lia]).
  1,2: exists v; split_and!; [done|done|]; assert (c = 1)%nat as -> by lia;
    destruct v; [simpl in *; lia|constructor].
  destruct (merkle_level_spec hash c v) as (c' & v' & -> & Hlen & Hc' & Htake & Hlt); [lia|].
  assert (1 <= c')%nat.
  { rewrite Hc', pair_up_length, length_take. rewrite Nat.min_l by lia.
    pose proof (Nat.div_mod_eq c 2). lia. }
  destruct (IH c' v') as (w & -> & Hw & Htree); try lia.
  exists w. split_and!; [done|lia|]. constructor; [rewrite length_take; lia|].
  by rewrite <- Htake.
Qed.

(** The merkle root of a block is computed for every list of transactions,
    although the loop overwrites the vector it reads: it is the checksum of the
    root of the binary tree whose leaves are the digests of the transactions,
    an odd leaf of a level moving up unchanged; an empty block has the zero
    checksum. *)
Theorem merkle_root_correct {C} merkle_digest hash (checksum : D → C) zero b :
  match transactions b with
  | [] => calculate_merkle_root merkle_digest hash checksum zero b = Some zero
  | txs => ∃ root, merkle_tree hash (merkle_digest <$> txs) root ∧
      calculate_merkle_root merkle_digest hash checksum zero b = Some (checksum root)
  end.
Proof.
  unfold calculate_merkle_root. destruct (transactions b) as [|t txs]; [done|].
  destruct (merkle_loop_spec hash (length (merkle_digest <$> t :: txs))
    (length (merkle_digest <$> t :: txs)) (merkle_digest <$> t :: txs)) as (v & -> & _ & Htree).
  - cbn. lia.
  - lia.
  - eexists. split; [|reflexivity]. by rewrite firstn_all in Htree.
Qed.

(** ** Heights *)

Lemma land_255 x : Z.land x 255 = x mod 2 ^ 8.
Proof. change 255 with (Z.ones 8). apply Z.land_ones. lia. Qed.

Lemma endian_reverse_bytes a b c d :
  uint 8 a → uint 8 b → uint 8 c → uint 8 d →
  endian_reverse_u32 (((d * 2 ^ 8 + c) * 2 ^ 8 + b) * 2 ^ 8 + a) =
    ((a * 2 ^ 8 + b) * 2 ^ 8 + c) * 2 ^ 8 + d.
Proof.
  unfold uint. intros Ha Hb Hc Hd. unfold endian_reverse_u32.
  rewrite !land_255, !Z.shiftl_mul_pow2, !Z.shiftr_div_pow2 by lia.
  assert (∀ x y, 0 ≤ y < 2 ^ 8 → (x * 2 ^ 8 + y) / 2 ^ 8 = x ∧ (x * 2 ^ 8 + y) mod 2 ^ 8 = y)
    as Hbyte.
  { intros x y Hy. rewrite Z.add_comm, Z.div_add, Z.mod_add, Z.div_small, Z.mod_small by lia. lia. }
  change (2 ^ 24) with (2 ^ 8 * 2 ^ 8 * 2 ^ 8). change (2 ^ 16) with (2 ^ 8 * 2 ^ 8).
  rewrite <- !Z.div_div by lia.
  rewrite !(proj1 (Hbyte _ _ Ha)), !(proj1 (Hbyte _ _ Hb)), !(proj1 (Hbyte _ _ Hc)).
  rewrite !(proj2 (Hbyte _ _ Ha)), !(proj2 (Hbyte _ _ Hb)), !(proj2 (Hbyte _ _ Hc)).
  rewrite Z.mod_small by lia.
  change (2 ^ 8 * 2 ^ 8 * 2 ^ 8) with (2 ^ 24). change (2 ^ 8 * 2 ^ 8) with (2 ^ 16).
  rewrite (Z.lor_comm d), lor_add_low by lia.
  rewrite (Z.lor_comm (c * 2 ^ 8 + d)), lor_add_low by lia.
  rewrite Z.lor_comm, lor_add_low by lia. lia.
Qed.

Lemma uint_32_bytes x :
  uint 32 x → ∃ a b c d, uint 8 a ∧ uint 8 b ∧ uint 8 c ∧ uint 8 d ∧
    x = ((d * 2 ^ 8 + c) * 2 ^ 8 + b) * 2 ^ 8 + a.
Proof.
  unfold uint. intros Hx.
  assert (∀ y, y = 2 ^ 8 * (y / 2 ^ 8) + y mod 2 ^ 8 ∧ 0 ≤ y mod 2 ^ 8 < 2 ^ 8) as Hdm.
  { intros y. split; [apply Z.div_mod; lia|apply Z.mod_pos_bound; lia]. }
  exists (x mod 2 ^ 8), (x / 2 ^ 8 mod 2 ^ 8), (x / 2 ^ 8 / 2 ^ 8 mod 2 ^ 8),
    (x / 2 ^ 8 / 2 ^ 8 / 2 ^ 8).
  pose proof (Hdm x). pose proof (Hdm (x / 2 ^ 8)). pose proof (Hdm (x / 2 ^ 8 / 2 ^ 8)).
  split_and!; lia.
Qed.

(** Whatever the words of an identifier, its number is a 32-bit one. *)
Lemma num_from_id_range id : uint 32 (num_from_id id).
Proof.
  unfold num_from_id. generalize (_hash id !!! 0%nat) as x. intros x. unfold endian_reverse_u32.
  rewrite !land_255, !Z.shiftl_mul_pow2 by lia.
  pose proof (Z.mod_pos_bound (Z.shiftr x 24) (2 ^ 8)) as H1.
  pose proof (Z.mod_pos_bound (Z.shiftr x 16) (2 ^ 8)) as H2.
  pose proof (Z.mod_pos_bound (Z.shiftr x 8) (2 ^ 8)) as H3.
  pose proof (Z.mod_pos_bound x (2 ^ 8)) as H4.
  revert H1 H2 H3 H4. generalize (Z.shiftr x 24 mod 2 ^ 8) as a, (Z.shiftr x 16 mod 2 ^ 8) as b,
    (Z.shiftr x 8 mod 2 ^ 8) as c, (x mod 2 ^ 8) as d. intros.
  rewrite (Z.lor_comm a), lor_add_low by lia.
  replace (b * 2 ^ 8 + a) with (0 + (b * 2 ^ 8 + a)) by lia.
  rewrite (Z.lor_comm (0 + _) (c * 2 ^ 16)), lor_add_low by lia.
  rewrite (Z.lor_comm _ (d * 2 ^ 24)), lor_add_low by lia. unfold uint. lia.
Qed.

Lemma endian_reverse_range x : uint 32 x → uint 32 (endian_reverse_u32 x).
Proof.
  intros (a & b & c & d & Ha & Hb & Hc & Hd & ->)%uint_32_bytes.
  rewrite endian_reverse_bytes by done. unfold uint in *. lia.
Qed.

Lemma endian_reverse_involutive x :
  uint 32 x → endian_reverse_u32 (endian_reverse_u32 x) = x.
Proof.
  intros (a & b & c & d & Ha & Hb & Hc & Hd & ->)%uint_32_bytes.
  by rewrite !endian_reverse_bytes by done.
Qed.

Lemma num_from_block_id sha224 b :
  (0 < length (sha224 (reflected b)))%nat →
  num_from_id (block_id sha224 b) = to_uint 32 (block_num b).
Proof.
  intros Hlen. unfold num_from_id, block_id. cbn [_hash].
  rewrite list_lookup_total_alt, lookup_take_lt by lia.
  rewrite list_lookup_insert_ne, list_lookup_insert_eq by lia. simpl.
  apply endian_reverse_involutive. apply to_uint_range. lia.
Qed.

(** A block linked to [b] is one higher, as long as the height of [b] fits the
    32 bits the identifier has for it. *)
Lemma block_num_child sha224 b b' :
  (0 < length (sha224 (reflected b)))%nat → previous b' = block_id sha224 b →
  uint 32 (block_num b) → block_num b' = block_num b + 1.
Proof.
  intros Hlen Hprev Hb. unfold block_num at 1. rewrite Hprev, num_from_block_id by done.
  rewrite (to_uint_id 32) by done. apply to_uint_id. unfold uint in *. lia.
Qed.
End Blocks.
Arguments signed_block : clear implicits.

(** ** The store of the blocks *)

(** What the chain needs of it. *)
Class BlockStore (B block : Type) := {
  bs_store : block_id_type → block → B → result B;
  bs_contains : block_id_type → B → bool;
  bs_fetch : block_id_type → B → option block
}.

(** What it promises on a well-formed store and a block that fits: the block is
    stored, and found if it was stored under its own identifier; the blocks of
    other numbers are still found. *)
Class StoresBlocks {T D Sg B} `{Inhabited D} (sha224 : @signed_block_header D Sg → list Z)
    `{BlockStore B (signed_block T D Sg)} (wf : B → Prop) (fits : signed_block T D Sg → Prop) : Prop := {
  store_returns id b st : wf st → fits b → id ≠ null_block_id →
    ∃ st', bs_store id b st = Ok st' ∧ wf st' ∧
      (id = block_id sha224 b → is_Some (bs_fetch id st')) ∧
      ∀ id', num_from_id id' ≠ num_from_id id → is_Some (bs_fetch id' st) → is_Some (bs_fetch id' st')
}.
