(* ===== verification/ForkDb.v ===== *)
(** * The fork database: libraries/chain/fork_database.cpp

    The tree of the recent blocks: each [fork_item] keeps a weak pointer to the
    item of its predecessor.  A [shared_ptr<fork_item>] is an address of a heap
    of items that is only ever extended; a weak pointer can be locked as long as
    some owner of the item exists: the two containers, the head, or a pointer
    the caller holds (argument [held]). *)

From S2P Require Import Prelude Block.

Local Open Scope Z_scope.

Abbreviation item_ptr := nat (only parsing).

Section ForkDatabase.
Context {T D Sg : Type} `{Inhabited D} (sha224 : @signed_block_header D Sg → list Z).

Record fork_item := mk_item {
  prev : option item_ptr;
  num : Z;
  id : block_id_type;
  data : signed_block T D Sg
}.

(** The constructor [fork_item( signed_block d )]. *)
Definition new_item (d : signed_block T D Sg) : fork_item :=
  mk_item None (block_num d) (block_id sha224 d) d.

Definition previous_id (i : fork_item) : block_id_type := previous (data i).

(** The containers list their items in the order of insertion. *)
Record fork_database := mk_fork_db {
  heap : list fork_item;
  _max_size : Z;
  _unlinked_index : list item_ptr;
  _index : list item_ptr;
  _head : option item_ptr
}.

Definition initial_db : fork_database := mk_fork_db [] 1024 [] [] None.

Definition with_heap h db :=
  mk_fork_db h (_max_size db) (_unlinked_index db) (_index db) (_head db).
Definition with_max_size s db :=
  mk_fork_db (heap db) s (_unlinked_index db) (_index db) (_head db).
Definition with_unlinked u db :=
  mk_fork_db (heap db) (_max_size db) u (_index db) (_head db).
Definition with_index i db :=
  mk_fork_db (heap db) (_max_size db) (_unlinked_index db) i (_head db).
Definition with_head h db :=
  mk_fork_db (heap db) (_max_size db) (_unlinked_index db) (_index db) h.

(** The item of the head. *)
Definition head_item (db : fork_database) : option fork_item :=
  p ← _head db; heap db !! p.

(** *** The containers *)

(** A property of the item at an address. *)
Definition item_is (db : fork_database) (P : fork_item → bool) (p : item_ptr) : bool :=
  match heap db !! p with Some i => P i | None => false end.

(** [index.get<block_id>().find( i )]. *)
Definition find_id (db : fork_database) (idx : list item_ptr) (i : block_id_type)
    : option item_ptr :=
  snd <$> list_find (λ p, item_is db (λ it, bool_decide (id it = i)) p) idx.

(** [_index.insert( item )]: the [block_id] index is unique, an item whose
    identifier is present is not inserted. *)
Definition index_insert (p : item_ptr) (db : fork_database) : fork_database :=
  match heap db !! p with
  | Some it =>
      match find_id db (_index db) (id it) with
      | Some _ => db
      | None => with_index (_index db ++ [p]) db
      end
  | None => db
  end.

Definition num_at (db : fork_database) (p : item_ptr) : Z :=
  match heap db !! p with Some i => num i | None => 0 end.

(** [*begin()] of the [block_num] index: an item of least number, the first
    inserted of those. *)
Definition first_by_num (db : fork_database) (idx : list item_ptr) : option item_ptr :=
  foldr (λ p best, match best with
    | None => Some p
    | Some q => if num_at db p <=? num_at db q then Some p else Some q
    end) None idx.

(** The loops [while( size() && stop( begin() ) ) erase( begin() )] over the
    [block_num] index; each iteration erases an item, so [length idx] of them
    are enough. *)
Fixpoint erase_front (db : fork_database) (old : Z → bool) (fuel : nat) (idx : list item_ptr)
    : list item_ptr :=
  match fuel with
  | O => idx
  | S fuel =>
      match first_by_num db idx with
      | Some p =>
          if old (num_at db p)
          then erase_front db old fuel (filter (λ q, q ≠ p) idx)
          else idx
      | None => idx
      end
  end.

Definition erase_while (db : fork_database) (old : Z → bool) (idx : list item_ptr)
    : list item_ptr := erase_front db old (length idx) idx.

(** [weak_ptr::lock]. *)
Definition lock (held : item_ptr → bool) (db : fork_database) (w : option item_ptr)
    : option item_ptr :=
  match w with
  | Some p =>
      if bool_decide (p ∈ _index db) || bool_decide (p ∈ _unlinked_index db)
         || bool_decide (_head db = Some p) || held p
      then Some p else None
  | None => None
  end.

(** *** Operations *)

Definition reset (db : fork_database) : fork_database := with_index [] (with_head None db).

Definition pop_block (held : item_ptr → bool) : M fork_database () :=
  db ← get_st;
  match head_item db with
  | None => throw assert_exception
  | Some h =>
      match lock held db (prev h) with
      | None => throw assert_exception
      | Some p => put_st (with_head (Some p) db)
      end
  end.

(** [std::make_shared<fork_item>( b )]. *)
Definition allocate (it : fork_item) (db : fork_database) : item_ptr * fork_database :=
  (length (heap db), with_heap (heap db ++ [it]) db).

Definition start_block (b : signed_block T D Sg) (db : fork_database) : fork_database :=
  let '(item, db) := allocate (new_item b) db in
  with_head (Some item) (index_insert item db).

(** The bound of the age check: [std::max<int64_t>( 0, int64_t(_head->num) - _max_size )],
    where the subtraction is done in [uint64_t]. *)
Definition oldest_accepted (head_num max_size : Z) : Z :=
  Z.max 0 (to_sint 64 (to_uint 64 (head_num - max_size))).

(** The end of [_push_block]: the head moves to a strictly higher item, and the
    items that are too old for it are erased. *)
Definition update_head (item : item_ptr) (it : fork_item) (head : option fork_item)
    (db : fork_database) : fork_database :=
  match head with
  | None => with_head (Some item) db
  | Some h =>
      if num h <? num it then
        let db := with_head (Some item) db in
        let min_num := num it - Z.min (_max_size db) (num it) in
        let db := with_index (erase_while db (λ n, n <? min_num) (_index db)) db in
        let gone := to_uint 64 (num it - _max_size db) in
        with_unlinked (filter (λ p, negb (num_at db p =? gone)) (_unlinked_index db)) db
      else db
  end.

(** [_push_block], on the item just allocated at [item]. *)
Definition _push_block (item : item_ptr) (it : fork_item) : M fork_database () :=
  db ← get_st;
  let head := head_item db in
  match head with
  | Some h => assert_st (oldest_accepted (num h) (_max_size db) <? to_sint 64 (num it))
  | None => mret ()
  end ;;
  (match head with
   | Some h =>
       if bool_decide (previous_id it ≠ null_block_id) then
         match find_id db (_index db) (previous_id it) with
         | None => throw unlinkable_block_exception
         | Some q =>
             modify_st (with_heap (<[item := mk_item (Some q) (num it) (id it) (data it)]> (heap db)))
         end
       else mret ()
   | None => mret ()
   end) ;;
  modify_st (index_insert item) ;;
  modify_st (update_head item it head).

(** [push_block] returns the head.  The insertion into [_unlinked_index] of
    [push_block] follows a [throw;] and is never reached. *)
Definition push_block (b : signed_block T D Sg) : M fork_database (option item_ptr) :=
  db ← get_st;
  let '(item, db) := allocate (new_item b) db in
  put_st db ;;
  _push_block item (new_item b) ;;
  db ← get_st;
  mret (_head db).

(** [set_max_size]: the bound is computed in [uint64_t] and compared in [int64_t]. *)
Definition set_max_size (s : Z) (db : fork_database) : fork_database :=
  let db := with_max_size s db in
  match head_item db with
  | None => db
  | Some h =>
      let old n := to_sint 64 n <? oldest_accepted (num h) s in
      let db := with_index (erase_while db old (_index db)) db in
      with_unlinked (erase_while db old (_unlinked_index db)) db
  end.

Definition fetch_block (db : fork_database) (i : block_id_type) : option item_ptr :=
  match find_id db (_index db) i with
  | Some p => Some p
  | None => find_id db (_unlinked_index db) i
  end.

Definition is_known_block (db : fork_database) (i : block_id_type) : bool :=
  match fetch_block db i with Some _ => true | None => false end.

(** The items of the [block_num] index with the number [n], in order. *)
Definition fetch_block_by_number (db : fork_database) (n : Z) : list item_ptr :=
  filter (λ p, num_at db p = n) (_index db).

Definition set_head (h : option item_ptr) (db : fork_database) : fork_database := with_head h db.

Definition remove (i : block_id_type) (db : fork_database) : fork_database :=
  with_index (filter (λ p, ¬ item_is db (λ it, bool_decide (id it = i)) p) (_index db)) db.

(** *** [fetch_branch_from] *)

Definition number_of (db : fork_database) (p : item_ptr) : Z :=
  match heap db !! p with Some i => block_num (data i) | None => 0 end.
Definition previous_of (db : fork_database) (p : item_ptr) : block_id_type :=
  match heap db !! p with Some i => previous (data i) | None => null_block_id end.
Definition prev_of (held : item_ptr → bool) (db : fork_database) (p : item_ptr)
    : option item_ptr :=
  match heap db !! p with Some i => lock held db (prev i) | None => None end.

(** The loop [while( p->data.block_num() > n ) { branch.push_back( p ); p = p->prev.lock(); }]:
    the outer [option] is the fuel. *)
Fixpoint climb (held : item_ptr → bool) (db : fork_database) (fuel : nat) (n : Z)
    (p : item_ptr) (branch : list item_ptr) : option (result (item_ptr * list item_ptr)) :=
  match fuel with
  | O => None
  | S fuel =>
      if n <? number_of db p then
        match prev_of held db p with
        | Some q => climb held db fuel n q (branch ++ [p])
        | None => Some (Throw assert_exception)
        end
      else Some (Ok (p, branch))
  end.

(** The loop [while( first->data.previous != second->data.previous )]. *)
Fixpoint climb_both (held : item_ptr → bool) (db : fork_database) (fuel : nat)
    (p1 p2 : item_ptr) (b1 b2 : list item_ptr)
    : option (result ((item_ptr * item_ptr) * (list item_ptr * list item_ptr))) :=
  match fuel with
  | O => None
  | S fuel =>
      if bool_decide (previous_of db p1 ≠ previous_of db p2) then
        match prev_of held db p1 with
        | None => Some (Throw assert_exception)
        | Some q1 =>
            match prev_of held db p2 with
            | None => Some (Throw assert_exception)
            | Some q2 => climb_both held db fuel q1 q2 (b1 ++ [p1]) (b2 ++ [p2])
            end
        end
      else Some (Ok ((p1, p2), (b1, b2)))
  end.

(** [fetch_branch_from]; the heap has more cells than a branch has items. *)
Definition fetch_branch_from (held : item_ptr → bool) (db : fork_database)
    (first second : block_id_type) : option (result (list item_ptr * list item_ptr)) :=
  let fuel := S (length (heap db)) in
  match find_id db (_index db) first, find_id db (_index db) second with
  | Some f, Some s =>
      r ← climb held db fuel (number_of db s) f [];
      match r with
      | Throw e => Some (Throw e)
      | Ok (f, b1) =>
          r ← climb held db fuel (number_of db f) s [];
          match r with
          | Throw e => Some (Throw e)
          | Ok (s, b2) =>
              r ← climb_both held db fuel f s b1 b2;
              match r with
              | Throw e => Some (Throw e)
              | Ok ((f, s), (b1, b2)) => Some (Ok (b1 ++ [f], b2 ++ [s]))
              end
          end
      end
  | _, _ => Some (Throw assert_exception)
  end.

(** ** Reachable databases *)

(** One call of an operation; [set_head] gets a pointer [push_block] or
    [fetch_branch_from] returned, i.e. an allocated one. *)
Inductive fork_step : fork_database → fork_database → Prop :=
  | step_reset db : fork_step db (reset db)
  | step_pop held db db' : pop_block held db = Ok ((), db') → fork_step db db'
  | step_start b db : fork_step db (start_block b db)
  | step_push b db h db' : push_block b db = Ok (h, db') → fork_step db db'
  | step_max s db : fork_step db (set_max_size s db)
  | step_set_head p db : (p < length (heap db))%nat → fork_step db (set_head (Some p) db)
  | step_remove i db : fork_step db (remove i db).

Definition reachable : fork_database → Prop := rtc fork_step initial_db.

(** Every item knows the height and the identifier of its block, and points to
    an older item, whose identifier is the one its block names. *)
Definition item_ok (h : list fork_item) (p : item_ptr) (it : fork_item) : Prop :=
  num it = block_num (data it) ∧ id it = block_id sha224 (data it) ∧
  ∀ q, prev it = Some q → (q < p)%nat ∧ ∃ jt, h !! q = Some jt ∧ id jt = previous_id it.

Definition id_at (db : fork_database) (p : item_ptr) : option block_id_type :=
  id <$> heap db !! p.

Record fork_wf (db : fork_database) : Prop := {
  wf_items : ∀ p it, heap db !! p = Some it → item_ok (heap db) p it;
  wf_index : Forall (λ p, p < length (heap db))%nat (_index db);
  wf_unlinked : _unlinked_index db = [];
  wf_head : ∀ p, _head db = Some p → (p < length (heap db))%nat;
  wf_unique : NoDup (id_at db <$> _index db)
}.

Lemma find_id_Some db idx i p :
  find_id db idx i = Some p → p ∈ idx ∧ id_at db p = Some i.
Proof.
  unfold find_id, item_is, id_at. intros ([n q] & Hf & ->)%fmap_Some.
  apply list_find_Some in Hf as (Hl & Hp & _). simpl.
  split; [by eapply list_elem_of_lookup_2|].
  destruct (heap db !! q); [|done]. apply Is_true_eq_true, bool_decide_eq_true in Hp.
  by subst.
Qed.

Lemma find_id_None db idx i :
  find_id db idx i = None → ∀ p, p ∈ idx → id_at db p ≠ Some i.
Proof.
  unfold find_id, item_is, id_at. intros Hf%fmap_None p Hp Hid.
  apply list_find_None in Hf. rewrite Forall_forall in Hf. apply (Hf p Hp).
  destruct (heap db !! p); simplify_eq/=. by rewrite bool_decide_eq_true_2.
Qed.

Lemma removed_unknown db i : find_id (remove i db) (_index (remove i db)) i = None.
Proof.
  unfold find_id. destruct (list_find _ _) as [[j p]|] eqn:Hf; [|done].
  apply list_find_Some in Hf as (Hp & Hi & _). apply list_elem_of_lookup_2, list_elem_of_filter in Hp as [Hp _].
  by destruct Hp.
Qed.

Lemma find_id_unique db idx i p :
  NoDup (id_at db <$> idx) → p ∈ idx → id_at db p = Some i → find_id db idx i = Some p.
Proof.
  intros Hnd Hp Hid. destruct (find_id db idx i) as [q|] eqn:Hf.
  - apply find_id_Some in Hf as [Hq Hidq]. f_equal.
    apply list_elem_of_lookup in Hp as [a Ha]. apply list_elem_of_lookup in Hq as [b Hb].
    assert (a = b) as ->; [|by simplify_eq].
    eapply (NoDup_lookup _ _ _ (id_at db p) Hnd); rewrite list_lookup_fmap, ?Ha, ?Hb; cbn; congruence.
  - by destruct (find_id_None _ _ _ Hf p Hp).
Qed.

(** ** The pruning loops keep the items that are not old *)

Lemma first_by_num_None db idx : first_by_num db idx = None → idx = [].
Proof. destruct idx; simpl; [done|]. by repeat case_match. Qed.

Lemma first_by_num_least db idx p :
  first_by_num db idx = Some p → p ∈ idx ∧ ∀ q, q ∈ idx → num_at db p ≤ num_at db q.
Proof.
  revert p. induction idx as [|x idx IH]; intros p; simpl; [done|].
  destruct (first_by_num db idx) as [q|] eqn:Hq.
  - destruct (IH q eq_refl) as [Hin Hle].
    destruct (Z.leb_spec (num_at db x) (num_at db q)); intros [= <-]; (split; [set_solver|]);
      intros r [->|Hr]%elem_of_cons; try lia; specialize (Hle r Hr); lia.
  - apply first_by_num_None in Hq as ->. intros [= <-].
    split; [set_solver|]. intros q ->%list_elem_of_singleton. lia.
Qed.

Lemma erase_front_filter db old fuel idx :
  (∀ m n, m ≤ n → old n = true → old m = true) →
  (length idx <= fuel)%nat → NoDup idx →
  erase_front db old fuel idx = filter (λ p, old (num_at db p) = false) idx.
Proof.
  intros Hanti. revert idx. induction fuel as [|fuel IH]; intros idx Hf Hnd; simpl.
  - by destruct idx; simpl in *; [|lia].
  - destruct (first_by_num db idx) as [p|] eqn:Hp.
    + destruct (first_by_num_least _ _ _ Hp) as [Hin Hle].
      destruct (old (num_at db p)) eqn:Hold.
      * assert (length (filter (λ q, q ≠ p) idx) < length idx)%nat.
        { apply (length_filter_lt _ idx p); [done|tauto]. }
        rewrite IH; [|lia|by apply NoDup_filter].
        rewrite list_filter_filter. apply list_filter_iff. intros q.
        split; [by intros []|]. intros Hq. split; [done|]. intros ->. congruence.
      * symmetry. assert (∀ l : list item_ptr, (∀ q, q ∈ l → num_at db p ≤ num_at db q) →
          filter (λ q, old (num_at db q) = false) l = l) as Hall; [|by apply Hall].
        induction l as [|q l IHl]; intros Hl; [done|].
        rewrite filter_cons_True, IHl; [done|set_solver|].
        destruct (old (num_at db q)) eqn:Hq; [|done].
        rewrite (Hanti (num_at db p) (num_at db q)) in Hold; [done|apply Hl; set_solver|done].
    + by apply first_by_num_None in Hp as ->.
Qed.

Lemma erase_while_filter db old idx :
  (∀ m n, m ≤ n → old n = true → old m = true) → NoDup idx →
  erase_while db old idx = filter (λ p, old (num_at db p) = false) idx.
Proof. intros. by apply erase_front_filter. Qed.

Lemma erase_front_keeps db old fuel idx p :
  p ∈ idx → old (num_at db p) = false → p ∈ erase_front db old fuel idx.
Proof.
  intros Hp Hold. revert idx Hp. induction fuel as [|fuel IH]; intros idx Hp; [done|]. cbn.
  destruct (first_by_num db idx) as [q|]; [|done]. destruct (old (num_at db q)) eqn:Hq; [|done].
  apply IH, list_elem_of_filter. split; [|done]. intros ->. congruence.
Qed.

Lemma set_max_size_keeps s db p :
  p ∈ _index db →
  (∀ hd, head_item db = Some hd → oldest_accepted (num hd) s ≤ to_sint 64 (num_at db p)) →
  p ∈ _index (set_max_size s db).
Proof.
  intros Hp Hold. unfold set_max_size. cbv zeta.
  destruct (head_item (with_max_size s db)) as [hd|] eqn:Hhd; [|done].
  apply erase_front_keeps; [done|]. specialize (Hold hd Hhd).
  change (num_at (with_max_size s db) p) with (num_at db p). cbn. lia.
Qed.

(** ** Every operation preserves well-formedness *)

Lemma wf_index_NoDup db : fork_wf db → NoDup (_index db).
Proof. intros Hwf. eapply NoDup_fmap_1, wf_unique, Hwf. Qed.

Lemma item_ok_extend h h' p it : item_ok h p it → item_ok (h ++ h') p it.
Proof.
  intros (Hn & Hi & Hq). split_and!; [done|done|]. intros q Hp.
  destruct (Hq q Hp) as (Hlt & jt & Hj & Hid). split; [done|].
  exists jt. split; [by apply lookup_app_l_Some|done].
Qed.

Lemma id_at_extend db it p :
  (p < length (heap db))%nat → id_at (with_heap (heap db ++ [it]) db) p = id_at db p.
Proof. intros Hp. unfold id_at. cbn. by rewrite lookup_app_l. Qed.

Lemma wf_extend db it :
  fork_wf db → item_ok (heap db) (length (heap db)) it →
  fork_wf (with_heap (heap db ++ [it]) db).
Proof.
  intros Hwf Hit. destruct Hwf as [Hitems Hidx Hul Hhead Hun]. constructor; cbn.
  - intros p jt [Hp|[Hp Hl]]%lookup_app_Some; apply item_ok_extend; [by apply Hitems|].
    apply list_lookup_singleton_Some in Hl as [? <-]. assert (p = length (heap db)) as -> by lia. done.
  - eapply Forall_impl; [done|]. cbn. intros p Hp. rewrite length_app. lia.
  - done.
  - intros p Hp%Hhead. rewrite length_app. lia.
  - rewrite (Forall_fmap_ext_1 _ (id_at db) (_index db)); [done|].
    eapply Forall_impl; [done|]. cbn. apply id_at_extend.
Qed.

Lemma wf_with_index db idx : fork_wf db → idx `sublist_of` _index db → fork_wf (with_index idx db).
Proof.
  intros [Hitems Hidx Hul Hhead Hun] Hsub. constructor; cbn; try done.
  - rewrite Forall_forall in *. intros p Hp. apply Hidx. by eapply elem_of_sublist.
  - eapply sublist_NoDup; [exact Hun|]. by apply fmap_sublist.
Qed.

Lemma wf_with_head db h :
  fork_wf db → (∀ p, h = Some p → (p < length (heap db))%nat) → fork_wf (with_head h db).
Proof. intros [Hitems Hidx Hul Hhead Hun] Hh. by constructor. Qed.

Lemma wf_index_insert db p :
  fork_wf db → fork_wf (index_insert p db).
Proof.
  intros Hwf. unfold index_insert. destruct (heap db !! p) as [it|] eqn:Hp; [|done].
  destruct (find_id db (_index db) (id it)) eqn:Hf; [done|].
  destruct Hwf as [Hitems Hidx Hul Hhead Hun]. constructor; cbn; try done.
  - apply Forall_app. split; [done|]. constructor; [|done]. by eapply lookup_lt_Some.
  - rewrite fmap_app. apply NoDup_app. split_and!; [done| |apply NoDup_singleton].
    intros x (q & -> & Hq)%list_elem_of_fmap Hx%list_elem_of_singleton.
    apply (find_id_None _ _ _ Hf q Hq). change (id_at db q = id_at db p) in Hx.
    rewrite Hx. unfold id_at. by rewrite Hp.
Qed.

Lemma index_insert_heap p db : heap (index_insert p db) = heap db.
Proof. unfold index_insert. by repeat case_match. Qed.
Lemma index_insert_unlinked p db : _unlinked_index (index_insert p db) = _unlinked_index db.
Proof. unfold index_insert. by repeat case_match. Qed.
Lemma index_insert_head p db : _head (index_insert p db) = _head db.
Proof. unfold index_insert. by repeat case_match. Qed.
Lemma index_insert_max p db : _max_size (index_insert p db) = _max_size db.
Proof. unfold index_insert. by repeat case_match. Qed.

Lemma new_item_ok db b : item_ok (heap db) (length (heap db)) (new_item b).
Proof. split_and!; try done. Qed.

Definition prune (min_num : Z) (db : fork_database) : fork_database :=
  with_index (filter (λ p, (num_at db p <? min_num) = false) (_index db)) db.

(** The outcomes of [push_block] on a well-formed database: the item added to
    the heap, linked to the item of the previous block when there is a head and
    the block has a predecessor; then the head moves to a strictly higher item
    only, and the items too old for the new head are pruned. *)
Definition linked_item (db : fork_database) (b : signed_block T D Sg) (w : option item_ptr)
    : fork_item := mk_item w (block_num b) (block_id sha224 b) b.

Definition pushed (db : fork_database) (b : signed_block T D Sg) (w : option item_ptr)
    : fork_database :=
  let item := length (heap db) in
  let db1 := index_insert item (with_heap (heap db ++ [linked_item db b w]) db) in
  match head_item db with
  | None => with_head (Some item) db1
  | Some h =>
      if num h <? block_num b
      then prune (block_num b - Z.min (_max_size db) (block_num b)) (with_head (Some item) db1)
      else db1
  end.

Definition link_of (db : fork_database) (b : signed_block T D Sg) : result (option item_ptr) :=
  match head_item db with
  | None => Ok None
  | Some h =>
      FC_ASSERT (oldest_accepted (num h) (_max_size db) <? to_sint 64 (block_num b)) ;;
      if bool_decide (previous b ≠ null_block_id) then
        match find_id db (_index db) (previous b) with
        | Some q => Ok (Some q)
        | None => Throw unlinkable_block_exception
        end
      else Ok None
  end.

Lemma link_of_ok db b w :
  fork_wf db → link_of db b = Ok w →
  item_ok (heap db) (length (heap db)) (linked_item db b w).
Proof.
  intros Hwf Hl. split_and!; [done|done|]. cbn. intros q ->.
  unfold link_of in Hl. destruct (head_item db) as [h|]; [|done]. inv_ok.
  destruct (bool_decide _); [|done].
  destruct (find_id db (_index db) (previous b)) as [r|] eqn:Hf; simplify_eq.
  apply find_id_Some in Hf as [Hin Hid].
  pose proof (wf_index _ Hwf) as Hidx. rewrite Forall_forall in Hidx. split; [by apply Hidx|].
  unfold id_at in Hid. apply fmap_Some in Hid as (jt & Hjt & Hid). eauto.
Qed.

Lemma find_id_extend db it i :
  fork_wf db →
  find_id (with_heap (heap db ++ [it]) db) (_index db) i = find_id db (_index db) i.
Proof.
  intros Hwf. pose proof (wf_index _ Hwf) as Hidx. unfold find_id. f_equal.
  induction Hidx as [|p idx Hp Hidx IH]; [done|]. simpl.
  assert (∀ P, item_is (with_heap (heap db ++ [it]) db) P p = item_is db P p) as ->.
  { intros P. unfold item_is. cbn. by rewrite lookup_app_l by done. }
  case_decide; [done|]. by rewrite IH.
Qed.

Lemma heap_insert_last (h : list fork_item) it it' :
  <[length h := it']> (h ++ [it]) = h ++ [it'].
Proof. rewrite insert_app_r_alt, Nat.sub_diag by lia. done. Qed.

Lemma wf_pushed_before db b w :
  fork_wf db → link_of db b = Ok w →
  fork_wf (index_insert (length (heap db)) (with_heap (heap db ++ [linked_item db b w]) db)).
Proof.
  intros Hwf Hl. apply wf_index_insert, wf_extend; [done|]. by apply link_of_ok.
Qed.

Lemma update_head_eq item it head db :
  NoDup (_index db) → _unlinked_index db = [] →
  update_head item it head db =
    match head with
    | None => with_head (Some item) db
    | Some h =>
        if num h <? num it
        then prune (num it - Z.min (_max_size db) (num it)) (with_head (Some item) db)
        else db
    end.
Proof.
  intros Hnd Hul. unfold update_head. destruct head as [h|]; [|done].
  destruct (num h <? num it); [|done]. cbv zeta.
  rewrite erase_while_filter; [|intros; lia|done].
  unfold prune, with_index, with_head, with_unlinked. cbn. by rewrite Hul.
Qed.

Lemma push_block_eq db b :
  fork_wf db →
  push_block b db =
    match link_of db b with
    | Throw e => Throw e
    | Ok w => Ok (_head (pushed db b w), pushed db b w)
    end.
Proof.
  intros Hwf.
  assert (∀ it, head_item (with_heap (heap db ++ [it]) db) = head_item db) as Hhead.
  { intros it. unfold head_item. cbn [_head with_heap heap]. destruct (_head db) as [p|] eqn:Hp; [|done]. simpl.
    apply lookup_app_l. by apply (wf_head _ Hwf). }
  assert (∀ w, link_of db b = Ok w →
    update_head (length (heap db)) (new_item b) (head_item db)
      (index_insert (length (heap db)) (with_heap (heap db ++ [linked_item db b w]) db))
    = pushed db b w) as Hend.
  { intros w Hw. pose proof (wf_pushed_before _ _ _ Hwf Hw) as Hwf'.
    rewrite update_head_eq; [|by apply wf_index_NoDup|by apply wf_unlinked].
    unfold pushed. by rewrite index_insert_max. }
  change (new_item b) with (linked_item db b None) in Hend.
  unfold push_block, _push_block, allocate. run_e. cbn [heap with_heap _head].
  change (new_item b) with (linked_item db b None).
  rewrite Hhead. unfold link_of in *.
  destruct (head_item db) as [h|]; [|by rewrite (Hend None)].
  cbn [_max_size with_heap num new_item _index previous_id data].
  destruct (oldest_accepted _ _ <? _); [|done]. cbn [mbind result_bind FC_ASSERT] in *.
  rewrite find_id_extend by done. unfold previous_id. cbn [data new_item].
  destruct (bool_decide _); [|by rewrite (Hend None)].
  destruct (find_id db _ _) as [q|]; [|done].
  cbn [heap with_heap]. rewrite heap_insert_last.
  specialize (Hend (Some q) eq_refl). rewrite <- Hend. reflexivity.
Qed.

Lemma wf_prune m db : fork_wf db → fork_wf (prune m db).
Proof. intros Hwf. apply wf_with_index; [done|]. apply sublist_filter. Qed.

Lemma wf_pushed db b w : fork_wf db → link_of db b = Ok w → fork_wf (pushed db b w).
Proof.
  intros Hwf Hl. pose proof (wf_pushed_before _ _ _ Hwf Hl) as Hwf'. unfold pushed.
  assert (fork_wf (with_head (Some (length (heap db)))
    (index_insert (length (heap db)) (with_heap (heap db ++ [linked_item db b w]) db)))).
  { apply wf_with_head; [done|]. intros p [= <-]. rewrite index_insert_heap. cbn.
    rewrite length_app. cbn. lia. }
  repeat case_match; [by apply wf_prune|done|done].
Qed.

Lemma lock_Some held db w p : lock held db w = Some p → w = Some p.
Proof. unfold lock. repeat case_match; naive_solver. Qed.

Lemma with_max_size_wf s db : fork_wf db → fork_wf (with_max_size s db).
Proof. intros []. by constructor. Qed.

Lemma erase_front_sublist db old fuel idx : erase_front db old fuel idx `sublist_of` idx.
Proof.
  revert idx. induction fuel as [|fuel IH]; intros idx; [done|]. cbn.
  repeat case_match; try done. etransitivity; [apply IH|]. apply sublist_filter.
Qed.

Lemma wf_with_unlinked u db : u = [] → fork_wf db → fork_wf (with_unlinked u db).
Proof. intros -> []. by constructor. Qed.

Lemma set_max_size_wf s db : fork_wf db → fork_wf (set_max_size s db).
Proof.
  intros Hwf%(with_max_size_wf s). unfold set_max_size. cbv zeta.
  destruct (head_item _) as [h|]; [|done]. apply wf_with_unlinked.
  - pose proof (wf_unlinked _ Hwf) as Hul. cbn in Hul |- *. by rewrite Hul.
  - apply wf_with_index; [done|]. apply erase_front_sublist.
Qed.

Lemma set_max_size_heap s db : heap (set_max_size s db) = heap db.
Proof. unfold set_max_size. cbv zeta. by destruct (head_item _). Qed.

Lemma set_max_size_head s db : _head (set_max_size s db) = _head db.
Proof. unfold set_max_size. cbv zeta. by destruct (head_item _). Qed.

Lemma initial_wf : fork_wf initial_db.
Proof. constructor; try done; constructor. Qed.

Lemma step_wf d d' : fork_step d d' → fork_wf d → fork_wf d'.
Proof.
  intros Hstep Hwf. inversion Hstep as [?|held ?? Hpop|b ?|b ? h ? Hpush|s ?|p ? Hp|i ?];
    subst.
  - unfold reset. apply wf_with_index; [by apply wf_with_head|apply sublist_nil_l].
  - revert Hpop. unfold pop_block. run_e. destruct (head_item d) as [h|] eqn:Hh; [|done].
    destruct (lock held d (prev h)) as [q|] eqn:Hl; [|done]. intros [= <-].
    apply lock_Some in Hl. apply bind_Some in Hh as (p & _ & Hh).
    apply wf_with_head; [done|]. intros ? [= <-].
    destruct (wf_items _ Hwf _ _ Hh) as (_ & _ & Hprev).
    destruct (Hprev q Hl) as (_ & jt & Hj & _). by eapply lookup_lt_Some.
  - unfold start_block, allocate. apply wf_with_head.
    + apply wf_index_insert, wf_extend; [done|apply new_item_ok].
    + intros p [= <-]. rewrite index_insert_heap. cbn. rewrite length_app. cbn. lia.
  - rewrite push_block_eq in Hpush by done. destruct (link_of d b) as [w|] eqn:Hl; [|done].
    injection Hpush as <- <-. by apply wf_pushed.
  - by apply set_max_size_wf.
  - apply wf_with_head; [done|]. by intros ? [= <-].
  - apply wf_with_index; [done|]. apply sublist_filter.
Qed.

(** C13: every fork database reachable by its operations is well formed: each
    item knows the height and the identifier of its block and points to an older
    item that carries the identifier its block names as predecessor, the index
    holds no identifier twice, the head is an item. *)
Theorem fork_database_invariant db : reachable db → fork_wf db.
Proof.
  unfold reachable. intros Hr. eapply (rtc_ind_r (λ d, fork_wf d)); [| |exact Hr].
  - apply initial_wf.
  - intros d d' _. apply step_wf.
Qed.

(** ** Branches *)

(** [path p l q]: climbing from [p] through the items [l] leads to [q]. *)
Inductive path (held : item_ptr → bool) (db : fork_database)
    : item_ptr → list item_ptr → item_ptr → Prop :=
  | path_nil p : path held db p [] p
  | path_cons p q l r :
      prev_of held db p = Some q → path held db q l r → path held db p (p :: l) r.

Lemma prev_of_older held db p q :
  fork_wf db → prev_of held db p = Some q → (q < p)%nat.
Proof.
  intros Hwf. unfold prev_of. destruct (heap db !! p) as [it|] eqn:Hp; [|done].
  intros Hq%lock_Some. by destruct (wf_items _ Hwf _ _ Hp) as (_ & _ & Hprev); destruct (Hprev q Hq).
Qed.

Lemma prev_of_names held db p q :
  fork_wf db → prev_of held db p = Some q → id_at db q = Some (previous_of db p).
Proof.
  intros Hwf. unfold prev_of, previous_of. destruct (heap db !! p) as [it|] eqn:Hp; [|done].
  intros Hq%lock_Some. destruct (wf_items _ Hwf _ _ Hp) as (_ & _ & Hprev).
  destruct (Hprev q Hq) as (_ & jt & Hj & Hid). unfold id_at. rewrite Hj. cbn. by rewrite Hid.
Qed.

(** Each iteration moves to an older address, so the loops end. *)
Lemma climb_total held db fuel n p b :
  fork_wf db → (p < fuel)%nat →
  ∃ r, climb held db fuel n p b = Some r ∧ ∀ q b', r = Ok (q, b') → (q <= p)%nat.
Proof.
  intros Hwf. revert p b. induction fuel as [|fuel IH]; intros p b Hp; [lia|]. cbn.
  destruct (n <? number_of db p); [|eexists; split; [done|]; naive_solver].
  destruct (prev_of held db p) as [q|] eqn:Hq; [|by eexists].
  apply prev_of_older in Hq; [|done].
  destruct (IH q (b ++ [p])) as (r & -> & Hr); [lia|].
  exists r. split; [done|]. intros q' b' Heq. specialize (Hr _ _ Heq). lia.
Qed.

Lemma climb_both_total held db fuel p1 p2 b1 b2 :
  fork_wf db → (p1 < fuel)%nat → ∃ r, climb_both held db fuel p1 p2 b1 b2 = Some r.
Proof.
  intros Hwf. revert p1 p2 b1 b2. induction fuel as [|fuel IH]; intros p1 p2 b1 b2 Hp; [lia|]. cbn.
  destruct (bool_decide _); [|by eexists].
  destruct (prev_of held db p1) as [q1|] eqn:Hq; [|by eexists].
  apply prev_of_older in Hq; [|done].
  destruct (prev_of held db p2) as [q2|]; [|by eexists]. apply IH. lia.
Qed.

Lemma climb_path held db fuel n p b q b' :
  climb held db fuel n p b = Some (Ok (q, b')) →
  ∃ l, b' = b ++ l ∧ path held db p l q ∧ number_of db q ≤ n ∧ Forall (λ x, n < number_of db x) l.
Proof.
  revert p b. induction fuel as [|fuel IH]; intros p b; [done|]. cbn.
  destruct (Z.ltb_spec n (number_of db p)).
  - destruct (prev_of held db p) as [r|] eqn:Hr; [|done].
    intros (l & -> & Hpath & Hle & Hall)%IH. exists (p :: l).
    split_and!; [by rewrite <- app_assoc|by econstructor|done|by constructor].
  - intros [= <- <-]. exists []. split_and!; [by rewrite app_nil_r|constructor|done|constructor].
Qed.

Lemma climb_both_path held db fuel p1 p2 b1 b2 q1 q2 c1 c2 :
  climb_both held db fuel p1 p2 b1 b2 = Some (Ok ((q1, q2), (c1, c2))) →
  ∃ l1 l2, c1 = b1 ++ l1 ∧ c2 = b2 ++ l2 ∧ path held db p1 l1 q1 ∧ path held db p2 l2 q2 ∧
    previous_of db q1 = previous_of db q2 ∧
    Forall2 (λ x y, previous_of db x ≠ previous_of db y) l1 l2.
Proof.
  revert p1 p2 b1 b2. induction fuel as [|fuel IH]; intros p1 p2 b1 b2; [done|]. cbn.
  case_bool_decide as Hne.
  - destruct (prev_of held db p1) as [r1|] eqn:Hr1; [|done].
    destruct (prev_of held db p2) as [r2|] eqn:Hr2; [|done].
    intros (l1 & l2 & -> & -> & Hp1 & Hp2 & Heq & Hall)%IH.
    exists (p1 :: l1), (p2 :: l2).
    split_and!; [by rewrite <- app_assoc|by rewrite <- app_assoc|by econstructor|by econstructor|
      done|by constructor].
  - intros [= <- <- <- <-]. exists [], []. rewrite !app_nil_r.
    split_and!; try done; constructor.
Qed.

Lemma path_app held db p l q l' r :
  path held db p l q → path held db q l' r → path held db p (l ++ l') r.
Proof. induction 1; cbn; [done|]. intros. econstructor; eauto. Qed.

(** What the height arithmetic needs: the hash has words, and the heights of the
    blocks stored fit the 32 bits an identifier has for them. *)
Definition heights_fit (db : fork_database) : Prop :=
  Forall (λ it, uint 32 (num it)) (heap db).

Section Heights.
Context (sha224_words : ∀ h, (0 < length (sha224 h))%nat).
Context (db : fork_database) (Hwf : fork_wf db) (Hfit : heights_fit db).
Context (held : item_ptr → bool).

Lemma prev_of_number p q : prev_of held db p = Some q → number_of db p = number_of db q + 1.
Proof using All.
  intros Hpq. pose proof (prev_of_names _ _ _ _ Hwf Hpq) as Hid.
  unfold prev_of in Hpq. unfold number_of, previous_of, id_at in *.
  destruct (heap db !! p) as [it|]; [|done].
  destruct (heap db !! q) as [jt|] eqn:Hj; [|done]. cbn in Hid. injection Hid as Hid.
  destruct (wf_items _ Hwf _ _ Hj) as (Hnum & Hidj & _).
  apply (block_num_child sha224); [apply sha224_words|congruence|].
  rewrite <- Hnum. by eapply (Forall_lookup_1 _ _ _ _ Hfit).
Qed.

Lemma path_number p l q (i : nat) x :
  path held db p l q → l !! i = Some x → number_of db x = number_of db p - Z.of_nat i.
Proof using All.
  intros Hpath. revert i. induction Hpath as [|p q l r Hpq Hpath IH]; intros i; [done|].
  destruct i as [|i]; cbn; [intros [= <-]; lia|].
  intros Hx%IH. rewrite Hx, (prev_of_number _ _ Hpq). lia.
Qed.

Lemma path_end_number p l q : path held db p l q → number_of db q = number_of db p - Z.of_nat (length l).
Proof using All.
  induction 1 as [|p q l r Hpq Hpath IH]; cbn; [lia|]. rewrite IH, (prev_of_number _ _ Hpq). lia.
Qed.
End Heights.

(** A branch: each block names the next one and is one higher. *)
Definition branch (db : fork_database) (l : list item_ptr) : Prop :=
  ∀ i p q, l !! i = Some p → l !! S i = Some q →
    id_at db q = Some (previous_of db p) ∧ number_of db p = number_of db q + 1.

Lemma path_branch held db p l q :
  (∀ h, (0 < length (sha224 h))%nat) → fork_wf db → heights_fit db →
  path held db p l q → branch db (l ++ [q]).
Proof.
  intros Hsha Hwf Hfit. induction 1 as [p|p q l r Hpq Hpath IH].
  - intros [|i] x y; [done|]. by destruct i.
  - intros [|i] x y; [|apply IH]. cbn. intros [= <-].
    replace ((l ++ [r]) !! 0%nat) with (Some q) by (by inversion Hpath). intros [= <-].
    split; [by eapply prev_of_names|by eapply prev_of_number].
Qed.

Lemma number_of_previous db p q :
  (p < length (heap db))%nat → (q < length (heap db))%nat →
  previous_of db p = previous_of db q → number_of db p = number_of db q.
Proof.
  unfold previous_of, number_of, block_num.
  intros [it ->]%lookup_lt_is_Some [jt ->]%lookup_lt_is_Some. by intros ->.
Qed.

Lemma path_bound held db p l q n :
  fork_wf db → path held db p l q → (p < n)%nat → (q < n)%nat ∧ Forall (λ x, x < n)%nat l.
Proof.
  intros Hwf. induction 1 as [p|p q l r Hpq _ IH]; intros Hp; [by constructor|].
  apply prev_of_older in Hpq; [|done]. destruct IH; [lia|]. split; [done|by constructor].
Qed.

Lemma find_id_bound db i p :
  fork_wf db → find_id db (_index db) i = Some p → (p < length (heap db))%nat.
Proof.
  intros Hwf [Hin _]%find_id_Some. pose proof (wf_index _ Hwf) as Hidx.
  rewrite Forall_forall in Hidx. by apply Hidx.
Qed.

(** The two loops that level the heights, then the loop that climbs both. *)
Lemma fetch_branch_inv held db first second b1 b2 :
  fetch_branch_from held db first second = Some (Ok (b1, b2)) →
  ∃ f s f' s' h1 h2 c1 c2 q1 q2,
    find_id db (_index db) first = Some f ∧ find_id db (_index db) second = Some s ∧
    (path held db f h1 f' ∧ number_of db f' ≤ number_of db s ∧
     Forall (λ x, number_of db s < number_of db x) h1) ∧
    (path held db s h2 s' ∧ number_of db s' ≤ number_of db f' ∧
     Forall (λ x, number_of db f' < number_of db x) h2) ∧
    (path held db f' c1 q1 ∧ path held db s' c2 q2 ∧ previous_of db q1 = previous_of db q2 ∧
     Forall2 (λ x y, previous_of db x ≠ previous_of db y) c1 c2) ∧
    b1 = (h1 ++ c1) ++ [q1] ∧ b2 = (h2 ++ c2) ++ [q2].
Proof.
  unfold fetch_branch_from. destruct (find_id db (_index db) first) as [f|]; [|done].
  destruct (find_id db (_index db) second) as [s|]; [|done].
  intros ([[f' a1]|] & H1 & Hrest)%bind_Some; [|done].
  apply bind_Some in Hrest as ([[s' a2]|] & H2 & Hrest); [|done].
  apply bind_Some in Hrest as ([[[q1 q2] [d1 d2]]|] & H3 & Hrest); [|done].
  apply climb_path in H1 as (h1 & -> & Hp1 & Hle1 & Hall1).
  apply climb_path in H2 as (h2 & -> & Hp2 & Hle2 & Hall2).
  apply climb_both_path in H3 as (c1 & c2 & -> & -> & Hq1 & Hq2 & Heq & Hall).
  injection Hrest as <- <-. exists f, s, f', s', h1, h2, c1, c2, q1, q2. by split_and!.
Qed.

(** The search for the branches of a fork ends on every well-formed
    database, whatever the two blocks are: each loop moves to older items. *)
Theorem fetch_branch_from_terminates held db first second :
  fork_wf db → ∃ r, fetch_branch_from held db first second = Some r.
Proof.
  intros Hwf. unfold fetch_branch_from.
  destruct (find_id db (_index db) first) as [f|] eqn:Hf; [|by eexists].
  destruct (find_id db (_index db) second) as [s|] eqn:Hs; [|by eexists].
  apply find_id_bound in Hf; [|done]. apply find_id_bound in Hs; [|done].
  destruct (climb_total held db (S (length (heap db))) (number_of db s) f [] Hwf)
    as ([[f' a1]|e] & -> & Hr1); [lia| |by eexists]. cbn [mbind option_bind].
  destruct (climb_total held db (S (length (heap db))) (number_of db f') s [] Hwf)
    as ([[s' a2]|e] & -> & Hr2); [lia| |by eexists]. cbn [mbind option_bind].
  specialize (Hr1 _ _ eq_refl).
  destruct (climb_both_total held db (S (length (heap db))) f' s' a1 a2 Hwf)
    as ([[[q1 q2] [d1 d2]]|e] & ->); [lia|by eexists|by eexists].
Qed.

Section Alignment.
Context (sha224_words : ∀ h, (0 < length (sha224 h))%nat).
Context (db : fork_database) (Hwf : fork_wf db) (Hfit : heights_fit db).
Context (held : item_ptr → bool).

Lemma climbed_height p h q n :
  path held db p h q → number_of db q ≤ n → Forall (λ x, n < number_of db x) h → h ≠ [] →
  number_of db q = n.
Proof using All.
  intros Hpath Hle Hall Hne. destruct (exists_last Hne) as (h' & x & ->).
  pose proof (path_end_number sha224_words db Hwf Hfit held _ _ _ Hpath) as Hend.
  rewrite length_app in Hend. cbn in Hend.
  pose proof (path_number sha224_words db Hwf Hfit held _ _ _ (length h') x Hpath) as Hx.
  rewrite list_lookup_middle in Hx by done. specialize (Hx eq_refl).
  rewrite Forall_app, Forall_singleton in Hall. lia.
Qed.

Lemma path_below p l q x : path held db p l q → x ∈ l → number_of db x ≤ number_of db p.
Proof using All.
  intros Hpath [i Hi]%list_elem_of_lookup.
  rewrite (path_number sha224_words db Hwf Hfit held _ _ _ _ _ Hpath Hi). lia.
Qed.

(** Two paths climbed together from the same height. *)
Lemma paths_aligned p1 p2 c1 c2 q1 q2 x y :
  path held db p1 c1 q1 → path held db p2 c2 q2 → number_of db p1 = number_of db p2 →
  Forall2 (λ x y, previous_of db x ≠ previous_of db y) c1 c2 →
  x ∈ c1 → y ∈ c2 → number_of db x = number_of db y → previous_of db x ≠ previous_of db y.
Proof using All.
  intros H1 H2 Heq Hall [i Hi]%list_elem_of_lookup [j Hj]%list_elem_of_lookup Hxy.
  rewrite (path_number sha224_words db Hwf Hfit held _ _ _ _ _ H1 Hi) in Hxy.
  rewrite (path_number sha224_words db Hwf Hfit held _ _ _ _ _ H2 Hj) in Hxy.
  assert (i = j) as -> by lia. by eapply (Forall2_lookup_lr _ _ _ _ _ _ Hall).
Qed.

(** The levelling loops: at most one of them climbs, and they end at one height. *)
Lemma levelled f s h1 h2 f' s' :
  path held db f h1 f' → number_of db f' ≤ number_of db s →
  Forall (λ x, number_of db s < number_of db x) h1 →
  path held db s h2 s' → number_of db s' ≤ number_of db f' →
  Forall (λ x, number_of db f' < number_of db x) h2 →
  number_of db f' = number_of db s' ∧ (h1 = [] ∨ h2 = [] ∧ s' = s).
Proof using All.
  intros Hp1 Hle1 Hall1 Hp2 Hle2 Hall2. destruct h1 as [|x h1].
  - split; [|by left]. destruct h2 as [|y h2]; [inversion Hp2; subst; lia|].
    symmetry. by eapply (climbed_height s (y :: h2)).
  - assert (number_of db f' = number_of db s) as Heq by (by eapply (climbed_height f (x :: h1))).
    destruct h2 as [|y h2]; [inversion Hp2; subst; auto|].
    inversion Hall2; inversion Hp2; subst. lia.
Qed.
End Alignment.

(** C8: the branches returned are the two branches of the fork: the first begins
    with the first block and the second with the second, in each branch every
    block names the next one and is one higher, and the last blocks have the
    same predecessor, while no other pair of blocks of the two branches does:
    the branches meet at the most recent common ancestor. *)
Theorem fetch_branch_from_meets held db first second b1 b2 :
  (∀ h, (0 < length (sha224 h))%nat) → fork_wf db → heights_fit db →
  fetch_branch_from held db first second = Some (Ok (b1, b2)) →
  ∃ l1 l2 q1 q2, b1 = l1 ++ [q1] ∧ b2 = l2 ++ [q2] ∧ branch db b1 ∧ branch db b2 ∧
    (p ← head b1; id_at db p) = Some first ∧ (p ← head b2; id_at db p) = Some second ∧
    previous_of db q1 = previous_of db q2 ∧
    ∀ p1 p2, p1 ∈ l1 → p2 ∈ l2 → previous_of db p1 ≠ previous_of db p2.
Proof.
  intros Hsha Hwf Hfit Hfetch.
  apply fetch_branch_inv in Hfetch as (f & s & f' & s' & h1 & h2 & c1 & c2 & q1 & q2 & Hf & Hs &
    (Hh1 & Hle1 & Hall1) & (Hh2 & Hle2 & Hall2) & (Hc1 & Hc2 & Heq & Hne) & -> & ->).
  pose proof (find_id_bound _ _ _ Hwf Hf) as Hfb. pose proof (find_id_bound _ _ _ Hwf Hs) as Hsb.
  pose proof (path_app _ _ _ _ _ _ _ Hh1 Hc1) as Hp1.
  pose proof (path_app _ _ _ _ _ _ _ Hh2 Hc2) as Hp2.
  apply find_id_Some in Hf as [_ Hf]. apply find_id_Some in Hs as [_ Hs].
  exists (h1 ++ c1), (h2 ++ c2), q1, q2.
  split_and!; try done; [by eapply path_branch|by eapply path_branch|..].
  1,2: by inversion Hp1; inversion Hp2; subst.
  intros p1 p2 Hin1 Hin2 Hprev.
  assert (number_of db p1 = number_of db p2) as Hnum.
  { destruct (path_bound _ _ _ _ _ _ Hwf Hp1 Hfb) as [_ Hb1].
    destruct (path_bound _ _ _ _ _ _ Hwf Hp2 Hsb) as [_ Hb2]. rewrite Forall_forall in Hb1, Hb2.
    by apply number_of_previous; [apply Hb1|apply Hb2|]. }
  destruct (levelled Hsha db Hwf Hfit held f s h1 h2 f' s') as [Hlev Hor]; try done.
  rewrite Forall_forall in Hall1, Hall2.
  apply elem_of_app in Hin1 as [Hin1|Hin1]; apply elem_of_app in Hin2 as [Hin2|Hin2].
  - destruct Hor as [->|[-> _]]; by apply not_elem_of_nil in Hin1 || apply not_elem_of_nil in Hin2.
  - pose proof (path_below Hsha db Hwf Hfit held _ _ _ p2 Hp2) as Hlow.
    specialize (Hlow ltac:(set_solver)). specialize (Hall1 _ Hin1). lia.
  - pose proof (path_below Hsha db Hwf Hfit held _ _ _ p1 Hc1 Hin1) as Hlow.
    specialize (Hall2 _ Hin2). lia.
  - by eapply (paths_aligned Hsha db Hwf Hfit held f' s' c1 c2).
Qed.

Lemma climb_finds held db fuel n p l a b :
  fork_wf db → (p < fuel)%nat → path held db p l a → number_of db a ≤ n →
  ∃ q b' l', climb held db fuel n p b = Some (Ok (q, b')) ∧ path held db q l' a.
Proof.
  intros Hwf Hf Hpath Ha. revert fuel b Hf. induction Hpath as [p|p q l r Hpq Hpath IH];
    intros [|fuel] b Hf; try lia; cbn [climb].
  - destruct (Z.ltb_spec n (number_of db p)); [lia|]. eexists _, _, []. split; [done|constructor].
  - destruct (n <? number_of db p).
    + rewrite Hpq. apply prev_of_older in Hpq; [|done]. apply IH; [done|lia].
    + exists p, b, (p :: l). split; [done|by econstructor].
Qed.

Lemma climb_both_finds held db fuel p1 p2 l1 l2 a1 a2 b1 b2 :
  fork_wf db → (p1 < fuel)%nat → path held db p1 l1 a1 → path held db p2 l2 a2 →
  length l1 = length l2 → previous_of db a1 = previous_of db a2 →
  ∃ r, climb_both held db fuel p1 p2 b1 b2 = Some (Ok r).
Proof.
  intros Hwf Hf Hp1. revert fuel p2 l2 b1 b2 Hf.
  induction Hp1 as [p1|p1 q1 l1 r1 Hpq Hpath IH]; intros [|fuel] p2 l2 b1 b2 Hf Hp2 Hlen Heq;
    try lia; cbn [climb_both].
  - destruct l2; [|done]. inversion Hp2; subst. rewrite bool_decide_eq_false_2 by tauto. by eexists.
  - destruct l2 as [|x l2]; [done|]. inversion Hp2 as [|? q2 ? ? Hpq2 Hp2']; subst.
    case_bool_decide; [|by eexists]. rewrite Hpq, Hpq2. apply prev_of_older in Hpq; [|done].
    eapply IH; [lia|done| |done]. by injection Hlen.
Qed.

(** The branches are found whenever the tree has them: if climbing from the
    two blocks leads to blocks with the same predecessor, the call returns. *)
Theorem fetch_branch_from_complete held db first second f s l1 l2 a1 a2 :
  (∀ h, (0 < length (sha224 h))%nat) → fork_wf db → heights_fit db →
  find_id db (_index db) first = Some f → find_id db (_index db) second = Some s →
  path held db f l1 a1 → path held db s l2 a2 → previous_of db a1 = previous_of db a2 →
  ∃ b1 b2, fetch_branch_from held db first second = Some (Ok (b1, b2)).
Proof.
  intros Hsha Hwf Hfit Hf Hs Hp1 Hp2 Heq. unfold fetch_branch_from. rewrite Hf, Hs.
  apply find_id_bound in Hf, Hs; [|done..].
  destruct (path_bound _ _ _ _ _ _ Hwf Hp1 Hf) as [Ha1 _].
  destruct (path_bound _ _ _ _ _ _ Hwf Hp2 Hs) as [Ha2 _].
  pose proof (number_of_previous _ _ _ Ha1 Ha2 Heq) as Hnum.
  pose proof (path_end_number Hsha db Hwf Hfit held _ _ _ Hp2) as Hend2.
  destruct (climb_finds held db (S (length (heap db))) (number_of db s) f l1 a1 [] Hwf)
    as (f' & b1 & c1 & Hclimb1 & Hc1); [lia|done|lia|]. rewrite Hclimb1. cbn [mbind option_bind].
  pose proof (path_end_number Hsha db Hwf Hfit held _ _ _ Hc1) as Hend1.
  destruct (climb_finds held db (S (length (heap db))) (number_of db f') s l2 a2 [] Hwf)
    as (s' & b2 & c2 & Hclimb2 & Hc2); [lia|done|lia|]. rewrite Hclimb2. cbn [mbind option_bind].
  apply climb_path in Hclimb1 as (h1 & -> & Hh1 & Hle1 & Hall1).
  apply climb_path in Hclimb2 as (h2 & -> & Hh2 & Hle2 & Hall2).
  destruct (levelled Hsha db Hwf Hfit held f s h1 h2 f' s') as [Hlev _]; try done.
  pose proof (path_end_number Hsha db Hwf Hfit held _ _ _ Hc2) as Hend2'.
  destruct (climb_both_finds held db (S (length (heap db))) f' s' c1 c2 a1 a2 ([] ++ h1) ([] ++ h2) Hwf)
    as ([[q1 q2] [d1 d2]] & Hboth); try done; [|lia|].
  - destruct (path_bound _ _ _ _ _ (length (heap db)) Hwf Hh1); [done|lia].
  - rewrite Hboth. by eexists _, _.
Qed.

(** ** The longest-chain rule *)

Lemma index_insert_keeps p q db : q ∈ _index db → q ∈ _index (index_insert p db).
Proof. intros. unfold index_insert. repeat case_match; cbn; set_solver. Qed.

Lemma index_insert_knows p db i :
  id_at db p = Some i → ∃ q, q ∈ _index (index_insert p db) ∧ id_at db q = Some i.
Proof.
  unfold index_insert. intros Hid. unfold id_at in Hid.
  apply fmap_Some in Hid as (it & Hp & ->). rewrite Hp.
  destruct (find_id db (_index db) (id it)) as [q|] eqn:Hf.
  - apply find_id_Some in Hf as [Hq Hid]. by exists q.
  - exists p. split; [cbn; set_solver|]. unfold id_at. by rewrite Hp.
Qed.

Lemma same_id_same_height db p it i n :
  (∀ h, (0 < length (sha224 h))%nat) → fork_wf db → heights_fit db →
  heap db !! p = Some it → id it = i → num_from_id i = n → num it = n.
Proof.
  intros Hsha Hwf Hfit Hp Hid Hn. destruct (wf_items _ Hwf _ _ Hp) as (Hnum & Hidb & _).
  rewrite Hidb in Hid. subst i. rewrite num_from_block_id in Hn by apply Hsha.
  rewrite <- Hn, <- Hnum, to_uint_id; [done|]. by eapply (Forall_lookup_1 _ _ _ _ Hfit).
Qed.

Definition oldest_kept (db : fork_database) (b : signed_block T D Sg) : Z :=
  block_num b - Z.min (_max_size db) (block_num b).

(** The database between the insertion of the item and the change of head. *)
Definition inserted (db : fork_database) (b : signed_block T D Sg) (w : option item_ptr)
    : fork_database :=
  index_insert (length (heap db)) (with_heap (heap db ++ [linked_item db b w]) db).

Lemma inserted_item db b w : heap (inserted db b w) !! length (heap db) = Some (linked_item db b w).
Proof.
  unfold inserted. rewrite index_insert_heap. cbn.
  rewrite lookup_app_r, Nat.sub_diag by lia. done.
Qed.

Lemma inserted_old db b w p it :
  heap db !! p = Some it → heap (inserted db b w) !! p = Some it.
Proof.
  intros Hp. unfold inserted. rewrite index_insert_heap. cbn. by apply lookup_app_l_Some.
Qed.

Lemma inserted_head_item db b w h :
  head_item db = Some h → head_item (inserted db b w) = Some h.
Proof.
  unfold head_item. intros (p & Hp & Hh)%bind_Some. unfold inserted at 2.
  rewrite index_insert_head. cbn. rewrite Hp. by apply inserted_old.
Qed.

Lemma inserted_fit db b w :
  heights_fit db → uint 32 (block_num b) → heights_fit (inserted db b w).
Proof.
  intros Hfit Hb. unfold heights_fit, inserted. rewrite index_insert_heap. cbn.
  apply Forall_app. split; [done|]. by constructor.
Qed.

Lemma inserted_knows db b w :
  (∀ h, (0 < length (sha224 h))%nat) → heights_fit db → uint 32 (block_num b) →
  fork_wf (inserted db b w) →
  ∃ q, q ∈ _index (inserted db b w) ∧ id_at (inserted db b w) q = Some (block_id sha224 b) ∧
    num_at (inserted db b w) q = block_num b.
Proof.
  intros Hsha Hfit Hb Hwf.
  destruct (index_insert_knows (length (heap db)) (with_heap (heap db ++ [linked_item db b w]) db)
    (block_id sha224 b)) as (q & Hq & Hid).
  { unfold id_at. cbn. by rewrite lookup_app_r, Nat.sub_diag by lia. }
  exists q. assert (id_at (inserted db b w) q = Some (block_id sha224 b)) as Hid'.
  { unfold id_at, inserted. by rewrite index_insert_heap. }
  split_and!; [done|done|]. unfold num_at. unfold id_at in Hid'.
  apply fmap_Some in Hid' as (it & Hit & Hid'). rewrite Hit. symmetry in Hid'.
  apply (same_id_same_height (inserted db b w) q it (block_id sha224 b)); try done.
  - by apply inserted_fit.
  - rewrite num_from_block_id by apply Hsha. by apply to_uint_id.
Qed.

(** A block at or below the last height that is kept for the head. *)
Definition too_old (db : fork_database) (b : signed_block T D Sg) : Prop :=
  ∃ hd, head_item db = Some hd ∧ block_num b ≤ Z.max 0 (num hd - _max_size db).

(** A block whose predecessor is not in the database, when there is a head. *)
Definition unlinked (db : fork_database) (b : signed_block T D Sg) : Prop :=
  head_item db ≠ None ∧ previous b ≠ null_block_id ∧ ∀ p, p ∈ _index db → id_at db p ≠ Some (previous b).

Lemma link_of_spec db b :
  fork_wf db → heights_fit db → uint 32 (block_num b) → 0 ≤ _max_size db < 2 ^ 63 →
  match link_of db b with
  | Throw e => e = assert_exception ∧ too_old db b ∨ e = unlinkable_block_exception ∧ ¬ too_old db b ∧ unlinked db b
  | Ok w => ¬ too_old db b ∧ ¬ unlinked db b ∧
      (head_item db ≠ None → previous b ≠ null_block_id →
       ∃ p, w = Some p ∧ p ∈ _index db ∧ id_at db p = Some (previous b))
  end.
Proof.
  intros Hwf Hfit Hb Hmax. unfold link_of, too_old, unlinked. destruct (head_item db) as [h|] eqn:Hh; cycle 1.
  { split_and!; [by intros (? & ? & _)|by intros [? _]|done]. }
  assert (oldest_accepted (num h) (_max_size db) = Z.max 0 (num h - _max_size db)) as ->.
  { assert (uint 32 (num h)) as Hn.
    { unfold head_item in Hh. destruct (_head db) as [p|]; [|done]. cbn in Hh.
      unfold heights_fit in Hfit. rewrite Forall_lookup in Hfit. by apply (Hfit p). }
    unfold oldest_accepted. f_equal.
    replace (to_sint 64 (to_uint 64 (num h - _max_size db))) with (to_sint 64 (num h - _max_size db))
      by (unfold to_sint, to_uint; by rewrite Z.mod_mod by lia).
    apply to_sint_id; [lia|]. unfold uint in Hn. lia. }
  rewrite to_sint_64_id by (unfold uint in Hb; int_lia).
  destruct (Z.ltb_spec (Z.max 0 (num h - _max_size db)) (block_num b)) as [Hlt|Hle]; cbn; cycle 1.
  { left. split; [done|]. by exists h. }
  assert (¬ ∃ hd, Some h = Some hd ∧ block_num b ≤ Z.max 0 (num hd - _max_size db)) as Hyoung.
  { intros (hd & [= <-] & ?). lia. }
  case_bool_decide as Hne; [|split_and!; [done|by intros (_ & ? & _)|done]].
  destruct (find_id db (_index db) (previous b)) as [q|] eqn:Hf.
  - apply find_id_Some in Hf as [Hq Hid]. split_and!; [done| |by exists q]. intros (_ & _ & Hno). by apply (Hno q).
  - right. split_and!; [done..|]. by apply find_id_None.
Qed.

End ForkDatabase.
Arguments fork_item : clear implicits.
Arguments fork_database : clear implicits.

(** ** Witnesses: a fork of two branches *)

Module ForkExample.
Definition demo_hash (h : @signed_block_header Z Z) : list Z :=
  let '(_, _, time, wit, _, _) := h in [0; 256 * time; wit; 0; 0; 0; 0].
Definition demo_block (prev : block_id_type) (time wit : Z) : signed_block () Z Z :=
  mk_block 1 prev time wit 0 0 [].
Definition bid := block_id (T := ()) demo_hash.

Definition b1 := demo_block null_block_id 5 1.
Definition b2 := demo_block (bid b1) 10 2.
Definition b3 := demo_block (bid b2) 15 3.
Definition c2 := demo_block (bid b1) 20 4.
Definition orphan := demo_block (bid c2) 25 5.

Definition demo_push (b : signed_block () Z Z) (db : fork_database () Z Z) :=
  match push_block demo_hash b db with Ok (_, db') => db' | Throw _ => db end.

Definition demo_db : fork_database () Z Z :=
  demo_push c2 (demo_push b3 (demo_push b2 (start_block demo_hash b1 initial_db))).

Definition hold_none : nat → bool := λ _, false.

Lemma demo_push_step b db :
  is_ok (push_block demo_hash b db) = true → fork_step demo_hash db (demo_push b db).
Proof.
  unfold demo_push. destruct (push_block demo_hash b db) as [[h db']|] eqn:Hp; [|done].
  intros _. by eapply step_push.
Qed.

Lemma demo_reachable : reachable demo_hash demo_db.
Proof.
  unfold reachable, demo_db. eapply rtc_l; [apply (step_start demo_hash b1)|].
  eapply rtc_l; [apply (demo_push_step b2); reflexivity|].
  eapply rtc_l; [apply (demo_push_step b3); reflexivity|].
  eapply rtc_l; [apply (demo_push_step c2); reflexivity|]. apply rtc_refl.
Qed.

Lemma demo_wf : fork_wf demo_hash demo_db.
Proof.
  unfold demo_db.
  eapply step_wf; [apply (demo_push_step c2); reflexivity|].
  eapply step_wf; [apply (demo_push_step b3); reflexivity|].
  eapply step_wf; [apply (demo_push_step b2); reflexivity|].
  eapply step_wf; [apply (step_start demo_hash b1)|]. apply initial_wf.
Qed.

Lemma demo_words h : (0 < length (demo_hash h))%nat.
Proof. destruct h as [[[[[? ?] ?] ?] ?] ?]. simpl. lia. Qed.

Lemma demo_fit : heights_fit demo_db.
Proof. unfold heights_fit. apply (bool_decide_unpack _). vm_compute. exact I. Qed.
End ForkExample.
Import ForkExample.

Lemma fork_database_invariant_witness :
  fork_wf demo_hash demo_db ∧ _head demo_db = Some 2%nat ∧ _index demo_db = [0; 1; 2; 3]%nat.
Proof.
  split; [apply (fork_database_invariant demo_hash demo_db demo_reachable)|].
  by vm_compute.
Defined.

Lemma fetch_branch_from_terminates_witness :
  ∃ r, fetch_branch_from hold_none demo_db (bid b3) (bid c2) = Some r.
Proof. apply (fetch_branch_from_terminates demo_hash). apply demo_wf. Defined.

Lemma fetch_branch_from_meets_witness :
  fetch_branch_from hold_none demo_db (bid b3) (bid c2) = Some (Ok ([2; 1], [3])%nat) ∧
  ∃ l1 l2 q1 q2, [2; 1]%nat = l1 ++ [q1] ∧ [3]%nat = l2 ++ [q2] ∧
    branch demo_db [2; 1]%nat ∧ branch demo_db [3]%nat ∧
    (p ← head [2; 1]%nat; id_at demo_db p) = Some (bid b3) ∧
    (p ← head [3]%nat; id_at demo_db p) = Some (bid c2) ∧
    previous_of demo_db q1 = previous_of demo_db q2 ∧
    ∀ p1 p2, p1 ∈ l1 → p2 ∈ l2 → previous_of demo_db p1 ≠ previous_of demo_db p2.
Proof.
  assert (fetch_branch_from hold_none demo_db (bid b3) (bid c2) = Some (Ok ([2; 1], [3])%nat)) as Hf
    by reflexivity.
  split; [exact Hf|].
  exact (fetch_branch_from_meets demo_hash hold_none demo_db (bid b3) (bid c2) _ _
    demo_words demo_wf demo_fit Hf).
Defined.

Lemma fetch_branch_from_complete_witness :
  ∃ l1 l2, fetch_branch_from hold_none demo_db (bid b3) (bid c2) = Some (Ok (l1, l2)).
Proof.
  apply (fetch_branch_from_complete demo_hash hold_none demo_db (bid b3) (bid c2)
    2%nat 3%nat [2]%nat []%nat 1%nat 3%nat demo_words demo_wf demo_fit).
  - reflexivity.
  - reflexivity.
  - apply (path_cons hold_none demo_db 2 1 [] 1); [by vm_compute|apply path_nil].
  - apply path_nil.
  - reflexivity.
Defined.

