(* ===== verification/Uint128.v ===== *)
(** * 128-bit unsigned integers: libraries/fc/include/fc/uint128.hpp and libraries/fc/src/uint128.cpp

    A pair of 64-bit halves and its arithmetic, as the code computes it: carries
    and borrows between the halves, multiplication by 32-bit limbs, division by
    shifting and subtracting, decimal text.  The lemmas relate each operation to
    the arithmetic of the integers modulo 2^128. *)

From S2P Require Import Prelude.
From Stdlib Require Import Ascii.

Local Open Scope Z_scope.

Record uint128 := mk128 { hi : Z; lo : Z }.

#[export] Instance uint128_eq_dec : EqDecision uint128.
Proof. solve_decision. Defined.

Definition of_uint64 (l : Z) : uint128 := mk128 0 l.
(** The constructors from [int32_t] and [int64_t]: [hi( -(l<0) ), lo( l )]. *)
Definition of_int64 (l : Z) : uint128 :=
  mk128 (to_uint 64 (if l <? 0 then -1 else 0)) (to_uint 64 l).

Definition eq128 (a b : uint128) : bool := (hi a =? hi b) && (lo a =? lo b).
Definition lt128 (a b : uint128) : bool :=
  if hi a =? hi b then lo a <? lo b else hi a <? hi b.
Definition ge128 (l r : uint128) : bool := eq128 l r || lt128 r l.

Definition not64 (x : Z) : Z := to_uint 64 (Z.lnot x).

(** [operator++]: the carry of the low half goes to the high half. *)
Definition incr128 (a : uint128) : uint128 :=
  let lo' := to_uint 64 (lo a + 1) in
  mk128 (to_uint 64 (hi a + (if lo' =? 0 then 1 else 0))) lo'.
(** [operator--]. *)
Definition decr128 (a : uint128) : uint128 :=
  mk128 (to_uint 64 (hi a - (if lo a =? 0 then 1 else 0))) (to_uint 64 (lo a - 1)).
(** [operator-()] and [operator~()]. *)
Definition neg128 (a : uint128) : uint128 := incr128 (mk128 (not64 (hi a)) (not64 (lo a))).
Definition not128 (a : uint128) : uint128 := mk128 (not64 (hi a)) (not64 (lo a)).

(** [operator+=], [operator-=]. *)
Definition add128 (a u : uint128) : uint128 :=
  let lo' := to_uint 64 (lo a + lo u) in
  mk128 (to_uint 64 (hi a + (hi u + (if lo' <? lo a then 1 else 0)))) lo'.
Definition sub128 (a u : uint128) : uint128 := add128 a (neg128 u).

(** [operator|=], [operator&=], [operator^=]. *)
Definition or128 (a u : uint128) : uint128 := mk128 (Z.lor (hi a) (hi u)) (Z.lor (lo a) (lo u)).
Definition and128 (a u : uint128) : uint128 := mk128 (Z.land (hi a) (hi u)) (Z.land (lo a) (lo u)).
Definition xor128 (a u : uint128) : uint128 := mk128 (Z.lxor (hi a) (hi u)) (Z.lxor (lo a) (lo u)).
(** The binary [operator|], which assigns its right argument: [uint128(l)=(r)]. *)
Definition bin_or128 (l r : uint128) : uint128 := r.

(** [to_integer]. *)
Definition to_integer (a : uint128) : result Z :=
  FC_ASSERT (hi a =? 0) ;;
  let lo32 := to_uint 32 (lo a) in
  FC_ASSERT (lo a =? lo32) ;;
  mret lo32.

(** [operator<<=], for a right-hand side below 128 (its [to_integer] is [n]). *)
Definition shl_small (a : uint128) (n : Z) : uint128 :=
  let '(a, n) := if 64 <=? n then (mk128 (lo a) 0, n - 64) else (a, n) in
  if n =? 0 then a else
  let mask := not64 (Z.shiftr (to_uint 64 (-1)) n) in
  mk128 (Z.lor (to_uint 64 (Z.shiftl (hi a) n)) (Z.shiftr (Z.land (lo a) mask) (64 - n)))
        (to_uint 64 (Z.shiftl (lo a) n)).
Definition shl128 (a rhs : uint128) : uint128 :=
  if ge128 rhs (of_uint64 128) then mk128 0 0 else shl_small a (lo rhs).

(** [operator>>=]. *)
Definition shr_small (a : uint128) (n : Z) : uint128 :=
  let '(a, n) := if 64 <=? n then (mk128 0 (hi a), n - 64) else (a, n) in
  if n =? 0 then a else
  let mask := not64 (to_uint 64 (Z.shiftl (to_uint 64 (-1)) n)) in
  mk128 (Z.shiftr (hi a) n)
        (Z.lor (Z.shiftr (lo a) n) (to_uint 64 (Z.shiftl (Z.land (hi a) mask) (64 - n)))).
Definition shr128 (a rhs : uint128) : uint128 :=
  if ge128 rhs (of_uint64 128) then mk128 0 0 else shr_small a (lo rhs).

Definition mul64 (x y : Z) : Z := to_uint 64 (x * y).

(** [operator*=]: schoolbook multiplication of four 32-bit limbs. *)
Definition mul128 (a b : uint128) : uint128 :=
  let a0 := to_uint 32 (lo a) in let a1 := to_uint 32 (Z.shiftr (lo a) 32) in
  let a2 := to_uint 32 (hi a) in let a3 := to_uint 32 (Z.shiftr (hi a) 32) in
  let b0 := to_uint 32 (lo b) in let b1 := to_uint 32 (Z.shiftr (lo b) 32) in
  let b2 := to_uint 32 (hi b) in let b3 := to_uint 32 (Z.shiftr (hi b) 32) in
  let t := mk128 0 (mul64 a3 b0) in
  let t := add128 t (of_uint64 (mul64 a2 b1)) in
  let t := add128 t (of_uint64 (mul64 a1 b2)) in
  let t := add128 t (of_uint64 (mul64 a0 b3)) in
  let t := shl128 t (of_uint64 32) in
  let t := add128 t (of_uint64 (mul64 a2 b0)) in
  let t := add128 t (of_uint64 (mul64 a1 b1)) in
  let t := add128 t (of_uint64 (mul64 a0 b2)) in
  let t := shl128 t (of_uint64 32) in
  let t := add128 t (of_uint64 (mul64 a1 b0)) in
  let t := add128 t (of_uint64 (mul64 a0 b1)) in
  let t := shl128 t (of_uint64 32) in
  add128 t (of_uint64 (mul64 a0 b0)).

(** [full_product]: the high and the low 128 bits of the product, from the
    products [s], [r], [q], [p] of the halves. *)
Definition combine_products (s r q p : uint128) : uint128 * uint128 :=
  let acc := of_uint64 (hi s) in
  let acc := add128 acc (of_uint64 (lo q)) in
  let acc := add128 acc (of_uint64 (lo r)) in
  let y1 := lo acc in
  let acc := of_uint64 (hi acc) in
  let acc := add128 acc (of_uint64 (hi q)) in
  let acc := add128 acc (of_uint64 (hi r)) in
  let acc := add128 acc (of_uint64 (lo p)) in
  (mk128 (to_uint 64 (hi acc + hi p)) (lo acc), mk128 y1 (lo s)).

Definition full_product (a b : uint128) : uint128 * uint128 :=
  combine_products
    (mul128 (of_uint64 (lo a)) (of_uint64 (lo b)))
    (mul128 (of_uint64 (hi a)) (of_uint64 (lo b)))
    (mul128 (of_uint64 (lo a)) (of_uint64 (hi b)))
    (mul128 (of_uint64 (hi a)) (of_uint64 (hi b))).

(** The two loops of [divide]; a register has 128 bits, so 128 iterations of the
    first and 129 of the second are enough. *)
Definition one128 : uint128 := of_uint64 1.
Definition top_bit (d : uint128) : bool :=
  negb (eq128 (and128 (shr128 d (of_uint64 127)) one128) (mk128 0 0)).

Fixpoint divide_up (fuel : nat) (n d x : uint128) : option (uint128 * uint128) :=
  if ge128 n d && negb (top_bit d) then
    match fuel with
    | O => None
    | S fuel => divide_up fuel n (shl128 d one128) (shl128 x one128)
    end
  else Some (d, x).

Fixpoint divide_down (fuel : nat) (n d x answer : uint128) : option (uint128 * uint128) :=
  if eq128 x (mk128 0 0) then Some (answer, n)
  else
    match fuel with
    | O => None
    | S fuel =>
        let '(n, answer) := if ge128 n d then (sub128 n d, or128 answer x) else (n, answer) in
        divide_down fuel n (shr128 d one128) (shr128 x one128) answer
    end.

(** [divide]: the quotient and the remainder. *)
Definition divide (n d : uint128) : option (result (uint128 * uint128)) :=
  if eq128 d (mk128 0 0) then Some (Throw divide_by_zero_exception) else
  '(d', x) ← divide_up 128 n d one128;
  '(q, r) ← divide_down 128 n d' x (mk128 0 0);
  mret (Ok (q, r)).

(** [operator%=]. *)
Definition mod128 (a b : uint128) : option (result uint128) :=
  match divide a b with
  | Some (Ok (_, r)) => Some (Ok r)
  | Some (Throw e) => Some (Throw e)
  | None => None
  end.

(** [operator std::string]: the digits are written from the end of a buffer with
    127 cells before its terminator; [i] is the number of cells left. *)
Definition digit_char (n : Z) : ascii := ascii_of_nat (48 + Z.to_nat n).

Fixpoint print_loop (i : nat) (ii : uint128) (acc : string) : option (result string) :=
  match i with
  | O => Some (Ok acc)
  | S i =>
      if eq128 ii (mk128 0 0) then Some (Ok acc) else
      r ← divide ii (of_uint64 10);
      match r with
      | Throw e => Some (Throw e)
      | Ok (ii, remainder) =>
          match to_integer remainder with
          | Throw e => Some (Throw e)
          | Ok n => print_loop i ii (String (digit_char n) acc)
          end
      end
  end.

Definition to_string (a : uint128) : option (result string) :=
  if eq128 a (mk128 0 0) then Some (Ok "0") else print_loop 127 a "".

(** The digit of a character below the radix, as the constructor from a string
    reads it. *)
Definition digit_of (radix : Z) (ch : ascii) : option Z :=
  let c := Z.of_nat (nat_of_ascii ch) in
  if (65 <=? c) && (c <=? 90) then
    if c - 65 + 10 <? radix then Some (c - 65 + 10) else None
  else if (97 <=? c) && (c <=? 122) then
    if c - 97 + 10 <? radix then Some (c - 97 + 10) else None
  else if (48 <=? c) && (c <=? 57) then
    if c - 48 <? radix then Some (c - 48) else None
  else None.

Fixpoint parse_digits (radix : Z) (s : string) (acc : uint128) : uint128 :=
  match s with
  | EmptyString => acc
  | String ch s =>
      match digit_of radix ch with
      | None => acc
      | Some n => parse_digits radix s (add128 (mul128 acc (of_uint64 radix)) (of_uint64 n))
      end
  end.

(** The radix prefix: ["0x"] is hexadecimal, ["0"] octal. *)
Definition parse_radix (s : string) : uint128 :=
  match s with
  | String "0" (String "x" s) => parse_digits 16 s (mk128 0 0)
  | String "0" s => parse_digits 8 s (mk128 0 0)
  | s => parse_digits 10 s (mk128 0 0)
  end.

(** [uint128( const std::string& )]. *)
Definition of_string (s : string) : uint128 :=
  match s with
  | String "-" s => neg128 (parse_radix s)
  | s => parse_radix s
  end.

(** [_popcount_64] and [popcount]: [m] holds masks of alternating groups of bits. *)
Definition popcount_masks : list (Z * Z) :=
  [(6148914691236517205, 1); (3689348814741910323, 2); (1085102592571150095, 4);
   (71777214294589695, 8); (281470681808895, 16); (4294967295, 32)].
Definition popcount_64 (x : Z) : Z :=
  to_uint 8 (foldl (λ x '(m, w), to_uint 64 (Z.land x m + Z.land (Z.shiftr x w) m)) x popcount_masks).
Definition popcount (a : uint128) : Z := to_uint 8 (popcount_64 (lo a) + popcount_64 (hi a)).

(** ** The integer a value stands for *)

Definition val (a : uint128) : Z := hi a * 2 ^ 64 + lo a.
Definition wf128 (a : uint128) : Prop := uint 64 (hi a) ∧ uint 64 (lo a).

Lemma val_range a : wf128 a → uint 128 (val a).
Proof. unfold wf128, uint, val. change (2 ^ 128) with (2 ^ 64 * 2 ^ 64). nia. Qed.

Lemma val_inj a b : wf128 a → wf128 b → val a = val b → a = b.
Proof. destruct a, b. unfold wf128, uint, val. simpl. intros. f_equal; lia. Qed.

(** A half reduced modulo 2^64 over a low half: the pair reduced modulo 2^128. *)
Lemma join_mod h l : uint 64 l → to_uint 64 h * 2 ^ 64 + l = (h * 2 ^ 64 + l) mod 2 ^ 128.
Proof.
  unfold uint, to_uint. intros Hl. apply (Z.mod_unique_pos _ _ (h / 2 ^ 64)).
  - pose proof (Z.mod_pos_bound h (2 ^ 64)). change (2 ^ 128) with (2 ^ 64 * 2 ^ 64). nia.
  - pose proof (Z.div_mod h (2 ^ 64)). change (2 ^ 128) with (2 ^ 64 * 2 ^ 64). lia.
Qed.

Lemma wf_of_uint64 l : uint 64 l → wf128 (of_uint64 l).
Proof. by unfold wf128, uint. Qed.
Lemma val_of_uint64 l : val (of_uint64 l) = l.
Proof. done. Qed.

Lemma wf_to_uint h l : wf128 (mk128 (to_uint 64 h) (to_uint 64 l)).
Proof. split; apply to_uint_range; lia. Qed.

Lemma eq128_spec a b : wf128 a → wf128 b → eq128 a b = (val a =? val b).
Proof.
  unfold wf128, uint, val, eq128. intros.
  destruct (Z.eqb_spec (hi a) (hi b)), (Z.eqb_spec (lo a) (lo b)); simpl; lia.
Qed.

Lemma lt128_spec a b : wf128 a → wf128 b → lt128 a b = (val a <? val b).
Proof.
  unfold wf128, uint, val, lt128. intros. destruct (Z.eqb_spec (hi a) (hi b)); lia.
Qed.

Lemma ge128_spec a b : wf128 a → wf128 b → ge128 a b = (val b <=? val a).
Proof. intros. unfold ge128. rewrite eq128_spec, lt128_spec by done. lia. Qed.

(** One carry out of the low half. *)
Lemma to_uint_carry x : 0 ≤ x < 2 * 2 ^ 64 → to_uint 64 x = if x <? 2 ^ 64 then x else x - 2 ^ 64.
Proof.
  intros Hx. unfold to_uint. destruct (Z.ltb_spec x (2 ^ 64)); [rewrite Z.mod_small; lia|].
  rewrite <- (Z.mod_small (x - 2 ^ 64) (2 ^ 64)) by lia.
  rewrite <- (Z_mod_plus_full (x - 2 ^ 64) 1). f_equal. lia.
Qed.

Lemma add128_spec a u :
  wf128 a → wf128 u → wf128 (add128 a u) ∧ val (add128 a u) = (val a + val u) mod 2 ^ 128.
Proof.
  intros [Ha La] [Hu Lu]. split; [apply wf_to_uint|]. unfold add128, val at 1. cbn [hi lo].
  rewrite join_mod by (apply to_uint_range; lia). f_equal. unfold val, uint in *.
  rewrite to_uint_carry by lia. repeat case_match; lia.
Qed.

Lemma incr128_spec a : wf128 a → wf128 (incr128 a) ∧ val (incr128 a) = (val a + 1) mod 2 ^ 128.
Proof.
  intros [Ha La]. split; [apply wf_to_uint|]. unfold incr128, val at 1. cbn [hi lo].
  rewrite join_mod by (apply to_uint_range; lia). f_equal. unfold val, uint in *.
  rewrite to_uint_carry by lia. repeat case_match; lia.
Qed.

Lemma not64_spec x : uint 64 x → not64 x = 2 ^ 64 - 1 - x.
Proof.
  unfold uint, not64, to_uint, Z.lnot. intros Hx.
  rewrite <- (Z.mod_small (2 ^ 64 - 1 - x) (2 ^ 64)) by lia.
  rewrite <- (Z_mod_plus_full (Z.pred (- x)) 1). f_equal. lia.
Qed.

Lemma neg128_spec a : wf128 a → wf128 (neg128 a) ∧ val (neg128 a) = (- val a) mod 2 ^ 128.
Proof.
  intros [Ha La]. unfold neg128.
  destruct (incr128_spec (mk128 (not64 (hi a)) (not64 (lo a)))) as [Hwf Hval].
  { rewrite !not64_spec by done. unfold wf128, uint in *. simpl. lia. }
  split; [done|]. rewrite Hval. unfold val. cbn [hi lo]. rewrite !not64_spec by done.
  rewrite <- (Z_mod_plus_full (- _) 1). f_equal. lia.
Qed.

Lemma sub128_spec a u :
  wf128 a → wf128 u → wf128 (sub128 a u) ∧ val (sub128 a u) = (val a - val u) mod 2 ^ 128.
Proof.
  intros Ha Hu. destruct (neg128_spec u Hu) as [Hn Hnv].
  destruct (add128_spec a _ Ha Hn) as [Hs Hsv]. split; [done|].
  unfold sub128. by rewrite Hsv, Hnv, Zplus_mod_idemp_r.
Qed.

Lemma val_lor a : wf128 a → val a = Z.lor (Z.shiftl (hi a) 64) (lo a).
Proof. intros [_ Hl]. by rewrite Z.shiftl_mul_pow2, lor_add_low by done. Qed.

Lemma uint_ones w x : 0 ≤ w → uint w x ↔ Z.land x (Z.ones w) = x.
Proof.
  intros Hw. rewrite Z.land_ones by done. split; [apply Z.mod_small|].
  intros <-. apply Z.mod_pos_bound. by apply Z.pow_pos_nonneg.
Qed.

Lemma uint_lor w x y : 0 ≤ w → uint w x → uint w y → uint w (Z.lor x y).
Proof. intros Hw. rewrite !uint_ones, Z.land_lor_distr_l by done. congruence. Qed.

Lemma or128_spec a b :
  wf128 a → wf128 b → wf128 (or128 a b) ∧ val (or128 a b) = Z.lor (val a) (val b).
Proof.
  intros Ha Hb. assert (wf128 (or128 a b)) as Hwf.
  { destruct Ha, Hb. split; apply uint_lor; done || lia. }
  split; [done|]. rewrite !val_lor by done. unfold or128. cbn [hi lo].
  rewrite Z.shiftl_lor. rewrite !Z.lor_assoc. f_equal.
  rewrite <- !Z.lor_assoc. f_equal. apply Z.lor_comm.
Qed.

(** *** Shifts *)

Lemma ones64_mask k : 0 ≤ k ≤ 64 → not64 (Z.ones k) = 2 ^ 64 - 2 ^ k.
Proof.
  intros Hk. pose proof (Z.pow_le_mono_r 2 k 64). pose proof (Z.pow_pos_nonneg 2 k).
  rewrite Z.ones_equiv, not64_spec by (unfold uint; lia). lia.
Qed.

Lemma shl_small_low a n :
  wf128 a → 0 < n < 64 → wf128 (shl_small a n) ∧ val (shl_small a n) = (val a * 2 ^ n) mod 2 ^ 128.
Proof.
  intros [Ha La] Hn. unfold shl_small.
  destruct (Z.leb_spec 64 n); [lia|]. destruct (Z.eqb_spec n 0); [lia|]. cbv zeta.
  set (k := 64 - n). assert (2 ^ 64 = 2 ^ k * 2 ^ n) as Hpow.
  { unfold k. rewrite <- Z.pow_add_r by lia. f_equal. lia. }
  assert (0 < 2 ^ k) as Hk by (apply Z.pow_pos_nonneg; lia).
  assert (0 < 2 ^ n) as Hn' by (apply Z.pow_pos_nonneg; lia).
  assert (Z.shiftr (to_uint 64 (-1)) n = Z.ones k) as ->.
  { change (to_uint 64 (-1)) with (Z.ones 64). rewrite Z.shiftr_div_pow2 by lia.
    apply Z.ones_div_pow2. lia. }
  rewrite ones64_mask by lia.
  assert (Z.shiftr (Z.land (lo a) (2 ^ 64 - 2 ^ k)) k = lo a / 2 ^ k) as ->.
  { rewrite Z.shiftr_land. replace (2 ^ 64 - 2 ^ k) with (Z.ones n * 2 ^ k)
      by (rewrite Z.ones_equiv, Hpow; lia).
    rewrite !Z.shiftr_div_pow2, Z.div_mul, Z.land_ones by lia. apply Z.mod_small.
    unfold uint in La. split; [apply Z.div_pos; lia|]. apply Z.div_lt_upper_bound; lia. }
  assert (∀ x, to_uint 64 (Z.shiftl x n) = (x mod 2 ^ k) * 2 ^ n) as Hshl.
  { intros x. unfold to_uint. rewrite Hpow, Z.shiftl_mul_pow2 by lia.
    apply Z.mul_mod_distr_r; lia. }
  rewrite !Hshl.
  assert (0 ≤ lo a / 2 ^ k < 2 ^ n) as Hq.
  { unfold uint in La. split; [apply Z.div_pos; lia|]. apply Z.div_lt_upper_bound; lia. }
  rewrite lor_add_low by lia.
  pose proof (Z.mod_pos_bound (hi a) (2 ^ k) Hk) as Hhm.
  pose proof (Z.mod_pos_bound (lo a) (2 ^ k) Hk) as Hlm.
  pose proof (Z.div_mod (hi a) (2 ^ k) ltac:(lia)) as Hhd.
  pose proof (Z.div_mod (lo a) (2 ^ k) ltac:(lia)) as Hld.
  generalize dependent (2 ^ k). generalize dependent (2 ^ n). intros N _ K. intros.
  assert (uint 64 ((hi a mod K) * N + lo a / K)) as Hhi by (unfold uint; nia).
  assert (uint 64 ((lo a mod K) * N)) as Hlo by (unfold uint; nia).
  split; [by split|]. unfold val. cbn [hi lo].
  apply (Z.mod_unique_pos _ _ (hi a / K)).
  - unfold uint in *. change (2 ^ 128) with (2 ^ 64 * 2 ^ 64). nia.
  - change (2 ^ 128) with (2 ^ 64 * 2 ^ 64). rewrite Hhd, Hld at 1. rewrite Hpow. ring.
Qed.

Lemma shl_small_0 a : shl_small a 0 = a.
Proof. done. Qed.
Lemma shr_small_0 a : shr_small a 0 = a.
Proof. done. Qed.

Lemma shl_small_spec a n :
  wf128 a → 0 ≤ n < 128 → wf128 (shl_small a n) ∧ val (shl_small a n) = (val a * 2 ^ n) mod 2 ^ 128.
Proof.
  intros Ha Hn. destruct (decide (0 < n < 64)) as [?|Hout]; [by apply shl_small_low|].
  destruct (decide (n = 0)) as [->|Hn0].
  { rewrite shl_small_0. split; [done|]. rewrite Z.mul_1_r, Z.mod_small; [done|by apply val_range]. }
  assert (wf128 (mk128 (lo a) 0) ∧ val (mk128 (lo a) 0) = (val a * 2 ^ 64) mod 2 ^ 128) as [Hw Hv].
  { destruct Ha as [Ha La]. split; [split; [done|unfold uint; simpl; lia]|].
    unfold val, uint in *. cbn [hi lo]. apply (Z.mod_unique_pos _ _ (hi a)); lia. }
  assert (shl_small a n = shl_small (mk128 (lo a) 0) (n - 64)) as ->.
  { unfold shl_small at 1. destruct (Z.leb_spec 64 n); [|lia]. unfold shl_small.
    destruct (Z.leb_spec 64 (n - 64)); [lia|done]. }
  assert (2 ^ n = 2 ^ 64 * 2 ^ (n - 64)) as ->.
  { rewrite <- Z.pow_add_r by lia. f_equal. lia. }
  destruct (decide (n = 64)) as [->|].
  - change (64 - 64) with 0. rewrite shl_small_0. split; [done|]. rewrite Hv. by rewrite Z.mul_1_r.
  - destruct (shl_small_low (mk128 (lo a) 0) (n - 64) Hw) as [Hw' Hv']; [lia|].
    split; [done|]. rewrite Hv', Hv, Z.mul_mod_idemp_l, Z.mul_assoc by done. done.
Qed.

Lemma shr_small_low a n :
  wf128 a → 0 < n < 64 → wf128 (shr_small a n) ∧ val (shr_small a n) = val a / 2 ^ n.
Proof.
  intros [Ha La] Hn. unfold shr_small.
  destruct (Z.leb_spec 64 n); [lia|]. destruct (Z.eqb_spec n 0); [lia|]. cbv zeta.
  set (k := 64 - n). assert (2 ^ 64 = 2 ^ n * 2 ^ k) as Hpow.
  { unfold k. rewrite <- Z.pow_add_r by lia. f_equal. lia. }
  assert (0 < 2 ^ k) as Hk by (apply Z.pow_pos_nonneg; lia).
  assert (0 < 2 ^ n) as Hn' by (apply Z.pow_pos_nonneg; lia).
  assert (not64 (to_uint 64 (Z.shiftl (to_uint 64 (-1)) n)) = Z.ones n) as ->.
  { assert (to_uint 64 (Z.shiftl (to_uint 64 (-1)) n) = 2 ^ 64 - 2 ^ n) as ->.
    { unfold to_uint at 1. change (to_uint 64 (-1)) with (2 ^ 64 - 1).
      rewrite Z.shiftl_mul_pow2 by lia. symmetry. apply (Z.mod_unique_pos _ _ (2 ^ n - 1)); nia. }
    rewrite not64_spec by (unfold uint; nia). rewrite Z.ones_equiv. lia. }
  rewrite Z.land_ones, !Z.shiftr_div_pow2, Z.shiftl_mul_pow2 by lia.
  pose proof (Z.mod_pos_bound (hi a) (2 ^ n) Hn') as Hhm.
  pose proof (Z.div_mod (hi a) (2 ^ n) ltac:(lia)) as Hhd.
  pose proof (Z.div_mod (lo a) (2 ^ n) ltac:(lia)) as Hld.
  pose proof (Z.mod_pos_bound (lo a) (2 ^ n) Hn') as Hlm.
  assert (0 ≤ lo a / 2 ^ n < 2 ^ k) as Hq.
  { unfold uint in La. split; [apply Z.div_pos; lia|]. apply Z.div_lt_upper_bound; lia. }
  assert (0 ≤ hi a / 2 ^ n < 2 ^ k) as Hqh.
  { unfold uint in Ha. split; [apply Z.div_pos; lia|]. apply Z.div_lt_upper_bound; lia. }
  rewrite to_uint_id by (unfold uint; nia).
  rewrite Z.lor_comm, lor_add_low by lia.
  remember (2 ^ k) as K eqn:HK. remember (2 ^ n) as N eqn:HN. clear HK HN.
  split; [split; unfold uint; cbn [hi lo]; nia|]. unfold val. cbn [hi lo].
  apply (Z.div_unique_pos _ _ _ (lo a mod N)); [lia|]. rewrite Hhd, Hld at 1. rewrite Hpow. ring.
Qed.

Lemma shr_small_spec a n :
  wf128 a → 0 ≤ n < 128 → wf128 (shr_small a n) ∧ val (shr_small a n) = val a / 2 ^ n.
Proof.
  intros Ha Hn. destruct (decide (0 < n < 64)) as [?|Hout]; [by apply shr_small_low|].
  destruct (decide (n = 0)) as [->|Hn0].
  { rewrite shr_small_0. split; [done|]. by rewrite Z.div_1_r. }
  assert (wf128 (mk128 0 (hi a)) ∧ val (mk128 0 (hi a)) = val a / 2 ^ 64) as [Hw Hv].
  { destruct Ha as [Ha La]. split; [split; [unfold uint; simpl; lia|done]|].
    unfold val, uint in *. cbn [hi lo]. apply (Z.div_unique_pos _ _ _ (lo a)); lia. }
  assert (shr_small a n = shr_small (mk128 0 (hi a)) (n - 64)) as ->.
  { unfold shr_small at 1. destruct (Z.leb_spec 64 n); [|lia]. unfold shr_small.
    destruct (Z.leb_spec 64 (n - 64)); [lia|done]. }
  assert (2 ^ n = 2 ^ 64 * 2 ^ (n - 64)) as ->.
  { rewrite <- Z.pow_add_r by lia. f_equal. lia. }
  rewrite <- Z.div_div by lia. rewrite <- Hv.
  destruct (decide (n = 64)) as [->|].
  - change (64 - 64) with 0. rewrite shr_small_0. split; [done|]. by rewrite Z.div_1_r.
  - apply shr_small_low; [done|lia].
Qed.

Lemma shl128_spec a n :
  wf128 a → 0 ≤ n < 128 →
  wf128 (shl128 a (of_uint64 n)) ∧ val (shl128 a (of_uint64 n)) = (val a * 2 ^ n) mod 2 ^ 128.
Proof.
  intros Ha Hn. unfold shl128. rewrite ge128_spec by (apply wf_of_uint64; unfold uint; lia).
  rewrite !val_of_uint64. destruct (Z.leb_spec 128 n); [lia|]. by apply shl_small_spec.
Qed.

Lemma shr128_spec a n :
  wf128 a → 0 ≤ n < 128 →
  wf128 (shr128 a (of_uint64 n)) ∧ val (shr128 a (of_uint64 n)) = val a / 2 ^ n.
Proof.
  intros Ha Hn. unfold shr128. rewrite ge128_spec by (apply wf_of_uint64; unfold uint; lia).
  rewrite !val_of_uint64. destruct (Z.leb_spec 128 n); [lia|]. by apply shr_small_spec.
Qed.

(** *** Multiplication *)

Lemma limbs x : uint 64 x →
  x = to_uint 32 x + to_uint 32 (Z.shiftr x 32) * 2 ^ 32 ∧
  uint 32 (to_uint 32 x) ∧ uint 32 (to_uint 32 (Z.shiftr x 32)).
Proof.
  intros Hx. split; [|split; apply to_uint_range; lia].
  rewrite Z.shiftr_div_pow2 by lia. unfold uint in Hx.
  rewrite (to_uint_id 32 (x / 2 ^ 32)).
  - unfold to_uint. pose proof (Z.div_mod x (2 ^ 32)). lia.
  - split; [apply Z.div_pos; lia|]. apply Z.div_lt_upper_bound; lia.
Qed.

Lemma mul64_exact x y : uint 32 x → uint 32 y → mul64 x y = x * y ∧ uint 64 (x * y).
Proof.
  intros Hx Hy. assert (uint 64 (x * y)).
  { unfold uint in *. change (2 ^ 64) with (2 ^ 32 * 2 ^ 32). nia. }
  split; [|done]. by apply to_uint_id.
Qed.

(** [holds t x]: the accumulator [t] holds [x] modulo 2^128. *)
Definition holds (t : uint128) (x : Z) : Prop := wf128 t ∧ val t = x mod 2 ^ 128.

Lemma holds_add t z x : holds t x → uint 64 z → holds (add128 t (of_uint64 z)) (x + z).
Proof.
  intros [Ht Hv] Hz. destruct (add128_spec t (of_uint64 z) Ht (wf_of_uint64 z Hz)) as [Hw Hval].
  split; [done|]. by rewrite Hval, Hv, val_of_uint64, Zplus_mod_idemp_l.
Qed.

Lemma holds_shl t x : holds t x → holds (shl128 t (of_uint64 32)) (x * 2 ^ 32).
Proof.
  intros [Ht Hv]. destruct (shl128_spec t 32 Ht) as [Hw Hval]; [lia|].
  split; [done|]. by rewrite Hval, Hv, Zmult_mod_idemp_l.
Qed.

Lemma holds_of_uint64 z : uint 64 z → holds (mk128 0 z) z.
Proof.
  intros Hz. split; [by apply wf_of_uint64|]. change (val (mk128 0 z)) with z.
  unfold uint in Hz. rewrite Z.mod_small; lia.
Qed.

Lemma holds_exact t x : holds t x → uint 128 x → val t = x.
Proof. intros [_ ->] Hx. by apply Z.mod_small. Qed.

Lemma mul128_spec a b :
  wf128 a → wf128 b → wf128 (mul128 a b) ∧ val (mul128 a b) = (val a * val b) mod 2 ^ 128.
Proof.
  intros [Ha La] [Hb Lb]. unfold mul128. cbv zeta.
  destruct (limbs _ La) as (Ela & Ha0 & Ha1). destruct (limbs _ Ha) as (Eha & Ha2 & Ha3).
  destruct (limbs _ Lb) as (Elb & Hb0 & Hb1). destruct (limbs _ Hb) as (Ehb & Hb2 & Hb3).
  assert (val a = lo a + hi a * 2 ^ 64) as -> by (unfold val; lia).
  assert (val b = lo b + hi b * 2 ^ 64) as -> by (unfold val; lia).
  remember (to_uint 32 (lo a)) as a0. remember (to_uint 32 (Z.shiftr (lo a) 32)) as a1.
  remember (to_uint 32 (hi a)) as a2. remember (to_uint 32 (Z.shiftr (hi a) 32)) as a3.
  remember (to_uint 32 (lo b)) as b0. remember (to_uint 32 (Z.shiftr (lo b) 32)) as b1.
  remember (to_uint 32 (hi b)) as b2. remember (to_uint 32 (Z.shiftr (hi b) 32)) as b3.
  rewrite Ela, Eha, Elb, Ehb. clear - Ha0 Ha1 Ha2 Ha3 Hb0 Hb1 Hb2 Hb3.
  assert (∀ x y, uint 32 x → uint 32 y → mul64 x y = x * y) as Hmul by (intros; by apply mul64_exact).
  rewrite !Hmul by done. clear Hmul.
  match goal with |- wf128 ?t ∧ _ => assert (∃ x, holds t x ∧
    (∃ k, (a0 + a1 * 2 ^ 32 + (a2 + a3 * 2 ^ 32) * 2 ^ 64) *
      (b0 + b1 * 2 ^ 32 + (b2 + b3 * 2 ^ 32) * 2 ^ 64) = x + k * 2 ^ 128)) as (x & [Hw Hv] & k & Hk) end.
  - eexists. split.
    + repeat (apply holds_add || apply holds_shl || apply holds_of_uint64 || by apply mul64_exact).
    + exists (a3 * b1 + a2 * b2 + a1 * b3 + (a3 * b2 + a2 * b3) * 2 ^ 32 + a3 * b3 * 2 ^ 64).
      change (2 ^ 128) with (2 ^ 32 * 2 ^ 32 * 2 ^ 32 * 2 ^ 32). change (2 ^ 64) with (2 ^ 32 * 2 ^ 32).
      ring.
  - split; [done|]. by rewrite Hv, Hk, Z_mod_plus_full.
Qed.

Lemma mul64_wide x y :
  uint 64 x → uint 64 y →
  wf128 (mul128 (of_uint64 x) (of_uint64 y)) ∧ val (mul128 (of_uint64 x) (of_uint64 y)) = x * y.
Proof.
  intros Hx Hy.
  destruct (mul128_spec _ _ (wf_of_uint64 x Hx) (wf_of_uint64 y Hy)) as [Hw Hv].
  split; [done|]. rewrite Hv, !val_of_uint64. unfold uint in *. apply Z.mod_small.
  change (2 ^ 128) with (2 ^ 64 * 2 ^ 64). nia.
Qed.

Lemma combine_products_spec s r q p :
  wf128 s → wf128 r → wf128 q → wf128 p →
  val p * 2 ^ 128 + (val r + val q) * 2 ^ 64 + val s < 2 ^ 256 →
  wf128 (combine_products s r q p).1 ∧ wf128 (combine_products s r q p).2 ∧
  val (combine_products s r q p).1 * 2 ^ 128 + val (combine_products s r q p).2 =
    val p * 2 ^ 128 + (val r + val q) * 2 ^ 64 + val s.
Proof.
  intros [Hsh Hsl] [Hrh Hrl] [Hqh Hql] [Hph Hpl] Hlt. unfold combine_products. cbv zeta.
  assert (holds (add128 (add128 (of_uint64 (hi s)) (of_uint64 (lo q))) (of_uint64 (lo r)))
    (hi s + lo q + lo r)) as H1.
  { apply holds_add, Hrl. apply holds_add, Hql. apply holds_of_uint64, Hsh. }
  revert H1. generalize (add128 (add128 (of_uint64 (hi s)) (of_uint64 (lo q))) (of_uint64 (lo r))).
  intros acc1 [[Hh1 Hl1] Hv1]. rewrite Z.mod_small in Hv1 by (unfold uint in *; lia).
  assert (holds (add128 (add128 (add128 (of_uint64 (hi acc1)) (of_uint64 (hi q)))
    (of_uint64 (hi r))) (of_uint64 (lo p))) (hi acc1 + hi q + hi r + lo p)) as H2.
  { apply holds_add, Hpl. apply holds_add, Hrh. apply holds_add, Hqh. apply holds_of_uint64, Hh1. }
  revert H2. generalize (add128 (add128 (add128 (of_uint64 (hi acc1)) (of_uint64 (hi q)))
    (of_uint64 (hi r))) (of_uint64 (lo p))).
  intros acc2 [[Hh2 Hl2] Hv2]. rewrite Z.mod_small in Hv2 by (unfold uint in *; lia).
  unfold val, wf128 in *. cbn [fst snd hi lo] in *.
  assert (uint 64 (hi acc2 + hi p)) as Htop.
  { unfold uint in *. split; [lia|]. revert Hlt. change (2 ^ 256) with (2 ^ 64 * 2 ^ 64 * 2 ^ 128). lia. }
  rewrite to_uint_id by done. split_and!; try done.
  change (2 ^ 128) with (2 ^ 64 * 2 ^ 64). lia.
Qed.

Lemma full_product_spec a b :
  wf128 a → wf128 b →
  wf128 (full_product a b).1 ∧ wf128 (full_product a b).2 ∧
  val (full_product a b).1 * 2 ^ 128 + val (full_product a b).2 = val a * val b.
Proof.
  intros Ha Hb. pose proof (val_range _ Ha) as Hra. pose proof (val_range _ Hb) as Hrb.
  destruct Ha as [Ha La], Hb as [Hb Lb]. unfold full_product.
  destruct (mul64_wide (lo a) (lo b) La Lb) as [Hs Hvs].
  destruct (mul64_wide (hi a) (lo b) Ha Lb) as [Hr Hvr].
  destruct (mul64_wide (lo a) (hi b) La Hb) as [Hq Hvq].
  destruct (mul64_wide (hi a) (hi b) Ha Hb) as [Hp Hvp].
  assert (val a * val b = hi a * hi b * 2 ^ 128 + (hi a * lo b + lo a * hi b) * 2 ^ 64 + lo a * lo b)
    as ->.
  { unfold val. change (2 ^ 128) with (2 ^ 64 * 2 ^ 64). ring. }
  rewrite <- Hvs, <- Hvr, <- Hvq, <- Hvp. apply (combine_products_spec _ _ _ _ Hs Hr Hq Hp).
  rewrite Hvs, Hvr, Hvq, Hvp. unfold uint, val in *.
  change (2 ^ 256) with (2 ^ 128 * 2 ^ 128). change (2 ^ 128) with (2 ^ 64 * 2 ^ 64) in *. nia.
Qed.

(** Multiplication by 32-bit limbs is multiplication modulo 2^128, and
    [full_product] is the whole 256-bit product. *)
Theorem uint128_multiplication a b :
  wf128 a → wf128 b →
  val (mul128 a b) = (val a * val b) mod 2 ^ 128 ∧
  val (full_product a b).1 * 2 ^ 128 + val (full_product a b).2 = val a * val b.
Proof.
  intros Ha Hb. split; [by apply mul128_spec|]. by apply full_product_spec.
Qed.

Definition demo128 : uint128 := mk128 12345678901234567890 9876543210987654321.
Lemma wf_demo128 : wf128 demo128.
Proof. unfold wf128, uint. simpl. lia. Qed.

Lemma uint128_multiplication_witness :
  val (mul128 demo128 demo128) = (val demo128 * val demo128) mod 2 ^ 128 ∧
  val (full_product demo128 demo128).1 * 2 ^ 128 + val (full_product demo128 demo128).2
    = val demo128 * val demo128.
Proof. exact (uint128_multiplication demo128 demo128 wf_demo128 wf_demo128). Defined.

(** *** Division *)

Lemma wf_one : wf128 one128.
Proof. by vm_compute. Qed.

Lemma top_bit_spec d : wf128 d → top_bit d = (2 ^ 127 <=? val d).
Proof.
  intros Hd. destruct (shr128_spec d 127 Hd) as [Hw Hv]; [lia|]. unfold top_bit.
  pose proof (val_range _ Hd) as Hr. unfold uint in Hr.
  remember (shr128 d (of_uint64 127)) as t.
  assert (0 ≤ val t ≤ 1) as Ht.
  { rewrite Hv. split; [apply Z.div_pos; lia|].
    assert (val d / 2 ^ 127 < 2); [|lia]. apply Z.div_lt_upper_bound; lia. }
  assert (2 ^ 127 ≤ val d ↔ val t = 1) as Hiff.
  { rewrite Hv. pose proof (Z.div_mod (val d) (2 ^ 127)).
    pose proof (Z.mod_pos_bound (val d) (2 ^ 127)). split; intros; lia. }
  clear Hv Heqt. destruct t as [h l]. destruct Hw as [Hh Hl].
  change (val (mk128 h l)) with (h * 2 ^ 64 + l) in *. unfold uint in Hh, Hl. cbn [hi lo] in Hh, Hl.
  assert (h = 0) as -> by lia.
  assert (l = 0 ∨ l = 1) as [->| ->] by lia.
  - change (negb _) with false. destruct (Z.leb_spec (2 ^ 127) (val d)) as [Hle|]; [|done].
    apply Hiff in Hle. lia.
  - change (negb _) with true. destruct (Z.leb_spec (2 ^ 127) (val d)) as [|Hlt]; [done|].
    assert (2 ^ 127 ≤ val d) by (apply Hiff; lia). lia.
Qed.

Lemma shl_one d : wf128 d → val d < 2 ^ 127 →
  wf128 (shl128 d one128) ∧ val (shl128 d one128) = 2 * val d.
Proof.
  intros Hd Hlt. destruct (shl128_spec d 1 Hd) as [Hw Hv]; [lia|]. split; [done|].
  unfold one128. pose proof (val_range _ Hd) as Hr. unfold uint in Hr.
  rewrite Hv, Z.mod_small; lia.
Qed.

Lemma shr_one d : wf128 d → wf128 (shr128 d one128) ∧ val (shr128 d one128) = val d / 2.
Proof. intros Hd. destruct (shr128_spec d 1 Hd); [lia|done]. Qed.

Lemma divide_up_spec fuel n d0 d x j :
  wf128 n → wf128 d0 → 0 < val d0 → wf128 d → wf128 x → 0 ≤ j →
  val d = val d0 * 2 ^ j → val x = 2 ^ j → 128 ≤ j + Z.of_nat fuel →
  ∃ d' x' j', divide_up fuel n d x = Some (d', x') ∧ wf128 d' ∧ wf128 x' ∧ 0 ≤ j' < 128 ∧
    val d' = val d0 * 2 ^ j' ∧ val x' = 2 ^ j' ∧ val n < 2 * val d'.
Proof.
  intros Hn Hd0 Hpos. revert d x j. induction fuel as [|fuel IH];
    intros d x j Hd Hx Hj Hvd Hvx Hf; cbn [divide_up];
    rewrite ge128_spec, top_bit_spec by done;
    pose proof (val_range _ Hd) as Hdr; pose proof (val_range _ Hn) as Hnr;
    pose proof (val_range _ Hx) as Hxr; unfold uint in *;
    (assert (j < 128) by (apply (Z.pow_lt_mono_r_iff 2); lia));
    destruct (Z.leb_spec (val d) (val n)); destruct (Z.leb_spec (2 ^ 127) (val d));
    cbn [negb andb].
  1,2,3,4,5,7,8: try lia; exists d, x, j; split_and!; done || lia.
  destruct (shl_one d Hd) as [Hd' Hvd']; [done|].
  assert (2 ^ j ≤ val d) by nia.
  destruct (shl_one x Hx) as [Hx' Hvx']; [lia|].
  apply (IH _ _ (j + 1)); try done; try lia; rewrite ?Hvd', ?Hvx', ?Hvd, ?Hvx, Z.pow_add_r by lia; lia.
Qed.

Lemma divide_down_spec fuel n0 d0 n d x answer j :
  wf128 d0 → 0 < val d0 → wf128 n → wf128 d → wf128 x → wf128 answer →
  0 ≤ j < Z.of_nat fuel → val d = val d0 * 2 ^ j → val x = 2 ^ j →
  val n < 2 * val d → (∃ k, val answer = k * 2 ^ (j + 1)) →
  n0 = val answer * val d0 + val n →
  ∃ q r, divide_down fuel n d x answer = Some (q, r) ∧ wf128 q ∧ wf128 r ∧
    val q = n0 / val d0 ∧ val r = n0 mod val d0.
Proof.
  intros Hd0 Hpos. revert n d x answer j.
  induction fuel as [|fuel IH]; intros n d x answer j Hn Hd Hx Ha Hj Hvd Hvx Hlt [k Hk] Hsum; [lia|].
  assert (0 < 2 ^ j) as Hpj by (apply Z.pow_pos_nonneg; lia).
  cbn [divide_down]. rewrite eq128_spec, ge128_spec by (done || by apply (wf_of_uint64 0)).
  change (val (mk128 0 0)) with 0. destruct (Z.eqb_spec (val x) 0); [lia|].
  set (p := if val d <=? val n then (sub128 n d, or128 answer x) else (n, answer)).
  assert (wf128 p.1 ∧ wf128 p.2 ∧ val p.1 < val d ∧ (∃ k, val p.2 = k * 2 ^ j) ∧
    n0 = val p.2 * val d0 + val p.1) as (Hp1 & Hp2 & Hpl & Hpk & Hps).
  { pose proof (val_range _ Hn) as Hnr. pose proof (val_range _ Hd) as Hdr. unfold uint in *.
    unfold p. destruct (Z.leb_spec (val d) (val n)); cbn [fst snd].
    - destruct (sub128_spec n d Hn Hd) as [Hs Hvs]. destruct (or128_spec answer x Ha Hx) as [Ho Hvo].
      rewrite Z.mod_small in Hvs by lia.
      assert (val (or128 answer x) = val answer + 2 ^ j) as Hvo'.
      { rewrite Hvo, Hk, Hvx. apply lor_add_low; [lia|]. rewrite Z.pow_add_r by lia. lia. }
      split_and!; [done|done|lia| |rewrite Hvo', Hvs; lia].
      exists (2 * k + 1). rewrite Hvo', Hk, Z.pow_add_r by lia. lia.
    - split_and!; [done|done|lia| |done].
      exists (2 * k). rewrite Hk, Z.pow_add_r by lia. lia. }
  destruct p as [n' answer']. cbn [fst snd] in *. clear n answer Hn Ha Hlt Hk Hsum k.
  destruct (shr_one d Hd) as [Hd' Hvd']. destruct (shr_one x Hx) as [Hx' Hvx'].
  destruct (decide (j = 0)) as [->|Hj0].
  - assert (val (shr128 x one128) = 0) as Hx0 by (rewrite Hvx', Hvx; done).
    exists answer', n'. split.
    + destruct fuel; cbn [divide_down]; rewrite eq128_spec, Hx0 by (done || by apply (wf_of_uint64 0)); done.
    + rewrite Hvd, Z.mul_1_r in Hpl. pose proof (val_range _ Hp1) as Hr. unfold uint in Hr.
      split_and!; [done|done| |].
      * apply (Z.div_unique_pos _ _ _ (val n')); lia.
      * apply (Z.mod_unique_pos _ _ (val answer')); lia.
  - assert (2 ^ j = 2 * 2 ^ (j - 1)) as Hpow by (rewrite <- Z.pow_succ_r by lia; f_equal; lia).
    assert (val (shr128 d one128) = val d0 * 2 ^ (j - 1)) as Hvd2.
    { rewrite Hvd', Hvd, Hpow. replace (val d0 * (2 * 2 ^ (j - 1))) with (val d0 * 2 ^ (j - 1) * 2) by lia.
      by apply Z.div_mul. }
    assert (val (shr128 x one128) = 2 ^ (j - 1)) as Hvx2.
    { rewrite Hvx', Hvx, Hpow, Z.mul_comm. by apply Z.div_mul. }
    apply (IH _ _ _ _ (j - 1)); try done; [lia|lia|].
    by replace (j - 1 + 1) with j by lia.
Qed.

Lemma divide_spec n d :
  wf128 n → wf128 d → 0 < val d →
  ∃ q r, divide n d = Some (Ok (q, r)) ∧ wf128 q ∧ wf128 r ∧
    val q = val n / val d ∧ val r = val n mod val d.
Proof.
  intros Hn Hd Hpos. unfold divide. rewrite eq128_spec by (done || by apply (wf_of_uint64 0)).
  change (val (mk128 0 0)) with 0. destruct (Z.eqb_spec (val d) 0); [lia|].
  destruct (divide_up_spec 128 n d d one128 0) as (d' & x & j & -> & Hd' & Hx & Hj & Hvd & Hvx & Hlt);
    try done; try apply wf_one; try lia. cbn [mbind option_bind].
  destruct (divide_down_spec 128 (val n) d n d' x (mk128 0 0) j) as (q & r & -> & H);
    try done; try lia; [by exists 0|].
  by exists q, r.
Qed.

(** The shift-and-subtract division ends and gives the quotient and the
    remainder, for every divisor but zero, which throws. *)
Theorem uint128_division n d :
  wf128 n → wf128 d →
  if val d =? 0 then divide n d = Some (Throw divide_by_zero_exception)
  else ∃ q r, divide n d = Some (Ok (q, r)) ∧ mod128 n d = Some (Ok r) ∧
    wf128 q ∧ wf128 r ∧ val q = val n / val d ∧ val r = val n mod val d.
Proof.
  intros Hn Hd. destruct (Z.eqb_spec (val d) 0) as [Hz|Hz].
  - unfold divide. rewrite eq128_spec by (done || by apply (wf_of_uint64 0)). by rewrite Hz.
  - pose proof (val_range _ Hd) as Hr. unfold uint in Hr.
    destruct (divide_spec n d Hn Hd ltac:(lia)) as (q & r & Hdiv & H).
    exists q, r. split; [done|]. split; [unfold mod128; by rewrite Hdiv|done].
Qed.

Lemma uint128_division_witness :
  if val (of_uint64 97) =? 0 then divide demo128 (of_uint64 97) = Some (Throw divide_by_zero_exception)
  else ∃ q r, divide demo128 (of_uint64 97) = Some (Ok (q, r)) ∧ mod128 demo128 (of_uint64 97) = Some (Ok r) ∧
    wf128 q ∧ wf128 r ∧ val q = val demo128 / val (of_uint64 97) ∧ val r = val demo128 mod val (of_uint64 97).
Proof. apply (uint128_division demo128 (of_uint64 97) wf_demo128). by apply wf_of_uint64. Defined.

(** *** Decimal text *)

Lemma digit_of_char n : 0 ≤ n < 10 → digit_of 10 (digit_char n) = Some n.
Proof.
  intros Hn. assert (n = 0 ∨ n = 1 ∨ n = 2 ∨ n = 3 ∨ n = 4 ∨ n = 5 ∨ n = 6 ∨ n = 7 ∨ n = 8 ∨ n = 9)
    as H by lia.
  by repeat destruct H as [-> | H]; subst.
Qed.

Lemma to_integer_small a : wf128 a → val a < 2 ^ 32 → to_integer a = Ok (val a).
Proof.
  destruct a as [h l]. unfold wf128, uint, val, to_integer. cbn [hi lo]. intros [Hh Hl] Hlt.
  assert (h = 0) as -> by lia. rewrite (to_uint_id 32) by (unfold uint; lia).
  by rewrite !Z.eqb_refl.
Qed.

Lemma parse_digits_cons n s acc u :
  0 ≤ n < 10 → wf128 acc → wf128 u → val u = 10 * val acc + n →
  parse_digits 10 (String (digit_char n) s) acc = parse_digits 10 s u.
Proof.
  intros Hn Ha Hu Hval. cbn [parse_digits]. rewrite digit_of_char by done. f_equal.
  pose proof (val_range _ Hu) as Hr. unfold uint in Hr.
  pose proof (val_range _ Ha) as Hra. unfold uint in Hra.
  destruct (mul128_spec acc (of_uint64 10) Ha) as [Hm Hmv]; [by apply wf_of_uint64|].
  rewrite val_of_uint64, Z.mod_small in Hmv by lia.
  destruct (add128_spec _ (of_uint64 n) Hm) as [Hs Hsv]; [apply wf_of_uint64; unfold uint; lia|].
  rewrite Hmv, val_of_uint64, Z.mod_small in Hsv by lia.
  apply val_inj; [done|done|]. lia.
Qed.

(** The text of a positive number: a digit that is not zero first, and parsing
    it from zero, with [s] left to parse, is parsing [s] from the number. *)
Lemma print_loop_spec i u s :
  wf128 u → 0 < val u < 10 ^ Z.of_nat i →
  ∃ d t, print_loop i u s = Some (Ok (String (digit_char d) t)) ∧ 1 ≤ d < 10 ∧
    parse_digits 10 (String (digit_char d) t) (mk128 0 0) = parse_digits 10 s u.
Proof.
  revert u s. induction i as [|i IH]; intros u s Hu Hval; [simpl in Hval; lia|].
  cbn [print_loop]. rewrite eq128_spec by (done || by apply (wf_of_uint64 0)).
  change (val (mk128 0 0)) with 0. destruct (Z.eqb_spec (val u) 0); [lia|].
  destruct (divide_spec u (of_uint64 10)) as (q & r & -> & Hq & Hr & Hvq & Hvr);
    [done|by apply wf_of_uint64|done|]. rewrite val_of_uint64 in Hvq, Hvr. cbn [mbind option_bind].
  pose proof (Z.div_mod (val u) 10 ltac:(lia)) as Hdm.
  pose proof (Z.mod_pos_bound (val u) 10 ltac:(lia)) as Hmb.
  rewrite to_integer_small by (done || lia).
  destruct (decide (val q = 0)) as [Hq0|Hq0].
  - exists (val r), s. split_and!; [|lia|lia|].
    + destruct i; cbn [print_loop]; [done|].
      rewrite eq128_spec, Hq0 by (done || by apply (wf_of_uint64 0)). done.
    + apply parse_digits_cons; [lia|by apply (wf_of_uint64 0)|done|].
      change (val (mk128 0 0)) with 0. lia.
  - destruct (IH q (String (digit_char (val r)) s) Hq) as (d & t & -> & Hd & Hp).
    { rewrite Nat2Z.inj_succ, Z.pow_succ_r in Hval by lia.
      pose proof (val_range _ Hq) as Hqr. unfold uint in Hqr. lia. }
    exists d, t. split_and!; [done|lia|lia|]. rewrite Hp. apply parse_digits_cons; [lia|done|done|lia].
Qed.

Lemma of_string_digit d t :
  1 ≤ d < 10 →
  of_string (String (digit_char d) t) = parse_digits 10 (String (digit_char d) t) (mk128 0 0).
Proof.
  intros Hd. assert (d = 1 ∨ d = 2 ∨ d = 3 ∨ d = 4 ∨ d = 5 ∨ d = 6 ∨ d = 7 ∨ d = 8 ∨ d = 9)
    as H by lia.
  by repeat destruct H as [-> | H]; subst.
Qed.

(** The decimal text of a 128-bit number is produced, and read back as the
    number. *)
Theorem uint128_text_roundtrip u :
  wf128 u → ∃ t, to_string u = Some (Ok t) ∧ of_string t = u.
Proof.
  intros Hu. unfold to_string. rewrite eq128_spec by (done || by apply (wf_of_uint64 0)).
  change (val (mk128 0 0)) with 0. pose proof (val_range _ Hu) as Hr. unfold uint in Hr.
  destruct (Z.eqb_spec (val u) 0) as [Hz|Hz].
  - exists "0". split; [done|]. apply val_inj; [by apply (wf_of_uint64 0)|done|]. by rewrite Hz.
  - destruct (print_loop_spec 127 u "" Hu) as (d & t & -> & Hd & Hp).
    { split; [lia|]. apply Z.lt_trans with (2 ^ 128); [lia|]. by vm_compute. }
    exists (String (digit_char d) t). split; [done|]. by rewrite of_string_digit, Hp.
Qed.

Lemma uint128_text_roundtrip_witness :
  to_string demo128 = Some (Ok "227737579107269814032438251222398864561") ∧
  ∃ t, to_string demo128 = Some (Ok t) ∧ of_string t = demo128.
Proof. split; [by vm_compute|]. apply (uint128_text_roundtrip demo128 wf_demo128). Defined.

(** ** [operator/=], delegated to [boost::multiprecision::uint128_t]

    The code converts both operands to 128-bit integers of boost, divides and
    converts back: all the callers rely on is the quotient. *)
Class Division128 := {
  div128 : uint128 → uint128 → uint128;
  div128_wf a b : wf128 a → wf128 b → 0 < val b → wf128 (div128 a b);
  div128_val a b : wf128 a → wf128 b → 0 < val b → val (div128 a b) = val a / val b
}.

(** [std::min] on 128-bit integers. *)
Definition min128 (a b : uint128) : uint128 := if lt128 b a then b else a.

Lemma min128_spec a b :
  wf128 a → wf128 b → wf128 (min128 a b) ∧ val (min128 a b) = Z.min (val a) (val b).
Proof.
  intros Ha Hb. unfold min128. rewrite lt128_spec by done.
  destruct (Z.ltb_spec (val b) (val a)); split; done || lia.
Qed.

(** [operator<=] and [to_uint64]. *)
Definition le128 (l r : uint128) : bool := eq128 l r || lt128 l r.
Definition to_uint64 (a : uint128) : result Z := FC_ASSERT (hi a =? 0) ;; mret (lo a).

Lemma le128_spec a b : wf128 a → wf128 b → le128 a b = (val a <=? val b).
Proof. intros. unfold le128. rewrite eq128_spec, lt128_spec by done. lia. Qed.

Lemma to_uint64_spec a : wf128 a → val a < 2 ^ 64 → to_uint64 a = Ok (val a).
Proof.
  destruct a as [h l]. unfold wf128, uint, val, to_uint64. cbn [hi lo]. intros [Hh Hl] Hlt.
  assert (h = 0) as -> by lia. done.
Qed.

Lemma of_int64_spec z : 0 ≤ z → int64 z → wf128 (of_int64 z) ∧ val (of_int64 z) = z.
Proof.
  intros Hz Hz'. unfold of_int64. destruct (Z.ltb_spec z 0); [lia|].
  assert (uint 64 z) by (unfold uint, int64, int64_max in *; lia).
  split; [apply wf_to_uint|]. unfold val. cbn [hi lo]. rewrite !to_uint_id by done. lia.
Qed.

(** The division of this file is such a division. *)
Definition quotient128 (n d : uint128) : uint128 :=
  match divide n d with Some (Ok (q, _)) => q | _ => mk128 0 0 end.

Lemma quotient128_spec a b :
  wf128 a → wf128 b → 0 < val b → wf128 (quotient128 a b) ∧ val (quotient128 a b) = val a / val b.
Proof.
  intros Ha Hb Hp. unfold quotient128.
  by destruct (divide_spec a b Ha Hb Hp) as (q & r & -> & Hq & _ & Hv & _).
Qed.

#[export] Instance shift_division128 : Division128 := {|
  div128 := quotient128;
  div128_wf a b Ha Hb Hp := proj1 (quotient128_spec a b Ha Hb Hp);
  div128_val a b Ha Hb Hp := proj2 (quotient128_spec a b Ha Hb Hp)
|}.
