(* ===== verification/Safe.v ===== *)
(** * Checked integers: [fc::safe] of libraries/fc/include/fc/safe.hpp

    [safe<int64_t>] is the type of every amount of the chain ([share_type]).  A
    value is a [Z] within the range of [int64_t]; an operation throws when the
    result is not.  Division and remainder round towards zero. *)

From S2P Require Import Prelude.

Local Open Scope Z_scope.

Definition safe_add (a b : Z) : result Z :=
  if (0 <? b) && (int64_max - b <? a) then Throw overflow_exception
  else if (b <? 0) && (a <? int64_min - b) then Throw underflow_exception
  else Ok (to_sint 64 (a + b)).

Definition safe_sub (a b : Z) : result Z :=
  if (0 <? b) && (a <? int64_min + b) then Throw underflow_exception
  else if (b <? 0) && (int64_max + b <? a) then Throw overflow_exception
  else Ok (to_sint 64 (a - b)).

Definition safe_mul (a b : Z) : result Z :=
  let bad :=
    if 0 <? a then
      if 0 <? b then
        if Z.quot int64_max b <? a then Some overflow_exception else None
      else
        if b <? Z.quot int64_min a then Some underflow_exception else None
    else
      if 0 <? b then
        if a <? Z.quot int64_min b then Some underflow_exception else None
      else
        if negb (a =? 0) && (b <? Z.quot int64_max a) then Some overflow_exception else None in
  match bad with
  | Some e => Throw e
  | None => Ok (to_sint 64 (a * b))
  end.

Definition safe_div (a b : Z) : result Z :=
  if b =? 0 then Throw divide_by_zero_exception
  else if (a =? int64_min) && (b =? -1) then Throw overflow_exception
  else Ok (Z.quot a b).

Definition safe_rem (a b : Z) : result Z :=
  if b =? 0 then Throw divide_by_zero_exception
  else if (a =? int64_min) && (b =? -1) then Throw overflow_exception
  else Ok (Z.rem a b).

Definition safe_neg (a : Z) : result Z :=
  if a =? int64_min then Throw overflow_exception else Ok (to_sint 64 (- a)).

Definition safe_incr (a : Z) : result Z := safe_add a 1.
Definition safe_decr (a : Z) : result Z := safe_sub a 1.

(** ** The operations compute when, and only when, the result is representable *)

Lemma safe_add_spec a b :
  int64 a → int64 b →
  safe_add a b = if bool_decide (int64 (a + b)) then Ok (a + b)
                 else Throw (if 0 <? b then overflow_exception else underflow_exception).
Proof.
  unfold safe_add, int64, int64_min, int64_max. intros Ha Hb.
  destruct (Z.ltb_spec 0 b), (Z.ltb_spec b 0); try lia; cbn [andb];
    try destruct (Z.ltb_spec (2 ^ 63 - 1 - b) a); try destruct (Z.ltb_spec a (- 2 ^ 63 - b));
    case_bool_decide; try lia; try done; f_equal; apply to_sint_64_id;
    unfold int64, int64_min, int64_max; lia.
Qed.

Lemma safe_sub_spec a b :
  int64 a → int64 b →
  safe_sub a b = if bool_decide (int64 (a - b)) then Ok (a - b)
                 else Throw (if 0 <? b then underflow_exception else overflow_exception).
Proof.
  unfold safe_sub, int64, int64_min, int64_max. intros Ha Hb.
  destruct (Z.ltb_spec 0 b), (Z.ltb_spec b 0); try lia; cbn [andb];
    try destruct (Z.ltb_spec (2 ^ 63 - 1 + b) a); try destruct (Z.ltb_spec a (- 2 ^ 63 + b));
    case_bool_decide; try lia; try done; f_equal; apply to_sint_64_id;
    unfold int64, int64_min, int64_max; lia.
Qed.

(** The quotients of the bounds by a factor bound the other factor. *)
Lemma quot_max_pos m a b : 0 < b → 0 ≤ m → Z.quot m b < a ↔ m < a * b.
Proof. intros. split; Z.to_euclidean_division_equations; nia. Qed.

Lemma quot_min_pos m a b : 0 < a → m ≤ 0 → b < Z.quot m a ↔ a * b < m.
Proof. intros. split; Z.to_euclidean_division_equations; nia. Qed.

Lemma quot_max_neg m a b : a < 0 → 0 ≤ m → b < Z.quot m a ↔ m < a * b.
Proof. intros. split; Z.to_euclidean_division_equations; nia. Qed.

Lemma safe_mul_spec a b :
  int64 a → int64 b →
  if bool_decide (int64 (a * b)) then safe_mul a b = Ok (a * b)
  else ∃ e, safe_mul a b = Throw e.
Proof.
  intros Ha Hb. unfold safe_mul.
  match goal with |- context [match ?e with Some _ => _ | None => _ end] => set (bad := e) end.
  assert (bad = None ↔ int64 (a * b)) as Hbad.
  { unfold bad, int64, int64_min, int64_max in *.
    destruct (Z.ltb_spec 0 a), (Z.ltb_spec 0 b).
    - destruct (Z.ltb_spec (Z.quot (2 ^ 63 - 1) b) a) as [Hq|Hq];
        [rewrite quot_max_pos in Hq by lia|rewrite <- Z.nlt_ge, quot_max_pos in Hq by lia];
        split; intros; nia || done.
    - destruct (Z.ltb_spec b (Z.quot (- 2 ^ 63) a)) as [Hq|Hq];
        [rewrite quot_min_pos in Hq by lia|rewrite <- Z.nlt_ge, quot_min_pos in Hq by lia];
        split; intros; nia || done.
    - destruct (Z.ltb_spec a (Z.quot (- 2 ^ 63) b)) as [Hq|Hq];
        [rewrite quot_min_pos in Hq by lia|rewrite <- Z.nlt_ge, quot_min_pos in Hq by lia];
        split; intros; nia || done.
    - destruct (Z.eqb_spec a 0); cbn [negb andb]; [subst; split; intros; lia || done|].
      destruct (Z.ltb_spec b (Z.quot (2 ^ 63 - 1) a)) as [Hq|Hq];
        [rewrite quot_max_neg in Hq by lia|rewrite <- Z.nlt_ge, quot_max_neg in Hq by lia];
        split; intros; nia || done. }
  case_bool_decide as Hr.
  - rewrite (proj2 Hbad Hr). f_equal. by apply to_sint_64_id.
  - destruct bad as [e|]; [by exists e|]. tauto.
Qed.

Lemma safe_div_spec a b :
  int64 a → int64 b → b ≠ 0 →
  if bool_decide (int64 (Z.quot a b)) then safe_div a b = Ok (Z.quot a b)
  else safe_div a b = Throw overflow_exception.
Proof.
  unfold safe_div, int64, int64_min, int64_max. intros Ha Hb Hnz.
  destruct (Z.eqb_spec b 0); [lia|].
  destruct (Z.eqb_spec a (- 2 ^ 63)) as [->|], (Z.eqb_spec b (-1)) as [->|]; cbn [andb];
    case_bool_decide as Hr; try done; exfalso; apply Hr; Z.to_euclidean_division_equations; nia.
Qed.

(** What a caller learns from an operation that returned. *)
Lemma safe_add_Ok a b c : int64 a → int64 b → safe_add a b = Ok c → c = a + b ∧ int64 c.
Proof. intros Ha Hb. rewrite safe_add_spec by done. case_bool_decide; intros; inv_ok; done. Qed.
Lemma safe_sub_Ok a b c : int64 a → int64 b → safe_sub a b = Ok c → c = a - b ∧ int64 c.
Proof. intros Ha Hb. rewrite safe_sub_spec by done. case_bool_decide; intros; inv_ok; done. Qed.
Lemma safe_mul_Ok a b c : int64 a → int64 b → safe_mul a b = Ok c → c = a * b ∧ int64 c.
Proof.
  intros Ha Hb. pose proof (safe_mul_spec a b Ha Hb) as H.
  case_bool_decide; [rewrite H; intros; inv_ok; done|]. destruct H as [e ->]. done.
Qed.

Lemma safe_neg_Ok a c : int64 a → safe_neg a = Ok c → c = - a ∧ int64 c.
Proof.
  intros Ha. unfold safe_neg. destruct (Z.eqb_spec a int64_min); [done|].
  assert (int64 (- a)) by int_lia. rewrite to_sint_64_id by done. by intros [= <-].
Qed.

(** The checked operations are exact or throw: sum, difference, product,
    quotient and negation of two 64-bit integers return the mathematical result
    precisely when it is representable, and throw otherwise. *)
Theorem safe_exact a b :
  int64 a → int64 b →
  (∀ c, safe_add a b = Ok c ↔ c = a + b ∧ int64 c) ∧
  (∀ c, safe_sub a b = Ok c ↔ c = a - b ∧ int64 c) ∧
  (∀ c, safe_mul a b = Ok c ↔ c = a * b ∧ int64 c) ∧
  (∀ c, safe_div a b = Ok c ↔ b ≠ 0 ∧ c = Z.quot a b ∧ int64 c) ∧
  (∀ c, safe_neg a = Ok c ↔ c = - a ∧ int64 c).
Proof.
  intros Ha Hb. split_and!; intros c.
  - rewrite safe_add_spec by done. case_bool_decide; naive_solver.
  - rewrite safe_sub_spec by done. case_bool_decide; naive_solver.
  - pose proof (safe_mul_spec a b Ha Hb) as H. case_bool_decide; [rewrite H; naive_solver|].
    destruct H as [e ->]. naive_solver.
  - destruct (decide (b = 0)) as [->|Hnz]; [unfold safe_div; cbn; naive_solver|].
    pose proof (safe_div_spec a b Ha Hb Hnz) as H. case_bool_decide; rewrite H; naive_solver.
  - unfold safe_neg. destruct (Z.eqb_spec a int64_min) as [->|Hne].
    + split; [done|]. intros [-> Hr]. unfold int64, int64_min, int64_max in Hr. lia.
    + assert (int64 (- a)) by (unfold int64, int64_min, int64_max in *; lia).
      rewrite to_sint_64_id by done. naive_solver.
Qed.

Lemma safe_exact_witness :
  (∀ c, safe_add int64_max 1 = Ok c ↔ c = int64_max + 1 ∧ int64 c) ∧
  safe_add int64_max 1 = Throw overflow_exception.
Proof. split; [|reflexivity]. apply (safe_exact int64_max 1); apply (bool_decide_unpack _); exact I. Defined.
