(* ===== verification/Asset.v ===== *)
(** * Assets and prices: libraries/chain/protocol/asset.cpp and protocol/asset.hpp

    Amounts are checked 64-bit integers; a price is a ratio of two amounts, used
    by cross multiplication in 128 bits.  The 128-bit integers of this file are
    [boost::multiprecision::uint128_t]: the class [Multiprecision] has the
    operations the file uses and [MultiprecisionLaws] what it relies on, unsigned
    arithmetic modulo 2^128 on operands that are not negative.  The integers of
    the file Uint128 are an instance. *)

From S2P Require Import Prelude Safe Uint128.

Local Open Scope Z_scope.

Definition GRAPHENE_MAX_SHARE_SUPPLY : Z := 7000000000 * 100000.
Definition GRAPHENE_MAX_BITCORE_SUPPLY : Z := 1000000000000000000.

(** ** The interface of [boost::multiprecision::uint128_t] *)

Class Multiprecision (U : Type) := {
  mp_of_int64 : Z → U;
  mp_mul : U → Z → U;
  mp_add : U → Z → U;
  mp_sub : U → Z → U;
  mp_div : U → Z → U;
  mp_compare : U → U → comparison;
  mp_le_int : U → Z → bool;
  mp_to_int64 : U → Z
}.

Class MultiprecisionLaws (U : Type) `{Multiprecision U} := {
  mp_val : U → Z;
  mp_val_range u : uint 128 (mp_val u);
  mp_val_of_int64 z : 0 ≤ z → int64 z → mp_val (mp_of_int64 z) = z;
  mp_val_mul u z : 0 ≤ z → int64 z → mp_val (mp_mul u z) = (mp_val u * z) mod 2 ^ 128;
  mp_val_add u z : 0 ≤ z → int64 z → mp_val (mp_add u z) = (mp_val u + z) mod 2 ^ 128;
  mp_val_sub u z : 0 ≤ z → int64 z → mp_val (mp_sub u z) = (mp_val u - z) mod 2 ^ 128;
  mp_val_div u z : 0 < z → int64 z → mp_val (mp_div u z) = mp_val u / z;
  mp_compare_val u v : mp_compare u v = (mp_val u ?= mp_val v);
  mp_le_int_val u z : 0 ≤ z → int64 z → mp_le_int u z = (mp_val u <=? z);
  mp_to_int64_val u : mp_val u ≤ int64_max → mp_to_int64 u = mp_val u
}.

(** ** Assets *)

(** An [asset_id_type] is its instance number. *)
Record asset := mk_asset { amount : Z; asset_id : Z }.

#[export] Instance asset_eq_dec : EqDecision asset.
Proof. solve_decision. Defined.

Definition GRAPHENE_CORE_ASSET : Z := 0.
Definition null_asset : asset := mk_asset 0 GRAPHENE_CORE_ASSET.

(** [operator+=], and [operator+], which also checks the identifiers. *)
Definition asset_add (a o : asset) : result asset :=
  FC_ASSERT (asset_id a =? asset_id o) ;;
  s ← safe_add (amount a) (amount o); mret (mk_asset s (asset_id a)).
Definition asset_sub (a o : asset) : result asset :=
  FC_ASSERT (asset_id a =? asset_id o) ;;
  s ← safe_sub (amount a) (amount o); mret (mk_asset s (asset_id a)).
Definition asset_neg (a : asset) : result asset :=
  s ← safe_neg (amount a); mret (mk_asset s (asset_id a)).
Definition asset_eqb (a b : asset) : bool :=
  (asset_id a =? asset_id b) && (amount a =? amount b).
Definition asset_ltb (a b : asset) : result bool :=
  FC_ASSERT (asset_id a =? asset_id b) ;; mret (amount a <? amount b).
Definition asset_leb (a b : asset) : result bool :=
  if asset_eqb a b then Ok true else asset_ltb a b.

(** [scaled_precision], from the table of powers of ten [scaled_precision_lut]. *)
Fixpoint p10 (n : nat) : Z := match n with O => 1 | S n => 10 * p10 n end.
Definition scaled_precision_lut : list Z := p10 <$> seq 0 19.
Definition scaled_precision (precision : Z) : result Z :=
  FC_ASSERT (precision <? 19) ;;
  mret (scaled_precision_lut !!! Z.to_nat precision).

(** ** Prices *)

Record price := mk_price { base : asset; quote : asset }.

#[export] Instance price_eq_dec : EqDecision price.
Proof. solve_decision. Defined.

Definition null_price : price := mk_price null_asset null_asset.
(** [operator~]. *)
Definition price_inv (p : price) : price := mk_price (quote p) (base p).
Definition unit_price (a : Z) : price := mk_price (mk_asset 1 a) (mk_asset 1 a).

(** [operator/( asset, asset )]. *)
Definition asset_ratio (b q : asset) : result price :=
  FC_ASSERT (negb (asset_id b =? asset_id q)) ;; mret (mk_price b q).

Definition price_max (b q : Z) : result price :=
  asset_ratio (mk_asset GRAPHENE_MAX_SHARE_SUPPLY b) (mk_asset 1 q).
Definition price_min (b q : Z) : result price :=
  asset_ratio (mk_asset 1 b) (mk_asset GRAPHENE_MAX_SHARE_SUPPLY q).

Definition price_validate (p : price) : result () :=
  FC_ASSERT (0 <? amount (base p)) ;;
  FC_ASSERT (0 <? amount (quote p)) ;;
  FC_ASSERT (negb (asset_id (base p) =? asset_id (quote p))).

Definition is_zero (p : price) : bool := (amount (base p) =? 0) || (amount (quote p) =? 0).
Definition is_core (p : price) : bool := (asset_id (base p) =? 0) || (asset_id (quote p) =? 0).
Definition is_for (p : price) (a : Z) : bool := (asset_id (base p) =? a) || (asset_id (quote p) =? a).
Definition is_same_asset (p o : price) : bool :=
  (asset_id (base p) =? asset_id (base o)) && (asset_id (quote p) =? asset_id (quote o)).
Definition is_same (p o : price) : bool :=
  is_same_asset p o ||
  (asset_id (base p) =? asset_id (quote o)) && (asset_id (quote p) =? asset_id (base o)).

Section Conversion.
Context {U : Type} `{Multiprecision U}.

(** [amult] and [bmult] of the comparisons. *)
Definition cross (a b : price) : U * U :=
  (mp_mul (mp_of_int64 (amount (quote b))) (amount (base a)),
   mp_mul (mp_of_int64 (amount (quote a))) (amount (base b))).

Definition price_eqb (a b : price) : bool :=
  if negb (is_same_asset a b) then false else
  let '(amult, bmult) := cross a b in
  match mp_compare amult bmult with Eq => true | _ => false end.

Definition price_ltb (a b : price) : bool :=
  if asset_id (base a) <? asset_id (base b) then true
  else if asset_id (base b) <? asset_id (base a) then false
  else if asset_id (quote a) <? asset_id (quote b) then true
  else if asset_id (quote b) <? asset_id (quote a) then false
  else
    let '(amult, bmult) := cross a b in
    match mp_compare amult bmult with Lt => true | _ => false end.

Definition price_leb (a b : price) : bool := price_eqb a b || price_ltb a b.
Definition is_null (p : price) : bool := price_eqb p null_price.

(** One side of [operator*( asset, price )]: [a] is worth [to * a / from]. *)
Definition convert (a : asset) (from to : asset) : result asset :=
  FC_ASSERT (0 <? amount from) ;;
  let result := mp_div (mp_mul (mp_of_int64 (amount a)) (amount to)) (amount from) in
  FC_ASSERT (mp_le_int result GRAPHENE_MAX_BITCORE_SUPPLY) ;;
  mret (mk_asset (mp_to_int64 result) (asset_id to)).

(** [operator*( asset, price )]. *)
Definition asset_times_price (a : asset) (b : price) : result asset :=
  if asset_id a =? asset_id (base b) then convert a (base b) (quote b)
  else if asset_id a =? asset_id (quote b) then convert a (quote b) (base b)
  else Throw assert_exception.

Definition convert_up (a : asset) (from to : asset) : result asset :=
  FC_ASSERT (0 <? amount from) ;;
  let result :=
    mp_div (mp_sub (mp_add (mp_mul (mp_of_int64 (amount a)) (amount to)) (amount from)) 1)
      (amount from) in
  FC_ASSERT (mp_le_int result GRAPHENE_MAX_SHARE_SUPPLY) ;;
  mret (mk_asset (mp_to_int64 result) (asset_id to)).

(** [asset::multiply_and_round_up]. *)
Definition multiply_and_round_up (a : asset) (b : price) : result asset :=
  if asset_id a =? asset_id (base b) then convert_up a (base b) (quote b)
  else if asset_id a =? asset_id (quote b) then convert_up a (quote b) (base b)
  else Throw assert_exception.
End Conversion.

(** ** Price feeds *)

Record price_feed := mk_feed {
  settlement_price : price;
  maintenance_collateral_ratio : Z;
  maximum_short_squeeze_ratio : Z;
  core_exchange_rate : price
}.

Definition strippable (p : price) : bool :=
  negb (amount (base p) =? 0) && negb (amount (quote p) =? 0) &&
  (Z.rem (amount (base p)) 10 =? 0) && (Z.rem (amount (quote p)) 10 =? 0).

(** The loops of [set_pric]: [base.amount /= 10; quote.amount /= 10]. *)
Fixpoint strip_zeros (fuel : nat) (p : price) : option (result price) :=
  if strippable p then
    match fuel with
    | O => None
    | S fuel =>
        match safe_div (amount (base p)) 10, safe_div (amount (quote p)) 10 with
        | Ok b, Ok q =>
            strip_zeros fuel (mk_price (mk_asset b (asset_id (base p))) (mk_asset q (asset_id (quote p))))
        | Throw e, _ | _, Throw e => Some (Throw e)
        end
    end
  else Some (Ok p).

(** [price_feed::set_pric]; a 64-bit amount has at most 19 decimal digits. *)
Definition set_pric (f : price_feed) : option (result price_feed) :=
  match strip_zeros 19 (settlement_price f), strip_zeros 19 (core_exchange_rate f) with
  | Some (Ok sp), Some (Ok cer) =>
      Some (Ok (mk_feed sp (maintenance_collateral_ratio f) (maximum_short_squeeze_ratio f) cer))
  | Some (Throw e), _ | Some (Ok _), Some (Throw e) => Some (Throw e)
  | _, _ => None
  end.

Section Feed.
Context {U : Type} `{Multiprecision U}.

Definition feed_is_zero (f : price_feed) : bool :=
  (is_null (settlement_price f) || is_zero (settlement_price f)) ||
  (is_null (core_exchange_rate f) || is_zero (core_exchange_rate f)) ||
  (asset_id (base (settlement_price f)) =? asset_id (quote (settlement_price f))) ||
  (asset_id (base (core_exchange_rate f)) =? asset_id (quote (core_exchange_rate f))).

Definition feed_is_for (f : price_feed) (a : Z) : bool :=
  if negb (is_null (settlement_price f)) then is_for (settlement_price f) a
  else if negb (is_null (core_exchange_rate f)) then is_for (core_exchange_rate f) a
  else true.
End Feed.

(** ** Properties *)

Section Laws.
Context {U : Type} `{MultiprecisionLaws U}.

(** The product of two amounts needs 126 bits. *)
Lemma product_fits a b :
  0 ≤ a → int64 a → 0 ≤ b → int64 b →
  mp_val (mp_mul (mp_of_int64 a) b) = a * b ∧ 0 ≤ a * b < 2 ^ 126.
Proof.
  intros Ha Ha' Hb Hb'. rewrite mp_val_mul, mp_val_of_int64 by done.
  assert (0 ≤ a * b < 2 ^ 126) as Hr.
  { unfold int64, int64_max in *. change (2 ^ 126) with (2 ^ 63 * 2 ^ 63). nia. }
  split; [|done]. apply Z.mod_small. lia.
Qed.

Definition amount_ok (a : asset) : Prop := 0 ≤ amount a ∧ int64 (amount a).

Lemma convert_spec a from to :
  amount_ok a → amount_ok from → amount_ok to → 0 < amount from →
  let r := amount a * amount to / amount from in
  convert a from to =
    if r <=? GRAPHENE_MAX_BITCORE_SUPPLY then Ok (mk_asset r (asset_id to))
    else Throw assert_exception.
Proof.
  intros [Ha Ha'] [Hf Hf'] [Ht Ht'] Hpos r. unfold convert.
  destruct (product_fits (amount a) (amount to)) as [Hprod Hr]; try done.
  assert (mp_val (mp_div (mp_mul (mp_of_int64 (amount a)) (amount to)) (amount from)) = r) as Hval.
  { by rewrite mp_val_div, Hprod by (done || lia). }
  destruct (Z.ltb_spec 0 (amount from)); [|lia]. cbn [mbind result_bind FC_ASSERT].
  rewrite mp_le_int_val, Hval by (unfold int64; done).
  destruct (Z.leb_spec r GRAPHENE_MAX_BITCORE_SUPPLY); [|done]. cbn [mbind result_bind FC_ASSERT].
  rewrite mp_to_int64_val, Hval by (rewrite Hval; unfold GRAPHENE_MAX_BITCORE_SUPPLY, int64_max in *; lia).
  done.
Qed.

Lemma convert_up_spec a from to :
  amount_ok a → amount_ok from → amount_ok to → 0 < amount from →
  let r := (amount a * amount to + amount from - 1) / amount from in
  convert_up a from to =
    if r <=? GRAPHENE_MAX_SHARE_SUPPLY then Ok (mk_asset r (asset_id to))
    else Throw assert_exception.
Proof.
  intros [Ha Ha'] [Hf Hf'] [Ht Ht'] Hpos r. unfold convert_up.
  destruct (product_fits (amount a) (amount to)) as [Hprod Hr]; try done.
  assert (mp_val (mp_div (mp_sub (mp_add (mp_mul (mp_of_int64 (amount a)) (amount to)) (amount from)) 1)
    (amount from)) = r) as Hval.
  { rewrite mp_val_div, mp_val_sub, mp_val_add, Hprod by (done || lia).
    unfold int64, int64_max in *.
    rewrite (Z.mod_small (_ + _)), Z.mod_small by lia. done. }
  destruct (Z.ltb_spec 0 (amount from)); [|lia]. cbn [mbind result_bind FC_ASSERT].
  rewrite mp_le_int_val, Hval by (unfold int64; done).
  destruct (Z.leb_spec r GRAPHENE_MAX_SHARE_SUPPLY); [|done]. cbn [mbind result_bind FC_ASSERT].
  rewrite mp_to_int64_val, Hval by (rewrite Hval; unfold GRAPHENE_MAX_SHARE_SUPPLY, int64_max in *; lia).
  done.
Qed.

Definition price_ok (p : price) : Prop :=
  0 < amount (base p) ∧ int64 (amount (base p)) ∧ 0 < amount (quote p) ∧ int64 (amount (quote p)) ∧
  asset_id (base p) ≠ asset_id (quote p).

(** Converting an amount at a valid price is exact rational arithmetic:
    [a * p] is the quotient rounded down, [multiply_and_round_up] the quotient
    rounded up, and they throw precisely when the result exceeds the supply bound
    or the asset is not of the price; no intermediate product wraps. *)
Theorem conversion_exact a p :
  amount_ok a → price_ok p →
  let floor n d := n / d in let ceil n d := (n + d - 1) / d in
  let sides :=
    if asset_id a =? asset_id (base p) then Some (base p, quote p)
    else if asset_id a =? asset_id (quote p) then Some (quote p, base p) else None in
  match sides with
  | None => asset_times_price a p = Throw assert_exception ∧
            multiply_and_round_up a p = Throw assert_exception
  | Some (from, to) =>
      let n := amount a * amount to in
      asset_times_price a p =
        (if floor n (amount from) <=? GRAPHENE_MAX_BITCORE_SUPPLY
         then Ok (mk_asset (floor n (amount from)) (asset_id to)) else Throw assert_exception) ∧
      multiply_and_round_up a p =
        (if ceil n (amount from) <=? GRAPHENE_MAX_SHARE_SUPPLY
         then Ok (mk_asset (ceil n (amount from)) (asset_id to)) else Throw assert_exception)
  end.
Proof.
  intros Ha (Hb & Hb' & Hq & Hq' & _). cbv zeta. unfold asset_times_price, multiply_and_round_up.
  assert (amount_ok (base p) ∧ amount_ok (quote p)) as [Hob Hoq] by (unfold amount_ok; lia || auto with lia).
  repeat destruct (_ =? _); rewrite ?convert_spec, ?convert_up_spec by done; done.
Qed.

(** The two sides of a price, from the side of the asset [a]. *)
Definition sided (a : asset) (p : price) (from to : asset) : Prop :=
  asset_id a = asset_id from ∧ (from = base p ∧ to = quote p ∨ from = quote p ∧ to = base p).

Lemma sided_unique a p f t f' t' :
  price_ok p → sided a p f t → sided a p f' t' → f = f' ∧ t = t'.
Proof. intros (_ & _ & _ & _ & ?) [? [[-> ->]|[-> ->]]] [? [[-> ->]|[-> ->]]]; done || congruence. Qed.

Lemma sided_ok a p f t :
  price_ok p → sided a p f t → 0 < amount f ∧ amount_ok f ∧ 0 < amount t ∧ amount_ok t.
Proof. unfold price_ok, amount_ok. intros ? [? [[-> ->]|[-> ->]]]; lia || (split_and!; lia || tauto). Qed.

Lemma times_price_inv a p b :
  amount_ok a → price_ok p → asset_times_price a p = Ok b →
  ∃ f t, sided a p f t ∧ b = mk_asset (amount a * amount t / amount f) (asset_id t) ∧ amount_ok b.
Proof.
  intros Ha Hp Hab. assert (∃ f t, sided a p f t ∧ convert a f t = Ok b) as (f & t & Hs & Hc).
  { unfold asset_times_price in Hab.
    destruct (Z.eqb_spec (asset_id a) (asset_id (base p))); [eexists _, _; split; [|done]; unfold sided; auto|].
    destruct (Z.eqb_spec (asset_id a) (asset_id (quote p))); [eexists _, _; split; [|done]; unfold sided; auto|done]. }
  destruct (sided_ok _ _ _ _ Hp Hs) as (Hf0 & Hf & Ht0 & Ht).
  rewrite convert_spec in Hc by done. destruct (Z.leb_spec (amount a * amount t / amount f)
    GRAPHENE_MAX_BITCORE_SUPPLY) as [Hle|]; [|done]. injection Hc as <-.
  exists f, t. split_and!; [done|done|]. unfold amount_ok, int64, int64_min, int64_max in *. cbn.
  assert (0 ≤ amount a * amount t / amount f) by (apply Z.div_pos; nia).
  unfold GRAPHENE_MAX_BITCORE_SUPPLY in Hle. lia.
Qed.

Lemma round_up_inv a p b :
  amount_ok a → price_ok p → multiply_and_round_up a p = Ok b →
  ∃ f t, sided a p f t ∧
    b = mk_asset ((amount a * amount t + amount f - 1) / amount f) (asset_id t) ∧ amount_ok b.
Proof.
  intros Ha Hp Hab. assert (∃ f t, sided a p f t ∧ convert_up a f t = Ok b) as (f & t & Hs & Hc).
  { unfold multiply_and_round_up in Hab.
    destruct (Z.eqb_spec (asset_id a) (asset_id (base p))); [eexists _, _; split; [|done]; unfold sided; auto|].
    destruct (Z.eqb_spec (asset_id a) (asset_id (quote p))); [eexists _, _; split; [|done]; unfold sided; auto|done]. }
  destruct (sided_ok _ _ _ _ Hp Hs) as (Hf0 & Hf & Ht0 & Ht).
  rewrite convert_up_spec in Hc by done.
  destruct (Z.leb_spec ((amount a * amount t + amount f - 1) / amount f)
    GRAPHENE_MAX_SHARE_SUPPLY) as [Hle|]; [|done]. injection Hc as <-.
  exists f, t. split_and!; [done|done|]. unfold amount_ok, int64, int64_min, int64_max in *. cbn.
  assert (0 ≤ (amount a * amount t + amount f - 1) / amount f) by (apply Z.div_pos; nia).
  unfold GRAPHENE_MAX_SHARE_SUPPLY in Hle. lia.
Qed.

(** Converting back swaps the sides. *)
Lemma sided_back a p f t b f' t' :
  price_ok p → sided a p f t → asset_id b = asset_id t → sided b p f' t' → f' = t ∧ t' = f.
Proof.
  intros Hp [Ha Hs] Hb Hs'. apply (sided_unique b p); [done|done|].
  split; [done|]. tauto.
Qed.

(** C30: no pair of conversions makes money: what an amount is worth, converted
    back at the same price, is never more than the amount, and the rounded-up
    worth of an amount is enough to buy the amount back. *)
Theorem conversion_no_gain a p b c :
  amount_ok a → price_ok p → asset_times_price b p = Ok c →
  (asset_times_price a p = Ok b → asset_id c = asset_id a ∧ amount c ≤ amount a) ∧
  (multiply_and_round_up a p = Ok b → asset_id c = asset_id a ∧ amount a ≤ amount c).
Proof.
  intros Ha Hp Hbc. split; intros Hab.
  - apply times_price_inv in Hab as (f & t & Hs & Hb & Hbok); [|done|done].
    apply times_price_inv in Hbc as (f' & t' & Hs' & -> & _); [|done|done].
    destruct (sided_back a p f t b f' t' Hp Hs ltac:(by rewrite Hb) Hs') as [-> ->].
    destruct (sided_ok _ _ _ _ Hp Hs) as (Hf0 & _ & Ht0 & _). cbn.
    split; [by destruct Hs as [-> _]|]. subst b. cbn.
    apply Z.div_le_upper_bound; [done|].
    pose proof (Z.mul_div_le (amount a * amount t) (amount f) Hf0). lia.
  - apply round_up_inv in Hab as (f & t & Hs & Hb & Hbok); [|done|done].
    apply times_price_inv in Hbc as (f' & t' & Hs' & -> & _); [|done|done].
    destruct (sided_back a p f t b f' t' Hp Hs ltac:(by rewrite Hb) Hs') as [-> ->].
    destruct (sided_ok _ _ _ _ Hp Hs) as (Hf0 & _ & Ht0 & _). cbn.
    split; [by destruct Hs as [-> _]|]. subst b. cbn.
    apply Z.div_le_lower_bound; [done|].
    pose proof (Z.div_mod (amount a * amount t + amount f - 1) (amount f) ltac:(lia)).
    pose proof (Z.mod_pos_bound (amount a * amount t + amount f - 1) (amount f) Hf0). lia.
Qed.

(** ** The order of prices *)

Lemma price_cmp a b :
  price_ok a → price_ok b →
  price_eqb a b = is_same_asset a b &&
    (amount (base a) * amount (quote b) =? amount (base b) * amount (quote a)) ∧
  (is_same_asset a b = true →
    price_ltb a b = (amount (base a) * amount (quote b) <? amount (base b) * amount (quote a))).
Proof.
  intros (Ha1 & Ha2 & Ha3 & Ha4 & _) (Hb1 & Hb2 & Hb3 & Hb4 & _).
  unfold price_eqb, price_ltb, cross.
  rewrite mp_compare_val.
  destruct (product_fits (amount (quote b)) (amount (base a))) as [-> _]; try (done || lia).
  destruct (product_fits (amount (quote a)) (amount (base b))) as [-> _]; try (done || lia).
  split.
  - destruct (is_same_asset a b); cbn [negb andb]; [|done].
    destruct (Z.compare_spec (amount (quote b) * amount (base a)) (amount (quote a) * amount (base b))); lia.
  - unfold is_same_asset. intros Hs.
    destruct (Z.ltb_spec (asset_id (base a)) (asset_id (base b))); [lia|].
    destruct (Z.ltb_spec (asset_id (base b)) (asset_id (base a))); [lia|].
    destruct (Z.ltb_spec (asset_id (quote a)) (asset_id (quote b))); [lia|].
    destruct (Z.ltb_spec (asset_id (quote b)) (asset_id (quote a))); [lia|].
    destruct (Z.compare_spec (amount (quote b) * amount (base a)) (amount (quote a) * amount (base b))); lia.
Qed.

(** The value of the comparison: identifiers first, then the ratios. *)
Definition price_lt (a b : price) : Prop :=
  asset_id (base a) < asset_id (base b) ∨
  asset_id (base a) = asset_id (base b) ∧
    (asset_id (quote a) < asset_id (quote b) ∨
     asset_id (quote a) = asset_id (quote b) ∧
       amount (base a) * amount (quote b) < amount (base b) * amount (quote a)).

Lemma price_ltb_iff a b : price_ok a → price_ok b → price_ltb a b = true ↔ price_lt a b.
Proof.
  intros Ha Hb. destruct (price_cmp a b Ha Hb) as [_ Hcmp]. unfold price_lt.
  unfold is_same_asset in Hcmp.
  destruct (decide (asset_id (base a) = asset_id (base b) ∧ asset_id (quote a) = asset_id (quote b)))
    as [[? ?]|Hne].
  - rewrite Hcmp by lia. lia.
  - unfold price_ltb.
    destruct (Z.ltb_spec (asset_id (base a)) (asset_id (base b))); [lia|].
    destruct (Z.ltb_spec (asset_id (base b)) (asset_id (base a))); [lia|].
    destruct (Z.ltb_spec (asset_id (quote a)) (asset_id (quote b))); [lia|].
    destruct (Z.ltb_spec (asset_id (quote b)) (asset_id (quote a))); lia.
Qed.

Lemma cross_trans a1 a2 b1 b2 c1 c2 :
  0 < a2 → 0 < b2 → 0 < c2 → a1 * b2 < b1 * a2 → b1 * c2 < c1 * b2 → a1 * c2 < c1 * a2.
Proof. intros. apply (Z.mul_lt_mono_pos_r b2); [done|]. nia. Qed.

(** On valid prices [<] is a strict order that agrees with [==]: it is
    irreflexive and transitive, exactly one of [a < b], [a == b], [b < a] holds,
    and between prices of the same two assets it compares the ratios. *)
Theorem price_order a b c :
  price_ok a → price_ok b → price_ok c →
  price_ltb a a = false ∧
  (price_ltb a b = true → price_ltb b c = true → price_ltb a c = true) ∧
  price_eqb a b = negb (price_ltb a b || price_ltb b a) ∧
  price_ltb a b && price_ltb b a = false ∧
  (is_same_asset a b = true →
    price_ltb a b = (amount (base a) * amount (quote b) <? amount (base b) * amount (quote a))).
Proof.
  intros Ha Hb Hc.
  pose proof (price_ltb_iff a a Ha Ha) as Haa. pose proof (price_ltb_iff a b Ha Hb) as Hab.
  pose proof (price_ltb_iff b a Hb Ha) as Hba. destruct (price_cmp a b Ha Hb) as [Heq Hlt].
  split_and!; [| | | |done].
  - apply not_true_is_false. rewrite Haa. unfold price_lt. lia.
  - rewrite !price_ltb_iff by done. unfold price_lt, price_ok in *.
    pose proof (cross_trans (amount (base a)) (amount (quote a)) (amount (base b)) (amount (quote b))
      (amount (base c)) (amount (quote c))). intuition lia.
  - rewrite Heq. unfold is_same_asset, price_lt in *.
    destruct (price_ltb a b), (price_ltb b a); cbn [orb negb]; intuition lia.
  - unfold price_lt in *. destruct (price_ltb a b), (price_ltb b a); cbn [andb]; try done.
    intuition lia.
Qed.
End Laws.

(** ** Stripping the common zeros of a feed *)

Lemma strip_zeros_spec fuel p :
  int64 (amount (base p)) → int64 (amount (quote p)) →
  Z.abs (amount (base p)) < 10 ^ Z.of_nat fuel →
  ∃ p' k, strip_zeros fuel p = Some (Ok p') ∧ strippable p' = false ∧ 0 ≤ k ∧
    amount (base p) = amount (base p') * 10 ^ k ∧ amount (quote p) = amount (quote p') * 10 ^ k ∧
    is_same_asset p p' = true.
Proof.
  assert (∀ p, is_same_asset p p = true) as Hrefl.
  { intros q. unfold is_same_asset. by rewrite !Z.eqb_refl. }
  revert p. induction fuel as [|fuel IH]; intros p Hb Hq Hf; cbn [strip_zeros].
  - assert (strippable p = false) as -> by (unfold strippable; simpl in Hf; lia).
    exists p, 0. rewrite !Z.mul_1_r. split_and!; done || (unfold strippable; simpl in Hf; lia) || auto.
  - destruct (strippable p) eqn:Hs.
    + unfold strippable in Hs.
      assert (amount (base p) ≠ 0 ∧ amount (quote p) ≠ 0 ∧
        Z.rem (amount (base p)) 10 = 0 ∧ Z.rem (amount (quote p)) 10 = 0) as (Hb0 & Hq0 & Hbr & Hqr) by lia.
      pose proof (Z.quot_rem (amount (base p)) 10 ltac:(lia)) as Hbq.
      pose proof (Z.quot_rem (amount (quote p)) 10 ltac:(lia)) as Hqq.
      assert (∀ x, int64 x → int64 (Z.quot x 10)) as Hr.
      { unfold int64, int64_min, int64_max. intros x Hx. Z.to_euclidean_division_equations. lia. }
      unfold safe_div. rewrite !andb_false_r. cbn [Z.eqb].
      destruct (IH (mk_price (mk_asset (Z.quot (amount (base p)) 10) (asset_id (base p)))
        (mk_asset (Z.quot (amount (quote p)) 10) (asset_id (quote p))))) as (p' & k & -> & Hs' & Hk & H1 & H2 & H3).
      { cbn. by apply Hr. } { cbn. by apply Hr. }
      { cbn. rewrite Nat2Z.inj_succ, Z.pow_succ_r in Hf by lia. lia. }
      cbn [base quote amount] in H1, H2. exists p', (k + 1).
      rewrite Z.pow_add_r by lia. split_and!; [done|done|lia|lia|lia|done].
    + exists p, 0. rewrite !Z.mul_1_r. split_and!; done || auto.
Qed.

(** [set_pric] ends and keeps both prices of the feed: each is divided by a
    power of ten common to its two amounts, until one of them is not divisible
    by ten any more. *)
Theorem set_pric_normalizes f :
  int64 (amount (base (settlement_price f))) → int64 (amount (quote (settlement_price f))) →
  int64 (amount (base (core_exchange_rate f))) → int64 (amount (quote (core_exchange_rate f))) →
  ∃ f', set_pric f = Some (Ok f') ∧
    maintenance_collateral_ratio f' = maintenance_collateral_ratio f ∧
    maximum_short_squeeze_ratio f' = maximum_short_squeeze_ratio f ∧
    ∀ side, side = settlement_price ∨ side = core_exchange_rate →
      strippable (side f') = false ∧ is_same_asset (side f) (side f') = true ∧
      ∃ k, 0 ≤ k ∧ amount (base (side f)) = amount (base (side f')) * 10 ^ k ∧
           amount (quote (side f)) = amount (quote (side f')) * 10 ^ k.
Proof.
  intros H1 H2 H3 H4. unfold set_pric.
  assert (∀ x, int64 x → Z.abs x < 10 ^ Z.of_nat 19) as Hfuel.
  { intros x. change (10 ^ Z.of_nat 19) with 10000000000000000000.
    unfold int64, int64_min, int64_max. lia. }
  destruct (strip_zeros_spec 19 (settlement_price f)) as (sp & k & -> & Hs & Hk & Hb & Hq & Hi); auto.
  destruct (strip_zeros_spec 19 (core_exchange_rate f)) as (cer & k' & -> & Hs' & Hk' & Hb' & Hq' & Hi');
    auto.
  eexists. split_and!; [done|done|done|].
  intros side [-> | ->]; cbn [settlement_price core_exchange_rate]; split_and!; eauto.
Qed.

(** ** The integers of [fc::uint128] are such integers *)

Definition checked128 : Type := { u : uint128 | bool_decide (wf128 u) }.

#[export] Instance wf128_dec u : Decision (wf128 u).
Proof. unfold wf128. apply _. Defined.

Definition clip128 (u : uint128) : uint128 := mk128 (to_uint 64 (hi u)) (to_uint 64 (lo u)).

Lemma clip128_wf u : wf128 (clip128 u).
Proof. apply wf_to_uint. Qed.
Lemma clip128_id u : wf128 u → clip128 u = u.
Proof. destruct u. intros [Hh Hl]. unfold clip128. cbn in *. by rewrite !to_uint_id. Qed.

Definition check128 (u : uint128) : checked128 := dexist (clip128 u) (clip128_wf u).
Definition raw (u : checked128) : uint128 := proj1_sig u.
#[export] Instance fc_multiprecision : Multiprecision checked128 := {
  mp_of_int64 z := check128 (of_int64 z);
  mp_mul u z := check128 (mul128 (raw u) (of_int64 z));
  mp_add u z := check128 (add128 (raw u) (of_int64 z));
  mp_sub u z := check128 (sub128 (raw u) (of_int64 z));
  mp_div u z := check128 (div128 (raw u) (of_int64 z));
  mp_compare u v := if eq128 (raw u) (raw v) then Eq else if lt128 (raw u) (raw v) then Lt else Gt;
  mp_le_int u z := ge128 (of_int64 z) (raw u);
  mp_to_int64 u := to_sint 64 (lo (raw u))
}.

Lemma val_check128 u : wf128 u → val (raw (check128 u)) = val u.
Proof. intros Hu. cbn. by rewrite clip128_id. Qed.

Lemma checked_wf (u : checked128) : wf128 (raw u).
Proof. destruct u as [u Hu]. exact (bool_decide_unpack _ Hu). Qed.

Lemma checked_op (op : uint128 → uint128 → uint128) (f : Z → Z → Z) (u : checked128) z :
  (∀ a b, wf128 a → wf128 b → wf128 (op a b) ∧ val (op a b) = f (val a) (val b)) →
  0 ≤ z → int64 z → val (raw (check128 (op (raw u) (of_int64 z)))) = f (val (raw u)) z.
Proof.
  intros Hop Hz Hz'. destruct (of_int64_spec z Hz Hz') as [Hw Hv].
  destruct (Hop (raw u) (of_int64 z) (checked_wf u) Hw) as [Hw' Hv'].
  by rewrite val_check128, Hv', Hv.
Qed.

#[export] Instance fc_multiprecision_laws : MultiprecisionLaws checked128.
Proof.
  refine {| mp_val := λ u : checked128, val (raw u) |}.
  - intros u. apply val_range, checked_wf.
  - intros z Hz Hz'. destruct (of_int64_spec z Hz Hz') as [Hw Hv].
    unfold mp_of_int64, fc_multiprecision. by rewrite val_check128.
  - intros u z. apply (checked_op mul128 (λ a b, (a * b) mod 2 ^ 128)). apply mul128_spec.
  - intros u z. apply (checked_op add128 (λ a b, (a + b) mod 2 ^ 128)). apply add128_spec.
  - intros u z. apply (checked_op sub128 (λ a b, (a - b) mod 2 ^ 128)). apply sub128_spec.
  - intros u z Hz Hz'. destruct (of_int64_spec z ltac:(lia) Hz') as [Hw Hv].
    unfold mp_div, fc_multiprecision.
    rewrite val_check128, div128_val, Hv by (try apply div128_wf; done || apply checked_wf || lia). done.
  - intros u v. unfold mp_compare, fc_multiprecision.
    rewrite eq128_spec, lt128_spec by apply checked_wf.
    destruct (Z.eqb_spec (val (raw u)) (val (raw v))) as [->|]; [by rewrite Z.compare_refl|].
    destruct (Z.ltb_spec (val (raw u)) (val (raw v))); [by rewrite (proj2 (Z.compare_lt_iff _ _))|].
    symmetry. apply Z.compare_gt_iff. lia.
  - intros u z Hz Hz'. destruct (of_int64_spec z Hz Hz') as [Hw Hv].
    unfold mp_le_int, fc_multiprecision. by rewrite ge128_spec, Hv by (done || apply checked_wf).
  - intros u Hu. unfold mp_to_int64, fc_multiprecision. destruct (checked_wf u) as [Hh Hl].
    unfold val, uint, int64_max in *. assert (hi (raw u) = 0) as Hz by lia.
    rewrite Hz, Z.mul_0_l, Z.add_0_l in *. apply to_sint_64_id.
    unfold int64, int64_min, int64_max. lia.
Defined.

(** ** Witnesses *)

Definition demo_price : price := mk_price (mk_asset 1000 0) (mk_asset 30 1).

Lemma demo_price_ok : price_ok demo_price.
Proof. unfold price_ok, int64. simpl. unfold int64_min, int64_max. lia. Qed.
Lemma demo_amount_ok : amount_ok (mk_asset 777 0).
Proof. unfold amount_ok, int64. simpl. unfold int64_min, int64_max. lia. Qed.

Lemma conversion_exact_witness :
  asset_times_price (U := checked128) (mk_asset 777 0) demo_price = Ok (mk_asset 23 1) ∧
  multiply_and_round_up (U := checked128) (mk_asset 777 0) demo_price = Ok (mk_asset 24 1).
Proof. exact (conversion_exact (U := checked128) (mk_asset 777 0) demo_price demo_amount_ok demo_price_ok). Defined.

Lemma conversion_no_gain_witness :
  asset_times_price (U := checked128) (mk_asset 777 0) demo_price = Ok (mk_asset 23 1) ∧
  asset_times_price (U := checked128) (mk_asset 23 1) demo_price = Ok (mk_asset 766 0) ∧
  766 ≤ 777.
Proof.
  assert (asset_times_price (U := checked128) (mk_asset 777 0) demo_price = Ok (mk_asset 23 1)) as H1
    by (by vm_compute).
  assert (asset_times_price (U := checked128) (mk_asset 23 1) demo_price = Ok (mk_asset 766 0)) as H2
    by (by vm_compute).
  split; [exact H1|]. split; [exact H2|].
  exact (proj2 (proj1 (conversion_no_gain (U := checked128) (mk_asset 777 0) demo_price _ _
    demo_amount_ok demo_price_ok H2) H1)).
Defined.

Lemma price_order_witness :
  price_ltb (U := checked128) demo_price demo_price = false.
Proof. exact (proj1 (price_order (U := checked128) _ _ _ demo_price_ok demo_price_ok demo_price_ok)). Defined.

Definition demo_feed : price_feed := mk_feed demo_price 1750 1100 demo_price.

Lemma set_pric_normalizes_witness :
  ∃ f', set_pric demo_feed = Some (Ok f') ∧ maintenance_collateral_ratio f' = 1750.
Proof.
  destruct (set_pric_normalizes demo_feed) as (f' & H1 & H2 & _);
    try (apply (bool_decide_unpack _); exact I).
  exists f'. split; [exact H1|exact H2].
Defined.
