(* ===== verification/Vesting.v ===== *)
(** * Vesting balances: libraries/chain/vesting_balance_object.cpp

    The two vesting policies and the balance they guard.  Times are seconds since
    the epoch ([uint32_t]); coin seconds are 128-bit integers. *)

From S2P Require Import Prelude Safe Uint128 Asset.

Local Open Scope Z_scope.

Record vesting_policy_context := mk_ctx { balance : asset; now : Z; ctx_amount : asset }.

Record linear_vesting_policy := mk_linear {
  begin_timestamp : Z;
  vesting_cliff_seconds : Z;
  vesting_duration_seconds : Z;
  begin_balance : Z
}.

Record cdd_vesting_policy := mk_cdd {
  vesting_seconds : Z;
  coin_seconds_earned : uint128;
  start_claim : Z;
  coin_seconds_earned_last_update : Z
}.

(** The static variant [vesting_policy]. *)
Inductive vesting_policy :=
  | linear (p : linear_vesting_policy)
  | cdd (p : cdd_vesting_policy).

Definition sum_below_max_shares (a b : asset) : result bool :=
  FC_ASSERT (GRAPHENE_MAX_SHARE_SUPPLY <?
    to_sint 64 (GRAPHENE_MAX_SHARE_SUPPLY + GRAPHENE_MAX_SHARE_SUPPLY)) ;;
  if negb (amount a <=? GRAPHENE_MAX_SHARE_SUPPLY) then Ok false
  else if negb (amount b <=? GRAPHENE_MAX_SHARE_SUPPLY) then Ok false
  else s ← safe_add (amount a) (amount b); mret (s <=? GRAPHENE_MAX_SHARE_SUPPLY).

(** The body of both [is_deposit_allowed]. *)
Definition is_deposit_allowed_ctx (ctx : vesting_policy_context) : result bool :=
  if asset_id (ctx_amount ctx) =? asset_id (balance ctx)
  then sum_below_max_shares (ctx_amount ctx) (balance ctx)
  else Ok false.

Section Policies.
Context `{Division128}.

(** ** [linear_vesting_policy] *)

Definition linear_total_vested (p : linear_vesting_policy) (elapsed : Z) : result Z :=
  if elapsed <? vesting_duration_seconds p then
    v ← to_uint64 (div128 (mul128 (of_int64 (begin_balance p)) (of_int64 elapsed))
                          (of_uint64 (vesting_duration_seconds p)));
    mret (to_sint 64 v)
  else mret (begin_balance p).

Definition linear_get_allowed_withdraw (p : linear_vesting_policy) (ctx : vesting_policy_context)
    : result asset :=
  allowed_withdraw ←
    (if begin_timestamp p <? now ctx then
       let elapsed_seconds := now ctx - begin_timestamp p in
       FC_ASSERT (0 <? elapsed_seconds) ;;
       if vesting_cliff_seconds p <=? elapsed_seconds then
         total_vested ← linear_total_vested p elapsed_seconds;
         FC_ASSERT (0 <=? total_vested) ;;
         withdrawn_already ← safe_sub (begin_balance p) (amount (balance ctx));
         FC_ASSERT (0 <=? withdrawn_already) ;;
         a ← safe_sub total_vested withdrawn_already;
         FC_ASSERT (0 <=? a) ;;
         mret a
       else mret 0
     else mret 0);
  mret (mk_asset allowed_withdraw (asset_id (balance ctx))).

Definition linear_is_withdraw_allowed (p : linear_vesting_policy) (ctx : vesting_policy_context)
    : result bool :=
  if asset_id (ctx_amount ctx) =? asset_id (balance ctx) then
    a ← linear_get_allowed_withdraw p ctx; asset_leb (ctx_amount ctx) a
  else Ok false.

(** ** [cdd_vesting_policy] *)

(** [std::max(vesting_seconds, 1u)]. *)
Definition seconds_at_least_1 (p : cdd_vesting_policy) : Z := Z.max (vesting_seconds p) 1.

Definition compute_coin_seconds_earned (p : cdd_vesting_policy) (ctx : vesting_policy_context)
    : result uint128 :=
  FC_ASSERT (coin_seconds_earned_last_update p <=? now ctx) ;;
  let delta_seconds := now ctx - coin_seconds_earned_last_update p in
  FC_ASSERT (0 <=? delta_seconds) ;;
  let delta_coin_seconds := mul128 (of_int64 (amount (balance ctx))) (of_int64 delta_seconds) in
  let coin_seconds_earned_cap :=
    mul128 (of_int64 (amount (balance ctx))) (of_uint64 (seconds_at_least_1 p)) in
  mret (min128 (add128 (coin_seconds_earned p) delta_coin_seconds) coin_seconds_earned_cap).

Definition update_coin_seconds_earned (ctx : vesting_policy_context) (p : cdd_vesting_policy)
    : result cdd_vesting_policy :=
  cs ← compute_coin_seconds_earned p ctx;
  mret (mk_cdd (vesting_seconds p) cs (start_claim p) (now ctx)).

Definition cdd_get_allowed_withdraw (p : cdd_vesting_policy) (ctx : vesting_policy_context)
    : result asset :=
  if now ctx <=? start_claim p then Ok (mk_asset 0 (asset_id (balance ctx))) else
  cs_earned ← compute_coin_seconds_earned p ctx;
  let withdraw_available := div128 cs_earned (of_uint64 (seconds_at_least_1 p)) in
  FC_ASSERT (le128 withdraw_available (of_int64 (amount (balance ctx)))) ;;
  v ← to_uint64 withdraw_available;
  mret (mk_asset (to_sint 64 v) (asset_id (balance ctx))).

Definition cdd_on_deposit := update_coin_seconds_earned.

(** The product [ctx.amount.amount.value * std::max(vesting_seconds, 1u)] is
    computed in [int64_t]: it is reduced to 64 bits where it overflows. *)
Definition cdd_on_deposit_vested (ctx : vesting_policy_context) (p : cdd_vesting_policy)
    : result cdd_vesting_policy :=
  p ← cdd_on_deposit ctx p;
  let earned := to_sint 64 (amount (ctx_amount ctx) * seconds_at_least_1 p) in
  mret (mk_cdd (vesting_seconds p) (add128 (coin_seconds_earned p) (of_int64 earned))
          (start_claim p) (coin_seconds_earned_last_update p)).

(** The end of [on_withdraw], on the updated policy. *)
Definition spend_coin_seconds (ctx : vesting_policy_context) (p : cdd_vesting_policy)
    : result cdd_vesting_policy :=
  let coin_seconds_needed :=
    mul128 (of_int64 (amount (ctx_amount ctx))) (of_uint64 (seconds_at_least_1 p)) in
  FC_ASSERT (le128 coin_seconds_needed (coin_seconds_earned p)) ;;
  mret (mk_cdd (vesting_seconds p) (sub128 (coin_seconds_earned p) coin_seconds_needed)
          (start_claim p) (coin_seconds_earned_last_update p)).

Definition cdd_on_withdraw (ctx : vesting_policy_context) (p : cdd_vesting_policy)
    : result cdd_vesting_policy :=
  p ← update_coin_seconds_earned ctx p; spend_coin_seconds ctx p.

Definition cdd_is_withdraw_allowed (p : cdd_vesting_policy) (ctx : vesting_policy_context)
    : result bool :=
  a ← cdd_get_allowed_withdraw p ctx; asset_leb (ctx_amount ctx) a.

(** ** [vesting_balance_object]: the visitors and the operations *)

Record vesting_balance_object := mk_vbo {
  owner : Z;
  from : Z;
  vb_balance : asset;
  policy : vesting_policy;
  bautoremove : bool
}.

Definition on_deposit (p : vesting_policy) (ctx : vesting_policy_context) : result vesting_policy :=
  match p with linear p => Ok (linear p) | cdd p => cdd <$> cdd_on_deposit ctx p end.
Definition on_deposit_vested (p : vesting_policy) (ctx : vesting_policy_context)
    : result vesting_policy :=
  match p with linear _ => Throw other_exception | cdd p => cdd <$> cdd_on_deposit_vested ctx p end.
Definition on_withdraw (p : vesting_policy) (ctx : vesting_policy_context) : result vesting_policy :=
  match p with linear p => Ok (linear p) | cdd p => cdd <$> cdd_on_withdraw ctx p end.

Definition set_vesting (v : vesting_balance_object) (b : asset) (p : vesting_policy) :=
  mk_vbo (owner v) (from v) b p (bautoremove v).

Definition is_deposit_allowed (v : vesting_balance_object) (t : Z) (a : asset) : result bool :=
  is_deposit_allowed_ctx (mk_ctx (vb_balance v) t a).
Definition is_deposit_vested_allowed (v : vesting_balance_object) (t : Z) (a : asset) : result bool :=
  match policy v with
  | linear _ => Ok false
  | cdd _ => is_deposit_allowed_ctx (mk_ctx (vb_balance v) t a)
  end.

Definition is_withdraw_allowed (v : vesting_balance_object) (t : Z) (a : asset) : result bool :=
  let ctx := mk_ctx (vb_balance v) t a in
  result ← match policy v with
           | linear p => linear_is_withdraw_allowed p ctx
           | cdd p => cdd_is_withdraw_allowed p ctx
           end;
  le ← asset_leb a (vb_balance v);
  FC_ASSERT (le || negb result) ;;
  mret result.

Definition deposit (t : Z) (a : asset) (v : vesting_balance_object) : result vesting_balance_object :=
  p ← on_deposit (policy v) (mk_ctx (vb_balance v) t a);
  b ← asset_add (vb_balance v) a;
  mret (set_vesting v b p).

Definition deposit_vested (t : Z) (a : asset) (v : vesting_balance_object)
    : result vesting_balance_object :=
  p ← on_deposit_vested (policy v) (mk_ctx (vb_balance v) t a);
  b ← asset_add (vb_balance v) a;
  mret (set_vesting v b p).

Definition withdraw (t : Z) (a : asset) (v : vesting_balance_object) : result vesting_balance_object :=
  le ← asset_leb a (vb_balance v);
  FC_ASSERT le ;;
  p ← on_withdraw (policy v) (mk_ctx (vb_balance v) t a);
  b ← asset_sub (vb_balance v) a;
  mret (set_vesting v b p).

Definition get_allowed_withdraw (v : vesting_balance_object) (t : Z) : result asset :=
  let ctx := mk_ctx (vb_balance v) t null_asset in
  match policy v with
  | linear p => linear_get_allowed_withdraw p ctx
  | cdd p => cdd_get_allowed_withdraw p ctx
  end.
End Policies.

(** ** Coin-days-destroyed vesting *)

#[local] Opaque mul128 add128 sub128 min128.

Section Cdd.
Context `{Division128}.

(** A well-formed policy over a balance of [b]: the coin seconds earned never
    exceed the cap that lets the whole balance be withdrawn. *)
Definition cdd_ok (p : cdd_vesting_policy) (b : Z) : Prop :=
  wf128 (coin_seconds_earned p) ∧ uint 32 (vesting_seconds p) ∧ 0 ≤ b ∧ int64 b ∧
  val (coin_seconds_earned p) ≤ b * seconds_at_least_1 p.

(** The coin seconds at time [t]. *)
Definition earned_at (p : cdd_vesting_policy) (b t : Z) : Z :=
  Z.min (val (coin_seconds_earned p) + b * (t - coin_seconds_earned_last_update p))
        (b * seconds_at_least_1 p).

Definition time_ok (p : cdd_vesting_policy) (t : Z) : Prop :=
  0 ≤ coin_seconds_earned_last_update p ≤ t ∧ uint 32 t.

Lemma seconds_range p b : cdd_ok p b → 1 ≤ seconds_at_least_1 p < 2 ^ 32.
Proof. unfold cdd_ok, seconds_at_least_1, uint. lia. Qed.

Lemma amount_times_seconds a s :
  0 ≤ a → int64 a → 0 ≤ s < 2 ^ 32 →
  wf128 (mul128 (of_int64 a) (of_uint64 s)) ∧ val (mul128 (of_int64 a) (of_uint64 s)) = a * s ∧
  a * s < 2 ^ 95.
Proof.
  intros Ha Ha' Hs. destruct (of_int64_spec a Ha Ha') as [Hw Hv].
  destruct (mul128_spec (of_int64 a) (of_uint64 s) Hw) as [Hm Hmv].
  { apply wf_of_uint64. unfold uint. lia. }
  assert (a * s < 2 ^ 95) as Hlt.
  { unfold int64, int64_max in Ha'. change (2 ^ 95) with (2 ^ 63 * 2 ^ 32). nia. }
  split; [done|]. rewrite Hmv, Hv, val_of_uint64. split; [|done].
  apply Z.mod_small. split; [nia|]. change (2 ^ 128) with (2 ^ 95 * 2 ^ 33). nia.
Qed.

Lemma of_int64_uint64 s : 0 ≤ s → int64 s → of_int64 s = of_uint64 s.
Proof.
  intros Hs Hs'. destruct (of_int64_spec s Hs Hs') as [Hw Hv].
  apply val_inj; [done| |by rewrite Hv]. apply wf_of_uint64. unfold uint, int64, int64_max in *. lia.
Qed.

Lemma compute_spec p b t x i :
  cdd_ok p b → time_ok p t →
  ∃ c, compute_coin_seconds_earned p (mk_ctx (mk_asset b i) t x) = Ok c ∧ wf128 c ∧
    val c = earned_at p b t ∧ 0 ≤ val c ≤ b * seconds_at_least_1 p.
Proof.
  intros Hp Ht. pose proof (seconds_range _ _ Hp) as Hs.
  destruct Hp as (Hwf & Hvs & Hb & Hb' & Hle). destruct Ht as [Hlast Ht].
  unfold compute_coin_seconds_earned. cbn [now balance amount].
  destruct (Z.leb_spec (coin_seconds_earned_last_update p) t); [|lia].
  destruct (Z.leb_spec 0 (t - coin_seconds_earned_last_update p)); [|lia].
  cbn [mbind result_bind FC_ASSERT]. eexists. split; [reflexivity|].
  rewrite (of_int64_uint64 (t - _)) by (unfold int64, int64_min, int64_max, uint in *; lia).
  destruct (amount_times_seconds b (t - coin_seconds_earned_last_update p)) as (Hd & Hdv & Hdl);
    [done|done|unfold uint in *; lia|].
  destruct (amount_times_seconds b (seconds_at_least_1 p)) as (Hc & Hcv & Hcl); [done|done|lia|].
  pose proof (val_range _ Hwf) as Hr. unfold uint in Hr.
  destruct (add128_spec (coin_seconds_earned p) _ Hwf Hd) as [Ha Hav].
  rewrite Hdv, Z.mod_small in Hav by nia.
  destruct (min128_spec _ _ Ha Hc) as [Hm Hmv]. split; [done|].
  rewrite Hmv, Hav, Hcv. unfold earned_at. split; [done|]. nia.
Qed.

(** What may be withdrawn at [t]. *)
Definition cdd_allowed (p : cdd_vesting_policy) (b t : Z) : Z :=
  if t <=? start_claim p then 0 else earned_at p b t / seconds_at_least_1 p.

Lemma cdd_allowed_range p b t :
  cdd_ok p b → time_ok p t → 0 ≤ cdd_allowed p b t ≤ b ∧ cdd_allowed p b t * seconds_at_least_1 p ≤ earned_at p b t.
Proof.
  intros Hp Ht. pose proof (seconds_range _ _ Hp) as Hs.
  destruct (compute_spec p b t null_asset 0 Hp Ht) as (c & _ & _ & Hv & Hr). rewrite Hv in Hr.
  destruct Hp as (_ & _ & Hb & _). unfold cdd_allowed.
  destruct (t <=? start_claim p); [lia|]. split.
  - split; [apply Z.div_pos; lia|]. apply Z.div_le_upper_bound; lia.
  - pose proof (Z.mul_div_le (earned_at p b t) (seconds_at_least_1 p)). lia.
Qed.

Lemma cdd_allowed_spec p b t x i :
  cdd_ok p b → time_ok p t →
  cdd_get_allowed_withdraw p (mk_ctx (mk_asset b i) t x) = Ok (mk_asset (cdd_allowed p b t) i).
Proof.
  intros Hp Ht. pose proof (cdd_allowed_range p b t Hp Ht) as [Hr _].
  pose proof (seconds_range _ _ Hp) as Hs. unfold cdd_get_allowed_withdraw, cdd_allowed in *.
  cbn [now balance asset_id amount]. destruct (t <=? start_claim p); [done|].
  destruct (compute_spec p b t x i Hp Ht) as (c & -> & Hc & Hcv & _). cbn [mbind result_bind].
  assert (wf128 (of_uint64 (seconds_at_least_1 p))) as Hsw by (apply wf_of_uint64; unfold uint; lia).
  pose proof (div128_wf c _ Hc Hsw ltac:(rewrite val_of_uint64; lia)) as Hdw.
  pose proof (div128_val c _ Hc Hsw ltac:(rewrite val_of_uint64; lia)) as Hdv.
  rewrite val_of_uint64, Hcv in Hdv. destruct Hp as (_ & _ & Hb & Hb' & _).
  destruct (of_int64_spec b Hb Hb') as [Hbw Hbv].
  rewrite le128_spec, Hdv, Hbv by done.
  destruct (Z.leb_spec (earned_at p b t / seconds_at_least_1 p) b); [|lia].
  cbn [mbind result_bind FC_ASSERT]. unfold int64, int64_min, int64_max in Hb'.
  rewrite to_uint64_spec, Hdv by (done || lia). cbn [mbind result_bind].
  rewrite to_sint_64_id; [done|]. unfold int64, int64_min, int64_max. lia.
Qed.

Lemma cdd_update_spec p b t x i :
  cdd_ok p b → time_ok p t →
  ∃ c, update_coin_seconds_earned (mk_ctx (mk_asset b i) t x) p =
      Ok (mk_cdd (vesting_seconds p) c (start_claim p) t) ∧
    val c = earned_at p b t ∧ cdd_ok (mk_cdd (vesting_seconds p) c (start_claim p) t) b.
Proof.
  intros Hp Ht. destruct (compute_spec p b t x i Hp Ht) as (c & Hc & Hw & Hv & Hr).
  exists c. unfold update_coin_seconds_earned. rewrite Hc. split; [done|]. split; [done|].
  destruct Hp as (_ & Hvs & Hb & Hb' & _). split_and!; try done. apply Hr.
Qed.

Lemma spend_spec p b t a i :
  cdd_ok p b → 0 ≤ a ≤ b → a * seconds_at_least_1 p ≤ val (coin_seconds_earned p) →
  ∃ p', spend_coin_seconds (mk_ctx (mk_asset b i) t (mk_asset a i)) p = Ok p' ∧ cdd_ok p' (b - a) ∧
    vesting_seconds p' = vesting_seconds p ∧ start_claim p' = start_claim p ∧
    coin_seconds_earned_last_update p' = coin_seconds_earned_last_update p ∧
    val (coin_seconds_earned p') = val (coin_seconds_earned p) - a * seconds_at_least_1 p.
Proof.
  intros Hp Ha Hle. pose proof (seconds_range _ _ Hp) as Hs. destruct Hp as (Hw & Hvs & Hb & Hb' & Hcap).
  assert (int64 a ∧ int64 (b - a)) as [Hia Hba] by (unfold int64, int64_min, int64_max in *; lia).
  destruct (amount_times_seconds a (seconds_at_least_1 p)) as (Hn & Hnv & _); [lia|done|lia|].
  pose proof (val_range _ Hw) as Hr. unfold uint in Hr.
  destruct (sub128_spec (coin_seconds_earned p) _ Hw Hn) as [Hsw Hsv].
  rewrite Hnv, Z.mod_small in Hsv by nia.
  eexists (mk_cdd (vesting_seconds p) (sub128 (coin_seconds_earned p) _) (start_claim p)
    (coin_seconds_earned_last_update p)).
  split; [|split; [|split; [reflexivity|split; [reflexivity|split; [reflexivity|exact Hsv]]]]].
  - unfold spend_coin_seconds. cbn [ctx_amount amount]. rewrite le128_spec, Hnv by done.
    destruct (Z.leb_spec (a * seconds_at_least_1 p) (val (coin_seconds_earned p))); [reflexivity|lia].
  - split; [exact Hsw|]. split; [exact Hvs|]. split; [lia|]. split; [exact Hba|].
    cbn [coin_seconds_earned]. rewrite Hsv. unfold seconds_at_least_1 in *. cbn [vesting_seconds]. lia.
Qed.

Lemma cdd_withdraw_spec p b t a i :
  cdd_ok p b → time_ok p t → 0 ≤ a ≤ cdd_allowed p b t →
  ∃ p', cdd_on_withdraw (mk_ctx (mk_asset b i) t (mk_asset a i)) p = Ok p' ∧ cdd_ok p' (b - a) ∧
    vesting_seconds p' = vesting_seconds p ∧ start_claim p' = start_claim p ∧
    coin_seconds_earned_last_update p' = t ∧
    val (coin_seconds_earned p') = earned_at p b t - a * seconds_at_least_1 p.
Proof.
  intros Hp Ht Ha. destruct (cdd_allowed_range p b t Hp Ht) as [Hr Hmul].
  pose proof (seconds_range _ _ Hp) as Hs.
  destruct (cdd_update_spec p b t (mk_asset a i) i Hp Ht) as (c & Hup & Hcv & Hc).
  unfold cdd_on_withdraw. rewrite Hup. cbn [mbind result_bind].
  destruct (spend_spec _ b t a i Hc) as (p' & Hsp & Hok & Hvs & Hsc & Hlu & Hv); [lia| |].
  - unfold seconds_at_least_1 in *. cbn [vesting_seconds coin_seconds_earned]. rewrite Hcv.
    etransitivity; [|exact Hmul]. apply Z.mul_le_mono_nonneg_r; lia.
  - exists p'. split; [exact Hsp|]. split; [exact Hok|]. split; [exact Hvs|]. split; [exact Hsc|].
    split; [exact Hlu|]. rewrite <- Hcv. exact Hv.
Qed.
End Cdd.

(** ** Linear vesting *)

Section Linear.
Context `{Division128}.

(** The amount vested at time [t]. *)
Definition linear_vested (p : linear_vesting_policy) (t : Z) : Z :=
  let elapsed := t - begin_timestamp p in
  if elapsed <=? 0 then 0
  else if elapsed <? vesting_cliff_seconds p then 0
  else if elapsed <? vesting_duration_seconds p
  then begin_balance p * elapsed / vesting_duration_seconds p
  else begin_balance p.

(** A well-formed policy over a balance of [b] at time [t]: what has been
    withdrawn had vested. *)
Definition linear_ok (p : linear_vesting_policy) (b t : Z) : Prop :=
  uint 32 (begin_timestamp p) ∧ uint 32 (vesting_cliff_seconds p) ∧
  uint 32 (vesting_duration_seconds p) ∧ uint 32 t ∧
  0 ≤ b ≤ begin_balance p ∧ int64 (begin_balance p) ∧ begin_balance p - b ≤ linear_vested p t.

Lemma linear_total_spec p e :
  0 ≤ begin_balance p → int64 (begin_balance p) → uint 32 e → uint 32 (vesting_duration_seconds p) →
  let v := if e <? vesting_duration_seconds p
           then begin_balance p * e / vesting_duration_seconds p else begin_balance p in
  linear_total_vested p e = Ok v ∧ 0 ≤ v ≤ begin_balance p.
Proof.
  intros Hb Hb' He Hd v. unfold linear_total_vested, v.
  destruct (Z.ltb_spec e (vesting_duration_seconds p)) as [Hlt|]; [|by split].
  unfold uint in He, Hd.
  assert (0 ≤ begin_balance p * e / vesting_duration_seconds p ≤ begin_balance p) as Hv.
  { split; [apply Z.div_pos; nia|]. apply Z.div_le_upper_bound; nia. }
  rewrite (of_int64_uint64 e) by (unfold int64, int64_min, int64_max; lia).
  destruct (amount_times_seconds (begin_balance p) e) as (Hm & Hmv & _); [done|done|lia|].
  assert (wf128 (of_uint64 (vesting_duration_seconds p))) as Hdw by (apply wf_of_uint64; unfold uint; lia).
  pose proof (div128_wf _ _ Hm Hdw ltac:(rewrite val_of_uint64; lia)) as Hq.
  pose proof (div128_val _ _ Hm Hdw ltac:(rewrite val_of_uint64; lia)) as Hqv.
  rewrite val_of_uint64, Hmv in Hqv. unfold int64, int64_min, int64_max in Hb'.
  rewrite to_uint64_spec by (done || lia). cbn [mbind result_bind]. rewrite Hqv.
  rewrite to_sint_64_id by (unfold int64, int64_min, int64_max; lia). by split.
Qed.

Lemma linear_vested_range p t :
  uint 32 (begin_timestamp p) → uint 32 (vesting_duration_seconds p) → uint 32 t →
  0 ≤ begin_balance p → int64 (begin_balance p) → 0 ≤ linear_vested p t ≤ begin_balance p.
Proof.
  intros Hbt Hd Ht Hb Hb'. unfold linear_vested. cbv zeta.
  destruct (Z.leb_spec (t - begin_timestamp p) 0); [lia|].
  destruct (t - begin_timestamp p <? vesting_cliff_seconds p); [lia|].
  apply (linear_total_spec p (t - begin_timestamp p)); try done. unfold uint in *. lia.
Qed.

(** What may be withdrawn at [t]. *)
Definition linear_allowed (p : linear_vesting_policy) (b t : Z) : Z :=
  linear_vested p t - (begin_balance p - b).

Lemma linear_allowed_spec p b t x i :
  linear_ok p b t →
  linear_get_allowed_withdraw p (mk_ctx (mk_asset b i) t x) = Ok (mk_asset (linear_allowed p b t) i)
  ∧ 0 ≤ linear_allowed p b t ≤ b.
Proof.
  intros (Hbt & Hc & Hd & Ht & Hb & Hb' & Hw).
  pose proof (linear_vested_range p t Hbt Hd Ht ltac:(lia) Hb') as Hr.
  split; [|unfold linear_allowed; lia].
  unfold linear_get_allowed_withdraw, linear_allowed, linear_vested in *. cbv zeta in *.
  cbn [now balance amount asset_id]. revert Hw Hr.
  destruct (Z.ltb_spec (begin_timestamp p) t), (Z.leb_spec (t - begin_timestamp p) 0); try lia.
  2: { intros. unfold mret, result_ret. cbn [mbind result_bind]. do 2 f_equal. lia. }
  destruct (Z.ltb_spec 0 (t - begin_timestamp p)); [|lia]. cbn [mbind result_bind FC_ASSERT].
  destruct (Z.ltb_spec (t - begin_timestamp p) (vesting_cliff_seconds p)),
    (Z.leb_spec (vesting_cliff_seconds p) (t - begin_timestamp p)); try lia.
  { intros. unfold mret, result_ret. cbn [mbind result_bind]. do 2 f_equal. lia. }
  destruct (linear_total_spec p (t - begin_timestamp p)) as [-> Hv]; try done;
    [lia|unfold uint in *; lia|].
  intros Hw Hr. cbn [mbind result_bind].
  remember (if t - begin_timestamp p <? vesting_duration_seconds p then _ else _) as v.
  unfold int64, int64_min, int64_max in *.
  destruct (Z.leb_spec 0 v); [|lia]. cbn [mbind result_bind FC_ASSERT].
  rewrite safe_sub_spec, bool_decide_eq_true_2 by (unfold int64, int64_min, int64_max; lia).
  cbn [mbind result_bind]. destruct (Z.leb_spec 0 (begin_balance p - b)); [|lia].
  cbn [mbind result_bind FC_ASSERT].
  rewrite safe_sub_spec, bool_decide_eq_true_2 by (unfold int64, int64_min, int64_max; lia).
  cbn [mbind result_bind]. destruct (Z.leb_spec 0 (v - (begin_balance p - b))); [|lia]. done.
Qed.
End Linear.

(** ** Vesting balances *)

Section Objects.
Context `{Division128}.

(** A well-formed balance at time [t]. *)
Definition vesting_ok (v : vesting_balance_object) (t : Z) : Prop :=
  match policy v with
  | linear p => linear_ok p (amount (vb_balance v)) t
  | cdd p => cdd_ok p (amount (vb_balance v)) ∧ time_ok p t
  end.

Definition allowed (v : vesting_balance_object) (t : Z) : Z :=
  match policy v with
  | linear p => linear_allowed p (amount (vb_balance v)) t
  | cdd p => cdd_allowed p (amount (vb_balance v)) t
  end.

Lemma allowed_range v t :
  vesting_ok v t → 0 ≤ allowed v t ≤ amount (vb_balance v) ∧ int64 (amount (vb_balance v)).
Proof.
  unfold vesting_ok, allowed. destruct v as [o f [b i] [p|p] r]; cbn [policy vb_balance amount].
  - intros Hp. destruct (linear_allowed_spec p b t null_asset i Hp) as [_ Hr].
    destruct Hp as (_ & _ & _ & _ & Hb & Hb' & _). split; [done|].
    unfold int64, int64_min, int64_max in *. lia.
  - intros [Hp Ht]. split; [by apply cdd_allowed_range|]. apply Hp.
Qed.

(** Well-formed balances stay so as time passes: vesting is monotone. *)
Lemma linear_vested_later p t t' :
  uint 32 (begin_timestamp p) → uint 32 (vesting_duration_seconds p) → 0 ≤ begin_balance p → t ≤ t' →
  linear_vested p t ≤ linear_vested p t'.
Proof.
  intros Hbt Hd Hb Ht. unfold linear_vested, uint in *. cbv zeta.
  destruct (Z.leb_spec (t - begin_timestamp p) 0), (Z.leb_spec (t' - begin_timestamp p) 0); try lia;
  destruct (Z.ltb_spec (t - begin_timestamp p) (vesting_cliff_seconds p)), (Z.ltb_spec (t' - begin_timestamp p) (vesting_cliff_seconds p)); try lia;
  destruct (Z.ltb_spec (t - begin_timestamp p) (vesting_duration_seconds p)), (Z.ltb_spec (t' - begin_timestamp p) (vesting_duration_seconds p));
    try lia; try (apply Z.div_pos; nia); [apply Z.div_le_mono; nia|apply Z.div_le_upper_bound; nia].
Qed.

Lemma vesting_ok_later v t t' : vesting_ok v t → t ≤ t' → uint 32 t' → vesting_ok v t'.
Proof.
  unfold vesting_ok. destruct (policy v) as [p|p].
  - intros (Hbt & Hc & Hd & Ht & Hb & Hb' & Hw) Hle Ht'. split_and!; try done; try lia.
    etransitivity; [exact Hw|]. apply linear_vested_later; try done; lia.
  - intros [Hp [[? ?] ?]] Hle Ht'. split; [done|]. split; [lia|done].
Qed.

Lemma get_allowed_spec v t :
  vesting_ok v t →
  get_allowed_withdraw v t = Ok (mk_asset (allowed v t) (asset_id (vb_balance v))).
Proof.
  unfold vesting_ok, allowed, get_allowed_withdraw.
  destruct v as [o f [b i] [p|p] r]; cbn [policy vb_balance amount asset_id].
  - intros Hp. by apply linear_allowed_spec.
  - intros [Hp Ht]. by apply cdd_allowed_spec.
Qed.

Lemma asset_leb_same a b i : asset_leb (mk_asset a i) (mk_asset b i) = Ok (a <=? b).
Proof.
  unfold asset_leb, asset_eqb, asset_ltb. cbn [asset_id amount]. rewrite !Z.eqb_refl. cbn [andb].
  destruct (Z.eqb_spec a b) as [->|]; [by rewrite Z.leb_refl|]. cbn. f_equal. lia.
Qed.

Lemma is_withdraw_allowed_spec v t a :
  vesting_ok v t → 0 ≤ a →
  is_withdraw_allowed v t (mk_asset a (asset_id (vb_balance v))) = Ok (a <=? allowed v t).
Proof.
  intros Hok Ha. pose proof (allowed_range v t Hok) as [Hr _]. unfold is_withdraw_allowed.
  unfold vesting_ok, allowed in *.
  destruct v as [o f [b i] [p|p] r]; cbn [policy vb_balance amount asset_id] in *.
  - unfold linear_is_withdraw_allowed. cbn [ctx_amount balance asset_id]. rewrite Z.eqb_refl.
    destruct (linear_allowed_spec p b t (mk_asset a i) i Hok) as [-> _]. cbn [mbind result_bind].
    rewrite !asset_leb_same. cbn [mbind result_bind].
    assert ((a <=? b) || negb (a <=? linear_allowed p b t) = true) as -> by lia. done.
  - destruct Hok as [Hp Ht]. unfold cdd_is_withdraw_allowed.
    rewrite (cdd_allowed_spec p b t _ i Hp Ht). cbn [mbind result_bind].
    cbn [ctx_amount]. rewrite !asset_leb_same. cbn [mbind result_bind].
    assert ((a <=? b) || negb (a <=? cdd_allowed p b t) = true) as -> by lia. done.
Qed.

Lemma withdraw_spec v t a :
  vesting_ok v t → 0 ≤ a ≤ allowed v t →
  ∃ v', withdraw t (mk_asset a (asset_id (vb_balance v))) v = Ok v' ∧ vesting_ok v' t ∧
    owner v' = owner v ∧
    vb_balance v' = mk_asset (amount (vb_balance v) - a) (asset_id (vb_balance v)) ∧
    allowed v' t = allowed v t - a.
Proof.
  intros Hok Ha. pose proof (allowed_range v t Hok) as [Hr Hi]. unfold withdraw.
  unfold vesting_ok, allowed in *.
  destruct v as [o f [b i] [p|p] r]; cbn [policy vb_balance amount asset_id owner] in *;
    rewrite asset_leb_same; cbn [mbind result_bind]; (destruct (Z.leb_spec a b); [|lia]);
    cbn [mbind result_bind FC_ASSERT on_withdraw];
    assert (asset_sub (mk_asset b i) (mk_asset a i) = Ok (mk_asset (b - a) i)) as Hsub
      by (unfold asset_sub; cbn [asset_id amount]; rewrite Z.eqb_refl; cbn [mbind result_bind FC_ASSERT];
          rewrite safe_sub_spec, bool_decide_eq_true_2 by (unfold int64, int64_min, int64_max in *; lia);
          done).
  - rewrite Hsub. cbn [mbind result_bind]. eexists. split; [reflexivity|].
    cbn [policy vb_balance amount owner set_vesting]. destruct Hok as (H1 & H2 & H3 & H4 & H5 & H6 & H7).
    unfold linear_ok, linear_allowed in *. split_and!; done || lia.
  - destruct Hok as [Hp Ht]. destruct (cdd_withdraw_spec p b t a i Hp Ht Ha)
      as (p' & -> & Hp' & Hvs & Hsc & Hlu & Hv).
    cbn [fmap result_fmap mbind result_bind]. rewrite Hsub. cbn [mbind result_bind].
    eexists. split; [reflexivity|]. cbn [policy vb_balance amount owner set_vesting].
    assert (time_ok p' t) as Ht' by (destruct Ht; split; [rewrite Hlu; lia|done]).
    split; [by split|]. split; [done|]. split; [done|].
    pose proof (seconds_range _ _ Hp) as Hs. destruct Hp' as (_ & _ & _ & _ & Hcap).
    unfold cdd_allowed, earned_at, seconds_at_least_1 in *. rewrite Hvs, Hsc, Hlu, Hv.
    destruct (t <=? start_claim p); [lia|].
    rewrite Hv, Hvs in Hcap. rewrite Z.sub_diag, Z.mul_0_r, Z.add_0_r, Z.min_l by lia.
    remember (Z.min _ _) as x. replace (x - a * Z.max (vesting_seconds p) 1)
      with (x + (- a) * Z.max (vesting_seconds p) 1) by lia.
    rewrite Z.div_add by lia. lia.
Qed.

(** What a withdrawal of [a] at [t] leaves of the policy over a balance of [b]. *)
Lemma withdraw_policy v t a v' :
  vesting_ok v t → 0 ≤ a ≤ allowed v t → withdraw t (mk_asset a (asset_id (vb_balance v))) v = Ok v' →
  match policy v with
  | linear p => policy v' = linear p
  | cdd p => ∃ c, policy v' = cdd (mk_cdd (vesting_seconds p) c (start_claim p) t) ∧
      val c = earned_at p (amount (vb_balance v)) t - a * seconds_at_least_1 p
  end.
Proof.
  intros Hok Ha. unfold withdraw, vesting_ok, allowed in *.
  destruct v as [o f [b i] [p|p] r]; cbn [policy vb_balance amount asset_id] in *; rewrite asset_leb_same; cbn [mbind result_bind];
    intros Hrun; inv_ok; cbn [on_withdraw policy set_vesting] in *; [by inv_ok|].
  destruct Hok as [Hp Ht]. destruct (cdd_withdraw_spec p b t a i Hp Ht Ha) as (p' & Hw & _ & Hvs & Hsc & Hlu & Hv).
  rewrite Hw in *. cbn [fmap result_fmap] in *. inv_ok. exists (coin_seconds_earned p'). split; [|done].
  destruct p'; cbn in *. by subst.
Qed.

(** C18: a vesting balance pays out exactly what has vested.  With a linear policy this is
    nothing until the cliff, then the part of the first balance that has elapsed of the
    duration, and all of it in the end, less what has been withdrawn before; with a coin
    days policy it is nothing until claims start, then the coin seconds earned, which grow
    by the balance every second up to the whole balance times the vesting period, divided
    by this period.  That amount is between zero and the balance, a withdrawal is allowed
    precisely up to it, and an allowed one succeeds with none of the internal assertions
    failing, reduces the balance and the amount still allowed by what was withdrawn, and
    spends the coin seconds for it. *)
Theorem vesting_withdrawal_sound v t a :
  vesting_ok v t → 0 ≤ amount a → asset_id a = asset_id (vb_balance v) →
  let b := amount (vb_balance v) in
  let earned p := Z.min (val (coin_seconds_earned p) + b * (t - coin_seconds_earned_last_update p))
    (b * Z.max (vesting_seconds p) 1) in
  let m := match policy v with
    | linear p =>
        let elapsed := t - begin_timestamp p in
        (if (elapsed <=? 0) || (elapsed <? vesting_cliff_seconds p) then 0
         else if elapsed <? vesting_duration_seconds p then begin_balance p * elapsed / vesting_duration_seconds p
         else begin_balance p) - (begin_balance p - b)
    | cdd p => if t <=? start_claim p then 0 else earned p / Z.max (vesting_seconds p) 1
    end in
  get_allowed_withdraw v t = Ok (mk_asset m (asset_id (vb_balance v))) ∧
  0 ≤ m ≤ b ∧ is_withdraw_allowed v t a = Ok (amount a <=? m) ∧
  (amount a ≤ m → ∃ v', withdraw t a v = Ok v' ∧ vesting_ok v' t ∧ owner v' = owner v ∧
    vb_balance v' = mk_asset (b - amount a) (asset_id (vb_balance v)) ∧
    get_allowed_withdraw v' t = Ok (mk_asset (m - amount a) (asset_id (vb_balance v))) ∧
    match policy v with
    | linear p => policy v' = linear p
    | cdd p => ∃ c, policy v' = cdd (mk_cdd (vesting_seconds p) c (start_claim p) t) ∧
        val c = earned p - amount a * Z.max (vesting_seconds p) 1
    end).
Proof.
  intros Hok Ha Hid b earned m. destruct a as [a i]. cbn [amount asset_id] in *. subst i.
  assert (m = allowed v t) as ->.
  { unfold m, allowed. destruct (policy v) as [p|p]; [|done]. unfold linear_allowed, linear_vested. cbv zeta.
    by destruct (t - begin_timestamp p <=? 0), (t - begin_timestamp p <? vesting_cliff_seconds p). }
  split_and!.
  - by apply get_allowed_spec.
  - by apply allowed_range.
  - by apply allowed_range.
  - by apply is_withdraw_allowed_spec.
  - intros Hle. destruct (withdraw_spec v t a Hok ltac:(lia)) as (v' & Hw & Hok' & Ho & Hb & Hal).
    exists v'. split_and!; try done; [by rewrite get_allowed_spec, Hal, Hb by done|].
    exact (withdraw_policy v t a v' Hok ltac:(lia) Hw).
Qed.

(** Vesting completes: when the vesting period has passed since the last
    update (coin days) or since the beginning (linear), and claims have started,
    the whole balance may be withdrawn. *)
Theorem vesting_completes v t :
  vesting_ok v t →
  match policy v with
  | linear p => begin_timestamp p < t ∧ vesting_cliff_seconds p ≤ t - begin_timestamp p ∧
                vesting_duration_seconds p ≤ t - begin_timestamp p
  | cdd p => start_claim p < t ∧ seconds_at_least_1 p ≤ t - coin_seconds_earned_last_update p
  end →
  get_allowed_withdraw v t = Ok (vb_balance v).
Proof.
  intros Hok Hdone. rewrite get_allowed_spec by done. destruct v as [o f [b i] [p|p] r].
  - cbn [policy vb_balance asset_id] in *. do 2 f_equal. unfold allowed. cbn [policy vb_balance amount].
    unfold linear_allowed, linear_vested. cbv zeta.
    destruct (Z.leb_spec (t - begin_timestamp p) 0); [lia|].
    destruct (Z.ltb_spec (t - begin_timestamp p) (vesting_cliff_seconds p)); [lia|].
    destruct (Z.ltb_spec (t - begin_timestamp p) (vesting_duration_seconds p)); lia.
  - cbn [policy vb_balance asset_id] in *. do 2 f_equal. unfold allowed, vesting_ok in *.
    cbn [policy vb_balance amount] in *. destruct Hok as [Hp Ht].
    pose proof (seconds_range _ _ Hp) as Hs. destruct Hp as (Hw & _ & Hb & _).
    pose proof (val_range _ Hw) as Hr. unfold uint in Hr.
    unfold cdd_allowed, earned_at. destruct (Z.leb_spec t (start_claim p)); [lia|].
    rewrite Z.min_r by nia. apply Z.div_mul. lia.
Qed.

Lemma asset_add_same b a i :
  int64 b → int64 a → int64 (b + a) → asset_add (mk_asset b i) (mk_asset a i) = Ok (mk_asset (b + a) i).
Proof.
  intros Hb Ha Hba. unfold asset_add. cbn [asset_id amount]. rewrite Z.eqb_refl.
  cbn [mbind result_bind FC_ASSERT]. by rewrite safe_add_spec, bool_decide_eq_true_2.
Qed.

(** The earned coin seconds grow by [extra] when the balance grows by [a]. *)
Lemma cdd_grow p b t c a extra :
  cdd_ok (mk_cdd (vesting_seconds p) c (start_claim p) t) b → 0 ≤ a → int64 (b + a) →
  0 ≤ extra ≤ a * seconds_at_least_1 p →
  let p' := mk_cdd (vesting_seconds p) (add128 c (of_int64 extra)) (start_claim p) t in
  int64 extra → cdd_ok p' (b + a) ∧ val (coin_seconds_earned p') = val c + extra.
Proof.
  intros Hok Ha Hba Hex p' Hie. pose proof (seconds_range _ _ Hok) as Hs.
  destruct Hok as (Hw & Hvs & Hb & Hb' & Hcap).
  unfold seconds_at_least_1 in *. cbn [vesting_seconds coin_seconds_earned] in *.
  destruct (of_int64_spec extra) as [He Hev]; [lia|done|].
  pose proof (val_range _ Hw) as Hr. unfold uint in Hr.
  destruct (add128_spec c (of_int64 extra) Hw He) as [Haw Hav].
  assert (int64_max < 2 ^ 63 ∧ b + a ≤ int64_max) as [Hm1 Hm2] by (unfold int64, int64_max in *; lia).
  rewrite Hev, Z.mod_small in Hav by nia.
  split; [|exact Hav]. split; [exact Haw|]. split; [exact Hvs|]. split; [lia|]. split; [done|].
  unfold p', seconds_at_least_1. cbn [vesting_seconds coin_seconds_earned]. rewrite Hav. lia.
Qed.

(** Deposits into a coin-days balance: new funds that must vest leave the
    amount that may be withdrawn unchanged, vested funds raise it by the deposit,
    as long as the 64-bit product of the deposit and the vesting period does not
    overflow; both keep the balance well formed. *)
Theorem vesting_deposit_sound v p t a :
  policy v = cdd p → vesting_ok v t → 0 ≤ amount a → asset_id a = asset_id (vb_balance v) →
  int64 (amount (vb_balance v) + amount a) →
  (∃ v', deposit t a v = Ok v' ∧ vesting_ok v' t ∧
     amount (vb_balance v') = amount (vb_balance v) + amount a ∧
     get_allowed_withdraw v' t = get_allowed_withdraw v t) ∧
  (amount a * seconds_at_least_1 p < 2 ^ 63 →
   ∃ v', deposit_vested t a v = Ok v' ∧ vesting_ok v' t ∧
     amount (vb_balance v') = amount (vb_balance v) + amount a ∧
     get_allowed_withdraw v' t =
       Ok (mk_asset (allowed v t + (if t <=? start_claim p then 0 else amount a)) (asset_id (vb_balance v)))).
Proof.
  intros Hpol Hok Ha Hid Hsum. pose proof (allowed_range v t Hok) as [Hr Hi].
  destruct v as [o f [b i] pol rm]. cbn [policy vb_balance amount asset_id] in *. subst pol.
  destruct a as [a ai]. cbn [amount asset_id] in *. subst ai.
  pose proof Hok as [Hp Ht]. cbn [policy vb_balance amount] in Hp, Ht.
  destruct (cdd_update_spec p b t (mk_asset a i) i Hp Ht) as (c & Hup & Hcv & Hc).
  assert (int64 a) as Hia by (unfold int64, int64_min, int64_max in *; lia).
  pose proof (seconds_range _ _ Hp) as Hs.
  assert (time_ok (mk_cdd (vesting_seconds p) c (start_claim p) t) t) as Htc.
  { destruct Ht. split; [cbn; lia|done]. }
  assert (∀ q b', cdd_ok q b' → vesting_seconds q = vesting_seconds p → start_claim q = start_claim p →
    coin_seconds_earned_last_update q = t →
    allowed (mk_vbo o f (mk_asset b' i) (cdd q) rm) t =
      if t <=? start_claim p then 0 else val (coin_seconds_earned q) / seconds_at_least_1 p) as Hal.
  { intros q b' Hq Hvs Hsc Hlu. unfold allowed, cdd_allowed, earned_at. cbn [policy vb_balance amount].
    destruct Hq as (_ & _ & _ & _ & Hcap). unfold seconds_at_least_1 in *. rewrite Hvs in *.
    rewrite Hsc, Hlu. rewrite Z.sub_diag, Z.mul_0_r, Z.add_0_r, Z.min_l by lia. done. }
  assert (allowed (mk_vbo o f (mk_asset b i) (cdd p) rm) t =
    if t <=? start_claim p then 0 else val c / seconds_at_least_1 p) as Hal0.
  { unfold allowed, cdd_allowed. cbn [policy vb_balance amount]. by rewrite Hcv. }
  split.
  - assert (cdd_ok (mk_cdd (vesting_seconds p) c (start_claim p) t) (b + a)) as Hc'.
    { destruct Hc as (Hw & Hvs & Hb & _ & Hcap). split; [exact Hw|]. split; [exact Hvs|].
      split; [lia|]. split; [done|]. unfold seconds_at_least_1 in *.
      cbn [vesting_seconds coin_seconds_earned] in *. nia. }
    unfold deposit, on_deposit, cdd_on_deposit. cbn [policy vb_balance]. rewrite Hup.
    cbn [fmap result_fmap mbind result_bind]. rewrite asset_add_same by done.
    cbn [mbind result_bind]. eexists. split; [reflexivity|]. split; [by split|]. split; [done|].
    rewrite !get_allowed_spec by (done || by split). cbn [vb_balance asset_id set_vesting].
    unfold set_vesting. cbn [owner from bautoremove vb_balance asset_id]. by rewrite Hal0, Hal.
  - intros Hnov. unfold deposit_vested, on_deposit_vested, cdd_on_deposit_vested, cdd_on_deposit.
    cbn [policy vb_balance]. rewrite Hup. cbn [mbind result_bind ctx_amount amount].
    assert (seconds_at_least_1 (mk_cdd (vesting_seconds p) c (start_claim p) t) = seconds_at_least_1 p)
      as -> by reflexivity.
    assert (int64 (a * seconds_at_least_1 p)) as Hie by (unfold int64, int64_min, int64_max in *; nia).
    rewrite to_sint_64_id by done.
    destruct (cdd_grow p b t c a (a * seconds_at_least_1 p) Hc Ha Hsum ltac:(nia) Hie) as [Hg Hgv].
    cbn [vesting_seconds coin_seconds_earned start_claim coin_seconds_earned_last_update] in *.
    cbn [fmap result_fmap mbind result_bind]. unfold mret, result_ret. rewrite asset_add_same by done.
    cbn [mbind result_bind]. eexists. split; [reflexivity|]. split; [split; [exact Hg|exact Htc]|].
    split; [done|]. rewrite get_allowed_spec by (split; [exact Hg|exact Htc]).
    unfold set_vesting. cbn [owner from bautoremove vb_balance asset_id].
    rewrite Hal0, Hal by (done || exact Hg). cbn [coin_seconds_earned]. rewrite Hgv.
    destruct (t <=? start_claim p); [done|]. rewrite Z.div_add by lia. done.
Qed.
End Objects.

(** ** Where the code goes wrong *)

Definition fresh_cdd (b vs t : Z) : vesting_balance_object :=
  mk_vbo 7 7 (mk_asset b 0) (cdd (mk_cdd vs (mk128 0 0) 0 t)) false.

(** The 64-bit product of [on_deposit_vested] overflows within the share
    supply: depositing 2^43 vested shares with a vesting period of 2^20 seconds
    (twelve days) makes the coin seconds wrap around, and a balance of which
    nothing had vested can be withdrawn as a whole at once. *)
Theorem deposit_vested_overflow_unlocks :
  let v := fresh_cdd 10000000000000 (2 ^ 20) 100 in
  let a := mk_asset (2 ^ 43) 0 in
  amount a ≤ GRAPHENE_MAX_SHARE_SUPPLY ∧ is_deposit_vested_allowed v 100 a = Ok true ∧
  get_allowed_withdraw v 100 = Ok (mk_asset 0 0) ∧
  (v' ← deposit_vested 100 a v; get_allowed_withdraw v' 100) = Ok (mk_asset (10000000000000 + 2 ^ 43) 0).
Proof. split_and!; by vm_compute. Qed.

Definition fresh_linear (b : Z) : vesting_balance_object :=
  mk_vbo 7 7 (mk_asset b 0) (linear (mk_linear 1000 0 100 b)) false.

(** A linear balance accepts deposits, although new funds may not be added to
    one, and a deposit blocks it: the amount withdrawn so far comes out negative
    and every question about the balance throws, even after the vesting period. *)
Theorem linear_deposit_blocks :
  let v := fresh_linear 500 in
  is_deposit_allowed v 1050 (mk_asset 1 0) = Ok true ∧
  get_allowed_withdraw v 1100 = Ok (mk_asset 500 0) ∧
  (v' ← deposit 1050 (mk_asset 1 0) v; get_allowed_withdraw v' 1100) = Throw assert_exception.
Proof. split_and!; by vm_compute. Qed.

(** ** Witnesses *)

Definition demo_vesting : vesting_balance_object := fresh_cdd 1000 100 50.

Lemma demo_vesting_ok t : 50 ≤ t → uint 32 t → vesting_ok demo_vesting t.
Proof.
  intros Ht Ht'. split; [|split; [cbn; lia|done]].
  unfold cdd_ok. split_and!; by vm_compute.
Qed.

Lemma vesting_withdrawal_sound_witness :
  get_allowed_withdraw demo_vesting 90 = Ok (mk_asset 400 0) ∧
  ∃ v', withdraw 90 (mk_asset 250 0) demo_vesting = Ok v' ∧ get_allowed_withdraw v' 90 = Ok (mk_asset 150 0).
Proof.
  destruct (vesting_withdrawal_sound demo_vesting 90 (mk_asset 250 0)) as (Hm & _ & _ & Hw).
  - apply demo_vesting_ok; unfold uint; lia.
  - cbn. lia.
  - reflexivity.
  - split; [exact Hm|]. destruct Hw as (v' & Hw & _ & _ & _ & Hal & _); [vm_compute; discriminate|].
    exists v'. split; [exact Hw|exact Hal].
Defined.

Lemma vesting_completes_witness : get_allowed_withdraw demo_vesting 150 = Ok (mk_asset 1000 0).
Proof.
  apply (vesting_completes demo_vesting 150).
  - apply demo_vesting_ok; unfold uint; lia.
  - cbn. unfold seconds_at_least_1. cbn. lia.
Defined.

Lemma vesting_deposit_sound_witness :
  ∃ v', deposit 90 (mk_asset 5 0) demo_vesting = Ok v' ∧ vesting_ok v' 90.
Proof.
  destruct (vesting_deposit_sound demo_vesting (mk_cdd 100 (mk128 0 0) 0 50) 90 (mk_asset 5 0))
    as [(v' & Hd & Hok & _) _].
  - reflexivity.
  - apply demo_vesting_ok; unfold uint; lia.
  - cbn. lia.
  - reflexivity.
  - apply (bool_decide_unpack _). exact I.
  - exists v'. split; [exact Hd|exact Hok].
Defined.
