(* ===== verification/Balance.v ===== *)
(** * Balances: libraries/chain/db_balance.cpp and the vesting balance evaluators

    The ledger is the part of the object database these files read and write, one
    map per index: the balances by owner and asset, the vesting balances, the
    dynamic data of the assets, the accounts, witnesses and account statistics.
    An exception discards the writes of the computation (type [M] of the prelude):
    the undo session of the transaction or block restores them. *)

From S2P Require Import Prelude Safe Uint128 Asset Vesting.

Local Open Scope Z_scope.

Definition GRAPHENE_COMMITTEE_ACCOUNT : Z := 0.
Definition GRAPHENE_WITNESS_ACCOUNT : Z := 1.
Definition GRAPHENE_RELAXED_COMMITTEE_ACCOUNT : Z := 2.
Definition GRAPHENE_NULL_ACCOUNT : Z := 3.
Definition GRAPHENE_TEMP_ACCOUNT : Z := 4.
Definition balance_max : Z := 121.

(** The fields of [asset_dynamic_data_object] the modelled code uses. *)
Record asset_dynamic_data := mk_dyn {
  current_supply : Z;
  accumulated_fees : Z;
  fee_pool : Z
}.

(** The fields of [account_object]: who shares its fees, and its cashback. *)
Record account_object := mk_account {
  registrar : Z;
  referrer : Z;
  lifetime_referrer : Z;
  network_fee_percentage : Z;
  lifetime_referrer_fee_percentage : Z;
  referrer_rewards_percentage : Z;
  cashback_vb : option Z;
  uaccount_property : Z
}.

(** The fields of [account_statistics_object], by account. *)
Record account_statistics := mk_stats {
  pending_fees : Z;
  pending_vested_fees : Z;
  lifetime_fees_paid : Z;
  coupon_fees : Z;
  amount_coupon : Z;
  coupon_month : Z;
  activate_time : Z;
  activate_count : Z
}.

(** The fields of [witness_object] for its pay. *)
Record witness_pay := mk_witness_pay { witness_account : Z; pay_vb : option Z }.

(** [balance_history_]. *)
Record balance_history := mk_history {
  h_issuer : Z; h_utype : Z; h_info : string; h_asset_op : asset; h_balance : Z
}.

(** The chain parameters and global properties read here. *)
Record ledger_parameters := mk_params {
  cashback_vesting_period_seconds : Z;
  witness_pay_vesting_seconds : Z;
  cashback_vesting_threshold : Z;
  coupon_expire_time : Z;
  coupon_per_month : Z
}.

Record ledger := mk_ledger {
  balances : gmap (Z * Z) Z;
  vestings : gmap Z vesting_balance_object;
  next_vesting_id : Z;
  dynamic_data : gmap Z asset_dynamic_data;
  accounts : gmap Z account_object;
  statistics : gmap Z account_statistics;
  witnesses : gmap Z witness_pay;
  head_block_time : Z;
  initial_time : Z;
  coupon_supply : Z;
  parameters : ledger_parameters;
  record_history : bool;
  applied_balances : list balance_history
}.

(** *** Updates of the ledger *)

Definition set_balances b l := mk_ledger b (vestings l) (next_vesting_id l) (dynamic_data l)
  (accounts l) (statistics l) (witnesses l) (head_block_time l) (initial_time l) (coupon_supply l)
  (parameters l) (record_history l) (applied_balances l).
Definition set_vestings v n l := mk_ledger (balances l) v n (dynamic_data l)
  (accounts l) (statistics l) (witnesses l) (head_block_time l) (initial_time l) (coupon_supply l)
  (parameters l) (record_history l) (applied_balances l).
Definition set_dynamic d l := mk_ledger (balances l) (vestings l) (next_vesting_id l) d
  (accounts l) (statistics l) (witnesses l) (head_block_time l) (initial_time l) (coupon_supply l)
  (parameters l) (record_history l) (applied_balances l).
Definition set_accounts a l := mk_ledger (balances l) (vestings l) (next_vesting_id l)
  (dynamic_data l) a (statistics l) (witnesses l) (head_block_time l) (initial_time l)
  (coupon_supply l) (parameters l) (record_history l) (applied_balances l).
Definition set_statistics s l := mk_ledger (balances l) (vestings l) (next_vesting_id l)
  (dynamic_data l) (accounts l) s (witnesses l) (head_block_time l) (initial_time l)
  (coupon_supply l) (parameters l) (record_history l) (applied_balances l).
Definition set_witnesses w l := mk_ledger (balances l) (vestings l) (next_vesting_id l)
  (dynamic_data l) (accounts l) (statistics l) w (head_block_time l) (initial_time l)
  (coupon_supply l) (parameters l) (record_history l) (applied_balances l).
Definition set_coupon_supply c l := mk_ledger (balances l) (vestings l) (next_vesting_id l)
  (dynamic_data l) (accounts l) (statistics l) (witnesses l) (head_block_time l) (initial_time l) c
  (parameters l) (record_history l) (applied_balances l).
Definition set_applied a l := mk_ledger (balances l) (vestings l) (next_vesting_id l)
  (dynamic_data l) (accounts l) (statistics l) (witnesses l) (head_block_time l) (initial_time l)
  (coupon_supply l) (parameters l) (record_history l) a.

(** [id( db )]: the object, or an exception. *)
Definition get {A} (index : ledger → gmap Z A) (i : Z) : M ledger A :=
  l ← get_st; lift (match index l !! i with Some a => Ok a | None => Throw other_exception end).

(** ** db_balance.cpp *)

(** [get_balance]. *)
Definition get_balance (owner asset_id : Z) (l : ledger) : asset :=
  match balances l !! (owner, asset_id) with
  | Some b => mk_asset b asset_id
  | None => mk_asset 0 asset_id
  end.

(** [add_balance]: the object is created when it does not exist. *)
Definition add_balance (account asset_id : Z) : M ledger () :=
  modify_st (λ l, match balances l !! (account, asset_id) with
                  | Some _ => l
                  | None => set_balances (<[(account, asset_id) := 0]> (balances l)) l
                  end).

(** The end of [adjust_balance]: the history plugins get the new balance. *)
Definition push_history (utype : Z) (info : string) (account : Z) (delta : asset) (balance : Z)
    : M ledger () :=
  l ← get_st;
  if record_history l then
    assert_st (utype <? balance_max) ;;
    put_st (set_applied (applied_balances l ++ [mk_history account utype info delta balance]) l)
  else mret ().

Definition adjust_balance (utype : Z) (info : string) (account : Z) (delta : asset) : M ledger () :=
  if amount delta =? 0 then mret () else
  l ← get_st;
  balance ←
    match balances l !! (account, asset_id delta) with
    | None =>
        assert_st (0 <? amount delta) ;;
        put_st (set_balances (<[(account, asset_id delta) := amount delta]> (balances l)) l) ;;
        mret (amount delta)
    | Some b =>
        (if amount delta <? 0 then
           needed ← lift (safe_neg (amount delta)); assert_st (needed <=? b)
         else mret ()) ;;
        b' ← lift (safe_add b (amount delta));
        put_st (set_balances (<[(account, asset_id delta) := b']> (balances l)) l) ;;
        mret b'
    end;
  push_history utype info account delta balance.

Section Vesting.
Context `{Division128}.

(** The vesting balance [ovbid] names, when a deposit for [req_owner] may go to
    it: the conditions of the [while] loop that [break]s. *)
Definition reusable_vesting (v : vesting_balance_object) (asset_id req_vesting_seconds req_owner : Z)
    : bool :=
  (owner v =? req_owner) && (Asset.asset_id (vb_balance v) =? asset_id) &&
  match policy v with cdd p => vesting_seconds p =? req_vesting_seconds | linear _ => false end.

Definition create_lazy_vesting (asset_id amount req_vesting_seconds req_owner : Z)
    (require_vesting : bool) : M ledger Z :=
  l ← get_st;
  let earned := if require_vesting then 0 else to_sint 64 (amount * req_vesting_seconds) in
  let v := mk_vbo req_owner 0 (mk_asset amount asset_id)
             (cdd (mk_cdd req_vesting_seconds (of_int64 earned) 0 (head_block_time l))) false in
  put_st (set_vestings (<[next_vesting_id l := v]> (vestings l)) (next_vesting_id l + 1) l) ;;
  mret (next_vesting_id l).

Definition deposit_lazy_vesting (ovbid : option Z) (asset_id amount req_vesting_seconds req_owner : Z)
    (require_vesting : bool) : M ledger (option Z) :=
  if amount =? 0 then mret None else
  let create :=
    i ← create_lazy_vesting asset_id amount req_vesting_seconds req_owner require_vesting;
    mret (Some i) in
  match ovbid with
  | None => create
  | Some i =>
      v ← get vestings i;
      if reusable_vesting v asset_id req_vesting_seconds req_owner then
        l ← get_st;
        v' ← lift ((if require_vesting then deposit else deposit_vested)
                     (head_block_time l) (mk_asset amount asset_id) v);
        put_st (set_vestings (<[i := v']> (vestings l)) (next_vesting_id l) l) ;;
        mret None
      else create
  end.

Definition is_special_account (a : Z) : bool :=
  (a =? GRAPHENE_COMMITTEE_ACCOUNT) || (a =? GRAPHENE_WITNESS_ACCOUNT) ||
  (a =? GRAPHENE_RELAXED_COMMITTEE_ACCOUNT) || (a =? GRAPHENE_NULL_ACCOUNT) ||
  (a =? GRAPHENE_TEMP_ACCOUNT).

Definition set_cashback_vb (a : account_object) (i : Z) : account_object :=
  mk_account (registrar a) (referrer a) (lifetime_referrer a) (network_fee_percentage a)
    (lifetime_referrer_fee_percentage a) (referrer_rewards_percentage a) (Some i)
    (uaccount_property a).

(** [deposit_cashback], to the account [acct]. *)
Definition deposit_cashback (acct asset_id amount : Z) (require_vesting : bool) : M ledger () :=
  if amount =? 0 then mret () else
  if is_special_account acct then
    d ← get dynamic_data asset_id;
    s ← lift (safe_sub (current_supply d) amount);
    modify_st (λ l, set_dynamic (<[asset_id := mk_dyn s (accumulated_fees d) (fee_pool d)]>
      (dynamic_data l)) l)
  else
    a ← get accounts acct;
    l ← get_st;
    new_vbid ← deposit_lazy_vesting (cashback_vb a) asset_id amount
      (cashback_vesting_period_seconds (parameters l)) acct require_vesting;
    match new_vbid with
    | Some i =>
        if bool_decide (cashback_vb a = Some i) then mret ()
        else modify_st (λ l, set_accounts (<[acct := set_cashback_vb a i]> (accounts l)) l)
    | None => mret ()
    end.

(** [deposit_witness_pay]. *)
Definition deposit_witness_pay (wit amount : Z) : M ledger () :=
  if amount =? 0 then mret () else
  w ← get witnesses wit;
  l ← get_st;
  new_vbid ← deposit_lazy_vesting (pay_vb w) GRAPHENE_CORE_ASSET amount
    (witness_pay_vesting_seconds (parameters l)) (witness_account w) true;
  match new_vbid with
  | Some i =>
      if bool_decide (pay_vb w = Some i) then mret ()
      else modify_st (λ l, set_witnesses (<[wit := mk_witness_pay (witness_account w) (Some i)]>
        (witnesses l)) l)
  | None => mret ()
  end.

(** ** vesting_balance_evaluator.cpp *)

Definition account_lock_balance : Z := 256.
Definition is_lock_balance (a : account_object) : bool :=
  negb (Z.land (uaccount_property a) account_lock_balance =? 0).

Inductive policy_initializer :=
  | linear_initializer (begin cliff duration : Z)
  | cdd_initializer (start_claim seconds : Z).

(** [init_policy_visitor]. *)
Definition init_policy (i : policy_initializer) (init_balance t : Z) : vesting_policy :=
  match i with
  | linear_initializer b c d => linear (mk_linear b c d init_balance)
  | cdd_initializer s v => cdd (mk_cdd v (of_int64 0) s t)
  end.

(** [vesting_balance_create_evaluator]; [restricted] is [is_transfer_restricted()]
    of the asset. *)
Definition vesting_create_evaluate (restricted : bool) (creator own : Z) (a : asset) : M ledger () :=
  creator_account ← get accounts creator;
  get accounts own ;;
  assert_st (negb (is_lock_balance creator_account)) ;;
  assert_st (0 <? amount a) ;;
  l ← get_st;
  assert_st (amount a <=? amount (get_balance creator (asset_id a) l)) ;;
  assert_st (negb restricted).

Definition vesting_create_apply (creator own : Z) (a : asset) (p : policy_initializer)
    : M ledger Z :=
  l ← get_st;
  assert_st (amount a <=? amount (get_balance creator (asset_id a) l)) ;;
  debit ← lift (asset_neg a);
  adjust_balance 74 "" creator debit ;;
  l ← get_st;
  let v := mk_vbo own 0 a (init_policy p (amount a) (head_block_time l)) false in
  put_st (set_vestings (<[next_vesting_id l := v]> (vestings l)) (next_vesting_id l + 1) l) ;;
  mret (next_vesting_id l).

(** [vesting_balance_withdraw_evaluator]. *)
Definition vesting_withdraw_evaluate (i own : Z) (a : asset) : M ledger () :=
  v ← get vestings i;
  assert_st (own =? owner v) ;;
  l ← get_st;
  ok ← lift (is_withdraw_allowed v (head_block_time l) a);
  assert_st ok ;;
  le ← lift (asset_leb a (vb_balance v));
  assert_st le ;;
  account ← get accounts own;
  assert_st (negb (is_lock_balance account)).

Definition vesting_withdraw_apply (i own : Z) (a : asset) : M ledger () :=
  v ← get vestings i;
  l ← get_st;
  v' ← lift (withdraw (head_block_time l) a v);
  put_st (set_vestings (<[i := v']> (vestings l)) (next_vesting_id l) l) ;;
  (if bautoremove v' && (amount (vb_balance v') <=? 0)
   then modify_st (λ l, set_vestings (delete i (vestings l)) (next_vesting_id l) l)
   else mret ()) ;;
  adjust_balance 75 "" own a.
End Vesting.

(** ** Well-formed ledgers *)

Record ledger_ok (l : ledger) : Prop := mk_ledger_ok {
  ok_balance : ∀ k b, balances l !! k = Some b → 0 ≤ b ∧ int64 b;
  ok_vesting : ∀ i v, vestings l !! i = Some v → vesting_ok v (head_block_time l);
  ok_next : ∀ i, next_vesting_id l ≤ i → vestings l !! i = None;
  ok_dynamic : ∀ i d, dynamic_data l !! i = Some d → int64 (current_supply d) ∧ int64 (accumulated_fees d);
  ok_time : uint 32 (head_block_time l)
}.

(** The part of it that only says that amounts are in their type: every
    operation that returns keeps it. *)
Record ledger_typed (l : ledger) : Prop := mk_ledger_typed {
  ty_vesting : ∀ i v, vestings l !! i = Some v → int64 (amount (vb_balance v));
  ty_next : ∀ i, next_vesting_id l ≤ i → vestings l !! i = None;
  ty_dynamic : ∀ i d, dynamic_data l !! i = Some d → int64 (current_supply d) ∧ int64 (accumulated_fees d)
}.

Lemma ledger_ok_typed l : ledger_ok l → ledger_typed l.
Proof.
  intros Hl. constructor; [|apply ok_next, Hl|apply ok_dynamic, Hl].
  intros i v Hv. apply (allowed_range v (head_block_time l)). by apply (ok_vesting l Hl i).
Qed.

(** Paying a witness does not move the clock. *)
Lemma get_state {A} (index : ledger → gmap Z A) i l a l' : get index i l = Ok (a, l') → l' = l.
Proof. unfold get. intros Hg. by inv_ok. Qed.

Lemma create_lazy_vesting_time a n v o r : same head_block_time (create_lazy_vesting a n v o r).
Proof. intros l i l' Hrun. unfold create_lazy_vesting in Hrun. by inv_ok. Qed.

Lemma deposit_lazy_vesting_time vb a n v o r : same head_block_time (deposit_lazy_vesting vb a n v o r).
Proof.
  intros l x l' Hrun. unfold deposit_lazy_vesting in Hrun. case_match; [by inv_ok|].
  destruct vb as [i|]; [|inv_ok; by eapply create_lazy_vesting_time].
  apply M_bind_Ok in Hrun as (v1 & l1 & ->%get_state & Hrun).
  case_match; inv_ok; [done|by eapply create_lazy_vesting_time].
Qed.

Lemma deposit_witness_pay_time w n : same head_block_time (deposit_witness_pay w n).
Proof.
  intros l x l' Hrun. unfold deposit_witness_pay in Hrun. case_match; [by inv_ok|].
  apply M_bind_Ok in Hrun as (wp & l1 & ->%get_state & Hrun).
  apply M_bind_Ok in Hrun as (l2 & l3 & [= <- <-] & Hrun).
  apply M_bind_Ok in Hrun as (vb & l4 & Hd & Hrun). apply deposit_lazy_vesting_time in Hd.
  destruct vb as [i|]; [case_match|]; by inv_ok.
Qed.

Lemma push_history_time u info a d b : same head_block_time (push_history u info a d b).
Proof.
  intros l x l' Hrun. unfold push_history in Hrun. apply M_bind_Ok in Hrun as (? & ? & [= <- <-] & Hrun).
  case_match; [|by inv_ok]. apply M_bind_Ok in Hrun as (? & ? & [_ ->]%assert_st_Ok & ->%put_st_Ok). done.
Qed.

Lemma adjust_balance_time u info a d : same head_block_time (adjust_balance u info a d).
Proof.
  intros l x l' Hrun. unfold adjust_balance in Hrun. case_match; [by inv_ok|].
  apply M_bind_Ok in Hrun as (? & ? & [= <- <-] & Hrun).
  apply M_bind_Ok in Hrun as (b & l1 & Hb & ->%push_history_time).
  case_match; inv_ok; try done; case_match; by inv_ok.
Qed.

(** What [k] (an account and an asset) holds. *)
Definition held (k : Z * Z) (l : ledger) : Z := default 0 (balances l !! k).

Lemma get_balance_held a i l : get_balance a i l = mk_asset (held (a, i) l) i.
Proof. unfold get_balance, held. by destruct (balances l !! (a, i)). Qed.

(** What the balances need of a well-formed ledger. *)
Definition balances_ok (l : ledger) : Prop := ∀ k b, balances l !! k = Some b → 0 ≤ b ∧ int64 b.

Lemma ledger_ok_balances l : ledger_ok l → balances_ok l.
Proof. by intros []. Qed.

Lemma held_ok k l : balances_ok l → 0 ≤ held k l ∧ int64 (held k l).
Proof.
  intros Hl. unfold held. destruct (balances l !! k) as [b|] eqn:Hb.
  - by apply (Hl k).
  - split; [done|apply int64_0].
Qed.

Lemma ledger_ok_applied l a : ledger_ok l → ledger_ok (set_applied a l).
Proof. intros []. by constructor. Qed.

Lemma ledger_ok_balance l k b : ledger_ok l → 0 ≤ b → int64 b → ledger_ok (set_balances (<[k:=b]> (balances l)) l).
Proof.
  intros [Hk] Hb Hb'. constructor; try done. intros k' b'. cbn [balances set_balances].
  destruct (decide (k' = k)) as [->|]; [rewrite lookup_insert_eq|rewrite lookup_insert_ne by done].
  - by intros [= <-].
  - apply Hk.
Qed.

(** ** Adjusting a balance *)

(** [l'] is [l] after [d] was credited to (or debited from) [k]; nothing else but
    the history is different. *)
Definition credited (k : Z * Z) (d : Z) (l l' : ledger) : Prop :=
  ∃ h, l' = set_applied h (set_balances (<[k := held k l + d]> (balances l)) l).

Lemma push_history_run utype info acct d b l :
  (record_history l = true → utype < balance_max) →
  ∃ h, push_history utype info acct d b l = Ok ((), set_applied h l).
Proof.
  intros Hu. unfold push_history. run_e. destruct (record_history l) eqn:Hr.
  - destruct (Z.ltb_spec utype balance_max); [|lia]. by eexists.
  - exists (applied_balances l). by destruct l.
Qed.

Lemma adjust_balance_run utype info acct d l :
  balances_ok l → int64 (amount d) → amount d ≠ 0 → (record_history l = true → utype < balance_max) →
  let k := (acct, asset_id d) in
  if held k l + amount d <? 0 then ∃ e, adjust_balance utype info acct d l = Throw e
  else if int64_max <? held k l + amount d
       then adjust_balance utype info acct d l = Throw overflow_exception
       else ∃ l', adjust_balance utype info acct d l = Ok ((), l') ∧ credited k (amount d) l l'.
Proof.
  intros Hl Hd Hnz Hu k. destruct (held_ok k l Hl) as [Hh Hh'].
  unfold adjust_balance. destruct (Z.eqb_spec (amount d) 0); [lia|].
  unfold held in *. fold k. cbv [mbind M_bind get_st]. unfold int64, int64_min, int64_max in Hd, Hh'.
  destruct (balances l !! k) as [b|] eqn:Hb; cbn [default id] in *.
  - destruct (Z.ltb_spec (amount d) 0) as [Hneg|Hpos]; cbv [mbind M_bind lift].
    + unfold safe_neg. destruct (Z.eqb_spec (amount d) int64_min) as [He|He].
      { destruct (Z.ltb_spec (b + amount d) 0); [by eexists|]. unfold int64_min in He. lia. }
      unfold int64_min in He.
      rewrite to_sint_64_id by (unfold int64, int64_min, int64_max; lia).
      unfold assert_st, FC_ASSERT, lift. destruct (Z.leb_spec (- amount d) b), (Z.ltb_spec (b + amount d) 0);
        try lia; [|by eexists].
      rewrite safe_add_spec, bool_decide_eq_true_2 by (unfold int64, int64_min, int64_max; lia).
      destruct (Z.ltb_spec int64_max (b + amount d)); [unfold int64_max in *; lia|].
      cbv [put_st mret M_ret].
      destruct (push_history_run utype info acct d (b + amount d)
        (set_balances (<[k:=b + amount d]> (balances l)) l) Hu) as [h ->].
      eexists. split; [reflexivity|]. exists h. unfold held. by rewrite Hb.
    + cbv [mret M_ret]. rewrite safe_add_spec by (unfold int64, int64_min, int64_max; lia).
      destruct (Z.ltb_spec (b + amount d) 0); [lia|].
      destruct (Z.ltb_spec int64_max (b + amount d)) as [Ho|Ho]; unfold int64_max in Ho.
      * rewrite bool_decide_eq_false_2 by (unfold int64, int64_max; lia).
        by destruct (Z.ltb_spec 0 (amount d)); [|lia].
      * rewrite bool_decide_eq_true_2 by (unfold int64, int64_min, int64_max; lia). cbv [put_st].
        destruct (push_history_run utype info acct d (b + amount d)
          (set_balances (<[k:=b + amount d]> (balances l)) l) Hu) as [h ->].
        eexists. split; [reflexivity|]. exists h. unfold held. by rewrite Hb.
  - unfold assert_st, FC_ASSERT, lift.
    destruct (Z.ltb_spec 0 (amount d)), (Z.ltb_spec (0 + amount d) 0); try lia; [|by eexists].
    destruct (Z.ltb_spec int64_max (0 + amount d)); [unfold int64_max in *; lia|].
    cbv [put_st mret M_ret].
    destruct (push_history_run utype info acct d (amount d)
      (set_balances (<[k:=amount d]> (balances l)) l) Hu) as [h ->].
    eexists. split; [reflexivity|]. exists h. unfold held. by rewrite Hb.
Qed.

Lemma credited_held k k' d l l' :
  credited k d l l' → held k' l' = held k' l + (if decide (k' = k) then d else 0).
Proof.
  intros [h ->]. unfold held. cbn [balances set_applied set_balances]. case_decide as Hk.
  - subst. by rewrite lookup_insert_eq.
  - rewrite lookup_insert_ne by done. lia.
Qed.

Lemma credited_ok k d l l' : ledger_ok l → 0 ≤ held k l + d → int64 (held k l + d) → credited k d l l' → ledger_ok l'.
Proof. intros Hl Hp Hi [h ->]. by apply ledger_ok_applied, ledger_ok_balance. Qed.

Lemma credited_balances k d l l' :
  balances_ok l → 0 ≤ held k l + d → int64 (held k l + d) → credited k d l l' → balances_ok l'.
Proof.
  intros Hl Hp Hi [h ->] k' b. cbn [balances set_applied set_balances].
  destruct (decide (k' = k)) as [->|]; [rewrite lookup_insert_eq|rewrite lookup_insert_ne by done].
  - by intros [= <-].
  - apply Hl.
Qed.

(** The full behaviour of a call that returned. *)
Lemma adjust_balance_returned utype info acct d l u l' :
  balances_ok l → int64 (amount d) → adjust_balance utype info acct d l = Ok (u, l') →
  (l' = l ∧ amount d = 0 ∨ credited (acct, asset_id d) (amount d) l l') ∧
  0 ≤ held (acct, asset_id d) l + amount d ∧ int64 (held (acct, asset_id d) l + amount d).
Proof.
  intros Hl Hd Hrun. destruct (decide (amount d = 0)) as [Hz|Hnz].
  { unfold adjust_balance in Hrun. rewrite Hz in Hrun. cbn in Hrun. inversion Hrun; subst.
    rewrite Hz, Z.add_0_r. destruct (held_ok (acct, asset_id d) l' Hl). by auto. }
  assert (record_history l = true → utype < balance_max) as Hu.
  { intros Hr. unfold adjust_balance in Hrun. destruct (Z.eqb_spec (amount d) 0); [done|].
    apply M_bind_Ok in Hrun as (? & ? & [= <- <-] & Hrun).
    apply M_bind_Ok in Hrun as (b & l1 & Hb & Hp).
    assert (record_history l1 = true) as Hr1.
    { destruct (balances l !! _); inv_ok; try done; destruct (amount d <? 0); by inv_ok. }
    unfold push_history in Hp. apply M_bind_Ok in Hp as (? & ? & [= <- <-] & Hp).
    rewrite Hr1 in Hp. inv_ok. by apply Z.ltb_lt. }
  pose proof (adjust_balance_run utype info acct d l Hl Hd Hnz Hu) as H. cbv zeta in H.
  destruct (Z.ltb_spec (held (acct, asset_id d) l + amount d) 0); [destruct H as [e H]; congruence|].
  destruct (Z.ltb_spec int64_max (held (acct, asset_id d) l + amount d)); [congruence|].
  destruct H as (l1 & H & Hc). rewrite Hrun in H. inversion H; subst l1. split; [by right|].
  unfold int64, int64_min, int64_max in *. lia.
Qed.

Lemma adjust_balance_Ok utype info acct d l u l' :
  ledger_ok l → int64 (amount d) → adjust_balance utype info acct d l = Ok (u, l') →
  ledger_ok l' ∧ (l' = l ∧ amount d = 0 ∨ credited (acct, asset_id d) (amount d) l l').
Proof.
  intros Hl Hd Hrun. destruct (adjust_balance_returned _ _ _ _ _ _ _ (ledger_ok_balances _ Hl) Hd Hrun) as (Hc & Hp & Hi).
  split; [|done]. destruct Hc as [[-> _]|Hc]; [done|]. by eapply credited_ok.
Qed.

(** ** What the ledger holds of an asset *)

Definition balance_wealth (i : Z) (k : Z * Z) (b : Z) : Z := if k.2 =? i then b else 0.
Definition vesting_wealth (i _ : Z) (v : vesting_balance_object) : Z :=
  if Asset.asset_id (vb_balance v) =? i then amount (vb_balance v) else 0.

(** The shares of asset [i] in balances and vesting balances. *)
Definition wealth (i : Z) (l : ledger) : Z :=
  msum (balance_wealth i) (balances l) + msum (vesting_wealth i) (vestings l).

(** The recorded supply of asset [i]. *)
Definition supply (i : Z) (l : ledger) : Z :=
  match dynamic_data l !! i with Some d => current_supply d | None => 0 end.

Definition only (i : Z) (d : asset) : Z := if asset_id d =? i then amount d else 0.

Lemma msum_held (i : Z) (k : Z * Z) (d : Z) (m : gmap (Z * Z) Z) :
  msum (balance_wealth i) (<[k := default 0 (m !! k) + d]> m) =
  msum (balance_wealth i) m + (if k.2 =? i then d else 0).
Proof.
  destruct (m !! k) as [b|] eqn:Hk; cbn [default id].
  - rewrite (msum_insert _ _ _ b) by done. unfold balance_wealth. destruct (k.2 =? i); lia.
  - rewrite msum_insert_fresh by done. unfold balance_wealth. destruct (k.2 =? i); lia.
Qed.

Lemma credited_wealth i acct d l l' :
  credited (acct, asset_id d) (amount d) l l' → wealth i l' = wealth i l + only i d.
Proof.
  intros [h ->]. unfold wealth, held, only. cbn [balances vestings set_applied set_balances].
  rewrite msum_held. cbn [snd]. lia.
Qed.

Lemma adjust_balance_wealth i utype info acct d l u l' :
  ledger_ok l → int64 (amount d) → adjust_balance utype info acct d l = Ok (u, l') →
  wealth i l' = wealth i l + only i d ∧ supply i l' = supply i l.
Proof.
  intros Hl Hd Hrun. destruct (adjust_balance_Ok _ _ _ _ _ _ _ Hl Hd Hrun) as [_ [[-> Hz]|Hc]].
  - unfold only. destruct (asset_id d =? i); lia.
  - split; [by eapply credited_wealth|]. by destruct Hc as [h ->].
Qed.

Lemma vesting_wealth_update i j v v' l n :
  vestings l !! j = Some v →
  wealth i (set_vestings (<[j:=v']> (vestings l)) n l) =
  wealth i l - only i (vb_balance v) + only i (vb_balance v').
Proof.
  intros Hj. unfold wealth. cbn [balances vestings set_vestings].
  rewrite (msum_insert _ _ _ v) by done. unfold vesting_wealth, only. lia.
Qed.

Lemma vesting_wealth_create i v l :
  ledger_typed l →
  wealth i (set_vestings (<[next_vesting_id l := v]> (vestings l)) (next_vesting_id l + 1) l) =
  wealth i l + only i (vb_balance v).
Proof.
  intros Hl. unfold wealth. cbn [balances vestings set_vestings].
  rewrite msum_insert_fresh by (apply (ty_next l Hl); lia). unfold vesting_wealth, only. lia.
Qed.

(** The vesting balances of a ledger stay well formed. *)
Lemma ledger_ok_vesting l i v n :
  ledger_ok l → vesting_ok v (head_block_time l) → i < n → next_vesting_id l ≤ n →
  ledger_ok (set_vestings (<[i:=v]> (vestings l)) n l).
Proof.
  intros [Hb Hv Hn] Hok Hin Hnn. constructor; try done; cbn [vestings set_vestings head_block_time next_vesting_id].
  - intros j w. destruct (decide (j = i)) as [->|]; [rewrite lookup_insert_eq|rewrite lookup_insert_ne by done].
    + by intros [= <-].
    + apply Hv.
  - intros j Hj. rewrite lookup_insert_ne by lia. apply Hn. lia.
Qed.

Lemma ledger_ok_delete l i : ledger_ok l → ledger_ok (set_vestings (delete i (vestings l)) (next_vesting_id l) l).
Proof.
  intros [Hb Hv Hn]. constructor; try done; cbn [vestings set_vestings head_block_time next_vesting_id].
  - intros j w [_ Hj]%lookup_delete_Some. by apply (Hv j).
  - intros j Hj. apply lookup_delete_None. right. by apply Hn.
Qed.

Lemma vesting_id_below l i v : ledger_ok l → vestings l !! i = Some v → i < next_vesting_id l.
Proof.
  intros Hl Hi. destruct (Z.lt_ge_cases i (next_vesting_id l)) as [|Hge]; [done|].
  pose proof (ok_next l Hl i Hge). congruence.
Qed.

Lemma get_Ok {A} (index : ledger → gmap Z A) i l a l' :
  get index i l = Ok (a, l') → index l !! i = Some a ∧ l' = l.
Proof.
  intros Hg. apply M_bind_Ok in Hg as (? & ? & [= <- <-] & Hg). apply lift_Ok in Hg as [Hg ->].
  destruct (index l !! i); by inversion Hg.
Qed.

Section Conservation.
Context `{Division128}.

Lemma asset_sum_Ok b a c :
  int64 (amount b) → int64 (amount a) → asset_add b a = Ok c →
  asset_id a = asset_id b ∧ c = mk_asset (amount b + amount a) (asset_id b).
Proof.
  intros Hb Ha Hc. unfold asset_add in Hc. inv_ok.
  destruct (safe_add_Ok _ _ _ Hb Ha ltac:(eassumption)) as [-> _]. split; [lia|done].
Qed.

Lemma asset_difference_Ok b a c :
  int64 (amount b) → int64 (amount a) → asset_sub b a = Ok c →
  asset_id a = asset_id b ∧ c = mk_asset (amount b - amount a) (asset_id b).
Proof.
  intros Hb Ha Hc. unfold asset_sub in Hc. inv_ok.
  destruct (safe_sub_Ok _ _ _ Hb Ha ltac:(eassumption)) as [-> _]. split; [lia|done].
Qed.

(** What the operations of a vesting balance do to the funds. *)
Lemma deposit_funds (vested : bool) t a v v' :
  int64 (amount (vb_balance v)) → int64 (amount a) →
  (if vested then deposit else deposit_vested) t a v = Ok v' →
  asset_id a = asset_id (vb_balance v) ∧
  vb_balance v' = mk_asset (amount (vb_balance v) + amount a) (asset_id (vb_balance v)).
Proof.
  intros Hv Ha Hd. destruct vested; [unfold deposit in Hd|unfold deposit_vested in Hd]; inv_ok;
    by apply asset_sum_Ok.
Qed.

Lemma withdraw_funds t a v v' :
  int64 (amount (vb_balance v)) → int64 (amount a) → withdraw t a v = Ok v' →
  asset_id a = asset_id (vb_balance v) ∧ amount a ≤ amount (vb_balance v) ∧
  vb_balance v' = mk_asset (amount (vb_balance v) - amount a) (asset_id (vb_balance v)).
Proof.
  intros Hv Ha Hw. unfold withdraw in Hw. inv_ok.
  match goal with Hs : asset_sub _ _ = Ok _ |- _ => apply asset_difference_Ok in Hs as [Hid ->] end; [|done..].
  split; [done|]. split; [|done]. destruct (vb_balance v) as [b i], a as [a j]. cbn [asset_id amount] in *. subst j.
  match goal with Hl : asset_leb _ _ = Ok _ |- _ => rewrite asset_leb_same in Hl; injection Hl as Hl end. lia.
Qed.

Lemma ledger_typed_vesting l i v n :
  ledger_typed l → int64 (amount (vb_balance v)) → i < n → next_vesting_id l ≤ n →
  ledger_typed (set_vestings (<[i:=v]> (vestings l)) n l).
Proof.
  intros [Hv Hn] Hi Hin Hnn. constructor; [| |done]; cbn [vestings set_vestings next_vesting_id].
  - intros j w. destruct (decide (j = i)) as [->|]; [rewrite lookup_insert_eq|rewrite lookup_insert_ne by done].
    + by intros [= <-].
    + apply Hv.
  - intros j Hj. rewrite lookup_insert_ne by lia. apply Hn. lia.
Qed.

Lemma typed_id_below l i v : ledger_typed l → vestings l !! i = Some v → i < next_vesting_id l.
Proof.
  intros Hl Hi. destruct (Z.lt_ge_cases i (next_vesting_id l)) as [|Hge]; [done|].
  pose proof (ty_next l Hl i Hge). congruence.
Qed.

Lemma asset_sum_int64 b a c : int64 (amount b) → int64 (amount a) → asset_add b a = Ok c → int64 (amount c).
Proof.
  intros Hb Ha Hc. unfold asset_add in Hc. inv_ok. cbn [amount].
  by destruct (safe_add_Ok _ _ _ Hb Ha ltac:(eassumption)).
Qed.

Lemma deposit_int64 (vested : bool) t a v v' :
  int64 (amount (vb_balance v)) → int64 (amount a) →
  (if vested then deposit else deposit_vested) t a v = Ok v' → int64 (amount (vb_balance v')).
Proof.
  intros Hv Ha Hd. destruct vested; [unfold deposit in Hd|unfold deposit_vested in Hd]; inv_ok;
    match goal with Hs : asset_add _ _ = Ok _ |- _ => exact (asset_sum_int64 _ _ _ Hv Ha Hs) end.
Qed.

(** The parts of the ledger a deposit into a vesting balance does not touch. *)
Definition same_but_vestings (l l' : ledger) : Prop :=
  ∃ v n, l' = set_vestings v n l.

Lemma deposit_lazy_run i ovb aid amt secs own req l r l' :
  ledger_typed l → int64 amt → deposit_lazy_vesting ovb aid amt secs own req l = Ok (r, l') →
  wealth i l' = wealth i l + only i (mk_asset amt aid) ∧ same_but_vestings l l' ∧ ledger_typed l'.
Proof.
  intros Hl Ha Hrun. unfold deposit_lazy_vesting in Hrun.
  destruct (Z.eqb_spec amt 0) as [->|Hnz].
  { inv_ok. split; [unfold only; cbn [asset_id amount]; destruct (aid =? i); lia|].
    split; [|done]. exists (vestings l'), (next_vesting_id l'). by destruct l'. }
  assert (∀ j l', create_lazy_vesting aid amt secs own req l = Ok (j, l') →
    wealth i l' = wealth i l + only i (mk_asset amt aid) ∧ same_but_vestings l l' ∧ ledger_typed l') as Hcr.
  { intros j l1 Hc. unfold create_lazy_vesting in Hc. inv_ok. rewrite vesting_wealth_create by done.
    split; [done|]. split; [by eexists _, _|]. apply ledger_typed_vesting; done || lia. }
  destruct ovb as [k|]; [|inv_ok; by eapply Hcr].
  apply M_bind_Ok in Hrun as (v & l1 & Hg & Hrun). apply get_Ok in Hg as [Hv ->].
  destruct (reusable_vesting v aid secs own); [|inv_ok; by eapply Hcr]. inv_ok.
  pose proof (ty_vesting _ Hl _ _ Hv) as Hvi.
  match goal with Hd : _ = Ok ?w |- _ =>
    pose proof (deposit_int64 req _ (mk_asset amt aid) _ _ Hvi Ha Hd);
    apply (deposit_funds req) in Hd as [Hid Hb]; [|done|done] end.
  split; [|split; [by eexists _, _|apply ledger_typed_vesting; [done|done|by eapply typed_id_below|lia]]].
  rewrite (vesting_wealth_update _ _ v) by done. rewrite Hb. unfold only.
  cbn [asset_id amount] in *. rewrite <- Hid. destruct (_ =? i); lia.
Qed.

(** What is left in vesting balance [i]. *)
Definition vested_funds (i : Z) (l : ledger) : Z :=
  match vestings l !! i with Some v => amount (vb_balance v) | None => 0 end.

(** [amt] of asset [aid] goes into one vesting balance, of [own], new or its own before. *)
Definition vested_to (own aid amt : Z) (l l' : ledger) : Prop :=
  balances l' = balances l ∧ dynamic_data l' = dynamic_data l ∧
  (amt = 0 ∧ vestings l' = vestings l ∨
   ∃ j v, vestings l' = <[j := v]> (vestings l) ∧ owner v = own ∧
     vb_balance v = mk_asset (vested_funds j l + amt) aid ∧
     ∀ v0, vestings l !! j = Some v0 → owner v0 = own ∧ asset_id (vb_balance v0) = aid).

Lemma deposit_lazy_arrives ovb aid amt secs own req l r l' :
  ledger_typed l → int64 amt → deposit_lazy_vesting ovb aid amt secs own req l = Ok (r, l') →
  vested_to own aid amt l l'.
Proof.
  intros Hl Ha Hrun. unfold deposit_lazy_vesting in Hrun.
  destruct (Z.eqb_spec amt 0) as [->|Hnz]; [inv_ok; split_and!; [done..|by left]|].
  pose proof (ty_next l Hl (next_vesting_id l) ltac:(lia)) as Hnext.
  assert (∀ j l', create_lazy_vesting aid amt secs own req l = Ok (j, l') → vested_to own aid amt l l') as Hcr.
  { intros j l1 Hc. unfold create_lazy_vesting in Hc. inv_ok. split_and!; [done..|]. right.
    eexists _, _. split; [reflexivity|].
    unfold vested_funds. rewrite Hnext. split_and!; [done|by rewrite Z.add_0_l|done]. }
  destruct ovb as [k|]; [|inv_ok; by eapply Hcr].
  apply M_bind_Ok in Hrun as (v & l1 & Hg & Hrun). apply get_Ok in Hg as [Hv ->].
  destruct (reusable_vesting v aid secs own) eqn:Hre; [|inv_ok; by eapply Hcr]. inv_ok.
  unfold reusable_vesting in Hre. rewrite !andb_true_iff, !Z.eqb_eq in Hre. destruct Hre as [[Ho Hid] _].
  pose proof (ty_vesting _ Hl _ _ Hv) as Hvi. split_and!; [done..|]. right.
  match goal with Hd : _ = Ok ?w |- _ => exists k, w; split; [done|];
    assert (owner w = owner v) as Hw by (destruct req; [unfold deposit in Hd|unfold deposit_vested in Hd]; by inv_ok);
    apply (deposit_funds req) in Hd as [_ Hb]; [|done|done] end.
  unfold vested_funds. rewrite Hv, Hw, Hb, Hid. split_and!; [done..|]. by intros v0 [= <-].
Qed.

Lemma deposit_cashback_arrives acct aid amt req l u l' :
  ledger_typed l → int64 amt → deposit_cashback acct aid amt req l = Ok (u, l') →
  if is_special_account acct
  then balances l' = balances l ∧ vestings l' = vestings l ∧ supply aid l' = supply aid l - amt
  else vested_to acct aid amt l l'.
Proof.
  intros Hl Ha Hrun. unfold deposit_cashback in Hrun.
  destruct (Z.eqb_spec amt 0) as [->|Hnz].
  { inv_ok. destruct (is_special_account acct); split_and!; [done..|lia|done|done|by left]. }
  destruct (is_special_account acct).
  - apply M_bind_Ok in Hrun as (d & l1 & Hg & Hrun). apply get_Ok in Hg as [Hd ->].
    apply M_bind_Ok in Hrun as (s & l1 & Hs & Hrun). apply lift_Ok in Hs as [Hs ->]. inv_ok.
    destruct (ty_dynamic l Hl aid d Hd) as [Hsup _]. apply safe_sub_Ok in Hs as [-> Hi]; [|done|done].
    split_and!; [done..|]. unfold supply. cbn [dynamic_data set_dynamic]. by rewrite lookup_insert_eq, Hd.
  - apply M_bind_Ok in Hrun as (a & l1 & Hg & Hrun). apply get_Ok in Hg as [_ ->].
    apply M_bind_Ok in Hrun as (? & ? & [= <- <-] & Hrun).
    apply M_bind_Ok in Hrun as (nv & l1 & Hdep & Hrun). apply deposit_lazy_arrives in Hdep; [|done|done].
    assert (l' = l1 ∨ ∃ a, l' = set_accounts a l1) as [->|[b ->]]; [|done|exact Hdep].
    destruct nv; [destruct (bool_decide _)|]; inv_ok; eauto.
Qed.

Lemma deposit_witness_pay_arrives wit amt l u l' :
  ledger_typed l → int64 amt → amt ≠ 0 → deposit_witness_pay wit amt l = Ok (u, l') →
  ∃ w, witnesses l !! wit = Some w ∧ vested_to (witness_account w) GRAPHENE_CORE_ASSET amt l l'.
Proof.
  intros Hl Ha Hnz Hrun. unfold deposit_witness_pay in Hrun. rewrite (proj2 (Z.eqb_neq amt 0)) in Hrun by done.
  apply M_bind_Ok in Hrun as (w & l1 & Hg & Hrun). apply get_Ok in Hg as [Hw ->].
  apply M_bind_Ok in Hrun as (? & ? & [= <- <-] & Hrun).
  apply M_bind_Ok in Hrun as (nv & l1 & Hdep & Hrun). apply deposit_lazy_arrives in Hdep; [|done|done].
  exists w. split; [done|]. assert (l' = l1 ∨ ∃ a, l' = set_witnesses a l1) as [->|[b ->]]; [|done|exact Hdep].
  destruct nv; [destruct (bool_decide _)|]; inv_ok; eauto.
Qed.

(** What a cashback does to the totals, and the parts of the ledger it leaves. *)
Definition same_funds (l l' : ledger) : Prop :=
  balances l' = balances l ∧ statistics l' = statistics l ∧ coupon_supply l' = coupon_supply l ∧
  parameters l' = parameters l ∧ head_block_time l' = head_block_time l ∧
  initial_time l' = initial_time l ∧
  ∀ i, accumulated_fees <$> dynamic_data l' !! i = accumulated_fees <$> dynamic_data l !! i.

Lemma same_funds_trans l1 l2 l3 : same_funds l1 l2 → same_funds l2 l3 → same_funds l1 l3.
Proof.
  intros (?&?&?&?&?&?&Hf1) (?&?&?&?&?&?&Hf2). repeat (split; [congruence|]). intros i. by rewrite Hf2.
Qed.

Lemma deposit_cashback_run i acct aid amt req l u l' :
  ledger_typed l → int64 amt → deposit_cashback acct aid amt req l = Ok (u, l') →
  wealth i l' - supply i l' = wealth i l - supply i l + only i (mk_asset amt aid) ∧
  same_funds l l' ∧ ledger_typed l'.
Proof.
  intros Hl Ha Hrun. unfold deposit_cashback in Hrun.
  destruct (Z.eqb_spec amt 0) as [->|Hnz].
  { inv_ok. split; [|done]. unfold only. cbn [asset_id amount]. destruct (aid =? i); lia. }
  destruct (is_special_account acct).
  - apply M_bind_Ok in Hrun as (d & l1 & Hg & Hrun). apply get_Ok in Hg as [Hd ->].
    apply M_bind_Ok in Hrun as (s & l1 & Hs & Hrun). apply lift_Ok in Hs as [Hs ->]. inv_ok.
    destruct (ty_dynamic l Hl aid d Hd) as [Hsup Hacc].
    apply safe_sub_Ok in Hs as [-> Hi]; [|done|done]. split; [|split].
    + unfold wealth, supply, only. cbn [balances vestings dynamic_data set_dynamic asset_id amount].
      destruct (Z.eqb_spec aid i) as [->|]; [rewrite lookup_insert_eq, Hd; cbn; lia|].
      rewrite lookup_insert_ne by done. lia.
    + repeat (split; [done|]). intros j. cbn [dynamic_data set_dynamic].
      destruct (decide (j = aid)) as [->|]; [by rewrite lookup_insert_eq, Hd|by rewrite lookup_insert_ne].
    + destruct Hl as [Hv Hn Hdy]. constructor; [done|done|]. cbn [dynamic_data set_dynamic]. intros j e.
      destruct (decide (j = aid)) as [->|]; [rewrite lookup_insert_eq|rewrite lookup_insert_ne by done; apply Hdy].
      by intros [= <-].
  - apply M_bind_Ok in Hrun as (a & l1 & Hg & Hrun). apply get_Ok in Hg as [Hacc ->].
    apply M_bind_Ok in Hrun as (? & ? & [= <- <-] & Hrun).
    apply M_bind_Ok in Hrun as (nv & l1 & Hdep & Hrun).
    destruct (deposit_lazy_run i _ _ _ _ _ _ _ _ _ Hl Ha Hdep) as (Hw & Hsame & Hty).
    assert (l' = l1 ∨ ∃ a, l' = set_accounts a l1) as Hl'.
    { destruct nv; [destruct (bool_decide _)|]; inv_ok; eauto. }
    destruct Hsame as (v & n & ->).
    assert (same_funds l (set_vestings v n l)) as Hsf by done.
    destruct Hl' as [->|[acc ->]].
    + split; [|done]. unfold supply in *. cbn [dynamic_data set_vestings]. lia.
    + split; [|split; [done|by destruct Hty]].
      replace (wealth i (set_accounts acc _)) with (wealth i (set_vestings v n l)) by done.
      unfold supply in *. cbn [dynamic_data set_vestings set_accounts]. lia.
Qed.

Lemma deposit_witness_pay_wealth i wit amt l u l' :
  ledger_typed l → int64 amt → deposit_witness_pay wit amt l = Ok (u, l') →
  wealth i l' = wealth i l + only i (mk_asset amt GRAPHENE_CORE_ASSET) ∧ supply i l' = supply i l.
Proof.
  intros Hl Ha Hrun. unfold deposit_witness_pay in Hrun.
  destruct (Z.eqb_spec amt 0) as [->|Hnz].
  { inv_ok. unfold only. cbn [asset_id amount]. destruct (_ =? i); split; lia || done. }
  apply M_bind_Ok in Hrun as (w & l1 & Hg & Hrun). apply get_Ok in Hg as [Hw ->].
  apply M_bind_Ok in Hrun as (? & ? & [= <- <-] & Hrun).
  apply M_bind_Ok in Hrun as (nv & l1 & Hdep & Hrun).
  destruct (deposit_lazy_run i _ _ _ _ _ _ _ _ _ Hl Ha Hdep) as (Hwe & (v & n & ->) & _).
  assert (wealth i l' = wealth i (set_vestings v n l) ∧ dynamic_data l' = dynamic_data l) as [Hw' Hd'].
  { destruct nv; [destruct (bool_decide _)|]; by inv_ok. }
  unfold supply. by rewrite Hd', Hw'.
Qed.

Lemma only_neg i a b : amount b = - amount a → asset_id b = asset_id a → only i b = - only i a.
Proof. unfold only. intros -> ->. destruct (_ =? i); lia. Qed.

Lemma vesting_create_wealth i creator own a p l j l' :
  ledger_ok l → int64 (amount a) → vesting_create_apply creator own a p l = Ok (j, l') →
  wealth i l' = wealth i l ∧ supply i l' = supply i l.
Proof.
  intros Hl Ha Hrun. unfold vesting_create_apply in Hrun.
  apply M_bind_Ok in Hrun as (? & ? & [= <- <-] & Hrun).
  apply M_bind_Ok in Hrun as (? & ? & Has & Hrun). apply assert_st_Ok in Has as [_ ->].
  apply M_bind_Ok in Hrun as (debit & ? & Hd & Hrun). apply lift_Ok in Hd as [Hd ->].
  unfold asset_neg in Hd. inv_ok.
  match goal with Hn : safe_neg _ = Ok _ |- _ => apply safe_neg_Ok in Hn as [-> Hdi]; [|done] end.
  match goal with Hadj : adjust_balance _ _ _ ?d _ = _ |- _ =>
    assert (int64 (amount d)) as Hdi' by done;
    destruct (adjust_balance_wealth i _ _ _ _ _ _ _ Hl Hdi' Hadj) as [Hw Hs];
    destruct (adjust_balance_Ok _ _ _ _ _ _ _ Hl Hdi' Hadj) as [Hl' _] end.
  rewrite vesting_wealth_create by (by apply ledger_ok_typed). rewrite Hw. split; [|exact Hs].
  cbn [vb_balance]. rewrite (only_neg i a) by done. lia.
Qed.

Lemma vesting_withdraw_wealth i j own a l u l' :
  ledger_ok l → int64 (amount a) → 0 ≤ amount a → vesting_withdraw_apply j own a l = Ok (u, l') →
  (∀ v, vestings l !! j = Some v → amount a ≤ allowed v (head_block_time l)) →
  wealth i l' = wealth i l ∧ supply i l' = supply i l ∧ ledger_ok l'.
Proof.
  intros Hl Ha Hpos Hrun Hal. unfold vesting_withdraw_apply in Hrun.
  apply M_bind_Ok in Hrun as (v & ? & Hg & Hrun). apply get_Ok in Hg as [Hv ->].
  apply M_bind_Ok in Hrun as (? & ? & [= <- <-] & Hrun).
  apply M_bind_Ok in Hrun as (v' & ? & Hw & Hrun). apply lift_Ok in Hw as [Hw ->].
  apply M_bind_Ok in Hrun as (? & ? & [= <- <-] & Hrun).
  apply M_bind_Ok in Hrun as (? & l2 & Hrm & Hadj).
  pose proof (ty_vesting _ (ledger_ok_typed l Hl) _ _ Hv) as Hvi.
  destruct (withdraw_funds _ _ _ _ Hvi Ha Hw) as (Hid & Hle & Hb).
  destruct (withdraw_spec v (head_block_time l) (amount a)) as (w & Hw' & Hwok & _);
    [by apply (ok_vesting l Hl j)|by split; [|apply Hal]|].
  assert (a = mk_asset (amount a) (asset_id (vb_balance v))) as Hae by (destruct a; cbn in *; congruence).
  rewrite <- Hae, Hw in Hw'. injection Hw' as <-.
  set (l1 := set_vestings (<[j:=v']> (vestings l)) (next_vesting_id l) l) in *.
  assert (ledger_ok l1) as Hl1.
  { apply ledger_ok_vesting; [done|done|by eapply vesting_id_below|lia]. }
  assert (wealth i l1 = wealth i l - only i a) as Hw1.
  { unfold l1. rewrite (vesting_wealth_update _ _ v) by done. rewrite Hb. unfold only.
    cbn [asset_id amount] in *. rewrite Hid. destruct (_ =? i); lia. }
  assert (wealth i l2 = wealth i l1 ∧ supply i l2 = supply i l1 ∧ ledger_ok l2) as (Hw2 & Hs2 & Hl2).
  { destruct (bautoremove v' && (amount (vb_balance v') <=? 0)) eqn:Hb'; inv_ok; [|done].
    apply andb_true_iff in Hb' as [_ Hz]. split; [|split; [done|by apply (ledger_ok_delete l1 j)]].
    unfold wealth. cbn [balances vestings set_vestings]. rewrite (msum_delete _ _ _ v')
      by (unfold l1; cbn [vestings set_vestings]; apply lookup_insert_eq).
    assert (vesting_wealth i j v' = 0) as ->; [|unfold l1; cbn [vestings set_vestings]; lia].
    unfold vesting_wealth. rewrite Hb in *. cbn [asset_id amount] in *. destruct (_ =? i); lia. }
  destruct (adjust_balance_wealth i _ _ _ _ _ _ _ Hl2 Ha Hadj) as [Hwf Hsf].
  destruct (adjust_balance_Ok _ _ _ _ _ _ _ Hl2 Ha Hadj) as [Hlf _].
  split_and!; [lia| |done]. rewrite Hsf, Hs2. done.
Qed.
End Conservation.

(** ** The properties *)

(** [adjust_balance] changes the balance it names by exactly the amount given
    and nothing else; it throws precisely when the balance would become negative
    or overflow, and an amount of zero changes nothing. *)
Theorem adjust_balance_exact utype info acct d l :
  ledger_ok l → int64 (amount d) → (record_history l = true → utype < balance_max) →
  let k := (acct, asset_id d) in
  let b := held k l + amount d in
  (is_ok (adjust_balance utype info acct d l) = true ↔ 0 ≤ b ≤ int64_max) ∧
  (∀ u l', adjust_balance utype info acct d l = Ok (u, l') →
     ledger_ok l' ∧ held k l' = b ∧ (∀ k', k' ≠ k → held k' l' = held k' l) ∧
     ∃ h, l' = set_applied h (set_balances (balances l') l)).
Proof.
  intros Hl Hd Hu k b. destruct (held_ok k l (ledger_ok_balances _ Hl)) as [Hh Hh']. split.
  - destruct (decide (amount d = 0)) as [Hz|Hnz].
    { unfold adjust_balance. rewrite Hz. cbn. unfold b. rewrite Hz. split; [int_lia|done]. }
    pose proof (adjust_balance_run utype info acct d l (ledger_ok_balances _ Hl) Hd Hnz Hu) as Hrun. cbv zeta in Hrun.
    fold k in Hrun. fold b in Hrun.
    destruct (Z.ltb_spec b 0); [destruct Hrun as [e ->]; cbn; split; [done|lia]|].
    destruct (Z.ltb_spec int64_max b); [rewrite Hrun; cbn; split; [done|lia]|].
    destruct Hrun as (l' & -> & _). cbn. split; [lia|done].
  - intros u l' Hrun. destruct (adjust_balance_Ok _ _ _ _ _ _ _ Hl Hd Hrun) as [Hl' [[-> Hz]|Hc]].
    + split; [done|]. unfold b. rewrite Hz. split; [lia|]. split; [done|].
      exists (applied_balances l). by destruct l.
    + split; [done|]. split; [|split].
      * rewrite (credited_held _ _ _ _ _ Hc), decide_True by done. done.
      * intros k' Hk'. rewrite (credited_held _ _ _ _ _ Hc), decide_False by done. lia.
      * destruct Hc as [h ->]. by exists h.
Qed.

(** Account [acct] holds [d] more of its asset, no other balance differs and no vesting balance. *)
Definition arrives (acct aid d : Z) (l l' : ledger) : Prop :=
  vestings l' = vestings l ∧
  ∀ k, held k l' = held k l + (if decide (k = (acct, aid)) then d else 0).

Lemma adjust_balance_arrives utype info acct a l u l' :
  ledger_ok l → int64 (amount a) → adjust_balance utype info acct a l = Ok (u, l') →
  arrives acct (asset_id a) (amount a) l l'.
Proof.
  intros Hl Ha Hrun. destruct (adjust_balance_Ok _ _ _ _ _ _ _ Hl Ha Hrun) as [_ [[-> ->]|Hc]].
  - split; [done|]. intros k. case_decide; lia.
  - split; [by destruct Hc as [h ->]|]. intros k. by apply credited_held.
Qed.

Lemma vesting_create_arrives creator own a p l j l' :
  ledger_ok l → int64 (amount a) → vesting_create_apply creator own a p l = Ok (j, l') →
  vestings l !! j = None ∧
  (∃ v, vestings l' = <[j := v]> (vestings l) ∧ owner v = own ∧ vb_balance v = a) ∧
  ∀ k, held k l' = held k l - (if decide (k = (creator, asset_id a)) then amount a else 0).
Proof.
  intros Hl Ha Hrun. unfold vesting_create_apply in Hrun.
  apply M_bind_Ok in Hrun as (? & ? & [= <- <-] & Hrun).
  apply M_bind_Ok in Hrun as (? & ? & Has & Hrun). apply assert_st_Ok in Has as [_ ->].
  apply M_bind_Ok in Hrun as (debit & ? & Hd & Hrun). apply lift_Ok in Hd as [Hd ->].
  unfold asset_neg in Hd. inv_ok.
  match goal with Hn : safe_neg _ = Ok _ |- _ => apply safe_neg_Ok in Hn as [-> Hdi]; [|done] end.
  match goal with Hadj : adjust_balance _ _ _ ?d _ = _ |- _ =>
    assert (int64 (amount d)) as Hdi' by done;
    destruct (adjust_balance_Ok _ _ _ _ _ _ _ Hl Hdi' Hadj) as [Hl' _];
    destruct (adjust_balance_arrives _ _ _ _ _ _ _ Hl Hdi' Hadj) as [Hv Hh] end.
  split_and!; [rewrite <- Hv; apply (ok_next _ Hl'); lia|eexists; split_and!; [by rewrite Hv|done..]|].
  intros k. unfold held at 1. cbn [balances set_vestings]. match goal with Hh : ∀ _, held _ ?m = _ |- _ => change (default 0 _) with (held k m) end.
  rewrite Hh. cbn [asset_id amount]. case_decide; lia.
Qed.

(** C9: what each operation makes of the total of an asset over balances and vesting
    balances, and where the funds go: crediting a balance (or debiting it, for a negative
    amount) changes that balance alone, by the amount, and the total by as much; making a
    vesting balance takes the amount from the creator and puts it into a new balance of the
    owner, and neither that nor a withdrawal changes the total; none of these changes the
    supply. A cashback adds its amount, which the caller takes from the pending fees, to
    the total less the supply: it is vested for the account, or returned to the reserve
    where the account is a special one (the supply shrinks). Paying a witness vests the
    amount for the witness's account and leaves the supply. *)
Theorem ledger_conservation `{Division128} i l a l' :
  ledger_ok l → int64 (amount a) →
  (∀ utype info acct u, adjust_balance utype info acct a l = Ok (u, l') →
     arrives acct (asset_id a) (amount a) l l' ∧
     wealth i l' = wealth i l + only i a ∧ supply i l' = supply i l) ∧
  (∀ creator own p j, vesting_create_apply creator own a p l = Ok (j, l') →
     (vestings l !! j = None ∧
      (∃ v, vestings l' = <[j := v]> (vestings l) ∧ owner v = own ∧ vb_balance v = a) ∧
      ∀ k, held k l' = held k l - (if decide (k = (creator, asset_id a)) then amount a else 0)) ∧
     wealth i l' = wealth i l ∧ supply i l' = supply i l) ∧
  (∀ j own u, 0 ≤ amount a → vesting_withdraw_apply j own a l = Ok (u, l') →
     (∀ v, vestings l !! j = Some v → amount a ≤ allowed v (head_block_time l)) →
     wealth i l' = wealth i l ∧ supply i l' = supply i l) ∧
  (∀ acct req u, deposit_cashback acct (asset_id a) (amount a) req l = Ok (u, l') →
     (if is_special_account acct
      then balances l' = balances l ∧ vestings l' = vestings l ∧
           supply (asset_id a) l' = supply (asset_id a) l - amount a
      else vested_to acct (asset_id a) (amount a) l l') ∧
     wealth i l' - supply i l' = wealth i l - supply i l + only i a) ∧
  (∀ wit u, asset_id a = GRAPHENE_CORE_ASSET → deposit_witness_pay wit (amount a) l = Ok (u, l') →
     (amount a = 0 ∨
      ∃ w, witnesses l !! wit = Some w ∧ vested_to (witness_account w) GRAPHENE_CORE_ASSET (amount a) l l') ∧
     wealth i l' = wealth i l + only i a ∧ supply i l' = supply i l).
Proof.
  intros Hl Ha. pose proof (ledger_ok_typed l Hl) as Hty. split_and!.
  - intros utype info acct u Hrun. split; [by eapply adjust_balance_arrives|by eapply adjust_balance_wealth].
  - intros creator own p j Hrun. split; [by eapply vesting_create_arrives|by eapply vesting_create_wealth].
  - intros j own u Hpos Hrun Hal. destruct (vesting_withdraw_wealth i j own a l u l') as (? & ? & _); done.
  - intros acct req u Hrun. split; [by eapply deposit_cashback_arrives|].
    destruct (deposit_cashback_run i _ _ _ _ _ _ _ Hty Ha Hrun) as [-> _]. by destruct a.
  - intros wit u Hid Hrun. split.
    { destruct (decide (amount a = 0)); [by left|right]. by eapply deposit_witness_pay_arrives. }
    destruct (deposit_witness_pay_wealth i wit (amount a) l u l' Hty Ha Hrun) as [-> ?].
    rewrite <- Hid. by destruct a.
Qed.

Section Withdrawal.
Context `{Division128}.

Lemma asset_leb_id a b : asset_leb a b = Ok true → asset_id a = asset_id b.
Proof.
  unfold asset_leb, asset_eqb, asset_ltb. destruct (Z.eqb_spec (asset_id a) (asset_id b)); [done|].
  cbn [andb]. by intros; inv_ok.
Qed.

Lemma evaluate_withdraw_Ok i own a l u l0 :
  ledger_ok l → 0 ≤ amount a → vesting_withdraw_evaluate i own a l = Ok (u, l0) →
  l0 = l ∧ ∃ v acct, vestings l !! i = Some v ∧ accounts l !! own = Some acct ∧ owner v = own ∧
    asset_id a = asset_id (vb_balance v) ∧ amount a ≤ allowed v (head_block_time l) ∧
    is_lock_balance acct = false.
Proof.
  intros Hl Ha Hrun. unfold vesting_withdraw_evaluate in Hrun.
  apply M_bind_Ok in Hrun as (v & ? & Hg & Hrun). apply get_Ok in Hg as [Hv ->].
  apply M_bind_Ok in Hrun as (? & ? & Has & Hrun). apply assert_st_Ok in Has as [Ho ->].
  apply M_bind_Ok in Hrun as (? & ? & [= <- <-] & Hrun).
  apply M_bind_Ok in Hrun as (ok & ? & Hok & Hrun). apply lift_Ok in Hok as [Hok ->].
  apply M_bind_Ok in Hrun as (? & ? & Has & Hrun). apply assert_st_Ok in Has as [-> ->].
  apply M_bind_Ok in Hrun as (le & ? & Hle & Hrun). apply lift_Ok in Hle as [Hle ->].
  apply M_bind_Ok in Hrun as (? & ? & Has & Hrun). apply assert_st_Ok in Has as [-> ->].
  apply M_bind_Ok in Hrun as (acct & ? & Hg & Hrun). apply get_Ok in Hg as [Hacct ->].
  apply assert_st_Ok in Hrun as [Hlk ->]. split; [done|]. exists v, acct.
  pose proof (asset_leb_id _ _ Hle) as Hid.
  assert (a = mk_asset (amount a) (asset_id (vb_balance v))) as Hae by (destruct a; cbn in *; congruence).
  rewrite Hae, is_withdraw_allowed_spec in Hok by (done || by apply (ok_vesting l Hl i)).
  injection Hok as Hok. split_and!; try done; [lia|lia|]. by destruct (is_lock_balance acct).
Qed.

(** A withdrawal that is evaluated successfully is applied successfully,
    unless the owner's balance would overflow: exactly the amount leaves the
    vesting balance and arrives on the owner's balance, no other balance changes
    and the ledger stays well formed. *)
Theorem vesting_withdrawal_applies i own a l u l0 :
  ledger_ok l → int64 (amount a) → 0 < amount a →
  held (own, asset_id a) l + amount a ≤ int64_max →
  vesting_withdraw_evaluate i own a l = Ok (u, l0) →
  ∃ l', vesting_withdraw_apply i own a l = Ok ((), l') ∧ ledger_ok l' ∧
    vested_funds i l' = vested_funds i l - amount a ∧
    held (own, asset_id a) l' = held (own, asset_id a) l + amount a ∧
    (∀ k, k ≠ (own, asset_id a) → held k l' = held k l) ∧
    (∀ j, j ≠ i → vestings l' !! j = vestings l !! j).
Proof.
  intros Hl Ha Hpos Hmax Hev. destruct (evaluate_withdraw_Ok _ _ _ _ _ _ Hl (Z.lt_le_incl _ _ Hpos) Hev)
    as (-> & v & acct & Hv & _ & _ & Hid & Hal & _).
  pose proof (ok_vesting l Hl i v Hv) as Hvok.
  destruct (withdraw_spec v (head_block_time l) (amount a) Hvok ltac:(lia)) as (v' & Hw & Hvok' & _ & Hb & _).
  assert (a = mk_asset (amount a) (asset_id (vb_balance v))) as Hae by (destruct a; cbn in *; congruence).
  rewrite <- Hae in Hw. unfold vesting_withdraw_apply.
  set (l1 := set_vestings (<[i:=v']> (vestings l)) (next_vesting_id l) l).
  assert (ledger_ok l1) as Hl1.
  { apply ledger_ok_vesting; [done|done|by eapply vesting_id_below|lia]. }
  set (l2 := if bautoremove v' && (amount (vb_balance v') <=? 0)
             then set_vestings (delete i (vestings l1)) (next_vesting_id l1) l1 else l1).
  assert (ledger_ok l2) as Hl2.
  { unfold l2. destruct (_ && _); [by apply ledger_ok_delete|done]. }
  assert (balances l2 = balances l) as Hb2 by (unfold l2; by destruct (_ && _)).
  assert (vested_funds i l2 = vested_funds i l - amount a) as Hf2.
  { unfold vested_funds. rewrite Hv. unfold l2.
    pose proof (allowed_range v' _ Hvok') as [Hr _].
    destruct (bautoremove v' && (amount (vb_balance v') <=? 0)) eqn:Hrm; cbn [vestings set_vestings l1].
    - rewrite lookup_delete_eq. apply andb_true_iff in Hrm as [_ Hz]. rewrite Hb in *. cbn [amount] in *. lia.
    - unfold l1. cbn [vestings set_vestings]. by rewrite lookup_insert_eq, Hb. }
  pose proof (adjust_balance_run 75 "" own a l2 (ledger_ok_balances _ Hl2) Ha ltac:(lia) ltac:(done)) as Hadj. cbv zeta in Hadj.
  assert (∀ k, held k l2 = held k l) as Hh by (intros k; unfold held; by rewrite Hb2).
  rewrite Hh in Hadj. destruct (held_ok (own, asset_id a) l (ledger_ok_balances _ Hl)) as [Hh0 _].
  destruct (Z.ltb_spec (held (own, asset_id a) l + amount a) 0); [lia|].
  destruct (Z.ltb_spec int64_max (held (own, asset_id a) l + amount a)); [lia|].
  destruct Hadj as (l' & Hadj & Hc). exists l'. split; [|split; [|split; [|split; [|split]]]].
  - unfold get. run_e. rewrite Hv. cbn. rewrite Hw. fold l1. unfold l2 in Hadj.
    destruct (bautoremove v' && (amount (vb_balance v') <=? 0)); exact Hadj.
  - eapply credited_ok; [exact Hl2| | |exact Hc]; rewrite Hh; [lia|int_lia].
  - destruct Hc as [h ->]. exact Hf2.
  - rewrite (credited_held _ _ _ _ _ Hc), decide_True, Hh by done. done.
  - intros k Hk. rewrite (credited_held _ _ _ _ _ Hc), decide_False, Hh by done. lia.
  - intros j Hj. destruct Hc as [h ->]. cbn [vestings set_applied set_balances]. unfold l2.
    destruct (_ && _); unfold l1; cbn [vestings set_vestings]; rewrite ?lookup_delete_ne, lookup_insert_ne by done;
      done.
Qed.
End Withdrawal.

(** ** Witnesses *)

Definition demo_params : ledger_parameters := mk_params 100 100 1000 5 50.
Definition demo_account : account_object := mk_account 7 7 7 2000 3000 5000 (Some 0) 0.
Definition demo_dynamic : asset_dynamic_data := mk_dyn 1000000 0 0.
Definition demo_ledger : ledger :=
  mk_ledger {[ (7, 0) := 100 ]} {[ 0 := demo_vesting ]} 1 {[ 0 := demo_dynamic ]} {[ 7 := demo_account ]}
    ∅ {[ 2 := mk_witness_pay 7 None ]} 90 0 0 demo_params true [].

Lemma demo_ledger_ok `{Division128} : ledger_ok demo_ledger.
Proof.
  constructor; cbn [demo_ledger balances vestings dynamic_data head_block_time next_vesting_id].
  - intros k b [<- <-]%lookup_singleton_Some. split; [lia|int_lia].
  - intros i v [<- <-]%lookup_singleton_Some. apply demo_vesting_ok; unfold uint; lia.
  - intros i Hi. apply lookup_singleton_None. lia.
  - intros i d [<- <-]%lookup_singleton_Some. cbn [demo_dynamic current_supply accumulated_fees]. split; int_lia.
  - unfold uint. lia.
Qed.

Lemma adjust_balance_exact_witness :
  is_ok (adjust_balance 74 "" 7 (mk_asset (-30) 0) demo_ledger) = true ∧
  is_ok (adjust_balance 74 "" 7 (mk_asset (-101) 0) demo_ledger) = false.
Proof.
  split; [|by vm_compute].
  apply (adjust_balance_exact 74 "" 7 (mk_asset (-30) 0) demo_ledger).
  - apply demo_ledger_ok.
  - cbn [amount]. int_lia.
  - intros _. unfold balance_max. lia.
  - split; by vm_compute.
Defined.

Lemma ledger_conservation_witness :
  ∃ l', vesting_create_apply 7 9 (mk_asset 40 0) (cdd_initializer 0 60) demo_ledger = Ok (1, l') ∧
    wealth 0 l' = 1100 ∧ held (7, 0) l' = 60.
Proof.
  eexists. split; [by vm_compute|].
  match goal with |- wealth 0 ?x = _ ∧ _ =>
    destruct (ledger_conservation 0 demo_ledger (mk_asset 40 0) x) as (_ & Hc & _) end.
  - apply demo_ledger_ok.
  - cbn [amount]. int_lia.
  - destruct (Hc 7 9 (cdd_initializer 0 60) 1) as [(_ & _ & Hh) [-> _]]; [by vm_compute|].
    rewrite Hh. split; by vm_compute.
Defined.

Lemma vesting_withdrawal_applies_witness :
  ∃ l', vesting_withdraw_apply 0 7 (mk_asset 250 0) demo_ledger = Ok ((), l') ∧
    held (7, 0) l' = 350.
Proof.
  assert (vesting_withdraw_evaluate 0 7 (mk_asset 250 0) demo_ledger = Ok ((), demo_ledger)) as Hev
    by (by vm_compute).
  destruct (vesting_withdrawal_applies 0 7 (mk_asset 250 0) demo_ledger () demo_ledger) as (l' & Hl' & _ & _ & Hh & _).
  - apply demo_ledger_ok.
  - cbn [amount]. int_lia.
  - cbn [amount]. lia.
  - by vm_compute.
  - exact Hev.
  - exists l'. split; [exact Hl'|]. cbn [asset_id amount] in Hh. rewrite Hh. by vm_compute.
Defined.
