(* ===== verification/Fees.v ===== *)
(** * Fees: libraries/chain/account_object.cpp, evaluator.hpp and evaluator.cpp

    The fee of an operation is prepared, paid into the statistics of the payer
    (or taken from its coupons) when the operation is applied, and disseminated at
    the maintenance interval.  Assertions of the C library ([assert]) are compiled
    out of a release build and are not part of the model: that they hold is a
    consequence of the theorems. *)

From S2P Require Import Prelude Safe Uint128 Asset Vesting Balance.

Local Open Scope Z_scope.

Definition GRAPHENE_100_PERCENT : Z := 10000.

(** ** account_object.cpp *)

Section Statistics.
Context `{Division128}.

(** [cut_fee]. *)
Definition cut_fee (a p : Z) : result Z :=
  if (a =? 0) || (p =? 0) then Ok 0
  else if p =? GRAPHENE_100_PERCENT then Ok a
  else
    v ← to_uint64 (div128 (mul128 (of_int64 a) (of_uint64 p)) (of_uint64 GRAPHENE_100_PERCENT));
    mret (to_sint 64 v).

Definition with_pending (s : account_statistics) (p v : Z) : account_statistics :=
  mk_stats p v (lifetime_fees_paid s) (coupon_fees s) (amount_coupon s) (coupon_month s)
    (activate_time s) (activate_count s).
Definition with_coupon_fees (s : account_statistics) (c : Z) : account_statistics :=
  mk_stats (pending_fees s) (pending_vested_fees s) (lifetime_fees_paid s) c (amount_coupon s)
    (coupon_month s) (activate_time s) (activate_count s).
Definition with_coupon (s : account_statistics) (a m : Z) : account_statistics :=
  mk_stats (pending_fees s) (pending_vested_fees s) (lifetime_fees_paid s) (coupon_fees s) a m
    (activate_time s) (activate_count s).
Definition with_lifetime (s : account_statistics) (f : Z) : account_statistics :=
  mk_stats (pending_fees s) (pending_vested_fees s) f (coupon_fees s) (amount_coupon s)
    (coupon_month s) (activate_time s) (activate_count s).
Definition with_activity (s : account_statistics) (t n : Z) : account_statistics :=
  mk_stats (pending_fees s) (pending_vested_fees s) (lifetime_fees_paid s) (coupon_fees s)
    (amount_coupon s) (coupon_month s) t n.

(** [modify( statistics, ... )]. *)
Definition put_statistics (i : Z) (s : account_statistics) : M ledger () :=
  modify_st (λ l, set_statistics (<[i := s]> (statistics l)) l).

(** [account_statistics_object::pay_fee]. *)
Definition pay_fee_stats (core_fee threshold : Z) (s : account_statistics) : result account_statistics :=
  if threshold <? core_fee
  then f ← safe_add (pending_fees s) core_fee; mret (with_pending s f (pending_vested_fees s))
  else f ← safe_add (pending_vested_fees s) core_fee; mret (with_pending s (pending_fees s) f).

(** The time coupons expire; [time_point_sec] counts in 32 bits. *)
Definition coupon_expiry (l : ledger) : Z :=
  to_uint 32 (initial_time l + coupon_expire_time (parameters l)).

(** [account_statistics_object::set_coupon] of the statistics [s] of account
    [own]; [month_flag] is [fc::get_month_flag]. *)
Definition set_coupon (month_flag : Z → Z) (own fee : Z) (bset : bool) (s : account_statistics)
    : M ledger account_statistics :=
  l ← get_st;
  if bset then
    if (head_block_time l <? coupon_expiry l) &&
       negb (coupon_month s =? month_flag (head_block_time l)) &&
       (amount_coupon s <? coupon_per_month (parameters l))
    then
      d ← lift (safe_sub (coupon_per_month (parameters l)) (amount_coupon s));
      core_add ← lift (safe_add d fee);
      if 0 <? core_add then
        a ← lift (safe_add (amount_coupon s) core_add);
        c ← lift (safe_add (coupon_supply l) core_add);
        put_st (set_coupon_supply c l) ;;
        mret (with_coupon s a (month_flag (head_block_time l)))
      else mret s
    else mret s
  else if 0 <? amount_coupon s then
    (if 100 <? own then
       c ← lift (safe_sub (coupon_supply l) (amount_coupon s));
       put_st (set_coupon_supply c l)
     else mret ()) ;;
    mret (with_coupon s 0 0)
  else mret s.

(** The five parts of [core_fee_total]. *)
Record fee_cuts := mk_cuts {
  network_cut : Z; lifetime_cut : Z; referral : Z; referrer_cut : Z; registrar_cut : Z
}.

Definition split_fees (a : account_object) (core_fee_total : Z) : result fee_cuts :=
  network ← cut_fee core_fee_total (network_fee_percentage a);
  lifetime ← cut_fee core_fee_total (lifetime_referrer_fee_percentage a);
  rest ← safe_sub core_fee_total network;
  referral ← safe_sub rest lifetime;
  referrer ← cut_fee referral (referrer_rewards_percentage a);
  registrar ← safe_sub referral referrer;
  mret (mk_cuts network lifetime referral referrer registrar).

(** [pay_out_fees]. *)
Definition pay_out_fees (a : account_object) (core_fee_total : Z) (require_vesting : bool)
    : M ledger () :=
  cuts ← lift (split_fees a core_fee_total);
  d ← get dynamic_data GRAPHENE_CORE_ASSET;
  f ← lift (safe_add (accumulated_fees d) (network_cut cuts));
  modify_st (λ l, set_dynamic (<[GRAPHENE_CORE_ASSET := mk_dyn (current_supply d) f (fee_pool d)]>
    (dynamic_data l)) l) ;;
  get accounts (lifetime_referrer a) ;;
  deposit_cashback (lifetime_referrer a) GRAPHENE_CORE_ASSET (lifetime_cut cuts) require_vesting ;;
  get accounts (referrer a) ;;
  deposit_cashback (referrer a) GRAPHENE_CORE_ASSET (referrer_cut cuts) require_vesting ;;
  get accounts (registrar a) ;;
  deposit_cashback (registrar a) GRAPHENE_CORE_ASSET (registrar_cut cuts) require_vesting.

(** [account_statistics_object::process_fees] of account [i]; the three blocks. *)
Definition disseminate (i : Z) (a : account_object) : M ledger () :=
  s ← get statistics i;
  if (0 <? pending_fees s) || (0 <? pending_vested_fees s) then
    pay_out_fees a (pending_fees s) true ;;
    pay_out_fees a (pending_vested_fees s) false ;;
    sum ← lift (safe_add (pending_fees s) (pending_vested_fees s));
    paid ← lift (safe_add (lifetime_fees_paid s) sum);
    put_statistics i (with_pending (with_lifetime s paid) 0 0)
  else mret ().

Definition burn_coupon_fees (i : Z) : M ledger () :=
  s ← get statistics i;
  if 0 <? coupon_fees s then
    l ← get_st;
    c ← lift (safe_sub (coupon_supply l) (coupon_fees s));
    put_st (set_coupon_supply c l) ;;
    put_statistics i (with_coupon_fees s 0)
  else mret ().

Definition expire_coupon (month_flag : Z → Z) (i : Z) : M ledger () :=
  s ← get statistics i;
  l ← get_st;
  if (0 <? amount_coupon s) && (coupon_expiry l <=? head_block_time l) then
    s ← set_coupon month_flag i 0 false s; put_statistics i s
  else mret ().

Definition process_fees (month_flag : Z → Z) (i : Z) (a : account_object) : M ledger () :=
  disseminate i a ;; burn_coupon_fees i ;; expire_coupon month_flag i.
End Statistics.

(** ** evaluator.hpp and evaluator.cpp *)

(** The members of [generic_evaluator] and the flags of the transaction state. *)
Record evaluator := mk_evaluator {
  fee_from_account : asset;
  core_fee_paid : Z;
  is_coupon_fee : bool;
  is_pay_fee : bool;
  fee_paying_account : Z
}.

Record evaluation_flags := mk_flags { skip_fee : bool; skip_fee_schedule_check : bool }.

Definition set_paid (c : Z) (e : evaluator) : evaluator :=
  mk_evaluator (fee_from_account e) c (is_coupon_fee e) (is_pay_fee e) (fee_paying_account e).
Definition set_coupon_flag (b : bool) (e : evaluator) : evaluator :=
  mk_evaluator (fee_from_account e) (core_fee_paid e) b (is_pay_fee e) (fee_paying_account e).
Definition set_pay_flag (b : bool) (e : evaluator) : evaluator :=
  mk_evaluator (fee_from_account e) (core_fee_paid e) (is_coupon_fee e) b (fee_paying_account e).

(** [prepare_fee]; [authorized] is [is_authorized_asset] of the payer and the
    asset. A fee in another asset than the core asset fails, [FC_ASSERT( false )];
    the conversion written after it is never reached. *)
Definition prepare_fee (authorized : Z → Z → bool) (account_id : Z) (fee : asset)
    : M ledger evaluator :=
  assert_st (0 <=? amount fee) ;;
  get accounts account_id ;;
  get statistics account_id ;;
  get dynamic_data (asset_id fee) ;;
  assert_st (authorized account_id (asset_id fee)) ;;
  assert_st (asset_id fee =? GRAPHENE_CORE_ASSET) ;;
  mret (mk_evaluator fee (amount fee) false false account_id).

(** [convert_fee]. *)
Definition convert_fee (fl : evaluation_flags) (e : evaluator) : M ledger () :=
  if skip_fee fl then mret ()
  else if asset_id (fee_from_account e) =? GRAPHENE_CORE_ASSET then mret ()
  else
    let i := asset_id (fee_from_account e) in
    d ← get dynamic_data i;
    f ← lift (safe_add (accumulated_fees d) (amount (fee_from_account e)));
    p ← lift (safe_sub (fee_pool d) (core_fee_paid e));
    modify_st (λ l, set_dynamic (<[i := mk_dyn (current_supply d) f p]> (dynamic_data l)) l).

(** The operations by their tag: [account_coupon_operation] pays with coupons. *)
Definition pay_fee (fl : evaluation_flags) (is_coupon_operation : bool) (e : evaluator)
    : M ledger evaluator :=
  if skip_fee fl then mret e else
  s ← get statistics (fee_paying_account e);
  l ← get_st;
  let e := set_pay_flag true e in
  let s := with_activity s (head_block_time l) (to_uint 64 (activate_count s + 1)) in
  if (asset_id (fee_from_account e) =? GRAPHENE_CORE_ASSET) &&
     (is_coupon_operation || (core_fee_paid e <=? amount_coupon s))
  then
    c ← lift (safe_add (coupon_fees s) (core_fee_paid e));
    put_statistics (fee_paying_account e) (with_coupon_fees s c) ;;
    mret (set_coupon_flag true e)
  else
    s ← lift (pay_fee_stats (core_fee_paid e) (cashback_vesting_threshold (parameters l)) s);
    put_statistics (fee_paying_account e) s ;;
    mret (set_coupon_flag false e).

(** [rollback_fee]. *)
Definition rollback_fee (fl : evaluation_flags) (e : evaluator) : M ledger evaluator :=
  if skip_fee fl then mret e else
  let e := set_pay_flag false e in
  s ← get statistics (fee_paying_account e);
  l ← get_st;
  s ← (if is_coupon_fee e
       then c ← lift (safe_sub (coupon_fees s) (core_fee_paid e)); mret (with_coupon_fees s c)
       else f ← lift (safe_neg (core_fee_paid e));
            lift (pay_fee_stats f (cashback_vesting_threshold (parameters l)) s));
  put_statistics (fee_paying_account e) s ;; mret e.

(** [db_adjust_balance]. *)
Definition db_adjust_balance (e : evaluator) (fee_payer : Z) (fee : asset) : M ledger () :=
  if is_pay_fee e then
    if is_coupon_fee e then
      s ← get statistics (fee_paying_account e);
      a ← lift (safe_add (amount_coupon s) (amount fee));
      put_statistics (fee_paying_account e) (with_coupon s a (coupon_month s))
    else adjust_balance 60 "" fee_payer fee
  else mret ().

(** The fee check of [evaluator::evaluate]: a fee of one unit stands for the
    required fee. *)
Definition check_fee (fl : evaluation_flags) (required_fee : Z) (fee : asset) (e : evaluator)
    : result evaluator :=
  if skip_fee_schedule_check fl then Ok e
  else if amount fee =? 1 then
    GRAPHENE_ASSERT (0 <? required_fee) insufficient_fee ;; mret (set_paid required_fee e)
  else GRAPHENE_ASSERT (required_fee <=? core_fee_paid e) insufficient_fee ;; mret e.

(** What an operation is to the evaluator: the fee and its payer, the schedule's
    fee and the evaluator's own [do_evaluate] and [do_apply]. *)
Record operation := mk_operation {
  fee_payer : Z;
  op_fee : asset;
  required_fee : Z;
  is_coupon_operation : bool;
  do_evaluate : M ledger ();
  do_apply : evaluator → M ledger evaluator
}.

Definition evaluate (authorized : Z → Z → bool) (fl : evaluation_flags) (o : operation)
    : M ledger evaluator :=
  e ← prepare_fee authorized (fee_payer o) (op_fee o);
  e ← lift (check_fee fl (required_fee o) (op_fee o) e);
  do_evaluate o ;; mret e.

Definition apply (fl : evaluation_flags) (o : operation) (e : evaluator) : M ledger () :=
  convert_fee fl e ;;
  e ← pay_fee fl (is_coupon_operation o) e;
  e ← do_apply o e;
  debit ← lift (asset_neg (fee_from_account e));
  db_adjust_balance e (fee_payer o) debit.

(** [start_evaluate]. *)
Definition start_evaluate (authorized : Z → Z → bool) (fl : evaluation_flags) (o : operation)
    (app : bool) : M ledger () :=
  e ← evaluate authorized fl o; if app then apply fl o e else mret ().

(** ** Cutting a fee *)

#[local] Opaque mul128 add128 sub128.

Section Cuts.
Context `{Division128}.

(** The share in 128 bits, rounded down. *)
Lemma percentage_128 a p :
  0 ≤ a → int64 a → 0 ≤ p ≤ 10000 →
  (v ← to_uint64 (div128 (mul128 (of_int64 a) (of_uint64 p)) (of_uint64 10000)); mret (to_sint 64 v))
  = Ok (a * p / 10000).
Proof.
  intros Ha Ha' Hp.
  assert (0 ≤ a * p / 10000 ≤ a) as Hr.
  { split; [apply Z.div_pos; nia|]. apply Z.div_le_upper_bound; nia. }
  destruct (amount_times_seconds a p) as (Hm & Hmv & _); [done|done|lia|].
  assert (wf128 (of_uint64 10000)) as Hdw by (apply wf_of_uint64; unfold uint; lia).
  pose proof (div128_wf _ _ Hm Hdw ltac:(rewrite val_of_uint64; lia)) as Hq.
  pose proof (div128_val _ _ Hm Hdw ltac:(rewrite val_of_uint64; lia)) as Hqv.
  rewrite val_of_uint64, Hmv in Hqv.
  rewrite to_uint64_spec by (done || rewrite Hqv; int_lia). cbn [mbind result_bind]. rewrite Hqv.
  by rewrite to_sint_64_id by int_lia.
Qed.

Lemma cut_fee_spec a p :
  0 ≤ a → int64 a → 0 ≤ p ≤ GRAPHENE_100_PERCENT →
  cut_fee a p = Ok (a * p / GRAPHENE_100_PERCENT) ∧ 0 ≤ a * p / GRAPHENE_100_PERCENT ≤ a.
Proof.
  intros Ha Ha' Hp. unfold GRAPHENE_100_PERCENT in *.
  assert (0 ≤ a * p / 10000 ≤ a) as Hr.
  { split; [apply Z.div_pos; nia|]. apply Z.div_le_upper_bound; nia. }
  split; [|done]. unfold cut_fee, GRAPHENE_100_PERCENT.
  destruct (Z.eqb_spec a 0) as [->|]; [done|]. destruct (Z.eqb_spec p 0) as [->|]; cbn [orb].
  { by rewrite Z.mul_0_r. }
  destruct (Z.eqb_spec p 10000) as [->|]; [by rewrite Z.div_mul|].
  rewrite percentage_128 by (done || lia). done.
Qed.

(** The percentages [account_object] may have. *)
Definition percentages_ok (a : account_object) : Prop :=
  0 ≤ network_fee_percentage a ∧ 0 ≤ lifetime_referrer_fee_percentage a ∧
  network_fee_percentage a + lifetime_referrer_fee_percentage a ≤ GRAPHENE_100_PERCENT ∧
  0 ≤ referrer_rewards_percentage a ≤ GRAPHENE_100_PERCENT.

Lemma split_fees_spec a t :
  percentages_ok a → 0 ≤ t → int64 t →
  ∃ c, split_fees a t = Ok c ∧
    network_cut c = t * network_fee_percentage a / GRAPHENE_100_PERCENT ∧
    lifetime_cut c = t * lifetime_referrer_fee_percentage a / GRAPHENE_100_PERCENT ∧
    referrer_cut c = referral c * referrer_rewards_percentage a / GRAPHENE_100_PERCENT ∧
    network_cut c + lifetime_cut c + referrer_cut c + registrar_cut c = t ∧
    0 ≤ network_cut c ∧ 0 ≤ lifetime_cut c ∧ 0 ≤ referrer_cut c ∧ 0 ≤ registrar_cut c.
Proof.
  intros (Hn & Hl & Hnl & Hr) Ht Ht'. unfold split_fees.
  destruct (cut_fee_spec t (network_fee_percentage a)) as [-> Hnr]; [done|done|lia|].
  destruct (cut_fee_spec t (lifetime_referrer_fee_percentage a)) as [-> Hlr]; [done|done|lia|].
  cbn [mbind result_bind].
  set (n := t * network_fee_percentage a / GRAPHENE_100_PERCENT) in *.
  set (m := t * lifetime_referrer_fee_percentage a / GRAPHENE_100_PERCENT) in *.
  assert (n + m ≤ t) as Hsum.
  { unfold n, m, GRAPHENE_100_PERCENT in *.
    pose proof (Z.mul_div_le (t * network_fee_percentage a) 10000 ltac:(lia)).
    pose proof (Z.mul_div_le (t * lifetime_referrer_fee_percentage a) 10000 ltac:(lia)). nia. }
  rewrite safe_sub_spec, bool_decide_eq_true_2 by int_lia. cbn [mbind result_bind].
  rewrite safe_sub_spec, bool_decide_eq_true_2 by int_lia. cbn [mbind result_bind].
  destruct (cut_fee_spec (t - n - m) (referrer_rewards_percentage a)) as [-> Hrr]; [lia|int_lia|lia|].
  cbn [mbind result_bind]. rewrite safe_sub_spec, bool_decide_eq_true_2 by int_lia.
  cbn [mbind result_bind]. eexists. split; [reflexivity|]. cbn. lia.
Qed.
End Cuts.

(** ** Where core shares are *)

Definition accumulated (i : Z) (l : ledger) : Z :=
  match dynamic_data l !! i with Some d => accumulated_fees d | None => 0 end.

Definition pending_of (_ : Z) (s : account_statistics) : Z := pending_fees s + pending_vested_fees s.
Definition coupons_of (_ : Z) (s : account_statistics) : Z := coupon_fees s + amount_coupon s.

(** The core shares in balances, vesting balances, accumulated and pending fees,
    less the recorded supply. *)
Definition core_funds (l : ledger) : Z :=
  wealth GRAPHENE_CORE_ASSET l + accumulated GRAPHENE_CORE_ASSET l + msum pending_of (statistics l)
  - supply GRAPHENE_CORE_ASSET l.

(** The coupons of the accounts, less the recorded supply of coupons. *)
Definition coupon_funds (l : ledger) : Z := msum coupons_of (statistics l) - coupon_supply l.

Definition stats_typed (s : account_statistics) : Prop :=
  int64 (pending_fees s) ∧ int64 (pending_vested_fees s) ∧ int64 (coupon_fees s) ∧
  int64 (amount_coupon s) ∧ int64 (lifetime_fees_paid s).

Definition statistics_typed (l : ledger) : Prop :=
  (∀ i s, statistics l !! i = Some s → stats_typed s) ∧ int64 (coupon_supply l).

Section Payout.
Context `{Division128}.

Lemma accumulated_same l l' :
  (∀ i, accumulated_fees <$> dynamic_data l' !! i = accumulated_fees <$> dynamic_data l !! i) →
  ∀ i, accumulated i l' = accumulated i l.
Proof.
  intros Hd i. specialize (Hd i). unfold accumulated.
  destruct (dynamic_data l' !! i), (dynamic_data l !! i); cbn in Hd; congruence.
Qed.

(** The quantity a payout raises by its total. *)
Definition paid_funds (l : ledger) : Z :=
  wealth GRAPHENE_CORE_ASSET l + accumulated GRAPHENE_CORE_ASSET l - supply GRAPHENE_CORE_ASSET l.

Definition same_accounts (l l' : ledger) : Prop :=
  statistics l' = statistics l ∧ coupon_supply l' = coupon_supply l ∧ parameters l' = parameters l ∧
  head_block_time l' = head_block_time l ∧ initial_time l' = initial_time l.

Lemma same_accounts_trans l1 l2 l3 : same_accounts l1 l2 → same_accounts l2 l3 → same_accounts l1 l3.
Proof. intros (?&?&?&?&?) (?&?&?&?&?). repeat split; congruence. Qed.

Lemma cashback_step acct amt req l u l' :
  ledger_typed l → int64 amt → deposit_cashback acct GRAPHENE_CORE_ASSET amt req l = Ok (u, l') →
  paid_funds l' = paid_funds l + amt ∧ same_accounts l l' ∧ ledger_typed l'.
Proof.
  intros Hl Ha Hrun.
  destruct (deposit_cashback_run GRAPHENE_CORE_ASSET _ _ _ _ _ _ _ Hl Ha Hrun) as (Hw & Hs & Hty).
  destruct Hs as (? & ? & ? & ? & ? & ? & Hacc). split; [|done].
  unfold paid_funds. rewrite (accumulated_same _ _ Hacc). unfold only in Hw. cbn [asset_id amount] in Hw.
  rewrite Z.eqb_refl in Hw. lia.
Qed.

Lemma pay_out_fees_run a t req l u l' :
  ledger_typed l → percentages_ok a → 0 ≤ t → int64 t → pay_out_fees a t req l = Ok (u, l') →
  paid_funds l' = paid_funds l + t ∧ same_accounts l l' ∧ ledger_typed l'.
Proof.
  intros Hl Hp Ht Ht' Hrun. unfold pay_out_fees in Hrun.
  destruct (split_fees_spec a t Hp Ht Ht') as (c & Hc & _ & _ & _ & Hsum & Hn & Hlt & Hrf & Hrg).
  apply M_bind_Ok in Hrun as (c' & ? & Hc' & Hrun). apply lift_Ok in Hc' as [Hc' ->].
  rewrite Hc in Hc'. injection Hc' as <-.
  apply M_bind_Ok in Hrun as (d & ? & Hg & Hrun). apply get_Ok in Hg as [Hd ->].
  apply M_bind_Ok in Hrun as (f & ? & Hf & Hrun). apply lift_Ok in Hf as [Hf ->].
  destruct (ty_dynamic l Hl _ _ Hd) as [Hsup Hacc].
  apply safe_add_Ok in Hf as [-> Hfi]; [|done|int_lia].
  apply M_bind_Ok in Hrun as (? & l1 & [= <- Hl1] & Hrun).
  assert (paid_funds l1 = paid_funds l + network_cut c ∧ same_accounts l l1 ∧ ledger_typed l1) as (H1 & S1 & T1).
  { subst l1. split; [|split; [done|]].
    - unfold paid_funds, accumulated, supply. cbn [dynamic_data set_dynamic].
      rewrite lookup_insert_eq, Hd. cbn [current_supply accumulated_fees].
      replace (wealth _ (set_dynamic _ l)) with (wealth GRAPHENE_CORE_ASSET l) by done. lia.
    - destruct Hl as [Hv Hnx Hdy]. constructor; [done|done|]. cbn [dynamic_data set_dynamic]. intros j e.
      destruct (decide (j = GRAPHENE_CORE_ASSET)) as [->|];
        [rewrite lookup_insert_eq|rewrite lookup_insert_ne by done; apply Hdy]. by intros [= <-]. }
  apply M_bind_Ok in Hrun as (? & ? & Hg & Hrun). apply get_Ok in Hg as [_ ->].
  apply M_bind_Ok in Hrun as (? & l2 & Hd2 & Hrun).
  apply M_bind_Ok in Hrun as (? & ? & Hg & Hrun). apply get_Ok in Hg as [_ ->].
  apply M_bind_Ok in Hrun as (? & l3 & Hd3 & Hrun).
  apply M_bind_Ok in Hrun as (? & ? & Hg & Hrun). apply get_Ok in Hg as [_ ->].
  assert (int64 (lifetime_cut c) ∧ int64 (referrer_cut c) ∧ int64 (registrar_cut c)) as (I2 & I3 & I4)
    by int_lia.
  destruct (cashback_step _ _ _ _ _ _ T1 I2 Hd2) as (H2 & S2 & T2).
  destruct (cashback_step _ _ _ _ _ _ T2 I3 Hd3) as (H3 & S3 & T3).
  destruct (cashback_step _ _ _ _ _ _ T3 I4 Hrun) as (H4 & S4 & T4).
  split; [lia|]. split; [|done].
  eapply same_accounts_trans; [exact S1|]. eapply same_accounts_trans; [exact S2|].
  by eapply same_accounts_trans.
Qed.
End Payout.

Section Dissemination.
Context `{Division128}.

Lemma core_funds_paid l : core_funds l = paid_funds l + msum pending_of (statistics l).
Proof. unfold core_funds, paid_funds. lia. Qed.

(** Updating the statistics [s] of account [i]. *)
Lemma statistics_update i s s' l :
  statistics l !! i = Some s →
  let l' := set_statistics (<[i := s']> (statistics l)) l in
  core_funds l' = core_funds l - pending_of i s + pending_of i s' ∧
  coupon_funds l' = coupon_funds l - coupons_of i s + coupons_of i s'.
Proof.
  intros Hs l'. unfold core_funds, coupon_funds, l'. cbn [statistics set_statistics coupon_supply].
  rewrite !(msum_insert _ _ _ s) by done.
  replace (wealth _ (set_statistics _ l)) with (wealth GRAPHENE_CORE_ASSET l) by done.
  replace (accumulated _ (set_statistics _ l)) with (accumulated GRAPHENE_CORE_ASSET l) by done.
  replace (supply _ (set_statistics _ l)) with (supply GRAPHENE_CORE_ASSET l) by done. lia.
Qed.

Lemma statistics_update_typed i s' l :
  statistics_typed l → stats_typed s' → statistics_typed (set_statistics (<[i := s']> (statistics l)) l).
Proof.
  intros [Hl Hc] Hs'. split; [|exact Hc]. intros j s. cbn [statistics set_statistics].
  destruct (decide (j = i)) as [->|]; [rewrite lookup_insert_eq|rewrite lookup_insert_ne by done; apply Hl].
  by intros [= <-].
Qed.

Lemma put_statistics_Ok i s l u l' :
  put_statistics i s l = Ok (u, l') → l' = set_statistics (<[i := s]> (statistics l)) l.
Proof. intros Hp. unfold put_statistics, modify_st in Hp. by inversion Hp. Qed.

(** A block of [process_fees] of account [i] keeps both totals and the types, and
    changes no other account's statistics. *)
Definition keeps_funds (l l' : ledger) : Prop :=
  core_funds l' = core_funds l ∧ coupon_funds l' = coupon_funds l ∧
  ledger_typed l' ∧ statistics_typed l'.

Lemma disseminate_run i a l u l' s :
  ledger_typed l → statistics_typed l → percentages_ok a →
  statistics l !! i = Some s → 0 ≤ pending_fees s → 0 ≤ pending_vested_fees s →
  disseminate i a l = Ok (u, l') →
  keeps_funds l l' ∧
  statistics l' !! i = Some (with_pending
    (with_lifetime s (lifetime_fees_paid s + pending_fees s + pending_vested_fees s)) 0 0).
Proof.
  intros Hl Hst Hp Hs Hpf Hpv Hrun. unfold disseminate in Hrun.
  apply M_bind_Ok in Hrun as (s' & ? & Hg & Hrun). apply get_Ok in Hg as [Hs' ->].
  rewrite Hs in Hs'. injection Hs' as <-.
  destruct (proj1 Hst _ _ Hs) as (Tp & Tv & Tc & Ta & Tl).
  destruct ((0 <? pending_fees s) || (0 <? pending_vested_fees s)) eqn:Hpos.
  - apply M_bind_Ok in Hrun as (? & l1 & H1 & Hrun).
    apply M_bind_Ok in Hrun as (? & l2 & H2 & Hrun).
    destruct (pay_out_fees_run _ _ _ _ _ _ Hl Hp Hpf Tp H1) as (F1 & S1 & T1).
    destruct (pay_out_fees_run _ _ _ _ _ _ T1 Hp Hpv Tv H2) as (F2 & S2 & T2).
    destruct (same_accounts_trans _ _ _ S1 S2) as (Est & Ecs & _).
    apply M_bind_Ok in Hrun as (sm & ? & Hsm & Hrun). apply lift_Ok in Hsm as [Hsm ->].
    apply safe_add_Ok in Hsm as [-> Ism]; [|done..].
    apply M_bind_Ok in Hrun as (pd & ? & Hpd & Hrun). apply lift_Ok in Hpd as [Hpd ->].
    apply safe_add_Ok in Hpd as [-> Ipd]; [|done..].
    apply put_statistics_Ok in Hrun as ->.
    rewrite <- Est in Hs. destruct (statistics_update i s
      (with_pending (with_lifetime s (lifetime_fees_paid s + (pending_fees s + pending_vested_fees s))) 0 0)
      l2 Hs) as [Hc1 Hc2].
    split; [split; [|split; [|split]]|].
    + rewrite Hc1, !core_funds_paid, Est. unfold pending_of at 2 3. cbn. lia.
    + rewrite Hc2. unfold coupon_funds. rewrite Est, Ecs. unfold coupons_of at 2 3. cbn. lia.
    + by destruct T2.
    + apply statistics_update_typed.
      * destruct Hst as [Ht Hc]. split; [intros j; rewrite Est; apply Ht|by rewrite Ecs].
      * pose proof int64_0. by split_and!.
    + cbn [statistics set_statistics]. rewrite lookup_insert_eq. by rewrite Z.add_assoc.
  - inv_ok. split; [by split_and!|]. apply orb_false_iff in Hpos as [H1 H2].
    assert (pending_fees s = 0 ∧ pending_vested_fees s = 0) as [Z1 Z2] by lia.
    rewrite Hs. f_equal. destruct s. unfold with_pending, with_lifetime. cbn in *. subst. f_equal. lia.
Qed.

Lemma burn_run i l u l' s :
  ledger_typed l → statistics_typed l → statistics l !! i = Some s → 0 ≤ coupon_fees s →
  burn_coupon_fees i l = Ok (u, l') →
  keeps_funds l l' ∧ statistics l' !! i = Some (with_coupon_fees s 0).
Proof.
  intros Hl Hst Hs Hcf Hrun. unfold burn_coupon_fees in Hrun.
  apply M_bind_Ok in Hrun as (s' & ? & Hg & Hrun). apply get_Ok in Hg as [Hs' ->].
  rewrite Hs in Hs'. injection Hs' as <-.
  destruct (proj1 Hst _ _ Hs) as (Tp & Tv & Tc & Ta & Tl).
  destruct (Z.ltb_spec 0 (coupon_fees s)).
  - apply M_bind_Ok in Hrun as (? & ? & [= <- <-] & Hrun).
    apply M_bind_Ok in Hrun as (c & ? & Hc & Hrun). apply lift_Ok in Hc as [Hc ->].
    apply safe_sub_Ok in Hc as [-> Ic]; [|apply Hst|done].
    apply M_bind_Ok in Hrun as (? & ? & [= <- <-] & Hrun). apply put_statistics_Ok in Hrun as ->.
    set (l1 := set_coupon_supply _ l).
    destruct (statistics_update i s (with_coupon_fees s 0) l1 Hs) as [Hc1 Hc2].
    split; [split; [|split; [|split]]|].
    + rewrite Hc1. replace (core_funds l1) with (core_funds l) by done. unfold pending_of. cbn. lia.
    + rewrite Hc2. unfold coupon_funds, coupons_of at 2 3. cbn. lia.
    + by destruct Hl.
    + apply (statistics_update_typed i (with_coupon_fees s 0) l1); [by split; [apply Hst|]|].
      pose proof int64_0. by split_and!.
    + cbn [statistics set_statistics]. apply lookup_insert_eq.
  - inv_ok. split; [by split_and!|]. rewrite Hs. f_equal. assert (coupon_fees s = 0) by lia.
    destruct s. unfold with_coupon_fees. cbn in *. congruence.
Qed.

Lemma expire_run mf i l u l' s :
  ledger_typed l → statistics_typed l → 100 < i → statistics l !! i = Some s →
  expire_coupon mf i l = Ok (u, l') →
  keeps_funds l l' ∧
  statistics l' !! i = Some (if (0 <? amount_coupon s) && (coupon_expiry l <=? head_block_time l)
                             then with_coupon s 0 0 else s).
Proof.
  intros Hl Hst Hi Hs Hrun. unfold expire_coupon in Hrun.
  apply M_bind_Ok in Hrun as (s' & ? & Hg & Hrun). apply get_Ok in Hg as [Hs' ->].
  rewrite Hs in Hs'. injection Hs' as <-.
  apply M_bind_Ok in Hrun as (? & ? & [= <- <-] & Hrun).
  destruct (proj1 Hst _ _ Hs) as (Tp & Tv & Tc & Ta & Tl).
  destruct ((0 <? amount_coupon s) && (coupon_expiry l <=? head_block_time l)) eqn:Hexp; [|by inv_ok].
  apply andb_true_iff in Hexp as [Hpos _].
  apply M_bind_Ok in Hrun as (s1 & l1 & Hset & Hrun). apply put_statistics_Ok in Hrun as ->.
  unfold set_coupon in Hset. apply M_bind_Ok in Hset as (? & ? & [= <- <-] & Hset).
  rewrite Hpos in Hset. destruct (Z.ltb_spec 100 i); [|lia].
  apply M_bind_Ok in Hset as (? & ? & Hset & Hret).
  apply M_bind_Ok in Hset as (c & ? & Hc & Hset). apply lift_Ok in Hc as [Hc ->].
  apply safe_sub_Ok in Hc as [-> Ic]; [|apply Hst|done].
  injection Hset as <- <-. injection Hret as <- <-.
  set (l1 := set_coupon_supply _ l).
  destruct (statistics_update i s (with_coupon s 0 0) l1 Hs) as [Hc1 Hc2].
  split; [split; [|split; [|split]]|].
  - rewrite Hc1. replace (core_funds l1) with (core_funds l) by done. unfold pending_of. cbn. lia.
  - rewrite Hc2. unfold coupon_funds, coupons_of at 2 3. cbn. lia.
  - by destruct Hl.
  - apply (statistics_update_typed i (with_coupon s 0 0) l1); [by split; [apply Hst|]|].
    pose proof int64_0. by split_and!.
  - cbn [statistics set_statistics]. apply lookup_insert_eq.
Qed.

(** The maintenance dissemination of an account's fees neither creates nor
    loses shares: what was pending goes to the network, the referrers, the
    registrar and the reserve, the coupons burnt leave the recorded supply of coupons, the lifetime total grows by what was
    pending, and nothing is pending afterwards. *)
Theorem process_fees_conserves mf i a l u l' s :
  ledger_typed l → statistics_typed l → percentages_ok a → 100 < i →
  statistics l !! i = Some s → 0 ≤ pending_fees s → 0 ≤ pending_vested_fees s → 0 ≤ coupon_fees s →
  process_fees mf i a l = Ok (u, l') →
  core_funds l' = core_funds l ∧ coupon_funds l' = coupon_funds l ∧
  ∃ s', statistics l' !! i = Some s' ∧ pending_fees s' = 0 ∧ pending_vested_fees s' = 0 ∧
    coupon_fees s' = 0 ∧
    lifetime_fees_paid s' = lifetime_fees_paid s + pending_fees s + pending_vested_fees s.
Proof.
  intros Hl Hst Hp Hi Hs Hpf Hpv Hcf Hrun. unfold process_fees in Hrun.
  apply M_bind_Ok in Hrun as (? & l1 & H1 & Hrun). apply M_bind_Ok in Hrun as (? & l2 & H2 & H3).
  destruct (disseminate_run _ _ _ _ _ _ Hl Hst Hp Hs Hpf Hpv H1) as ((F1 & C1 & L1 & T1) & S1).
  destruct (burn_run _ _ _ _ _ L1 T1 S1 Hcf H2) as ((F2 & C2 & L2 & T2) & S2).
  destruct (expire_run _ _ _ _ _ _ L2 T2 Hi S2 H3) as ((F3 & C3 & _ & _) & S3).
  split; [congruence|]. split; [congruence|]. eexists. split; [exact S3|].
  by destruct ((_ <? _) && _).
Qed.
End Dissemination.

(** ** Paying a fee *)

Section Payment.
Context `{Division128}.

(** Everything the evaluators rely on in the ledger. *)
Definition ledger_fine (l : ledger) : Prop :=
  ledger_ok l ∧ statistics_typed l ∧ int64 (cashback_vesting_threshold (parameters l)).

(** A computation that keeps the totals of shares and of coupons. *)
Definition conserves {A} (m : M ledger A) : Prop :=
  ∀ l a l', ledger_fine l → m l = Ok (a, l') →
    core_funds l' = core_funds l ∧ coupon_funds l' = coupon_funds l ∧ ledger_fine l'.

Lemma conserves_bind {A B} (m : M ledger A) (f : A → M ledger B) :
  conserves m → (∀ a, conserves (f a)) → conserves (m ≫= f).
Proof.
  intros Hm Hf l b l' Hl Hrun. apply M_bind_Ok in Hrun as (a & l1 & H1 & H2).
  destruct (Hm _ _ _ Hl H1) as (F1 & C1 & L1). destruct (Hf a _ _ _ L1 H2) as (F2 & C2 & L2).
  split_and!; [congruence|congruence|done].
Qed.

Lemma conserves_ret {A} (a : A) : conserves (mret a).
Proof. intros l b l' Hl [= <- <-]. done. Qed.
Lemma conserves_lift {A} (r : result A) : conserves (lift r).
Proof. intros l b l' Hl Hr. apply lift_Ok in Hr as [_ ->]. done. Qed.
Lemma conserves_get {A} (index : ledger → gmap Z A) i : conserves (get index i).
Proof. intros l b l' Hl Hr. apply get_Ok in Hr as [_ ->]. done. Qed.

Lemma prepare_fee_Ok auth i fee l e l' :
  prepare_fee auth i fee l = Ok (e, l') →
  l' = l ∧ e = mk_evaluator fee (amount fee) false false i ∧ 0 ≤ amount fee ∧
  asset_id fee = GRAPHENE_CORE_ASSET.
Proof.
  intros Hrun. unfold prepare_fee in Hrun.
  apply M_bind_Ok in Hrun as (? & ? & Ha & Hrun). apply assert_st_Ok in Ha as [Ha ->].
  apply M_bind_Ok in Hrun as (? & ? & Hg & Hrun). apply get_Ok in Hg as [_ ->].
  apply M_bind_Ok in Hrun as (? & ? & Hg & Hrun). apply get_Ok in Hg as [_ ->].
  apply M_bind_Ok in Hrun as (? & ? & Hg & Hrun). apply get_Ok in Hg as [_ ->].
  apply M_bind_Ok in Hrun as (? & ? & Hb & Hrun). apply assert_st_Ok in Hb as [_ ->].
  apply M_bind_Ok in Hrun as (? & ? & Hb & Hrun). apply assert_st_Ok in Hb as [Hb ->].
  injection Hrun as <- <-. split_and!; [done|done|lia|lia].
Qed.

(** What [pay_fee] books, and what [db_adjust_balance] takes for it. *)
Definition booked (fl : evaluation_flags) (e e' : evaluator) (l l' : ledger) : Prop :=
  ledger_fine l' ∧ fee_from_account e' = fee_from_account e ∧
  fee_paying_account e' = fee_paying_account e ∧
  if skip_fee fl then l' = l ∧ e' = e
  else is_pay_fee e' = true ∧
    core_funds l' = core_funds l + (if is_coupon_fee e' then 0 else core_fee_paid e) ∧
    coupon_funds l' = coupon_funds l + (if is_coupon_fee e' then core_fee_paid e else 0).

Lemma statistics_fine i s l :
  ledger_fine l → stats_typed s → ledger_fine (set_statistics (<[i := s]> (statistics l)) l).
Proof.
  intros (Hl & Hs & Ht) Hsi. split; [by destruct Hl|]. split; [by apply statistics_update_typed|done].
Qed.

Lemma pay_fee_run fl co e l e' l' :
  ledger_fine l → int64 (core_fee_paid e) → pay_fee fl co e l = Ok (e', l') → booked fl e e' l l'.
Proof.
  intros Hl Hi Hrun. pose proof Hl as (Hok & Hst & Hth). unfold booked. unfold pay_fee in Hrun.
  destruct (skip_fee fl) eqn:Hsk; [by inversion Hrun; subst|].
  apply M_bind_Ok in Hrun as (s & ? & Hg & Hrun). apply get_Ok in Hg as [Hs ->].
  apply M_bind_Ok in Hrun as (? & ? & [= <- <-] & Hrun). cbv zeta in Hrun.
  destruct (proj1 Hst _ _ Hs) as (Tp & Tv & Tc & Ta & Tl).
  set (sa := with_activity s _ _) in Hrun.
  cbn [fee_from_account set_pay_flag core_fee_paid fee_paying_account] in Hrun.
  destruct (_ && _) in Hrun.
  - apply M_bind_Ok in Hrun as (c & ? & Hc & Hrun). apply lift_Ok in Hc as [Hc ->].
    apply safe_add_Ok in Hc as [-> Ic]; [|done|done].
    apply M_bind_Ok in Hrun as (? & ? & Hp & Hrun). apply put_statistics_Ok in Hp as ->.
    injection Hrun as <- <-. cbn [coupon_fees sa with_activity] in *.
    destruct (statistics_update (fee_paying_account e) s
      (with_coupon_fees sa (coupon_fees s + core_fee_paid e)) l Hs) as [Hc1 Hc2].
    split; [by apply statistics_fine|]. split; [done|]. split; [done|]. split; [done|].
    cbn [is_coupon_fee set_coupon_flag]. cbn [sa with_activity coupon_fees] in Hc1, Hc2.
    rewrite Hc1, Hc2. unfold pending_of, coupons_of. cbn. lia.
  - apply M_bind_Ok in Hrun as (s' & ? & Hc & Hrun). apply lift_Ok in Hc as [Hc ->].
    apply M_bind_Ok in Hrun as (? & ? & Hp & Hrun). apply put_statistics_Ok in Hp as ->.
    injection Hrun as <- <-.
    assert (stats_typed s' ∧ pending_of 0 s' = pending_of 0 s + core_fee_paid e ∧
            coupons_of 0 s' = coupons_of 0 s) as (Ts & Hp1 & Hp2).
    { unfold pay_fee_stats in Hc. destruct (_ <? _); inv_ok;
        (match goal with Hs : safe_add _ _ = Ok _ |- _ => apply safe_add_Ok in Hs as [-> ?]; [|done..] end);
        unfold pending_of, coupons_of; cbn; (split; [by split_and!|]); lia. }
    destruct (statistics_update (fee_paying_account e) s s' l Hs) as [Hc1 Hc2].
    split; [by apply statistics_fine|]. split; [done|]. split; [done|]. split; [done|].
    cbn [is_coupon_fee set_coupon_flag]. rewrite Hc1, Hc2. unfold pending_of, coupons_of in *. lia.
Qed.

Lemma credited_fine k d l l' :
  ledger_fine l → ledger_ok l' → credited k d l l' → ledger_fine l'.
Proof. intros (_ & Hs & Ht) Hok [h ->]. by split_and!. Qed.

Lemma db_adjust_balance_run e payer fee l u l' :
  ledger_fine l → int64 (amount fee) → asset_id fee = GRAPHENE_CORE_ASSET → is_pay_fee e = true →
  db_adjust_balance e payer fee l = Ok (u, l') →
  ledger_fine l' ∧ core_funds l' = core_funds l + (if is_coupon_fee e then 0 else amount fee) ∧
  coupon_funds l' = coupon_funds l + (if is_coupon_fee e then amount fee else 0).
Proof.
  intros Hl Hi Hid Hp Hrun. pose proof Hl as (Hok & Hst & Hth). unfold db_adjust_balance in Hrun.
  rewrite Hp in Hrun. destruct (is_coupon_fee e).
  - apply M_bind_Ok in Hrun as (s & ? & Hg & Hrun). apply get_Ok in Hg as [Hs ->].
    destruct (proj1 Hst _ _ Hs) as (Tp & Tv & Tc & Ta & Tl).
    apply M_bind_Ok in Hrun as (c & ? & Hc & Hrun). apply lift_Ok in Hc as [Hc ->].
    apply safe_add_Ok in Hc as [-> Ic]; [|done|done]. apply put_statistics_Ok in Hrun as ->.
    destruct (statistics_update (fee_paying_account e) s
      (with_coupon s (amount_coupon s + amount fee) (coupon_month s)) l Hs) as [Hc1 Hc2].
    split; [by apply statistics_fine|]. rewrite Hc1, Hc2. unfold pending_of, coupons_of. cbn. lia.
  - destruct (adjust_balance_Ok _ _ _ _ _ _ _ Hok Hi Hrun) as [Hok' Hc].
    destruct (adjust_balance_wealth GRAPHENE_CORE_ASSET _ _ _ _ _ _ _ Hok Hi Hrun) as [Hw Hs].
    assert (only GRAPHENE_CORE_ASSET fee = amount fee) as Ho by (unfold only; by rewrite Hid).
    rewrite Ho in Hw. destruct Hc as [[-> Hz]|Hc].
    + split; [done|]. rewrite Hz. lia.
    + split; [by eapply credited_fine|]. destruct Hc as [h ->].
      unfold core_funds, coupon_funds in *. rewrite Hw, Hs. cbn [statistics coupon_supply set_applied set_balances].
      replace (accumulated _ _) with (accumulated GRAPHENE_CORE_ASSET l) by done. lia.
Qed.

(** What the schedule makes the statistics of the payer owe: the fee of the operation, or
    the required fee in place of a fee of one unit. *)
Definition due (fl : evaluation_flags) (o : operation) : Z :=
  if negb (skip_fee_schedule_check fl) && (amount (op_fee o) =? 1) then required_fee o else amount (op_fee o).

(** The statistics of the payer after [d] is owed in coupons, or in shares. *)
Definition owing (by_coupons : bool) (d : Z) (l : ledger) (s : account_statistics) : account_statistics :=
  let sa := with_activity s (head_block_time l) (to_uint 64 (activate_count s + 1)) in
  if by_coupons then with_coupon_fees sa (coupon_fees s + d)
  else if cashback_vesting_threshold (parameters l) <? d then with_pending sa (pending_fees s + d) (pending_vested_fees s)
  else with_pending sa (pending_fees s) (pending_vested_fees s + d).

(** From the evaluation ([l1]) to the application ([l2]) only the statistics of the payer
    change: they owe what is due.  After the application ([l3]) the payer alone is debited:
    its balance of the core asset, or its coupons. *)
Definition fee_moved fl (o : operation) (l1 l2 l3 l' : ledger) : Prop :=
  let i := fee_payer o in
  if skip_fee fl then l2 = l1 ∧ l' = l3 else
  ∃ s, statistics l1 !! i = Some s ∧
  let by_coupons := is_coupon_operation o || (due fl o <=? amount_coupon s) in
  l2 = set_statistics (<[i := owing by_coupons (due fl o) l1 s]> (statistics l1)) l1 ∧
  if by_coupons then
    ∃ s3, statistics l3 !! i = Some s3 ∧
      l' = set_statistics (<[i := with_coupon s3 (amount_coupon s3 - amount (op_fee o)) (coupon_month s3)]> (statistics l3)) l3
  else
    (∃ h b, l' = set_applied h (set_balances b l3)) ∧ amount (op_fee o) ≤ held (i, GRAPHENE_CORE_ASSET) l3 ∧
    ∀ k, held k l' = held k l3 - (if decide (k = (i, GRAPHENE_CORE_ASSET)) then amount (op_fee o) else 0).

Lemma pay_fee_exact fl co e l e' l' :
  ledger_fine l → int64 (core_fee_paid e) → asset_id (fee_from_account e) = GRAPHENE_CORE_ASSET →
  pay_fee fl co e l = Ok (e', l') →
  if skip_fee fl then e' = e ∧ l' = l else
  ∃ s, statistics l !! fee_paying_account e = Some s ∧
    let by_coupons := co || (core_fee_paid e <=? amount_coupon s) in
    e' = set_coupon_flag by_coupons (set_pay_flag true e) ∧
    l' = set_statistics (<[fee_paying_account e := owing by_coupons (core_fee_paid e) l s]> (statistics l)) l.
Proof.
  intros (Hok & Hst & Hth) Hi Hcore Hrun. unfold pay_fee in Hrun.
  destruct (skip_fee fl); [by injection Hrun as <- <-|].
  apply M_bind_Ok in Hrun as (s & ? & Hg & Hrun). apply get_Ok in Hg as [Hs ->].
  apply M_bind_Ok in Hrun as (? & ? & [= <- <-] & Hrun). cbv zeta in Hrun.
  destruct (proj1 Hst _ _ Hs) as (Tp & Tv & Tc & Ta & Tl). exists s. split; [done|]. cbv zeta.
  set (sa := with_activity s _ _) in Hrun. cbn [fee_from_account set_pay_flag core_fee_paid fee_paying_account] in Hrun.
  rewrite Hcore in Hrun. cbn [andb Z.eqb GRAPHENE_CORE_ASSET] in Hrun. change (amount_coupon sa) with (amount_coupon s) in Hrun.
  unfold owing. fold sa. destruct (co || (core_fee_paid e <=? amount_coupon s)) in *.
  - apply M_bind_Ok in Hrun as (c & ? & Hc & Hrun). apply lift_Ok in Hc as [Hc ->].
    apply safe_add_Ok in Hc as [-> Ic]; [|done|done].
    apply M_bind_Ok in Hrun as (? & ? & Hp & Hrun). apply put_statistics_Ok in Hp as ->. by injection Hrun as <- <-.
  - apply M_bind_Ok in Hrun as (s' & ? & Hc & Hrun). apply lift_Ok in Hc as [Hc ->].
    apply M_bind_Ok in Hrun as (? & ? & Hp & Hrun). apply put_statistics_Ok in Hp as ->. injection Hrun as <- <-.
    split; [done|]. f_equal. f_equal. unfold pay_fee_stats in Hc.
    destruct (_ <? _); inv_ok; (match goal with Hs : safe_add _ _ = Ok _ |- _ => apply safe_add_Ok in Hs as [-> ?]; [|done..] end); done.
Qed.

Lemma db_adjust_balance_exact e i fee l u l' :
  ledger_fine l → int64 (- fee) → 0 ≤ fee → is_pay_fee e = true → fee_paying_account e = i →
  db_adjust_balance e i (mk_asset (- fee) GRAPHENE_CORE_ASSET) l = Ok (u, l') →
  if is_coupon_fee e then
    ∃ s, statistics l !! i = Some s ∧
      l' = set_statistics (<[i := with_coupon s (amount_coupon s - fee) (coupon_month s)]> (statistics l)) l
  else
    (∃ h b, l' = set_applied h (set_balances b l)) ∧ fee ≤ held (i, GRAPHENE_CORE_ASSET) l ∧
    ∀ k, held k l' = held k l - (if decide (k = (i, GRAPHENE_CORE_ASSET)) then fee else 0).
Proof.
  intros (Hok & Hst & Hth) Hi Hpos Hp Hpa Hrun. unfold db_adjust_balance in Hrun. rewrite Hp, Hpa in Hrun.
  destruct (is_coupon_fee e).
  - apply M_bind_Ok in Hrun as (s & ? & Hg & Hrun). apply get_Ok in Hg as [Hs ->].
    destruct (proj1 Hst _ _ Hs) as (Tp & Tv & Tc & Ta & Tl).
    apply M_bind_Ok in Hrun as (c & ? & Hc & Hrun). apply lift_Ok in Hc as [Hc ->].
    apply safe_add_Ok in Hc as [-> Ic]; [|done|done]. apply put_statistics_Ok in Hrun as ->. by exists s.
  - destruct (adjust_balance_returned 60 "" i (mk_asset (- fee) GRAPHENE_CORE_ASSET) l u l' (ledger_ok_balances _ Hok) Hi Hrun)
      as (Hc & Hge & _). cbn [amount asset_id] in *.
    destruct Hc as [[-> Hz]|Hc]; (split; [|split; [lia|]]).
    + exists (applied_balances l), (balances l). by destruct l.
    + intros k. case_decide; lia.
    + destruct Hc as [h Heq]. exists h. eexists. exact Heq.
    + intros k. rewrite (credited_held _ _ _ _ _ Hc). case_decide; lia.
Qed.

End Payment.

(** ** Where the code goes wrong *)

Definition demo_stats : account_statistics := mk_stats 0 0 0 0 0 0 0 0.

(** Account 700 holds 5000 core shares; 7 referred and registered it. *)
Definition fee_ledger : ledger :=
  mk_ledger {[ (700, 0) := 5000 ]} ∅ 0 {[ 0 := demo_dynamic ]}
    (<[7 := mk_account 7 7 7 2000 3000 5000 None 0]> {[ 700 := mk_account 7 7 7 2000 3000 5000 None 0 ]})
    (<[7 := demo_stats]> {[ 700 := demo_stats ]}) ∅ 90 0 0 (mk_params 100 100 50 5 50) false [].

Definition demo_operation (fee required : Z) : operation :=
  mk_operation 700 (mk_asset fee 0) required false (mret ()) (λ e, mret e).

Definition no_flags : evaluation_flags := mk_flags false false.
Definition all_authorized (_ _ : Z) : bool := true.

(** A fee of one unit stands for the required fee: the statistics are credited
    with the required fee, 100 here, but one unit is debited, so that the shares
    add up to 99 more than before. *)
Theorem unit_fee_creates_funds :
  match start_evaluate all_authorized no_flags (demo_operation 1 100) true fee_ledger with
  | Ok (_, l) => core_funds l = core_funds fee_ledger + 99 ∧ held (700, 0) l = 4999 ∧
                 pending_fees <$> statistics l !! 700 = Some 100
  | Throw _ => False
  end.
Proof. vm_compute. done. Qed.

(** Rolling a fee back above the vesting threshold subtracts it from the other
    counter: the fee stays pending, the vested counter becomes negative, and the
    dissemination of the account's fees throws at maintenance. *)
Theorem rollback_fee_stays_pending :
  let m := (e ← evaluate all_authorized no_flags (demo_operation 100 100);
            e ← pay_fee no_flags false e; rollback_fee no_flags e) in
  match m fee_ledger with
  | Ok (_, l) =>
      pending_fees <$> statistics l !! 700 = Some 100 ∧
      pending_vested_fees <$> statistics l !! 700 = Some (-100) ∧
      is_ok (process_fees (λ t, t) 700 (mk_account 7 7 7 2000 3000 5000 None 0) l) = false
  | Throw _ => False
  end.
Proof. vm_compute. done. Qed.

(** ** Witnesses *)

Definition pending_ledger : ledger :=
  set_statistics {[ 700 := mk_stats 101 30 0 0 0 0 0 0 ]} fee_ledger.

Lemma fee_ledger_typed : ledger_typed fee_ledger.
Proof.
  constructor; cbn [fee_ledger vestings dynamic_data next_vesting_id].
  - intros i v Hv. by rewrite lookup_empty in Hv.
  - intros i _. apply lookup_empty.
  - intros i d [<- <-]%lookup_singleton_Some. cbn [demo_dynamic current_supply accumulated_fees]. split; int_lia.
Qed.

Lemma process_fees_conserves_witness :
  ∃ l', process_fees (λ t, t) 700 (mk_account 7 7 7 2000 3000 5000 None 0) pending_ledger = Ok ((), l') ∧
    core_funds l' = core_funds pending_ledger.
Proof.
  eexists. split; [by vm_compute|].
  match goal with |- core_funds ?x = _ => 
    destruct (process_fees_conserves (λ t, t) 700 (mk_account 7 7 7 2000 3000 5000 None 0) pending_ledger () x
      (mk_stats 101 30 0 0 0 0 0 0)) as [Hc _] end.
  - by destruct fee_ledger_typed.
  - split; [|apply int64_0]. cbn [pending_ledger statistics set_statistics].
    intros i s [<- <-]%lookup_singleton_Some. unfold stats_typed.
    cbn [pending_fees pending_vested_fees coupon_fees amount_coupon lifetime_fees_paid]. split_and!; int_lia.
  - unfold percentages_ok, GRAPHENE_100_PERCENT. cbn. lia.
  - lia.
  - by vm_compute.
  - cbn. lia.
  - cbn. lia.
  - cbn. lia.
  - by vm_compute.
  - exact Hc.
Defined.

Lemma fee_ledger_fine : ledger_fine fee_ledger.
Proof.
  split; [|split].
  - constructor; cbn [fee_ledger balances vestings dynamic_data next_vesting_id head_block_time].
    + intros k b [<- <-]%lookup_singleton_Some. int_lia.
    + intros i v Hv. by rewrite lookup_empty in Hv.
    + intros i _. apply lookup_empty.
    + intros i d [<- <-]%lookup_singleton_Some. cbn [demo_dynamic current_supply accumulated_fees]. split; int_lia.
    + unfold uint. lia.
  - split; [|apply int64_0]. cbn [fee_ledger statistics].
    intros i s [[_ <-]|[_ [_ <-]%lookup_singleton_Some]]%lookup_insert_Some; repeat split; cbn; int_lia.
  - cbn. int_lia.
Qed.

