(* ===== verification/FeeSchedule.v ===== *)
(** * The fee schedule: libraries/chain/protocol/fee_schedule.cpp

    The fee of an operation from the value its type computes, the scale of the
    schedule and the exchange rate of the asset it is paid in; and the checks of
    [chain_parameters::validate].  The value an operation computes for itself
    ([calculate_fee] of its type, found by the visitors) is an argument. *)

From S2P Require Import Prelude Safe Uint128 Asset Fees.

Local Open Scope Z_scope.

Section Calculate.
Context `{Division128} {U : Type} `{Multiprecision U}.

(** The scaled value, at least one when the operation has a value. *)
Definition scaled_fee (scale base_value : Z) : uint128 :=
  let scaled := div128 (mul128 (of_uint64 base_value) (of_uint64 scale)) (of_uint64 GRAPHENE_100_PERCENT) in
  if (0 <? base_value) && eq128 scaled (mk128 0 0) then mk128 0 1 else scaled.

(** [while( result * core_exchange_rate < asset( scaled ) ) result.amount++]; one
    unit of fuel for each round. *)
Fixpoint raise_fee (fuel : nat) (rate : price) (core result : asset) : option (Prelude.result asset) :=
  match (c ← asset_times_price (U := U) result rate; asset_ltb c core) with
  | Throw e => Some (Throw e)
  | Ok false => Some (Ok result)
  | Ok true =>
      match fuel with
      | O => None
      | S fuel =>
          match safe_incr (amount result) with
          | Ok a => raise_fee fuel rate core (mk_asset a (asset_id result))
          | Throw e => Some (Throw e)
          end
      end
  end.

(** [fee_schedule::calculate_fee]. *)
Definition calculate_fee (fuel : nat) (scale base_value : Z) (core_exchange_rate : price)
    : option (Prelude.result asset) :=
  let scaled := scaled_fee scale base_value in
  match (FC_ASSERT (le128 scaled (of_int64 GRAPHENE_MAX_SHARE_SUPPLY)) ;;
         v ← to_uint64 scaled;
         let core := mk_asset (to_sint 64 v) GRAPHENE_CORE_ASSET in
         result ← asset_times_price (U := U) core core_exchange_rate;
         mret (core, result)) with
  | Throw e => Some (Throw e)
  | Ok (core, result) =>
      match raise_fee fuel core_exchange_rate core result with
      | Some (Ok result) =>
          Some (FC_ASSERT (amount result <=? GRAPHENE_MAX_SHARE_SUPPLY) ;; mret result)
      | r => r
      end
  end.

(** [fee_schedule::set_fee]; [calculate] is [calculate_fee] of the operation with
    the fee it is given. *)
Definition MAX_FEE_STABILIZATION_ITERATION : nat := 4.

(** [std::max] of two assets. *)
Definition asset_max (a b : asset) : Prelude.result asset :=
  match asset_ltb a b with Ok true => Ok b | Ok false => Ok a | Throw e => Throw e end.

Fixpoint stabilize (calculate : asset → Prelude.result asset) (rounds : nat) (f f_max : asset)
    : Prelude.result asset :=
  match rounds with
  | O => Ok f_max
  | S rounds =>
      f2 ← calculate f_max;
      if asset_eqb f f2 then Ok f_max
      else
        f_max ← asset_max f_max f2;
        stabilize calculate rounds f2 f_max
  end.

Definition set_fee (calculate : asset → Prelude.result asset) (fee : asset) : Prelude.result asset :=
  f ← calculate fee; stabilize calculate MAX_FEE_STABILIZATION_ITERATION f f.
End Calculate.

(** ** [chain_parameters::validate] *)

Definition GRAPHENE_MIN_BLOCK_INTERVAL : Z := 1.
Definition GRAPHENE_MAX_BLOCK_INTERVAL : Z := 30.
Definition GRAPHENE_MIN_TRANSACTION_SIZE_LIMIT : Z := 1024.
Definition GRAPHENE_MIN_BLOCK_SIZE_LIMIT : Z := GRAPHENE_MIN_TRANSACTION_SIZE_LIMIT * 5.

(** The fields [validate] reads, of their width. *)
Record chain_parameters := mk_chain_parameters {
  block_interval : Z;
  maintenance_interval : Z;
  committee_proposal_review_period : Z;
  maximum_transaction_size : Z;
  maximum_block_size : Z;
  maximum_time_until_expiration : Z;
  maximum_proposal_lifetime : Z;
  reserve_percent_of_fee : Z;
  network_percent_of_fee : Z;
  lifetime_referrer_percent_of_fee : Z
}.

Definition validate (p : chain_parameters) : result () :=
  FC_ASSERT (reserve_percent_of_fee p <=? GRAPHENE_100_PERCENT) ;;
  FC_ASSERT (network_percent_of_fee p <=? GRAPHENE_100_PERCENT) ;;
  FC_ASSERT (lifetime_referrer_percent_of_fee p <=? GRAPHENE_100_PERCENT) ;;
  FC_ASSERT (network_percent_of_fee p + lifetime_referrer_percent_of_fee p <=? GRAPHENE_100_PERCENT) ;;
  FC_ASSERT (GRAPHENE_MIN_BLOCK_INTERVAL <=? block_interval p) ;;
  FC_ASSERT (block_interval p <=? GRAPHENE_MAX_BLOCK_INTERVAL) ;;
  FC_ASSERT (0 <? block_interval p) ;;
  FC_ASSERT (block_interval p <? maintenance_interval p) ;;
  FC_ASSERT (maintenance_interval p mod block_interval p =? 0) ;;
  FC_ASSERT (GRAPHENE_MIN_TRANSACTION_SIZE_LIMIT <=? maximum_transaction_size p) ;;
  FC_ASSERT (GRAPHENE_MIN_BLOCK_SIZE_LIMIT <=? maximum_block_size p) ;;
  FC_ASSERT (block_interval p <? maximum_time_until_expiration p) ;;
  FC_ASSERT (7200 - 1 <=? to_uint 32 (maximum_proposal_lifetime p - committee_proposal_review_period p)) ;;
  FC_ASSERT (maximum_proposal_lifetime p <? 30 * 24 * 3600).

(** ** Properties *)

#[local] Opaque mul128 div128.

Section Exact.
Context `{Division128} {U : Type} `{MultiprecisionLaws U}.

(** The scaled value as a number. *)
Definition scaled_value (scale base_value : Z) : Z :=
  let s := base_value * scale / GRAPHENE_100_PERCENT in
  if (0 <? base_value) && (s =? 0) then 1 else s.

Lemma scaled_fee_spec scale base_value :
  uint 64 base_value → uint 32 scale →
  wf128 (scaled_fee scale base_value) ∧ val (scaled_fee scale base_value) = scaled_value scale base_value ∧
  0 ≤ scaled_value scale base_value.
Proof.
  intros Hb Hs. unfold scaled_fee, scaled_value, GRAPHENE_100_PERCENT.
  assert (wf128 (of_uint64 base_value)) as Hbw by (by apply wf_of_uint64).
  destruct (mul128_spec (of_uint64 base_value) (of_uint64 scale) Hbw) as [Hm Hmv].
  { apply wf_of_uint64. unfold uint in *. lia. }
  rewrite !val_of_uint64, Z.mod_small in Hmv
    by (unfold uint in *; change (2 ^ 128) with (2 ^ 64 * 2 ^ 64); nia).
  assert (wf128 (of_uint64 10000)) as Hdw by (apply wf_of_uint64; unfold uint; lia).
  pose proof (div128_wf _ _ Hm Hdw ltac:(rewrite val_of_uint64; lia)) as Hq.
  pose proof (div128_val _ _ Hm Hdw ltac:(rewrite val_of_uint64; lia)) as Hqv.
  rewrite val_of_uint64, Hmv in Hqv.
  assert (wf128 (mk128 0 0)) as Hz0 by (by apply (bool_decide_unpack _)).
  rewrite eq128_spec by done. rewrite Hqv. replace (val (mk128 0 0)) with 0 by reflexivity.
  assert (0 ≤ base_value * scale / 10000) by (apply Z.div_pos; unfold uint in *; nia).
  destruct ((0 <? base_value) && (base_value * scale / 10000 =? 0)); [|done].
  split; [by apply (bool_decide_unpack _)|]. split; [reflexivity|lia].
Qed.

(** The core side of a rate and its other side. *)
Definition core_rate (p : price) (core other : asset) : Prop :=
  (core = base p ∧ other = quote p ∨ core = quote p ∧ other = base p) ∧
  asset_id core = GRAPHENE_CORE_ASSET ∧ asset_id other ≠ GRAPHENE_CORE_ASSET ∧
  0 < amount core ≤ GRAPHENE_MAX_SHARE_SUPPLY ∧ 0 < amount other ≤ GRAPHENE_MAX_SHARE_SUPPLY.

Lemma core_rate_ok p f t :
  core_rate p f t → amount_ok f ∧ amount_ok t ∧
  ∀ a, 0 ≤ a → int64 a →
    asset_times_price (mk_asset a GRAPHENE_CORE_ASSET) p = convert (mk_asset a GRAPHENE_CORE_ASSET) f t ∧
    asset_times_price (mk_asset a (asset_id t)) p = convert (mk_asset a (asset_id t)) t f.
Proof.
  intros (Hs & Hc & Ho & Hf & Ht). unfold GRAPHENE_MAX_SHARE_SUPPLY in *.
  split; [split; [lia|int_lia]|]. split; [split; [lia|int_lia]|]. intros a _ _. unfold asset_times_price.
  cbn [asset_id]. rewrite <- Hc in *. destruct Hs as [[-> ->]|[-> ->]].
  - rewrite Z.eqb_refl. split; [done|]. destruct (Z.eqb_spec (asset_id (quote p)) (asset_id (base p))); [congruence|].
    by rewrite Z.eqb_refl.
  - rewrite Z.eqb_refl. split; [|by rewrite Z.eqb_refl].
    destruct (Z.eqb_spec (asset_id (quote p)) (asset_id (base p))); [congruence|done].
Qed.

(** The conversions there and back, as numbers. *)
Lemma floor_back s f t : 0 ≤ s → 0 < f → 0 < t →
  let r := s * t / f in
  0 ≤ r ∧ r * f / t ≤ s ∧ (∀ x, 0 ≤ x < r → x * f / t < s) ∧
  s ≤ (r + 1) * f / t ∧ (r + 1) * f / t ≤ s + f / t + 1.
Proof.
  intros Hs Hf Ht r.
  pose proof (Z.mul_div_le (s * t) f Hf) as Hd1. pose proof (Z.mul_succ_div_gt (s * t) f Hf) as Hd2.
  fold r in Hd1, Hd2. assert (0 ≤ r) as Hr by (apply Z.div_pos; nia). split; [done|].
  assert (r * f / t ≤ s) as Hle by (apply Z.div_le_upper_bound; nia). split; [done|]. split; [|split].
  - intros x Hx. apply Z.div_lt_upper_bound; nia.
  - apply Z.div_le_lower_bound; nia.
  - pose proof (Z.mul_succ_div_gt (r * f) t Ht). pose proof (Z.mul_succ_div_gt f t Ht).
    assert ((r + 1) * f / t < r * f / t + f / t + 2); [|lia].
    apply Z.div_lt_upper_bound; nia.
Qed.

Lemma asset_ltb_same a b i : asset_ltb (mk_asset a i) (mk_asset b i) = Ok (a <? b).
Proof. unfold asset_ltb. cbn [asset_id amount]. by rewrite Z.eqb_refl. Qed.

(** The fee in the core asset is the scaled value, at least one when the
    operation has one; in another asset it is the least amount that is worth the
    scaled value at the rate, found with at most one round of the rounding loop.
    No 128-bit product wraps. *)
Theorem calculate_fee_least scale base_value p f t :
  uint 64 base_value → uint 32 scale → core_rate p f t →
  let s := scaled_value scale base_value in
  s ≤ GRAPHENE_MAX_SHARE_SUPPLY → s * amount t / amount f < GRAPHENE_MAX_SHARE_SUPPLY →
  calculate_fee (U := U) 0 scale base_value (unit_price GRAPHENE_CORE_ASSET) =
    Some (Ok (mk_asset s GRAPHENE_CORE_ASSET)) ∧
  ∃ r, calculate_fee (U := U) 1 scale base_value p = Some (Ok (mk_asset r (asset_id t))) ∧
    s ≤ r * amount f / amount t ∧ ∀ x, 0 ≤ x < r → x * amount f / amount t < s.
Proof.
  intros Hb Hs Hp s Hmax Hfee. destruct (scaled_fee_spec scale base_value Hb Hs) as (Hw & Hv & Hs0).
  fold s in Hv, Hs0. unfold GRAPHENE_MAX_SHARE_SUPPLY in *.
  assert (int64 s) as His by int_lia.
  assert (le128 (scaled_fee scale base_value) (of_int64 (7000000000 * 100000)) = true) as Hle.
  { destruct (of_int64_spec (7000000000 * 100000)) as [Hw' Hv']; [lia|int_lia|].
    rewrite le128_spec, Hv, Hv' by done. lia. }
  assert (to_uint64 (scaled_fee scale base_value) = Ok s) as Hto.
  { rewrite to_uint64_spec, Hv by (done || rewrite Hv; lia). done. }
  unfold calculate_fee, GRAPHENE_MAX_SHARE_SUPPLY. cbv zeta. rewrite Hle, Hto. cbn [mbind result_bind FC_ASSERT].
  rewrite to_sint_64_id by done. split.
  - assert (∀ a, 0 ≤ a ≤ 7000000000 * 100000 →
      asset_times_price (mk_asset a GRAPHENE_CORE_ASSET) (unit_price GRAPHENE_CORE_ASSET) =
        Ok (mk_asset a GRAPHENE_CORE_ASSET)) as Hu.
    { intros a Ha. unfold asset_times_price. cbn [asset_id base unit_price]. rewrite Z.eqb_refl.
      rewrite convert_spec; cbn [amount quote unit_price asset_id]; try (split; cbn [amount]; int_lia).
      rewrite Z.mul_1_r, Z.div_1_r. unfold GRAPHENE_MAX_BITCORE_SUPPLY.
      by destruct (Z.leb_spec a 1000000000000000000); [|lia]. }
    rewrite Hu by lia. unfold mret, result_ret. cbn [mbind result_bind raise_fee]. rewrite Hu by lia. cbn [mbind result_bind].
    rewrite asset_ltb_same, Z.ltb_irrefl. cbn [amount]. destruct (Z.leb_spec s (7000000000 * 100000)); [reflexivity|lia].
  - destruct (core_rate_ok p f t Hp) as (Hfo & Hto' & Hconv). destruct Hp as (_ & Hcf & Hct & Hf & Ht).
    destruct (floor_back s (amount f) (amount t)) as (Hr0 & Hback & Hleast & Hup & Hup'); [lia|lia|lia|].
    unfold GRAPHENE_MAX_SHARE_SUPPLY in Hf, Ht.
    set (r := s * amount t / amount f) in *.
    assert (amount f / amount t ≤ 7000000000 * 100000) as Hft by (apply Z.div_le_upper_bound; nia).
    assert (∀ x, 0 ≤ x ≤ r + 1 → x * amount f / amount t ≤ 2000000000000000 →
      asset_times_price (mk_asset x (asset_id t)) p =
        Ok (mk_asset (x * amount f / amount t) GRAPHENE_CORE_ASSET)) as Hx.
    { intros x Hx Hxb. destruct (Hconv x) as [_ ->]; [lia|int_lia|].
      rewrite convert_spec; [|split; [cbn; lia|cbn [amount]; int_lia]|done|done|lia].
      cbn [amount]. rewrite Hcf. unfold GRAPHENE_MAX_BITCORE_SUPPLY.
      by destruct (Z.leb_spec (x * amount f / amount t) 1000000000000000000); [|lia]. }
    destruct (Hconv s) as [-> _]; [lia|done|].
    rewrite convert_spec; [|split; [cbn; lia|done]|done|done|lia]. cbn [amount]. fold r.
    unfold GRAPHENE_MAX_BITCORE_SUPPLY. destruct (Z.leb_spec r 1000000000000000000); [|lia].
    unfold mret, result_ret. cbn [mbind result_bind raise_fee]. rewrite Hx by lia. cbn [mbind result_bind].
    rewrite asset_ltb_same.
    destruct (Z.ltb_spec (r * amount f / amount t) s) as [Hlt|Hge]; cbn [amount].
    + unfold safe_incr. rewrite safe_add_spec, bool_decide_eq_true_2 by int_lia. rewrite Hx by lia.
      cbn [mbind result_bind asset_id amount]. rewrite asset_ltb_same.
      destruct (Z.ltb_spec ((r + 1) * amount f / amount t) s); [lia|].
      cbn [amount]. exists (r + 1). destruct (Z.leb_spec (r + 1) (7000000000 * 100000)); [|lia].
      split; [done|]. split; [done|]. intros x Hxr. destruct (decide (x = r)) as [->|]; [done|]. apply Hleast. lia.
    + exists r. destruct (Z.leb_spec r (7000000000 * 100000)); [|lia]. split; [done|]. by split.
Qed.
End Exact.

(** The parameters accepted: the percentages of a fee leave a non-negative
    referral, block and maintenance intervals are positive and the second is a
    multiple of the first, and the size and lifetime limits hold; conversely such
    parameters are accepted when the review period is shorter than the proposal
    lifetime by two hours. *)
Theorem validate_sound p :
  uint 16 (network_percent_of_fee p) → uint 16 (lifetime_referrer_percent_of_fee p) →
  uint 32 (maximum_proposal_lifetime p) → uint 32 (committee_proposal_review_period p) →
  let limits :=
    reserve_percent_of_fee p ≤ GRAPHENE_100_PERCENT ∧
    network_percent_of_fee p + lifetime_referrer_percent_of_fee p ≤ GRAPHENE_100_PERCENT ∧
    1 ≤ block_interval p ≤ 30 ∧ block_interval p < maintenance_interval p ∧
    (∃ k, 1 < k ∧ maintenance_interval p = k * block_interval p) ∧
    1024 ≤ maximum_transaction_size p ∧ 5120 ≤ maximum_block_size p ∧
    block_interval p < maximum_time_until_expiration p ∧
    maximum_proposal_lifetime p < 30 * 24 * 3600 in
  (validate p = Ok () → limits) ∧
  (limits → committee_proposal_review_period p + 7199 ≤ maximum_proposal_lifetime p → validate p = Ok ()).
Proof.
  intros Hn Hl Hm Hr limits. unfold GRAPHENE_100_PERCENT in *. split.
  - intros Hv. unfold validate in Hv. inv_ok.
    unfold GRAPHENE_100_PERCENT, GRAPHENE_MIN_BLOCK_INTERVAL, GRAPHENE_MAX_BLOCK_INTERVAL,
      GRAPHENE_MIN_BLOCK_SIZE_LIMIT, GRAPHENE_MIN_TRANSACTION_SIZE_LIMIT in *.
    unfold limits. split_and!; try lia.
    exists (maintenance_interval p / block_interval p).
    pose proof (Z.div_mod (maintenance_interval p) (block_interval p) ltac:(lia)).
    split; nia.
  - intros (H1 & H2 & H3 & H4 & (k & Hk & H5) & H6 & H7 & H8 & H9) Hlt. unfold validate.
    unfold GRAPHENE_100_PERCENT, GRAPHENE_MIN_BLOCK_INTERVAL, GRAPHENE_MAX_BLOCK_INTERVAL,
      GRAPHENE_MIN_BLOCK_SIZE_LIMIT, GRAPHENE_MIN_TRANSACTION_SIZE_LIMIT in *.
    rewrite to_uint_id by (unfold uint in *; lia). rewrite H5, Z.mod_mul by lia.
    repeat match goal with |- context [FC_ASSERT (?a <=? ?b)] =>
      replace (a <=? b) with true by (unfold uint in *; lia) end.
    repeat match goal with |- context [FC_ASSERT (?a <? ?b)] =>
      replace (a <? b) with true by lia end.
    reflexivity.
Qed.

(** ** Where the code goes wrong *)

Definition demo_parameters (lifetime review : Z) : chain_parameters :=
  mk_chain_parameters 3 7200 review (200 * 1024) (2 * 1024 * 1024) 86400 lifetime 2000 10000 0.

(** The review period may exceed the proposal lifetime: the difference is
    taken in 32 bits, where a negative one is large, and passes the check that
    should reject it. *)
Theorem validate_accepts_long_review :
  validate (demo_parameters 86400 604800) = Ok () ∧ 86400 < 604800 ∧
  validate (demo_parameters 86400 86400) = Throw assert_exception.
Proof. split_and!; by vm_compute. Qed.

(** ** Witnesses *)

Lemma calculate_fee_least_witness :
  ∃ r, calculate_fee (U := checked128) 1 5000 1001 (mk_price (mk_asset 7 0) (mk_asset 3 4)) =
    Some (Ok (mk_asset r 4)) ∧ r = 215.
Proof.
  destruct (calculate_fee_least (U := checked128) 5000 1001 (mk_price (mk_asset 7 0) (mk_asset 3 4))
    (mk_asset 7 0) (mk_asset 3 4)) as (_ & r & Hr & _).
  - unfold uint. lia.
  - unfold uint. lia.
  - split; [by left|]. cbn [amount asset_id]. unfold GRAPHENE_MAX_SHARE_SUPPLY, GRAPHENE_CORE_ASSET. lia.
  - apply (bool_decide_unpack _). exact I.
  - apply (bool_decide_unpack _). exact I.
  - exists r. split; [exact Hr|].
    assert (calculate_fee (U := checked128) 1 5000 1001 (mk_price (mk_asset 7 0) (mk_asset 3 4)) =
      Some (Ok (mk_asset 215 4))) as Hc by (by vm_compute).
    cbn [asset_id] in Hr. congruence.
Defined.

Lemma validate_sound_witness :
  1 ≤ block_interval (demo_parameters 1209600 604800) ∧
  validate (demo_parameters 1209600 604800) = Ok ().
Proof.
  assert (validate (demo_parameters 1209600 604800) = Ok ()) as Hv by (by vm_compute).
  destruct (validate_sound (demo_parameters 1209600 604800)) as [Hs _];
    [apply (bool_decide_unpack _); exact I..|].
  destruct (Hs Hv) as (_ & _ & [Hi _] & _). split; [exact Hi|exact Hv].
Defined.
