(* ===== verification/Members.v ===== *)
(** * Reverse authority index: [account_member_index] of account_object.cpp

    For every account, key and address, the accounts whose owner or active
    authority (or memo key) names it.  The index is a secondary index of the
    account objects: it is told of every insertion, removal and modification.
    Identifiers, keys and addresses are numbers here; the address of a key is a
    parameter. *)

From S2P Require Import Prelude.

Local Open Scope Z_scope.

(** The parts of [authority] and [account_object] the index reads. *)
Record authority := mk_authority {
  account_auths : list (Z * Z);
  key_auths : list (Z * Z);
  address_auths : list (Z * Z)
}.

Record member_account := mk_member_account {
  owner : authority;
  active : authority;
  memo_key : Z
}.

(** [map< K, set<account_id_type> >]: [operator[]] makes an empty set. *)
Abbreviation membership_map := (gmap Z (gset Z)).

Definition at_ (k : Z) (m : membership_map) : gset Z := default ∅ (m !! k).
Definition insert_one (i k : Z) (m : membership_map) : membership_map := <[k := {[ i ]} ∪ at_ k m]> m.
Definition erase_one (i k : Z) (m : membership_map) : membership_map := <[k := at_ k m ∖ {[ i ]}]> m.

(** The loops over a set of members. *)
Definition insert_all (i : Z) (ks : gset Z) (m : membership_map) : membership_map :=
  foldl (λ m k, insert_one i k m) m (elements ks).
Definition erase_all (i : Z) (ks : gset Z) (m : membership_map) : membership_map :=
  foldl (λ m k, erase_one i k m) m (elements ks).

Record account_member_index := mk_index {
  account_to_account_memberships : membership_map;
  account_to_key_memberships : membership_map;
  account_to_address_memberships : membership_map;
  before_account_members : gset Z;
  before_key_members : gset Z;
  before_address_members : gset Z
}.

Section Index.
Context (key_address : Z → Z).

Definition get_account_members (a : member_account) : gset Z :=
  list_to_set ((account_auths (owner a)).*1) ∪ list_to_set ((account_auths (active a)).*1).
Definition get_key_members (a : member_account) : gset Z :=
  list_to_set ((key_auths (owner a)).*1) ∪ list_to_set ((key_auths (active a)).*1) ∪ {[ memo_key a ]}.
Definition get_address_members (a : member_account) : gset Z :=
  list_to_set ((address_auths (owner a)).*1) ∪ list_to_set ((address_auths (active a)).*1) ∪
  {[ key_address (memo_key a) ]}.

Definition object_inserted (i : Z) (a : member_account) (x : account_member_index) : account_member_index :=
  mk_index (insert_all i (get_account_members a) (account_to_account_memberships x))
    (insert_all i (get_key_members a) (account_to_key_memberships x))
    (insert_all i (get_address_members a) (account_to_address_memberships x))
    (before_account_members x) (before_key_members x) (before_address_members x).

Definition object_removed (i : Z) (a : member_account) (x : account_member_index) : account_member_index :=
  mk_index (erase_all i (get_account_members a) (account_to_account_memberships x))
    (erase_all i (get_key_members a) (account_to_key_memberships x))
    (erase_all i (get_address_members a) (account_to_address_memberships x))
    (before_account_members x) (before_key_members x) (before_address_members x).

Definition about_to_modify (a : member_account) (x : account_member_index) : account_member_index :=
  mk_index (account_to_account_memberships x) (account_to_key_memberships x)
    (account_to_address_memberships x)
    (get_account_members a) (get_key_members a) (get_address_members a).

(** One block of [object_modified]: the two [set_difference]s. *)
Definition update_members (i : Z) (before after : gset Z) (m : membership_map) : membership_map :=
  insert_all i (after ∖ before) (erase_all i (before ∖ after) m).

Definition object_modified (i : Z) (a : member_account) (x : account_member_index) : account_member_index :=
  mk_index
    (update_members i (before_account_members x) (get_account_members a) (account_to_account_memberships x))
    (update_members i (before_key_members x) (get_key_members a) (account_to_key_memberships x))
    (update_members i (before_address_members x) (get_address_members a) (account_to_address_memberships x))
    (before_account_members x) (before_key_members x) (before_address_members x).

(** ** The index mirrors the accounts *)

Lemma at_insert_one i k m k' : at_ k' (insert_one i k m) = if decide (k' = k) then {[ i ]} ∪ at_ k m else at_ k' m.
Proof.
  unfold at_ at 1, insert_one. case_decide as Hk; [subst; by rewrite lookup_insert_eq|by rewrite lookup_insert_ne].
Qed.
Lemma at_erase_one i k m k' : at_ k' (erase_one i k m) = if decide (k' = k) then at_ k m ∖ {[ i ]} else at_ k' m.
Proof.
  unfold at_ at 1, erase_one. case_decide as Hk; [subst; by rewrite lookup_insert_eq|by rewrite lookup_insert_ne].
Qed.

Lemma at_insert_all i ks m k j :
  j ∈ at_ k (insert_all i ks m) ↔ j ∈ at_ k m ∨ j = i ∧ k ∈ ks.
Proof.
  unfold insert_all. rewrite <- (elem_of_elements ks k). generalize (elements ks). intros l.
  revert m. induction l as [|k0 l IH]; intros m; cbn [foldl]; [set_solver|].
  rewrite IH, at_insert_one. case_decide; [subst|]; set_solver.
Qed.

Lemma at_erase_all i ks m k j :
  j ∈ at_ k (erase_all i ks m) ↔ j ∈ at_ k m ∧ ¬ (j = i ∧ k ∈ ks).
Proof.
  unfold erase_all. rewrite <- (elem_of_elements ks k). generalize (elements ks). intros l.
  revert m. induction l as [|k0 l IH]; intros m; cbn [foldl]; [set_solver|].
  rewrite IH, at_erase_one. case_decide; [subst|]; set_solver.
Qed.

(** [m] lists under [k] the accounts [members] of which contain [k]. *)
Definition lists_members (members : member_account → gset Z) (accounts : gmap Z member_account)
    (m : membership_map) : Prop :=
  ∀ k j, j ∈ at_ k m ↔ ∃ a, accounts !! j = Some a ∧ k ∈ members a.

Section Dimension.
Context (members : member_account → gset Z).
Implicit Types (accounts : gmap Z member_account) (m : membership_map).

Lemma lists_insert accounts m i a :
  accounts !! i = None → lists_members members accounts m →
  lists_members members (<[i := a]> accounts) (insert_all i (members a) m).
Proof.
  intros Hi Hm k j. rewrite at_insert_all, (Hm k j). destruct (decide (j = i)) as [->|Hne].
  - rewrite lookup_insert_eq, Hi. naive_solver.
  - rewrite lookup_insert_ne by done. naive_solver.
Qed.

Lemma lists_remove accounts m i a :
  accounts !! i = Some a → lists_members members accounts m →
  lists_members members (delete i accounts) (erase_all i (members a) m).
Proof.
  intros Hi Hm k j. rewrite at_erase_all, (Hm k j). destruct (decide (j = i)) as [->|Hne].
  - rewrite lookup_delete_eq, Hi. naive_solver.
  - rewrite lookup_delete_ne by done. naive_solver.
Qed.

Lemma lists_modify accounts m i a a' :
  accounts !! i = Some a → lists_members members accounts m →
  lists_members members (<[i := a']> accounts) (update_members i (members a) (members a') m).
Proof.
  intros Hi Hm k j. unfold update_members. rewrite at_insert_all, at_erase_all, (Hm k j).
  destruct (decide (j = i)) as [->|Hne].
  - rewrite lookup_insert_eq, Hi. destruct (decide (k ∈ members a)), (decide (k ∈ members a')); set_solver.
  - rewrite lookup_insert_ne by done. naive_solver.
Qed.
End Dimension.

Definition mirrors (accounts : gmap Z member_account) (x : account_member_index) : Prop :=
  lists_members get_account_members accounts (account_to_account_memberships x) ∧
  lists_members get_key_members accounts (account_to_key_memberships x) ∧
  lists_members get_address_members accounts (account_to_address_memberships x).

(** The index mirrors the accounts: an account, key or address leads to
    exactly the accounts whose authorities (or memo key) name it, initially and
    after every creation, removal and modification of an account as the object
    database reports them. *)
Theorem member_index_mirrors :
  mirrors ∅ (mk_index ∅ ∅ ∅ ∅ ∅ ∅) ∧
  ∀ accounts x i a a', mirrors accounts x →
    (accounts !! i = None → mirrors (<[i := a]> accounts) (object_inserted i a x)) ∧
    (accounts !! i = Some a → mirrors (delete i accounts) (object_removed i a x)) ∧
    (accounts !! i = Some a →
       mirrors (<[i := a']> accounts) (object_modified i a' (about_to_modify a x))).
Proof.
  split.
  - split_and!; intros k j; cbn; unfold at_; rewrite lookup_empty; cbn; set_solver.
  - intros accounts x i a a' (H1 & H2 & H3). split; [|split]; intros Hi; (split; [|split]).
    1-3: apply lists_insert; assumption.
    1-3: apply lists_remove; assumption.
    1-3: apply (lists_modify _ _ _ _ a); assumption.
Qed.
End Index.

(** ** Witness *)

Definition demo_member (k : Z) : member_account :=
  mk_member_account (mk_authority [(7, 1)] [(k, 1)] []) (mk_authority [] [(k, 1); (k + 1, 1)] []) k.

Lemma member_index_mirrors_witness :
  mirrors (λ k, k + 1000) {[ 5 := demo_member 40 ]}
    (object_inserted (λ k, k + 1000) 5 (demo_member 40) (mk_index ∅ ∅ ∅ ∅ ∅ ∅)) ∧
  at_ 41 (account_to_key_memberships
    (object_inserted (λ k, k + 1000) 5 (demo_member 40) (mk_index ∅ ∅ ∅ ∅ ∅ ∅))) = {[ 5 ]}.
Proof.
  destruct (member_index_mirrors (λ k, k + 1000)) as [H0 Hstep].
  destruct (Hstep ∅ (mk_index ∅ ∅ ∅ ∅ ∅ ∅) 5 (demo_member 40) (demo_member 40) H0) as [Hi _].
  split; [exact (Hi (lookup_empty 5))|by vm_compute].
Defined.
