(* ===== verification/BlockDb.v ===== *)
(** * The block store: libraries/chain/block_database.cpp

    Two files: [index] is an array of fixed-size entries, one for each block
    number, [blocks] the packed blocks one after the other, written at its end
    only.  A file is a list of entries, resp. of bytes, and a position in it a
    number of entries, resp. of bytes; writing past the end of the index fills the
    gap with zeros.  The serializer [fc::raw::pack] and [unpack] and [sha224] are
    parameters; the streams are assumed not to fail for reasons of the device. *)

From S2P Require Import Prelude Block.

Local Open Scope Z_scope.

Record index_entry := mk_entry { block_pos : Z; block_size : Z; entry_id : block_id_type }.
Definition empty_entry : index_entry := mk_entry 0 0 null_block_id.

#[export] Instance index_entry_eq_dec : EqDecision index_entry.
Proof. solve_decision. Defined.

Record block_database := mk_db { index : list index_entry; blocks : list Z }.

Definition max_block_size : Z := 2147483647.

Section Store.
Context {T D Sg : Type} `{Inhabited D}.
Context (sha224 : @signed_block_header D Sg → list Z).
Context (pack : @signed_block T D Sg → list Z)
        (unpack : list Z → option (@signed_block T D Sg)).

Abbreviation block := (@signed_block T D Sg).
Definition id_of (b : block) : block_id_type := block_id sha224 b.

(** Writing entry [n]. *)
Definition write_entry (n : nat) (e : index_entry) (l : list index_entry) : list index_entry :=
  if (n <? length l)%nat then <[n := e]> l else l ++ replicate (n - length l) empty_entry ++ [e].

(** Reading [size] bytes at [pos]: a short read throws. *)
Definition read_bytes (pos size : Z) (file : list Z) : option (list Z) :=
  if pos + size <=? Z.of_nat (length file)
  then Some (take (Z.to_nat size) (drop (Z.to_nat pos) file)) else None.

Definition entry_at (num : Z) (db : block_database) : option index_entry := index db !! Z.to_nat num.

Definition store (_id : block_id_type) (b : block) (db : block_database) : result block_database :=
  let id := if decide (_id = null_block_id) then id_of b else _id in
  let vec := pack b in
  let e := mk_entry (Z.of_nat (length (blocks db))) (to_uint 32 (Z.of_nat (length vec))) id in
  FC_ASSERT (block_size e <? max_block_size) ;;
  mret (mk_db (write_entry (Z.to_nat (num_from_id id)) e (index db)) (blocks db ++ vec)).

Definition remove (id : block_id_type) (db : block_database) : result block_database :=
  match entry_at (num_from_id id) db with
  | None => Throw other_exception
  | Some e =>
      if decide (entry_id e = id)
      then Ok (mk_db (<[Z.to_nat (num_from_id id) := mk_entry (block_pos e) 0 (entry_id e)]> (index db))
                 (blocks db))
      else Ok db
  end.

Definition contains (id : block_id_type) (db : block_database) : bool :=
  if decide (id = null_block_id) then false else
  match entry_at (num_from_id id) db with
  | None => false
  | Some e => bool_decide (entry_id e = id) && (0 <? block_size e)
  end.

Definition fetch_block_id (num : Z) (db : block_database) : result block_id_type :=
  match entry_at num db with
  | None => Throw other_exception
  | Some e => FC_ASSERT (negb (bool_decide (entry_id e = null_block_id))) ;; mret (entry_id e)
  end.

(** The block an entry points to: read, unpacked, and of the entry's id. *)
Definition read_block (e : index_entry) (db : block_database) : option block :=
  data ← read_bytes (block_pos e) (block_size e) (blocks db);
  b ← unpack data;
  if decide (id_of b = entry_id e) then Some b else None.

Definition fetch_optional (id : block_id_type) (db : block_database) : option block :=
  e ← entry_at (num_from_id id) db;
  if decide (entry_id e = id) then read_block e db else None.

Definition fetch_by_number (num : Z) (db : block_database) : option block :=
  e ← entry_at num db; read_block e db.

(** The loop of [last_index_entry], from entry [n - 1] down: the entry found and
    the index as it is left, resized. *)
Fixpoint scan_back (n : nat) (db : block_database) : option index_entry * block_database :=
  match n with
  | O => (None, db)
  | S n =>
      match index db !! n with
      | None => (None, db)
      | Some e =>
          if (0 <? block_size e) && (block_pos e + block_size e <=? Z.of_nat (length (blocks db))) &&
             match read_block e db with Some _ => true | None => false end
          then (Some e, db)
          else scan_back n (mk_db (take n (index db)) (blocks db))
      end
  end.

Definition last_index_entry (db : block_database) : option index_entry * block_database :=
  scan_back (length (index db)) db.

Definition last (db : block_database) : option block * block_database :=
  match last_index_entry db with
  | (Some e, db) => (fetch_by_number (num_from_id (entry_id e)) db, db)
  | (None, db) => (None, db)
  end.

Definition last_id (db : block_database) : option block_id_type * block_database :=
  match last_index_entry db with (e, db) => (entry_id <$> e, db) end.

(** ** Well-formed stores *)

(** Entries point into the file. *)
Definition db_ok (db : block_database) : Prop :=
  ∀ n e, index db !! n = Some e →
    0 ≤ block_pos e ∧ 0 ≤ block_size e ∧ block_pos e + block_size e ≤ Z.of_nat (length (blocks db)).

Lemma write_entry_lookup n e l m :
  write_entry n e l !! m =
    if decide (m = n) then Some e
    else if decide (m < length l)%nat then l !! m
    else if decide (m < n)%nat then Some empty_entry else None.
Proof.
  unfold write_entry. destruct (Nat.ltb_spec n (length l)) as [Hn|Hn].
  - case_decide as Hm; [subst; by apply list_lookup_insert_eq|].
    rewrite list_lookup_insert_ne by done. case_decide; [done|].
    rewrite lookup_ge_None_2 by lia. case_decide; [lia|done].
  - case_decide as Hm.
    + subst m. rewrite lookup_app_r by lia. rewrite lookup_app_r by (rewrite length_replicate; lia).
      rewrite length_replicate. by replace (n - length l - (n - length l))%nat with 0%nat by lia.
    + case_decide as Hlt; [by rewrite lookup_app_l|]. rewrite lookup_app_r by lia. case_decide as Hmn.
      * rewrite lookup_app_l by (rewrite length_replicate; lia). apply lookup_replicate_2. lia.
      * apply lookup_ge_None_2. rewrite length_app, length_replicate. simpl. lia.
Qed.

Lemma read_bytes_app pos size f g :
  0 ≤ pos → 0 ≤ size → pos + size ≤ Z.of_nat (length f) → read_bytes pos size (f ++ g) = read_bytes pos size f.
Proof.
  intros Hp Hs Hle. unfold read_bytes. rewrite length_app.
  destruct (Z.leb_spec (pos + size) (Z.of_nat (length f + length g))); [|lia].
  destruct (Z.leb_spec (pos + size) (Z.of_nat (length f))); [|lia]. f_equal.
  rewrite drop_app_le by lia. apply take_app_le. rewrite length_drop. lia.
Qed.

Lemma read_bytes_end f g :
  read_bytes (Z.of_nat (length f)) (Z.of_nat (length g)) (f ++ g) = Some g.
Proof.
  unfold read_bytes. rewrite length_app.
  destruct (Z.leb_spec (Z.of_nat (length f) + Z.of_nat (length g)) (Z.of_nat (length f + length g))); [|lia].
  f_equal. rewrite !Nat2Z.id, drop_app_length. by apply take_ge.
Qed.

Lemma read_block_app e db f :
  0 ≤ block_pos e → 0 ≤ block_size e → block_pos e + block_size e ≤ Z.of_nat (length (blocks db)) →
  ∀ i, read_block e (mk_db i (blocks db ++ f)) = read_block e db.
Proof. intros. unfold read_block. cbn [blocks]. by rewrite read_bytes_app. Qed.

(** ** Storing *)

(** The entry of a block just stored, and those of the other numbers. *)
Lemma store_Ok id b db :
  id ≠ null_block_id → 0 < Z.of_nat (length (pack b)) < max_block_size →
  let e := mk_entry (Z.of_nat (length (blocks db))) (Z.of_nat (length (pack b))) id in
  store id b db = Ok (mk_db (write_entry (Z.to_nat (num_from_id id)) e (index db)) (blocks db ++ pack b)).
Proof.
  intros Hid Hsz e. unfold store. rewrite decide_False by done.
  rewrite to_uint_id by (unfold uint, max_block_size in *; lia). cbn [block_size].
  destruct (Z.ltb_spec (Z.of_nat (length (pack b))) max_block_size); [done|lia].
Qed.

Lemma store_db_ok n id b db :
  db_ok db →
  db_ok (mk_db (write_entry n (mk_entry (Z.of_nat (length (blocks db))) (Z.of_nat (length (pack b))) id)
    (index db)) (blocks db ++ pack b)).
Proof.
  intros Hok m e. cbn [index blocks]. rewrite write_entry_lookup, length_app. case_decide.
  - intros [= <-]. cbn [block_pos block_size]. lia.
  - case_decide; [intros Hm; specialize (Hok m e Hm); lia|]. case_decide; [|done].
    intros [= <-]. cbn [block_pos block_size empty_entry]. lia.
Qed.

(** What the queries see of an entry of another number. *)
Lemma other_entry n id b db num e :
  let db' := mk_db (write_entry n e (index db)) (blocks db ++ pack b) in
  db_ok db → id ≠ null_block_id → Z.to_nat num ≠ n → num = num_from_id id →
  contains id db' = contains id db ∧ fetch_optional id db' = fetch_optional id db.
Proof.
  intros db' Hok Hid Hn ->. unfold contains, fetch_optional, entry_at, db'. cbn [index].
  destruct (decide (id = null_block_id)); [done|]. rewrite write_entry_lookup. rewrite decide_False by done.
  case_decide as Hlt; [|case_decide].
  - destruct (index db !! _) as [x|] eqn:Hx; [|by rewrite lookup_ge_None in Hx; lia].
    split; [done|]. cbn [mbind option_bind]. case_decide; [|done].
    destruct (Hok _ _ Hx) as (H1 & H2 & H3). by rewrite (read_block_app x db).
  - rewrite (lookup_ge_None_2 (index db)) by lia. cbn [entry_id empty_entry mbind option_bind].
    rewrite bool_decide_eq_false_2 by done. by rewrite decide_False.
  - by rewrite (lookup_ge_None_2 (index db)) by lia.
Qed.

(** What a block just stored leaves in the store. *)
Lemma store_entry id b db :
  unpack (pack b) = Some b →
  id ≠ null_block_id → 0 < Z.of_nat (length (pack b)) < max_block_size →
  let e := mk_entry (Z.of_nat (length (blocks db))) (Z.of_nat (length (pack b))) id in
  let db' := mk_db (write_entry (Z.to_nat (num_from_id id)) e (index db)) (blocks db ++ pack b) in
  entry_at (num_from_id id) db' = Some e ∧ (id = id_of b → read_block e db' = Some b).
Proof.
  intros Hpack Hid Hsz e db'. split.
  - unfold entry_at, db'. cbn [index]. by rewrite write_entry_lookup, decide_True.
  - intros Hb. unfold read_block, e, db'. cbn [block_pos block_size blocks]. rewrite read_bytes_end.
    cbn [mbind option_bind]. rewrite Hpack. cbn [mbind option_bind entry_id]. by rewrite decide_True.
Qed.

(** A block that can be stored. *)
Definition fits (b : block) : Prop :=
  unpack (pack b) = Some b ∧ 0 < Z.of_nat (length (pack b)) < max_block_size.

Instance block_database_store : BlockStore block_database block := {
  bs_store := store; bs_contains := contains; bs_fetch := fetch_optional
}.

Lemma block_database_stores : StoresBlocks sha224 db_ok fits.
Proof.
  constructor. intros id b db Hok [Hpack Hfit] Hid. eexists.
  destruct (store_entry id b db Hpack Hid Hfit) as [He Hread].
  split; [by apply store_Ok|]. split; [by apply store_db_ok|]. split.
  - intros Hb. cbn. unfold fetch_optional. rewrite He. cbn [mbind option_bind].
    rewrite decide_True by done. by rewrite (Hread Hb).
  - intros id' Hne Hf. cbn in *. unfold fetch_optional, entry_at in *. cbn [index].
    pose proof (num_from_id_range id). pose proof (num_from_id_range id'). unfold uint in *.
    rewrite write_entry_lookup, decide_False by lia.
    destruct (index db !! Z.to_nat (num_from_id id')) as [x|] eqn:Hx; [|by destruct Hf].
    rewrite decide_True by (by eapply lookup_lt_Some). cbn [mbind option_bind] in *.
    destruct (decide (entry_id x = id')); [|by destruct Hf]. destruct (Hok _ _ Hx) as (? & ? & ?).
    by rewrite (read_block_app x db).
Qed.

(** A stored block is found again, by its identifier and by its number, and
    storing it changes no answer about a block of another number; removing it
    makes the store forget that identifier and no other. *)
Theorem block_store_fetch b db :
  unpack (pack b) = Some b →
  db_ok db → id_of b ≠ null_block_id → 0 < Z.of_nat (length (pack b)) < max_block_size →
  let id := id_of b in
  ∃ db', store id b db = Ok db' ∧ db_ok db' ∧
    contains id db' = true ∧ fetch_optional id db' = Some b ∧
    fetch_by_number (num_from_id id) db' = Some b ∧ fetch_block_id (num_from_id id) db' = Ok id ∧
    (∀ id2, id2 ≠ null_block_id → Z.to_nat (num_from_id id2) ≠ Z.to_nat (num_from_id id) →
       contains id2 db' = contains id2 db ∧ fetch_optional id2 db' = fetch_optional id2 db) ∧
    ∃ db'', remove id db' = Ok db'' ∧ contains id db'' = false ∧
      ∀ id2, Z.to_nat (num_from_id id2) ≠ Z.to_nat (num_from_id id) →
        contains id2 db'' = contains id2 db' ∧ fetch_optional id2 db'' = fetch_optional id2 db'.
Proof.
  intros Hpack Hok Hid Hsz id. eexists. split; [by apply store_Ok|].
  destruct (store_entry id b db Hpack Hid Hsz) as [He Hread]. specialize (Hread eq_refl).
  set (e := mk_entry _ _ id) in *. set (n := Z.to_nat (num_from_id id)) in *. set (db' := mk_db _ _) in *.
  split; [by apply store_db_ok|]. split; [|split; [|split; [|split; [|split]]]].
  - unfold contains. rewrite decide_False by done. rewrite He. cbn [entry_id block_size e].
    rewrite bool_decide_eq_true_2 by done. cbn [andb]. lia.
  - unfold fetch_optional. rewrite He. cbn [mbind option_bind]. by rewrite decide_True.
  - unfold fetch_by_number. by rewrite He.
  - unfold fetch_block_id. rewrite He. cbn [entry_id e]. by rewrite bool_decide_eq_false_2.
  - intros id2 Hid2 Hne. by eapply other_entry.
  - eexists. unfold remove. rewrite He. rewrite decide_True by done. split; [reflexivity|].
    fold n. assert (n < length (index db'))%nat as Hlt.
    { apply lookup_lt_Some with e. exact He. }
    split.
    + unfold contains. rewrite decide_False by done. unfold entry_at. cbn [index]. fold n.
      rewrite list_lookup_insert_eq by done. cbn [entry_id block_size]. by rewrite andb_false_r.
    + intros id2 Hne. unfold contains, fetch_optional, entry_at. cbn [index].
      rewrite !list_lookup_insert_ne by done. split; [done|].
      destruct (index db' !! Z.to_nat (num_from_id id2)); done.
Qed.

(** ** The last entry *)

(** Entry [n] points to a block of its identifier. *)
Definition valid_entry (db : block_database) (e : index_entry) : bool :=
  (0 <? block_size e) && (block_pos e + block_size e <=? Z.of_nat (length (blocks db))) &&
  match read_block e db with Some _ => true | None => false end.

Definition valid_at (db : block_database) (n : nat) : Prop :=
  ∃ e, index db !! n = Some e ∧ valid_entry db e = true.

Lemma scan_back_spec n idx (db : block_database) :
  (n ≤ length idx)%nat → index db = take n idx →
  match scan_back n db with
  | (Some e, db') => ∃ m, (m < n)%nat ∧ idx !! m = Some e ∧ valid_entry db e = true ∧
      (∀ k x, (m < k < n)%nat → idx !! k = Some x → valid_entry db x = false) ∧
      db' = mk_db (take (S m) idx) (blocks db)
  | (None, db') => (∀ k x, (k < n)%nat → idx !! k = Some x → valid_entry db x = false) ∧
      db' = mk_db [] (blocks db)
  end.
Proof.
  revert db. induction n as [|n IH]; intros db Hn Hidx; cbn [scan_back].
  - split; [lia|]. destruct db as [i f]. cbn in *. by subst.
  - destruct (lookup_lt_is_Some_2 idx n) as [e He]; [lia|].
    assert (index db !! n = Some e) as ->  by (rewrite Hidx, lookup_take_lt by lia; done).
    fold (valid_entry db e). destruct (valid_entry db e) eqn:Hv.
    + exists n. split; [lia|]. split; [done|]. split; [done|]. split; [lia|].
      destruct db. cbn in *. by subst.
    + specialize (IH (mk_db (take n (index db)) (blocks db)) ltac:(lia)).
      assert (take n (index db) = take n idx) as Ht by (rewrite Hidx, take_take; f_equal; lia).
      specialize (IH Ht). destruct (scan_back n _) as [[x|] db'] eqn:Hs.
      * destruct IH as (m & Hm & Hx & Hvx & Hall & ->). exists m. split; [lia|]. split; [done|].
        split; [exact Hvx|]. split; [|done]. intros k y Hk Hy.
        destruct (decide (k = n)) as [->|]; [congruence|]. apply (Hall k y); [lia|done].
      * destruct IH as (Hall & ->). split; [|done]. intros k y Hk Hy.
        destruct (decide (k = n)) as [->|]; [congruence|]. apply (Hall k y); [lia|done].
Qed.

(** After a crash the store recovers: [last_index_entry] ends with the
    highest entry that points to a complete block of its identifier, and the
    entries above it, which do not, are cut off the index; when there is none the
    index becomes empty. *)
Theorem last_index_entry_recovers db :
  match last_index_entry db with
  | (Some e, db') => ∃ n, index db !! n = Some e ∧ valid_at db n ∧ (∀ m, (n < m)%nat → ¬ valid_at db m) ∧
      db' = mk_db (take (S n) (index db)) (blocks db)
  | (None, db') => (∀ m, ¬ valid_at db m) ∧ db' = mk_db [] (blocks db)
  end.
Proof.
  pose proof (scan_back_spec (length (index db)) (index db) db (le_n _)) as Hs.
  rewrite firstn_all in Hs. specialize (Hs eq_refl). unfold last_index_entry.
  destruct (scan_back _ db) as [[e|] db'].
  - destruct Hs as (n & _ & He & Hv & Hall & ->). exists n. split; [done|]. split; [by exists e|].
    split; [|done]. intros m Hm (x & Hx & Hvx).
    rewrite (Hall m x) in Hvx; [done| |done]. split; [done|]. by eapply lookup_lt_Some.
  - destruct Hs as (Hall & ->). split; [|done]. intros m (x & Hx & Hvx).
    rewrite (Hall m x) in Hvx; [done| |done]. by eapply lookup_lt_Some.
Qed.
End Store.

(** ** Witness *)

(** A serializer for blocks whose transactions are all alike. *)
Definition demo_pack (b : signed_block () Z ()) : list Z :=
  [version b; timestamp b; witness b; transaction_merkle_root b; Z.of_nat (length (transactions b))]
  ++ _hash (previous b).
Definition demo_unpack (l : list Z) : option (signed_block () Z ()) :=
  match l with
  | v :: t :: w :: r :: n :: h =>
      Some (mk_block v (mk_block_id h) t w r () (replicate (Z.to_nat n) ()))
  | _ => None
  end.
Definition demo_sha (h : @signed_block_header Z ()) : list Z := [0; 7; 7; 7; 7; 7; 7].
Definition demo_block (t : Z) : signed_block () Z () := mk_block 0 null_block_id t 0 0 () [].

Lemma demo_unpack_pack x : demo_unpack (demo_pack x) = Some x.
Proof.
  destruct x as [v [h] t w r [] txs]. unfold demo_pack, demo_unpack. cbn. f_equal. f_equal.
  rewrite Nat2Z.id. induction txs as [|[] txs IH]; [done|]. cbn. by rewrite IH.
Qed.

Lemma block_store_fetch_witness :
  ∃ db', store demo_sha demo_pack (id_of demo_sha (demo_block 5)) (demo_block 5) (mk_db [] []) = Ok db' ∧
    fetch_optional demo_sha demo_unpack (id_of demo_sha (demo_block 5)) db' = Some (demo_block 5).
Proof.
  destruct (block_store_fetch demo_sha demo_pack demo_unpack (demo_block 5) (mk_db [] []))
    as (db' & Hs & _ & _ & Hf & _).
  - apply demo_unpack_pack.
  - intros n e Hn. discriminate Hn.
  - discriminate.
  - unfold max_block_size. cbn. lia.
  - exists db'. split; [exact Hs|exact Hf].
Defined.
