(* ===== verification/Raw.v ===== *)
(** * Serialization: libraries/fc/include/fc/io/raw.hpp, datastream.hpp, container/flat.hpp

    [fc::raw::pack] and [unpack] for the types the blocks are made of.  The overloads of
    the C++ functions for one type are a [codec]; a template over other types is a
    function of their codecs.  [pack] returns what it writes: the stream has the size that
    a first run counted ([pack_size]), so that writing never fails.  [unpack] reads a
    stream of bytes, the state of type [M].  [_max_depth] is a [nat]; every
    [FC_ASSERT( _max_depth > 0 )] is a [charge].  Integers are little endian as on the
    machines the node runs on. *)

From S2P Require Import Prelude.
From stdpp Require Import sorting.

Local Open Scope Z_scope.

Record codec (A : Type) := mk_codec {
  c_pack : nat → A → result (list Z);
  c_unpack : nat → M (list Z) A
}.
Arguments mk_codec {A}.
Arguments c_pack {A}.
Arguments c_unpack {A}.

(** [FC_ASSERT( _max_depth > 0 ); --_max_depth] *)
Definition charge {A} (d : nat) (k : nat → result A) : result A :=
  match d with O => Throw assert_exception | S d => k d end.
Definition charge_m {S A} (d : nat) (k : nat → M S A) : M S A :=
  match d with O => throw assert_exception | S d => k d end.

(** A type behind such an assertion, at the depth below. *)
Definition c_deeper {A} (c : codec A) : codec A := mk_codec
  (λ d v, charge d (λ d, c_pack c d v))
  (λ d, charge_m d (λ d, c_unpack c d)).

(** A type that is packed as another one. *)
Definition c_as {A B} (to : A → B) (from : B → A) (c : codec A) : codec B := mk_codec
  (λ d v, c_pack c d (from v))
  (λ d, x ← c_unpack c d; mret (to x)).

(** [datastream::get] and [datastream::read]. *)
Definition get_byte : M (list Z) Z := λ s,
  match s with [] => Throw out_of_range_exception | b :: s => Ok (b, s) end.
Definition read (n : nat) : M (list Z) (list Z) := λ s,
  if (n <=? length s)%nat then Ok (take n s, drop n s) else Throw out_of_range_exception.

(** ** Variable length integers *)

(** The loop of [pack] for [unsigned_int], [unsigned_int64] and [signed_int]. *)
Fixpoint pack_loop (fuel : nat) (val : Z) : list Z :=
  match fuel with
  | O => []
  | S fuel =>
      let b := Z.land val 127 in
      let val := Z.shiftr val 7 in
      if 0 <? val then Z.lor b 128 :: pack_loop fuel val else [b]
  end.

(** A 64-bit number has at most ten groups of seven bits. *)
Definition pack_varint (val : Z) : list Z := pack_loop 10 val.

(** [uintw_t(b & 0x7f) << by] is undefined for [by >= w]. *)
Definition put_bits (w v b by' : Z) : result Z :=
  if by' <? w then Ok (Z.lor v (to_uint w (Z.shiftl (Z.land b 127) by'))) else Throw undefined_behaviour.

Fixpoint unpack_loop (w v by' : Z) (s : list Z) : result (Z * list Z) :=
  match s with
  | [] => Throw out_of_range_exception
  | b :: s =>
      v ← put_bits w v b by';
      if 0 <? Z.land b 128 then unpack_loop w v (by' + 7) s else Ok (v, s)
  end.

Definition c_unsigned_int : codec Z := mk_codec
  (λ _ v, Ok (pack_varint v))
  (λ _, v ← unpack_loop 32 0 0; mret (to_uint 32 v)).

Definition c_unsigned_int64 : codec Z := mk_codec
  (λ _ v, Ok (pack_varint v))
  (λ _, unpack_loop 64 0 0).

Definition c_signed_int : codec Z := mk_codec
  (λ _ v, Ok (pack_varint (to_uint 32 (Z.lxor (Z.shiftl v 1) (Z.shiftr v 31)))))
  (λ _, v ← unpack_loop 32 0 0;
        let value := to_sint 32 (Z.lxor (Z.shiftr v 1) (Z.shiftr v 31) + Z.land v 1) in
        let value := if Z.land v 1 =? 1 then value else - value in
        mret (to_sint 32 (- value))).

(** ** Types of a fixed size *)

Fixpoint to_bytes (n : nat) (v : Z) : list Z :=
  match n with O => [] | S n => v mod 256 :: to_bytes n (v / 256) end.
Fixpoint of_bytes (l : list Z) : Z :=
  match l with [] => 0 | b :: l => b + 256 * of_bytes l end.

(** [s.write( (char* )&v, sizeof(v) )] *)
Definition c_raw (n : nat) : codec Z := mk_codec
  (λ _ v, Ok (to_bytes n v))
  (λ _, l ← read n; mret (of_bytes l)).

(** Integers: the overload for any type, [if_reflected], [if_class]. *)
Definition c_uint (n : nat) : codec Z := c_deeper (c_deeper (c_raw n)).

Definition c_int64 : codec Z := c_as (to_sint 64) (to_uint 64) (c_uint 8).

(** [safe<int64_t>] *)
Definition c_safe : codec Z := c_deeper c_int64.

(** [time_point_sec] *)
Definition c_time_point_sec : codec Z := c_raw 4.

(** [fc::array<unsigned char,N>] *)
Definition c_array (n : nat) : codec (list Z) := mk_codec
  (λ _ v, Ok v)
  (λ _, read n).

Definition c_bool : codec bool := c_deeper (mk_codec
  (λ d v, c_pack (c_uint 1) d (if v : bool then 1 else 0))
  (λ d, b ← c_unpack (c_uint 1) d; assert_st (Z.land b 254 =? 0) ;; mret (negb (b =? 0)))).

(** ** Strings and containers *)

Definition MAX_ARRAY_ALLOC_SIZE : Z := 1024 * 1024 * 10.

(** The size, and the elements in order. *)
Definition pack_size {A} (d : nat) (l : list A) : result (list Z) :=
  c_pack c_unsigned_int d (to_uint 32 (Z.of_nat (length l))).

Fixpoint pack_all {A} (c : codec A) (d : nat) (l : list A) : result (list Z) :=
  match l with
  | [] => Ok []
  | x :: l => bs ← c_pack c d x; rest ← pack_all c d l; Ok (bs ++ rest)
  end.

Fixpoint unpack_all {A} (c : codec A) (d : nat) (n : nat) : M (list Z) (list A) :=
  match n with
  | O => mret []
  | S n => x ← c_unpack c d; l ← unpack_all c d n; mret (x :: l)
  end.

(** [std::vector<char>] *)
Definition c_chars : codec (list Z) := c_deeper (mk_codec
  (λ d l, size ← pack_size d l; Ok (size ++ l))
  (λ d, n ← c_unpack c_unsigned_int d; assert_st (n <? MAX_ARRAY_ALLOC_SIZE) ;; read (Z.to_nat n))).

(** [fc::string]: packed like the characters, unpacked through them, a level deeper. *)
Definition c_string : codec (list Z) := mk_codec
  (c_pack c_chars)
  (λ d, charge_m d (λ d, c_unpack c_chars d)).

(** The size and the elements; [check] is what is asserted of the size. *)
Definition c_elements {A} (check : Z → bool) (c : codec A) : codec (list A) := c_deeper (mk_codec
  (λ d l, size ← pack_size d l; bs ← pack_all c d l; Ok (size ++ bs))
  (λ d, n ← c_unpack c_unsigned_int d; assert_st (check n) ;; unpack_all c d (Z.to_nat n))).

(** [std::vector<T>] and [std::deque<T>], [size] being [sizeof(T)]. *)
Definition c_vector {A} (size : Z) (c : codec A) : codec (list A) :=
  c_elements (λ n, n * size <? MAX_ARRAY_ALLOC_SIZE) c.

(** Inserting into an ordered container: an equal key stays as it is. *)
Fixpoint insert_into {A} (less : A → A → bool) (x : A) (l : list A) : list A :=
  match l with
  | [] => [x]
  | y :: l' => if less y x then y :: insert_into less x l' else if less x y then x :: l else l
  end.

Definition build {A} (less : A → A → bool) (l : list A) : list A :=
  foldl (λ m x, insert_into less x m) [] l.

(** [flat_set<T>]: the elements in order.  The code inserts each as it comes. *)
Definition c_flat_set {A} (less : A → A → bool) (size : Z) (c : codec A) : codec (list A) :=
  c_as (build less) id (c_vector size c).

(** [std::set<T>]: without a limit of the size. *)
Definition c_set {A} (less : A → A → bool) (c : codec A) : codec (list A) :=
  c_as (build less) id (c_elements (λ _, true) c).

(** One value after the other. *)
Definition c_field {A B} (c1 : codec A) (c2 : codec B) : codec (A * B) := mk_codec
  (λ d p, b1 ← c_pack c1 d p.1; b2 ← c_pack c2 d p.2; Ok (b1 ++ b2))
  (λ d, x ← c_unpack c1 d; y ← c_unpack c2 d; mret (x, y)).

(** [std::pair<K,V>] *)
Definition c_pair {A B} (c1 : codec A) (c2 : codec B) : codec (A * B) := c_deeper (c_field c1 c2).

(** [flat_map<K,V>] and [std::map<K,V>], [size] being [sizeof(K) + sizeof(V)]. *)
Definition c_map {K V} (less : K → K → bool) (size : Z) (k : codec K) (v : codec V) : codec (list (K * V)) :=
  c_flat_set (λ p q, less p.1 q.1) size (c_pair k v).

(** [fc::optional<T>] *)
Definition c_optional {A} (c : codec A) : codec (option A) := c_deeper (mk_codec
  (λ d o, b ← c_pack c_bool d (bool_decide (is_Some o));
     match o with Some x => bs ← c_pack c d x; Ok (b ++ bs) | None => Ok b end)
  (λ d, b ← c_unpack c_bool d; if b : bool then x ← c_unpack c d; mret (Some x) else mret None)).

(** ** [static_variant<T...>] *)

(** The alternatives with their codecs; [which] is [sv.which()]. *)
Record alternatives (A : Type) := mk_alternatives {
  count : nat;
  which : A → nat;
  pack_alternative : nat → A → result (list Z);
  unpack_alternative : nat → nat → M (list Z) A
}.
Arguments mk_alternatives {A}.
Arguments count {A}.
Arguments which {A}.
Arguments pack_alternative {A}.
Arguments unpack_alternative {A}.

Definition no_alternative : alternatives Empty_set := mk_alternatives 0
  (λ x : Empty_set, match x return nat with end)
  (λ _ (x : Empty_set), match x return result (list Z) with end)
  (λ _ _, throw assert_exception).

Definition or_else {A B} (c : codec A) (r : alternatives B) : alternatives (A + B) := mk_alternatives
  (S (count r))
  (λ x, match x with inl _ => O | inr b => S (which r b) end)
  (λ d x, match x with inl a => c_pack c d a | inr b => pack_alternative r d b end)
  (λ d w, match w with
          | O => a ← c_unpack c d; mret (inl a)
          | S w => b ← unpack_alternative r d w; mret (inr b)
          end).

(** [set_which] asserts that the tag is one of the alternatives. *)
Definition c_static_variant {A} (r : alternatives A) : codec A := c_deeper (mk_codec
  (λ d x, w ← c_pack c_unsigned_int d (Z.of_nat (which r x));
     charge d (λ d, bs ← pack_alternative r d x; Ok (w ++ bs)))
  (λ d, w ← c_unpack c_unsigned_int d;
     assert_st (w <? Z.of_nat (count r)) ;;
     charge_m d (λ d, unpack_alternative r d (Z.to_nat w)))).

(** ** Reflected structures *)

(** The fields in the order of [FC_REFLECT] follow each other ([c_field]) at one depth. *)
Definition c_no_field : codec () := mk_codec (λ _ _, Ok []) (λ _, mret ()).

(** The overload for any type, [if_reflected], [if_enum] and the visitor of the fields. *)
Definition c_object {A} (fields : codec A) : codec A := c_deeper (c_deeper (c_deeper (c_deeper fields))).

(** ** Whole values: [pack( v )] and [unpack<T>( bytes )] *)

Definition FC_PACK_MAX_DEPTH : nat := 1000.

Definition pack {A} (c : codec A) (v : A) : result (list Z) :=
  charge FC_PACK_MAX_DEPTH (λ d, c_pack c d v).

(** Of an empty vector nothing is read: the value is as its constructor made it. *)
Definition unpack {A} (c : codec A) (init : A) (s : list Z) : result A :=
  charge FC_PACK_MAX_DEPTH (λ d,
    match s with [] => Ok init | _ => p ← c_unpack c d s; Ok (p.1 : A) end).

(** * What a codec promises *)

(** Values that are [ok] can be packed at every depth from [n] on; whatever was packed is
    read back at such a depth, and the rest of the stream stays; what is read is a
    prefix of the stream. *)
Class Lawful {A} (c : codec A) (ok : A → Prop) (n : nat) : Prop := {
  pack_returns d v : ok v → (n ≤ d)%nat → ∃ bs, c_pack c d v = Ok bs;
  unpack_packed d d' v bs rest :
    ok v → c_pack c d v = Ok bs → (n ≤ d')%nat → c_unpack c d' (bs ++ rest) = Ok (v, rest);
  unpack_reads d s v rest : c_unpack c d s = Ok (v, rest) → ∃ bs, s = bs ++ rest
}.

(** ** Variable length integers *)

Lemma low_bits val : Z.land (Z.lor (Z.land val 127) 128) 127 = Z.land val 127.
Proof. rewrite Z.land_lor_distr_l, <- Z.land_assoc. change (Z.land 127 127) with 127. by rewrite Z.lor_0_r. Qed.
Lemma low_bits_last val : Z.land (Z.land val 127) 127 = Z.land val 127.
Proof. by rewrite <- Z.land_assoc. Qed.
Lemma high_bit val : Z.land (Z.lor (Z.land val 127) 128) 128 = 128.
Proof. rewrite Z.land_lor_distr_l, <- Z.land_assoc. change (Z.land 127 128) with 0. by rewrite Z.land_0_r. Qed.
Lemma high_bit_last val : Z.land (Z.land val 127) 128 = 0.
Proof. rewrite <- Z.land_assoc. apply Z.land_0_r. Qed.

Lemma put_bits_val w v b by' :
  0 ≤ by' < w → 0 ≤ v < 2 ^ by' → Z.land b 127 * 2 ^ by' < 2 ^ w →
  put_bits w v b by' = Ok (v + Z.land b 127 * 2 ^ by').
Proof.
  intros Hby Hv Hw. unfold put_bits. rewrite (proj2 (Z.ltb_lt _ _)) by lia.
  assert (0 ≤ Z.land b 127) by (by apply Z.land_nonneg; right).
  rewrite Z.shiftl_mul_pow2, to_uint_id by (unfold uint; nia).
  by rewrite Z.lor_comm, lor_add_low, Z.add_comm by lia.
Qed.

Lemma pack_loop_step n val :
  pack_loop (S n) val = if 0 <? Z.shiftr val 7 then Z.lor (Z.land val 127) 128 :: pack_loop n (Z.shiftr val 7)
                        else [Z.land val 127].
Proof. done. Qed.

Lemma unpack_pack_loop w n v by' val rest :
  0 ≤ by' < w → 0 ≤ v < 2 ^ by' → 0 ≤ val < 2 ^ (7 * Z.of_nat (S n)) → val * 2 ^ by' < 2 ^ w →
  unpack_loop w v by' (pack_loop (S n) val ++ rest) = Ok (v + val * 2 ^ by', rest).
Proof.
  revert v by' val. induction n as [|n IH]; intros v by' val Hby Hv Hval Hw.
  all: rewrite pack_loop_step; pose proof (Z.div_mod val 128 ltac:(done)) as Hdm;
    pose proof (Z.mod_pos_bound val 128 eq_refl) as Hmod; pose proof (Z.land_ones val 7 ltac:(done)) as Hland;
    change (Z.ones 7) with 127 in Hland; change (2 ^ 7) with 128 in Hland;
    rewrite Z.shiftr_div_pow2 by done; change (2 ^ 7) with 128; assert (0 < 2 ^ by') as Hpow by lia;
    assert (val mod 128 * 2 ^ by' ≤ val * 2 ^ by') as Hle
      by (apply Z.mul_le_mono_nonneg_r; [lia|apply Z.mod_le; lia]).
  - replace (val / 128) with 0 by (symmetry; apply Z.div_small; change (2 ^ _) with 128 in Hval; lia).
    cbn. rewrite put_bits_val by (try done; rewrite low_bits_last, Hland; lia). cbn.
    rewrite high_bit_last, low_bits_last. cbn. rewrite Hland, Z.mod_small by (change (2 ^ _) with 128 in Hval; lia). done.
  - destruct (Z.ltb_spec 0 (val / 128)) as [Hpos|Hpos].
    + cbn [app unpack_loop]. rewrite put_bits_val by (try done; rewrite low_bits, Hland; lia). cbn [mbind result_bind].
      rewrite high_bit, low_bits. change (0 <? 128) with true. cbn iota.
      assert (2 ^ (by' + 7) = 128 * 2 ^ by') as Hp7 by (rewrite Z.pow_add_r by lia; lia).
      rewrite IH.
      * rewrite Hp7. do 2 f_equal. nia.
      * split; [lia|]. apply (Z.pow_lt_mono_r_iff 2); nia.
      * rewrite Hp7. nia.
      * split; [lia|]. apply Z.div_lt_upper_bound; [done|]. eapply Z.lt_le_trans; [apply Hval|].
        replace (7 * Z.of_nat (S (S n))) with (7 + 7 * Z.of_nat (S n)) by lia. rewrite Z.pow_add_r by lia. reflexivity.
      * rewrite Hp7. nia.
    + cbn [app unpack_loop]. rewrite put_bits_val by (try done; rewrite low_bits_last, Hland; lia). cbn [mbind result_bind].
      rewrite high_bit_last, low_bits_last. cbn. do 2 f_equal.
      assert (0 ≤ val / 128) by (apply Z.div_pos; lia). nia.
Qed.

(** ** The codecs are lawful *)

#[export] Instance deeper_lawful {A} (c : codec A) ok n : Lawful c ok n → Lawful (c_deeper c) ok (S n).
Proof.
  intros [Hret Hun Hre]. split.
  - intros [|d] v Hv Hd; [lia|]. apply Hret; [done|lia].
  - intros [|d] [|d'] v bs rest Hv Hp Hd; [done|done|lia|]. cbn in *. eapply Hun; [done|exact Hp|lia].
  - intros [|d] s v rest Hs; [done|]. exact (Hre _ _ _ _ Hs).
Qed.

Lemma as_lawful {A B} (to : A → B) (from : B → A) (c : codec A) ok n (ok' : B → Prop) n' :
  Lawful c ok n → n = n' → (∀ v, ok' v → ok (from v) ∧ to (from v) = v) → Lawful (c_as to from c) ok' n'.
Proof.
  intros [Hret Hun Hre] <- Hiso. split.
  - intros d v [Hv _]%Hiso Hd. by apply Hret.
  - intros d d' v bs rest [Hv Heq]%Hiso Hp Hd. unfold c_as, c_unpack.
    rewrite (M_bind_run _ _ _ _ _ (Hun _ _ _ _ _ Hv Hp Hd)). by rewrite Heq.
  - intros d s v rest (x & s1 & Hx & [= <- <-])%M_bind_Ok. exact (Hre _ _ _ _ Hx).
Qed.

Lemma unpack_loop_reads w v by' s x rest : unpack_loop w v by' s = Ok (x, rest) → ∃ bs, s = bs ++ rest.
Proof.
  revert v by'. induction s as [|b s IH]; intros v by' Hrun; [done|]. cbn in Hrun.
  apply bind_Ok in Hrun as (v' & _ & Hrun). destruct (0 <? Z.land b 128).
  - apply IH in Hrun as [bs ->]. by exists (b :: bs).
  - injection Hrun as <- <-. by exists [b].
Qed.

Lemma varint_packed w val rest :
  0 < w ≤ 64 → uint w val → unpack_loop w 0 0 (pack_varint val ++ rest) = Ok (val, rest).
Proof.
  intros Hw Hval. unfold pack_varint. rewrite unpack_pack_loop.
  - by rewrite Z.mul_1_r.
  - lia.
  - done.
  - split; [apply Hval|]. eapply Z.lt_le_trans; [apply Hval|]. apply Z.pow_le_mono_r; lia.
  - rewrite Z.mul_1_r. apply Hval.
Qed.

#[export] Instance unsigned_int_lawful : Lawful c_unsigned_int (uint 32) 0.
Proof.
  split.
  - eauto.
  - intros d d' v bs rest Hv [= <-] _. unfold c_unsigned_int, c_unpack.
    rewrite (M_bind_run _ _ _ _ _ (varint_packed 32 v rest ltac:(done) Hv)). by rewrite to_uint_id.
  - intros d s v rest (x & s1 & Hx & [= <- <-])%M_bind_Ok. by eapply unpack_loop_reads.
Qed.

#[export] Instance unsigned_int64_lawful : Lawful c_unsigned_int64 (uint 64) 0.
Proof.
  split; [eauto| |].
  - intros d d' v bs rest Hv [= <-] _. by apply varint_packed.
  - intros d s v rest. apply unpack_loop_reads.
Qed.

(** The zigzag encoding, where it is one. *)
Lemma zigzag z : - 2 ^ 30 ≤ z < 2 ^ 30 →
  to_uint 32 (Z.lxor (Z.shiftl z 1) (Z.shiftr z 31)) = if z <? 0 then - 2 * z - 1 else 2 * z.
Proof.
  intros Hz. rewrite Z.shiftl_mul_pow2, Z.shiftr_div_pow2 by lia. change (2 ^ 1) with 2.
  destruct (Z.ltb_spec z 0).
  - replace (z / 2 ^ 31) with (-1).
    + rewrite Z.lxor_m1_r. unfold Z.lnot, to_uint. rewrite Z.mod_small; lia.
    + apply (Z.div_unique _ _ _ (z + 2 ^ 31)); lia.
  - rewrite Z.div_small, Z.lxor_0_r by lia. unfold to_uint. rewrite Z.mod_small; lia.
Qed.

#[export] Instance signed_int_lawful : Lawful c_signed_int (λ z, - 2 ^ 30 ≤ z < 2 ^ 30) 0.
Proof.
  split; [eauto| |].
  - intros d d' z bs rest Hz [= <-] _. unfold c_signed_int, c_unpack. rewrite zigzag by done.
    set (v := if z <? 0 then _ else _).
    assert (0 ≤ v < 2 ^ 31) as Hv by (unfold v; destruct (Z.ltb_spec z 0); lia).
    rewrite (M_bind_run _ _ _ _ _ (varint_packed 32 v rest ltac:(done) ltac:(unfold uint; lia))).
    unfold mret, M_ret. do 2 f_equal. rewrite !Z.shiftr_div_pow2 by done. change (2 ^ 1) with 2.
    rewrite (Z.div_small v (2 ^ 31)), Z.lxor_0_r by lia.
    pose proof (Z.land_ones v 1 ltac:(done)) as Hland. change (Z.ones 1) with 1 in Hland.
    change (2 ^ 1) with 2 in Hland. rewrite !Hland.
    pose proof (Z.div_mod v 2 ltac:(done)) as Hdm. unfold v in *. destruct (Z.ltb_spec z 0).
    + replace ((-2 * z - 1) mod 2) with 1 in * by (apply (Z.mod_unique _ _ (- z - 1)); lia).
      cbn [Z.eqb Pos.eqb]. generalize dependent ((-2 * z - 1) / 2). intros q Hdm.
      rewrite (to_sint_id 32 (q + _)) by lia. rewrite to_sint_id; lia.
    + replace ((2 * z) mod 2) with 0 in * by (apply (Z.mod_unique _ _ z); lia).
      cbn [Z.eqb]. generalize dependent (2 * z / 2). intros q Hdm.
      rewrite (to_sint_id 32 (q + _)) by lia. rewrite to_sint_id; lia.
  - intros d s v rest (x & s1 & Hx & [= <- <-])%M_bind_Ok. by eapply unpack_loop_reads.
Qed.

Lemma length_to_bytes n v : length (to_bytes n v) = n.
Proof. revert v. induction n as [|n IH]; intros v; cbn; [done|]. by rewrite IH. Qed.

Lemma of_to_bytes n v : uint (8 * Z.of_nat n) v → of_bytes (to_bytes n v) = v.
Proof.
  revert v. induction n as [|n IH]; intros v Hv.
  - unfold uint in Hv. cbn in *. lia.
  - cbn [to_bytes of_bytes]. rewrite IH.
    + pose proof (Z.div_mod v 256 ltac:(done)). lia.
    + unfold uint in *. split; [apply Z.div_pos; lia|]. apply Z.div_lt_upper_bound; [done|].
      replace (8 * Z.of_nat (S n)) with (8 + 8 * Z.of_nat n) in Hv by lia. rewrite Z.pow_add_r in Hv by lia. lia.
Qed.

Lemma read_app n bs rest : length bs = n → read n (bs ++ rest) = Ok (bs, rest).
Proof.
  intros <-. unfold read. rewrite length_app, (proj2 (Nat.leb_le _ _)) by lia.
  by rewrite take_app_length, drop_app_length.
Qed.

Lemma read_reads n s bs rest : read n s = Ok (bs, rest) → s = bs ++ rest ∧ length bs = n.
Proof.
  unfold read. destruct (Nat.leb_spec n (length s)) as [Hle|]; [|done]. intros [= <- <-].
  rewrite take_drop, length_take. split; [done|lia].
Qed.

#[export] Instance array_lawful n : Lawful (c_array n) (λ l, length l = n) 0.
Proof.
  split; [eauto| |].
  - intros d d' v bs rest Hv [= <-] _. by apply read_app.
  - intros d s v rest [Hs _]%read_reads. eauto.
Qed.

#[export] Instance raw_lawful n : Lawful (c_raw n) (uint (8 * Z.of_nat n)) 0.
Proof.
  split; [eauto| |].
  - intros d d' v bs rest Hv [= <-] _. unfold c_raw, c_unpack.
    rewrite (M_bind_run _ _ _ _ _ (read_app n _ rest (length_to_bytes n v))). by rewrite of_to_bytes.
  - intros d s v rest (x & s1 & Hx & [= <- <-])%M_bind_Ok. apply read_reads in Hx as [Hs _]. eauto.
Qed.

#[export] Instance uint_lawful n : Lawful (c_uint n) (uint (8 * Z.of_nat n)) 2.
Proof. apply _. Qed.

#[export] Instance int64_lawful : Lawful c_int64 int64 2.
Proof.
  eapply as_lawful; [apply _|done|]. intros v Hv. split; [by apply to_uint_range|].
  unfold to_sint, to_uint. rewrite Z.mod_mod by done. by apply to_sint_64_id.
Qed.

#[export] Instance safe_lawful : Lawful c_safe int64 3.
Proof. apply _. Qed.

#[export] Instance time_point_sec_lawful : Lawful c_time_point_sec (uint 32) 0.
Proof. apply (raw_lawful 4). Qed.

#[export] Instance bool_lawful : Lawful c_bool (λ _, True) 3.
Proof.
  apply deeper_lawful. destruct (uint_lawful 1) as [Hret Hun Hre].
  assert (∀ v : bool, uint 8 (if v then 1 else 0)) as Hb by (intros []; by vm_compute).
  split.
  - intros d v _ Hd. by apply Hret.
  - intros d d' v bs rest _ Hp Hd. unfold c_unpack at 1. cbn [c_pack] in Hp.
    rewrite (M_bind_run _ _ _ _ _ (Hun _ _ _ _ rest (Hb v) Hp Hd)). by destruct v.
  - intros d s v rest (x & s1 & Hx & Hrest)%M_bind_Ok. inv_ok. by eapply Hre.
Qed.

(** ** Containers *)

Lemma size_packed {A} d (l : list A) rest :
  Z.of_nat (length l) < 2 ^ 32 →
  ∃ bs, pack_size d l = Ok bs ∧ ∀ d', c_unpack c_unsigned_int d' (bs ++ rest) = Ok (Z.of_nat (length l), rest).
Proof.
  intros Hl. eexists. split; [done|]. intros d'. rewrite to_uint_id by (unfold uint; lia).
  apply (unpack_packed d d'); [unfold uint; lia|done|lia].
Qed.

Lemma unpack_size_reads d s n s1 : c_unpack c_unsigned_int d s = Ok (n, s1) → ∃ bs, s = bs ++ s1.
Proof. apply unpack_reads. Qed.

#[export] Instance chars_lawful : Lawful c_chars (λ l, Z.of_nat (length l) < MAX_ARRAY_ALLOC_SIZE) 1.
Proof.
  apply deeper_lawful. unfold MAX_ARRAY_ALLOC_SIZE. split.
  - intros d l Hl _. eexists. reflexivity.
  - intros d d' l bs rest Hl Hp _. cbn [c_pack] in Hp.
    destruct (size_packed d l (l ++ rest)) as (size & Hsize & Hun); [lia|]. rewrite Hsize in Hp.
    injection Hp as <-. rewrite <- app_assoc. unfold c_unpack at 1. rewrite (M_bind_run _ _ _ _ _ (Hun d')).
    rewrite (proj2 (Z.ltb_lt _ _)) by done. rewrite Nat2Z.id. by apply read_app.
  - intros d s l rest (n & s1 & [bs ->]%unpack_size_reads & Hrun)%M_bind_Ok.
    apply M_bind_Ok in Hrun as (? & ? & [_ ->]%assert_st_Ok & [-> _]%read_reads).
    exists (bs ++ l). by rewrite <- app_assoc.
Qed.

(** The depth that suffices to pack a string does not suffice to unpack it. *)
#[export] Instance string_lawful : Lawful c_string (λ l, Z.of_nat (length l) < MAX_ARRAY_ALLOC_SIZE) 2.
Proof.
  destruct chars_lawful as [Hret Hun Hre]. split.
  - intros d l Hl Hd. apply Hret; [done|lia].
  - intros d [|d'] l bs rest Hl Hp Hd; [lia|]. apply (Hun d d'); [done|done|lia].
  - intros [|d] s l rest Hs; [done|]. exact (Hre _ _ _ _ Hs).
Qed.

Section Elements.
Context {A} (c : codec A) (ok : A → Prop) (n : nat) `{!Lawful c ok n}.

Lemma pack_all_returns d l : Forall ok l → (n ≤ d)%nat → ∃ bs, pack_all c d l = Ok bs.
Proof.
  intros Hl Hd. induction Hl as [|x l Hx _ [bs Hbs]]; [by eexists|]. cbn.
  destruct (pack_returns d x Hx Hd) as [b ->]. cbn. rewrite Hbs. eexists. done.
Qed.

Lemma unpack_all_packed d d' l bs rest :
  Forall ok l → pack_all c d l = Ok bs → (n ≤ d')%nat → unpack_all c d' (length l) (bs ++ rest) = Ok (l, rest).
Proof.
  intros Hl. revert bs rest. induction Hl as [|x l Hx _ IH]; intros bs rest Hp Hd.
  { by injection Hp as <-. }
  cbn in Hp. apply bind_Ok in Hp as (b & Hb & Hp). apply bind_Ok in Hp as (bs' & Hbs & [= <-]).
  rewrite <- app_assoc. cbn [length unpack_all].
  rewrite (M_bind_run _ _ _ _ _ (unpack_packed d d' x b (bs' ++ rest) Hx Hb Hd)).
  by rewrite (M_bind_run _ _ _ _ _ (IH bs' rest Hbs Hd)).
Qed.

Lemma unpack_all_reads d k s l rest :
  unpack_all c d k s = Ok (l, rest) → ∃ bs, s = bs ++ rest.
Proof.
  revert s l rest. induction k as [|k IH]; intros s l rest Hrun; cbn in Hrun.
  - injection Hrun as <- <-. by exists [].
  - apply M_bind_Ok in Hrun as (x & s1 & [b ->]%unpack_reads & Hrun).
    apply M_bind_Ok in Hrun as (l' & s2 & [bs ->]%IH & [= <- <-]). exists (b ++ bs). by rewrite <- app_assoc.
Qed.

#[export] Instance elements_lawful (check : Z → bool) :
  Lawful (c_elements check c)
    (λ l, Forall ok l ∧ Z.of_nat (length l) < 2 ^ 32 ∧ check (Z.of_nat (length l)) = true) (S n).
Proof.
  apply deeper_lawful. split.
  - intros d l (Hl & _ & _) Hd. cbn. destruct (pack_all_returns d l Hl Hd) as [bs ->]. by eexists.
  - intros d d' l bs rest (Hl & Hlen & Hcheck) Hp Hd. cbn [c_pack] in Hp.
    apply bind_Ok in Hp as (size' & Hsize' & Hp). apply bind_Ok in Hp as (bs' & Hbs & [= <-]).
    destruct (size_packed d l (bs' ++ rest) Hlen) as (size & Hsize & Hun).
    rewrite Hsize in Hsize'. injection Hsize' as <-. rewrite <- app_assoc.
    unfold c_unpack at 1. rewrite (M_bind_run _ _ _ _ _ (Hun d')). rewrite Hcheck, Nat2Z.id.
    by apply (unpack_all_packed d).
  - intros d s l rest (k & s1 & [bs ->]%unpack_size_reads & Hrun)%M_bind_Ok.
    apply M_bind_Ok in Hrun as (? & ? & [_ ->]%assert_st_Ok & [bs' ->]%unpack_all_reads).
    exists (bs ++ bs'). by rewrite <- app_assoc.
Qed.

#[export] Instance vector_lawful size :
  Lawful (c_vector size c)
    (λ l, Forall ok l ∧ Z.of_nat (length l) < 2 ^ 32 ∧ (Z.of_nat (length l) * size <? MAX_ARRAY_ALLOC_SIZE) = true) (S n).
Proof. apply (elements_lawful (λ k, k * size <? MAX_ARRAY_ALLOC_SIZE)). Qed.
End Elements.

(** Inserting ordered elements in their order appends them. *)
Lemma insert_last {A} (less : A → A → bool) x l : Forall (λ y, less y x = true) l → insert_into less x l = l ++ [x].
Proof. induction 1 as [|y l Hy _ IH]; [done|]. cbn. by rewrite Hy, IH. Qed.

Lemma build_sorted {A} (less : A → A → bool) l : StronglySorted (λ x y, less x y = true) l → build less l = l.
Proof.
  unfold build. change l with ([] ++ l) at 1 3. generalize (@nil A) as m. induction l as [|x l IH]; intros m Hs.
  { by rewrite app_nil_r. }
  cbn. rewrite insert_last.
  - replace (m ++ x :: l) with ((m ++ [x]) ++ l) in * by (by rewrite <- app_assoc). by apply IH.
  - apply StronglySorted_app in Hs as (Hx & _). apply Forall_forall. intros y Hy. apply Hx; [done|by left].
Qed.

#[export] Instance flat_set_lawful {A} (less : A → A → bool) size (c : codec A) ok n :
  Lawful c ok n →
  Lawful (c_flat_set less size c)
    (λ l, (Forall ok l ∧ Z.of_nat (length l) < 2 ^ 32 ∧ (Z.of_nat (length l) * size <? MAX_ARRAY_ALLOC_SIZE) = true) ∧
          StronglySorted (λ x y, less x y = true) l) (S n).
Proof. intros Hc. eapply as_lawful; [by apply vector_lawful|done|]. intros l [Hl Hs]. split; [done|by apply build_sorted]. Qed.

#[export] Instance set_lawful {A} (less : A → A → bool) (c : codec A) ok n :
  Lawful c ok n →
  Lawful (c_set less c)
    (λ l, (Forall ok l ∧ Z.of_nat (length l) < 2 ^ 32 ∧ true = true) ∧ StronglySorted (λ x y, less x y = true) l) (S n).
Proof.
  intros Hc. eapply as_lawful; [by apply (elements_lawful c ok n (λ _, true))|done|].
  intros l [Hl Hs]. split; [done|by apply build_sorted].
Qed.

(** ** Structures *)

#[export] Instance no_field_lawful : Lawful c_no_field (λ _, True) 0.
Proof.
  split; [eauto| |].
  - by intros d d' [] bs rest _ [= <-] _.
  - intros d s [] rest [= ->]. by exists [].
Qed.

#[export] Instance field_lawful {A B} (c1 : codec A) (c2 : codec B) ok1 ok2 n1 n2 :
  Lawful c1 ok1 n1 → Lawful c2 ok2 n2 → Lawful (c_field c1 c2) (λ p, ok1 p.1 ∧ ok2 p.2) (n1 `max` n2).
Proof.
  intros H1 H2. split.
  - intros d [x y] [Hx Hy] Hd. cbn.
    destruct (pack_returns d x Hx) as [b1 ->]; [lia|]. destruct (pack_returns d y Hy) as [b2 Hb2]; [lia|].
    cbn. rewrite Hb2. by eexists.
  - intros d d' [x y] bs rest [Hx Hy] Hp Hd. cbn in Hp.
    apply bind_Ok in Hp as (b1 & Hb1 & Hp). apply bind_Ok in Hp as (b2 & Hb2 & [= <-]).
    rewrite <- app_assoc. unfold c_field, c_unpack.
    rewrite (M_bind_run _ _ _ _ _ (unpack_packed d d' x b1 (b2 ++ rest) Hx Hb1 ltac:(lia))).
    by rewrite (M_bind_run _ _ _ _ _ (unpack_packed d d' y b2 rest Hy Hb2 ltac:(lia))).
  - intros d s [x y] rest (x' & s1 & [b1 ->]%unpack_reads & Hrun)%M_bind_Ok.
    apply M_bind_Ok in Hrun as (y' & s2 & [b2 ->]%unpack_reads & [= <- <- <-]).
    exists (b1 ++ b2). by rewrite <- app_assoc.
Qed.

#[export] Instance pair_lawful {A B} (c1 : codec A) (c2 : codec B) ok1 ok2 n1 n2 :
  Lawful c1 ok1 n1 → Lawful c2 ok2 n2 → Lawful (c_pair c1 c2) (λ p, ok1 p.1 ∧ ok2 p.2) (S (n1 `max` n2)).
Proof. intros H1 H2. unfold c_pair. apply _. Qed.

#[export] Instance object_lawful {A} (fields : codec A) ok n :
  Lawful fields ok n → Lawful (c_object fields) ok (4 + n).
Proof. intros H. unfold c_object. apply _. Qed.

#[export] Instance optional_lawful {A} (c : codec A) ok n :
  Lawful c ok n → Lawful (c_optional c) (λ o, ∀ x, o = Some x → ok x) (S (3 `max` n)).
Proof.
  intros Hc. apply deeper_lawful. split.
  - intros d o Ho Hd. unfold c_pack at 1.
    destruct (pack_returns (c := c_bool) (n := 3) d (bool_decide (is_Some o)) I) as [b ->]; [lia|]. cbn.
    destruct o as [x|]; [|by eexists]. destruct (pack_returns d x (Ho x eq_refl)) as [bs ->]; [lia|]. by eexists.
  - intros d d' o bs rest Ho Hp Hd. unfold c_pack at 1 in Hp.
    apply bind_Ok in Hp as (b & Hb & Hp). unfold c_unpack at 1. destruct o as [x|].
    + apply bind_Ok in Hp as (bs' & Hbs & [= <-]). rewrite <- app_assoc.
      rewrite (M_bind_run _ _ _ _ _ (unpack_packed (c := c_bool) (n := 3) d d' _ b (bs' ++ rest) I Hb ltac:(lia))).
      rewrite bool_decide_true by done.
      by rewrite (M_bind_run _ _ _ _ _ (unpack_packed d d' x bs' rest (Ho x eq_refl) Hbs ltac:(lia))).
    + injection Hp as <-. by rewrite (M_bind_run _ _ _ _ _ (unpack_packed (c := c_bool) (n := 3) d d' _ b rest I Hb ltac:(lia))).
  - intros d s o rest ([] & s1 & [b ->]%unpack_reads & Hrun)%M_bind_Ok.
    + apply M_bind_Ok in Hrun as (x & s2 & [b' ->]%unpack_reads & [= <- <-]). exists (b ++ b'). by rewrite <- app_assoc.
    + injection Hrun as <- <-. eauto.
Qed.

(** ** Variants *)

Class LawfulAlternatives {A} (r : alternatives A) (ok : A → Prop) (n : nat) : Prop := {
  which_count x : (which r x < count r)%nat;
  count_small : Z.of_nat (count r) < 2 ^ 32;
  alternative_returns d x : ok x → (n ≤ d)%nat → ∃ bs, pack_alternative r d x = Ok bs;
  alternative_packed d d' x bs rest :
    ok x → pack_alternative r d x = Ok bs → (n ≤ d')%nat →
    unpack_alternative r d' (which r x) (bs ++ rest) = Ok (x, rest);
  alternative_reads d w s x rest : unpack_alternative r d w s = Ok (x, rest) → ∃ bs, s = bs ++ rest
}.

#[export] Instance no_alternative_lawful : LawfulAlternatives no_alternative (λ _, True) 0.
Proof. by split; intros; try destruct x. Qed.

#[export] Instance or_else_lawful {A B} (c : codec A) (r : alternatives B) ok1 ok2 n1 n2 :
  Lawful c ok1 n1 → LawfulAlternatives r ok2 n2 → TCEq (bool_decide (Z.of_nat (S (count r)) < 2 ^ 32)) true →
  LawfulAlternatives (or_else c r) (λ x, match x with inl a => ok1 a | inr b => ok2 b end) (n1 `max` n2).
Proof.
  intros Hc Hr Hsmall%TCEq_eq%bool_decide_eq_true. split.
  - intros [a|b]; cbn; [lia|]. pose proof (which_count b). lia.
  - done.
  - intros d [a|b] Hok Hd; cbn; [apply pack_returns|apply alternative_returns]; done || lia.
  - intros d d' [a|b] bs rest Hok Hp Hd; cbn in *.
    + by rewrite (M_bind_run _ _ _ _ _ (unpack_packed d d' a bs rest Hok Hp ltac:(lia))).
    + by rewrite (M_bind_run _ _ _ _ _ (alternative_packed d d' b bs rest Hok Hp ltac:(lia))).
  - intros d [|w] s x rest (a & s1 & Ha & [= <- <-])%M_bind_Ok.
    + by apply unpack_reads in Ha.
    + by apply alternative_reads in Ha.
Qed.

#[export] Instance static_variant_lawful {A} (r : alternatives A) ok n :
  LawfulAlternatives r ok n → Lawful (c_static_variant r) ok (S (S n)).
Proof.
  intros Hr. apply deeper_lawful.
  assert (∀ x, uint 32 (Z.of_nat (which r x))) as Hw.
  { intros x. pose proof (which_count x). pose proof (count_small (r := r)). unfold uint. lia. }
  split.
  - intros [|d] x Hx Hd; [lia|]. destruct (alternative_returns d x Hx) as [bs Hbs]; [lia|].
    eexists. cbn. by rewrite Hbs.
  - intros d [|d'] x bs rest Hx Hp Hd; [lia|]. cbn [c_pack] in Hp. apply bind_Ok in Hp as (w & Hpw & Hp).
    destruct d as [|d]; [done|]. cbn [charge] in Hp. apply bind_Ok in Hp as (bs' & Hbs & [= <-]).
    rewrite <- app_assoc. unfold c_unpack at 1.
    rewrite (M_bind_run _ _ _ _ _ (unpack_packed (c := c_unsigned_int) (n := 0) (S d) (S d') _ w (bs' ++ rest) (Hw x) Hpw ltac:(lia))).
    rewrite (proj2 (Z.ltb_lt _ _)) by (pose proof (which_count x); lia). rewrite Nat2Z.id.
    apply (alternative_packed d d'); [done|done|lia].
  - intros d s x rest (w & s1 & [b ->]%unpack_size_reads & Hrun)%M_bind_Ok.
    apply M_bind_Ok in Hrun as (? & ? & [_ ->]%assert_st_Ok & Hrun).
    destruct d as [|d]; [done|]. apply alternative_reads in Hrun as [b' ->].
    exists (b ++ b'). by rewrite <- app_assoc.
Qed.

(** The instances are chosen by the name of the codec; what is accepted, and the depth, follow. *)
#[global] Typeclasses Opaque c_deeper c_as c_raw c_uint c_int64 c_safe c_time_point_sec c_array c_bool c_chars
  c_string c_elements c_vector c_flat_set c_set c_field c_pair c_map c_optional c_static_variant c_no_field c_object.
#[export] Hint Mode Lawful ! ! - - : typeclass_instances.
#[export] Hint Mode LawfulAlternatives ! ! - - : typeclass_instances.
