(* ===== verification/Schedule.v ===== *)
(** * Witnesses and slots: libraries/chain/db_witness_schedule.cpp and db_update.cpp

    Time is divided into slots of a block interval; a slot belongs to a witness of
    the shuffled schedule.  Applying a block updates the dynamic properties, pays
    the witness and advances the last irreversible block.  [head_block_time] is
    the time of the ledger.  Unsigned arithmetic wraps at the width of the code. *)

From S2P Require Import Prelude Safe Uint128 Asset Vesting Balance Fees Block.
From Stdlib Require Import Sorting.

Local Open Scope Z_scope.

Definition GRAPHENE_RECENTLY_MISSED_COUNT_INCREMENT : Z := 4.
Definition GRAPHENE_RECENTLY_MISSED_COUNT_DECREMENT : Z := 3.
Definition GRAPHENE_IRREVERSIBLE_THRESHOLD : Z := 70 * (GRAPHENE_100_PERCENT / 100).
Definition GRAPHENE_MAX_UNDO_HISTORY : Z := 10000.
Definition maintenance_flag : Z := 1.

(** The fields of [dynamic_global_property_object] used here; the entries of
    [miner_witness] of the two vectors. *)
Record dynamic_properties := mk_dgp {
  head_block_number : Z;
  head_block_id : block_id_type;
  current_witness : Z;
  recently_missed_count : Z;
  current_aslot : Z;
  recent_slots_filled : uint128;
  dynamic_flags : Z;
  last_irreversible_block_num : Z;
  miners_budget : Z;
  miners_payed : Z
}.

Record witness_object := mk_witness {
  signing_key : Z;
  total_missed : Z;
  recent_missed : Z;
  last_aslot : Z;
  last_confirmed_block_num : Z
}.

(** The chain parameters and node properties read here; the number of the last
    checkpoint. *)
Record schedule_parameters := mk_schedule_parameters {
  block_interval : Z;
  maintenance_skip_slots : Z;
  witness_pay_per_block : Z;
  skip_undo_history_check : bool;
  last_checkpoint : option Z
}.

Record chain_state := mk_chain {
  ledger_of : ledger;
  dgp : dynamic_properties;
  witness_objects : gmap Z witness_object;
  current_shuffled_witnesses : list Z;
  active_witnesses : list Z;
  schedule_params : schedule_parameters;
  undo_max_size : Z;
  fork_max_size : Z
}.

Definition set_ledger l c := mk_chain l (dgp c) (witness_objects c) (current_shuffled_witnesses c)
  (active_witnesses c) (schedule_params c) (undo_max_size c) (fork_max_size c).
Definition set_dgp d c := mk_chain (ledger_of c) d (witness_objects c) (current_shuffled_witnesses c)
  (active_witnesses c) (schedule_params c) (undo_max_size c) (fork_max_size c).
Definition set_witness_objects w c := mk_chain (ledger_of c) (dgp c) w (current_shuffled_witnesses c)
  (active_witnesses c) (schedule_params c) (undo_max_size c) (fork_max_size c).
Definition set_shuffled w c := mk_chain (ledger_of c) (dgp c) (witness_objects c) w
  (active_witnesses c) (schedule_params c) (undo_max_size c) (fork_max_size c).
Definition set_sizes u f c := mk_chain (ledger_of c) (dgp c) (witness_objects c)
  (current_shuffled_witnesses c) (active_witnesses c) (schedule_params c) u f.

Definition now (c : chain_state) : Z := head_block_time (ledger_of c).

(** ** db_witness_schedule.cpp *)

(** The slot's witness; the list is never empty, an empty one is a division by
    zero. *)
Definition get_scheduled_witness (slot_num : Z) (c : chain_state) : result Z :=
  let aslot := to_uint 64 (current_aslot (dgp c) + slot_num) in
  let l := current_shuffled_witnesses c in
  match l !! Z.to_nat (aslot mod Z.of_nat (length l)) with
  | Some w => Ok w
  | None => Throw other_exception
  end.

Definition get_slot_time (slot_num : Z) (c : chain_state) : Z :=
  if slot_num =? 0 then 0 else
  let interval := block_interval (schedule_params c) in
  if head_block_number (dgp c) =? 0 then to_uint 32 (now c + to_uint 32 (slot_num * interval)) else
  let head_block_abs_slot := now c / interval in
  let head_slot_time := to_uint 32 (head_block_abs_slot * interval) in
  let slot_num :=
    if negb (Z.land (dynamic_flags (dgp c)) maintenance_flag =? 0)
    then to_uint 32 (slot_num + maintenance_skip_slots (schedule_params c)) else slot_num in
  to_uint 32 (head_slot_time + to_uint 32 (slot_num * interval)).

Definition get_slot_at_time (when : Z) (c : chain_state) : Z :=
  let first_slot_time := get_slot_time 1 c in
  if when <? first_slot_time then 0
  else to_uint 32 ((when - first_slot_time) / block_interval (schedule_params c) + 1).

Definition witness_participation_rate (c : chain_state) : Z :=
  GRAPHENE_100_PERCENT * popcount (recent_slots_filled (dgp c)) / 128.

(** The generator of the shuffle, in 64 bits. *)
Definition multiplier : Z := 2685821657736338717.
Definition shuffle_random (now_hi i : Z) : Z :=
  let k := to_uint 64 (now_hi + to_uint 64 (i * multiplier)) in
  let k := Z.lxor k (Z.shiftr k 12) in
  let k := Z.lxor k (to_uint 64 (Z.shiftl k 25)) in
  let k := Z.lxor k (Z.shiftr k 27) in
  to_uint 64 (k * multiplier).

(** [std::swap( l[i], l[j] )]. *)
Definition swap_at (i j : nat) (l : list Z) : list Z :=
  match l !! i, l !! j with Some x, Some y => <[j := x]> (<[i := y]> l) | _, _ => l end.

Definition shuffle_step (now_hi : Z) (l : list Z) (i : nat) : list Z :=
  let jmax := Z.of_nat (length l) - Z.of_nat i in
  let j := Z.of_nat i + shuffle_random now_hi (Z.of_nat i) mod jmax in
  swap_at i (Z.to_nat j) l.

Definition shuffle (time : Z) (l : list Z) : list Z :=
  foldl (shuffle_step (to_uint 64 (Z.shiftl time 32))) l (seq 0 (length l)).

Definition update_witness_schedule (c : chain_state) : chain_state :=
  if head_block_number (dgp c) mod Z.of_nat (length (active_witnesses c)) =? 0
  then set_shuffled (shuffle (now c) (active_witnesses c)) c else c.

(** ** db_update.cpp *)

Section Update.
Context {T D Sg : Type}.
Abbreviation block := (@signed_block T D Sg).

(** The loop over the missed slots, from slot [i + 1]. *)
Fixpoint charge_missed (n : nat) (i : Z) (producer : Z) : M chain_state () :=
  match n with
  | O => mret ()
  | S n =>
      c ← get_st;
      w ← lift (get_scheduled_witness (to_uint 32 (i + 1)) c);
      o ← lift (match witness_objects c !! w with Some o => Ok o | None => Throw other_exception end);
      (if w =? producer then mret ()
       else put_st (set_witness_objects
              (<[w := mk_witness (signing_key o) (total_missed o + 1) (recent_missed o + 1)
                        (last_aslot o) (last_confirmed_block_num o)]> (witness_objects c)) c)) ;;
      charge_missed n (i + 1) producer
  end.

(** The next [recently_missed_count]. *)
Definition next_missed_count (c : chain_state) (num missed_blocks : Z) : Z :=
  let old := recently_missed_count (dgp c) in
  if num =? 1 then 0
  else if match last_checkpoint (schedule_params c) with Some n => num <=? n | None => false end then 0
  else if negb (missed_blocks =? 0)
  then to_uint 32 (old + to_uint 32 (GRAPHENE_RECENTLY_MISSED_COUNT_INCREMENT * missed_blocks))
  else if GRAPHENE_RECENTLY_MISSED_COUNT_INCREMENT <? old
  then old - GRAPHENE_RECENTLY_MISSED_COUNT_DECREMENT
  else if 0 <? old then old - 1 else old.

Definition set_time (t : Z) (l : ledger) : ledger :=
  mk_ledger (balances l) (vestings l) (next_vesting_id l) (dynamic_data l) (accounts l) (statistics l)
    (witnesses l) t (initial_time l) (coupon_supply l) (parameters l) (record_history l) (applied_balances l).

(** The lambda that updates the dynamic properties. *)
Definition next_dgp (id : block_id_type) (b : block) (missed_blocks : Z) (c : chain_state)
    : dynamic_properties :=
  let d := dgp c in
  mk_dgp (block_num b) id (witness b) (next_missed_count c (block_num b) missed_blocks)
    (to_uint 64 (current_aslot d + to_uint 32 (missed_blocks + 1)))
    (shl128 (add128 (shl128 (recent_slots_filled d) (of_uint64 1)) (of_uint64 1)) (of_uint64 missed_blocks))
    (dynamic_flags d) (last_irreversible_block_num d) (miners_budget d) (miners_payed d).

Definition update_global_dynamic_data (id : block_id_type) (b : block) : M chain_state () :=
  c ← get_st;
  let missed_blocks := to_uint 32 (get_slot_at_time (timestamp b) c - 1) in
  charge_missed (Z.to_nat missed_blocks) 0 (witness b) ;;
  modify_st (λ c, set_ledger (set_time (timestamp b) (ledger_of c)) (set_dgp (next_dgp id b missed_blocks c) c)) ;;
  c ← get_st;
  let history := to_uint 64 (head_block_number (dgp c) - last_irreversible_block_num (dgp c)) in
  lift (if skip_undo_history_check (schedule_params c) then Ok ()
        else GRAPHENE_ASSERT (history <? GRAPHENE_MAX_UNDO_HISTORY) undo_database_exception) ;;
  put_st (set_sizes (to_uint 64 (history + 1)) (to_uint 64 (history + 1)) c).

Definition set_miners (b p : Z) (d : dynamic_properties) : dynamic_properties :=
  mk_dgp (head_block_number d) (head_block_id d) (current_witness d) (recently_missed_count d)
    (current_aslot d) (recent_slots_filled d) (dynamic_flags d) (last_irreversible_block_num d) b p.
Definition set_irreversible (n : Z) (d : dynamic_properties) : dynamic_properties :=
  mk_dgp (head_block_number d) (head_block_id d) (current_witness d) (recently_missed_count d)
    (current_aslot d) (recent_slots_filled d) (dynamic_flags d) n (miners_budget d) (miners_payed d).
Definition set_flags (f : Z) (d : dynamic_properties) : dynamic_properties :=
  mk_dgp (head_block_number d) (head_block_id d) (current_witness d) (recently_missed_count d)
    (current_aslot d) (recent_slots_filled d) f (last_irreversible_block_num d) (miners_budget d) (miners_payed d).

(** A computation on the ledger, in the chain. *)
Definition on_ledger {A} (m : M ledger A) : M chain_state A := λ c,
  match m (ledger_of c) with Ok (a, l) => Ok (a, set_ledger l c) | Throw e => Throw e end.

Definition update_signing_witness `{Division128} (signing_witness : Z) (b : block) : M chain_state () :=
  c ← get_st;
  let new_block_aslot := to_uint 64 (current_aslot (dgp c) + get_slot_at_time (timestamp b) c) in
  let witness_pay := Z.min (witness_pay_per_block (schedule_params c)) (miners_budget (dgp c)) in
  budget ← lift (safe_sub (miners_budget (dgp c)) witness_pay);
  payed ← lift (safe_add (miners_payed (dgp c)) witness_pay);
  modify_st (λ c, set_dgp (set_miners budget payed (dgp c)) c) ;;
  on_ledger (deposit_witness_pay signing_witness witness_pay) ;;
  c ← get_st;
  o ← lift (match witness_objects c !! signing_witness with Some o => Ok o | None => Throw other_exception end);
  put_st (set_witness_objects (<[signing_witness :=
    mk_witness (signing_key o) (total_missed o) (recent_missed o) new_block_aslot (to_uint 32 (block_num b))]>
    (witness_objects c)) c).
End Update.

(** The numbers the witnesses confirmed, in the order of the witnesses. *)
Fixpoint confirmed_nums (ws : list Z) (objs : gmap Z witness_object) : result (list Z) :=
  match ws with
  | [] => Ok []
  | w :: ws =>
      o ← (match objs !! w with Some o => Ok o | None => Throw other_exception end);
      l ← confirmed_nums ws objs;
      mret (last_confirmed_block_num o :: l)
  end.

(** Sorting; [std::nth_element] leaves at its position what sorting would. *)
Fixpoint insert_sorted (x : Z) (l : list Z) : list Z :=
  match l with [] => [x] | y :: l' => if x <=? y then x :: l else y :: insert_sorted x l' end.
Definition sort (l : list Z) : list Z := foldr insert_sorted [] l.
Definition nth_element (offset : nat) (l : list Z) : option Z := sort l !! offset.

Definition irreversible_offset (n : Z) : Z :=
  (GRAPHENE_100_PERCENT - GRAPHENE_IRREVERSIBLE_THRESHOLD) * n / GRAPHENE_100_PERCENT.

Definition update_last_irreversible_block : M chain_state () :=
  c ← get_st;
  nums ← lift (confirmed_nums (active_witnesses c) (witness_objects c));
  n ← lift (match nth_element (Z.to_nat (irreversible_offset (Z.of_nat (length nums)))) nums with
            | Some n => Ok n | None => Throw other_exception end);
  if last_irreversible_block_num (dgp c) <? n
  then put_st (set_dgp (set_irreversible n (dgp c)) c) else mret ().

Definition update_maintenance_flag (new_maintenance_flag : bool) (c : chain_state) : chain_state :=
  set_dgp (set_flags (Z.lor (Z.ldiff (dynamic_flags (dgp c)) maintenance_flag)
                            (if new_maintenance_flag then maintenance_flag else 0)) (dgp c)) c.

(** The index of transactions by expiration, in its order. *)
Fixpoint clear_expired_transactions {A} (expiration : A → Z) (head_time : Z) (dedupe_index : list A)
    : list A :=
  match dedupe_index with
  | [] => []
  | t :: rest =>
      if expiration t <? head_time then clear_expired_transactions expiration head_time rest else t :: rest
  end.

(** The index of withdraw permissions: identifiers and expirations.  The expired
    ones are collected, then removed one by one. *)
Definition remove_permission (i : Z) (idx : list (Z * Z)) : list (Z * Z) := filter (λ p, p.1 ≠ i) idx.
Definition update_withdraw_permissions (head_time : Z) (permit_index : list (Z * Z)) : list (Z * Z) :=
  let re := (filter (λ p, p.2 ≤ head_time) permit_index).*1 in
  foldl (λ idx i, remove_permission i idx) permit_index re.

(** ** Slots *)

Definition slots_ok (c : chain_state) : Prop :=
  1 ≤ block_interval (schedule_params c) ≤ 255 ∧ 0 ≤ maintenance_skip_slots (schedule_params c) ≤ 255 ∧
  uint 32 (now c).

(** Slot [n] is at [slot_base + n * interval]. *)
Definition skipped (c : chain_state) : Z :=
  if negb (Z.land (dynamic_flags (dgp c)) maintenance_flag =? 0)
  then maintenance_skip_slots (schedule_params c) else 0.
Definition slot_base (c : chain_state) : Z :=
  let interval := block_interval (schedule_params c) in
  if head_block_number (dgp c) =? 0 then now c else (now c / interval + skipped c) * interval.

Lemma slot_time_linear c n :
  slots_ok c → 1 ≤ n → slot_base c + n * block_interval (schedule_params c) < 2 ^ 32 →
  get_slot_time n c = slot_base c + n * block_interval (schedule_params c).
Proof.
  intros (Hi & Hs & Ht) Hn. unfold get_slot_time, slot_base, skipped, uint in *.
  destruct (Z.eqb_spec n 0); [lia|]. set (i := block_interval (schedule_params c)) in *.
  pose proof (Z.div_pos (now c) i ltac:(lia) ltac:(lia)).
  pose proof (Z.mul_div_le (now c) i ltac:(lia)).
  destruct (head_block_number (dgp c) =? 0).
  - intros Hlt. rewrite (to_uint_id 32 (n * i)), to_uint_id by (unfold uint; nia). done.
  - set (m := maintenance_skip_slots (schedule_params c)) in *. set (q := now c / i) in *.
    destruct (negb _); intros Hlt.
    + assert (n + m ≤ (n + m) * i) by nia. assert (0 ≤ q * i) by nia.
      rewrite (to_uint_id 32 (n + m)) by (unfold uint; nia).
      rewrite (to_uint_id 32 ((n + m) * i)), (to_uint_id 32 (q * i)) by (unfold uint; nia).
      rewrite to_uint_id by (unfold uint; nia). lia.
    + rewrite (to_uint_id 32 (n * i)), (to_uint_id 32 (q * i)) by (unfold uint; nia).
      rewrite to_uint_id by (unfold uint; nia). lia.
Qed.

(** Slots and times correspond: every slot from one on is found again from its
    time, a time belongs to the last slot that starts at or before it, within one
    interval, times before the first slot have slot zero, and the first slot is
    after the head block, as long as no time exceeds 32 bits. *)
Theorem slot_times_inverse c :
  slots_ok c → slot_base c + block_interval (schedule_params c) < 2 ^ 32 →
  now c < get_slot_time 1 c ∧
  (∀ n, 1 ≤ n → slot_base c + n * block_interval (schedule_params c) < 2 ^ 32 →
     get_slot_at_time (get_slot_time n c) c = n) ∧
  (∀ when, uint 32 when → let k := get_slot_at_time when c in
     if when <? get_slot_time 1 c then k = 0
     else 1 ≤ k ∧ get_slot_time k c ≤ when < get_slot_time k c + block_interval (schedule_params c)).
Proof.
  intros Hok Hfirst. pose proof Hok as (Hi & Hs & Ht). set (i := block_interval (schedule_params c)) in *.
  assert (get_slot_time 1 c = slot_base c + i) as H1 by (rewrite slot_time_linear by (done || lia); lia).
  unfold uint in Ht. split; [|split].
  - rewrite H1. unfold slot_base, skipped. fold i.
    pose proof (Z.mul_succ_div_gt (now c) i ltac:(lia)).
    destruct (_ =? 0); [lia|]. destruct (negb _); nia.
  - intros n Hn Hlt. unfold get_slot_at_time. fold i. rewrite slot_time_linear, H1 by done. fold i.
    destruct (Z.ltb_spec (slot_base c + n * i) (slot_base c + i)); [nia|].
    replace (slot_base c + n * i - (slot_base c + i)) with ((n - 1) * i) by lia.
    rewrite Z.div_mul by lia. rewrite to_uint_id; [lia|]. unfold uint.
    assert (0 ≤ slot_base c); [|nia]. unfold slot_base, skipped. fold i.
    pose proof (Z.div_pos (now c) i ltac:(lia) ltac:(lia)). destruct (_ =? 0); [lia|]. destruct (negb _); nia.
  - intros when Hw. unfold uint in Hw. unfold get_slot_at_time. fold i. rewrite H1.
    destruct (Z.ltb_spec when (slot_base c + i)) as [Hlt|Hge]; [done|].
    assert (0 ≤ slot_base c) as Hb.
    { unfold slot_base, skipped. fold i. pose proof (Z.div_pos (now c) i ltac:(lia) ltac:(lia)).
      destruct (_ =? 0); [lia|]. destruct (negb _); nia. }
    set (q := (when - (slot_base c + i)) / i).
    pose proof (Z.mul_div_le (when - (slot_base c + i)) i ltac:(lia)) as Hle. fold q in Hle.
    pose proof (Z.mul_succ_div_gt (when - (slot_base c + i)) i ltac:(lia)) as Hgt. fold q in Hgt.
    assert (0 ≤ q) by (apply Z.div_pos; lia). rewrite to_uint_id by (unfold uint; nia).
    rewrite slot_time_linear by (done || fold i; nia). fold i. nia.
Qed.

(** ** The schedule *)

Lemma swap_at_perm i j l : swap_at i j l ≡ₚ l.
Proof.
  unfold swap_at. destruct (l !! i) as [x|] eqn:Hi; [|done]. destruct (l !! j) as [y|] eqn:Hj; [|done].
  pose proof (lookup_lt_Some _ _ _ Hi). pose proof (lookup_lt_Some _ _ _ Hj).
  symmetry. apply Permutation_inj. rewrite !length_insert. split; [done|].
  exists (λ k, if decide (k = i) then j else if decide (k = j) then i else k). split.
  - intros a b. repeat case_decide; congruence.
  - intros k. case_decide as Hk.
    + subst k. by rewrite list_lookup_insert_eq by (rewrite length_insert; done).
    + case_decide as Hk'.
      * subst k. rewrite list_lookup_insert_ne by congruence. by rewrite list_lookup_insert_eq by done.
      * by rewrite !list_lookup_insert_ne by congruence.
Qed.

Lemma shuffle_perm time l : shuffle time l ≡ₚ l.
Proof.
  unfold shuffle. generalize (seq 0 (length l)). intros js. generalize (to_uint 64 (Z.shiftl time 32)). intros h.
  revert l. induction js as [|i js IH]; intros l; [done|]. cbn [foldl]. rewrite IH. apply swap_at_perm.
Qed.

(** The witnesses of [n] consecutive slots from [s]. *)
Fixpoint scheduled (n : nat) (s : Z) (c : chain_state) : result (list Z) :=
  match n with
  | O => Ok []
  | S n => w ← get_scheduled_witness s c; l ← scheduled n (s + 1) c; mret (w :: l)
  end.

(** [n] elements of the cycle of [l], from position [a]. *)
Definition cycle (n : nat) (a : Z) (l : list Z) : list Z :=
  (λ k : nat, l !!! Z.to_nat ((a + Z.of_nat k) mod Z.of_nat (length l))) <$> seq 0 n.

Lemma scheduled_cycle c n s :
  current_shuffled_witnesses c ≠ [] → 0 ≤ current_aslot (dgp c) → 0 ≤ s →
  current_aslot (dgp c) + s + Z.of_nat n < 2 ^ 64 →
  scheduled n s c = Ok (cycle n (current_aslot (dgp c) + s) (current_shuffled_witnesses c)).
Proof.
  intros Hl Ha. set (l := current_shuffled_witnesses c) in *. set (a := current_aslot (dgp c)) in *.
  revert s. induction n as [|n IH]; intros s Hs Hlt; [done|]. cbn [scheduled].
  unfold get_scheduled_witness. fold l a. rewrite to_uint_id by (unfold uint; lia).
  assert (0 < Z.of_nat (length l)) as Hlen by (destruct l; [done|cbn; lia]).
  pose proof (Z.mod_pos_bound (a + s) (Z.of_nat (length l)) Hlen).
  destruct (lookup_lt_is_Some_2 l (Z.to_nat ((a + s) mod Z.of_nat (length l)))) as [w Hw]; [lia|].
  rewrite Hw. cbn [mbind result_bind]. rewrite IH by lia. cbn [mbind result_bind mret result_ret].
  f_equal. unfold cycle. cbn [seq fmap list_fmap]. f_equal.
  - rewrite Z.add_0_r. symmetry. by apply list_lookup_total_correct.
  - rewrite <- fmap_S_seq, <- list_fmap_compose. apply list_fmap_ext. intros k x _. cbn. do 3 f_equal. lia.
Qed.

Lemma cycle_perm a l : 0 ≤ a → cycle (length l) a l ≡ₚ l.
Proof.
  intros Ha. destruct (decide (l = [])) as [->|Hne]; [done|].
  assert (0 < length l)%nat as Hlen by (destruct l; [done|cbn; lia]).
  set (n := length l) in *. apply Permutation_inj.
  assert (length (cycle n a l) = n) as Hcl by (unfold cycle; by rewrite length_fmap, length_seq).
  split; [done|].
  exists (λ k, if decide (k < n)%nat then Z.to_nat ((a + Z.of_nat k) mod Z.of_nat n) else k). split.
  - intros x y. pose proof (Z.mod_pos_bound (a + Z.of_nat x) (Z.of_nat n) ltac:(lia)).
    pose proof (Z.mod_pos_bound (a + Z.of_nat y) (Z.of_nat n) ltac:(lia)).
    repeat case_decide; intros Heq; try lia.
    assert ((a + Z.of_nat x) mod Z.of_nat n = (a + Z.of_nat y) mod Z.of_nat n) as Hm by lia.
    pose proof (Z.div_mod (a + Z.of_nat x) (Z.of_nat n) ltac:(lia)).
    pose proof (Z.div_mod (a + Z.of_nat y) (Z.of_nat n) ltac:(lia)).
    assert (Z.of_nat n * ((a + Z.of_nat x) / Z.of_nat n - (a + Z.of_nat y) / Z.of_nat n)
            = Z.of_nat x - Z.of_nat y) as Hd by lia.
    generalize dependent ((a + Z.of_nat x) / Z.of_nat n - (a + Z.of_nat y) / Z.of_nat n). intros d Hd.
    assert (d = 0) by nia. subst d. lia.
  - intros k. case_decide as Hk.
    + unfold cycle. rewrite list_lookup_fmap, lookup_seq_lt by done. cbn.
      symmetry. apply list_lookup_lookup_total_lt.
      pose proof (Z.mod_pos_bound (a + Z.of_nat k) (Z.of_nat n) ltac:(lia)). fold n. lia.
    + rewrite !lookup_ge_None_2; [done| |]; lia.
Qed.

(** Scheduling is fair: the shuffled schedule is a permutation of the active
    witnesses, made when the block number is a multiple of their number and kept
    otherwise; and any run of as many consecutive slots as there are witnesses
    gives every witness of the schedule exactly its share. *)
Theorem schedule_fair c s :
  active_witnesses c ≠ [] → current_shuffled_witnesses c ≡ₚ active_witnesses c →
  0 ≤ current_aslot (dgp c) → 0 ≤ s →
  current_aslot (dgp c) + s + Z.of_nat (length (active_witnesses c)) < 2 ^ 64 →
  let c' := update_witness_schedule c in
  current_shuffled_witnesses c' ≡ₚ active_witnesses c ∧
  (head_block_number (dgp c) mod Z.of_nat (length (active_witnesses c)) ≠ 0 → c' = c) ∧
  ∃ l, scheduled (length (active_witnesses c)) s c' = Ok l ∧ l ≡ₚ active_witnesses c.
Proof.
  intros Hne Hperm Ha Hs Hlt c'.
  assert (current_shuffled_witnesses c' ≡ₚ active_witnesses c ∧ dgp c' = dgp c) as [Hp Hd].
  { unfold c', update_witness_schedule. destruct (_ =? 0); [|done]. split; [|done]. apply shuffle_perm. }
  split; [done|]. split.
  { intros Hm. unfold c', update_witness_schedule. by destruct (Z.eqb_spec (head_block_number (dgp c) mod Z.of_nat (length (active_witnesses c))) 0). }
  assert (current_shuffled_witnesses c' ≠ []) as Hne'.
  { intros Hnil. rewrite Hnil in Hp. by apply Permutation_nil_l in Hp. }
  eexists. split.
  - apply scheduled_cycle; rewrite ?Hd; done.
  - rewrite <- (Permutation_length Hp), cycle_perm by (rewrite Hd; lia). done.
Qed.

(** ** The last irreversible block *)

Lemma insert_sorted_perm x l : insert_sorted x l ≡ₚ x :: l.
Proof.
  induction l as [|y l IH]; cbn [insert_sorted]; [done|]. destruct (x <=? y); [done|].
  rewrite IH. apply Permutation_swap.
Qed.

Lemma sort_perm l : sort l ≡ₚ l.
Proof. induction l as [|x l IH]; [done|]. cbn. rewrite insert_sorted_perm. by f_equiv. Qed.

Lemma insert_sorted_sorted x l : StronglySorted Z.le l → StronglySorted Z.le (insert_sorted x l).
Proof.
  induction 1 as [|y l Hl IH Hy]; cbn [insert_sorted]; [by repeat constructor|].
  destruct (Z.leb_spec x y).
  - constructor; [by constructor|]. constructor; [done|]. eapply Forall_impl; [exact Hy|]. intros z Hz. lia.
  - constructor; [done|]. rewrite insert_sorted_perm. constructor; [lia|done].
Qed.

Lemma sort_sorted l : StronglySorted Z.le (sort l).
Proof. induction l as [|x l IH]; [constructor|]. by apply insert_sorted_sorted. Qed.

(** How many of [l] are at least, resp. at most, [n]. *)
Definition count_ge (n : Z) (l : list Z) : nat := length (filter (λ x, n ≤ x) l).
Definition count_le (n : Z) (l : list Z) : nat := length (filter (λ x, x ≤ n) l).

Lemma filter_all {A} (P : A → Prop) `{∀ x, Decision (P x)} l : Forall P l → filter P l = l.
Proof. induction 1 as [|x l Hx Hl IH]; [done|]. rewrite filter_cons_True by done. by rewrite IH. Qed.

(** [nth_element]: at most [k] elements are smaller, enough are not. *)
Lemma nth_element_counts k l n :
  nth_element k l = Some n → (length l - k ≤ count_ge n l)%nat ∧ (S k ≤ count_le n l)%nat.
Proof.
  unfold nth_element. intros Hn. pose proof (sort_sorted l) as Hs. pose proof (sort_perm l) as Hp.
  unfold count_ge, count_le. rewrite <- (Permutation_length Hp).
  assert (length (filter (λ x, n ≤ x) l) = length (filter (λ x, n ≤ x) (sort l))) as ->
    by (by rewrite Hp).
  assert (length (filter (λ x, x ≤ n) l) = length (filter (λ x, x ≤ n) (sort l))) as ->
    by (by rewrite Hp).
  clear Hp. revert k Hn. induction Hs as [|y s Hss IH Hy]; intros k Hk; [done|].
  destruct k as [|k].
  - injection Hk as ->. split.
    + rewrite filter_all; [cbn; lia|]. constructor; [lia|done].
    + rewrite filter_cons_True by lia. cbn. lia.
  - cbn in Hk. destruct (IH k Hk) as [H1 H2].
    assert (y ≤ n) by (rewrite Forall_lookup in Hy; by eapply Hy). split.
    + rewrite filter_cons. case_decide; cbn [length]; lia.
    + rewrite (filter_cons_True (λ x, x ≤ n)) by done. cbn [length]. lia.
Qed.

Lemma confirmed_nums_length ws objs l : confirmed_nums ws objs = Ok l → length l = length ws.
Proof.
  revert l. induction ws as [|w ws IH]; intros l Hl; cbn [confirmed_nums] in Hl; [by inv_ok|].
  inv_ok. cbn. f_equal. by apply IH.
Qed.

Lemma confirmed_nums_total ws objs :
  Forall (λ w, is_Some (objs !! w)) ws → ∃ l, confirmed_nums ws objs = Ok l.
Proof.
  induction 1 as [|w ws [o Ho] _ [l IH]]; [by exists []|]. cbn [confirmed_nums]. rewrite Ho, IH. by eexists.
Qed.

(** C31: the last irreversible block: with every active witness known, the update
    succeeds and sets it to the greater of its old value and a number that at
    least 70 percent of the active witnesses have confirmed a block at or above;
    no higher number can be chosen, because more than 30 percent have confirmed
    nothing above this one.  The number never decreases. *)
Theorem irreversible_confirmed c :
  active_witnesses c ≠ [] → Forall (λ w, is_Some (witness_objects c !! w)) (active_witnesses c) →
  ∃ nums n, confirmed_nums (active_witnesses c) (witness_objects c) = Ok nums ∧
    update_last_irreversible_block c =
      Ok ((), set_dgp (set_irreversible (Z.max (last_irreversible_block_num (dgp c)) n) (dgp c)) c) ∧
    GRAPHENE_IRREVERSIBLE_THRESHOLD * Z.of_nat (length nums) ≤
      GRAPHENE_100_PERCENT * Z.of_nat (count_ge n nums) ∧
    (GRAPHENE_100_PERCENT - GRAPHENE_IRREVERSIBLE_THRESHOLD) * Z.of_nat (length nums) <
      GRAPHENE_100_PERCENT * Z.of_nat (count_le n nums).
Proof.
  intros Hne Hall. destruct (confirmed_nums_total _ _ Hall) as [nums Hnums].
  pose proof (confirmed_nums_length _ _ _ Hnums) as Hlen.
  assert (0 < length nums)%nat as Hpos by (rewrite Hlen; destruct (active_witnesses c); [done|cbn; lia]).
  set (N := Z.of_nat (length nums)). assert (0 < N) by (unfold N; lia).
  set (k := irreversible_offset N).
  assert (0 ≤ k ∧ 10000 * k ≤ 3000 * N < 10000 * (k + 1)) as [Hk0 Hk].
  { unfold k, irreversible_offset. change (GRAPHENE_100_PERCENT - GRAPHENE_IRREVERSIBLE_THRESHOLD) with 3000.
    change GRAPHENE_100_PERCENT with 10000. split; [apply Z.div_pos; lia|].
    pose proof (Z.mul_div_le (3000 * N) 10000 ltac:(lia)).
    pose proof (Z.mul_succ_div_gt (3000 * N) 10000 ltac:(lia)). lia. }
  destruct (lookup_lt_is_Some_2 (sort nums) (Z.to_nat k)) as [n Hn].
  { rewrite (Permutation_length (sort_perm nums)). lia. }
  destruct (nth_element_counts (Z.to_nat k) nums n Hn) as [Hge Hle].
  exists nums, n. split; [done|]. split; [|].
  - unfold update_last_irreversible_block. run_e. rewrite Hnums. fold N k.
    unfold nth_element. rewrite Hn. destruct (Z.ltb_spec (last_irreversible_block_num (dgp c)) n).
    + by rewrite Z.max_r by lia.
    + rewrite Z.max_l by lia. destruct c as [? [] ? ? ? ? ? ?]. done.
  - change (GRAPHENE_100_PERCENT - GRAPHENE_IRREVERSIBLE_THRESHOLD) with 3000.
    change GRAPHENE_100_PERCENT with 10000. change GRAPHENE_IRREVERSIBLE_THRESHOLD with 7000. lia.
Qed.

(** ** Applying a block to the dynamic properties *)

Section Accounting.
Context {T D Sg : Type}.
Abbreviation block := (@signed_block T D Sg).

(** The blocks missed so far, and those charged for [n] slots from [i + 1]. *)
Definition missed_total (c : chain_state) : Z := msum (λ _ o, total_missed o) (witness_objects c).

Fixpoint charged (n : nat) (i producer : Z) (c : chain_state) : Z :=
  match n with
  | O => 0
  | S n =>
      (match get_scheduled_witness (to_uint 32 (i + 1)) c with
       | Ok w => if w =? producer then 0 else 1 | Throw _ => 0 end) + charged n (i + 1) producer c
  end.

Lemma charged_same n i p c c' :
  current_shuffled_witnesses c' = current_shuffled_witnesses c → dgp c' = dgp c →
  charged n i p c' = charged n i p c.
Proof.
  intros Hs Hd. revert i. induction n as [|n IH]; intros i; [done|]. cbn [charged].
  rewrite IH. unfold get_scheduled_witness. by rewrite Hs, Hd.
Qed.

Lemma charge_missed_run n i p c u c' :
  charge_missed n i p c = Ok (u, c') →
  (∃ w, c' = set_witness_objects w c) ∧ missed_total c' = missed_total c + charged n i p c ∧
  dom (witness_objects c') = dom (witness_objects c).
Proof.
  revert i c. induction n as [|n IH]; intros i c Hrun; cbn [charge_missed] in Hrun.
  - injection Hrun as <- <-. split; [exists (witness_objects c); by destruct c|]. cbn. split; [lia|done].
  - apply M_bind_Ok in Hrun as (? & ? & [= <- <-] & Hrun).
    apply M_bind_Ok in Hrun as (w & ? & Hw & Hrun). apply lift_Ok in Hw as [Hw ->].
    apply M_bind_Ok in Hrun as (o & ? & Ho & Hrun). apply lift_Ok in Ho as [Ho ->].
    destruct (witness_objects c !! w) as [o'|] eqn:Hlk; [injection Ho as ->|done].
    apply M_bind_Ok in Hrun as (? & c1 & Hc1 & Hrun). apply IH in Hrun as ((ws & ->) & Hm & Hdom).
    cbn [charged]. rewrite Hw. destruct (w =? p).
    + injection Hc1 as <- <-. split; [by exists ws|]. split; [lia|done].
    + injection Hc1 as <- <-. split; [by exists ws|].
      rewrite (charged_same n _ _ c) in Hm by done. split.
      * rewrite Hm. unfold missed_total. cbn [witness_objects set_witness_objects].
        rewrite (msum_insert _ _ _ o) by done. cbn [total_missed]. lia.
      * etransitivity; [exact Hdom|]. cbn [witness_objects set_witness_objects].
        rewrite dom_insert_L. assert (w ∈ dom (witness_objects c)) by (by apply elem_of_dom_2 in Hlk). set_solver.
Qed.

(** Applying a block at slot [k] accounts for every slot since the head block:
    the absolute slot advances by [k], each skipped slot whose witness did not
    produce this block is charged to exactly one witness, the participation bits
    get one set bit followed by a clear bit for every skipped slot, the head moves
    to the block, and the undo and fork histories are sized to reach back to the
    last irreversible block. *)
Theorem block_accounting id (b : block) c u c' :
  let k := get_slot_at_time (timestamp b) c in
  1 ≤ k < 128 → 0 ≤ current_aslot (dgp c) → current_aslot (dgp c) + k < 2 ^ 64 →
  wf128 (recent_slots_filled (dgp c)) → 0 ≤ last_irreversible_block_num (dgp c) ≤ block_num b →
  block_num b < 2 ^ 63 →
  update_global_dynamic_data id b c = Ok (u, c') →
  current_aslot (dgp c') = current_aslot (dgp c) + k ∧
  missed_total c' = missed_total c + charged (Z.to_nat (k - 1)) 0 (witness b) c ∧
  val (recent_slots_filled (dgp c')) = ((2 * val (recent_slots_filled (dgp c)) + 1) * 2 ^ (k - 1)) mod 2 ^ 128 ∧
  (head_block_number (dgp c'), head_block_id (dgp c'), now c') = (block_num b, id, timestamp b) ∧
  undo_max_size c' = block_num b - last_irreversible_block_num (dgp c) + 1 ∧
  fork_max_size c' = undo_max_size c'.
Proof.
  intros k Hk Ha Hlt Hwf Hlib Hnum Hrun. unfold update_global_dynamic_data in Hrun.
  apply M_bind_Ok in Hrun as (? & ? & [= <- <-] & Hrun). fold k in Hrun.
  rewrite to_uint_id in Hrun by (unfold uint; lia).
  apply M_bind_Ok in Hrun as (? & c1 & Hc1 & Hrun). apply charge_missed_run in Hc1 as ((ws & ->) & Hm & _).
  apply M_bind_Ok in Hrun as (? & c2 & [= <- <-] & Hrun).
  apply M_bind_Ok in Hrun as (? & ? & [= <- <-] & Hrun).
  apply M_bind_Ok in Hrun as (? & ? & Hg & Hrun). apply lift_Ok in Hg as [_ ->].
  injection Hrun as <- <-. cbn [dgp set_sizes set_ledger set_dgp set_witness_objects].
  unfold next_dgp. cbn [current_aslot head_block_number head_block_id recent_slots_filled
    last_irreversible_block_num dgp set_witness_objects].
  split; [|split; [exact Hm|split; [|split; [reflexivity|]]]].
  - rewrite (to_uint_id 32) by (unfold uint; lia). rewrite to_uint_id by (unfold uint; lia). lia.
  - destruct (shl128_spec (recent_slots_filled (dgp c)) 1 Hwf ltac:(lia)) as [Hs1 Hv1].
    destruct (add128_spec _ (of_uint64 1) Hs1 ltac:(apply wf_of_uint64; unfold uint; lia)) as [Hs2 Hv2].
    destruct (shl128_spec _ (k - 1) Hs2 ltac:(lia)) as [_ ->]. rewrite Hv2, Hv1, val_of_uint64.
    rewrite Z.add_mod_idemp_l by lia. rewrite Z.mul_mod_idemp_l by lia. f_equal. lia.
  - cbn [undo_max_size fork_max_size set_sizes]. split; [|done].
    rewrite (to_uint_id 64 (block_num b - _)) by (unfold uint; lia).
    rewrite to_uint_id by (unfold uint; lia). done.
Qed.
End Accounting.

(** ** Expired objects *)

Lemma filter_ext_in {A} (P Q : A → Prop) `{∀ x, Decision (P x)} `{∀ x, Decision (Q x)} l :
  Forall (λ x, P x ↔ Q x) l → filter P l = filter Q l.
Proof.
  induction 1 as [|x l Hx Hl IH]; [done|]. rewrite !filter_cons, IH. repeat case_decide; tauto.
Qed.

Lemma remove_permissions_spec l idx :
  foldl (λ idx i, remove_permission i idx) idx l = filter (λ p, p.1 ∉ l) idx.
Proof.
  revert idx. induction l as [|i l IH]; intros idx; cbn [foldl].
  - symmetry. apply filter_all. apply Forall_true. set_solver.
  - rewrite IH. unfold remove_permission. rewrite list_filter_filter. apply list_filter_iff. set_solver.
Qed.

(** At the end of a block nothing expired is left: the withdraw permissions
    left are exactly those that expire later, and of the transactions kept for
    deduplication, ordered by expiration, exactly those that expired before the
    head block are dropped. *)
Theorem expired_are_removed (permits : list (Z * Z)) {A} (expiration : A → Z) (txs : list A) head_time :
  NoDup permits.*1 → StronglySorted (λ a b, expiration a ≤ expiration b) txs →
  update_withdraw_permissions head_time permits = filter (λ p, head_time < p.2) permits ∧
  clear_expired_transactions expiration head_time txs = filter (λ t, head_time ≤ expiration t) txs.
Proof.
  intros Hnd Hs. split.
  - unfold update_withdraw_permissions. cbv zeta. rewrite remove_permissions_spec.
    apply filter_ext_in. apply Forall_forall. intros [i e] Hp. cbn [fst snd].
    split.
    + intros Hni. destruct (Z.lt_ge_cases head_time e) as [|Hle]; [done|]. destruct Hni.
      apply (list_elem_of_fmap_2' fst _ (i, e)); [|done]. by apply list_elem_of_filter.
    + intros Hlt ((i' & e') & Hi & Hf)%list_elem_of_fmap. apply list_elem_of_filter in Hf as [Hle Hin].
      cbn in *. subst i'. assert (e' = e) as ->; [|lia].
      apply list_elem_of_lookup in Hp as [n1 Hn1]. apply list_elem_of_lookup in Hin as [n2 Hn2].
      assert (n1 = n2) as ->.
      { eapply (NoDup_lookup permits.*1); [done| |]; rewrite list_lookup_fmap; [by rewrite Hn1|by rewrite Hn2]. }
      congruence.
  - induction Hs as [|t txs Hs IH Ht]; [done|]. cbn [clear_expired_transactions].
    destruct (Z.ltb_spec (expiration t) head_time).
    + rewrite IH, filter_cons_False by lia. done.
    + symmetry. apply filter_all. constructor; [done|]. eapply Forall_impl; [exact Ht|]. cbn. intros x Hx. lia.
Qed.

(** ** Witnesses *)

Definition demo_objects : gmap Z witness_object :=
  <[1 := mk_witness 0 0 0 0 11]> (<[2 := mk_witness 0 0 0 0 12]> {[ 3 := mk_witness 0 0 0 0 10 ]}).
Definition demo_chain : chain_state :=
  mk_chain demo_ledger
    (mk_dgp 12 (mk_block_id [12; 0; 0; 0; 0]) 2 0 40 (mk128 0 5) 1 8 100 0)
    demo_objects [2; 3; 1] [1; 2; 3] (mk_schedule_parameters 3 3 10 false None) 5 5.

Lemma demo_slots_ok : slots_ok demo_chain.
Proof. unfold slots_ok, uint. cbn. lia. Qed.

Lemma slot_times_inverse_witness :
  now demo_chain < get_slot_time 1 demo_chain ∧ get_slot_at_time (get_slot_time 7 demo_chain) demo_chain = 7.
Proof.
  assert (slot_base demo_chain + block_interval (schedule_params demo_chain) < 2 ^ 32) as Hb by (by vm_compute).
  destruct (slot_times_inverse demo_chain demo_slots_ok Hb) as (H1 & H2 & _).
  split; [exact H1|]. apply H2; [lia|by vm_compute].
Defined.

Lemma schedule_fair_witness :
  ∃ l, scheduled 3 1 (update_witness_schedule demo_chain) = Ok l ∧ l ≡ₚ [1; 2; 3].
Proof.
  destruct (schedule_fair demo_chain 1) as (_ & _ & H3).
  - discriminate.
  - cbn. solve_Permutation.
  - cbn. lia.
  - lia.
  - by vm_compute.
  - exact H3.
Defined.

Lemma irreversible_confirmed_witness :
  ∃ c', update_last_irreversible_block demo_chain = Ok ((), c') ∧ last_irreversible_block_num (dgp c') = 10.
Proof.
  destruct (irreversible_confirmed demo_chain) as (nums & n & Hnums & Hup & _).
  - discriminate.
  - repeat constructor; by eexists.
  - eexists. split; [exact Hup|].
    assert (update_last_irreversible_block demo_chain =
      Ok ((), set_dgp (set_irreversible 10 (dgp demo_chain)) demo_chain)) as Hc by (by vm_compute).
    rewrite Hc in Hup. injection Hup as Hn. cbn in *. congruence.
Defined.

Definition demo_next_block : @signed_block () () () :=
  mk_block 0 (mk_block_id [201326592; 0; 0; 0; 0]) 108 1 () () [].

Lemma block_accounting_witness :
  ∃ c', update_global_dynamic_data (mk_block_id [13; 0; 0; 0; 0]) demo_next_block demo_chain = Ok ((), c') ∧
    current_aslot (dgp c') = 43 ∧ missed_total c' = 1.
Proof.
  eexists. split; [by vm_compute|].
  match goal with |- current_aslot (dgp ?c') = _ ∧ _ =>
    destruct (block_accounting (mk_block_id [13; 0; 0; 0; 0]) demo_next_block demo_chain () c')
      as (H1 & H2 & _) end.
  - split; by vm_compute.
  - by vm_compute.
  - by vm_compute.
  - split; split; by vm_compute.
  - split; by vm_compute.
  - by vm_compute.
  - by vm_compute.
  - split; [rewrite H1; by vm_compute|rewrite H2; by vm_compute].
Defined.

Lemma expired_are_removed_witness :
  update_withdraw_permissions 5 [(1, 5); (2, 7)] = filter (λ p, 5 < p.2) [(1, 5); (2, 7)].
Proof.
  apply (expired_are_removed [(1, 5); (2, 7)] (λ t : Z, t) [3; 6] 5).
  - apply (bool_decide_unpack _). exact I.
  - repeat constructor; lia.
Defined.
