(* ===== verification/Chain.v ===== *)
(** * The block chain: libraries/chain/db_block.cpp and db_with.hpp

    Pushing, popping and generating blocks and the queue of pending transactions,
    over the fork database (file ForkDb), the undo history and the block store.

    The contents of the object database are a parameter [S]; by the theorems of
    the file UndoRefinement an undo session is a snapshot of them, so the history
    is the list [saved] of the snapshots of the committed sessions, the newest
    first, and [pending_session] the snapshot of [_pending_tx_session].  What a
    block or a transaction does to the contents is a parameter too; applying a
    block may set the size of the histories ([update_global_dynamic_data] does),
    which is not undone when it throws later.  Exceptions keep the state: they are
    caught in several places (monad [E]). *)

From S2P Require Import Prelude Block ForkDb.
From S2P Require BlockDb.

Local Open Scope Z_scope.

Section Chain.
Context {T D Sg S B : Type} `{Inhabited D}.
Context (sha224 : @signed_block_header D Sg → list Z).
Context `{BlockStore B (signed_block T D Sg)}.
Abbreviation block := (signed_block T D Sg).
Abbreviation block_id := (block_id sha224).

(** The contents: their head, a block and a transaction applied to them. *)
Context (head_block_id : S → block_id_type) (head_block_num : S → Z).
Context (apply_block : block → S → option Z * result S).
Context (_apply_transaction : T → S → result (T * S)).
Context (is_known_transaction : T → S → bool).

Record chain := mk_chain {
  state : S;
  saved : list S;
  undo_max : Z;
  forks : fork_database T D Sg;
  _block_id_to_block : B;
  pending_session : option S;
  _pending_tx : list T;
  _popped_tx : list T
}.

Definition set_state s c := mk_chain s (saved c) (undo_max c) (forks c) (_block_id_to_block c)
  (pending_session c) (_pending_tx c) (_popped_tx c).
Definition set_saved l c := mk_chain (state c) l (undo_max c) (forks c) (_block_id_to_block c)
  (pending_session c) (_pending_tx c) (_popped_tx c).
Definition set_undo_max n c := mk_chain (state c) (saved c) n (forks c) (_block_id_to_block c)
  (pending_session c) (_pending_tx c) (_popped_tx c).
Definition set_forks f c := mk_chain (state c) (saved c) (undo_max c) f (_block_id_to_block c)
  (pending_session c) (_pending_tx c) (_popped_tx c).
Definition set_store b c := mk_chain (state c) (saved c) (undo_max c) (forks c) b
  (pending_session c) (_pending_tx c) (_popped_tx c).
Definition set_pending_session p c := mk_chain (state c) (saved c) (undo_max c) (forks c)
  (_block_id_to_block c) p (_pending_tx c) (_popped_tx c).
Definition set_pending l c := mk_chain (state c) (saved c) (undo_max c) (forks c)
  (_block_id_to_block c) (pending_session c) l (_popped_tx c).
Definition set_popped l c := mk_chain (state c) (saved c) (undo_max c) (forks c)
  (_block_id_to_block c) (pending_session c) (_pending_tx c) l.

Definition head (c : chain) : block_id_type := head_block_id (state c).

(** [_undo_db.start_undo_session()] below [depth] open sessions: the oldest
    snapshots go when the history is full. *)
Definition start_undo_session (depth : Z) (c : chain) : chain :=
  set_saved (take (Z.to_nat (undo_max c - depth)) (saved c)) c.

(** [_pending_tx_session.reset()]. *)
Definition reset_pending_session (c : chain) : chain :=
  match pending_session c with
  | Some s => set_pending_session None (set_state s c)
  | None => c
  end.

Definition clear_pending (c : chain) : chain := reset_pending_session (set_pending [] c).

(** The sizes set while a block was applied. *)
Definition set_history (size : option Z) (c : chain) : chain :=
  match size with
  | Some n => set_undo_max n (set_forks (ForkDb.set_max_size n (forks c)) c)
  | None => c
  end.

(** [{ session = start_undo_session(); apply_block( b ); store( id, b );
    session.commit(); }]: the destructor undoes what an exception interrupts. *)
Definition apply_and_store (id : block_id_type) (b : block) : E chain () := λ c,
  let c := start_undo_session 0 c in
  let '(size, r) := apply_block b (state c) in
  let c := set_history size c in
  match r with
  | Throw e => (c, Throw e)
  | Ok s =>
      match bs_store id b (_block_id_to_block c) with
      | Throw e => (c, Throw e)
      | Ok st => (set_store st (set_state s (set_saved (state c :: saved c) c)), Ok ())
      end
  end.

Definition is_known_block (id : block_id_type) (c : chain) : bool :=
  ForkDb.is_known_block (forks c) id || bs_contains id (_block_id_to_block c).

Definition fetch_block_by_id (id : block_id_type) (c : chain) : option block :=
  match fetch_block (forks c) id with
  | Some p => data <$> heap (forks c) !! p
  | None => bs_fetch id (_block_id_to_block c)
  end.

(** [pop_block]; [held] are the fork items the caller keeps alive. *)
Definition pop_block (held : nat → bool) : E chain () := λ c,
  let c := reset_pending_session c in
  match fetch_block_by_id (head c) c with
  | None => (c, Throw other_exception)
  | Some b =>
      match ForkDb.pop_block held (forks c) with
      | Throw e => (c, Throw e)
      | Ok (_, f) =>
          let c := set_forks f c in
          match saved c with
          | [] => (c, Throw assert_exception)
          | s :: rest => (set_popped (transactions b ++ _popped_tx c) (set_saved rest (set_state s c)), Ok ())
          end
      end
  end.

(** [while( head_block_id() != target ) pop_block();] a pop takes a snapshot, so
    one more than there are is fuel enough. *)
Fixpoint pop_until (held : nat → bool) (fuel : nat) (target : block_id_type) : E chain () := λ c,
  if decide (head c = target) then (c, Ok ()) else
  match fuel with
  | O => (c, Throw other_exception)
  | Datatypes.S fuel => (pop_block held ;; pop_until held fuel target) c
  end.

(** The items of a branch, as blocks. *)
Definition item_data (c : chain) (p : nat) : option block := data <$> heap (forks c) !! p.

(** Restore the good fork: every block is stored under the identifier of the
    block that was pushed. *)
Fixpoint restore_branch (new_id : block_id_type) (bs : list block) : E chain () :=
  match bs with
  | [] => mret ()
  | b :: bs => apply_and_store new_id b ;; restore_branch new_id bs
  end.

(** What happens when a block of the new fork, the first of [rest], fails. *)
Definition switch_back (held : nat → bool) (new_id target : block_id_type) (rest : list block)
    (good_head : nat) (good : list block) (e : exn) : E chain () :=
  modify_e (λ c, set_forks (foldl (λ f b, ForkDb.remove (block_id b) f) (forks c) rest) c) ;;
  modify_e (λ c, set_forks (ForkDb.set_head (Some good_head) (forks c)) c) ;;
  c ← get_e;
  pop_until held (Datatypes.S (length (saved c))) target ;;
  restore_branch new_id good ;;
  throw_e e.

(** Push the blocks of the new fork, the oldest first. *)
Fixpoint push_branch (held : nat → bool) (new_id target : block_id_type) (good_head : nat)
    (good bs : list block) : E chain () :=
  match bs with
  | [] => mret ()
  | b :: rest => λ c,
      match apply_and_store (block_id b) b c with
      | (c, Ok _) => push_branch held new_id target good_head good rest c
      | (c, Throw e) => switch_back held new_id target (b :: rest) good_head good e c
      end
  end.

(** The fork switch of [_push_block], with the branches [fetch_branch_from]
    returned, which list the newest item first. *)
Definition switch_forks (held : nat → bool) (new_id : block_id_type) (first second : list nat)
    : E chain () :=
  c ← get_e;
  let bad := omap (item_data c) (rev first) in
  let good := omap (item_data c) (rev second) in
  match good, second with
  | oldest :: _, good_head :: _ =>
      pop_until held (Datatypes.S (length (saved c))) (previous oldest) ;;
      push_branch held new_id (previous oldest) good_head good bad
  | _, _ => throw_e other_exception
  end.

Definition lift_fork {A} (m : M (fork_database T D Sg) A) : E chain A := λ c,
  match m (forks c) with
  | Ok (a, f) => (set_forks f c, Ok a)
  | Throw e => (c, Throw e)
  end.

(** The end of [_push_block]: the block extends the head. *)
Definition extend_head (b : block) : E chain bool := λ c,
  match apply_and_store (block_id b) b c with
  | (c, Ok _) => (c, Ok false)
  | (c, Throw e) => (set_forks (ForkDb.remove (block_id b) (forks c)) c, Throw e)
  end.

Definition _push_block (skip_fork_db : bool) (held : nat → bool) (new_block : block) : E chain bool :=
  if skip_fork_db then extend_head new_block else
  h ← lift_fork (ForkDb.push_block sha224 new_block);
  c ← get_e;
  match h ≫= (λ p, heap (forks c) !! p) with
  | None => throw_e other_exception
  | Some new_head =>
      if decide (previous (data new_head) = head c) then extend_head new_block
      else if head_block_num (state c) <? block_num (data new_head) then
        match fetch_branch_from held (forks c) (block_id (data new_head)) (head c) with
        | Some (Ok (first, second)) =>
            switch_forks held (block_id new_block) first second ;; mret true
        | Some (Throw e) => throw_e e
        | None => throw_e other_exception
        end
      else mret false
  end.

(** ** Pending transactions *)

Definition _push_transaction (trx : T) : E chain () := λ c,
  let c := match pending_session c with
           | Some _ => c
           | None => let c := start_undo_session 0 c in set_pending_session (Some (state c)) c
           end in
  let c := start_undo_session 1 c in
  match _apply_transaction trx (state c) with
  | Throw e => (c, Throw e)
  | Ok (processed_trx, s) => (set_pending (_pending_tx c ++ [processed_trx]) (set_state s c), Ok ())
  end.

(** The loops of [~pending_transactions_restorer]: what throws is dropped. *)
Fixpoint restore_transactions (txs : list T) (c : chain) : chain :=
  match txs with
  | [] => c
  | tx :: txs =>
      restore_transactions txs
        (if is_known_transaction tx (state c) then c else fst (_push_transaction tx c))
  end.

(** [without_pending_transactions]. *)
Definition without_pending_transactions {A} (callback : E chain A) : E chain A := λ c,
  let pending := _pending_tx c in
  let '(c, r) := callback (clear_pending c) in
  let c := set_popped [] (restore_transactions (_popped_tx c) c) in
  (restore_transactions pending c, r).

Definition push_block (skip_fork_db : bool) (held : nat → bool) (b : block) : E chain bool :=
  without_pending_transactions (_push_block skip_fork_db held b).

(** [validate_transaction]: the session is undone when it is left. *)
Definition validate_transaction (trx : T) : E chain T := λ c,
  match _apply_transaction trx (state c) with
  | Throw e => (c, Throw e)
  | Ok (processed, _) => (c, Ok processed)
  end.

(** ** Generating a block *)

(** The transactions of a block being built and the size so far. *)
Context (pack_size : T → Z).

Fixpoint select_transactions (maximum_block_size maximum_trx_size : Z) (txs : list T)
    (total : Z) (chosen : list T) (c : chain) : list T * Z * chain :=
  match txs with
  | [] => (chosen, total, c)
  | tx :: txs =>
      let size := pack_size tx in
      if (maximum_block_size <=? total + size) || (maximum_trx_size <=? size)
      then select_transactions maximum_block_size maximum_trx_size txs total chosen c
      else
        let c := start_undo_session 1 c in
        match _apply_transaction tx (state c) with
        | Ok (ptx, s) =>
            select_transactions maximum_block_size maximum_trx_size txs (total + size) (chosen ++ [ptx])
              (set_state s c)
        | Throw _ => select_transactions maximum_block_size maximum_trx_size txs total chosen c
        end
  end.

(** [_generate_block]; [check] stands for the assertions on the slot, the witness
    and the key, [build] assembles the header, the merkle root and the signature
    over the transactions. *)
Definition _generate_block (skip_fork_db : bool) (held : nat → bool) (check : S → result ())
    (build : block_id_type → list T → block) (max_block_header_size maximum_block_size maximum_trx_size : Z)
    : E chain block := λ c,
  match check (state c) with
  | Throw e => (c, Throw e)
  | Ok _ =>
      let c := reset_pending_session c in
      let c := start_undo_session 0 c in
      let c := set_pending_session (Some (state c)) c in
      let '(txs, _, c) :=
        select_transactions maximum_block_size maximum_trx_size (_pending_tx c) max_block_header_size [] c in
      let c := reset_pending_session c in
      let b := build (head c) txs in
      match push_block skip_fork_db held b c with
      | (c, Throw e) => (c, Throw e)
      | (c, Ok _) => (c, Ok b)
      end
  end.

(** ** Fork switches *)

(** What applying a block promises: it extends the head and becomes it. *)
Class AppliesBlocks : Prop := {
  applied_previous b s size s' : apply_block b s = (size, Ok s') → head_block_id s = previous b;
  applied_head b s size s' : apply_block b s = (size, Ok s') → head_block_id s' = block_id b
}.

(** The sizes a block sets leave room for [N] snapshots. *)
Definition room (N : Z) (size : option Z) : Prop := ∀ n, size = Some n → N ≤ n < 2 ^ 32.

(** [applies N s bs s' l]: the blocks [bs], the oldest first, take [s] to [s'], and
    [l] are the states before each, the newest first. *)
Inductive applies (N : Z) (s : S) : list block → S → list S → Prop :=
  | applies_nil : applies N s [] s []
  | applies_snoc bs s1 l b size s2 :
      applies N s bs s1 l → apply_block b s1 = (size, Ok s2) → room N size →
      applies N s (bs ++ [b]) s2 (s1 :: l).

(** The [n]-th ancestor of an item, over links to items of [keep]. *)
Fixpoint ancestor (keep : nat → bool) (h : list (fork_item T D Sg)) (n : nat) (p : nat) : option nat :=
  match n with
  | O => Some p
  | Datatypes.S n => it ← h !! p; q ← prev it; if keep q then ancestor keep h n q else None
  end.

(** The items of [keep] are less than [N] below the highest item. *)
Definition recent (N : Z) (h : list (fork_item T D Sg)) (keep : nat → bool) : Prop :=
  ∃ top, uint 32 top ∧ Forall (λ it, 0 ≤ num it ≤ top) h ∧
    ∀ p, keep p = true → ∃ it, h !! p = Some it ∧ top - N ≤ num it.

(** The database during a switch: room for [N] snapshots, the heap of the fork
    database, a well-formed store, no pending session, and the items of [keep]
    owned by the caller or by the index. *)
Record switching (N : Z) (h : list (fork_item T D Sg)) (wf : B → Prop) (held keep : nat → bool)
    (c : chain) : Prop := {
  sw_room : 0 ≤ N ≤ undo_max c;
  sw_heap : heap (forks c) = h;
  sw_store : wf (_block_id_to_block c);
  sw_session : pending_session c = None;
  sw_recent : recent N h keep;
  sw_keep : ∀ p, keep p = true → held p = true ∨ p ∈ _index (forks c)
}.

(** The number of a block fits its identifier. *)
Definition numbered (b : block) : Prop :=
  uint 32 (block_num b) ∧ (0 < length (sha224 (reflected b)))%nat.

Definition stored (bs : list block) (st : B) : Prop :=
  Forall (λ b, is_Some (bs_fetch (block_id b) st)) bs.

Section Switch.
Context (N : Z) (h : list (fork_item T D Sg)) (wf : B → Prop) (fits : block → Prop) (held keep : nat → bool).
Context `{AppliesBlocks} `{!StoresBlocks sha224 wf fits}.

Lemma applies_length s bs s' l : applies N s bs s' l → length l = length bs.
Proof. induction 1; [done|]. rewrite length_app. simpl. lia. Qed.

Lemma child_num b : numbered b → num_from_id (block_id b) = num_from_id (previous b) + 1.
Proof.
  intros [Hb Hl]. rewrite num_from_block_id by done. rewrite to_uint_id by done.
  pose proof (num_from_id_range (previous b)). unfold block_num, to_uint in *. apply Z.mod_small.
  unfold uint in *. lia.
Qed.

(** The numbers grow along a chain. *)
Lemma applies_nums s bs s' l :
  applies N s bs s' l → Forall numbered bs →
  num_from_id (head_block_id s') = num_from_id (head_block_id s) + Z.of_nat (length bs) ∧
  Forall (λ b, num_from_id (head_block_id s) < num_from_id (block_id b) ≤ num_from_id (head_block_id s')) bs.
Proof.
  induction 1 as [|bs s1 l b size s2 _ IH Hb _]; intros Hn.
  { split; [simpl; lia|constructor]. }
  apply Forall_app in Hn as [Hbs [Hn _]%Forall_cons]. destruct (IH Hbs) as [Hs1 Hall].
  pose proof (applied_head _ _ _ _ Hb) as Hh. pose proof (applied_previous _ _ _ _ Hb) as Hp.
  pose proof (child_num b Hn) as Hc. rewrite <- Hp, Hs1 in Hc. rewrite Hh, Hc, length_app. cbn [length].
  split; [lia|]. apply Forall_app. split; [|constructor; [lia|constructor]].
  eapply Forall_impl; [exact Hall|]. simpl. intros x Hx. lia.
Qed.

(** *** One block *)

Lemma item_range p (f : fork_database T D Sg) it top :
  uint 32 top → Forall (λ it, 0 ≤ num it ≤ top) (heap f) → heap f !! p = Some it →
  num_at f p = num it ∧ 0 ≤ num it ≤ top.
Proof.
  intros Ht Hall Hit. unfold num_at. rewrite Hit. rewrite Forall_forall in Hall.
  split; [done|]. apply Hall. by eapply list_elem_of_lookup_2.
Qed.

(** The sizes a block sets keep the recent items. *)
Lemma set_history_switching size c :
  switching N h wf held keep c → room N size → switching N h wf held keep (set_history size c).
Proof.
  intros [Hroom Hheap Hwf Hses Hrec Hkeep] Hsz. destruct size as [n|]; [|by constructor].
  specialize (Hsz n eq_refl). cbn. constructor; cbn; try done; [lia|by rewrite set_max_size_heap|].
  intros p Hp. destruct (Hkeep p Hp) as [?|Hin]; [by left|right]. apply set_max_size_keeps; [done|].
  intros hd Hhd. destruct Hrec as (top & Htop & Hall & Hnew). destruct (Hnew p Hp) as (it & Hit & Hnum).
  rewrite <- Hheap in Hall, Hit. destruct (item_range p _ it top Htop Hall Hit) as [-> Hr].
  unfold head_item in Hhd. destruct (_head (forks c)) as [ph|]; [|done].
  destruct (item_range ph _ hd top Htop Hall Hhd) as [_ Hr2]. unfold uint in Htop.
  rewrite to_sint_64_id by int_lia. unfold oldest_accepted.
  assert (to_sint 64 (to_uint 64 (num hd - n)) = num hd - n) as ->; [|lia].
  unfold to_sint, to_uint. rewrite Z.mod_mod by lia. change (to_sint 64 (num hd - n) = num hd - n).
  apply to_sint_64_id. int_lia.
Qed.

Lemma set_history_saved size c : saved (set_history size c) = saved c.
Proof. by destruct size. Qed.
Lemma set_history_head size c : _head (forks (set_history size c)) = _head (forks c).
Proof. destruct size; cbn; [apply set_max_size_head|done]. Qed.
Lemma set_history_store size c : _block_id_to_block (set_history size c) = _block_id_to_block c.
Proof. by destruct size. Qed.
Lemma set_history_state size c : state (set_history size c) = state c.
Proof. by destruct size. Qed.

(** Starting a session keeps the newest [N] snapshots. *)
Lemma start_undo_switching p c :
  switching N h wf held keep c → p `prefix_of` saved c → Z.of_nat (length p) ≤ N →
  switching N h wf held keep (start_undo_session 0 c) ∧ p `prefix_of` saved (start_undo_session 0 c).
Proof.
  intros [Hroom Hheap Hwf Hses Hrec Hkeep] [r Hr] HpN. split; [by constructor|].
  cbn. rewrite Hr, take_app_ge by lia. by apply prefix_app_r.
Qed.

Lemma apply_and_store_Ok id b c size s p :
  switching N h wf held keep c → fits b → id ≠ null_block_id →
  apply_block b (state c) = (size, Ok s) → room N size →
  p `prefix_of` saved c → Z.of_nat (length p) ≤ N →
  ∃ c', apply_and_store id b c = (c', Ok ()) ∧ switching N h wf held keep c' ∧ state c' = s ∧
    (state c :: p) `prefix_of` saved c' ∧ _head (forks c') = _head (forks c) ∧
    (id = block_id b → is_Some (bs_fetch id (_block_id_to_block c'))) ∧
    ∀ id', num_from_id id' ≠ num_from_id id → is_Some (bs_fetch id' (_block_id_to_block c)) →
      is_Some (bs_fetch id' (_block_id_to_block c')).
Proof.
  intros Hsw Hfit Hid Hb Hsz Hp HpN.
  destruct (store_returns (sha224 := sha224) id b _ (sw_store _ _ _ _ _ _ Hsw) Hfit Hid) as (st' & Hst & Hwf' & Hself & Hother).
  destruct (start_undo_switching p c Hsw Hp HpN) as [Hsw1 Hp1].
  apply (set_history_switching size) in Hsw1; [|done]. unfold apply_and_store. cbv zeta.
  change (state (start_undo_session 0 c)) with (state c). rewrite Hb, set_history_store.
  change (_block_id_to_block (start_undo_session 0 c)) with (_block_id_to_block c). rewrite Hst.
  eexists. split; [reflexivity|]. split; [|split; [done|split; [|split; [|done]]]].
  - destruct Hsw1. by constructor.
  - cbn. rewrite set_history_saved, set_history_state. by apply prefix_cons.
  - cbn. by rewrite set_history_head.
Qed.

Lemma apply_and_store_Throw id b c size e :
  switching N h wf held keep c → apply_block b (state c) = (size, Throw e) → room N size →
  ∀ p, p `prefix_of` saved c → Z.of_nat (length p) ≤ N →
  ∃ c', apply_and_store id b c = (c', Throw e) ∧ switching N h wf held keep c' ∧ state c' = state c ∧
    p `prefix_of` saved c' ∧ _block_id_to_block c' = _block_id_to_block c.
Proof.
  intros Hsw Hb Hsz p Hp HpN. destruct (start_undo_switching p c Hsw Hp HpN) as [Hsw1 Hp1].
  apply (set_history_switching size) in Hsw1; [|done]. unfold apply_and_store. cbv zeta.
  change (state (start_undo_session 0 c)) with (state c). rewrite Hb.
  eexists. split; [reflexivity|]. split; [done|]. by rewrite set_history_state, set_history_saved, set_history_store.
Qed.

(** *** Popping *)

Lemma fork_pop_Ok (f : fork_database T D Sg) it p q :
  _head f = Some p → heap f !! p = Some it → prev it = Some q → held q = true ∨ q ∈ _index f →
  ForkDb.pop_block held f = Ok ((), with_head (Some q) f).
Proof.
  intros Hp Hit Hq Hh. unfold ForkDb.pop_block. run_e. unfold head_item. rewrite Hp. cbn [mbind option_bind].
  rewrite Hit, Hq. unfold lock.
  destruct Hh as [Hh|Hh]; [by rewrite Hh, !orb_true_r|by rewrite bool_decide_eq_true_2].
Qed.

Lemma fetch_known i c : is_Some (bs_fetch i (_block_id_to_block c)) → is_Some (fetch_block_by_id i c).
Proof.
  intros Hst. unfold fetch_block_by_id, fetch_block.
  destruct (find_id (forks c) (_index (forks c)) i) as [p|] eqn:Hp;
    [|destruct (find_id (forks c) (_unlinked_index (forks c)) i) as [p|] eqn:Hu; [|done]].
  all: unfold find_id in *; match goal with Hf : snd <$> ?o = Some _ |- _ => destruct o as [[j p']|] eqn:Hl; simplify_eq/= end.
  all: apply list_find_Some in Hl as (_ & Hl & _); unfold item_is in Hl.
  all: destruct (heap (forks c) !! p) as [it|]; [eauto|done].
Qed.

Lemma pop_block_Ok c s rest p n q :
  switching N h wf held keep c → saved c = s :: rest → is_Some (bs_fetch (head c) (_block_id_to_block c)) →
  _head (forks c) = Some p → ancestor keep h (Datatypes.S n) p = Some q →
  ∃ c' p', pop_block held c = (c', Ok ()) ∧ switching N h wf held keep c' ∧ state c' = s ∧ saved c' = rest ∧
    _block_id_to_block c' = _block_id_to_block c ∧ _head (forks c') = Some p' ∧ ancestor keep h n p' = Some q.
Proof.
  intros [Hroom Hheap Hwf Hses Hrec Hkeep] Hsv Hk Hp Ha. cbn in Ha.
  destruct (h !! p) as [it|] eqn:Hit; [|done]. cbn in Ha.
  destruct (prev it) as [p'|] eqn:Hprev; [|done]. cbn in Ha.
  destruct (keep p') eqn:Hkp; [|done]. rewrite <- Hheap in Hit.
  destruct (fetch_known _ _ Hk) as [b Hb].
  unfold pop_block, reset_pending_session. rewrite Hses, Hb, (fork_pop_Ok (forks c) it p p') by auto.
  cbn [saved set_forks]. rewrite Hsv. eexists _, p'. split; [reflexivity|].
  split; [by constructor|done].
Qed.

(** Popping back to the state the blocks were applied to. *)
Lemma pop_until_Ok s bs s' l :
  applies N s bs s' l → Forall numbered bs →
  ∀ c fuel p q, switching N h wf held keep c → state c = s' → l `prefix_of` saved c → stored bs (_block_id_to_block c) →
    _head (forks c) = Some p → ancestor keep h (length bs) p = Some q → (length bs < fuel)%nat →
    ∃ c', pop_until held fuel (head_block_id s) c = (c', Ok ()) ∧ switching N h wf held keep c' ∧ state c' = s ∧
      _block_id_to_block c' = _block_id_to_block c ∧ _head (forks c') = Some q.
Proof.
  induction 1 as [|bs s1 l b size s2 Hbs IH Hb Hsz]; intros Hn c fuel p q Hsw Hst Hl Hkn Hp Ha Hf.
  - exists c. destruct fuel; cbn [pop_until]; unfold head; rewrite Hst, decide_True by done;
      cbn in Ha; simplify_eq; done.
  - pose proof (applies_snoc N _ _ _ _ _ _ _ Hbs Hb Hsz) as Hall.
    pose proof (proj1 (applies_nums _ _ _ _ Hall Hn)) as Hnum.
    apply Forall_app in Hn as [Hn [Hnb _]%Forall_cons]. apply Forall_app in Hkn as [Hkn [Hkb _]%Forall_cons].
    rewrite length_app in *. cbn [length] in *. rewrite Nat.add_1_r in Ha.
    destruct fuel as [|fuel]; [lia|]. cbn [pop_until]. unfold head. rewrite Hst.
    rewrite decide_False by (intros Heq; rewrite Heq in Hnum; lia).
    destruct Hl as [r Hl]. cbn [app] in Hl.
    destruct (pop_block_Ok c s1 (l ++ r) p (length bs) q) as (c' & p' & Hpop & Hsw' & Hs' & Hsv' & Hst' & Hp' & Ha');
      try done.
    { unfold head. by rewrite Hst, (applied_head _ _ _ _ Hb). }
    destruct (IH Hn c' fuel p' q) as (c'' & Hrun & Hsw'' & Hs'' & Hst'' & Hp''); try done.
    + rewrite Hsv'. by apply prefix_app_r.
    + by rewrite Hst'.
    + lia.
    + exists c''. rewrite E_bind_step, Hpop. split; [exact Hrun|]. by rewrite Hst'', Hst'.
Qed.

(** *** Pushing *)

Lemma stored_other bs id st st' :
  Forall (λ b, num_from_id (block_id b) ≠ num_from_id id) bs →
  (∀ id', num_from_id id' ≠ num_from_id id → is_Some (bs_fetch id' st) → is_Some (bs_fetch id' st')) →
  stored bs st → stored bs st'.
Proof.
  intros Hne Hoth Hst. unfold stored in *. rewrite !Forall_forall in *. intros b Hb. by apply Hoth; [apply Hne|apply Hst].
Qed.

Lemma push_branch_Ok new_id target good_head good s bs s' l :
  applies N s bs s' l → Forall numbered bs → Forall fits bs → Forall (λ b, block_id b ≠ null_block_id) bs →
  ∀ c rest, switching N h wf held keep c → state c = s → Z.of_nat (length bs) ≤ N →
    ∃ c', push_branch held new_id target good_head good (bs ++ rest) c
          = push_branch held new_id target good_head good rest c' ∧
      switching N h wf held keep c' ∧ state c' = s' ∧ l `prefix_of` saved c' ∧ stored bs (_block_id_to_block c') ∧
      _head (forks c') = _head (forks c).
Proof.
  induction 1 as [|bs s1 l b size s2 Hbs IH Hb Hsz]; intros Hn Hfit Hid c rest Hsw Hst HN.
  - exists c. split; [done|]. by repeat split; [apply Hsw..| |apply prefix_nil|constructor].
  - pose proof (applies_nums _ _ _ _ (applies_snoc N _ _ _ _ _ _ _ Hbs Hb Hsz) Hn) as [Hnum2 _].
    apply Forall_app in Hn as [Hn [Hnb _]%Forall_cons]. apply Forall_app in Hfit as [Hfit [Hfb _]%Forall_cons].
    apply Forall_app in Hid as [Hid [Hib _]%Forall_cons]. rewrite length_app in HN, Hnum2. cbn [length] in HN, Hnum2.
    destruct (IH Hn Hfit Hid c (b :: rest) Hsw Hst ltac:(lia)) as (c1 & Hrun & Hsw1 & Hs1 & Hl1 & Hst1 & Hh1).
    rewrite <- app_assoc. cbn [app]. rewrite Hrun.
    rewrite <- Hs1 in Hb.
    destruct (apply_and_store_Ok (block_id b) b c1 size s2 l) as (c2 & Hc2 & Hsw2 & Hs2 & Hl2 & Hh2 & Hself & Hoth); try done.
    { rewrite (applies_length _ _ _ _ Hbs). lia. }
    exists c2. cbn [push_branch]. rewrite Hc2. split; [done|]. split; [done|]. split; [done|].
    rewrite Hs1 in Hl2. split; [done|]. split; [|by rewrite Hh2].
    apply Forall_app. split; [|constructor; [by apply Hself|constructor]].
    apply (stored_other bs (block_id b) (_block_id_to_block c1)); [|done..].
    pose proof (applies_nums _ _ _ _ Hbs Hn) as [Hnum Hall]. eapply Forall_impl; [exact Hall|].
    intros x Hx. cbn beta in Hx. rewrite <- (applied_head _ _ _ _ Hb). lia.
Qed.

Lemma restore_branch_Ok new_id s bs s' l :
  applies N s bs s' l → Forall fits bs → new_id ≠ null_block_id →
  ∀ c rest, switching N h wf held keep c → state c = s → Z.of_nat (length bs) ≤ N →
    ∃ c', restore_branch new_id (bs ++ rest) c = restore_branch new_id rest c' ∧
      switching N h wf held keep c' ∧ state c' = s' ∧ l `prefix_of` saved c' ∧ _head (forks c') = _head (forks c).
Proof.
  induction 1 as [|bs s1 l b size s2 Hbs IH Hb Hsz]; intros Hfit Hid c rest Hsw Hst HN.
  - exists c. split; [done|]. by repeat split; [apply Hsw..| |apply prefix_nil].
  - apply Forall_app in Hfit as [Hfit [Hfb _]%Forall_cons]. rewrite length_app in HN. cbn [length] in HN.
    destruct (IH Hfit Hid c (b :: rest) Hsw Hst ltac:(lia)) as (c1 & Hrun & Hsw1 & Hs1 & Hl1 & Hh1).
    rewrite <- app_assoc. cbn [app]. rewrite Hrun.
    rewrite <- Hs1 in Hb.
    destruct (apply_and_store_Ok new_id b c1 size s2 l) as (c2 & Hc2 & Hsw2 & Hs2 & Hl2 & Hh2 & _); try done.
    { rewrite (applies_length _ _ _ _ Hbs). lia. }
    exists c2. cbn [restore_branch]. rewrite E_bind_step, Hc2. rewrite Hs1 in Hl2. rewrite Hh2. done.
Qed.

(** *** The switch *)

(** The blocks of a branch of the fork database, the oldest first. *)
Definition branch_blocks (c : chain) (branch : list nat) (bs : list block) : Prop :=
  item_data c <$> rev branch = Some <$> bs.

Lemma omap_branch c branch bs : branch_blocks c branch bs → omap (item_data c) (rev branch) = bs.
Proof.
  unfold branch_blocks. generalize (rev branch) as l. intros l. revert bs.
  induction l as [|p l IH]; intros [|b bs] Hl; cbn in Hl; try done.
  injection Hl as Hp Hl. cbn. rewrite Hp. f_equal. by apply IH.
Qed.

(** Where a switch starts: the blocks [good] of the branch [second] took [s0] to
    the present state, with the snapshots [l]; the blocks [bad] of [first] are the
    other branch, and the head of the fork database is on it. *)
Record switchable (new_id : block_id_type) (first second : list nat)
    (bad good : list block) (s0 : S) (l : list S) (q : nat) (c : chain) : Prop := {
  sb_switching : switching N h wf held keep c;
  sb_first : branch_blocks c first bad;
  sb_second : branch_blocks c second good;
  sb_some : good ≠ [];
  sb_good : applies N s0 good (state c) l;
  sb_saved : l `prefix_of` saved c;
  sb_stored : stored good (_block_id_to_block c);
  sb_fork : (_head (forks c) ≫= λ p, ancestor keep h (length good) p) = Some q;
  sb_numbered : Forall numbered bad ∧ Forall numbered good;
  sb_fits : Forall fits bad ∧ Forall fits good;
  sb_ids : Forall (λ b, block_id b ≠ null_block_id) bad ∧ new_id ≠ null_block_id;
  sb_history : Z.of_nat (length bad) ≤ N ∧ Z.of_nat (length good) ≤ N;
  sb_kept p it : keep p = true → held p = false → h !! p = Some it → id it ∉ block_id <$> bad
}.

Lemma applies_nil_inv s s' l : applies N s [] s' l → s' = s ∧ l = [].
Proof.
  remember [] as bs eqn:Hbs. intros Ha. destruct Ha as [|bs ? ? b]; [done|].
  by apply app_eq_nil in Hbs as [_ ?].
Qed.

Lemma applies_first s b bs s' l : applies N s (b :: bs) s' l → head_block_id s = previous b.
Proof.
  remember (b :: bs) as bl eqn:Hbl. intros Ha. revert b bs Hbl.
  induction Ha as [|bl s1 l b' size s2 Hbl IH Hb _]; intros b bs Heq; [done|].
  destruct bl as [|b0 bl]; simplify_eq/=.
  - apply applies_nil_inv in Hbl as [-> _]. by eapply applied_previous.
  - by eapply IH.
Qed.

(** The first phase: pop to the common ancestor. *)
Lemma switch_pops new_id first second bad good s0 l q c :
  switchable new_id first second bad good s0 l q c →
  ∃ (oldest : block) good_head c1, switch_forks held new_id first second c
      = push_branch held new_id (previous oldest) good_head good bad c1 ∧
    previous oldest = head_block_id s0 ∧ hd_error second = Some good_head ∧
    switching N h wf held keep c1 ∧ state c1 = s0 ∧ _head (forks c1) = Some q.
Proof.
  intros [Hsw Hf Hs Hne Hg Hl Hkn Hq Hnum _ _ _ _]. destruct Hnum as [Hnb Hng].
  destruct (_head (forks c)) as [p|] eqn:Hp; [|done]. cbn in Hq.
  destruct good as [|oldest good]; [done|]. destruct second as [|good_head second]; [done|].
  exists oldest, good_head. pose proof (applies_first _ _ _ _ _ Hg) as Hprev.
  destruct (pop_until_Ok s0 (oldest :: good) _ l Hg Hng c (Datatypes.S (length (saved c))) p q)
    as (c1 & Hrun & Hsw1 & Hs1 & _ & Hh1); try done.
  { apply prefix_length in Hl. rewrite (applies_length _ _ _ _ Hg) in Hl. lia. }
  exists c1. split; [|done]. unfold switch_forks.
  rewrite E_bind_step. cbn [get_e]. rewrite (omap_branch c first bad), (omap_branch c _ (oldest :: good)) by done.
  by rewrite E_bind_step, <- Hprev, Hrun.
Qed.

Lemma removes_heap (bs : list block) (f : fork_database T D Sg) :
  heap (foldl (λ f b, ForkDb.remove (block_id b) f) f bs) = heap f.
Proof. revert f. by induction bs as [|b bs IH]; intros f; [|cbn; rewrite IH]. Qed.

Lemma removes_keeps (bs : list block) (f : fork_database T D Sg) p :
  p ∈ _index f → (∀ it, heap f !! p = Some it → id it ∉ block_id <$> bs) →
  p ∈ _index (foldl (λ f b, ForkDb.remove (block_id b) f) f bs).
Proof.
  revert f. induction bs as [|b bs IH]; intros f Hp Hids; [done|]. cbn. apply IH.
  - apply list_elem_of_filter. split; [|done]. unfold item_is.
    destruct (heap f !! p) as [it|] eqn:Hit; [|by intros []]. intros Hid%bool_decide_unpack.
    apply (Hids it eq_refl). rewrite Hid. left.
  - intros it Hit Hin. apply (Hids it Hit). by right.
Qed.

Lemma switch_back_eq new_id target rest good_head good e c :
  switch_back held new_id target rest good_head good e c =
    (pop_until held (Datatypes.S (length (saved c))) target ;; restore_branch new_id good ;; throw_e e)
      (set_forks (ForkDb.set_head (Some good_head)
        (foldl (λ f b, ForkDb.remove (block_id b) f) (forks c) rest)) c).
Proof. reflexivity. Qed.

(** C3: a fork switch is all or nothing.  Starting from a branch [good] on top of
    [s0], the switch to the branch [bad] ends in the state that applying [bad] to
    [s0] gives, with every block of it stored and a snapshot to undo each; when a
    block of [bad] fails, the exception comes out and the state is the one before
    the switch, with the snapshots that undo [good] back in place. *)
Theorem fork_switch_atomic new_id first second bad good s0 l q c :
  switchable new_id first second bad good s0 l q c →
  (∀ s1 l1, applies N s0 bad s1 l1 →
     ∃ c', switch_forks held new_id first second c = (c', Ok ()) ∧ switching N h wf held keep c' ∧
       state c' = s1 ∧ l1 `prefix_of` saved c' ∧ stored bad (_block_id_to_block c')) ∧
  (∀ pushed b rest sk lk size e p' q',
     bad = pushed ++ b :: rest → applies N s0 pushed sk lk →
     apply_block b sk = (size, Throw e) → room N size →
     hd_error second = Some p' → ancestor keep h (length pushed) p' = Some q' →
     ∃ c', switch_forks held new_id first second c = (c', Throw e) ∧ switching N h wf held keep c' ∧
       state c' = state c ∧ l `prefix_of` saved c').
Proof.
  intros Hsb. destruct (switch_pops _ _ _ _ _ _ _ _ _ Hsb) as (oldest & gh & c1 & -> & Hprev & Hgh & Hsw1 & Hs1 & _).
  destruct Hsb as [_ _ _ _ Hg _ _ _ [Hnb Hng] [Hfb Hfg] [Hib Hid] [HNb HNg] Hkept]. split.
  - intros s1 l1 Hb. destruct (push_branch_Ok new_id (previous oldest) gh good s0 bad s1 l1 Hb Hnb Hfb Hib c1 [])
      as (c' & Hrun & Hsw' & Hs' & Hl' & Hst' & _); try done.
    exists c'. rewrite app_nil_r in Hrun. by rewrite Hrun.
  - intros pushed b rest sk lk size e p' q' -> Hb Hthrow Hroom Hp' Hq'. rewrite Hgh in Hp'. injection Hp' as <-. rename gh into p'.
    apply Forall_app in Hnb as [Hnb _]. apply Forall_app in Hfb as [Hfb _]. apply Forall_app in Hib as [Hib _].
    rewrite length_app in HNb.
    destruct (push_branch_Ok new_id (previous oldest) p' good s0 pushed sk lk Hb Hnb Hfb Hib c1 (b :: rest))
      as (c2 & -> & Hsw2 & Hs2 & Hl2 & Hst2 & _); [done..|lia|].
    rewrite <- Hs2 in Hthrow.
    destruct (apply_and_store_Throw (block_id b) b c2 size e Hsw2 Hthrow Hroom lk) as (c3 & Hc3 & Hsw3 & Hs3 & Hl3 & Hst3);
      [done|rewrite (applies_length _ _ _ _ Hb); lia|].
    cbn [push_branch]. rewrite Hc3, switch_back_eq.
    set (c4 := ForkDb.set_head (Some p') (foldl (λ f b, ForkDb.remove (block_id b) f) (forks c3) (b :: rest))). rewrite Hprev.
    destruct (pop_until_Ok s0 pushed sk lk Hb Hnb (set_forks c4 c3) (Datatypes.S (length (saved c3))) p' q')
      as (c5 & Hrun5 & Hsw5 & Hs5 & _); try done.
    + destruct Hsw3 as [? Hh3 ? ? ? Hk3]. constructor; try done; [by cbn; rewrite removes_heap|].
      intros p Hp. destruct (held p) eqn:Hheld; [by left|right]. destruct (Hk3 p Hp) as [|Hin]; [congruence|].
      apply removes_keeps; [done|]. intros it Hit. rewrite Hh3 in Hit. specialize (Hkept p it Hp Hheld Hit).
      intros Hx. apply Hkept. rewrite fmap_app. by apply elem_of_app; right.
    + cbn. by rewrite Hs3.
    + cbn. by rewrite Hst3.
    + apply prefix_length in Hl3. rewrite (applies_length _ _ _ _ Hb) in Hl3. lia.
    + destruct (restore_branch_Ok new_id s0 good (state c) l Hg Hfg Hid c5 []) as (c6 & Hrun6 & Hsw6 & Hs6 & Hl6 & _); try done.
      rewrite app_nil_r in Hrun6. exists c6. split; [|done].
      rewrite E_bind_step, Hrun5, E_bind_step, Hrun6. done.
Qed.
End Switch.


(** ** The head *)

(** Pushing a block onto the head and popping it again restores the contents,
    and the transactions of the block wait to be pushed again; a block that fails
    leaves the contents as they were and the fork database without it. *)
Theorem extend_pop_roundtrip N h wf fits held keep `{AppliesBlocks} `{!StoresBlocks sha224 wf fits} b c p q :
  switching N h wf held keep c → fits b → block_id b ≠ null_block_id →
  _head (forks c) = Some p → ancestor keep h 1 p = Some q →
  (∀ size s, apply_block b (state c) = (size, Ok s) → room N size →
     ∃ c1 c2 b', extend_head b c = (c1, Ok false) ∧ state c1 = s ∧
       fetch_block_by_id (block_id b) c1 = Some b' ∧
       pop_block held c1 = (c2, Ok ()) ∧ state c2 = state c ∧
       _popped_tx c2 = transactions b' ++ _popped_tx c1) ∧
  (∀ size e, apply_block b (state c) = (size, Throw e) → room N size →
     ∃ c1, extend_head b c = (c1, Throw e) ∧ state c1 = state c ∧
       _popped_tx c1 = _popped_tx c ∧ find_id (forks c1) (_index (forks c1)) (block_id b) = None).
Proof.
  intros Hsw Hfit Hid Hp Hq. pose proof (sw_room _ _ _ _ _ _ Hsw) as [HN _]. split.
  - intros size s Hb Hroom.
    destruct (apply_and_store_Ok N h wf fits held keep (block_id b) b c size s []) as (c1 & Hc1 & Hsw1 & Hs1 & Hl1 & Hh1 & Hf & _);
      try done; [by apply prefix_nil|].
    destruct Hl1 as [r Hl1]. cbn in Hl1.
    assert (head c1 = block_id b) as Hhd by (unfold head; rewrite Hs1; by eapply applied_head).
    specialize (Hf eq_refl). destruct (fetch_known (block_id b) c1 Hf) as [b' Hb'].
    destruct (pop_block_Ok N h wf held keep c1 (state c) r p 0 q) as (c2 & p' & Hpop & _ & Hs2 & _ & _ & _ & _); try done.
    + by rewrite Hhd.
    + by rewrite Hh1.
    + exists c1, c2, b'. unfold extend_head. rewrite Hc1. do 4 (split; [done|]). split; [done|].
      pose proof (sw_session _ _ _ _ _ _ Hsw1) as Hses.
      revert Hpop. unfold pop_block, reset_pending_session. rewrite Hses, Hhd, Hb'.
      destruct (ForkDb.pop_block held (forks c1)) as [[[] f]|]; [|done].
      cbn [saved set_forks]. rewrite Hl1. by intros [= <-].
  - intros size e Hb Hroom.
    destruct (apply_and_store_Throw N h wf held keep (block_id b) b c size e Hsw Hb Hroom [])
      as (c1 & Hc1 & _ & Hs1 & _); [apply prefix_nil|done|].
    unfold extend_head. rewrite Hc1. eexists. split; [reflexivity|]. split; [done|]. split.
    + cbn. revert Hc1. unfold apply_and_store. cbn [state set_saved start_undo_session]. rewrite Hb.
      intros [= <-]. by destruct size.
    + apply removed_unknown.
Qed.

(** ** The pending transactions *)

(** [queued s src res s']: the transactions [src] take [s] to [s'], in order, and
    [res] are the processed ones. *)
Inductive queued (s : S) : list T → list T → S → Prop :=
  | queued_nil : queued s [] [] s
  | queued_snoc src res s1 t t' s2 :
      queued s src res s1 → _apply_transaction t s1 = Ok (t', s2) → queued s (src ++ [t]) (res ++ [t']) s2.

(** The contents below the pending transactions. *)
Definition base (c : chain) : S := default (state c) (pending_session c).

(** The pending session holds what the pending transactions did, in order. *)
Definition pending_ok (c : chain) : Prop :=
  match pending_session c with
  | Some s => ∃ src, queued s src (_pending_tx c) (state c)
  | None => _pending_tx c = []
  end.

Definition no_pending (c : chain) : Prop := pending_session c = None ∧ _pending_tx c = [].

Lemma push_transaction_spec trx c :
  pending_ok c →
  let '(c', r) := _push_transaction trx c in
  pending_ok c' ∧ base c' = base c ∧ _popped_tx c' = _popped_tx c ∧
  match r with
  | Ok _ => ∃ ptx, _apply_transaction trx (state c) = Ok (ptx, state c') ∧ _pending_tx c' = _pending_tx c ++ [ptx]
  | Throw e => _apply_transaction trx (state c) = Throw e ∧ state c' = state c ∧ _pending_tx c' = _pending_tx c
  end.
Proof.
  intros Hok. unfold _push_transaction, pending_ok, base in *.
  destruct (pending_session c) as [s0|] eqn:Hses; cbn.
  - destruct (_apply_transaction trx (state c)) as [[ptx s]|e] eqn:Happ; cbn; rewrite ?Hses; cbn.
    + destruct Hok as [src Hq]. split; [exists (src ++ [trx]); by econstructor|]. split_and?; eauto.
    + split_and?; eauto.
  - destruct (_apply_transaction trx (state c)) as [[ptx s]|e] eqn:Happ; cbn; rewrite Hok; cbn.
    + split; [exists [trx]; apply (queued_snoc _ [] [] (state c)); [constructor|done]|]. split_and?; eauto.
    + split; [exists []; constructor|]. split_and?; eauto.
Qed.

Lemma restore_spec txs c :
  pending_ok c →
  let c' := restore_transactions txs c in
  pending_ok c' ∧ base c' = base c ∧ _popped_tx c' = _popped_tx c.
Proof.
  revert c. induction txs as [|tx txs IH]; intros c Hok; [done|]. cbn [restore_transactions].
  destruct (is_known_transaction tx (state c)); [by apply IH|].
  pose proof (push_transaction_spec tx c Hok) as Hpush. destruct (_push_transaction tx c) as [c1 r].
  cbn [fst]. destruct Hpush as (Hok1 & Hb1 & Hp1 & _). destruct (IH c1 Hok1) as (H2 & H3 & H4).
  by rewrite H3, H4, Hb1, Hp1.
Qed.

(** Nothing in the pushing of a block touches the queue. *)
Lemma apply_and_store_no_pending id b : keeps no_pending (apply_and_store id b).
Proof.
  intros c [Hs Hp]. unfold apply_and_store. cbn [state set_saved start_undo_session].
  destruct (apply_block b (state c)) as [[n|] [s|e]]; cbn; try destruct (bs_store _ _ _); done.
Qed.

Lemma pop_block_no_pending held : keeps no_pending (pop_block held).
Proof.
  intros c Hc. pose proof Hc as [Hs Hp]. unfold pop_block, reset_pending_session. rewrite Hs.
  destruct (fetch_block_by_id (head c) c); [|done]. destruct (ForkDb.pop_block held (forks c)) as [[[] f]|]; [|done].
  cbn. by destruct (saved c).
Qed.

Lemma pop_until_no_pending held fuel target : keeps no_pending (pop_until held fuel target).
Proof.
  induction fuel as [|fuel IH]; intros c Hc; cbn [pop_until]; case_decide; try done.
  apply keeps_bind; [apply pop_block_no_pending|by intros []|done].
Qed.

Lemma restore_branch_no_pending new_id bs : keeps no_pending (restore_branch new_id bs).
Proof. induction bs as [|b bs IH]; cbn; eauto using apply_and_store_no_pending with zos. Qed.

Lemma switch_back_no_pending held new_id target rest gh good e :
  keeps no_pending (switch_back held new_id target rest gh good e).
Proof.
  intros c Hc. rewrite switch_back_eq.
  apply keeps_bind; [apply pop_until_no_pending|intros []|exact Hc].
  apply keeps_bind; [apply restore_branch_no_pending|intros []]. apply keeps_throw.
Qed.

Lemma push_branch_no_pending held new_id target gh good bs :
  keeps no_pending (push_branch held new_id target gh good bs).
Proof.
  induction bs as [|b bs IH]; cbn [push_branch]; [apply keeps_ret|]. intros c Hc.
  pose proof (apply_and_store_no_pending (block_id b) b c Hc) as Hc1.
  destruct (apply_and_store _ _ c) as [c1 [[]|e]]; [by apply IH|by apply switch_back_no_pending].
Qed.

Lemma extend_head_no_pending b : keeps no_pending (extend_head b).
Proof.
  intros c Hc. unfold extend_head. pose proof (apply_and_store_no_pending (block_id b) b c Hc) as Hc1.
  by destruct (apply_and_store _ _ c) as [c1 [[]|e]].
Qed.

Lemma lift_fork_no_pending {A} (m : M (fork_database T D Sg) A) : keeps no_pending (lift_fork m).
Proof. intros c Hc. unfold lift_fork. by destruct (m (forks c)) as [[]|]. Qed.

Lemma switch_forks_no_pending held new_id first second :
  keeps no_pending (switch_forks held new_id first second).
Proof.
  unfold switch_forks. apply keeps_bind; [apply keeps_get|intros c0].
  destruct (omap _ (rev second)), second; try apply keeps_throw.
  apply keeps_bind; [apply pop_until_no_pending|intros []]. apply push_branch_no_pending.
Qed.

Lemma _push_block_no_pending skip held b : keeps no_pending (_push_block skip held b).
Proof.
  unfold _push_block. destruct skip; [apply extend_head_no_pending|].
  apply keeps_bind; [apply lift_fork_no_pending|intros hp]. apply keeps_bind; [apply keeps_get|intros c0].
  destruct (hp ≫= _) as [it|]; [|apply keeps_throw]. case_decide; [apply extend_head_no_pending|].
  destruct (_ <? _); [|apply keeps_ret]. destruct (fetch_branch_from _ _ _ _) as [[[f s]|e]|]; try apply keeps_throw.
  apply keeps_bind; [apply switch_forks_no_pending|intros []; apply keeps_ret].
Qed.

Lemma clear_pending_spec c : no_pending (clear_pending c) ∧ state (clear_pending c) = base c.
Proof. unfold clear_pending, reset_pending_session, no_pending, base. cbn. by destruct (pending_session c) eqn:?. Qed.

Lemma no_pending_ok c : no_pending c → pending_ok c ∧ base c = state c.
Proof. intros [Hs Hp]. unfold pending_ok, base. by rewrite Hs. Qed.

Lemma without_pending_spec {A} (m : E chain A) c :
  keeps no_pending m →
  ∃ c1 r, m (clear_pending c) = (c1, r) ∧
    let '(c', r') := without_pending_transactions m c in
    r' = r ∧ pending_ok c' ∧ base c' = state c1 ∧ _popped_tx c' = [].
Proof.
  intros Hm. destruct (clear_pending_spec c) as [Hnp _]. specialize (Hm _ Hnp).
  unfold without_pending_transactions. destruct (m (clear_pending c)) as [c1 r]. exists c1, r. split; [done|].
  apply no_pending_ok in Hm as [Hok Hb]. cbn [fst] in *.
  destruct (restore_spec (_popped_tx c1) c1 Hok) as (Hok2 & Hb2 & _).
  set (c2 := set_popped [] _). assert (pending_ok c2) as Hok3 by exact Hok2.
  destruct (restore_spec (_pending_tx c) c2 Hok3) as (Hok4 & Hb4 & Hp4).
  split; [done|]. split; [exact Hok4|]. split; [|exact Hp4]. by rewrite Hb4, <- Hb.
Qed.

(** C5: the queue of pending transactions stays consistent: the pending session
    always holds exactly what the queued transactions did to the contents of the
    head block, in their order.  A pushed transaction is appended, or throws and
    changes nothing; pushing a block, whether it succeeds or throws, undoes the
    queue, acts on the head's contents alone and rebuilds a consistent queue on
    the outcome. *)
Theorem pending_queue_consistent c :
  pending_ok c →
  (∀ trx, let '(c', r) := _push_transaction trx c in
     pending_ok c' ∧ base c' = base c ∧
     match r with
     | Ok _ => ∃ ptx, _apply_transaction trx (state c) = Ok (ptx, state c') ∧ _pending_tx c' = _pending_tx c ++ [ptx]
     | Throw e => state c' = state c ∧ _pending_tx c' = _pending_tx c
     end) ∧
  (∀ skip held b, ∃ clean c1 r,
     state clean = base c ∧ no_pending clean ∧ _push_block skip held b clean = (c1, r) ∧
     let '(c', r') := push_block skip held b c in
     r' = r ∧ pending_ok c' ∧ base c' = state c1 ∧ _popped_tx c' = []).
Proof.
  intros Hok. split.
  - intros trx. pose proof (push_transaction_spec trx c Hok) as Hp.
    destruct (_push_transaction trx c) as [c' [[]|e]]; destruct Hp as (H1 & H2 & _ & H3); [exact (conj H1 (conj H2 H3))|].
    destruct H3 as (_ & H4). exact (conj H1 (conj H2 H4)).
  - intros skip held b. exists (clear_pending c). destruct (clear_pending_spec c) as [Hnp Hst].
    destruct (without_pending_spec (_push_block skip held b) c (_push_block_no_pending skip held b)) as (c1 & r & Hrun & Hc').
    exists c1, r. done.
Qed.

(** ** Generating a block *)

Lemma queued_app s a ra s1 b rb s2 :
  queued s a ra s1 → queued s1 b rb s2 → queued s (a ++ b) (ra ++ rb) s2.
Proof.
  intros Ha Hb. induction Hb as [|src res s2 t t' s3 _ IH Ht]; [by rewrite !app_nil_r|].
  rewrite !app_assoc. by econstructor.
Qed.

Definition total_size (txs : list T) : Z := foldr (λ t n, pack_size t + n) 0 txs.

Lemma select_spec mb mt txs total chosen c :
  let '(chosen', total', c') := select_transactions mb mt txs total chosen c in
  ∃ src res, src `sublist_of` txs ∧ chosen' = chosen ++ res ∧ queued (state c) src res (state c') ∧
    total' = total + total_size src ∧ (total < mb → total' < mb) ∧ Forall (λ t, pack_size t < mt) src ∧
    pending_session c' = pending_session c ∧ _pending_tx c' = _pending_tx c.
Proof.
  revert total chosen c. induction txs as [|tx txs IH]; intros total chosen c; cbn [select_transactions].
  { exists [], []. rewrite app_nil_r. unfold total_size. cbn. rewrite Z.add_0_r. repeat split; auto; constructor. }
  assert (∀ c1, state c1 = state c → pending_session c1 = pending_session c →
    _pending_tx c1 = _pending_tx c →
    let '(chosen', total', c') := select_transactions mb mt txs total chosen c1 in
    ∃ src res, src `sublist_of` tx :: txs ∧ chosen' = chosen ++ res ∧ queued (state c) src res (state c') ∧
      total' = total + total_size src ∧ (total < mb → total' < mb) ∧ Forall (λ t, pack_size t < mt) src ∧
      pending_session c' = pending_session c ∧ _pending_tx c' = _pending_tx c) as Hskip.
  { intros c1 Hs Hp Ht. specialize (IH total chosen c1). rewrite Hs, Hp, Ht in IH.
    destruct (select_transactions _ _ _ _ _ _) as [[chosen' total'] c'].
    destruct IH as (src & res & Hsub & IH). exists src, res. split; [by constructor|exact IH]. }
  destruct (_ || _) eqn:Hfit; [by apply Hskip|]. apply orb_false_iff in Hfit as [Hfit Hmt].
  destruct (_apply_transaction tx _) as [[ptx s]|e] eqn:Happ; [|by apply (Hskip (start_undo_session 1 c))].
  specialize (IH (total + pack_size tx) (chosen ++ [ptx]) (set_state s (start_undo_session 1 c))).
  destruct (select_transactions _ _ _ _ _ _) as [[chosen' total'] c'].
  destruct IH as (src & res & Hsub & Hch & Hq & Htot & Hlt & Hall & Hp & Ht).
  exists (tx :: src), (ptx :: res). split; [by constructor|]. split; [by rewrite Hch, <- app_assoc|].
  split; [apply (queued_app _ [tx] [ptx] s); [by apply (queued_snoc _ [] [] (state c)); [constructor|]|exact Hq]|].
  split; [unfold total_size in *; cbn; lia|]. split; [lia|]. split; [constructor; [lia|done]|]. done.
Qed.

(** C24: the block a witness generates holds, in their order, transactions of the
    queue that apply one after the other to the contents of the head block; it extends the
    head, is pushed on the contents without the queue, and the queue is consistent
    afterwards.  The sizes of the transactions are those they have in the queue, before
    they are applied: these are each below the maximum transaction size and together with
    the header below the maximum block size.  The block holds the applied transactions with
    their results, and the code bounds the size of none of these. *)
Theorem generated_block_applies skip held check build header mb mt c :
  pending_ok c → check (state c) = Ok () → header < mb →
  ∃ src txs s clean c1 r,
    src `sublist_of` _pending_tx c ∧ queued (base c) src txs s ∧
    header + total_size src < mb ∧ Forall (λ t, pack_size t < mt) src ∧
    state clean = base c ∧ no_pending clean ∧
    let b := build (head_block_id (base c)) txs in
    _push_block skip held b clean = (c1, r) ∧
    let '(c', r') := _generate_block skip held check build header mb mt c in
    r' = ((λ _, b) <$> r) ∧ pending_ok c' ∧ base c' = state c1.
Proof.
  intros Hok Hcheck Hmb. unfold _generate_block. rewrite Hcheck.
  set (c2 := set_pending_session (Some _) _).
  assert (state c2 = base c ∧ _pending_tx c2 = _pending_tx c ∧ pending_session c2 = Some (base c)) as (Hs2 & Hp2 & Hses2).
  { unfold c2, reset_pending_session, base. by destruct (pending_session c). }
  assert (_pending_tx (reset_pending_session c) = _pending_tx c) as Hp0.
  { unfold reset_pending_session. by destruct (pending_session c). }
  replace (_pending_tx c2) with (_pending_tx c).
  pose proof (select_spec mb mt (_pending_tx c) header [] c2) as Hsel.
  destruct (select_transactions _ _ _ _ _ c2) as [[txs total] c3].
  destruct Hsel as (src & res & Hsub & Hch & Hq & Htot & Hlt & Hall & Hses3 & Hp3). cbn in Hch. subst res.
  rewrite Hs2 in Hq. rewrite Hses2 in Hses3. set (c4 := reset_pending_session c3).
  assert (state c4 = base c ∧ pending_session c4 = None) as [Hs4 Hses4].
  { unfold c4, reset_pending_session. by rewrite Hses3. }
  set (b := build _ txs). destruct (clear_pending_spec c4) as [Hnp Hst].
  destruct (without_pending_spec (_push_block skip held b) c4 (_push_block_no_pending skip held b)) as (c1 & r & Hrun & Hc').
  exists src, txs, (state c3), (clear_pending c4), c1, r. split; [done|]. split; [done|]. split; [lia|]. split; [done|].
  split; [rewrite Hst; unfold base; by rewrite Hses4|]. split; [done|].
  assert (build (head_block_id (base c)) txs = b) as Hbb by (unfold b, head; by rewrite Hs4). cbv zeta. rewrite Hbb.
  split; [exact Hrun|]. fold (push_block skip held b) in Hc'.
  destruct (push_block skip held b c4) as [c5 [r5|e5]]; destruct Hc' as (<- & Hok5 & Hb5 & _); done.
Qed.
End Chain.

(** ** Examples: a chain over a small state and the block store of BlockDb *)

Module ChainExample.
Abbreviation demo := (signed_block Z Z Z).

Definition demo_hash (h : @signed_block_header Z Z) : list Z :=
  let '(_, _, time, wit, _, _) := h in [0; 256 * time; wit; 0; 0; 0; 0].

Definition mk_demo (prev : block_id_type) (time : Z) (txs : list Z) : demo :=
  mk_block 1 prev time 1 0 0 txs.
Definition bid := block_id (T := Z) demo_hash.

(** The contents are the head and the transactions applied; a transaction applies
    once, a block of timestamp 99 fails. *)
Abbreviation contents := (block_id_type * list Z)%type.

Definition apply_demo (b : demo) (s : contents) : option Z * result contents :=
  if decide (s.1 = previous b) then
    if timestamp b =? 99 then (None, Throw assert_exception) else (Some 7, Ok (bid b, s.2 ++ transactions b))
  else (None, Throw assert_exception).

Definition transact (t : Z) (s : contents) : result (Z * contents) :=
  if decide (t ∈ s.2) then Throw assert_exception else Ok (t, (s.1, s.2 ++ [t])).
Definition known (t : Z) (s : contents) : bool := bool_decide (t ∈ s.2).

Definition pack (b : demo) : list Z :=
  [version b; timestamp b; witness b; transaction_merkle_root b; witness_signature b;
   Z.of_nat (length (_hash (previous b)))] ++ _hash (previous b) ++ transactions b.
Definition unpack (l : list Z) : option demo :=
  match l with
  | v :: t :: w :: r :: g :: n :: rest =>
      Some (mk_block v (mk_block_id (take (Z.to_nat n) rest)) t w r g (drop (Z.to_nat n) rest))
  | _ => None
  end.

Lemma unpack_pack b : unpack (pack b) = Some b.
Proof.
  destruct b as [v [p] t w r g txs]. unfold pack, unpack. cbn. rewrite Nat2Z.id, take_app_length, drop_app_length. done.
Qed.

#[export] Instance demo_store : BlockStore BlockDb.block_database demo :=
  BlockDb.block_database_store demo_hash pack unpack.
Abbreviation store_ok := BlockDb.db_ok.
Abbreviation store_fits := (BlockDb.fits pack unpack).

#[export] Instance demo_stores : StoresBlocks demo_hash store_ok store_fits :=
  BlockDb.block_database_stores demo_hash pack unpack.

#[export] Instance demo_applies : AppliesBlocks demo_hash fst apply_demo.
Proof.
  constructor; intros b s size s'; unfold apply_demo; case_decide; try done;
    destruct (timestamp b =? 99); intros [= <- <-]; done.
Qed.

Definition g0 := mk_demo null_block_id 5 [1].
Definition g1 := mk_demo (bid g0) 10 [2].
Definition x1 := mk_demo (bid g0) 15 [3].
Definition x2 := mk_demo (bid x1) 20 [4].
Definition x3 := mk_demo (bid x1) 99 [4].
Definition g2 := mk_demo (bid g1) 30 [5].

Definition push_fork (b : demo) (f : fork_database Z Z Z) : fork_database Z Z Z :=
  match ForkDb.push_block demo_hash b f with Ok (_, f') => f' | Throw _ => f end.
Definition store_block (b : demo) (st : BlockDb.block_database) : BlockDb.block_database :=
  match bs_store (bid b) b st with Ok st' => st' | Throw _ => st end.

Definition s0 : contents := (bid g0, [1]).
Definition s1 : contents := (bid g1, [1; 2]).

(** The head is [g1]; the fork database knows [x1] and the block [tip] on it. *)
Definition chain_before : chain :=
  mk_chain s1 [s0; (null_block_id, [])] 7 (push_fork x1 (push_fork g1 (start_block demo_hash g0 initial_db)))
    (store_block g1 (store_block g0 (BlockDb.mk_db [] []))) None [] [].
Definition chain_with (tip : demo) : @chain Z Z Z contents BlockDb.block_database :=
  set_forks (push_fork tip (forks chain_before)) chain_before.

(** The caller of the switch holds the items of the two branches. *)
Definition branches_held (p : nat) : bool := (1 <=? p)%nat && (p <=? 3)%nat.

Definition keep_all (p : nat) : bool := (p <=? 3)%nat.

Definition push_demo := _push_block demo_hash (B := BlockDb.block_database) fst (λ s : contents, num_from_id s.1) apply_demo.
End ChainExample.
Import ChainExample.

Lemma demo_room : room 2 (Some 7).
Proof. intros n [= <-]. split; [discriminate|reflexivity]. Qed.

Lemma demo_switching tip :
  tip = x2 ∨ tip = x3 ∨ tip = g2 →
  switching 2 (heap (forks (chain_with tip))) store_ok branches_held keep_all (chain_with tip).
Proof.
  intros Htip. assert (store_ok (_block_id_to_block (chain_with tip))) as Hok.
  { assert (∀ b st, store_ok st → store_fits b → bid b ≠ null_block_id → store_ok (store_block b st)) as Hst.
    { intros b st Hok Hf Hb. destruct (store_returns (sha224 := demo_hash) (bid b) b st Hok Hf Hb) as (st' & Hs & Hok' & _).
      unfold store_block. by rewrite Hs. }
    apply Hst; [apply Hst|..].
    - intros n e Hn. discriminate Hn.
    - split; [apply unpack_pack|split; vm_compute; reflexivity].
    - discriminate.
    - split; [apply unpack_pack|split; vm_compute; reflexivity].
    - discriminate. }
  constructor; [done|done|exact Hok|done|..].
  - exists 3. split; [done|]. split; [destruct Htip as [-> | [-> | ->]]; apply (bool_decide_unpack _); vm_compute; exact I|].
    intros p Hp%Nat.leb_le.
    assert (Forall (λ it, 3 - 2 ≤ num it) (heap (forks (chain_with tip)))) as Hall.
    { destruct Htip as [-> | [-> | ->]]; apply (bool_decide_unpack _); vm_compute; exact I. }
    destruct (lookup_lt_is_Some_2 (heap (forks (chain_with tip))) p) as [it Hit].
    { assert (length (heap (forks (chain_with tip))) = 4)%nat as ->; [|lia]. destruct Htip as [-> | [-> | ->]]; by vm_compute. }
    exists it. split; [done|]. rewrite Forall_forall in Hall. apply Hall. by eapply list_elem_of_lookup_2.
  - intros p Hp%Nat.leb_le. unfold branches_held.
    destruct p as [|p]; [right|left; rewrite andb_true_iff, !Nat.leb_le; lia].
    destruct Htip as [-> | [-> | ->]]; apply (bool_decide_unpack _); vm_compute; exact I.
Qed.

Lemma switchable_demo tip :
  tip = x2 ∨ tip = x3 →
  switchable demo_hash apply_demo 2 (heap (forks (chain_with tip))) store_ok store_fits branches_held keep_all (bid tip)
    [3; 2]%nat [1]%nat [x1; tip] [g1] s0 [s0] 2 (chain_with tip).
Proof.
  intros Htip.
  assert (∀ b : demo, uint 32 (block_num b) → numbered demo_hash b) as Hnum.
  { intros b Hb. split; [exact Hb|]. destruct (reflected b) as [[[[[? ?] ?] ?] ?] ?]. simpl. lia. }
  assert (∀ b : demo, bool_decide (uint 32 (block_num b)) = true → numbered demo_hash b) as Hnums.
  { intros b Hb. apply Hnum. exact (bool_decide_eq_true_1 _ Hb). }
  constructor; [apply demo_switching; tauto|..].
  - destruct Htip as [-> | ->]; vm_compute; reflexivity.
  - destruct Htip as [-> | ->]; vm_compute; reflexivity.
  - discriminate.
  - apply (applies_snoc _ _ _ [] s0 [] g1 (Some 7)); [constructor|vm_compute; reflexivity|exact demo_room].
  - by exists [(null_block_id, [])].
  - constructor; [|constructor]. exists g1. vm_compute. reflexivity.
  - destruct Htip as [-> | ->]; vm_compute; reflexivity.
  - split; repeat apply Forall_cons_2; try apply Forall_nil_2; apply Hnums;
      [|destruct Htip as [-> | ->]|]; vm_compute; reflexivity.
  - split; repeat apply Forall_cons_2; try apply Forall_nil_2; [|destruct Htip as [-> | ->]|];
      (split; [apply unpack_pack|split; vm_compute; reflexivity]).
  - split; [repeat apply Forall_cons_2; try apply Forall_nil_2|]; destruct Htip as [-> | ->];
      apply (bool_decide_unpack _); vm_compute; exact I.
  - split; discriminate.
  - intros p it Hp Hh Hit. unfold keep_all, branches_held in *. apply Nat.leb_le in Hp.
    assert (p = 0)%nat as -> by (apply andb_false_iff in Hh; rewrite !Nat.leb_gt in Hh; lia).
    assert (Forall (λ it, id it ∉ bid <$> [x1; tip]) (take 1 (heap (forks (chain_with tip))))) as Hall.
    { destruct Htip as [-> | ->]; apply (bool_decide_unpack _); vm_compute; exact I. }
    rewrite Forall_forall in Hall. apply Hall, (list_elem_of_lookup_2 _ 0). by rewrite lookup_take_lt by lia.
Qed.

Lemma fork_switch_atomic_witness :
  (∃ c', switch_forks demo_hash fst apply_demo branches_held (bid x2) [3; 2]%nat [1]%nat (chain_with x2) = (c', Ok ()) ∧
     state c' = (bid x2, [1; 3; 4])) ∧
  (∃ c', switch_forks demo_hash fst apply_demo branches_held (bid x3) [3; 2]%nat [1]%nat (chain_with x3) =
     (c', Throw assert_exception) ∧ state c' = s1).
Proof.
  split.
  - destruct (proj1 (fork_switch_atomic demo_hash fst apply_demo _ _ _ _ _ _ _ _ _ _ _ _ _ _ _ (switchable_demo x2 (or_introl eq_refl)))
      (bid x2, [1; 3; 4]) [(bid x1, [1; 3]); s0]) as (c' & Hrun & _ & Hs & _); [|exists c'; exact (conj Hrun Hs)].
    apply (applies_snoc _ _ _ [x1] (bid x1, [1; 3]) [s0] x2 (Some 7)); [|vm_compute; reflexivity|exact demo_room].
    apply (applies_snoc _ _ _ [] s0 [] x1 (Some 7)); [constructor|vm_compute; reflexivity|exact demo_room].
  - destruct (proj2 (fork_switch_atomic demo_hash fst apply_demo _ _ _ _ _ _ _ _ _ _ _ _ _ _ _ (switchable_demo x3 (or_intror eq_refl)))
      [x1] x3 [] (bid x1, [1; 3]) [s0] None assert_exception 1%nat 0%nat) as (c' & Hrun & _ & Hs & _); [reflexivity|..|exists c'; exact (conj Hrun Hs)].
    + apply (applies_snoc _ _ _ [] s0 [] x1 (Some 7)); [constructor|vm_compute; reflexivity|exact demo_room].
    + vm_compute. reflexivity.
    + discriminate.
    + reflexivity.
    + vm_compute. reflexivity.
Defined.

Lemma extend_pop_roundtrip_witness :
  ∃ c1 c2, extend_head demo_hash apply_demo g2 (chain_with g2) = (c1, Ok false) ∧
    state c1 = (bid g2, [1; 2; 5]) ∧
    pop_block fst branches_held c1 = (c2, Ok ()) ∧ state c2 = s1.
Proof.
  pose proof (demo_switching g2 ltac:(auto)) as Hsw.
  destruct (proj1 (extend_pop_roundtrip demo_hash fst apply_demo 2 _ store_ok store_fits branches_held keep_all
    g2 (chain_with g2) 3%nat 1%nat Hsw
    ltac:(split; [apply unpack_pack|split; vm_compute; reflexivity]) ltac:(apply (bool_decide_unpack _); vm_compute; exact I)
    ltac:(vm_compute; reflexivity) ltac:(vm_compute; reflexivity))
    (Some 7) (bid g2, [1; 2; 5]))
    as (c1 & c2 & b' & He & Hs1 & _ & Hp & Hs2 & _).
  - vm_compute. reflexivity.
  - exact demo_room.
  - exists c1, c2. exact (conj He (conj Hs1 (conj Hp Hs2))).
Defined.

Definition queue_before : chain := set_pending [7] (set_pending_session (Some s1) (set_state (bid g1, [1; 2; 7]) chain_before)).

Lemma queue_before_ok : pending_ok transact queue_before.
Proof. exists [7]. apply (queued_snoc transact s1 [] [] s1); [constructor|vm_compute; reflexivity]. Qed.

Lemma pending_queue_consistent_witness :
  pending_ok transact queue_before ∧
  ∃ c' r, _push_transaction transact 8 queue_before = (c', r) ∧ pending_ok transact c'.
Proof.
  split; [exact queue_before_ok|].
  pose proof (proj1 (pending_queue_consistent demo_hash fst (λ s : contents, num_from_id s.1) apply_demo transact known
    queue_before queue_before_ok) 8) as Hp.
  match type of Hp with context [_push_transaction ?t ?x ?c] =>
    destruct (_push_transaction t x c) as [c' r] eqn:Hrun end.
  exists c', r. exact (conj eq_refl (proj1 Hp)).
Defined.

Lemma generated_block_applies_witness :
  ∃ txs, queued transact s1 [7] txs (bid g1, [1; 2; 7]) ∧
    ∃ c' r', _generate_block demo_hash fst (λ s : contents, num_from_id s.1) apply_demo transact known
      (λ _, 1) false (λ _, true) (λ _, Ok ()) (λ prev txs, mk_demo prev 40 txs) 3 100 10 queue_before = (c', r') ∧
      pending_ok transact c'.
Proof.
  destruct (generated_block_applies demo_hash fst (λ s : contents, num_from_id s.1) apply_demo transact known (λ _, 1)
    false (λ _, true) (λ _, Ok ()) (λ prev txs, mk_demo prev 40 txs) 3 100 10 queue_before
    queue_before_ok eq_refl ltac:(reflexivity)) as (src & txs & s & clean & c1 & r & _ & _ & _ & _ & _ & _ & _ & Hg).
  exists [7]. split; [apply (queued_snoc transact s1 [] [] s1); [constructor|vm_compute; reflexivity]|].
  match type of Hg with context [match ?g with pair _ _ => _ end] => destruct g as [c' r'] eqn:Hrun end.
  exists c', r'. exact (conj eq_refl (proj1 (proj2 Hg))).
Defined.

(** ** What a switch leaves behind *)

(** After a successful switch the head of the fork database is not the head of the
    chain: [pop_block] also popped the fork database, whose head was on the new
    branch.  The block [x2] is the head and the fork database says [x1]. *)
Theorem switch_leaves_fork_head_behind :
  let '(c, r) := push_demo false branches_held x2 (chain_with x1) in
  r = Ok true ∧ (state c).1 = bid x2 ∧ (id <$> head_item (forks c)) = Some (bid x1).
Proof. vm_compute. auto. Qed.

(** After a failed switch the store answers the height of the head with a block of
    the branch that failed, and no longer has the head: the restored blocks were
    stored under the identifier of the pushed block. *)
Theorem failed_switch_loses_stored_head :
  let '(c, r) := push_demo false branches_held x3 (chain_with x1) in
  r = Throw assert_exception ∧ state c = s1 ∧
  BlockDb.fetch_optional demo_hash unpack (bid g1) (_block_id_to_block c) = None ∧
  BlockDb.fetch_by_number demo_hash unpack (num_from_id (bid g1)) (_block_id_to_block c) = Some x1.
Proof. vm_compute. auto. Qed.
