(* ===== verification/Authority.v ===== *)
(** * Authorities and signatures: libraries/chain/protocol/transaction.cpp

    An authority is a weighted set of keys, addresses and accounts with a
    threshold; [sign_state] decides whether the keys that signed a transaction
    satisfy it, following accounts down to a maximal depth.  Keys, accounts and
    addresses are numbers in the order of the code; a [flat_map] is the list of its
    entries in that order, a [flat_set] the set it holds.  The addresses of a key
    (hashes of it) and the authorities an operation requires are parameters. *)

From S2P Require Import Prelude.
From stdpp Require Import sorting.

Local Open Scope Z_scope.

Record authority := mk_authority {
  weight_threshold : Z;
  account_auths : list (Z * Z);
  key_auths : list (Z * Z);
  address_auths : list (Z * Z)
}.

#[export] Instance authority_eq_dec : EqDecision authority.
Proof. solve_decision. Defined.

Definition is_impossible (a : authority) : bool :=
  let sum (n : Z) (l : list (Z * Z)) := foldl (λ n p, to_uint 64 (n + p.2)) n l in
  sum (sum (sum 0 (account_auths a)) (key_auths a)) (address_auths a) <? weight_threshold a.

Definition get_keys (a : authority) : list Z := (key_auths a).*1.
Definition get_addresses (a : authority) : list Z := (address_auths a).*1.
Definition num_auths (a : authority) : Z :=
  to_uint 32 (Z.of_nat (length (account_auths a) + length (key_auths a) + length (address_auths a))).
Definition is_simple (a : authority) : bool :=
  (length (account_auths a) =? 0)%nat && (length (address_auths a) =? 0)%nat && (length (key_auths a) =? 1)%nat.
Definition add_authority_accounts (result : gset Z) (a : authority) : gset Z :=
  foldl (λ r p, {[p.1]} ∪ r) result (account_auths a).

Definition GRAPHENE_COMMITTEE_ACCOUNT : Z := 0.
Definition GRAPHENE_TEMP_ACCOUNT : Z := 4.
Definition GRAPHENE_MAX_SIG_CHECK_DEPTH : nat := 2.

(** The elements of a [flat_set] or [map], in order. *)
Definition ordered (X : gset Z) : list Z := merge_sort Z.le (elements X).

(** ** [sign_state] *)

Record sign_state := mk_sign_state {
  provided_signatures : gmap Z bool;
  approved_by : gset Z;
  available_address_sigs : option (gmap Z Z);
  provided_address_sigs : option (gmap Z Z)
}.

Definition set_provided p s :=
  mk_sign_state p (approved_by s) (available_address_sigs s) (provided_address_sigs s).
Definition set_approved a s :=
  mk_sign_state (provided_signatures s) a (available_address_sigs s) (provided_address_sigs s).
Definition set_address_sigs a p s := mk_sign_state (provided_signatures s) (approved_by s) (Some a) (Some p).

Section SignState.
(** The addresses of a key, in the order the code enters them. *)
Context (addresses : Z → list Z).
Context (get_active : Z → option authority) (available_keys : gset Z).

(** [provided_signatures[k] = true]. *)
Definition use_signature (k : Z) : M sign_state () :=
  modify_st (λ s, set_provided (<[k := true]> (provided_signatures s)) s).

Definition signed_by (k : Z) : M sign_state bool :=
  s ← get_st;
  match provided_signatures s !! k with
  | None => if decide (k ∈ available_keys) then use_signature k ;; mret true else mret false
  | Some _ => use_signature k ;; mret true
  end.

Definition enter_addresses (m : gmap Z Z) (k : Z) : gmap Z Z := foldl (λ m a, <[a := k]> m) m (addresses k).
Definition address_map (keys : gset Z) : gmap Z Z := foldl enter_addresses ∅ (ordered keys).

(** For an address of neither map the code dereferences the end of
    [provided_address_sigs]: undefined behaviour, modelled as an exception. *)
Definition signed_by_address (a : Z) : M sign_state bool :=
  s ← get_st;
  (match available_address_sigs s with
   | Some _ => mret ()
   | None => put_st (set_address_sigs (address_map available_keys) (address_map (dom (provided_signatures s))) s)
   end) ;;
  s ← get_st;
  match default ∅ (provided_address_sigs s) !! a with
  | Some k => use_signature k ;; mret true
  | None =>
      match default ∅ (available_address_sigs s) !! a with
      | Some k => if decide (k ∈ available_keys) then use_signature k ;; mret true else mret false
      | None => throw other_exception
      end
  end.

(** The three loops: the weights of the entries that are [ok], until the threshold
    is reached. *)
Fixpoint weigh (ok : Z → M sign_state bool) (threshold : Z) (l : list (Z * Z)) (total_weight : Z)
    : M sign_state (bool * Z) :=
  match l with
  | [] => mret (false, total_weight)
  | (x, w) :: l =>
      b ← ok x;
      if b : bool then
        let total_weight := to_uint 32 (total_weight + w) in
        if threshold <=? total_weight then mret (true, total_weight) else weigh ok threshold l total_weight
      else weigh ok threshold l total_weight
  end.

(** The entry of an account; [check] is missing at the maximal depth. *)
Definition account_ok (check : option (option authority → M sign_state bool)) (a : Z) : M sign_state bool :=
  s ← get_st;
  if decide (a ∈ approved_by s) then mret true else
  match check with
  | None => mret false
  | Some check =>
      b ← check (get_active a);
      if b : bool then modify_st (λ s, set_approved ({[a]} ∪ approved_by s) s) ;; mret true else mret false
  end.

Definition check_with (check : option (option authority → M sign_state bool)) (au : option authority)
    : M sign_state bool :=
  match au with
  | None => mret false
  | Some auth =>
      let threshold := weight_threshold auth in
      '(done, total) ← weigh signed_by threshold (key_auths auth) 0;
      if done : bool then mret true else
      '(done, total) ← weigh signed_by_address threshold (address_auths auth) total;
      if done : bool then mret true else
      '(done, total) ← weigh (account_ok check) threshold (account_auths auth) total;
      if done : bool then mret true else mret (threshold <=? total)
  end.

(** [check_authority( au, depth )] with [max_recursion - depth] levels left. *)
Fixpoint check_authority (levels : nat) (au : option authority) : M sign_state bool :=
  check_with (match levels with O => None | S levels => Some (check_authority levels) end) au.

(** [check_authority( id )]. *)
Definition check_account (max_recursion : nat) (a : Z) : M sign_state bool :=
  s ← get_st;
  if decide (a ∈ approved_by s) then mret true else check_authority max_recursion (get_active a).

Definition remove_unused_signatures : M sign_state bool :=
  s ← get_st;
  let remove_sigs := filter (λ p, p.2 = false) (provided_signatures s) in
  put_st (set_provided (filter (λ p, p.2 ≠ false) (provided_signatures s)) s) ;;
  mret (negb (bool_decide (remove_sigs = ∅))).

(** The constructor of [sign_state]. *)
Definition new_sign_state (sigs : gset Z) : sign_state :=
  mk_sign_state (gset_to_gmap false sigs) {[GRAPHENE_TEMP_ACCOUNT]} None None.
End SignState.

(** ** Verification *)

Definition required_authorities : Type := gset Z * gset Z * list authority.

Section Verify.
Context (addresses : Z → list Z) (get_active get_owner : Z → option authority).

(** What an operation makes of the required authorities (active, owner, other) that those
    before it have left: the visitor has the three containers by reference. *)
Context {Op : Type} (operation_get_required_authorities : Op → required_authorities → required_authorities).

Definition required_by (ops : list Op) : required_authorities :=
  foldl (λ r op, operation_get_required_authorities op r) (∅, ∅, []) ops.

(** [transaction::get_required_authorities]. *)
Definition get_required_authorities (ops : list Op) : required_authorities :=
  let '(active, owner, other) := required_by ops in (active ∖ owner, owner, other).

(** [a || b]. *)
Definition orelse {S} (a b : M S bool) : M S bool := x ← a; if x : bool then mret true else b.

Definition assert_auth (e : exn) (m : M sign_state bool) : M sign_state () :=
  b ← m; lift (GRAPHENE_ASSERT b e).

(** [verify_authority], after the check of the committee account. *)
Definition verify_required (max_recursion : nat) (owner_approvals : gset Z)
    (required : required_authorities) : M sign_state () :=
  let '(required_active, required_owner, other) := required in
  let check := check_authority addresses get_active ∅ max_recursion in
  mapM_ (λ auth, assert_auth tx_missing_other_auth (check (Some auth))) other ;;
  mapM_ (λ a, assert_auth tx_missing_active_auth
    (orelse (check_account addresses get_active ∅ max_recursion a) (check (get_owner a)))) (ordered required_active) ;;
  mapM_ (λ a, assert_auth tx_missing_owner_auth
    (if decide (a ∈ owner_approvals) then mret true else check (get_owner a))) (ordered required_owner) ;;
  b ← remove_unused_signatures;
  lift (GRAPHENE_ASSERT (negb b) tx_irrelevant_sig).

Definition verify_authority (ops : list Op) (sigs : gset Z) (max_recursion_depth : nat) (allow_committe : bool)
    (active_aprovals owner_approvals : gset Z) : result () :=
  let required := required_by ops in
  (if allow_committe then Ok ()
   else GRAPHENE_ASSERT (bool_decide (GRAPHENE_COMMITTEE_ACCOUNT ∉ required.1.1)) invalid_committee_approval) ;;
  let s := new_sign_state sigs in
  let s := set_approved (owner_approvals ∪ (active_aprovals ∪ approved_by s)) s in
  '(_, _) ← verify_required max_recursion_depth owner_approvals required s;
  mret ().

(** [get_signature_keys]: the keys recovered from the signatures. *)
Fixpoint get_signature_keys (recovered : list Z) (result : gset Z) : Prelude.result (gset Z) :=
  match recovered with
  | [] => Ok result
  | k :: l =>
      GRAPHENE_ASSERT (bool_decide (k ∉ result)) tx_duplicate_sig ;;
      get_signature_keys l ({[k]} ∪ result)
  end.

(** [get_required_signatures], given the signature keys. *)
Definition get_required_signatures (ops : list Op) (signature_keys available_keys : gset Z) (max_recursion : nat)
    : result (gset Z) :=
  let '(required_active, required_owner, other) := get_required_authorities ops in
  let check := check_authority addresses get_active available_keys max_recursion in
  '(_, s) ← (mapM_ (λ auth, check (Some auth) ;; mret ()) other ;;
    mapM_ (λ a, check (get_owner a) ;; mret ()) (ordered required_owner) ;;
    mapM_ (λ a, orelse (check_account addresses get_active available_keys max_recursion a) (check (get_owner a)) ;;
      mret ()) (ordered required_active) ;;
    remove_unused_signatures) (new_sign_state signature_keys);
  mret (filter (λ k, k ∈ available_keys ∧ k ∉ signature_keys) (dom (provided_signatures s))).

(** The loop of [minimize_required_signatures]: the exceptions it catches. *)
Definition missing (e : exn) : bool :=
  match e with
  | tx_missing_owner_auth | tx_missing_active_auth | tx_missing_other_auth => true
  | _ => false
  end.

Fixpoint minimize (ops : list Op) (max_recursion : nat) (s : list Z) (result : gset Z) : Prelude.result (gset Z) :=
  match s with
  | [] => Ok result
  | k :: s =>
      match verify_authority ops (result ∖ {[k]}) max_recursion false ∅ ∅ with
      | Ok _ => minimize ops max_recursion s (result ∖ {[k]})
      | Throw e => if missing e then minimize ops max_recursion s ({[k]} ∪ result ∖ {[k]}) else Throw e
      end
  end.

Definition minimize_required_signatures (ops : list Op) (signature_keys available_keys : gset Z)
    (max_recursion : nat) : result (gset Z) :=
  s ← get_required_signatures ops signature_keys available_keys max_recursion;
  minimize ops max_recursion (ordered s) s.
End Verify.

(** ** The reference: which authorities hold *)

(** The weight of the entries that are [ok]. *)
Definition weight_of (ok : Z → bool) (l : list (Z * Z)) : Z :=
  foldr (λ p n, (if ok p.1 then p.2 else 0) + n) 0 l.

Section Reference.
Context (addresses : Z → list Z) (get_active : Z → option authority).
(** The keys that signed or can sign, and the accounts that approve. *)
Context (keys approved : gset Z).

Definition known_addresses : gset Z := list_to_set (elements keys ≫= addresses).

Definition account_holds (holds : option (authority → bool)) (a : Z) : bool :=
  bool_decide (a ∈ approved) ||
  match holds, get_active a with Some holds, Some au => holds au | _, _ => false end.

Definition holds_with (holds : option (authority → bool)) (au : authority) : bool :=
  weight_threshold au <=?
    weight_of (λ k, bool_decide (k ∈ keys)) (key_auths au)
    + weight_of (λ a, bool_decide (a ∈ known_addresses)) (address_auths au)
    + weight_of (account_holds holds) (account_auths au).

(** The signatures satisfy [au], through accounts [n] levels deep. *)
Fixpoint holds (n : nat) (au : authority) : bool :=
  holds_with (match n with O => None | S n => Some (holds n) end) au.

Definition all_weight (l : list (Z * Z)) : Z := weight_of (λ _, true) l.

(** Weights are 16-bit in the code: their sum fits 32 bits; and every address is
    one of a key that signed or can sign. *)
Definition auth_ok (au : authority) : Prop :=
  Forall (λ p, 0 ≤ p.2) (key_auths au) ∧ Forall (λ p, 0 ≤ p.2) (address_auths au) ∧
  Forall (λ p, 0 ≤ p.2) (account_auths au) ∧
  all_weight (key_auths au) + all_weight (address_auths au) + all_weight (account_auths au) < 2 ^ 32 ∧
  Forall (λ p, p.1 ∈ known_addresses) (address_auths au).

Lemma weight_of_mono f g l :
  Forall (λ p, 0 ≤ p.2) l → (∀ x, f x = true → g x = true) → 0 ≤ weight_of f l ≤ weight_of g l.
Proof.
  intros Hl Hfg. induction Hl as [|[x w] l Hw _ IH]; cbn in *; [done|].
  fold (weight_of f l) (weight_of g l). specialize (Hfg x). destruct (f x), (g x); lia.
Qed.

Lemma weight_of_all f l : Forall (λ p, 0 ≤ p.2) l → 0 ≤ weight_of f l ≤ all_weight l.
Proof. intros Hl. by apply weight_of_mono. Qed.

Lemma holds_with_mono h1 h2 au :
  auth_ok au → (∀ a, account_holds h1 a = true → account_holds h2 a = true) →
  holds_with h1 au = true → holds_with h2 au = true.
Proof.
  intros (_ & _ & Hacc & _) Hh. unfold holds_with. rewrite !Z.leb_le. intros Hle.
  pose proof (weight_of_mono _ _ _ Hacc Hh). lia.
Qed.

(** A higher depth satisfies more. *)
Lemma holds_mono n m au :
  (∀ a x, get_active a = Some x → auth_ok x) → auth_ok au → (n ≤ m)%nat → holds n au = true → holds m au = true.
Proof.
  intros Hall. revert m au. induction n as [|n IH]; intros m au Hok Hnm; destruct m as [|m]; [done| |lia|];
    apply holds_with_mono; try done; intros a; unfold account_holds;
    destruct (bool_decide _); cbn; try done; destruct (get_active a) as [x|] eqn:Hx; try done.
  apply IH; [by eapply Hall|lia].
Qed.
End Reference.

(** ** [check_authority] against the reference *)

Section Check.
Context (addresses : Z → list Z) (get_active : Z → option authority).
Context (sigs available approved : gset Z).
Context (Hauths : ∀ a x, get_active a = Some x → auth_ok addresses (sigs ∪ available) x).

Abbreviation keys := (sigs ∪ available).
Abbreviation known := (known_addresses addresses keys).
Abbreviation Holds := (holds addresses get_active keys approved).

(** What the state keeps: the signatures recorded are of the keys, the accounts
    approved hold, and the address maps know the addresses of the keys. *)
Record state_ok (s : sign_state) : Prop := {
  st_provided : sigs ⊆ dom (provided_signatures s) ∧ dom (provided_signatures s) ⊆ keys;
  st_approved : approved ⊆ approved_by s;
  st_holds a : a ∈ approved_by s → a ∈ approved ∨ ∃ n au, get_active a = Some au ∧ Holds n au = true;
  st_maps : match available_address_sigs s, provided_address_sigs s with
    | None, None => True
    | Some am, Some pm =>
        (∀ a k, pm !! a = Some k → k ∈ keys) ∧
        ∀ a, a ∈ known → is_Some (pm !! a) ∨ ∃ k, am !! a = Some k ∧ k ∈ available
    | _, _ => False
    end
}.

Lemma use_signature_ok k s :
  state_ok s → k ∈ keys → state_ok (set_provided (<[k := true]> (provided_signatures s)) s).
Proof.
  intros [[Hs Hd] Ha Hh Hm] Hk. constructor; cbn; [rewrite dom_insert; set_solver|done..].
Qed.

Lemma signed_by_ok k s :
  state_ok s → ∃ b s', signed_by available k s = Ok (b, s') ∧ state_ok s' ∧ b = bool_decide (k ∈ keys).
Proof.
  intros Hok. pose proof (st_provided _ Hok) as [Hs Hd]. unfold signed_by. run_e. unfold use_signature. run_e.
  destruct (provided_signatures s !! k) as [u|] eqn:Hk.
  - apply elem_of_dom_2 in Hk. exists true. eexists. split; [done|].
    split; [apply use_signature_ok; set_solver|]. symmetry. apply bool_decide_eq_true. set_solver.
  - apply not_elem_of_dom in Hk. case_decide as Ha.
    + exists true. eexists. split; [done|]. split; [apply use_signature_ok; set_solver|].
      symmetry. apply bool_decide_eq_true. set_solver.
    + exists false. eexists. split; [done|]. split; [done|]. symmetry. apply bool_decide_eq_false. set_solver.
Qed.

Lemma enter_addresses_lookup k (m : gmap Z Z) a :
  enter_addresses addresses m k !! a = if decide (a ∈ addresses k) then Some k else m !! a.
Proof.
  unfold enter_addresses. revert m. induction (addresses k) as [|x l IH]; intros m; cbn; [done|].
  rewrite IH. destruct (decide (a ∈ l)) as [Hl|Hl].
  - rewrite decide_True by set_solver. done.
  - destruct (decide (a = x)) as [->|Hx].
    + rewrite lookup_insert_eq, decide_True by set_solver. done.
    + rewrite lookup_insert_ne, decide_False by set_solver. done.
Qed.

Lemma ordered_elem X k : k ∈ ordered X ↔ k ∈ X.
Proof. unfold ordered. by rewrite merge_sort_Permutation, elem_of_elements. Qed.

(** The map of addresses has the addresses of the keys, and only keys. *)
Lemma address_map_spec X a :
  (∀ k, address_map addresses X !! a = Some k → k ∈ X) ∧
  (∀ k, k ∈ X → a ∈ addresses k → is_Some (address_map addresses X !! a)).
Proof.
  unfold address_map. setoid_rewrite <- ordered_elem.
  assert (∀ l m, (∀ k, foldl (enter_addresses addresses) m l !! a = Some k → k ∈ l ∨ m !! a = Some k) ∧
    (is_Some (m !! a) → is_Some (foldl (enter_addresses addresses) m l !! a)) ∧
    (∀ k, k ∈ l → a ∈ addresses k → is_Some (foldl (enter_addresses addresses) m l !! a))) as Hgen.
  { induction l as [|x l IH]; intros m; cbn; [set_solver|]. destruct (IH (enter_addresses addresses m x)) as (H1 & H2 & H3).
    rewrite enter_addresses_lookup in H1, H2. split_and!.
    - intros k Hk. destruct (H1 k Hk) as [|Hx]; [set_solver|]. case_decide; [set_solver|by right].
    - intros Hm. apply H2. by case_decide.
    - intros k [->|Hk]%elem_of_cons Ha; [|by apply (H3 k)]. apply H2. by rewrite decide_True. }
  destruct (Hgen (ordered X) ∅) as (H1 & _ & H3). split; [|done].
  intros k Hk. destruct (H1 k Hk) as [|Hx]; [done|]. by rewrite lookup_empty in Hx.
Qed.

Lemma known_addresses_spec a : a ∈ known ↔ ∃ k, k ∈ keys ∧ a ∈ addresses k.
Proof.
  unfold known_addresses. rewrite elem_of_list_to_set, list_elem_of_bind.
  setoid_rewrite elem_of_elements. naive_solver.
Qed.

Lemma signed_by_address_ok a s :
  state_ok s → a ∈ known →
  ∃ s', signed_by_address addresses available a s = Ok (true, s') ∧ state_ok s'.
Proof.
  intros Hok Ha.
  assert (∃ s1 am pm, (s2 ← get_st;
    match available_address_sigs s2 with
    | Some _ => mret ()
    | None => put_st (set_address_sigs (address_map addresses available)
                (address_map addresses (dom (provided_signatures s2))) s2)
    end) s = Ok ((), s1) ∧ state_ok s1 ∧ available_address_sigs s1 = Some am ∧ provided_address_sigs s1 = Some pm)
    as (s1 & am & pm & Hrun & Hok1 & Ham & Hpm).
  { run_e. pose proof (st_maps _ Hok) as Hm.
    destruct (available_address_sigs s) as [am|] eqn:Ham, (provided_address_sigs s) as [pm|] eqn:Hpm; try done.
    - by exists s, am, pm.
    - eexists _, _, _. split; [done|]. split; [|done]. destruct Hok as [[Hs Hd] Hap Hh _]. constructor; cbn; try done.
      split.
      + intros b k Hk. apply address_map_spec in Hk. set_solver.
      + intros b (k & Hk & Hb)%known_addresses_spec. apply elem_of_union in Hk as [Hk|Hk].
        * left. eapply address_map_spec; [|exact Hb]. set_solver.
        * right. destruct (proj2 (address_map_spec available b) k Hk Hb) as [k' Hk']. exists k'.
          split; [done|]. by apply address_map_spec in Hk'. }
  unfold signed_by_address. unfold mbind at 1, M_bind at 1. cbn [get_st].
  unfold mbind at 1, M_bind at 1. run_e. revert Hrun. run_e. intros ->.
  unfold use_signature. run_e. rewrite Hpm, Ham. cbn [default from_option].
  pose proof (st_maps _ Hok1) as Hm. rewrite Ham, Hpm in Hm. destruct Hm as [Hv Hk].
  destruct (pm !! a) as [k|] eqn:Hpa; cbn.
  - rewrite Hpa. eexists. split; [done|]. apply use_signature_ok; [done|]. by eapply Hv.
  - destruct (Hk a Ha) as [[? ?]|(k & Hak & Hka)]; [congruence|]. rewrite Hpa, Hak, decide_True by done.
    eexists. split; [done|]. apply use_signature_ok; [done|]. set_solver.
Qed.

(** *** The loops *)

(** An entry that must count is [lo], one that counts is [up] at some depth. *)
Lemma weigh_spec (ok : Z → M sign_state bool) (lo : Z → bool) (up : nat → Z → bool) thr l :
  (∀ n m x, (n ≤ m)%nat → up n x = true → up m x = true) →
  Forall (λ p, 0 ≤ p.2) l →
  (∀ x s, x ∈ l.*1 → state_ok s → ∃ b s', ok x s = Ok (b, s') ∧ state_ok s' ∧
     (lo x = true → b = true) ∧ (b = true → ∃ n, up n x = true)) →
  ∀ total s, 0 ≤ total → total + all_weight l < 2 ^ 32 → state_ok s →
    ∃ d t n s', weigh ok thr l total s = Ok ((d, t), s') ∧ state_ok s' ∧
      0 ≤ t ≤ total + weight_of (up n) l ∧
      (if d : bool then thr ≤ t else total + weight_of lo l ≤ t).
Proof.
  intros Hup Hw. induction Hw as [|[x w] l Hx Hw IH]; intros Hok total s Ht Hmax Hs.
  { exists false, total, 0%nat, s. cbn. split; [done|]. split; [done|]. lia. }
  destruct (Hok x s) as (b & s1 & Hrun & Hs1 & Hlo & Hhi); [by left|done|].
  assert (∀ y s, y ∈ l.*1 → state_ok s → ∃ b s', ok y s = Ok (b, s') ∧ state_ok s' ∧
     (lo y = true → b = true) ∧ (b = true → ∃ n, up n y = true)) as Hok' by (intros; apply Hok; [by right|done]).
  cbn [weigh]. unfold mbind, M_bind. rewrite Hrun. cbn in Hx, Hmax. fold (all_weight l) in Hmax.
  fold (weight_of (λ _ : Z, true) l) in Hmax. fold (all_weight l) in Hmax.
  assert (0 ≤ all_weight l) as Hall by (apply (weight_of_all (λ _, true)); done).
  assert (∀ f, weight_of f ((x, w) :: l) = (if f x then w else 0) + weight_of f l) as Hcons by done.
  destruct b.
  - destruct (Hhi eq_refl) as [n1 Hn1]. rewrite to_uint_id by (unfold uint; lia).
    destruct (Z.leb_spec thr (total + w)) as [Hle|Hlt].
    + exists true, (total + w), n1, s1. split; [done|]. split; [done|]. split; [|done]. rewrite Hcons, Hn1.
      pose proof (weight_of_all (up n1) l Hw). lia.
    + destruct (IH Hok' (total + w) s1) as (d & t & n & s' & Hrun' & Hs' & Ht' & Hd); [lia|lia|done|].
      exists d, t, (Nat.max n n1), s'. split; [done|]. split; [done|].
      assert (weight_of (up n) l ≤ weight_of (up (Nat.max n n1)) l) as Hm.
      { apply weight_of_mono; [done|]. intros y. apply Hup. lia. }
      rewrite !Hcons, (Hup n1 _ x) by (lia || done). split; [lia|].
      destruct d; [done|]. destruct (lo x); lia.
  - destruct (IH Hok' total s1) as (d & t & n & s' & Hrun' & Hs' & Ht' & Hd); [lia|lia|done|].
    exists d, t, n, s'. split; [done|]. split; [done|]. rewrite !Hcons. split; [destruct (up n x); lia|].
    destruct d; [done|]. destruct (lo x) eqn:Hlox; [by specialize (Hlo eq_refl)|lia].
Qed.

(** *** The recursion *)

Lemma account_holds_mono n m a :
  (n ≤ m)%nat → account_holds get_active approved (Some (Holds n)) a = true →
  account_holds get_active approved (Some (Holds m)) a = true.
Proof.
  intros Hnm. unfold account_holds. destruct (bool_decide _); [done|]. cbn.
  destruct (get_active a) as [x|] eqn:Hx; [|done]. apply holds_mono; [exact Hauths|by eapply Hauths|done].
Qed.

Lemma account_ok_spec (levels : nat) a s :
  (∀ m, S m = levels → ∀ au s, auth_ok addresses keys au → state_ok s →
     ∃ b s', check_authority addresses get_active available m (Some au) s = Ok (b, s') ∧ state_ok s' ∧
       (Holds m au = true → b = true) ∧ (b = true → ∃ n, Holds n au = true)) →
  state_ok s →
  let check := match levels with O => None | S m => Some (check_authority addresses get_active available m) end in
  let lower := match levels with O => None | S m => Some (Holds m) end in
  ∃ b s', account_ok get_active check a s = Ok (b, s') ∧ state_ok s' ∧
    (account_holds get_active approved lower a = true → b = true) ∧
    (b = true → ∃ n, account_holds get_active approved (Some (Holds n)) a = true).
Proof.
  intros Hrec Hs check lower. unfold account_ok, account_holds. run_e. case_decide as Ha.
  - exists true, s. split; [done|]. split; [done|]. split; [done|]. intros _.
    destruct (st_holds _ Hs a Ha) as [Hap|(n & au & Hau & Hn)].
    + exists 0%nat. by rewrite bool_decide_eq_true_2.
    + exists n. by rewrite Hau, Hn, orb_true_r.
  - assert (a ∉ approved) as Hna by (intros ?; apply Ha; by apply (st_approved _ Hs)).
    rewrite bool_decide_eq_false_2 by done. cbn [orb]. destruct levels as [|m]; cbn [check lower].
    + by exists false, s.
    + destruct (get_active a) as [au|] eqn:Hau.
      * destruct (Hrec m eq_refl au s (Hauths a au Hau) Hs) as (b & s' & Hrun & Hs' & Hlo & Hhi).
        rewrite Hrun. destruct b.
        -- exists true. eexists. split; [done|]. split; [|split; [done|exact Hhi]].
           destruct Hs' as [Hp Hap Hh Hm]. constructor; cbn; [done|set_solver| |done].
           intros y [->%elem_of_singleton|Hy]%elem_of_union; [|by apply Hh]. right.
           destruct (Hhi eq_refl) as [n Hn]. by exists n, au.
        -- exists false, s'. split; [done|]. split; [done|]. split; [done|discriminate].
      * exists false, s. split; [by destruct m|]. split; [done|]. split; [done|discriminate].
Qed.

Lemma check_authority_spec levels au s :
  auth_ok addresses keys au → state_ok s →
  ∃ b s', check_authority addresses get_active available levels (Some au) s = Ok (b, s') ∧ state_ok s' ∧
    (Holds levels au = true → b = true) ∧ (b = true → ∃ n, Holds n au = true).
Proof.
  revert au s. induction levels as [levels IH] using lt_wf_ind. intros au s Hau Hs.
  pose proof Hau as (Hk & Haddr & Hacc & Hsum & Hknown).
  set (check := match levels with O => None | S m => Some (check_authority addresses get_active available m) end).
  set (lower := match levels with O => None | S m => Some (Holds m) end).
  assert (check_authority addresses get_active available levels (Some au) = check_with addresses get_active available check (Some au)) as ->
    by (destruct levels; done).
  assert (∀ n, Holds n au = holds_with addresses get_active keys approved (match n with O => None | S m => Some (Holds m) end) au)
    as Hfix by (intros []; done).
  set (kf := λ k, bool_decide (k ∈ keys)). set (af := λ a, bool_decide (a ∈ known)).
  assert (Holds levels au = true → weight_threshold au ≤ weight_of kf (key_auths au) + weight_of af (address_auths au)
      + weight_of (account_holds get_active approved lower) (account_auths au)) as Hlev.
  { rewrite (Hfix levels). unfold holds_with. by intros ?%Z.leb_le. }
  pose proof (weight_of_all kf _ Hk) as Hkw. pose proof (weight_of_all af _ Haddr) as Haw.
  pose proof (weight_of_all (λ _, true) _ Hacc) as Hcw. fold (all_weight (account_auths au)) in Hcw.
  assert (∀ b, (b = true → ∃ n, weight_threshold au ≤ weight_of kf (key_auths au) + weight_of af (address_auths au)
      + weight_of (account_holds get_active approved (Some (Holds n))) (account_auths au)) → b = true → ∃ n, Holds n au = true) as Hgoal.
  { intros b Hb Hbt. destruct (Hb Hbt) as [n Hn]. exists (S n). rewrite Hfix. unfold holds_with. by apply Z.leb_le. }
  cbn [check_with]. unfold mbind, M_bind.
  destruct (weigh_spec (signed_by available) kf (λ _, kf) (weight_threshold au) (key_auths au) ltac:(auto) Hk)
    with (total := 0) (s := s) as (d1 & t1 & n1 & s1 & -> & Hs1 & Ht1 & Hd1); [|lia|lia|done|].
  { intros k s0 _ Hs0. destruct (signed_by_ok k s0 Hs0) as (b & s' & Hb & Hs' & ->). eexists _, s'.
    split; [exact Hb|]. split; [done|]. split; [done|]. intros ?. by exists 0%nat. }
  destruct d1.
  { exists true, s1. split; [done|]. split; [done|]. split; [done|]. apply (Hgoal true). intros _. exists 0%nat.
    pose proof (weight_of_all (account_holds get_active approved (Some (Holds 0))) _ Hacc). lia. }
  destruct (weigh_spec (signed_by_address addresses available) af (λ _, af) (weight_threshold au) (address_auths au) ltac:(auto) Haddr)
    with (total := t1) (s := s1) as (d2 & t2 & n2 & s2 & -> & Hs2 & Ht2 & Hd2); [|lia|lia|done|].
  { intros a s0 Ha Hs0. apply list_elem_of_fmap in Ha as (p & -> & Hp). rewrite Forall_forall in Hknown.
    destruct (signed_by_address_ok p.1 s0 Hs0 (Hknown p Hp)) as (s' & Hb & Hs'). exists true, s'.
    split; [exact Hb|]. split; [done|]. split; [done|]. intros _. exists 0%nat. by apply bool_decide_eq_true_2, Hknown. }
  destruct d2.
  { exists true, s2. split; [done|]. split; [done|]. split; [done|]. apply (Hgoal true). intros _. exists 0%nat.
    pose proof (weight_of_all (account_holds get_active approved (Some (Holds 0))) _ Hacc). lia. }
  destruct (weigh_spec (account_ok get_active check) (account_holds get_active approved lower)
      (λ n, account_holds get_active approved (Some (Holds n))) (weight_threshold au) (account_auths au))
    with (total := t2) (s := s2) as (d3 & t3 & n3 & s3 & -> & Hs3 & Ht3 & Hd3);
    [by intros n m x; apply account_holds_mono|done| |lia|lia|done|].
  { intros a s0 _ Hs0. apply account_ok_spec; [|done]. intros m <-. apply IH. lia. }
  destruct d3.
  - exists true, s3. split; [done|]. split; [done|]. split; [done|]. apply Hgoal. intros _. exists n3. lia.
  - eexists _, s3. split; [reflexivity|]. split; [done|]. split; [intros Hl%Hlev; apply Z.leb_le; lia|].
    apply Hgoal. intros Hle%Z.leb_le. exists n3. lia.
Qed.
End Check.

(** ** [verify_authority] against the reference *)

(** What the requirements ask, when the authorities of [H] hold. *)
Definition authorised (get_active get_owner : Z → option authority) (H : authority → Prop)
    (approved owner_approvals : gset Z) (required : required_authorities) : Prop :=
  let '(required_active, required_owner, other) := required in
  let granted (get : Z → option authority) a := ∃ au, get a = Some au ∧ H au in
  (∀ au, au ∈ other → H au) ∧
  (∀ a, a ∈ required_active → a ∈ approved ∨ granted get_active a ∨ granted get_owner a) ∧
  (∀ a, a ∈ required_owner → a ∈ owner_approvals ∨ granted get_owner a).

Section VerifySpec.
Context (addresses : Z → list Z) (get_active : Z → option authority).
Context (sigs available approved : gset Z).
Context (Hactive : ∀ a x, get_active a = Some x → auth_ok addresses (sigs ∪ available) x).

Abbreviation Ok_state := (state_ok addresses get_active sigs available approved).
Abbreviation Holds := (holds addresses get_active (sigs ∪ available) approved).
Abbreviation check := (check_authority addresses get_active available).

Lemma new_sign_state_ok (a : gset Z) :
  a = approved → {[GRAPHENE_TEMP_ACCOUNT]} ⊆ a → Ok_state (set_approved a (new_sign_state sigs)).
Proof.
  intros -> _. constructor; cbn; [|done|by left|done]. rewrite dom_gset_to_gmap. set_solver.
Qed.

(** A check: [lo] must pass, and what passes is [up]. *)
Definition passes (m : M sign_state bool) (lo up : Prop) : Prop :=
  ∀ s, Ok_state s → ∃ b s', m s = Ok (b, s') ∧ Ok_state s' ∧ (lo → b = true) ∧ (b = true → up).

Lemma check_passes n (au : option authority) :
  (∀ x, au = Some x → auth_ok addresses (sigs ∪ available) x) →
  passes (check n au) (∃ x, au = Some x ∧ Holds n x = true) (∃ x, au = Some x ∧ ∃ m, Holds m x = true).
Proof.
  intros Hau s Hs. destruct au as [x|].
  - destruct (check_authority_spec addresses get_active sigs available approved Hactive n x s (Hau x eq_refl) Hs)
      as (b & s' & Hrun & Hs' & Hlo & Hhi). exists b, s'. split; [done|]. split; [done|].
    split; [by intros (? & [= <-] & ?); auto|]. intros Hb. exists x. auto.
  - exists false, s. split; [by destruct n|]. split; [done|]. split; [by intros (? & ? & _)|done].
Qed.

Lemma orelse_passes m1 m2 (lo1 up1 lo2 up2 : Prop) :
  passes m1 lo1 up1 → passes m2 lo2 up2 → passes (orelse m1 m2) (lo1 ∨ lo2) (up1 ∨ up2).
Proof.
  intros H1 H2 s Hs. destruct (H1 s Hs) as (b1 & s1 & Hr1 & Hs1 & Hl1 & Hu1). unfold orelse, mbind, M_bind. rewrite Hr1.
  destruct b1; [exists true, s1; split; [done|]; auto|].
  destruct (H2 s1 Hs1) as (b2 & s2 & Hr2 & Hs2 & Hl2 & Hu2). exists b2, s2. split; [done|]. split; [done|].
  split; [|auto]. intros [Hx|Hx]; [by specialize (Hl1 Hx)|auto].
Qed.

Lemma check_account_passes n a :
  passes (check_account addresses get_active available n a)
    (a ∈ approved ∨ ∃ x, get_active a = Some x ∧ Holds n x = true)
    (a ∈ approved ∨ ∃ x, get_active a = Some x ∧ ∃ m, Holds m x = true).
Proof.
  intros s Hs. unfold check_account. run_e. case_decide as Ha.
  - exists true, s. split; [done|]. split; [done|]. split; [done|]. intros _.
    destruct (st_holds _ _ _ _ _ _ Hs a Ha) as [?|(m & x & Hx & Hm)]; eauto.
  - destruct (check_passes n (get_active a) (Hactive a) s Hs) as (b & s' & Hrun & Hs' & Hlo & Hhi).
    exists b, s'. split; [exact Hrun|]. split; [done|]. split; [|auto].
    intros [Hin|Hx]; [by destruct (Ha (st_approved _ _ _ _ _ _ Hs _ Hin))|auto].
Qed.

Lemma owner_passes (owner_approvals : gset Z) n a (au : option authority) :
  (∀ x, au = Some x → auth_ok addresses (sigs ∪ available) x) →
  passes (if decide (a ∈ owner_approvals) then mret true else check n au)
    (a ∈ owner_approvals ∨ ∃ x, au = Some x ∧ Holds n x = true)
    (a ∈ owner_approvals ∨ ∃ x, au = Some x ∧ ∃ m, Holds m x = true).
Proof.
  intros Hau s Hst. destruct (decide _) as [Hin|Hin]; [exists true, s; split; [done|]; auto|].
  destruct (check_passes n au Hau s Hst) as (b & s' & Hrun & Hs' & Hlo & Hhi). exists b, s'.
  split; [done|]. split; [done|]. split; [|auto]. by intros [?|?]; [|auto].
Qed.

Lemma assert_all_spec {X} (f : X → M sign_state bool) e (lo up : X → Prop) l s :
  (∀ x, x ∈ l → passes (f x) (lo x) (up x)) → Ok_state s →
  match mapM_ (λ x, assert_auth e (f x)) l s with
  | Ok (_, s') => Ok_state s' ∧ ∀ x, x ∈ l → up x
  | Throw e' => e' = e ∧ ∃ x, x ∈ l ∧ ¬ lo x
  end.
Proof.
  revert s. induction l as [|x l IH]; intros s Hf Hs; cbn [mapM_]; [split; [done|set_solver]|].
  destruct (Hf x (list_elem_of_here _ _) s Hs) as (b & s1 & Hrun & Hs1 & Hlo & Hhi).
  assert (assert_auth e (f x) s = match GRAPHENE_ASSERT b e with Ok u => Ok (u, s1) | Throw e => Throw e end) as Ha.
  { unfold assert_auth, mbind, M_bind, lift. by rewrite Hrun. }
  unfold mbind, M_bind. rewrite Ha. destruct b; cbn [GRAPHENE_ASSERT].
  - specialize (IH s1 (λ y Hy, Hf y (proj2 (elem_of_cons l y x) (or_intror Hy))) Hs1).
    destruct (mapM_ _ l s1) as [[u s']|e']; [|destruct IH as (? & y & ? & ?); split; [done|]; exists y; split; [by right|done]].
    destruct IH as [Hs' Hall]. split; [done|]. intros y [->|Hy]%elem_of_cons; auto.
  - split; [done|]. exists x. split; [by left|]. intros Hx. by specialize (Hlo Hx).
Qed.
End VerifySpec.

(** The three loops of [verify_authority]. *)
Lemma verify_required_spec addresses get_active get_owner sigs approved depth owner_approvals required s :
  (∀ a x, get_active a = Some x → auth_ok addresses (sigs ∪ ∅) x) →
  (∀ a x, get_owner a = Some x → auth_ok addresses (sigs ∪ ∅) x) →
  (∀ x, x ∈ required.2 → auth_ok addresses (sigs ∪ ∅) x) →
  state_ok addresses get_active sigs ∅ approved s →
  let satisfied n au := holds addresses get_active (sigs ∪ ∅) approved n au = true in
  let granted H := authorised get_active get_owner H approved owner_approvals required in
  match verify_required addresses get_active get_owner depth owner_approvals required s with
  | Ok _ => granted (λ au, ∃ n, satisfied n au)
  | Throw e => (missing e = true ∧ ¬ granted (satisfied depth)) ∨
      (e = tx_irrelevant_sig ∧ granted (λ au, ∃ n, satisfied n au))
  end.
Proof.
  intros Hact Hown Hoth Hs satisfied granted. destruct required as [[active owner] other]. cbn in Hoth.
  unfold verify_required. unfold mbind, M_bind.
  pose proof (assert_all_spec addresses get_active sigs ∅ approved Hact
    (λ x : authority, check_authority addresses get_active ∅ depth (Some x)) tx_missing_other_auth
    _ _ other _ (λ x Hx, check_passes addresses get_active sigs ∅ approved Hact depth (Some x)
       ltac:(intros y [= <-]; by apply Hoth)) Hs) as H1.
  destruct (mapM_ _ other _) as [[[] s1]|e]; cycle 1.
  { destruct H1 as (-> & x & Hx & Hno). left. split; [done|]. intros (Hall & _). apply Hno. exists x.
    exact (conj eq_refl (Hall x Hx)). }
  destruct H1 as [Hs1 Hother].
  pose proof (assert_all_spec addresses get_active sigs ∅ approved Hact _ tx_missing_active_auth _ _ (ordered active) s1
    (λ a _, orelse_passes addresses get_active sigs ∅ approved _ _ _ _ _ _
      (check_account_passes addresses get_active sigs ∅ approved Hact depth a)
      (check_passes addresses get_active sigs ∅ approved Hact depth (get_owner a) (Hown a))) Hs1) as H2.
  destruct (mapM_ _ (ordered active) _) as [[[] s2]|e]; cycle 1.
  { destruct H2 as (-> & a & Ha%ordered_elem & Hno). left. split; [done|]. intros (_ & Hall & _). apply Hno.
    apply or_assoc. exact (Hall a Ha). }
  destruct H2 as [Hs2 Hactive].
  pose proof (assert_all_spec addresses get_active sigs ∅ approved Hact _ tx_missing_owner_auth _ _ (ordered owner) s2
    (λ a _, owner_passes addresses get_active sigs ∅ approved Hact owner_approvals depth a (get_owner a) (Hown a)) Hs2) as H3.
  destruct (mapM_ _ (ordered owner) _) as [[[] s3]|e]; cycle 1.
  { destruct H3 as (-> & a & Ha%ordered_elem & Hno). left. split; [done|]. intros (_ & _ & Hall). apply Hno.
    exact (Hall a Ha). }
  destruct H3 as [Hs3 Howner].
  assert (granted (λ au, ∃ n, satisfied n au)) as Hgranted.
  { split_and!.
    - intros au Hau. by destruct (Hother au Hau) as (x & [= <-] & Hx).
    - intros a Ha%ordered_elem. apply or_assoc, (Hactive a Ha).
    - intros a Ha%ordered_elem. exact (Howner a Ha). }
  unfold remove_unused_signatures. run_e. destruct (bool_decide (filter _ _ = ∅)); [exact Hgranted|].
  right. exact (conj eq_refl Hgranted).
Qed.

(** C10: verification is sound and complete.  With weights whose sums fit 32 bits
    and every address one of a signing key, when verification succeeds every
    authority the operations require is satisfied by the signatures and approvals,
    through accounts some levels deep; when it reports a missing authority some
    required one is not satisfied within the maximal depth.  The other exceptions
    are the committee account among the required ones and an unused signature. *)
Theorem verify_authority_correct addresses get_active get_owner {Op} (required : Op → required_authorities → required_authorities)
    ops sigs depth allow_committe active_aprovals owner_approvals :
  (∀ a x, get_active a = Some x → auth_ok addresses sigs x) →
  (∀ a x, get_owner a = Some x → auth_ok addresses sigs x) →
  (∀ x, x ∈ (required_by required ops).2 → auth_ok addresses sigs x) →
  let approved := owner_approvals ∪ (active_aprovals ∪ {[GRAPHENE_TEMP_ACCOUNT]}) in
  let satisfied n au := holds addresses get_active sigs approved n au = true in
  let granted H := authorised get_active get_owner H approved owner_approvals (required_by required ops) in
  match verify_authority addresses get_active get_owner required ops sigs depth allow_committe active_aprovals owner_approvals with
  | Ok _ => granted (λ au, ∃ n, satisfied n au) ∧
      (allow_committe = true ∨ GRAPHENE_COMMITTEE_ACCOUNT ∉ (required_by required ops).1.1)
  | Throw e => (missing e = true ∧ ¬ granted (satisfied depth)) ∨
      (e = invalid_committee_approval ∧ allow_committe = false ∧
         GRAPHENE_COMMITTEE_ACCOUNT ∈ (required_by required ops).1.1) ∨
      (e = tx_irrelevant_sig ∧ granted (λ au, ∃ n, satisfied n au))
  end.
Proof.
  intros Hact Hown Hoth. replace sigs with (sigs ∪ ∅) in Hact, Hown, Hoth by set_solver.
  intros approved satisfied granted. unfold verify_authority.
  destruct (if allow_committe then _ else _) as [[]|e] eqn:Hcom; cycle 1.
  { right. left. destruct allow_committe; [done|]. unfold GRAPHENE_ASSERT in Hcom.
    destruct (bool_decide _) eqn:Hb; [done|]. injection Hcom as <-. apply bool_decide_eq_false, dec_stable in Hb. done. }
  assert (allow_committe = true ∨ GRAPHENE_COMMITTEE_ACCOUNT ∉ (required_by required ops).1.1) as Hc.
  { destruct allow_committe; [by left|right]. apply GRAPHENE_ASSERT_Ok in Hcom. by apply bool_decide_eq_true in Hcom. }
  unfold mbind at 1, result_bind at 1. cbn [approved_by new_sign_state]. fold approved.
  pose proof (new_sign_state_ok addresses get_active sigs ∅ approved Hact approved eq_refl ltac:(set_solver)) as Hs.
  pose proof (verify_required_spec addresses get_active get_owner sigs approved depth owner_approvals
    (required_by required ops) _ Hact Hown Hoth Hs) as Hv. cbv zeta in Hv. rewrite (right_id_L ∅ (∪)) in Hv.
  unfold mbind, result_bind. destruct (verify_required _ _ _ _ _ _ _) as [[u s']|e].
  - exact (conj Hv Hc).
  - destruct Hv as [Hv|Hv]; [left; exact Hv|right; right; exact Hv].
Qed.

(** ** Minimal signatures *)

Section Minimal.
Context (addresses : Z → list Z) (get_active get_owner : Z → option authority).
Context {Op : Type} (required : Op → required_authorities → required_authorities) (ops : list Op) (depth : nat).

(** An authority without addresses. *)
Definition plain (au : authority) : Prop :=
  Forall (λ p, 0 ≤ p.2) (key_auths au) ∧ Forall (λ p, 0 ≤ p.2) (account_auths au) ∧
  all_weight (key_auths au) + all_weight (account_auths au) < 2 ^ 32 ∧ address_auths au = [].

Lemma plain_ok keys au : plain au → auth_ok addresses keys au.
Proof.
  intros (Hk & Ha & Hsum & Hnil). unfold auth_ok. rewrite Hnil. split_and!; try done. unfold all_weight in *. cbn. lia.
Qed.

(** More keys satisfy more. *)
Lemma holds_keys_mono keys1 keys2 approved n au :
  keys1 ⊆ keys2 → (∀ a x, get_active a = Some x → plain x) → plain au →
  holds addresses get_active keys1 approved n au = true → holds addresses get_active keys2 approved n au = true.
Proof.
  intros Hsub Hall. revert au. induction n as [|n IH]; intros au (Hk & Ha & _ & Hnil); cbn [holds];
    unfold holds_with; rewrite Hnil, !Z.leb_le; intros Hle.
  all: assert (weight_of (λ k, bool_decide (k ∈ keys1)) (key_auths au) ≤
    weight_of (λ k, bool_decide (k ∈ keys2)) (key_auths au)) as H1
    by (apply weight_of_mono; [done|]; intros x; rewrite !bool_decide_eq_true; set_solver).
  - cbn in *. lia.
  - assert (weight_of (account_holds get_active approved (Some (holds addresses get_active keys1 approved n))) (account_auths au) ≤
      weight_of (account_holds get_active approved (Some (holds addresses get_active keys2 approved n))) (account_auths au)) as H2.
    { apply weight_of_mono; [done|]. intros a. unfold account_holds. destruct (bool_decide _); [done|]. cbn.
      destruct (get_active a) as [x|] eqn:Hx; [|done]. apply IH. by eapply Hall. }
    cbn in *. lia.
Qed.

(** What the signatures [keys] grant, within the depth. *)
Definition granted (keys : gset Z) : Prop :=
  authorised get_active get_owner (λ au, holds addresses get_active keys {[GRAPHENE_TEMP_ACCOUNT]} depth au = true)
    {[GRAPHENE_TEMP_ACCOUNT]} ∅ (required_by required ops).

Abbreviation verify := (λ keys, verify_authority addresses get_active get_owner required ops keys depth false ∅ ∅).

Context (Hactive : ∀ a x, get_active a = Some x → plain x) (Howner : ∀ a x, get_owner a = Some x → plain x).
Context (Hother : ∀ x, x ∈ (required_by required ops).2 → plain x).

Lemma granted_mono keys1 keys2 : keys1 ⊆ keys2 → granted keys1 → granted keys2.
Proof.
  intros Hsub. unfold granted. destruct (required_by required ops) as [[active owner] other] eqn:Hr.
  cbn in Hother. intros (H1 & H2 & H3).
  assert (∀ get : Z → option authority, (∀ a x, get a = Some x → plain x) → ∀ a,
    (∃ au, get a = Some au ∧ holds addresses get_active keys1 {[GRAPHENE_TEMP_ACCOUNT]} depth au = true) →
    ∃ au, get a = Some au ∧ holds addresses get_active keys2 {[GRAPHENE_TEMP_ACCOUNT]} depth au = true) as Hget.
  { intros get Hp a (au & Hau & Hh). exists au. split; [done|]. by eapply holds_keys_mono; [exact Hsub|..|exact Hh]; eauto. }
  split_and!.
  - intros au Hau. eapply holds_keys_mono; [exact Hsub|done|by apply Hother|by apply H1].
  - intros a Ha. destruct (H2 a Ha) as [Hx|[Hx|Hx]]; [by left|right; left|right; right]; by apply Hget.
  - intros a Ha. destruct (H3 a Ha) as [Hx|Hx]; [by left|right]. by apply Hget.
Qed.

(** Signatures that verification calls missing grant nothing. *)
Lemma missing_not_granted keys e : verify keys = Throw e → missing e = true → ¬ granted keys.
Proof.
  intros Hv He. unfold verify_authority in Hv. unfold mbind, result_bind in Hv.
  destruct (GRAPHENE_ASSERT (bool_decide (GRAPHENE_COMMITTEE_ACCOUNT ∉ _)) invalid_committee_approval) eqn:Hc; cbn in Hv.
  2:{ unfold GRAPHENE_ASSERT in Hc. destruct (bool_decide _); simplify_eq. }
  set (s := set_approved _ _) in Hv.
  assert (approved_by s = {[GRAPHENE_TEMP_ACCOUNT]}) as Hap by (cbn; set_solver).
  pose proof (verify_required_spec addresses get_active get_owner keys {[GRAPHENE_TEMP_ACCOUNT]} depth ∅
    (required_by required ops) s) as Hspec.
  assert (∀ x, plain x → auth_ok addresses (keys ∪ ∅) x) as Hok by (intros; by apply plain_ok).
  specialize (Hspec (λ a x Hx, Hok x (Hactive a x Hx)) (λ a x Hx, Hok x (Howner a x Hx)) (λ x Hx, Hok x (Hother x Hx))).
  rewrite (right_id_L ∅ (∪)) in Hspec.
  assert (state_ok addresses get_active keys ∅ {[GRAPHENE_TEMP_ACCOUNT]} s) as Hs.
  { constructor; rewrite ?Hap; [|done|by left|done]. cbn. rewrite dom_gset_to_gmap. set_solver. }
  specialize (Hspec Hs). destruct (verify_required _ _ _ _ _ _ s) as [[]|e']; [done|]. injection Hv as ->.
  destruct Hspec as [[_ Hn]|[-> _]]; [exact Hn|done].
Qed.

Lemma minimize_spec l result r :
  NoDup l → list_to_set l ⊆ result →
  minimize addresses get_active get_owner required ops depth l result = Ok r →
  r ⊆ result ∧ (verify result = Ok () → verify r = Ok ()) ∧
  ∀ k, k ∈ l → k ∈ r → ¬ granted (r ∖ {[k]}).
Proof.
  revert result. induction l as [|k l IH]; intros result Hnd Hl Hrun; cbn [minimize] in Hrun.
  { injection Hrun as <-. split; [done|]. split; [done|]. by intros k Hk%not_elem_of_nil. }
  apply NoDup_cons in Hnd as [Hk Hnd]. cbn in Hl.
  destruct (verify (result ∖ {[k]})) as [[]|e] eqn:Hv; cbn beta in Hv; rewrite Hv in Hrun.
  - destruct (IH (result ∖ {[k]}) Hnd ltac:(set_solver) Hrun) as (Hsub & Hver & Hall).
    split; [set_solver|]. split; [by auto|].
    intros x [->|Hx]%elem_of_cons Hxr; [set_solver|by apply Hall].
  - destruct (missing e) eqn:He; [|done].
    replace ({[k]} ∪ result ∖ {[k]}) with result in Hrun
      by (apply set_eq; intros x; destruct (decide (x = k)); set_solver).
    destruct (IH result Hnd ltac:(set_solver) Hrun) as (Hsub & Hver & Hall). split; [done|]. split; [done|].
    intros x [->|Hx]%elem_of_cons Hxr; [|by apply Hall].
    intros Hg. apply (missing_not_granted _ _ Hv He). eapply granted_mono; [|exact Hg]. set_solver.
Qed.

Lemma ordered_NoDup X : NoDup (ordered X).
Proof. unfold ordered. rewrite merge_sort_Permutation. apply NoDup_elements. Qed.

(** [minimize_required_signatures] returns keys that are all needed: it picks
    among available keys that have not signed, keeps verification passing when the
    picked keys pass it, and without any one of the keys it returns what the
    operations require is no longer granted within the maximal depth. *)
Theorem minimal_signatures_needed signature_keys available_keys r :
  minimize_required_signatures addresses get_active get_owner required ops signature_keys available_keys depth = Ok r →
  ∃ s, get_required_signatures addresses get_active get_owner required ops signature_keys available_keys depth = Ok s ∧
    s ⊆ available_keys ∖ signature_keys ∧ r ⊆ s ∧
    (verify_authority addresses get_active get_owner required ops s depth false ∅ ∅ = Ok () →
     verify_authority addresses get_active get_owner required ops r depth false ∅ ∅ = Ok ()) ∧
    ∀ k, k ∈ r → ¬ granted (r ∖ {[k]}).
Proof.
  unfold minimize_required_signatures. intros (s & Hs & Hrun)%bind_Ok. exists s. split; [done|].
  destruct (minimize_spec (ordered s) s r) as (Hsub & Hver & Hall); [apply ordered_NoDup|..|done|].
  { intros x. by rewrite elem_of_list_to_set, ordered_elem. }
  split; [|split; [done|split; [done|]]].
  - unfold get_required_signatures in Hs.
    destruct (get_required_authorities required ops) as [[active owner] other].
    apply bind_Ok in Hs as ([u st] & _ & [= <-]). intros x Hx%elem_of_filter. set_solver.
  - intros k Hk. apply Hall; [|done]. apply ordered_elem. set_solver.
Qed.
End Minimal.

(** ** Examples *)

Module AuthorityExample.
(** Account 10 has two keys of weight one and threshold two, account 11 defers to
    it, account 12 names an address, account 13 has keys of weights one and two. *)
Definition active_of (a : Z) : option authority :=
  if a =? 10 then Some (mk_authority 2 [] [(1, 1); (2, 1)] [])
  else if a =? 11 then Some (mk_authority 1 [(10, 1)] [] [])
  else if a =? 12 then Some (mk_authority 1 [(11, 1)] [] [(77, 1)])
  else if a =? 13 then Some (mk_authority 2 [] [(1, 1); (2, 2)] [])
  else if a =? 14 then Some (mk_authority 1 [] [(5, 1)] []) else None.
Definition no_owner (a : Z) : option authority := None.
Definition no_addresses (k : Z) : list Z := [].
(** An operation is the accounts whose active authority it requires. *)
Definition requires (op : list Z) (r : required_authorities) : required_authorities :=
  (list_to_set op ∪ r.1.1, r.1.2, r.2).

Lemma active_plain a x : a ≠ 12 → active_of a = Some x → plain x.
Proof.
  unfold active_of. intros Ha. repeat case_match; try lia; intros [= <-]; unfold plain; cbn;
    split_and!; repeat constructor; done.
Qed.
Definition active_of' (a : Z) : option authority := if a =? 12 then None else active_of a.
Lemma active_plain' a x : active_of' a = Some x → plain x.
Proof. unfold active_of'. case_match; [done|]. apply active_plain. lia. Qed.
End AuthorityExample.
Import AuthorityExample.

Lemma verify_authority_correct_witness :
  verify_authority no_addresses active_of' no_owner requires [[11]] {[1; 2]} 2 false ∅ ∅ = Ok () ∧
  authorised active_of' no_owner (λ au, ∃ n, holds no_addresses active_of' {[1; 2]} (∅ ∪ (∅ ∪ {[GRAPHENE_TEMP_ACCOUNT]})) n au = true)
    (∅ ∪ (∅ ∪ {[GRAPHENE_TEMP_ACCOUNT]})) ∅ (required_by requires [[11]]).
Proof.
  assert (verify_authority no_addresses active_of' no_owner requires [[11]] {[1; 2]} 2 false ∅ ∅ = Ok ()) as Hrun
    by (vm_compute; reflexivity).
  split; [exact Hrun|].
  pose proof (verify_authority_correct no_addresses active_of' no_owner requires [[11]] {[1; 2]} 2 false ∅ ∅
    (λ a x Hx, plain_ok no_addresses _ x (active_plain' a x Hx)) ltac:(discriminate)
    ltac:(intros x Hx; by apply not_elem_of_nil in Hx)) as Hv.
  cbv zeta in Hv. rewrite Hrun in Hv. exact (proj1 Hv).
Defined.

Lemma minimal_signatures_needed_witness :
  minimize_required_signatures no_addresses active_of' no_owner requires [[13]] ∅ {[1; 2; 3]} 2 = Ok {[2]} ∧
  ¬ granted no_addresses active_of' no_owner requires [[13]] 2 ({[2]} ∖ {[2]}).
Proof.
  assert (minimize_required_signatures no_addresses active_of' no_owner requires [[13]] ∅ {[1; 2; 3]} 2 = Ok {[2]}) as Hrun
    by (vm_compute; reflexivity).
  split; [exact Hrun|].
  destruct (minimal_signatures_needed no_addresses active_of' no_owner requires [[13]] 2 active_plain' ltac:(discriminate)
    ltac:(intros x Hx; by apply not_elem_of_nil in Hx) ∅ {[1; 2; 3]} {[2]} Hrun) as (s & _ & _ & _ & _ & Hall).
  apply Hall. by apply elem_of_singleton.
Defined.

(** An address that no signing key has is dereferenced past the end of the map
    instead of counting for nothing, even where an account of the authority would
    satisfy it. *)
Theorem unknown_address_undefined :
  verify_authority no_addresses active_of no_owner requires [[12]] {[1; 2]} 2 false ∅ ∅ = Throw other_exception ∧
  is_ok (verify_authority no_addresses active_of no_owner requires [[11]] {[1; 2]} 2 false ∅ ∅) = true.
Proof. vm_compute. auto. Qed.

(** On a transaction that has a signature already the minimization tests its
    candidates without it, so nothing is dropped: key 1 is returned though the
    signature of 5 and key 2 suffice. *)
Theorem minimize_ignores_signatures :
  minimize_required_signatures no_addresses active_of no_owner requires [[13; 14]] {[5]} {[1; 2]} 2 = Ok {[1; 2]} ∧
  verify_authority no_addresses active_of no_owner requires [[13; 14]] {[2; 5]} 2 false ∅ ∅ = Ok ().
Proof. vm_compute. auto. Qed.
