(* ===== verification/Requirements.v ===== *)
(** * What operations require: libraries/chain/protocol/operations.cpp

    The visitor [operation_get_required_auth] and the overrides of
    [get_required_active_authorities], [get_required_owner_authorities] and
    [get_required_authorities] in the headers of protocol/: what every operation makes of
    the authorities a transaction requires.  The containers are passed by reference from
    operation to operation, and some operations empty them. *)

From S2P Require Import Prelude Authority.
From Stdlib Require Import ZArith.
From stdpp Require Import gmap strings.

Local Open Scope Z_scope.

(** The operations that override one of the functions, with the fields these look at: all
    other operations of the variant inherit the empty functions of [base_operation] and
    are [payer_operation] here. *)
Inductive operation :=
  | account_create_operation (registrar : Z) (asset_to_buy_issuer : option Z)
  | account_update_operation (account : Z) (is_owner_update : bool)
  | account_authenticate_operation (issuer op_type : Z)
  | balance_claim_operation (deposit_to_account balance_owner_key : Z)
  | custom_operation (payer id : Z) (data : string)
  | asset_property_operation (issuer : Z)
  | gateway_issue_currency_operation (issuer : Z)
  | gateway_create_operation (gateway_account : Z)
  | gateway_update_operation (gateway_account : Z)
  | author_create_operation (author_account : Z)
  | author_update_operation (author_account : Z) (new_url : option string)
  | carrier_create_operation (carrier_account : Z)
  | carrier_update_operation (carrier_account : Z) (new_url : option string)
  | proposal_update_operation (fee_paying_account : Z) (active_approvals_to_add active_approvals_to_remove : gset Z)
      (owner_approvals_to_add owner_approvals_to_remove : gset Z) (key_approvals_to_add key_approvals_to_remove : gset Z)
  | transfer_from_blind_operation (inputs : list authority)
  | blind_transfer_operation (payer : Z) (inputs : list authority)
  | bitlender_paramers_update_operation (issuer : Z)
  | bitlender_option_create_operation (issuer : Z)
  | bitlender_option_author_operation (issuer : Z)
  | bitlender_option_update_operation (issuer author : Z)
  | bitlender_option_fee_mode_operation (issuer : Z)
  | bitlender_option_stop_operation (issuer author : Z)
  | bitlender_update_feed_producers_operation (issuer author : Z)
  | issue_fundraise_create_operation (issuer issue_asset_owner : Z)
  | issue_fundraise_update_operation (issuer issue_asset_owner : Z)
  | issue_fundraise_remove_operation (issuer issue_asset_owner : Z)
  | issue_fundraise_publish_feed_operation (issuer : Z)
  | finance_paramers_update_operation (issuer : Z)
  | payer_operation (payer : Z).

(** The function [fee_payer] of each struct; [blind_transfer_operation] declares one
    without a body, and what it answers is part of the operation here. *)
Definition fee_payer (op : operation) : Z :=
  match op with
  | account_create_operation a _ | account_update_operation a _ | account_authenticate_operation a _
  | balance_claim_operation a _ | custom_operation a _ _ | asset_property_operation a
  | gateway_issue_currency_operation a | gateway_create_operation a | gateway_update_operation a
  | author_create_operation a | author_update_operation a _ | carrier_create_operation a
  | carrier_update_operation a _ | proposal_update_operation a _ _ _ _ _ _ | blind_transfer_operation a _
  | bitlender_paramers_update_operation a | bitlender_option_create_operation a
  | bitlender_option_author_operation a | bitlender_option_update_operation a _
  | bitlender_option_fee_mode_operation a | bitlender_option_stop_operation a _
  | bitlender_update_feed_producers_operation a _ | issue_fundraise_create_operation a _
  | issue_fundraise_update_operation a _ | issue_fundraise_remove_operation a _
  | issue_fundraise_publish_feed_operation a | finance_paramers_update_operation a | payer_operation a => a
  | transfer_from_blind_operation _ => GRAPHENE_TEMP_ACCOUNT
  end.

(** [proposal_update_operation::get_required_authorities]: each key once. *)
Definition key_authority (key_approvals_to_add key_approvals_to_remove : gset Z) : authority :=
  let keys := ordered (key_approvals_to_add ∪ key_approvals_to_remove) in
  mk_authority (to_uint 32 (Z.of_nat (length keys))) [] ((λ k, (k, 1)) <$> keys) [].

(** ** The visitor *)

(** What [operation_get_required_auth::operator()] calls of an operation. *)
Record visited := mk_visited {
  v_fee_payer : Z;
  v_active : gset Z → gset Z;
  v_owner : gset Z → gset Z;
  v_other : list authority → list authority
}.

(** The visitor with three containers. *)
Definition visit (v : visited) (r : required_authorities) : required_authorities :=
  let '(active, owner, other) := r in
  (v_active v ({[v_fee_payer v]} ∪ active), v_owner v owner, v_other v other).

(** The visitor when [active] and [owner] refer to one container. *)
Definition visit_shared (v : visited) (r : gset Z * list authority) : gset Z * list authority :=
  let '(auths, other) := r in
  (v_owner v (v_active v ({[v_fee_payer v]} ∪ auths)), v_other v other).

Definition required_shared (ops : list visited) : gset Z * list authority := foldl (λ r v, visit_shared v r) (∅, []) ops.

(** ** The operations *)

Definition GRAPHENE_NULL_ACCOUNT : Z := 3.

(** [a.clear(); a.insert( x )], the body of many of the overrides. *)
Definition clear_insert (x : Z) (a : gset Z) : gset Z := {[x]} ∪ ∅.

(** The body that the operations on fundraises share. *)
Definition owner_or_committee (issue_asset_owner : Z) (a : gset Z) : gset Z :=
  if issue_asset_owner =? GRAPHENE_NULL_ACCOUNT then clear_insert GRAPHENE_COMMITTEE_ACCOUNT a
  else clear_insert issue_asset_owner a.

(** The index [by_name] of the accounts, of the database that a global variable points to. *)
Section Requirements.
Context (account_named : string → option Z).

Definition get_required_active_authorities (op : operation) (a : gset Z) : gset Z :=
  match op with
  | account_create_operation registrar buyback =>
      let a := {[registrar]} ∪ a in
      match buyback with Some i => {[i]} ∪ a | None => a end
  | account_update_operation account owner_update => if negb owner_update then {[account]} ∪ a else a
  | custom_operation payer id data =>
      if id =? 6 then match account_named data with Some i => {[i]} ∪ a | None => {[payer]} ∪ a end else {[payer]} ∪ a
  | asset_property_operation _ | gateway_issue_currency_operation _ | gateway_create_operation _
  | gateway_update_operation _ | author_create_operation _ | carrier_create_operation _
  | bitlender_paramers_update_operation _ | bitlender_option_create_operation _
  | bitlender_option_author_operation _ | bitlender_option_fee_mode_operation _
  | finance_paramers_update_operation _ => clear_insert GRAPHENE_COMMITTEE_ACCOUNT a
  | author_update_operation _ new_url | carrier_update_operation _ new_url =>
      match new_url with Some _ => clear_insert GRAPHENE_COMMITTEE_ACCOUNT a | None => a end
  | bitlender_option_update_operation _ author | bitlender_option_stop_operation _ author
  | bitlender_update_feed_producers_operation _ author => clear_insert author a
  | issue_fundraise_create_operation _ issue_asset_owner | issue_fundraise_update_operation _ issue_asset_owner
  | issue_fundraise_remove_operation _ issue_asset_owner => owner_or_committee issue_asset_owner a
  | issue_fundraise_publish_feed_operation issuer => clear_insert issuer a
  | proposal_update_operation _ add remove _ _ _ _ => remove ∪ (add ∪ a)
  | _ => a
  end.

Definition get_required_owner_authorities (op : operation) (a : gset Z) : gset Z :=
  match op with
  | account_update_operation account owner_update => if owner_update then {[account]} ∪ a else a
  | account_authenticate_operation issuer op_type => if op_type =? 3 then {[issuer]} ∪ a else a
  | proposal_update_operation _ _ _ add remove _ _ => remove ∪ (add ∪ a)
  | _ => a
  end.

Definition get_required_other_authorities (op : operation) (a : list authority) : list authority :=
  match op with
  | balance_claim_operation _ key => a ++ [mk_authority 1 [] [(key, 1)] []]
  | proposal_update_operation _ _ _ _ _ add remove => a ++ [key_authority add remove]
  | transfer_from_blind_operation inputs | blind_transfer_operation _ inputs => a ++ inputs
  | _ => a
  end.

(** The functions of an operation that the visitor calls. *)
Definition calls (op : operation) : visited :=
  mk_visited (fee_payer op) (get_required_active_authorities op) (get_required_owner_authorities op)
    (get_required_other_authorities op).

Definition operation_get_required_authorities (op : operation) (r : required_authorities) : required_authorities :=
  visit (calls op) r.

(** * Who has to agree *)

Abbreviation required := (required_by operation_get_required_authorities).

(** The account that an operation puts in the place of all that were required before it. *)
Definition asks_only (op : operation) : option Z :=
  match op with
  | asset_property_operation _ | gateway_issue_currency_operation _ | gateway_create_operation _
  | gateway_update_operation _ | author_create_operation _ | carrier_create_operation _
  | author_update_operation _ (Some _) | carrier_update_operation _ (Some _)
  | bitlender_paramers_update_operation _ | bitlender_option_create_operation _
  | bitlender_option_author_operation _ | bitlender_option_fee_mode_operation _
  | finance_paramers_update_operation _ => Some GRAPHENE_COMMITTEE_ACCOUNT
  | bitlender_option_update_operation _ a | bitlender_option_stop_operation _ a
  | bitlender_update_feed_producers_operation _ a | issue_fundraise_publish_feed_operation a => Some a
  | issue_fundraise_create_operation _ o | issue_fundraise_update_operation _ o
  | issue_fundraise_remove_operation _ o => Some (if o =? GRAPHENE_NULL_ACCOUNT then GRAPHENE_COMMITTEE_ACCOUNT else o)
  | _ => None
  end.

Lemma required_snoc ops op : required (ops ++ [op]) = operation_get_required_authorities op (required ops).
Proof. unfold required_by. by rewrite foldl_app. Qed.

Lemma active_snoc ops op :
  (required (ops ++ [op])).1.1 = get_required_active_authorities op ({[fee_payer op]} ∪ (required ops).1.1).
Proof. rewrite required_snoc. by destruct (required ops) as [[??]?]. Qed.

Lemma owner_snoc ops op :
  (required (ops ++ [op])).1.2 = get_required_owner_authorities op (required ops).1.2.
Proof. rewrite required_snoc. by destruct (required ops) as [[??]?]. Qed.

Lemma other_snoc ops op :
  (required (ops ++ [op])).2 = get_required_other_authorities op (required ops).2.
Proof. rewrite required_snoc. by destruct (required ops) as [[??]?]. Qed.

Lemma active_kept op a : asks_only op = None → a ⊆ get_required_active_authorities op a.
Proof. destruct op; cbn; try discriminate; repeat case_match; try discriminate; set_solver. Qed.

Lemma active_forgotten op a x : asks_only op = Some x → get_required_active_authorities op a = {[x]}.
Proof.
  destruct op; cbn; unfold owner_or_committee, clear_insert; repeat case_match; try discriminate;
    intros [= <-]; by rewrite (right_id_L ∅ (∪)).
Qed.

Lemma owners_kept op a : a ⊆ get_required_owner_authorities op a.
Proof. destruct op; cbn; repeat case_match; set_solver. Qed.

Lemma others_kept op a x : x ∈ a → x ∈ get_required_other_authorities op a.
Proof. destruct op; cbn; rewrite ?elem_of_app; auto. Qed.

(** Whoever pays is asked, or whom a later operation has put in his place. *)
Lemma payer_or_heir before op after :
  let active := (required (before ++ op :: after)).1.1 in
  fee_payer op ∈ active ∨ ∃ x a, x ∈ op :: after ∧ asks_only x = Some a ∧ a ∈ active.
Proof.
  cbv zeta. induction after as [|x after IH] using rev_ind.
  - rewrite active_snoc. destruct (asks_only op) as [a|] eqn:Hop.
    + right. exists op, a. rewrite (active_forgotten _ _ _ Hop). set_solver.
    + left. apply (active_kept _ _ Hop). set_solver.
  - rewrite app_comm_cons, app_assoc, active_snoc. destruct (asks_only x) as [a|] eqn:Hx.
    + right. exists x, a. rewrite (active_forgotten _ _ _ Hx). set_solver.
    + pose proof (active_kept x ({[fee_payer x]} ∪ (required (before ++ op :: after)).1.1) Hx) as Hsub.
      destruct IH as [IH|(y & a & Hy & Ha & IH)]; [left; set_solver|right; exists y, a; set_solver].
Qed.

(** The requirements of owners and of other authorities are never forgotten. *)
Lemma owner_asked ops op a :
  op ∈ ops → (∀ s, a ∈ get_required_owner_authorities op s) → a ∈ (required ops).1.2.
Proof.
  intros Hop Ha. induction ops as [|x ops IH] using rev_ind; [by apply not_elem_of_nil in Hop|].
  rewrite owner_snoc. apply elem_of_app in Hop as [Hop|<-%list_elem_of_singleton]; [by apply owners_kept, IH|apply Ha].
Qed.

Lemma other_asked ops op x :
  op ∈ ops → (∀ s, x ∈ get_required_other_authorities op s) → x ∈ (required ops).2.
Proof.
  intros Hop Ha. induction ops as [|y ops IH] using rev_ind; [by apply not_elem_of_nil in Hop|].
  rewrite other_snoc. apply elem_of_app in Hop as [Hop|<-%list_elem_of_singleton]; [by apply others_kept, IH|apply Ha].
Qed.

(** What remains of the active requirements of a list of operations after one that empties them. *)
Theorem waiver_forgets ops op a : asks_only op = Some a → (required (ops ++ [op])).1.1 = {[a]}.
Proof. intros Hw. rewrite active_snoc. by apply active_forgotten. Qed.

(** C6: A transaction that is accepted outside a proposal has, by its signatures, the
    authority of whoever pays the fee of any of its operations, unless this operation or a
    later one empties the list of the required accounts and names another account, other
    than the committee, in their place; then that account has signed.  Whoever updates an
    owner authority or locks an account has signed as its owner, and the authorities of
    the balances that are claimed and of the blinded inputs that are spent are there,
    whatever else the transaction does.  The weights within each authority add up to less
    than 2^32 ([auth_ok]). *)
Theorem payers_authorised addresses get_active get_owner ops sigs depth :
  (∀ a x, get_active a = Some x → auth_ok addresses sigs x) →
  (∀ a x, get_owner a = Some x → auth_ok addresses sigs x) →
  (∀ x, x ∈ (required ops).2 → auth_ok addresses sigs x) →
  verify_authority addresses get_active get_owner operation_get_required_authorities ops sigs depth false ∅ ∅ = Ok () →
  let signed au := ∃ n, holds addresses get_active sigs {[GRAPHENE_TEMP_ACCOUNT]} n au = true in
  let agrees a := a = GRAPHENE_TEMP_ACCOUNT ∨
    ∃ au, (get_active a = Some au ∨ get_owner a = Some au) ∧ signed au in
  (∀ before op after, ops = before ++ op :: after →
     agrees (fee_payer op) ∨
     ∃ x a, x ∈ op :: after ∧ asks_only x = Some a ∧ a ≠ GRAPHENE_COMMITTEE_ACCOUNT ∧ agrees a) ∧
  (∀ a, account_update_operation a true ∈ ops ∨ account_authenticate_operation a 3 ∈ ops →
     ∃ au, get_owner a = Some au ∧ signed au) ∧
  (∀ a key, balance_claim_operation a key ∈ ops → signed (mk_authority 1 [] [(key, 1)] [])) ∧
  (∀ a inputs au, transfer_from_blind_operation inputs ∈ ops ∨ blind_transfer_operation a inputs ∈ ops →
     au ∈ inputs → signed au).
Proof.
  intros Hact Hown Hoth Hrun signed agrees. replace sigs with (sigs ∪ ∅) in Hact, Hown, Hoth by set_solver.
  unfold verify_authority in Hrun. apply bind_Ok in Hrun as (? & Hcom%GRAPHENE_ASSERT_Ok%bool_decide_eq_true & Hrun).
  cbn [approved_by new_sign_state] in Hrun. replace (∅ ∪ (∅ ∪ {[GRAPHENE_TEMP_ACCOUNT]})) with ({[GRAPHENE_TEMP_ACCOUNT]} : gset Z) in Hrun by set_solver.
  pose proof (new_sign_state_ok addresses get_active sigs ∅ _ Hact {[GRAPHENE_TEMP_ACCOUNT]} eq_refl ltac:(set_solver)) as Hs.
  pose proof (verify_required_spec addresses get_active get_owner sigs _ depth ∅ (required ops) _ Hact Hown Hoth Hs) as Hv.
  cbv zeta in Hv. apply bind_Ok in Hrun as ([u s'] & Hrun & _). rewrite Hrun, (right_id_L ∅ (∪)) in Hv.
  assert (∀ a, a ∈ (required ops).1.1 → agrees a) as Hactive.
  { intros a Ha. destruct (required ops) as [[active owner] other]. destruct Hv as (_ & Hv & _).
    destruct (Hv _ Ha) as [->%elem_of_singleton|[(au & ? & ?)|(au & ? & ?)]]; [by left|right; exists au; auto..]. }
  assert (∀ a, a ∈ (required ops).1.2 → ∃ au, get_owner a = Some au ∧ signed au) as Howner.
  { intros a Ha. destruct (required ops) as [[active owner] other]. destruct Hv as (_ & _ & Hv).
    destruct (Hv _ Ha) as [?%not_elem_of_empty|?]; done. }
  assert (∀ au, au ∈ (required ops).2 → signed au) as Hother.
  { intros a Ha. destruct (required ops) as [[active owner] other]. by apply Hv. }
  split_and!.
  - intros before op after ->. destruct (payer_or_heir before op after) as [?|(y & a & ? & ? & Ha)]; [left; auto|right].
    exists y, a. split_and!; [done..| |by apply Hactive]. intros ->. done.
  - intros a Ha. apply Howner. destruct Ha as [Ha|Ha]; apply (owner_asked _ _ _ Ha); intros; cbn; set_solver.
  - intros a key Ha. apply Hother, (other_asked _ _ _ Ha). intros. cbn. set_solver.
  - intros a inputs au Ha Hau. apply Hother. destruct Ha as [Ha|Ha]; apply (other_asked _ _ _ Ha); intros; cbn; set_solver.
Qed.
End Requirements.

(** * Operations that empty the requirements *)

Module RequirementsExample.
Definition nobody (_ : string) : option Z := None.
Definition no_authority (_ : Z) : option authority := None.
Definition no_addresses (_ : Z) : list Z := [].
Definition key_5 (a : Z) : option authority := if a =? 17 then Some (mk_authority 1 [] [(5, 1)] []) else None.

Abbreviation verify := (λ get ops keys allow approvals,
  verify_authority no_addresses get no_authority (operation_get_required_authorities nobody) ops keys 2 allow approvals ∅).

Lemma payers_authorised_witness :
  let ops := [payer_operation 17; custom_operation 17 1 ""] in
  verify key_5 ops {[5]} false ∅ = Ok () ∧
  ∃ au, key_5 17 = Some au ∧ ∃ n, holds no_addresses key_5 {[5]} {[GRAPHENE_TEMP_ACCOUNT]} n au = true.
Proof.
  intros ops.
  assert (verify key_5 ops {[5]} false ∅ = Ok ()) as Hrun by (vm_compute; reflexivity).
  split; [exact Hrun|].
  assert (∀ a x, key_5 a = Some x → auth_ok no_addresses {[5]} x) as Hok.
  { intros a x. unfold key_5. destruct (a =? 17); [|done]. intros [= <-]. apply plain_ok. unfold plain; cbn. split_and!; repeat constructor; done. }
  destruct (payers_authorised nobody no_addresses key_5 no_authority ops {[5]} 2 Hok
    ltac:(discriminate) ltac:(intros x Hx; by apply not_elem_of_nil in Hx) Hrun) as [Hpay _].
  destruct (Hpay [] (payer_operation 17) [custom_operation 17 1 ""] eq_refl)
    as [[?|(au & [Hau|Hau] & Hs)]|(x & a & Hx & Ha & _)]; [discriminate|by exists au|discriminate|].
  apply elem_of_cons in Hx as [->| ->%list_elem_of_singleton]; discriminate.
Defined.

(** In a proposal the approval of the committee is enough to spend from account 17, if the
    transaction ends with an operation that only the committee has to allow; not without
    it, nor in the other order. *)
Theorem committee_spends_for_anyone :
  verify key_5 [payer_operation 17; gateway_create_operation 99] ∅ true {[GRAPHENE_COMMITTEE_ACCOUNT]} = Ok () ∧
  verify key_5 [payer_operation 17] ∅ true {[GRAPHENE_COMMITTEE_ACCOUNT]} = Throw tx_missing_active_auth ∧
  verify key_5 [gateway_create_operation 99; payer_operation 17] ∅ true {[GRAPHENE_COMMITTEE_ACCOUNT]} = Throw tx_missing_active_auth.
Proof. vm_compute. auto. Qed.

Definition key_6 (a : Z) : option authority := if a =? 18 then Some (mk_authority 1 [] [(6, 1)] []) else key_5 a.

(** Outside a proposal account 18 spends from account 17 with its own key alone, when the
    transaction ends with a feed for a fundraise that account 18 publishes. *)
Theorem anyone_spends_for_anyone :
  verify key_6 [payer_operation 17; issue_fundraise_publish_feed_operation 18] {[6]} false ∅ = Ok () ∧
  verify key_6 [payer_operation 17] {[6]} false ∅ = Throw tx_missing_active_auth ∧
  verify key_6 [issue_fundraise_publish_feed_operation 18; payer_operation 17] {[6]} false ∅ = Throw tx_missing_active_auth.
Proof. vm_compute. auto. Qed.
End RequirementsExample.
