(* ===== verification/Apply.v ===== *)
(** * Applying blocks and transactions: libraries/chain/db_block.cpp

    [_apply_block] checks the header, applies the transactions and runs the updates
    at the end of a block, in the order of the code; [_apply_transaction] checks
    authorities, the reference block (TaPoS), expiration and duplicates before it
    evaluates the operations.  The contents are a record of what these functions
    read and write themselves, the rest being a parameter [R].  The evaluators, the
    maintenance and the other updates at the end of a block are arguments
    ([updates]); that they keep the head, the block summaries and the transaction
    index is the class [KeepsCore].  The time that a summary records is the clock's
    ([confrim_time]). *)

From S2P Require Import Prelude Safe Uint128 Asset Vesting Balance Fees Block Schedule Authority.
From S2P Require Chain.

Local Open Scope Z_scope.

(** [database::validation_steps]. *)
Definition skip_witness_signature : Z := Z.shiftl 1 0.
Definition skip_transaction_signatures : Z := Z.shiftl 1 1.
Definition skip_transaction_dupe_check : Z := Z.shiftl 1 2.
Definition skip_tapos_check : Z := Z.shiftl 1 5.
Definition skip_authority_check : Z := Z.shiftl 1 6.
Definition skip_merkle_check : Z := Z.shiftl 1 7.
Definition skip_undo_history_check : Z := Z.shiftl 1 9.
Definition skip_witness_schedule_check : Z := Z.shiftl 1 10.

(** [skip & flags]. *)
Definition skips (skip flags : Z) : bool := negb (Z.land skip flags =? 0).

Record block_summary_object := mk_summary {
  sum_version : Z;
  sum_block_id : block_id_type;
  sum_block_time : Z;
  trans_count : Z;
  confrim_time : Z;
  sum_witness_id : Z
}.

Section Apply.
Context {Op Res R D Sg : Type} `{Inhabited D} `{EqDecision D}.

Record signed_transaction := mk_trx {
  ref_block_num : Z;
  ref_block_prefix : Z;
  expiration : Z;
  operations : list Op;
  signatures : list Sg
}.

Abbreviation block := (signed_block signed_transaction D Sg).

Record database := mk_database {
  chain_of : chain_state;
  block_summaries : gmap Z block_summary_object;
  transaction_index : list (Z * signed_transaction);
  permit_index : list (Z * Z);
  next_maintenance_time : Z;
  rest : R
}.

Definition set_chain c d := mk_database c (block_summaries d) (transaction_index d) (permit_index d)
  (next_maintenance_time d) (rest d).
Definition set_summaries s d := mk_database (chain_of d) s (transaction_index d) (permit_index d)
  (next_maintenance_time d) (rest d).
Definition set_transaction_index t d := mk_database (chain_of d) (block_summaries d) t (permit_index d)
  (next_maintenance_time d) (rest d).
Definition set_permits p d := mk_database (chain_of d) (block_summaries d) (transaction_index d) p
  (next_maintenance_time d) (rest d).

Definition head_block_num (d : database) : Z := head_block_number (dgp (chain_of d)).
Definition head_block_id (d : database) : block_id_type := Schedule.head_block_id (dgp (chain_of d)).
Definition head_block_time (d : database) : Z := now (chain_of d).

(** A computation on the chain state, on the contents. *)
Definition on_chain {A} (m : M chain_state A) : M database A := λ d,
  match m (chain_of d) with Ok (a, c) => Ok (a, set_chain c d) | Throw e => Throw e end.

(** ** Cryptography and configuration *)

Context (sha224 : @signed_block_header D Sg → list Z).
Context (merkle_digest : signed_transaction → D) (hash_pair : D → D → D) (checksum : D → D) (zero : D).
(** [signee], the key recovered from the signature of a header; [trx.id()]; the
    keys recovered from the signatures of a transaction. *)
Context (signee : block → Z) (trx_id : signed_transaction → Z) (recovered_keys : signed_transaction → list Z).
Context (addresses : Z → list Z).
Context (active_of owner_of : database → Z → option authority) (max_authority_depth : database → nat).
Context (operation_get_required_authorities : database → Op → required_authorities → required_authorities).
Context (operation_validate : Op → result ()).
Context (maximum_time_until_expiration : database → Z).
Context `{Division128}.

Abbreviation block_id := (block_id sha224).
Definition validate_signee (b : block) (expected_signee : Z) : bool := signee b =? expected_signee.

(** ** Operations and transactions *)

(** The registered evaluators, by the tag of the operation. *)
Context (which : Op → Z) (_operation_evaluators : list (option (signed_transaction → Op → M database Res))).

Definition apply_operation (trx : signed_transaction) (op : Op) : M database Res :=
  let i_which := which op in
  let u_which := to_uint 64 i_which in
  assert_st (0 <=? i_which) ;;
  assert_st (u_which <? Z.of_nat (length _operation_evaluators)) ;;
  match _operation_evaluators !! Z.to_nat u_which with
  | Some (Some eval) => eval trx op
  | _ => throw assert_exception
  end.

Fixpoint apply_operations (trx : signed_transaction) (ops : list Op) (results : list Res) : M database (list Res) :=
  match ops with
  | [] => mret results
  | op :: ops => r ← apply_operation trx op; apply_operations trx ops (results ++ [r])
  end.

(** [transaction::validate]. *)
Fixpoint validate_all (ops : list Op) : result () :=
  match ops with [] => Ok () | op :: ops => operation_validate op ;; validate_all ops end.
Definition validate (trx : signed_transaction) : result () :=
  FC_ASSERT (negb (bool_decide (length (operations trx) = 0%nat))) ;; validate_all (operations trx).

(** [signed_transaction::verify_authority]. *)
Definition verify_trx_authority (trx : signed_transaction) (d : database) : result () :=
  keys ← get_signature_keys (recovered_keys trx) ∅;
  verify_authority addresses (active_of d) (owner_of d) (operation_get_required_authorities d) (operations trx) keys
    (max_authority_depth d) false ∅ ∅.

(** Insertion into the index ordered by expiration, after those of the same. *)
Fixpoint insert_by_expiration (x : Z * signed_transaction) (l : list (Z * signed_transaction))
    : list (Z * signed_transaction) :=
  match l with
  | [] => [x]
  | y :: l' => if expiration x.2 <? expiration y.2 then x :: l else y :: insert_by_expiration x l'
  end.

(** The checks on the reference block and the expiration. *)
Definition check_tapos (skip : Z) (trx : signed_transaction) (d : database) : result () :=
  if 0 <? head_block_num d then
    (if skips skip skip_tapos_check then Ok () else
     match block_summaries d !! ref_block_num trx with
     | None => Throw other_exception
     | Some s => FC_ASSERT (ref_block_prefix trx =? _hash (sum_block_id s) !!! 1%nat)
     end) ;;
    FC_ASSERT (expiration trx <=? to_uint 32 (head_block_time d + maximum_time_until_expiration d)) ;;
    FC_ASSERT (head_block_time d <=? expiration trx)
  else Ok ().

(** The balances of the temporary account are zero. *)
Definition temp_account_empty (d : database) : bool :=
  forallb (λ p, negb (p.1.1 =? GRAPHENE_TEMP_ACCOUNT) || (p.2 =? 0))
    (map_to_list (balances (ledger_of (chain_of d)))).

Definition known_trx (i : Z) (d : database) : bool := bool_decide (i ∈ (transaction_index d).*1).

Definition _apply_transaction (skip : Z) (trx : signed_transaction) : M database (signed_transaction * list Res) :=
  lift (validate trx) ;;
  d ← get_st;
  assert_st (skips skip skip_transaction_dupe_check || negb (known_trx (trx_id trx) d)) ;;
  lift (if skips skip (Z.lor skip_transaction_signatures skip_authority_check) then Ok ()
        else verify_trx_authority trx d) ;;
  lift (check_tapos skip trx d) ;;
  (if skips skip skip_transaction_dupe_check then mret ()
   else put_st (set_transaction_index (insert_by_expiration (trx_id trx, trx) (transaction_index d)) d)) ;;
  results ← apply_operations trx (operations trx) [];
  d ← get_st;
  assert_st (temp_account_empty d) ;;
  mret (trx, results).

(** ** Blocks *)

(** [_checkpoints], in the order of their numbers. *)
Context (_checkpoints : list (Z * block_id_type)).

Definition validate_block_header (skip : Z) (next_block : block) (d : database) : result Z :=
  FC_ASSERT (bool_decide (head_block_id d = previous next_block)) ;;
  FC_ASSERT (head_block_time d <? timestamp next_block) ;;
  w ← (match witness_objects (chain_of d) !! witness next_block with
       | Some w => Ok w | None => Throw other_exception end);
  FC_ASSERT (skips skip skip_witness_signature || validate_signee next_block (signing_key w)) ;;
  (if skips skip skip_witness_schedule_check then Ok () else
   let slot_num := get_slot_at_time (timestamp next_block) (chain_of d) in
   FC_ASSERT (0 <? slot_num) ;;
   scheduled_witness ← get_scheduled_witness slot_num (chain_of d);
   FC_ASSERT (witness next_block =? scheduled_witness)) ;;
  mret (witness next_block).

Definition create_block_summary (next_block : block) (confrim : Z) : M database () :=
  d ← get_st;
  let sid := Z.land (block_num next_block) 65535 in
  match block_summaries d !! sid with
  | None => throw other_exception
  | Some _ =>
      put_st (set_summaries (<[sid := mk_summary (version next_block) (block_id next_block) (timestamp next_block)
        (Z.of_nat (length (transactions next_block))) confrim (witness next_block)]> (block_summaries d)) d)
  end.

(** The updates at the end of a block that are modelled elsewhere or not in this
    repository ([_business_db]). *)
Record updates := mk_updates {
  perform_chain_maintenance : block → M database ();
  clear_expired_proposals : M database ();
  clear_expired_orders : M database ();
  update_expired_feeds : M database ();
  update_bitlender_expired_feeds : M database ();
  update_core_exchange_rates : M database ();
  check_hour_task : M database ();
  check_exchange_orders : M database ();
  apply_debug_updates : M database ()
}.
Context (hooks : updates).

Definition clear_expired : M database () :=
  modify_st (λ d, set_transaction_index
    (clear_expired_transactions (λ p, expiration p.2) (head_block_time d) (transaction_index d)) d).
Definition update_permits : M database () :=
  modify_st (λ d, set_permits (update_withdraw_permissions (head_block_time d) (permit_index d)) d).

(** [with_skip_flags] and the checkpoints, as [update_global_dynamic_data] reads them. *)
Definition with_skip_flags (skip : Z) (c : chain_state) : chain_state :=
  let p := schedule_params c in
  mk_chain (ledger_of c) (dgp c) (witness_objects c) (current_shuffled_witnesses c) (active_witnesses c)
    (mk_schedule_parameters (block_interval p) (maintenance_skip_slots p) (witness_pay_per_block p)
       (skips skip skip_undo_history_check) (fst <$> last _checkpoints)) (undo_max_size c) (fork_max_size c).

(** [_apply_block] up to [update_global_dynamic_data], which sets the sizes of the
    histories: it returns the witness and whether there is maintenance. *)
Definition begin_block (skip : Z) (next_block : block) : M database (Z * bool) :=
  d ← get_st;
  assert_st (skips skip skip_merkle_check ||
    bool_decide (calculate_merkle_root merkle_digest hash_pair checksum zero next_block
                 = Some (transaction_merkle_root next_block))) ;;
  signing_witness ← lift (validate_block_header skip next_block d);
  let maint_needed := next_maintenance_time d <=? timestamp next_block in
  mapM_ (λ trx, _apply_transaction skip trx ;; mret ()) (transactions next_block) ;;
  on_chain (modify_st (with_skip_flags skip) ;; update_global_dynamic_data (block_id next_block) next_block) ;;
  mret (signing_witness, maint_needed).

(** The rest of [_apply_block]. *)
Definition end_block (next_block : block) (confrim : Z) (signing_witness : Z) (maint_needed : bool) : M database () :=
  on_chain (update_signing_witness signing_witness next_block) ;;
  on_chain update_last_irreversible_block ;;
  (if maint_needed then perform_chain_maintenance hooks next_block else mret ()) ;;
  create_block_summary next_block confrim ;;
  clear_expired ;;
  clear_expired_proposals hooks ;;
  clear_expired_orders hooks ;;
  update_expired_feeds hooks ;;
  update_bitlender_expired_feeds hooks ;;
  update_core_exchange_rates hooks ;;
  check_hour_task hooks ;;
  update_permits ;;
  check_exchange_orders hooks ;;
  modify_st (λ d, set_chain (update_maintenance_flag maint_needed (chain_of d)) d) ;;
  modify_st (λ d, set_chain (update_witness_schedule (chain_of d)) d) ;;
  apply_debug_updates hooks.

(** [apply_block]: the flags the block is applied with. *)
Definition checkpoint_skip (next_block : block) (skip : Z) : result Z :=
  match last _checkpoints with
  | Some (n, i) =>
      if decide (i = null_block_id) then Ok skip else
      (match list_find (λ p, p.1 = block_num next_block) _checkpoints with
       | Some (_, (_, i)) => FC_ASSERT (bool_decide (block_id next_block = i))
       | None => Ok ()
       end) ;;
      mret (if block_num next_block <=? n then 2 ^ 32 - 1 else skip)
  | None => Ok skip
  end.

(** The size the histories are set to, and the outcome. *)
Definition apply_block (confrim : Z) (skip : Z) (next_block : block) (d : database) : option Z * result database :=
  match checkpoint_skip next_block skip with
  | Throw e => (None, Throw e)
  | Ok skip =>
      match begin_block skip next_block d with
      | Throw e => (None, Throw e)
      | Ok ((w, maint), d) =>
          (Some (undo_max_size (chain_of d)),
           match end_block next_block confrim w maint d with Ok (_, d) => Ok d | Throw e => Throw e end)
      end
  end.

Definition before_last_checkpoint (d : database) : bool :=
  match last _checkpoints with Some (n, _) => head_block_num d <=? n | None => false end.

(** ** What a block does to the head, the summaries and the transaction index *)

Definition core (d : database) :=
  (transaction_index d, block_summaries d, head_block_num d, head_block_id d, head_block_time d).

(** The evaluators and the other updates leave these alone. *)
Class KeepsCore : Prop := {
  keeps_evaluators eval trx op : Some eval ∈ _operation_evaluators → same core (eval trx op);
  keeps_maintenance b : same core (perform_chain_maintenance hooks b);
  keeps_proposals : same core (clear_expired_proposals hooks);
  keeps_orders : same core (clear_expired_orders hooks);
  keeps_feeds : same core (update_expired_feeds hooks);
  keeps_bitlender : same core (update_bitlender_expired_feeds hooks);
  keeps_rates : same core (update_core_exchange_rates hooks);
  keeps_hour : same core (check_hour_task hooks);
  keeps_exchange : same core (check_exchange_orders hooks);
  keeps_debug : same core (apply_debug_updates hooks)
}.
Context {HKeeps : KeepsCore}.

Definition chain_core (c : chain_state) := (head_block_number (dgp c), Schedule.head_block_id (dgp c), now c).

Lemma on_chain_same {A} (m : M chain_state A) : same chain_core m → same core (on_chain m).
Proof.
  intros Hm d a d' Hrun. unfold on_chain in Hrun. destruct (m (chain_of d)) as [[x c]|] eqn:Hc; [|done].
  injection Hrun as _ <-. specialize (Hm _ _ _ Hc). unfold core, head_block_num, head_block_id, head_block_time in *.
  unfold chain_core in Hm. cbn. by injection Hm as -> -> ->.
Qed.

Lemma update_signing_witness_core w (b : block) : same chain_core (update_signing_witness w b).
Proof.
  intros c u c' Hrun. unfold update_signing_witness in Hrun. inv_ok.
  match goal with Hl : on_ledger _ _ = Ok _ |- _ => unfold on_ledger in Hl; cbn [ledger_of set_dgp] in Hl;
    destruct (deposit_witness_pay _ _ _) as [[v l]|] eqn:Hd; [|done]; injection Hl as _ <- end.
  apply deposit_witness_pay_time in Hd. unfold chain_core, now. cbn. by rewrite Hd.
Qed.

Lemma update_irreversible_core : same chain_core update_last_irreversible_block.
Proof.
  intros c u c' Hrun. unfold update_last_irreversible_block in Hrun. inv_ok. case_match; by inv_ok.
Qed.

Lemma apply_operations_core trx ops rs : same core (apply_operations trx ops rs).
Proof.
  revert rs. induction ops as [|op ops IH]; intros rs; cbn [apply_operations]; [apply same_ret|].
  apply same_bind; [|intros r; apply IH]. unfold apply_operation.
  apply same_bind; [apply same_assert|intros _]. apply same_bind; [apply same_assert|intros _].
  destruct (_operation_evaluators !! _) as [[eval|]|] eqn:He; try apply same_throw.
  apply keeps_evaluators. by eapply list_elem_of_lookup_2.
Qed.

(** A transaction that is applied was new, and is in the index afterwards. *)
Lemma apply_transaction_core skip trx d r d' :
  _apply_transaction skip trx d = Ok (r, d') →
  (skips skip skip_transaction_dupe_check = false → trx_id trx ∉ (transaction_index d).*1) ∧
  check_tapos skip trx d = Ok () ∧
  core d' = (if skips skip skip_transaction_dupe_check then transaction_index d
             else insert_by_expiration (trx_id trx, trx) (transaction_index d),
             block_summaries d, head_block_num d, head_block_id d, head_block_time d).
Proof.
  intros Hrun. unfold _apply_transaction in Hrun.
  apply M_bind_Ok in Hrun as (u1 & d1 & [_ ->]%lift_Ok & Hrun).
  apply M_bind_Ok in Hrun as (d2 & d3 & [= <- <-] & Hrun).
  apply M_bind_Ok in Hrun as (u3 & d4 & [Hdup ->]%assert_st_Ok & Hrun).
  apply M_bind_Ok in Hrun as (u4 & d5 & [_ ->]%lift_Ok & Hrun).
  apply M_bind_Ok in Hrun as (u5 & d6 & [Htapos ->]%lift_Ok & Hrun).
  apply M_bind_Ok in Hrun as (u6 & d7 & Hput & Hrun).
  apply M_bind_Ok in Hrun as (results & d8 & Hops & Hrun). apply apply_operations_core in Hops.
  apply M_bind_Ok in Hrun as (d9 & d10 & [= <- <-] & Hrun).
  apply M_bind_Ok in Hrun as (u10 & d11 & [_ ->]%assert_st_Ok & Hrun). injection Hrun as _ <-.
  split; [|split; [by destruct u5|]].
  - intros Hs. rewrite Hs in Hdup. cbn in Hdup. unfold known_trx in Hdup. by case_bool_decide.
  - rewrite Hops. destruct (skips _ _); by injection Hput as _ <-.
Qed.

(** *** The index of transactions *)

Lemma insert_by_expiration_elem x y l : y ∈ insert_by_expiration x l ↔ y = x ∨ y ∈ l.
Proof.
  induction l as [|z l IH]; cbn; [set_solver|]. case_match; rewrite !elem_of_cons; [done|]. rewrite IH. tauto.
Qed.

Definition insert_all (txs : list signed_transaction) (l : list (Z * signed_transaction)) :=
  foldl (λ l t, insert_by_expiration (trx_id t, t) l) l txs.

Lemma insert_all_elem txs l y : y ∈ insert_all txs l ↔ (∃ t, t ∈ txs ∧ y = (trx_id t, t)) ∨ y ∈ l.
Proof.
  unfold insert_all. revert l. induction txs as [|t txs IH]; intros l; cbn; [set_solver|].
  rewrite IH, insert_by_expiration_elem. setoid_rewrite elem_of_cons. naive_solver.
Qed.

Lemma clear_expired_elem {A} (expires : A → Z) t l x :
  x ∈ l → x ∈ clear_expired_transactions expires t l ∨ expires x < t.
Proof.
  induction l as [|y l IH]; cbn; [set_solver|]. intros Hx. destruct (Z.ltb_spec (expires y) t) as [Hlt|Hge].
  - apply elem_of_cons in Hx as [->|Hx]; auto.
  - by left.
Qed.

(** *** A block *)

(** The transactions of a block apply one after the other. *)
Lemma apply_transactions_core skip txs d u d' :
  mapM_ (λ trx, _apply_transaction skip trx ;; mret ()) txs d = Ok (u, d') →
  core d' = (if skips skip skip_transaction_dupe_check then transaction_index d else insert_all txs (transaction_index d),
             block_summaries d, head_block_num d, head_block_id d, head_block_time d) ∧
  (∀ t, t ∈ txs → ∃ d1, core d1 = (transaction_index d1, block_summaries d, head_block_num d, head_block_id d, head_block_time d) ∧
     check_tapos skip t d1 = Ok ()) ∧
  (skips skip skip_transaction_dupe_check = false →
     NoDup (trx_id <$> txs) ∧ ∀ t, t ∈ txs → trx_id t ∉ (transaction_index d).*1).
Proof.
  revert d. induction txs as [|t txs IH]; intros d Hrun; cbn [mapM_] in Hrun.
  { injection Hrun as _ <-. split; [by destruct (skips _ _)|]. split; [set_solver|].
    intros _. split; [constructor|set_solver]. }
  apply M_bind_Ok in Hrun as (u1 & d1 & Ht & Hrun).
  apply M_bind_Ok in Ht as ((p & rs) & d2 & Ht & [= _ <-]).
  apply apply_transaction_core in Ht as (Hnew & Htapos & Hcore).
  destruct (IH d2 Hrun) as (Hcore' & Htapos' & Hdup').
  unfold core in Hcore. injection Hcore as Hi Hs Hn Hid Ht. rewrite Hs, Hn, Hid, Ht in *. rewrite Hi in Hcore', Hdup'.
  split; [|split].
  - rewrite Hcore'. by destruct (skips _ _).
  - intros x [->|Hx]%elem_of_cons; [by exists d|by apply Htapos'].
  - intros Hsk. rewrite Hsk in *. destruct (Hdup' eq_refl) as [Hnd Hfresh].
    assert (∀ x, x ∈ txs → trx_id x ≠ trx_id t ∧ trx_id x ∉ (transaction_index d).*1) as Hx.
    { intros x Hx. specialize (Hfresh x Hx). split; intros Heq; apply Hfresh; apply list_elem_of_fmap.
      - exists (trx_id t, t). split; [done|]. apply insert_by_expiration_elem. by left.
      - apply list_elem_of_fmap in Heq as (y & Hy & Hin). exists y. split; [done|].
        apply insert_by_expiration_elem. by right. }
    split.
    + cbn. constructor; [|done]. intros (x & Heq & Hin)%list_elem_of_fmap. by destruct (Hx x Hin).
    + intros x [->|Hin]%elem_of_cons; [by apply Hnew|by apply Hx].
Qed.

Lemma charge_missed_core n i p : same chain_core (charge_missed n i p).
Proof.
  revert i. induction n as [|n IH]; intros i; cbn [charge_missed]; [apply same_ret|].
  apply same_get. intros c u c' Hrun. inv_ok.
  match goal with Hc : charge_missed _ _ _ _ = Ok _ |- _ => apply IH in Hc; rewrite Hc end.
  case_match; by inv_ok.
Qed.

Lemma update_global_core id (b : block) c u c' :
  update_global_dynamic_data id b c = Ok (u, c') → chain_core c' = (block_num b, id, timestamp b).
Proof. intros Hrun. unfold update_global_dynamic_data in Hrun. by inv_ok. Qed.

Lemma begin_block_core skip (b : block) d w m d' :
  begin_block skip b d = Ok ((w, m), d') →
  validate_block_header skip b d = Ok w ∧
  (skips skip skip_merkle_check || bool_decide (calculate_merkle_root merkle_digest hash_pair checksum zero b
     = Some (transaction_merkle_root b))) = true ∧
  (∃ d1, mapM_ (λ trx, _apply_transaction skip trx ;; mret ()) (transactions b) d = Ok ((), d1) ∧
     transaction_index d' = transaction_index d1 ∧ block_summaries d' = block_summaries d1) ∧
  chain_core (chain_of d') = (block_num b, block_id b, timestamp b).
Proof.
  intros Hrun. unfold begin_block in Hrun.
  apply M_bind_Ok in Hrun as (d0 & d1 & [= <- <-] & Hrun).
  apply M_bind_Ok in Hrun as (u1 & d2 & [Hm ->]%assert_st_Ok & Hrun).
  apply M_bind_Ok in Hrun as (w' & d3 & [Hw ->]%lift_Ok & Hrun). cbv zeta in Hrun.
  apply M_bind_Ok in Hrun as ([] & d4 & Htx & Hrun).
  apply M_bind_Ok in Hrun as (u4 & d5 & Hup & Hrun). injection Hrun as <- <- <-.
  split; [done|]. split; [done|]. unfold on_chain in Hup.
  match type of Hup with match ?m with _ => _ end = _ => destruct m as [[u c]|] eqn:Hc; [|done] end. injection Hup as _ <-. split; [by exists d4|].
  apply M_bind_Ok in Hc as (u5 & c1 & _ & Hc). by apply update_global_core in Hc.
Qed.

Lemma chain_of_core d d' : core d' = core d → chain_core (chain_of d') = chain_core (chain_of d).
Proof. intros Hc. unfold core, head_block_num, head_block_id, head_block_time in Hc. unfold chain_core. by injection Hc as _ _ -> -> ->. Qed.

Lemma core_eq d i s n h t : core d = (i, s, n, h, t) →
  transaction_index d = i ∧ block_summaries d = s ∧ head_block_num d = n ∧ head_block_time d = t.
Proof. unfold core. by intros [= -> -> -> _ ->]. Qed.

Lemma core_inv d d' : core d' = core d →
  transaction_index d' = transaction_index d ∧ block_summaries d' = block_summaries d ∧
  head_block_time d' = head_block_time d.
Proof. unfold core. by intros [= -> -> _ _ ->]. Qed.

Lemma set_chain_core c d : chain_core c = chain_core (chain_of d) → core (set_chain c d) = core d.
Proof. intros Hc. unfold core, head_block_num, head_block_id, head_block_time. unfold chain_core in Hc. cbn. by injection Hc as -> -> ->. Qed.

Lemma update_witness_schedule_core c : chain_core (update_witness_schedule c) = chain_core c.
Proof. unfold update_witness_schedule. by case_match. Qed.

(** The end of a block records its summary and drops expired transactions. *)
Lemma end_block_core (b : block) cf w m d u d' :
  end_block b cf w m d = Ok (u, d') →
  chain_core (chain_of d') = chain_core (chain_of d) ∧
  block_summaries d' = <[Z.land (block_num b) 65535 := mk_summary (version b) (block_id b) (timestamp b)
      (Z.of_nat (length (transactions b))) cf (witness b)]> (block_summaries d) ∧
  transaction_index d' = clear_expired_transactions (λ p, expiration p.2) (head_block_time d) (transaction_index d).
Proof.
  intros Hrun. unfold end_block in Hrun.
  apply M_bind_Ok in Hrun as (u1 & d1 & H1 & Hrun). apply (on_chain_same _ (update_signing_witness_core w b)) in H1.
  apply M_bind_Ok in Hrun as (u2 & d2 & H2 & Hrun). apply (on_chain_same _ update_irreversible_core) in H2.
  apply M_bind_Ok in Hrun as (u3 & d3 & H3 & Hrun).
  assert (core d3 = core d) as Hd3.
  { rewrite <- H1, <- H2. destruct m; [by apply keeps_maintenance in H3|by injection H3 as _ <-]. }
  apply M_bind_Ok in Hrun as (u4 & d4 & Hsum & Hrun).
  apply M_bind_Ok in Hrun as (u5 & d5 & Hclr & Hrun).
  apply M_bind_Ok in Hrun as (u6 & d6 & H6%keeps_proposals & Hrun).
  apply M_bind_Ok in Hrun as (u7 & d7 & H7%keeps_orders & Hrun).
  apply M_bind_Ok in Hrun as (u8 & d8 & H8%keeps_feeds & Hrun).
  apply M_bind_Ok in Hrun as (u9 & d9 & H9%keeps_bitlender & Hrun).
  apply M_bind_Ok in Hrun as (u10 & d10 & H10%keeps_rates & Hrun).
  apply M_bind_Ok in Hrun as (u11 & d11 & H11%keeps_hour & Hrun).
  apply M_bind_Ok in Hrun as (u12 & d12 & H12 & Hrun).
  apply M_bind_Ok in Hrun as (u13 & d13 & H13%keeps_exchange & Hrun).
  apply M_bind_Ok in Hrun as (u14 & d14 & H14 & Hrun).
  apply M_bind_Ok in Hrun as (u15 & d15 & H15 & Hrun). apply keeps_debug in Hrun.
  assert (core d' = core d5) as Hd'.
  { apply modify_st_Ok in H12 as ->, H14 as ->, H15 as ->.
    rewrite Hrun, set_chain_core by (rewrite update_witness_schedule_core; reflexivity).
    rewrite set_chain_core by reflexivity.
    by rewrite H13, <- H6, <- H7, <- H8, <- H9, <- H10, <- H11. }
  apply M_bind_Ok in Hsum as (x & y & [= <- <-] & Hsum). cbv zeta in Hsum.
  unfold clear_expired in Hclr. apply modify_st_Ok in Hclr as ->.
  destruct (block_summaries d3 !! _); [|done]. apply put_st_Ok in Hsum as ->.
  pose proof (chain_of_core _ _ Hd3) as Hc3. pose proof (chain_of_core _ _ Hd') as Hc'.
  destruct (core_inv _ _ Hd3) as (Hi & Hs & Ht). destruct (core_inv _ _ Hd') as (Hi' & Hs' & _).
  rewrite Hs', Hi'. split; [exact (eq_trans Hc' Hc3)|]. rewrite <- Hs, <- Hi, <- Ht. split; reflexivity.
Qed.

(** ** Applied blocks *)

Lemma block_num_positive (b : block) : 0 < block_num b.
Proof.
  unfold block_num. pose proof (num_from_id_range (previous b)). rewrite to_uint_id; unfold uint in *; lia.
Qed.

Lemma header_Ok skip (b : block) d w :
  validate_block_header skip b d = Ok w →
  head_block_id d = previous b ∧ head_block_time d < timestamp b ∧ w = witness b ∧
  (skips skip skip_witness_signature = false →
     ∃ o, witness_objects (chain_of d) !! witness b = Some o ∧ signee b = signing_key o) ∧
  (skips skip skip_witness_schedule_check = false →
     0 < get_slot_at_time (timestamp b) (chain_of d) ∧
     get_scheduled_witness (get_slot_at_time (timestamp b) (chain_of d)) (chain_of d) = Ok (witness b)).
Proof.
  unfold validate_block_header. intros Hrun.
  apply bind_Ok in Hrun as (u1 & Hp%FC_ASSERT_Ok & Hrun). apply bool_decide_eq_true_1 in Hp.
  apply bind_Ok in Hrun as (u2 & Ht%FC_ASSERT_Ok & Hrun).
  apply bind_Ok in Hrun as (o & Ho & Hrun). apply bind_Ok in Hrun as (u3 & Hs%FC_ASSERT_Ok & Hrun).
  apply bind_Ok in Hrun as (u4 & Hsch & [= <-]).
  split; [done|]. split; [lia|]. split; [done|]. split.
  - intros Hsk. rewrite Hsk in Hs. unfold validate_signee in Hs. cbn in Hs.
    destruct (witness_objects _ !! _) as [o'|]; [|done]. injection Ho as ->. exists o. split; [done|lia].
  - intros Hsk. rewrite Hsk in Hsch. cbv zeta in Hsch.
    apply bind_Ok in Hsch as (u5 & Hpos%FC_ASSERT_Ok & Hsch). apply bind_Ok in Hsch as (sw & Hsw & Heq%FC_ASSERT_Ok).
    split; [lia|]. rewrite Hsw. f_equal. lia.
Qed.

(** A block that is applied: it moves the head to itself, and its transactions
    are the ones that enter the index. *)
Lemma apply_block_core cf skip (b : block) d size d' :
  apply_block cf skip b d = (size, Ok d') →
  ∃ skip', checkpoint_skip b skip = Ok skip' ∧
    validate_block_header skip' b d = Ok (witness b) ∧
    (skips skip' skip_merkle_check || bool_decide (calculate_merkle_root merkle_digest hash_pair checksum zero b
       = Some (transaction_merkle_root b))) = true ∧
    chain_core (chain_of d') = (block_num b, block_id b, timestamp b) ∧
    (∃ s, block_summaries d' = <[Z.land (block_num b) 65535 := s]> (block_summaries d) ∧ sum_block_id s = block_id b) ∧
    ∃ d1, mapM_ (λ trx, _apply_transaction skip' trx ;; mret ()) (transactions b) d = Ok ((), d1) ∧
      transaction_index d' = clear_expired_transactions (λ p, expiration p.2) (timestamp b) (transaction_index d1).
Proof.
  unfold apply_block. intros Hrun. destruct (checkpoint_skip b skip) as [skip'|]; [|done]. exists skip'.
  destruct (begin_block skip' b d) as [[[w m] d2]|] eqn:Hb; [|done]. injection Hrun as _ Hrun.
  destruct (end_block b cf w m d2) as [[u d3]|] eqn:He; [|done]. injection Hrun as <-.
  apply begin_block_core in Hb as (Hw & Hm & (d1 & Htx & Hi & Hs) & Hc).
  apply end_block_core in He as (Hc' & Hs' & Hi').
  pose proof (header_Ok _ _ _ _ Hw) as (_ & _ & -> & _).
  split; [done|]. split; [done|]. split; [done|]. split; [by rewrite Hc'|].
  destruct (apply_transactions_core _ _ _ _ _ Htx) as (Hcore & _). apply core_eq in Hcore as (_ & Hs1 & _).
  split; [eexists; split; [rewrite Hs', Hs, Hs1; reflexivity|done]|].
  exists d1. split; [done|]. rewrite Hi', Hi. f_equal. unfold head_block_time. unfold chain_core in Hc.
  by injection Hc as _ _ ->.
Qed.

(** C19: a block that is applied extends the head in time, is signed by the key of
    the witness of its slot, commits to its transactions and agrees with the
    checkpoint of its height, as far as the flags it is applied with do not skip
    the check; it becomes the head and is recorded in the summary of its height. *)
Theorem applied_block_valid cf skip (b : block) d size d' :
  apply_block cf skip b d = (size, Ok d') →
  ∃ skip', checkpoint_skip b skip = Ok skip' ∧
    head_block_id d = previous b ∧ head_block_time d < timestamp b ∧
    (skips skip' skip_witness_signature = false →
       ∃ o, witness_objects (chain_of d) !! witness b = Some o ∧ signee b = signing_key o) ∧
    (skips skip' skip_witness_schedule_check = false →
       get_scheduled_witness (get_slot_at_time (timestamp b) (chain_of d)) (chain_of d) = Ok (witness b)) ∧
    (skips skip' skip_merkle_check = false →
       calculate_merkle_root merkle_digest hash_pair checksum zero b = Some (transaction_merkle_root b)) ∧
    (∀ n i j c, last _checkpoints = Some (n, i) → i ≠ null_block_id →
       list_find (λ p, p.1 = block_num b) _checkpoints = Some (j, (block_num b, c)) → block_id b = c) ∧
    head_block_num d' = block_num b ∧ head_block_id d' = block_id b ∧ head_block_time d' = timestamp b ∧
    sum_block_id <$> (block_summaries d' !! Z.land (block_num b) 65535) = Some (block_id b).
Proof.
  intros Hrun. apply apply_block_core in Hrun as (skip' & Hsk & Hw & Hm & Hc & (s & Hs & Hsid) & _).
  apply header_Ok in Hw as (Hprev & Htime & _ & Hsig & Hsch). exists skip'.
  split; [done|]. split; [done|]. split; [done|]. split; [done|]. split; [by intros; apply Hsch|]. split; [|split].
  - intros Hno. rewrite Hno in Hm. by apply bool_decide_eq_true_1 in Hm.
  - intros n i j c Hlast Hi Hfind. unfold checkpoint_skip in Hsk. rewrite Hlast in Hsk.
    destruct (decide (i = null_block_id)); [done|]. rewrite Hfind in Hsk.
    apply bind_Ok in Hsk as (u & Hid%FC_ASSERT_Ok & _). by apply bool_decide_eq_true_1 in Hid.
  - unfold head_block_num, head_block_id, head_block_time. unfold chain_core in Hc. injection Hc as -> -> ->.
    rewrite Hs, lookup_insert_eq. cbn. by rewrite Hsid.
Qed.

(** ** Runs of blocks *)

(** Blocks applied one after the other, each with flags in [P]. *)
Inductive runs (P : Z → Prop) (d : database) : list block → database → Prop :=
  | runs_nil : runs P d [] d
  | runs_snoc bs d1 cf skip b skip' size d2 :
      runs P d bs d1 → checkpoint_skip b skip = Ok skip' → P skip' →
      apply_block cf skip b d1 = (size, Ok d2) → runs P d (bs ++ [b]) d2.

Definition applied_txs (bs : list block) : list signed_transaction := mjoin (transactions <$> bs).

(** Every transaction applied is still known or has expired. *)
Lemma runs_seen d bs d' :
  (∀ t1 t2, trx_id t1 = trx_id t2 → expiration t1 = expiration t2) →
  runs (λ skip, skips skip skip_transaction_dupe_check = false) d bs d' →
  NoDup (trx_id <$> applied_txs bs) ∧ (bs ≠ [] → 0 < head_block_num d') ∧
  ∀ t, t ∈ applied_txs bs → (trx_id t, t) ∈ transaction_index d' ∨ expiration t < head_block_time d'.
Proof.
  intros Hid. induction 1 as [|bs d1 cf skip b skip' size d2 Hr (Hnd & Hpos & Hseen) Hsk Hdup Hb].
  { split; [constructor|]. split; [done|]. intros t Ht. by apply not_elem_of_nil in Ht. }
  apply apply_block_core in Hb as (skip2 & Hsk2 & Hw & _ & Hc & _ & d3 & Htx & Hi). rewrite Hsk in Hsk2. injection Hsk2 as <-.
  apply header_Ok in Hw as (_ & Htime & _). unfold chain_core in Hc. injection Hc as Hnum _ Hnow.
  destruct (apply_transactions_core _ _ _ _ _ Htx) as (Hcore & Htap & Hnew). rewrite Hdup in Hcore.
  destruct (Hnew Hdup) as [Hndb Hfresh]. apply core_eq in Hcore as (Hi3 & _).
  assert (applied_txs (bs ++ [b]) = applied_txs bs ++ transactions b) as ->.
  { unfold applied_txs. rewrite fmap_app, join_app. cbn. by rewrite app_nil_r. }
  assert (∀ t, t ∈ applied_txs bs → ∀ t', t' ∈ transactions b → trx_id t ≠ trx_id t') as Hdisj.
  { intros t Ht t' Ht' Heq. destruct (Hseen t Ht) as [Hin|Hexp].
    - apply (Hfresh t' Ht'). rewrite <- Heq. apply list_elem_of_fmap. by exists (trx_id t, t).
    - assert (bs ≠ []) as Hbs by (intros ->; by apply not_elem_of_nil in Ht). specialize (Hpos Hbs).
      destruct (Htap t' Ht') as (d0 & Hd0 & Hok). apply core_eq in Hd0 as (_ & _ & Hn0 & Ht0).
      unfold check_tapos in Hok. rewrite Hn0, (proj2 (Z.ltb_lt _ _) Hpos) in Hok.
      apply bind_Ok in Hok as (u1 & _ & Hok). apply bind_Ok in Hok as (u2 & _ & Hok%FC_ASSERT_Ok).
      rewrite Ht0 in Hok. rewrite <- (Hid t t' Heq) in Hok. lia. }
  unfold head_block_num, head_block_time. rewrite Hnum, Hnow. split; [|split; [intros _; apply block_num_positive|]].
  - rewrite fmap_app. apply NoDup_app. split; [done|]. split; [|done].
    intros i (t & -> & Ht)%list_elem_of_fmap (t' & Heq & Ht')%list_elem_of_fmap. by apply (Hdisj t Ht t' Ht').
  - intros t [Ht|Ht]%elem_of_app.
    + destruct (Hseen t Ht) as [Hin|Hexp]; [|right; lia].
      rewrite Hi, Hi3. apply (clear_expired_elem (λ p : Z * signed_transaction, expiration p.2) (timestamp b)).
      apply insert_all_elem. by right.
    + rewrite Hi, Hi3. apply (clear_expired_elem (λ p : Z * signed_transaction, expiration p.2) (timestamp b) _ (trx_id t, t)).
      apply insert_all_elem. left. by exists t.
Qed.

(** C11: no transaction is applied twice on a chain: in any run of blocks applied
    with the duplicate check, the identifiers of all their transactions are
    distinct, even though expired transactions leave the index that detects
    duplicates, as long as transactions of one identifier have one expiration. *)
Theorem no_transaction_replay d bs d' :
  (∀ t1 t2, trx_id t1 = trx_id t2 → expiration t1 = expiration t2) →
  runs (λ skip, skips skip skip_transaction_dupe_check = false) d bs d' →
  NoDup (trx_id <$> applied_txs bs).
Proof. intros Hid Hr. apply (runs_seen d bs d' Hid Hr). Qed.

(** The summaries are those of the latest blocks. *)
Lemma runs_summaries P d pre b post d' :
  runs P d (pre ++ b :: post) d' →
  (∀ b', b' ∈ post → Z.land (block_num b') 65535 ≠ Z.land (block_num b) 65535) →
  sum_block_id <$> (block_summaries d' !! Z.land (block_num b) 65535) = Some (block_id b) ∧ 0 < head_block_num d'.
Proof.
  remember (pre ++ b :: post) as bs eqn:Hbs. intros Hr. revert pre b post Hbs.
  induction Hr as [|bs d1 cf skip b2 skip' size d2 Hr IH Hsk _ Hb]; intros pre b post Hbs Hpost.
  { by destruct pre. }
  apply apply_block_core in Hb as (skip2 & _ & _ & _ & Hc & (s & Hs & Hsid) & _).
  unfold chain_core in Hc. injection Hc as Hnum _ _. split; [|unfold head_block_num; rewrite Hnum; apply block_num_positive].
  destruct post as [|b3 post] using rev_ind.
  - apply app_inj_tail in Hbs as [-> ->]. rewrite Hs, lookup_insert_eq. cbn. by rewrite Hsid.
  - clear IHpost. rewrite app_comm_cons, app_assoc in Hbs. apply app_inj_tail in Hbs as [-> ->].
    rewrite Hs, lookup_insert_ne.
    + apply (IH pre b post eq_refl). intros b' Hb'. apply Hpost. apply elem_of_app. by left.
    + apply Hpost. apply elem_of_app. right. by left.
Qed.

(** C21: a transaction only applies on the fork it refers to: after a run of
    blocks, a transaction that names by number a block of the run (the latest of
    its number modulo 65536) applies only if it gives the first word of that
    block's hash, unless the check is skipped; and only before it expires. *)
Theorem tapos_binds_fork P d pre b post d' skip trx r d'' :
  runs P d (pre ++ b :: post) d' →
  (∀ b', b' ∈ post → Z.land (block_num b') 65535 ≠ Z.land (block_num b) 65535) →
  ref_block_num trx = Z.land (block_num b) 65535 → skips skip skip_tapos_check = false →
  _apply_transaction skip trx d' = Ok (r, d'') →
  ref_block_prefix trx = _hash (block_id b) !!! 1%nat ∧ head_block_time d' <= expiration trx.
Proof.
  intros Hr Hpost Href Hsk Happ. destruct (runs_summaries P d pre b post d' Hr Hpost) as [Hsum Hpos].
  apply apply_transaction_core in Happ as (_ & Htap & _). unfold check_tapos in Htap.
  rewrite (proj2 (Z.ltb_lt _ _) Hpos), Hsk, Href in Htap.
  destruct (block_summaries d' !! _) as [s|]; [|done]. injection Hsum as Hs.
  apply bind_Ok in Htap as (u1 & Hpre%FC_ASSERT_Ok & Htap).
  apply bind_Ok in Htap as (u2 & _ & Hexp%FC_ASSERT_Ok). rewrite <- Hs. split; lia.
Qed.

(** What the chain relies on (file Chain). *)
#[export] Instance apply_block_applies cf skip : Chain.AppliesBlocks sha224 head_block_id (apply_block cf skip).
Proof.
  constructor; intros b d size d' Hrun.
  all: apply apply_block_core in Hrun as (skip' & _ & Hw & _ & Hc & _).
  - by apply header_Ok in Hw as (Hp & _).
  - unfold head_block_id. unfold chain_core in Hc. by injection Hc as _ -> _.
Qed.
End Apply.

(** ** Example: a chain of two blocks *)

Module ApplyExample.
Abbreviation trx := (@signed_transaction Z Z).
Abbreviation db := (@database Z Z Z).
Abbreviation blk := (signed_block trx Z Z).

Definition keep : M db () := mret ().
Definition hooks : updates := mk_updates (λ _ : blk, keep) keep keep keep keep keep keep keep keep.

(** The only operation adds its argument to the rest of the contents. *)
Definition add (_ : trx) (op : Z) : M db Z := λ d,
  Ok (op, mk_database (chain_of d) (block_summaries d) (transaction_index d) (permit_index d)
            (next_maintenance_time d) (rest d + op)).
Definition evaluators : list (option (trx → Z → M db Z)) := [Some add].

Definition demo_sha (h : @signed_block_header Z Z) : list Z :=
  let '(_, _, time, _, _, _) := h in [0; 256 * time; 0; 0; 0; 0; 0].
Definition requires (_ : db) (_ : Z) (r : required_authorities) : required_authorities := r.

Definition apply := apply_block (R := Z) demo_sha (λ t, expiration t) (λ x y, x + y) (λ x, x) 0 (λ _, 0)
  (λ t : trx, expiration t) (λ _, []) (λ _, []) (λ _ _, None) (λ _ _, None) (λ _, 2%nat) requires
  (λ _, Ok ()) (λ _, 500) (λ _, 0) evaluators [] hooks 0.
Definition transact := _apply_transaction (R := Z)
  (λ t : trx, expiration t) (λ _, []) (λ _, []) (λ _ _, None) (λ _ _, None) (λ _, 2%nat) requires
  (λ _, Ok ()) (λ _, 500) (λ _, 0) evaluators.

Definition parameters_ : schedule_parameters := mk_schedule_parameters 3 3 0 false None.
Definition id12 : block_id_type := mk_block_id [201326592; 0; 0; 0; 0].
Definition chain12 : chain_state :=
  mk_chain demo_ledger (mk_dgp 12 id12 2 0 40 (mk128 0 5) 1 8 100 0)
    demo_objects [2; 3; 1] [1; 2; 3] parameters_ 5 5.
Definition empty_summary (i : block_id_type) : block_summary_object := mk_summary 0 i 0 0 0 0.
Definition db12 : db :=
  mk_database chain12 (<[12 := empty_summary id12]> (<[13 := empty_summary null_block_id]> {[14 := empty_summary null_block_id]}))
    [] [] 1000 0.

Definition t1 : trx := mk_trx 12 0 120 [0] [].
Definition t2 : trx := mk_trx 13 27648 121 [0; 0] [].
Definition b13 : blk := mk_block 1 id12 108 3 120 0 [t1].
Definition b14 : blk := mk_block 1 (block_id demo_sha b13) 111 1 121 0 [t2].
Definition after (b : blk) (d : db) : db := match (apply 0 b d).2 with Ok d' => d' | Throw _ => d end.
Definition db13 : db := after b13 db12.
Definition db14 : db := after b14 db13.

Abbreviation hash := (λ x y : Z, x + y) (only parsing).
Abbreviation same_trx := (λ t : trx, expiration t) (only parsing).

#[export] Instance demo_keeps : KeepsCore evaluators hooks.
Proof.
  constructor; try (intros; intros d a d' [= _ <-]; reflexivity).
  intros eval trx op [= ->]%list_elem_of_singleton d a d' [= _ <-]. reflexivity.
Qed.

Definition no_dupes (skip : Z) : Prop := skips skip skip_transaction_dupe_check = false.
Abbreviation demo_runs := (runs (R := Z) demo_sha (λ t, expiration t) (λ x y, x + y) (λ x, x) 0 (λ _, 0)
  (λ t : trx, expiration t) (λ _, []) (λ _, []) (λ _ _, None) (λ _ _, None) (λ _, 2%nat) requires
  (λ _, Ok ()) (λ _, 500) (λ _, 0) evaluators [] hooks).

Lemma apply_b13 : apply 0 b13 db12 = (Some 6, Ok db13).
Proof. vm_compute. reflexivity. Qed.
Lemma apply_b14 : apply 0 b14 db13 = (Some 4, Ok db14).
Proof. vm_compute. reflexivity. Qed.

Lemma demo_one_block : demo_runs no_dupes db12 ([] ++ [b13]) db13.
Proof.
  apply (runs_snoc _ _ _ _ _ _ _ _ _ _ _ _ _ _ _ _ _ _ _ _ _ [] db12 0 0 b13 0 (Some 6)); [constructor|done|done|exact apply_b13].
Qed.

Lemma demo_two_blocks : demo_runs no_dupes db12 ([b13] ++ [b14]) db14.
Proof.
  apply (runs_snoc _ _ _ _ _ _ _ _ _ _ _ _ _ _ _ _ _ _ _ _ _ [b13] db13 0 0 b14 0 (Some 4));
    [exact demo_one_block|done|done|exact apply_b14].
Qed.
End ApplyExample.
Import ApplyExample.

Lemma applied_block_valid_witness :
  (apply 0 b13 db12).1 = Some 6 ∧ head_block_time db12 < timestamp b13 ∧
  get_scheduled_witness (get_slot_at_time (timestamp b13) (chain_of db12)) (chain_of db12) = Ok 3.
Proof.
  destruct (applied_block_valid _ _ _ _ _ _ _ _ _ _ _ _ _ _ _ _ _ _ _ _ _ _ _ _ _ apply_b13)
    as (skip' & Hsk & _ & Ht & _ & Hs & _).
  split; [by rewrite apply_b13|]. split; [exact Ht|]. apply Hs.
  vm_compute in Hsk. injection Hsk as <-. vm_compute. reflexivity.
Defined.

Lemma no_transaction_replay_witness : NoDup (expiration <$> applied_txs [b13; b14]).
Proof.
  refine (no_transaction_replay _ _ _ _ _ _ (λ t : trx, expiration t) _ _ _ _ _ _ _ _ _ _ _ _ db12 [b13; b14] db14 _ demo_two_blocks).
  by intros x y.
Defined.

Lemma tapos_binds_fork_witness :
  is_ok (transact 0 t2 db13) = true ∧ ref_block_prefix t2 = _hash (block_id demo_sha b13) !!! 1%nat.
Proof.
  assert (∃ out, transact 0 t2 db13 = Ok out) as [[r d] Hrun] by (eexists; vm_compute; reflexivity).
  split; [by rewrite Hrun|].
  refine (proj1 (tapos_binds_fork _ _ _ _ _ _ _ _ _ _ _ _ _ _ _ _ _ _ _ no_dupes db12 [] b13 [] db13 0 t2 r d
    demo_one_block _ _ _ Hrun)).
  - by intros b' Hb%not_elem_of_nil.
  - vm_compute. reflexivity.
  - reflexivity.
Defined.
