(* ===== verification/Wire.v ===== *)
(** * Blocks and transactions as bytes

    The codecs of file Raw put together for the types of libraries/chain/protocol:
    [FC_REFLECT] names the fields of a structure in their order.  The codec of the
    operations, a [static_variant] of about eighty types, is a parameter, and so is
    [sizeof] of the elements of a vector, which depends on the compiler.  The last part
    runs the block store of file BlockDb with these codecs. *)

From S2P Require Import Prelude Safe Asset Block BlockDb Raw Apply.
From stdpp Require Import sorting.

Local Open Scope Z_scope.

(** ** Identifiers, hashes and assets *)

(** [object_id<S,T,O>]: the instance. *)
Definition c_object_id : codec Z := c_as fst (λ i, (i, ())) (c_object (c_field c_unsigned_int64 c_no_field)).

(** [object_id_type]: the number. *)
Definition c_object_id_type : codec Z := c_as fst (λ i, (i, ())) (c_object (c_field (c_uint 8) c_no_field)).

(** [ripemd160]: the memory of five 32-bit words. *)
Fixpoint to_words (l : list Z) : list Z :=
  match l with
  | a :: b :: c :: d :: l => of_bytes [a; b; c; d] :: to_words l
  | _ => []
  end.

Definition c_ripemd160 : codec block_id_type :=
  c_as (λ l, mk_block_id (to_words l)) (λ id, _hash id ≫= to_bytes 4) (c_array 20).

Definition c_asset : codec asset :=
  c_as (λ p, mk_asset p.1 p.2.1) (λ a, (amount a, (asset_id a, ())))
    (c_object (c_field c_safe (c_field c_object_id c_no_field))).

(** [static_variant<void_result,object_id_type,asset>] *)
Inductive operation_result :=
  | void_result
  | object_result (id : Z)
  | asset_result (a : asset).

Definition of_result (r : operation_result) : () + (Z + (asset + Empty_set)) :=
  match r with void_result => inl () | object_result i => inr (inl i) | asset_result a => inr (inr (inl a)) end.
Definition to_result (x : () + (Z + (asset + Empty_set))) : operation_result :=
  match x with
  | inl _ => void_result
  | inr (inl i) => object_result i
  | inr (inr (inl a)) => asset_result a
  | inr (inr (inr e)) => match e return operation_result with end
  end.

Definition c_operation_result : codec operation_result :=
  c_as to_result of_result
    (c_static_variant (or_else (c_object c_no_field) (or_else c_object_id_type (or_else c_asset no_alternative)))).

(** ** Transactions and blocks *)

Section Wire.
Context {Op : Type} (c_operation : codec Op).
Variables (sizeof_extension sizeof_operation sizeof_result sizeof_transaction : Z).

(** [flat_set<static_variant<void_t>>], whose elements are all equal: only the empty set
    is ever written. *)
Definition c_extensions : codec () :=
  c_as (λ _, ()) (λ _, [])
    (c_flat_set (λ _ _, false) sizeof_extension (c_static_variant (or_else (c_object c_no_field) no_alternative))).

Definition c_signature : codec (list Z) := c_array 65.

Abbreviation transaction := (@signed_transaction Op (list Z)).

(** [processed_transaction]: its base classes come first. *)
Definition c_processed_transaction : codec (transaction * list operation_result) :=
  c_as (λ '(n, (p, (t, (ops, (_, (sigs, (res, _))))))), (mk_trx n p t ops sigs, res))
       (λ '(x, res), (ref_block_num x, (ref_block_prefix x, (expiration x, (operations x, ((), (signatures x, (res, ()))))))))
    (c_object
      (c_field (c_uint 2) (c_field (c_uint 4) (c_field c_time_point_sec
        (c_field (c_vector sizeof_operation c_operation) (c_field c_extensions
          (c_field (c_vector 65 c_signature)
            (c_field (c_vector sizeof_result c_operation_result) c_no_field)))))))).

Abbreviation wire_block := (signed_block (transaction * list operation_result) block_id_type (list Z)).

Definition c_signed_block : codec wire_block :=
  c_as (λ '(v, (p, (t, (w, (r, (_, (s, (txs, _)))))))), mk_block v p t w r s txs)
       (λ b, (version b, (previous b, (timestamp b, (witness b, (transaction_merkle_root b,
              ((), (witness_signature b, (transactions b, ())))))))))
    (c_object
      (c_field (c_uint 4) (c_field c_ripemd160 (c_field c_time_point_sec (c_field c_object_id
        (c_field c_ripemd160 (c_field c_extensions (c_field c_signature
          (c_field (c_vector sizeof_transaction c_processed_transaction) c_no_field))))))))).
End Wire.

(** * The codecs are lawful *)

#[export] Instance object_id_lawful : Lawful c_object_id (uint 64) 4.
Proof. eapply as_lawful; [apply _|done|]. intros i Hi. cbn. auto. Qed.

#[export] Instance object_id_type_lawful : Lawful c_object_id_type (uint 64) 6.
Proof. eapply as_lawful; [apply _|done|]. intros i Hi. cbn. auto. Qed.

Definition ripemd160_ok (id : block_id_type) : Prop := length (_hash id) = 5%nat ∧ Forall (uint 32) (_hash id).

Lemma to_words_bytes l : Forall (uint 32) l → to_words (l ≫= to_bytes 4) = l.
Proof.
  induction 1 as [|x l Hx _ IH]; [done|].
  change ((x :: l) ≫= to_bytes 4) with (to_bytes 4 x ++ (l ≫= to_bytes 4)).
  pose proof (of_to_bytes 4 x Hx) as Hb. cbn [to_bytes app to_words] in *. by rewrite IH, Hb.
Qed.

#[export] Instance ripemd160_lawful : Lawful c_ripemd160 ripemd160_ok 0.
Proof.
  eapply as_lawful; [apply array_lawful|done|]. intros [h] [Hlen Hh]. cbn in *. split.
  - destruct h as [|? [|? [|? [|? [|? [|]]]]]]; done.
  - by rewrite to_words_bytes.
Qed.

Definition asset_ok (a : asset) : Prop := int64 (amount a) ∧ uint 64 (asset_id a).

#[export] Instance asset_lawful : Lawful c_asset asset_ok 8.
Proof. eapply as_lawful; [apply _|done|]. intros [a i] [Ha Hi]. cbn in *. auto. Qed.

Definition operation_result_ok (r : operation_result) : Prop :=
  match r with void_result => True | object_result i => uint 64 i | asset_result a => asset_ok a end.

#[export] Instance operation_result_lawful : Lawful c_operation_result operation_result_ok 10.
Proof. eapply as_lawful; [apply _|done|]. by intros []. Qed.

(** A vector that can be read back: the limit of the allocation is asserted by [unpack]. *)
Definition vector_ok {A} (ok : A → Prop) (size : Z) (l : list A) : Prop :=
  Forall ok l ∧ Z.of_nat (length l) < 2 ^ 32 ∧ (Z.of_nat (length l) * size <? MAX_ARRAY_ALLOC_SIZE) = true.

Section Lawful.
Context {Op : Type} (c_operation : codec Op) (op_ok : Op → Prop) (n : nat) `{!Lawful c_operation op_ok n}.
Variables (sizeof_extension sizeof_operation sizeof_result sizeof_transaction : Z).

#[export] Instance extensions_lawful : Lawful (c_extensions sizeof_extension) (λ _, True) 7.
Proof. eapply as_lawful; [apply _|done|]. intros [] _. split; [|done]. split; [|constructor]. by split. Qed.

Record transaction_ok (p : @signed_transaction Op (list Z) * list operation_result) : Prop := mk_transaction_ok {
  ok_ref_block_num : uint 16 (ref_block_num p.1);
  ok_ref_block_prefix : uint 32 (ref_block_prefix p.1);
  ok_expiration : uint 32 (expiration p.1);
  ok_operations : vector_ok op_ok sizeof_operation (operations p.1);
  ok_signatures : vector_ok (λ s, length s = 65%nat) 65 (signatures p.1);
  ok_results : vector_ok operation_result_ok sizeof_result p.2
}.

(** The depth of the deepest field. *)
Definition transaction_levels : nat := 4 + (S n `max` 11).

#[export] Instance transaction_lawful :
  Lawful (c_processed_transaction c_operation sizeof_extension sizeof_operation sizeof_result) transaction_ok
    transaction_levels.
Proof.
  eapply as_lawful; [apply _|unfold transaction_levels; lia|]. intros [[x p t ops sigs] res] [H1 H2 H3 H4 H5 H6].
  cbn [fst snd ref_block_num ref_block_prefix expiration operations signatures] in *. unfold vector_ok in *. destruct_and?. by split_and!.
Qed.

Abbreviation wire_transaction := (@signed_transaction Op (list Z) * list operation_result)%type.
Abbreviation wire_block := (signed_block wire_transaction block_id_type (list Z)).
Abbreviation c_block := (c_signed_block c_operation sizeof_extension sizeof_operation sizeof_result sizeof_transaction).

Record block_ok (b : wire_block) : Prop := mk_block_ok {
  ok_version : uint 32 (version b);
  ok_previous : ripemd160_ok (previous b);
  ok_timestamp : uint 32 (timestamp b);
  ok_witness : uint 64 (witness b);
  ok_merkle_root : ripemd160_ok (transaction_merkle_root b);
  ok_witness_signature : length (witness_signature b) = 65%nat;
  ok_transactions : vector_ok transaction_ok sizeof_transaction (transactions b)
}.

Definition block_levels : nat := 4 + (7 `max` S transaction_levels).

#[export] Instance block_lawful : Lawful c_block block_ok block_levels.
Proof.
  eapply as_lawful; [apply _|unfold block_levels; lia|]. intros [v p t w r s txs] [H1 H2 H3 H4 H5 H6 H7].
  cbn [fst snd version previous timestamp witness transaction_merkle_root witness_signature transactions] in *.
  unfold vector_ok in *. destruct_and?. by split_and!.
Qed.

(** No block is packed into nothing. *)
Lemma block_not_empty d b bs : block_ok b → c_pack c_block d b = Ok bs → (block_levels ≤ d)%nat → bs ≠ [].
Proof.
  intros Hb Hp Hd ->. pose proof (unpack_packed (c := c_block) d d b [] [] Hb Hp Hd) as Hu.
  unfold block_levels in Hd. do 4 (destruct d as [|d]; [lia|]). do 2 (destruct d as [|d]; [lia|]). discriminate Hu.
Qed.

Lemma pack_block b : block_ok b → (block_levels < FC_PACK_MAX_DEPTH)%nat →
  ∃ bs, pack c_block b = Ok bs ∧ bs ≠ [] ∧ ∀ init, unpack c_block init bs = Ok b.
Proof.
  intros Hb Hd. destruct FC_PACK_MAX_DEPTH as [|d] eqn:Hmax; [lia|].
  destruct (pack_returns (c := c_block) d b Hb) as [bs Hbs]; [lia|]. exists bs. unfold pack, unpack. rewrite Hmax.
  cbn [charge]. split; [done|].
  assert (bs ≠ []) as Hne by (eapply block_not_empty; [done|exact Hbs|lia]). split; [done|]. intros init.
  destruct bs as [|x bs]; [done|]. rewrite <- (app_nil_r (x :: bs)).
  by rewrite (unpack_packed (c := c_block) d d b _ [] Hb Hbs) by lia.
Qed.
End Lawful.

(** * Blocks on the wire and on disk *)

Section Blocks.
Context {Op : Type} (c_operation : codec Op) (op_ok : Op → Prop) (n : nat) `{!Lawful c_operation op_ok n}.
Context (sizeof_extension sizeof_operation sizeof_result sizeof_transaction : Z).
Context (Hdepth : (block_levels n < FC_PACK_MAX_DEPTH)%nat).
Abbreviation wire_block := (signed_block (@signed_transaction Op (list Z) * list operation_result) block_id_type (list Z)).
Abbreviation c_block := (c_signed_block c_operation sizeof_extension sizeof_operation sizeof_result sizeof_transaction).
Abbreviation wire_ok := (block_ok op_ok sizeof_operation sizeof_result sizeof_transaction).

(** C22: a block whose fields are in the range of their types is packed at the default
    depth, and unpacked again from its bytes; no other block, and no other split of a
    stream, has the same bytes. *)
Theorem block_wire_roundtrip (b : wire_block) :
  block_ok op_ok sizeof_operation sizeof_result sizeof_transaction b →
  ∃ bs, pack c_block b = Ok bs ∧ (∀ init, unpack c_block init bs = Ok b) ∧
    ∀ b' bs' r r', wire_ok b' → pack c_block b' = Ok bs' → bs ++ r = bs' ++ r' → b = b' ∧ r = r'.
Proof.
  intros Hb. destruct (pack_block c_operation op_ok n sizeof_extension sizeof_operation sizeof_result sizeof_transaction
    b Hb Hdepth) as (bs & Hp & _ & Hu).
  exists bs. split; [done|]. split; [done|]. intros b' bs' r r' Hb' Hp' Heq.
  unfold pack in Hp, Hp'. destruct FC_PACK_MAX_DEPTH as [|d] eqn:Hmax; [done|]. cbn [charge] in Hp, Hp'.
  pose proof (unpack_packed (c := c_block) d d b bs r Hb Hp ltac:(lia)) as H1. rewrite Heq in H1.
  pose proof (unpack_packed (c := c_block) d d b' bs' r' Hb' Hp' ltac:(lia)) as H2.
  rewrite H1 in H2. by injection H2 as <- <-.
Qed.

(** The serializer of the block store. *)
Definition block_bytes (b : wire_block) : list Z := match pack c_block b with Ok bs => bs | Throw _ => [] end.
Definition block_of_bytes (init : wire_block) (bs : list Z) : option wire_block :=
  match unpack c_block init bs with Ok b => Some b | Throw _ => None end.

Context (init : wire_block) (sha224 : @signed_block_header block_id_type (list Z) → list Z).

Lemma block_bytes_unpacked b : wire_ok b → block_of_bytes init (block_bytes b) = Some b ∧ 0 < Z.of_nat (length (block_bytes b)).
Proof.
  intros Hb. destruct (pack_block c_operation op_ok n sizeof_extension sizeof_operation sizeof_result sizeof_transaction
    b Hb Hdepth) as (bs & Hp & Hne & Hu).
  unfold block_bytes, block_of_bytes. rewrite Hp, Hu. split; [done|]. destruct bs; [done|]. cbn. lia.
Qed.

Lemma wire_fits b :
  wire_ok b → Z.of_nat (length (block_bytes b)) < max_block_size → fits block_bytes (block_of_bytes init) b.
Proof. intros [H1 H2]%block_bytes_unpacked Hmax. by split. Qed.

(** The block store with the real format: what is stored is read back, and the store
    stays well formed. *)
Theorem wire_store_fetch b db :
  db_ok db → wire_ok b → id_of sha224 b ≠ null_block_id → Z.of_nat (length (block_bytes b)) < max_block_size →
  ∃ db', store sha224 block_bytes (id_of sha224 b) b db = Ok db' ∧ db_ok db' ∧
    fetch_optional sha224 (block_of_bytes init) (id_of sha224 b) db' = Some b.
Proof.
  intros Hok Hb Hid Hmax. destruct (wire_fits b Hb Hmax) as [Hu Hsz].
  destruct (store_entry sha224 block_bytes (block_of_bytes init) (id_of sha224 b) b db Hu Hid Hsz) as [He Hread].
  eexists. split; [by apply store_Ok|]. split; [by apply store_db_ok|].
  unfold fetch_optional. rewrite He. cbn [mbind option_bind]. rewrite decide_True by done. by rewrite (Hread eq_refl).
Qed.
End Blocks.

(** * What the format gets wrong *)
Module WireExample.

(** [signed_int] loses numbers from 2^30 on: the sign bit of the zigzag code is mixed in. *)
Theorem signed_int_wraps :
  c_unpack c_signed_int 0 (match c_pack c_signed_int 0 (2 ^ 30) with Ok bs => bs | Throw _ => [] end)
  = Ok (2 ^ 30 + 1, []).
Proof. vm_compute. reflexivity. Qed.

(** A number of six groups from the network shifts a 32-bit integer by 35. *)
Theorem overlong_number_undefined : c_unpack c_unsigned_int 0 [128; 128; 128; 128; 128; 1] = Throw undefined_behaviour.
Proof. vm_compute. reflexivity. Qed.

(** At the last level a string can be packed, but not unpacked. *)
Theorem string_unreadable :
  c_pack c_string 1 [65] = Ok [1; 65] ∧ c_unpack c_string 1 [1; 65] = Throw assert_exception.
Proof. vm_compute. split; reflexivity. Qed.

(** *** Witnesses: operations that are object identifiers *)

Definition sample : signed_block (@signed_transaction Z (list Z) * list operation_result) block_id_type (list Z) :=
  mk_block 1 (mk_block_id [7; 2 ^ 31; 0; 1; 2 ^ 32 - 1]) 1600000000 300 null_block_id (replicate 65 9)
    [(mk_trx 12 5 1600000100 [3; 2 ^ 40] [replicate 65 1], [void_result; asset_result (mk_asset (-5) 0)])].

Abbreviation c_sample := (c_signed_block c_object_id 24 16 32 200).

Lemma sample_ok : block_ok (uint 64) 16 32 200 sample.
Proof.
  split; try (apply (bool_decide_unpack _); vm_compute; exact I).
  split; [|split; [cbn; lia|reflexivity]]. constructor; [|constructor].
  split; cbn [fst snd ref_block_num ref_block_prefix expiration operations signatures].
  1-3: unfold uint; lia.
  - split; [repeat constructor; unfold uint; lia|split; [cbn; lia|reflexivity]].
  - split; [repeat constructor|split; [cbn; lia|reflexivity]].
  - split; [|split; [cbn; lia|reflexivity]]. repeat constructor; cbn; int_lia.
Qed.

Lemma sample_depth : (block_levels 4 < FC_PACK_MAX_DEPTH)%nat.
Proof. apply (bool_decide_unpack _). vm_compute. exact I. Qed.

Lemma block_wire_roundtrip_witness :
  ∃ bs, pack c_sample sample = Ok bs ∧ ∀ init, unpack c_sample init bs = Ok sample.
Proof.
  destruct (block_wire_roundtrip c_object_id (uint 64) 4 24 16 32 200 sample_depth sample sample_ok) as (bs & Hp & Hu & _).
  exists bs. exact (conj Hp Hu).
Defined.

Lemma wire_store_fetch_witness :
  ∃ db', store (λ _, [1; 2; 3; 4; 5; 6; 7]) (block_bytes c_object_id 24 16 32 200)
           (id_of (λ _, [1; 2; 3; 4; 5; 6; 7]) sample) sample (mk_db [] []) = Ok db' ∧
    fetch_optional (λ _, [1; 2; 3; 4; 5; 6; 7]) (block_of_bytes c_object_id 24 16 32 200 sample)
      (id_of (λ _, [1; 2; 3; 4; 5; 6; 7]) sample) db' = Some sample.
Proof.
  destruct (wire_store_fetch c_object_id (uint 64) 4 24 16 32 200 sample_depth sample (λ _, [1; 2; 3; 4; 5; 6; 7])
    sample (mk_db [] [])) as (db' & Hs & _ & Hf).
  - intros i e Hi. discriminate Hi.
  - exact sample_ok.
  - discriminate.
  - vm_compute. reflexivity.
  - exists db'. exact (conj Hs Hf).
Defined.
End WireExample.
