(* ===== verification/Names.v ===== *)
(** * Account names and what they cost: libraries/chain/protocol/account.cpp

    [is_valid_name] is related to the grammar its comment gives (RFC 1035); a short name
    is dearer than a cheap one; data is paid for by the kilobyte. *)

From S2P Require Import Prelude Uint128 Asset.
From Stdlib Require Import Ascii.

Local Open Scope Z_scope.

Definition GRAPHENE_MIN_ACCOUNT_NAME_LENGTH : nat := 1.
Definition GRAPHENE_MAX_ACCOUNT_NAME_LENGTH : nat := 63.

(** ** Texts that go into web pages: types.hpp *)

(** [is_safe_string]: without quotes and angle brackets. *)
Fixpoint is_safe_string (s : string) : bool :=
  match s with
  | EmptyString => true
  | String c s =>
      negb (existsb (Ascii.eqb c) [Ascii.ascii_of_nat 34; Ascii.ascii_of_nat 60; Ascii.ascii_of_nat 62; Ascii.ascii_of_nat 39])
      && is_safe_string s
  end.

(** [is_safe_js_string]. *)
Fixpoint is_safe_js_string (s : string) : bool :=
  match s with
  | EmptyString => true
  | String c s => negb (Ascii.eqb c "<"%char || Ascii.eqb c ">"%char) && is_safe_js_string s
  end.

(** ** Names *)

Definition in_range (lo hi c : ascii) : bool :=
  (nat_of_ascii lo <=? nat_of_ascii c)%nat && (nat_of_ascii c <=? nat_of_ascii hi)%nat.

(** The cases of the three switches. *)
Definition letter (c : ascii) : bool := in_range "a" "z" c.
Definition let_dig (c : ascii) : bool := letter c || in_range "0" "9" c.
Definition let_dig_hyp (c : ascii) : bool := let_dig c || Ascii.eqb c "-".

(** [boost::algorithm::to_lower], of the classic locale. *)
Definition to_lower (c : ascii) : ascii :=
  if in_range "A" "Z" c then ascii_of_nat (nat_of_ascii c + 32) else c.

(** [name.find_first_of( c, begin )]. *)
Fixpoint find_from (c : ascii) (l : list ascii) (pos : nat) : option nat :=
  match l with
  | [] => None
  | x :: l => if Ascii.eqb x c then Some pos else find_from c l (S pos)
  end.
Definition find_first_of (c : ascii) (name : list ascii) (begin : nat) : option nat :=
  find_from c (drop begin name) begin.

(** [name[i]], for [i] within the string. *)
Definition at_ (name : list ascii) (i : nat) : ascii := default zero (name !! i).

(** The [while] loop: a label begins at [begin]. *)
Fixpoint check_labels (fuel : nat) (name : list ascii) (begin : nat) : bool :=
  match fuel with
  | O => false
  | S fuel =>
      let len := length name in
      let end_ := default len (find_first_of "." name begin) in
      if (end_ - begin <? GRAPHENE_MIN_ACCOUNT_NAME_LENGTH)%nat then false
      else if negb (letter (at_ name begin)) then false
      else if negb (let_dig (at_ name (end_ - 1))) then false
      else if negb (forallb (λ i, let_dig_hyp (at_ name i)) (seq (begin + 1) (end_ - 1 - (begin + 1)))) then false
      else if (end_ =? len)%nat then true
      else check_labels fuel name (end_ + 1)
  end.

Definition is_valid_name (name_s : string) : bool :=
  let name := to_lower <$> String.list_ascii_of_string name_s in
  let len := length name in
  if (len <? GRAPHENE_MIN_ACCOUNT_NAME_LENGTH)%nat then false
  else if (GRAPHENE_MAX_ACCOUNT_NAME_LENGTH <? len)%nat then false
  else check_labels (S len) name 0.

Definition vowel (c : ascii) : bool := existsb (Ascii.eqb c) ["a"; "e"; "i"; "o"; "u"; "y"]%char.

(** The [for] loop of [is_cheap_name]. *)
Fixpoint cheap_loop (l : list ascii) (v : bool) : bool :=
  match l with
  | [] => negb v
  | c :: l =>
      if in_range "0" "9" c then true
      else if Ascii.eqb c "." || Ascii.eqb c "-" || Ascii.eqb c "/" then true
      else cheap_loop l (v || vowel c)
  end.

Definition is_cheap_name (n : string) : bool :=
  if (8 <? String.length n)%nat then true
  else if (String.length n <=? 2)%nat then false
  else cheap_loop (String.list_ascii_of_string n) false.

(** ** What a name costs *)

Record create_fee_parameters := mk_create_fee {
  basic_fee : Z;
  premium_fee : Z;
  price_per_kbyte : Z;
  char_fee : Z
}.

Section Fee.
Context `{Division128}.

(** [base_operation::calculate_data_fee]. *)
Definition calculate_data_fee (bytes price : Z) : result Z :=
  let r := div128 (mul128 (of_uint64 bytes) (of_uint64 price)) (of_uint64 1024) in
  FC_ASSERT (le128 r (of_int64 GRAPHENE_MAX_SHARE_SUPPLY)) ;; to_uint64 r.

Definition char_len : list Z := [0; 8; 7; 6; 5; 4; 3; 2; 1; 0].

(** [account_create_operation::calculate_fee] of an operation of [bytes] bytes; unsigned
    64-bit sums become a [share_type]. *)
Definition account_create_fee (name : string) (bytes : Z) (k : create_fee_parameters) : result Z :=
  let required :=
    if is_cheap_name name then basic_fee k
    else
      let n := String.length name in
      if (n <=? 8)%nat && (0 <? n)%nat
      then to_uint 64 (premium_fee k + to_uint 64 (default 0 (char_len !! n) * char_fee k))
      else premium_fee k in
  data_fee ← calculate_data_fee bytes (price_per_kbyte k);
  mret (to_sint 64 (to_uint 64 (required + data_fee))).
End Fee.

(** ** The grammar of the comment *)

Inductive label : list ascii → Prop :=
  | label_letter c : letter c = true → label [c]
  | label_long c ldh d :
      letter c = true → Forall (λ x, let_dig_hyp x = true) ldh → let_dig d = true → label (c :: ldh ++ [d]).

Inductive subdomain : list ascii → Prop :=
  | subdomain_label l : label l → subdomain l
  | subdomain_dot s l : subdomain s → label l → subdomain (s ++ "."%char :: l).

(** ** The loop checks the grammar *)

(** The labels from the front, as the loop meets them. *)
Inductive labels : list ascii → Prop :=
  | labels_last l : label l → labels l
  | labels_cons l s : label l → labels s → labels (l ++ "."%char :: s).

Lemma labels_app s l : labels s → label l → labels (s ++ "."%char :: l).
Proof.
  intros Hs Hl. induction Hs as [s Hs|l1 s H1 _ IH]; [apply labels_cons; [done|by apply labels_last]|].
  rewrite <- app_assoc. by apply labels_cons.
Qed.

Lemma subdomain_app l s : label l → subdomain s → subdomain (l ++ "."%char :: s).
Proof.
  intros Hl Hs. induction Hs as [s Hs|s l1 _ IH H1]; [apply subdomain_dot; [by apply subdomain_label|done]|].
  rewrite app_comm_cons, app_assoc. by apply subdomain_dot.
Qed.

Lemma subdomain_labels s : subdomain s ↔ labels s.
Proof.
  split; induction 1; [by apply labels_last|by apply labels_app|by apply subdomain_label|by apply subdomain_app].
Qed.

Lemma let_dig_hyp_no_dot c : let_dig_hyp c = true → c ≠ "."%char.
Proof. intros Hc ->. vm_compute in Hc. done. Qed.
Lemma letter_let_dig c : letter c = true → let_dig c = true.
Proof. unfold let_dig. by intros ->. Qed.
Lemma let_dig_let_dig_hyp c : let_dig c = true → let_dig_hyp c = true.
Proof. unfold let_dig_hyp. by intros ->. Qed.

Lemma label_no_dot l : label l → "."%char ∉ l.
Proof.
  intros Hl Hd. assert (Forall (λ c, let_dig_hyp c = true) l) as Hall.
  { destruct Hl as [c Hc|c ldh d Hc Hm Hd']; repeat constructor; auto using letter_let_dig, let_dig_let_dig_hyp.
    apply Forall_app. split; [done|]. repeat constructor. by apply let_dig_let_dig_hyp. }
  rewrite Forall_forall in Hall. by apply (let_dig_hyp_no_dot _ (Hall _ Hd)).
Qed.

(** The label a string begins with. *)
Lemma first_label l : ∃ lab rest, l = lab ++ rest ∧ "."%char ∉ lab ∧ (rest = [] ∨ ∃ s, rest = "."%char :: s) ∧
  ∀ pos, find_from "." l pos = match rest with [] => None | _ => Some (pos + length lab)%nat end.
Proof.
  induction l as [|c l (lab & rest & -> & Hlab & Hrest & Hfind)].
  - exists [], []. split_and!; [done|set_solver|by left|done].
  - destruct (Ascii.eqb_spec c ".") as [->|Hc].
    + exists [], ("."%char :: lab ++ rest). split_and!; [done|set_solver|right; by eexists|].
      intros pos. cbn. by rewrite Nat.add_0_r.
    + exists (c :: lab), rest. split_and!; [done|set_solver|done|]. intros pos. cbn [find_from app].
      rewrite (proj2 (Ascii.eqb_neq _ _) Hc), Hfind. destruct rest; [done|]. f_equal. cbn. lia.
Qed.

(** Two strings with the same first dot have the same first label. *)
Lemma first_label_unique l1 s1 l2 s2 :
  "."%char ∉ l1 → "."%char ∉ l2 → l1 ++ "."%char :: s1 = l2 ++ "."%char :: s2 → l1 = l2 ∧ s1 = s2.
Proof.
  revert l2. induction l1 as [|c l1 IH]; intros [|c2 l2] H1 H2 Heq; simplify_list_eq; [done|set_solver|set_solver|].
  destruct (IH l2) as [-> ->]; [set_solver|set_solver|done|done].
Qed.

(** A label by its first and last character and those between. *)
Definition label_checked (lab : list ascii) : bool :=
  match lab with
  | [] => false
  | c :: tl => letter c && let_dig (default c (last tl)) && forallb let_dig_hyp (take (length tl - 1) tl)
  end.

Lemma label_checked_spec lab : label_checked lab = true ↔ label lab.
Proof.
  split.
  - destruct lab as [|c tl]; [done|]. cbn [label_checked]. intros [[Hc Hd]%andb_true_iff Hm]%andb_true_iff.
    destruct tl as [|d mid _] using rev_ind; [by apply label_letter|].
    rewrite last_snoc in Hd. rewrite length_app in Hm. cbn [length default] in Hd, Hm.
    rewrite Nat.add_sub, take_app_length in Hm. apply label_long; [done| |done].
    apply Forall_forall. intros x Hx. eapply forallb_forall; [exact Hm|by apply list_elem_of_In].
  - intros [c Hc|c ldh d Hc Hm Hd]; cbn [label_checked].
    + cbn. by rewrite Hc, (letter_let_dig _ Hc).
    + rewrite Hc, last_snoc, length_app. change (default c (Some d)) with d. cbn [length].
      rewrite Hd, Nat.add_sub, take_app_length. cbn.
      apply forallb_forall. intros x Hx%list_elem_of_In. rewrite Forall_forall in Hm. by apply Hm.
Qed.

(** The checks at the indices of a label are those of the label. *)
Lemma at_label pre lab rest i : (i < length lab)%nat → at_ (pre ++ lab ++ rest) (length pre + i) = default zero (lab !! i).
Proof. intros Hi. unfold at_. by rewrite lookup_app_r, Nat.add_sub', lookup_app_l by lia. Qed.

Lemma forallb_seq_lookup (f : ascii → bool) (l : list ascii) (pre n : nat) (g : nat → ascii) :
  (n ≤ length l)%nat → (∀ i, (i < n)%nat → g (pre + i)%nat = default zero (l !! i)) →
  forallb (λ i, f (g i)) (seq pre n) = forallb f (take n l).
Proof.
  revert l pre. induction n as [|n IH]; intros l pre Hn Hg; [done|]. destruct l as [|c l]; cbn in Hn; [lia|].
  cbn [seq forallb take]. f_equal.
  - f_equal. rewrite <- (Nat.add_0_r pre). apply (Hg 0%nat). lia.
  - apply IH; [lia|]. intros i Hi. rewrite Nat.add_succ_comm. apply (Hg (S i)). lia.
Qed.

Lemma label_at_indices pre lab rest :
  let name := pre ++ lab ++ rest in let begin := length pre in let end_ := (begin + length lab)%nat in
  (if (end_ - begin <? GRAPHENE_MIN_ACCOUNT_NAME_LENGTH)%nat then false
   else if negb (letter (at_ name begin)) then false
   else if negb (let_dig (at_ name (end_ - 1))) then false
   else forallb (λ i, let_dig_hyp (at_ name i)) (seq (begin + 1) (end_ - 1 - (begin + 1)))) = label_checked lab.
Proof.
  cbv zeta. destruct lab as [|c tl]; [by rewrite Nat.add_0_r, Nat.sub_diag|].
  rewrite Nat.add_sub'. cbn [length]. change (S (length tl) <? GRAPHENE_MIN_ACCOUNT_NAME_LENGTH)%nat with false. cbn [label_checked].
  assert (at_ (pre ++ (c :: tl) ++ rest) (length pre) = c) as ->.
  { pose proof (at_label pre (c :: tl) rest 0) as H0. rewrite Nat.add_0_r in H0. by apply H0; cbn; lia. }
  destruct (letter c); [|done]. cbn [negb andb].
  assert (at_ (pre ++ (c :: tl) ++ rest) (length pre + S (length tl) - 1) = default c (last tl)) as ->.
  { replace (length pre + S (length tl) - 1)%nat with (length pre + length tl)%nat by lia. rewrite at_label by (cbn; lia).
    rewrite last_lookup. destruct tl as [|d tl]; [done|].
    change ((c :: d :: tl) !! length (d :: tl)) with ((d :: tl) !! length tl). cbn [length pred].
    destruct (lookup_lt_is_Some_2 (d :: tl) (length tl)) as [x Hx]; [cbn; lia|]. by rewrite Hx. }
  destruct (let_dig (default c (last tl))); [|done]. cbn [negb andb].
  replace (length pre + S (length tl) - 1 - (length pre + 1))%nat with (length tl - 1)%nat by lia.
  apply forallb_seq_lookup; [lia|]. intros i Hi.
  replace (length pre + 1 + i)%nat with (length pre + S i)%nat by lia. by rewrite at_label by (cbn; lia).
Qed.

Lemma check_labels_spec fuel pre s : (length s < fuel)%nat → check_labels fuel (pre ++ s) (length pre) = true ↔ labels s.
Proof.
  revert pre s. induction fuel as [|fuel IH]; intros pre s Hf; [lia|]. cbn [check_labels]. cbv zeta.
  destruct (first_label s) as (lab & rest & -> & Hlab & Hrest & Hfind).
  assert (default (length (pre ++ lab ++ rest)) (find_first_of "." (pre ++ lab ++ rest) (length pre)) = length pre + length lab)%nat as ->.
  { unfold find_first_of. rewrite drop_app_length, Hfind. destruct Hrest as [->|[s ->]]; [|done].
    cbn. rewrite !length_app. cbn. lia. }
  pose proof (label_at_indices pre lab rest) as Hchk. cbv zeta in Hchk.
  assert (∀ a b c d r : bool, (if a then false else if b then false else if c then false else if negb d then false else r) =
    (if a then false else if b then false else if c then false else d) && r) as Hif by by intros [] [] [] [] [].
  rewrite Hif, Hchk.
  rewrite andb_true_iff, label_checked_spec. rewrite !length_app in *.
  destruct Hrest as [->|[s ->]].
  - cbn [length]. rewrite Nat.add_0_r, Nat.eqb_refl, app_nil_r. split; [intros [Hl _]; by apply labels_last|].
    intros Hl. split; [|done]. destruct Hl as [l Hl|l s Hl _]; [done|]. set_solver.
  - cbn [length] in *. destruct (Nat.eqb_spec (length pre + length lab) (length pre + (length lab + S (length s)))) as [|_]; [lia|].
    replace (pre ++ lab ++ "."%char :: s) with ((pre ++ lab ++ ["."%char]) ++ s) by (by rewrite <- !app_assoc).
    replace (length pre + length lab + 1)%nat with (length (pre ++ lab ++ ["."%char])) by (rewrite !length_app; cbn; lia).
    rewrite IH by lia. split; [intros [Hl Hs]; by apply labels_cons|].
    inversion 1 as [l Hl Heq|l s' Hl Hs Heq]; subst.
    + exfalso. apply (label_no_dot _ Hl). set_solver.
    + apply first_label_unique in Heq as [-> ->]; [done|by apply label_no_dot|done].
Qed.

Lemma length_list_ascii s : length (String.list_ascii_of_string s) = String.length s.
Proof. induction s as [|c s IH]; cbn; [done|by f_equal]. Qed.

(** A name is valid when its comment says so, up to the case: it has between 1 and 63
    characters and, in lower case, it is a domain of RFC 1035: labels of letters, digits
    and hyphens joined by dots, each of which begins with a letter and ends with a letter or
    a digit. *)
Theorem valid_name_grammar s :
  is_valid_name s = true ↔
  (1 ≤ String.length s ≤ 63)%nat ∧ subdomain (to_lower <$> String.list_ascii_of_string s).
Proof.
  unfold is_valid_name. cbv zeta. rewrite length_fmap, length_list_ascii, subdomain_labels.
  rewrite <- (check_labels_spec (S (String.length s)) []) by (rewrite length_fmap, length_list_ascii; lia).
  unfold GRAPHENE_MIN_ACCOUNT_NAME_LENGTH, GRAPHENE_MAX_ACCOUNT_NAME_LENGTH. cbn [app length].
  destruct (Nat.ltb_spec (String.length s) 1); [split; [done|lia]|].
  destruct (Nat.ltb_spec 63 (String.length s)); [split; [done|lia]|]. split; [intros H1; split; [lia|done]|by intros [_ H1]].
Qed.

(** ** The fee of a name *)

Section FeeExact.
Context `{Division128}.

(** The price of the name alone. *)
Definition name_price (name : string) (k : create_fee_parameters) : Z :=
  if is_cheap_name name then basic_fee k
  else premium_fee k + (if (0 <? String.length name)%nat then (9 - Z.of_nat (String.length name)) * char_fee k else 0).

Lemma dear_name_short name : is_cheap_name name = false → (String.length name ≤ 8)%nat.
Proof. unfold is_cheap_name. destruct (Nat.ltb_spec 8 (String.length name)); [done|lia]. Qed.

Lemma char_len_exact n : (0 < n ≤ 8)%nat → default 0 (char_len !! n) = 9 - Z.of_nat n.
Proof. intros Hn. do 9 (destruct n as [|n]; [cbn; lia|]). lia. Qed.

(** Data is paid for exactly, or not at all when the fee is too high. *)
Lemma calculate_data_fee_exact bytes price :
  uint 64 bytes → uint 32 price →
  calculate_data_fee bytes price =
    if bytes * price / 1024 <=? GRAPHENE_MAX_SHARE_SUPPLY then Ok (bytes * price / 1024) else Throw assert_exception.
Proof.
  intros Hb Hp. unfold calculate_data_fee.
  destruct (mul128_spec (of_uint64 bytes) (of_uint64 price)) as [Hm Hmv]; [by apply wf_of_uint64|apply wf_of_uint64; unfold uint in *; lia|].
  rewrite !val_of_uint64, Z.mod_small in Hmv by (unfold uint in *; change (2 ^ 128) with (2 ^ 64 * 2 ^ 64); nia).
  assert (wf128 (of_uint64 1024)) as Hdw by (apply wf_of_uint64; unfold uint; lia).
  pose proof (div128_wf _ _ Hm Hdw ltac:(rewrite val_of_uint64; lia)) as Hq.
  pose proof (div128_val _ _ Hm Hdw ltac:(rewrite val_of_uint64; lia)) as Hqv. rewrite val_of_uint64, Hmv in Hqv.
  destruct (of_int64_spec GRAPHENE_MAX_SHARE_SUPPLY) as [Hs Hsv]; [vm_compute; done|vm_compute; done|].
  rewrite le128_spec, Hqv, Hsv by done.
  destruct (Z.leb_spec (bytes * price / 1024) GRAPHENE_MAX_SHARE_SUPPLY) as [Hle|]; [|done]. cbn [mbind result_bind FC_ASSERT].
  rewrite to_uint64_spec by (done || rewrite Hqv; unfold GRAPHENE_MAX_SHARE_SUPPLY in Hle; lia). by rewrite Hqv.
Qed.

(** The fee is the price of the name and of the data. *)
Lemma account_create_fee_exact name bytes k :
  uint 64 (basic_fee k) → uint 64 (premium_fee k) → uint 64 (char_fee k) → uint 64 bytes → uint 32 (price_per_kbyte k) →
  bytes * price_per_kbyte k / 1024 ≤ GRAPHENE_MAX_SHARE_SUPPLY →
  int64 (name_price name k + bytes * price_per_kbyte k / 1024) →
  account_create_fee name bytes k = Ok (name_price name k + bytes * price_per_kbyte k / 1024).
Proof.
  intros Hb Hp Hc Hn Hk Hd Hi. unfold account_create_fee, name_price in *.
  rewrite calculate_data_fee_exact, (proj2 (Z.leb_le _ _) Hd) by done. cbn [mbind result_bind]. cbv zeta.
  assert (0 ≤ bytes * price_per_kbyte k / 1024) as Hd0 by (apply Z.div_pos; unfold uint in *; nia).
  set (data := bytes * price_per_kbyte k / 1024) in *. clearbody data. unfold int64, int64_min, int64_max, uint in *.
  f_equal. destruct (is_cheap_name name) eqn:Hcheap.
  - rewrite to_uint_id by (unfold uint; lia). apply to_sint_64_id. int_lia.
  - pose proof (dear_name_short name Hcheap) as Hlen. rewrite (proj2 (Nat.leb_le _ _) Hlen). cbn [andb].
    destruct (Nat.ltb_spec 0 (String.length name)) as [H0|H0].
    + rewrite char_len_exact by lia. assert (1 ≤ 9 - Z.of_nat (String.length name) ≤ 8) as Hf by lia.
      set (f := 9 - Z.of_nat (String.length name)) in *. clearbody f.
      assert (0 ≤ f * char_fee k) by nia.
      rewrite (to_uint_id 64 (f * char_fee k)), (to_uint_id 64 (premium_fee k + f * char_fee k)),
        to_uint_id by (unfold uint; lia). apply to_sint_64_id. int_lia.
    + rewrite Z.add_0_r in Hi. rewrite to_uint_id by (unfold uint; lia). rewrite Z.add_0_r. apply to_sint_64_id. int_lia.
Qed.
End FeeExact.

Module NamesExample.
(** Letters may be of any case, though the comment wants them lower; and since only the
    small vowels count, a short name in capitals is as cheap as a long one. *)
Theorem capitals_are_cheap :
  is_valid_name "APPLE" = true ∧ is_cheap_name "APPLE" = true ∧ is_valid_name "apple" = true ∧ is_cheap_name "apple" = false.
Proof. vm_compute. done. Qed.

(** A label may have a single character, where the comment says three. *)
Theorem short_label_valid : is_valid_name "a.b" = true.
Proof. vm_compute. done. Qed.

Example hyphen_at_the_end : is_valid_name "ab-" = false.
Proof. vm_compute. reflexivity. Qed.
Example empty_label : is_valid_name "ab..cd" = false.
Proof. vm_compute. reflexivity. Qed.

Lemma account_create_fee_exact_witness :
  account_create_fee "apple" 300 (mk_create_fee 10000 100000000 1000 1000000) = Ok (100000000 + 4 * 1000000 + 292).
Proof.
  refine (account_create_fee_exact "apple" 300 (mk_create_fee 10000 100000000 1000 1000000) _ _ _ _ _ _ _);
    apply (bool_decide_unpack _); vm_compute; exact I.
Defined.
End NamesExample.
