(* ===== verification/Proposals.v ===== *)
(** * Proposals: proposal_evaluator.cpp, proposal_object.cpp, protocol/proposal.cpp,
    and what db_block.cpp, db_update.cpp and db_operate.cpp do with them

    A proposal is a transaction kept in the database until enough accounts approve of
    it.  It is executed within an undo session of its own, when the last approval comes
    or when it expires.  Executing it can create, update and delete proposals in turn:
    [apply_operation] recurs with fuel, and [apply_operation_fuel] says how much is
    enough.  A reference to a proposal is its number: to follow it after the proposal has
    been removed is undefined.  The operations that are no proposals, the rest of the
    database they work on and the texts of errors are parameters. *)

From S2P Require Import Prelude Authority Requirements ObjectId Safe Asset Balance Fees Authority Names Wire.
From Stdlib Require Import Ascii Sorted.

Local Open Scope Z_scope.

(** ** Operations: protocol/operations.hpp *)

Module Tag.
(** [operation::tag<T>::value], in the order of the variant. *)
Inductive tag :=
   | transfer_operation | limit_order_create_operation | limit_order_cancel_operation
   | call_order_update_operation | fill_order_operation | account_create_operation | account_update_operation
   | account_whitelist_operation | account_upgrade_operation | account_transfer_operation
   | asset_create_operation | asset_update_operation | asset_update_bitasset_operation
   | asset_update_feed_producers_operation | asset_issue_operation | asset_reserve_operation
   | asset_fund_fee_pool_operation | asset_settle_operation | asset_global_settle_operation
   | asset_publish_feed_operation | witness_create_operation | witness_update_operation
   | proposal_create_operation | proposal_update_operation | proposal_delete_operation
   | withdraw_permission_create_operation | withdraw_permission_update_operation
   | withdraw_permission_claim_operation | withdraw_permission_delete_operation
   | committee_member_create_operation | committee_member_update_operation
   | committee_member_update_global_parameters_operation | vesting_balance_create_operation
   | vesting_balance_withdraw_operation | worker_create_operation | custom_operation | assert_operation
   | balance_claim_operation | override_transfer_operation | transfer_to_blind_operation
   | blind_transfer_operation | transfer_from_blind_operation | asset_settle_cancel_operation
   | asset_claim_fees_operation | fba_distribute_operation | bid_collateral_operation | execute_bid_operation
   | asset_reserve_fees_operation | gateway_withdraw_operation | gateway_deposit_operation
   | gateway_issue_currency_operation | bitlender_option_create_operation | bitlender_option_author_operation
   | bitlender_option_update_operation | bitlender_rate_update_operation | asset_property_operation
   | bitlender_loan_operation | bitlender_invest_operation | bitlender_repay_interest_operation
   | bitlender_overdue_interest_operation | bitlender_repay_principal_operation
   | bitlender_pre_repay_principal_operation | bitlender_overdue_repay_principal_operation
   | bitlender_add_collateral_operation | bitlender_recycle_operation | bitlender_setautorepayer_operation
   | fill_object_history_operation | issue_fundraise_create_operation | issue_fundraise_update_operation
   | buy_fundraise_create_operation | buy_fundraise_enable_operation | account_coupon_operation
   | change_identity_operation | bitlender_autorepayment_operation | withdraw_exchange_fee_operation
   | bitlender_paramers_update_operation | gateway_create_operation | gateway_update_operation
   | carrier_create_operation | carrier_update_operation | budget_member_create_operation
   | budget_member_update_operation | transfer_vesting_operation | revoke_vesting_operation
   | bitlender_remove_operation | bitlender_squeeze_operation | bitlender_publish_feed_operation
   | bitlender_update_feed_producers_operation | bitlender_test_operation | bitlender_option_stop_operation
   | issue_fundraise_publish_feed_operation | finance_paramers_update_operation
   | sell_exchange_create_operation | sell_exchange_update_operation | sell_exchange_remove_operation
   | buy_exchange_create_operation | buy_exchange_update_operation | buy_exchange_remove_operation
   | issue_fundraise_remove_operation | bitlender_option_fee_mode_operation | account_authenticate_operation
   | author_create_operation | author_update_operation | bitlender_recycle_interest_operation
   | account_config_operation | asset_update_gateway_operation
   | committee_member_update_zos_parameters_operation | locktoken_create_operation
   | locktoken_update_operation | locktoken_remove_operation | locktoken_node_operation
   | locktoken_option_operation.
End Tag.

Record proposal_create_operation {Op : Type} := mk_create {
  create_fee : asset;
  create_payer : Z;
  create_expiration : Z;
  proposed_ops : list Op;
  review_period_seconds : option Z;
  create_memo : option string
}.
Arguments proposal_create_operation Op : clear implicits.
Arguments mk_create {Op}.

Record proposal_update_operation := mk_update {
  update_fee : asset;
  update_payer : Z;
  proposal : Z;
  active_approvals_to_add : gset Z;
  active_approvals_to_remove : gset Z;
  owner_approvals_to_add : gset Z;
  owner_approvals_to_remove : gset Z;
  key_approvals_to_add : gset Z;
  key_approvals_to_remove : gset Z
}.

Record proposal_delete_operation := mk_delete {
  delete_payer : Z;
  using_owner_authority : bool;
  delete_fee : asset;
  deleted_proposal : Z
}.

(** The operations of other kinds: their place in the variant, their validation, the
    authorities they require and the evaluator that is registered for them. *)
Class Operations (X R : Type) := {
  x_which : X → Tag.tag;
  x_validate : X → result ();
  x_authorities : X → visited;
  x_apply : evaluation_flags → X → M (ledger * R) operation_result
}.

Section Proposals.
Context {X R : Type} `{!Operations X R}.

Inductive operation :=
  | proposal_create (o : proposal_create_operation operation)
  | proposal_update (o : proposal_update_operation)
  | proposal_delete (o : proposal_delete_operation)
  | fill_object_history (id issuer : Z) (data : list Z)
  | other_operation (x : X).

Definition which (op : operation) : Tag.tag :=
  match op with
  | proposal_create _ => Tag.proposal_create_operation
  | proposal_update _ => Tag.proposal_update_operation
  | proposal_delete _ => Tag.proposal_delete_operation
  | fill_object_history _ _ _ => Tag.fill_object_history_operation
  | other_operation x => x_which x
  end.

(** ** protocol/proposal.cpp *)

Definition memo_ok (m : option string) : result () :=
  match m with
  | None => Ok ()
  | Some m => FC_ASSERT (Z.of_nat (String.length m) <? 400) ;; FC_ASSERT (is_safe_js_string m)
  end.

Definition proposal_update_validate (o : proposal_update_operation) : result () :=
  FC_ASSERT (0 <=? amount (update_fee o)) ;;
  FC_ASSERT (negb (bool_decide (active_approvals_to_add o = ∅) && bool_decide (active_approvals_to_remove o = ∅) &&
    bool_decide (owner_approvals_to_add o = ∅) && bool_decide (owner_approvals_to_remove o = ∅) &&
    bool_decide (key_approvals_to_add o = ∅) && bool_decide (key_approvals_to_remove o = ∅))) ;;
  FC_ASSERT (bool_decide (active_approvals_to_add o ## active_approvals_to_remove o)) ;;
  FC_ASSERT (bool_decide (owner_approvals_to_add o ## owner_approvals_to_remove o)) ;;
  FC_ASSERT (bool_decide (key_approvals_to_add o ## key_approvals_to_remove o)).

Definition proposal_delete_validate (o : proposal_delete_operation) : result () :=
  FC_ASSERT (0 <=? amount (delete_fee o)).

(** [operation_validate], with [proposal_create_operation::validate]. *)
Fixpoint operation_validate (op : operation) : result () :=
  match op with
  | proposal_create (mk_create _ _ _ ops _ memo) =>
      FC_ASSERT (negb (length ops =? 0)%nat) ;; memo_ok memo ;;
      foldr (λ op rest, operation_validate op ;; rest) (Ok ()) ops
  | proposal_update o => proposal_update_validate o
  | proposal_delete o => proposal_delete_validate o
  | fill_object_history _ _ _ => Ok ()
  | other_operation x => x_validate x
  end.

(** [transaction::validate]. *)
Definition transaction_validate (ops : list operation) : result () :=
  FC_ASSERT (0 <? Z.of_nat (length ops)) ;; foldr (λ op rest, operation_validate op ;; rest) (Ok ()) ops.

(** The functions of an operation that the visitor calls; the operations of other kinds may
    empty what those before them require. *)
Definition calls (op : operation) : visited :=
  match op with
  | proposal_create o => Requirements.calls (λ _, None) (payer_operation (create_payer o))
  | proposal_update o =>
      Requirements.calls (λ _, None)
        (Requirements.proposal_update_operation (update_payer o) (active_approvals_to_add o) (active_approvals_to_remove o)
           (owner_approvals_to_add o) (owner_approvals_to_remove o) (key_approvals_to_add o) (key_approvals_to_remove o))
  | proposal_delete o => Requirements.calls (λ _, None) (payer_operation (delete_payer o))
  | fill_object_history _ _ _ => Requirements.calls (λ _, None) (payer_operation 0)
  | other_operation x => x_authorities x
  end.

Definition operation_get_required_authorities (op : operation) (r : required_authorities) : required_authorities :=
  visit (calls op) r.

(** [proposal_create_operation::is_need_review_period]. *)
Definition is_need_review_period (o : proposal_create_operation operation) : bool :=
  let '(active, owner, _) := required_by operation_get_required_authorities (proposed_ops o) in
  if decide (0 ∈ active) then true else bool_decide (0 ∈ owner).

(** ** proposal_object.hpp and the database *)

Record proposal_object := mk_proposal {
  expiration_time : Z;
  create_time : Z;
  review_period_time : option Z;
  proposed_transaction : list operation;
  memo : string;
  required_active_approvals : gset Z;
  available_active_approvals : gset Z;
  required_owner_approvals : gset Z;
  available_owner_approvals : gset Z;
  available_key_approvals : gset Z;
  proposer : Z;
  errorinfo : string;
  status : Z
}.

Definition set_status (n : Z) (info : string) (p : proposal_object) : proposal_object :=
  mk_proposal (expiration_time p) (create_time p) (review_period_time p) (proposed_transaction p) (memo p)
    (required_active_approvals p) (available_active_approvals p) (required_owner_approvals p)
    (available_owner_approvals p) (available_key_approvals p) (proposer p) info n.
Definition set_approvals (active owner keys : gset Z) (p : proposal_object) : proposal_object :=
  mk_proposal (expiration_time p) (create_time p) (review_period_time p) (proposed_transaction p) (memo p)
    (required_active_approvals p) active (required_owner_approvals p) owner keys (proposer p) (errorinfo p) (status p).

Record proposal_parameters := mk_proposal_parameters {
  maximum_proposal_lifetime : Z;
  committee_proposal_review_period : Z;
  max_authority_depth : nat
}.

Record database := mk_database {
  world : ledger * R;
  proposals : gmap Z proposal_object;
  next_proposal_id : Z;
  _applied_ops : list (operation * option operation_result);
  global_parameters : proposal_parameters;
  has_object_history_plugin : bool
}.

Definition set_world w d := mk_database w (proposals d) (next_proposal_id d) (_applied_ops d) (global_parameters d)
  (has_object_history_plugin d).
Definition set_proposals p n d := mk_database (world d) p n (_applied_ops d) (global_parameters d)
  (has_object_history_plugin d).
Definition set_applied_ops a d := mk_database (world d) (proposals d) (next_proposal_id d) a (global_parameters d)
  (has_object_history_plugin d).

Definition now (d : database) : Z := head_block_time (world d).1.

(** A computation on the ledger or on the rest of the database. *)
Definition on_world {A} (m : M (ledger * R) A) : M database A := λ d,
  match m (world d) with Ok (a, w) => Ok (a, set_world w d) | Throw e => Throw e end.
Definition on_ledger {A} (m : M ledger A) : M database A :=
  on_world (λ w, match m w.1 with Ok (a, l) => Ok (a, (l, w.2)) | Throw e => Throw e end).

Definition HARDFORK_190309_TIME : Z := 1552060800.
Definition HARDFORK_201201_TIME : Z := 1606752000.

(** Is an asset authorized for an account; the authorities of the accounts; the
    addresses of a key; what the fee schedule asks for an operation. *)
Context (is_authorized_asset : R → Z → Z → bool) (active_of owner_of : R → Z → option authority).
Context (addresses : Z → list Z) (calculate_fee : database → operation → Z).
(** The bytes of a proposal, and the texts the code keeps. *)
Context (pack_proposal : Z → proposal_object → list Z) (to_detail_string : exn → string) (waiting : Z → string).
(** What a number reads as after its object has been freed. *)
Context (freed : Z).

Definition is_authorized_to_execute (p : proposal_object) (d : database) : bool :=
  is_ok (verify_authority addresses (active_of (world d).2) (owner_of (world d).2) operation_get_required_authorities
    (proposed_transaction p) (available_key_approvals p) (max_authority_depth (global_parameters d)) true
    (available_active_approvals p) (available_owner_approvals p)).

(** Follow a reference to a proposal. *)
Definition deref (i : Z) : M database proposal_object :=
  d ← get_st; lift (match proposals d !! i with Some p => Ok p | None => Throw undefined_behaviour end).

(** [modify( proposal, ... )]. *)
Definition modify (i : Z) (f : proposal_object → proposal_object) : M database () :=
  p ← deref i; modify_st (λ d, set_proposals (<[i := f p]> (proposals d)) (next_proposal_id d) d).

(** [o.proposal( d )]. *)
Definition find_proposal (i : Z) : M database proposal_object :=
  d ← get_st; lift (match proposals d !! i with Some p => Ok p | None => Throw assert_exception end).

(** [remove( proposal )]. *)
Definition remove (i : Z) : M database () :=
  deref i ;; modify_st (λ d, set_proposals (delete i (proposals d)) (next_proposal_id d) d).

Definition push_applied_operation (op : operation) : M database nat :=
  d ← get_st; put_st (set_applied_ops (_applied_ops d ++ [(op, None)]) d) ;; mret (length (_applied_ops d)).

Definition set_applied_operation_result (op_id : nat) (r : operation_result) : M database () :=
  modify_st (λ d, set_applied_ops (alter (λ x, (x.1, Some r)) op_id (_applied_ops d)) d).

(** [database::remove_proposal]. *)
Definition remove_proposal (i : Z) : M database () :=
  p ← deref i;
  d ← get_st;
  (if has_object_history_plugin d
   then push_applied_operation (fill_object_history i (proposer p) (pack_proposal i p)) ;; mret ()
   else mret ()) ;;
  remove i.

(** ** Executing a proposal: database::push_proposal *)

Section Push.
(** [database::apply_operation], for the operations of a proposal. *)
Context (apply_op : operation → M database operation_result).

(** The loop over the operations reads the proposal every time. *)
Fixpoint run_operations (i : Z) (ops : list operation) (results : list operation_result)
    : M database (list operation_result) :=
  deref i ;;
  match ops with
  | [] => mret results
  | op :: ops => r ← apply_op op; run_operations i ops (results ++ [r])
  end.

(** An exception undoes the session and drops the operations that were applied: the
    state before is the state after. *)
Definition push_proposal (i : Z) : M database (list operation_result) :=
  p ← deref i;
  results ← run_operations i (proposed_transaction p) [];
  modify i (set_status 3 "") ;;
  remove_proposal i ;;
  mret results.
End Push.

(** ** The evaluators: proposal_evaluator.cpp *)

Fixpoint is_must_review_period (ops : list operation) : result bool :=
  match ops with
  | [] => Ok false
  | op :: ops =>
      match which op with
      | Tag.committee_member_update_global_parameters_operation
      | Tag.committee_member_update_zos_parameters_operation
      | Tag.bitlender_option_author_operation
      | Tag.gateway_issue_currency_operation
      | Tag.bitlender_option_create_operation
      | Tag.carrier_create_operation
      | Tag.carrier_update_operation
      | Tag.author_create_operation
      | Tag.author_update_operation
      | Tag.gateway_update_operation
      | Tag.gateway_create_operation => Ok true
      | Tag.proposal_create_operation
      | Tag.proposal_update_operation => Throw assert_exception
      | _ => is_must_review_period ops
      end
  end.

Fixpoint is_no_review_period (ops : list operation) : bool :=
  match ops with
  | [] => false
  | op :: ops =>
      match which op with
      | Tag.transfer_operation
      | Tag.gateway_deposit_operation
      | Tag.account_create_operation
      | Tag.account_authenticate_operation
      | Tag.issue_fundraise_create_operation
      | Tag.issue_fundraise_update_operation
      | Tag.issue_fundraise_remove_operation
      | Tag.bitlender_option_update_operation
      | Tag.bitlender_option_stop_operation
      | Tag.bitlender_option_fee_mode_operation
      | Tag.bitlender_paramers_update_operation
      | Tag.asset_update_feed_producers_operation
      | Tag.asset_update_bitasset_operation
      | Tag.asset_update_gateway_operation
      | Tag.asset_update_operation
      | Tag.asset_property_operation
      | Tag.bitlender_update_feed_producers_operation => true
      | _ => is_no_review_period ops
      end
  end.

(** [FC_ASSERT( !account( d ).is_lock_balance() )]. *)
Definition assert_unlocked (account : Z) : M database () :=
  a ← on_ledger (get accounts account); assert_st (negb (is_lock_balance a)).

(** [proposal_create_evaluator::do_evaluate]; it returns [_no_review].  Periods are
    compared as [microseconds].  One container [auths] is passed for the accounts whose
    active and for those whose owner authority is required, so that an operation that
    empties the first empties both. *)
Definition create_evaluate (o : proposal_create_operation operation) : M database bool :=
  d ← get_st;
  let params := global_parameters d in
  assert_unlocked (create_payer o) ;;
  assert_st (now d <? create_expiration o) ;;
  assert_st (create_expiration o <=? to_uint 32 (now d + maximum_proposal_lifetime params)) ;;
  assert_st (match review_period_seconds o with
             | None => true
             | Some r => r * 1000000 <? create_expiration o * 1000000 - now d * 1000000
             end) ;;
  let '(auths, other) := required_shared (calls <$> proposed_ops o) in
  _must_review ← lift (is_must_review_period (proposed_ops o));
  let _no_review := if _must_review : bool then false else is_no_review_period (proposed_ops o) in
  assert_st (negb (_must_review && _no_review)) ;;
  assert_st (length other =? 0)%nat ;;
  (if negb _no_review && (_must_review || bool_decide (GRAPHENE_COMMITTEE_ACCOUNT ∈ auths)) then
     lift (match review_period_seconds o with
           | None => Throw proposal_create_review_period_required
           | Some r => GRAPHENE_ASSERT (committee_proposal_review_period params <=? r)
                         proposal_create_review_period_insufficient
           end)
   else mret ()) ;;
  lift (transaction_validate (proposed_ops o)) ;;
  mret _no_review.

Section Apply.
Context (apply_op : operation → M database operation_result).

(** The proposal that is created. *)
Definition new_proposal (_no_review : bool) (o : proposal_create_operation operation) (d : database) : proposal_object :=
  let '(required_active, required_owner, _) := required_by operation_get_required_authorities (proposed_ops o) in
  mk_proposal (create_expiration o) (now d)
    (match review_period_seconds o with
     | Some r => if _no_review then None else Some (to_uint 32 (now d + r))
     | None => None
     end)
    (proposed_ops o) (default "" (create_memo o)) (required_active ∖ required_owner) {[create_payer o]}
    required_owner ∅ ∅ (create_payer o) "" 0.

(** The [try] of [do_apply]: an exception of [rollback_fee] is caught as one of
    [push_proposal], but by then the proposal is gone, and the handler modifies it. *)
Definition execute_now (fl : evaluation_flags) (e : evaluator) (i : Z) : M database evaluator :=
  pushed ← try_catch (push_proposal apply_op i ;; mret None) (λ ex, mret (Some ex));
  match pushed with
  | Some ex => modify i (set_status 2 (to_detail_string ex)) ;; mret e
  | None =>
      try_catch (on_ledger (rollback_fee fl e))
        (λ ex, modify i (set_status 2 (to_detail_string ex)) ;; mret e)
  end.

(** [proposal_create_evaluator::do_apply].  The number it returns is read from the
    proposal, which may be freed. *)
Definition create_apply (fl : evaluation_flags) (o : proposal_create_operation operation) (_no_review : bool)
    (e : evaluator) : M database (evaluator * operation_result) :=
  d ← get_st;
  let i := next_proposal_id d in
  let p := new_proposal _no_review o d in
  put_st (set_proposals (<[i := p]> (proposals d)) (i + 1) d) ;;
  d ← get_st;
  e ← (if (HARDFORK_190309_TIME <? now d) && is_authorized_to_execute p d then execute_now fl e i else mret e);
  d ← get_st;
  mret (e, object_result (match proposals d !! i with Some _ => ObjectId.pack 1 10 i | None => freed end)).

(** [proposal_update_evaluator::do_evaluate]; it returns [_proposal_use_review]. *)
Definition update_evaluate (o : proposal_update_operation) : M database bool :=
  p ← find_proposal (proposal o);
  assert_unlocked (update_payer o) ;;
  d ← get_st;
  let _proposal_use_review := HARDFORK_201201_TIME <? now d in
  (match review_period_time p with
   | Some t => if (now d <? t) && _proposal_use_review
               then assert_st (bool_decide (active_approvals_to_add o = ∅) && bool_decide (owner_approvals_to_add o = ∅))
               else mret ()
   | None => mret ()
   end) ;;
  assert_st (bool_decide (active_approvals_to_remove o ⊆ available_active_approvals p)) ;;
  assert_st (bool_decide (owner_approvals_to_remove o ⊆ available_owner_approvals p)) ;;
  mret _proposal_use_review.

Definition update_approvals (o : proposal_update_operation) (p : proposal_object) : proposal_object :=
  set_approvals ((available_active_approvals p ∪ active_approvals_to_add o) ∖ active_approvals_to_remove o)
    ((available_owner_approvals p ∪ owner_approvals_to_add o) ∖ owner_approvals_to_remove o)
    ((available_key_approvals p ∪ key_approvals_to_add o) ∖ key_approvals_to_remove o)
    (set_status 0 "" p).

(** [proposal_update_evaluator::do_apply]. *)
Definition update_apply (o : proposal_update_operation) (_proposal_use_review : bool) (e : evaluator)
    : M database (evaluator * operation_result) :=
  let i := proposal o in
  modify i (update_approvals o) ;;
  p ← deref i;
  d ← get_st;
  (if bool_decide (is_Some (review_period_time p)) && _proposal_use_review then
     if negb (status p =? 1) && is_authorized_to_execute p d
     then modify i (set_status 1 (waiting (expiration_time p))) else mret ()
   else if is_authorized_to_execute p d then
     try_catch (push_proposal apply_op i ;; mret ()) (λ ex, modify i (set_status 2 (to_detail_string ex)))
   else mret ()) ;;
  mret (e, void_result).

(** [proposal_delete_evaluator::do_evaluate] and [do_apply]. *)
Definition delete_evaluate (o : proposal_delete_operation) : M database () :=
  p ← find_proposal (deleted_proposal o);
  let required_approvals := if using_owner_authority o then required_owner_approvals p else required_active_approvals p in
  assert_st ((proposer p =? delete_payer o) || bool_decide (delete_payer o ∈ required_approvals)) ;;
  assert_unlocked (delete_payer o).

Definition delete_apply (o : proposal_delete_operation) (e : evaluator) : M database (evaluator * operation_result) :=
  remove (deleted_proposal o) ;; mret (e, void_result).

(** [evaluator::evaluate] and [apply] around an evaluator of proposals. *)
Definition with_fee {A} (fl : evaluation_flags) (op : operation) (payer : Z) (fee : asset)
    (do_evaluate : M database A) (do_apply : A → evaluator → M database (evaluator * operation_result))
    : M database operation_result :=
  d ← get_st;
  e ← on_ledger (prepare_fee (is_authorized_asset (world d).2) payer fee);
  e ← lift (check_fee fl (calculate_fee d op) fee e);
  members ← do_evaluate;
  on_ledger (convert_fee fl e) ;;
  e ← on_ledger (pay_fee fl false e);
  '(e, r) ← do_apply members e;
  debit ← lift (asset_neg (fee_from_account e));
  on_ledger (db_adjust_balance e payer debit) ;;
  mret r.

Definition start_evaluate (fl : evaluation_flags) (op : operation) : M database operation_result :=
  match op with
  | proposal_create o => with_fee fl op (create_payer o) (create_fee o) (create_evaluate o) (create_apply fl o)
  | proposal_update o => with_fee fl op (update_payer o) (update_fee o) (update_evaluate o) (update_apply o)
  | proposal_delete o => with_fee fl op (delete_payer o) (delete_fee o) (delete_evaluate o) (λ _, delete_apply o)
  | fill_object_history _ _ _ => throw assert_exception
  | other_operation x => on_world (x_apply fl x)
  end.
End Apply.

(** [database::apply_operation]: the virtual operation has no evaluator.  The state of
    evaluation of a proposal's operations is a new one, without flags. *)
Fixpoint apply_operation (fuel : nat) (fl : evaluation_flags) (op : operation) : M database operation_result :=
  match fuel with
  | O => throw out_of_fuel
  | S fuel =>
      op_id ← push_applied_operation op;
      r ← start_evaluate (apply_operation fuel (mk_flags false false)) fl op;
      set_applied_operation_result op_id r ;;
      mret r
  end.

(** ** Proposals that expire: database::clear_expired_proposals *)

Definition expires_first (a b : Z * proposal_object) : bool :=
  (expiration_time a.2 <? expiration_time b.2) || ((expiration_time a.2 =? expiration_time b.2) && (a.1 <? b.1)).

Fixpoint least_by_expiration (l : list (Z * proposal_object)) : option (Z * proposal_object) :=
  match l with
  | [] => None
  | a :: l =>
      match least_by_expiration l with
      | None => Some a
      | Some b => if expires_first b a then Some b else Some a
      end
  end.

(** The first proposal of the index [by_expiration]. *)
Definition first_proposal (d : database) : option (Z * proposal_object) := least_by_expiration (map_to_list (proposals d)).

(** The body of the loop: the proposal [p] with number [i] has expired. *)
Definition expire_proposal (fuel : nat) (i : Z) (p : proposal_object) : M database () :=
  d ← get_st;
  executed ← try_catch
    (if is_authorized_to_execute p d
     then push_proposal (apply_operation fuel (mk_flags false false)) i ;; mret true
     else modify i (set_status 4 "") ;; mret false)
    (λ ex, modify i (set_status 2 (to_detail_string ex)) ;; mret false);
  if executed : bool then mret () else remove_proposal i.

(** The first [n] proposals that have expired, with [fuel] for each of them. *)
Fixpoint clear_expired_proposals (fuel n : nat) : M database () :=
  d ← get_st;
  match first_proposal d with
  | Some (i, p) =>
      if expiration_time p <=? now d then
        match n with
        | O => throw out_of_fuel
        | S n => expire_proposal fuel i p ;; clear_expired_proposals fuel n
        end
      else mret ()
  | None => mret ()
  end.
End Proposals.

(** ** Fees throw exceptions of fc and leave the clock alone *)

Abbreviation fc_only m := (raises (λ e, fc_exception e = true) m).

Ltac run_fee := run_e; intros; repeat (case_match; simplify_eq/=); done.

Lemma prepare_fee_fc auth a f : fc_only (prepare_fee auth a f).
Proof. unfold prepare_fee, get. intros s e. run_fee. Qed.
Lemma convert_fee_fc fl e : fc_only (convert_fee fl e).
Proof. unfold convert_fee, get, safe_add, safe_sub. intros s x. run_fee. Qed.
Lemma pay_fee_fc fl c e : fc_only (pay_fee fl c e).
Proof. unfold pay_fee, get, put_statistics, pay_fee_stats, safe_add. intros s x. run_fee. Qed.
Lemma rollback_fee_fc fl e : fc_only (rollback_fee fl e).
Proof. unfold rollback_fee, get, put_statistics, pay_fee_stats, safe_add, safe_sub, safe_neg. intros s x. run_fee. Qed.
Lemma db_adjust_balance_fc e p f : fc_only (db_adjust_balance e p f).
Proof.
  unfold db_adjust_balance, adjust_balance, push_history, get, put_statistics, safe_add, safe_neg. intros s x. run_fee.
Qed.

Lemma prepare_fee_time auth a f : same head_block_time (prepare_fee auth a f).
Proof. unfold prepare_fee, get. intros s e s'. run_fee. Qed.
Lemma convert_fee_time fl e : same head_block_time (convert_fee fl e).
Proof. unfold convert_fee, get. intros s x s'. run_fee. Qed.
Lemma pay_fee_time fl c e : same head_block_time (pay_fee fl c e).
Proof. unfold pay_fee, get, put_statistics. intros s x s'. run_fee. Qed.
Lemma rollback_fee_time fl e : same head_block_time (rollback_fee fl e).
Proof. unfold rollback_fee, get, put_statistics. intros s x s'. run_fee. Qed.
Lemma db_adjust_balance_time e p f : same head_block_time (db_adjust_balance e p f).
Proof. unfold db_adjust_balance, adjust_balance, push_history, get, put_statistics. intros s x s'. run_fee. Qed.
Lemma get_account_time i : same head_block_time (get accounts i).
Proof. unfold get. intros s x s'. run_fee. Qed.

(** What the other operations promise: they leave the clock alone. *)
Class OperationsLaws (X R : Type) `{!Operations X R} : Prop := {
  x_time : ∀ fl (x : X) (w : ledger * R) r w', x_apply fl x w = Ok (r, w') → head_block_time w'.1 = head_block_time w.1;
  x_fuel : ∀ fl (x : X) (w : ledger * R), x_apply fl x w ≠ Throw out_of_fuel;
  x_validate_fuel : ∀ x : X, x_validate x ≠ Throw out_of_fuel
}.

(** ** How the proposals evolve *)

Section Evolution.
Context {X R : Type} `{!Operations X R} `{!OperationsLaws X R}.
Implicit Types (d : database (X := X) (R := R)) (p : proposal_object (X := X)) (op : operation (X := X)).

(** What is never modified. *)
Definition body p :=
  (expiration_time p, create_time p, review_period_time p, proposed_transaction p, memo p,
   (required_active_approvals p, required_owner_approvals p, proposer p)).

(** Neither creates nor updates a proposal. *)
Definition flat op : bool :=
  match which op with Tag.proposal_create_operation | Tag.proposal_update_operation => false | _ => true end.

(** The proposals that cannot do without a review period. *)
Definition needs_review (ops : list (operation (X := X))) : bool :=
  let '(auths, _) := required_shared (calls <$> ops) in
  match is_must_review_period ops with
  | Ok false => negb (is_no_review_period ops) && bool_decide (GRAPHENE_COMMITTEE_ACCOUNT ∈ auths)
  | _ => true
  end.

(** A proposal as it can be created at time [t]. *)
Record lawful (t : Z) (params : proposal_parameters) p : Prop := mk_lawful {
  lawful_time : create_time p = t;
  lawful_expiration : t < expiration_time p ≤ to_uint 32 (t + maximum_proposal_lifetime params);
  lawful_required : required_owner_approvals p = (required_by operation_get_required_authorities (proposed_transaction p)).1.2 ∧
    required_active_approvals p =
      (required_by operation_get_required_authorities (proposed_transaction p)).1.1 ∖ required_owner_approvals p;
  lawful_flat : review_period_time p = None → Forall (λ op, flat op = true) (proposed_transaction p);
  lawful_review : 0 ≤ t → 0 ≤ committee_proposal_review_period params → needs_review (proposed_transaction p) = true →
    ∃ t', review_period_time p = Some t' ∧ t + committee_proposal_review_period params ≤ t' < expiration_time p
}.

Lemma lawful_body t params p p' : body p' = body p → lawful t params p → lawful t params p'.
Proof.
  destruct p, p'. unfold body. cbn. intros Hb [H1 H2 H3 H4 H5]. simplify_eq/=. by constructor.
Qed.

(** From [d] to [d']: the old proposals keep their bodies, the new ones are lawful. *)
Record evolves d d' : Prop := mk_evolves {
  ev_now : now d' = now d;
  ev_params : global_parameters d' = global_parameters d;
  ev_next : next_proposal_id d ≤ next_proposal_id d';
  ev_proposals : ∀ i p', proposals d' !! i = Some p' →
    (∃ p, proposals d !! i = Some p ∧ body p' = body p) ∨
    (next_proposal_id d ≤ i < next_proposal_id d' ∧ lawful (now d) (global_parameters d) p')
}.

#[export] Instance evolves_preorder : PreOrder evolves.
Proof.
  split.
  - intros d. constructor; [done..|lia|]. intros i p Hp. left. by exists p.
  - intros d1 d2 d3 [N1 G1 X1 P1] [N2 G2 X2 P2]. constructor; [congruence|congruence|lia|].
    intros i p3 Hp3. destruct (P2 i p3 Hp3) as [(p2 & Hp2 & Hb)|[Hi Hl]].
    + destruct (P1 i p2 Hp2) as [(p1 & Hp1 & Hb1)|[Hi Hl]]; [left; exists p1; split; congruence|].
      right. split; [lia|]. by eapply lawful_body.
    + right. split; [lia|]. by rewrite <- N1, <- G1.
Qed.

Abbreviation evolution := (moves evolves).

Lemma evolves_world w d : head_block_time w.1 = now d → evolves d (set_world w d).
Proof. intros Hw. constructor; [done..|cbn; lia|]. intros i p Hp. left. by exists p. Qed.

Lemma evolution_on_world {A} (m : M (ledger * R) A) :
  (∀ w a w', m w = Ok (a, w') → head_block_time w'.1 = head_block_time w.1) → evolution (on_world m).
Proof.
  intros Hm d a d'. unfold on_world. destruct (m (world d)) as [[b w]|] eqn:He; [|done].
  intros [= _ <-]. apply evolves_world. exact (Hm _ _ _ He).
Qed.

Lemma evolves_proposals i p' d :
  (∃ p, proposals d !! i = Some p ∧ body p' = body p) →
  evolves d (set_proposals (<[i := p']> (proposals d)) (next_proposal_id d) d).
Proof.
  intros (p & Hp & Hb). constructor; [done..|cbn; lia|]. intros j q. cbn.
  intros [[<- <-]|[_ Hq]]%lookup_insert_Some; left; [by exists p|by exists q].
Qed.

Lemma evolution_modify i f : (∀ p, body (f p) = body p) → evolution (modify i f).
Proof.
  intros Hf d u d' Hm. unfold modify, deref in Hm. inv_ok. apply evolves_proposals.
  case_match; inv_ok. eauto.
Qed.

Lemma evolution_remove i : evolution (remove i).
Proof.
  intros d u d' Hm. unfold remove, deref in Hm. inv_ok.
  constructor; [done..|cbn; lia|]. intros j q. cbn. intros [_ Hq]%lookup_delete_Some. left. by exists q.
Qed.

Lemma evolves_applied a d : evolves d (set_applied_ops a d).
Proof. constructor; [done..|cbn; lia|]. intros i p Hp. left. by exists p. Qed.

(** The same but for the ledger and the operations that were applied. *)
Record agree d d' : Prop := mk_agree {
  agree_proposals : proposals d' = proposals d;
  agree_next : next_proposal_id d' = next_proposal_id d;
  agree_params : global_parameters d' = global_parameters d;
  agree_rest : (world d').2 = (world d).2;
  agree_now : now d' = now d
}.

#[export] Instance agree_preorder : PreOrder agree.
Proof. split; [done|]. intros d1 d2 d3 [] []. constructor; congruence. Qed.

Lemma agree_evolves d d' : agree d d' → evolves d d'.
Proof. intros [P N G _ T]. constructor; [done..|lia|]. intros i p Hp. left. exists p. by rewrite <- P. Qed.

Lemma agree_on_ledger {A} (m : M ledger A) d a d' : same head_block_time m → on_ledger m d = Ok (a, d') → agree d d'.
Proof.
  intros Hm. unfold on_ledger, on_world. destruct (m (world d).1) as [[b l]|] eqn:He; [|done].
  intros [= _ <-]. constructor; [done..|]. exact (Hm _ _ _ He).
Qed.

Lemma evolution_on_ledger {A} (m : M ledger A) : same head_block_time m → evolution (on_ledger m).
Proof. intros Hm d a d' Hr. by eapply agree_evolves, agree_on_ledger. Qed.

Lemma evolution_push_applied op : evolution (push_applied_operation op).
Proof. intros d u d' Hm. unfold push_applied_operation in Hm. inv_ok. apply evolves_applied. Qed.
Lemma evolution_set_result n r : evolution (set_applied_operation_result n r).
Proof. intros d u d' Hm. unfold set_applied_operation_result in Hm. inv_ok. apply evolves_applied. Qed.
End Evolution.

#[export] Hint Resolve prepare_fee_time convert_fee_time pay_fee_time rollback_fee_time db_adjust_balance_time
  get_account_time : zos.
#[export] Hint Resolve evolution_on_ledger
  evolution_remove evolution_push_applied evolution_set_result : zos.

Abbreviation evolution := (moves evolves).

(** Take a computation apart into its steps. *)
Ltac evolution_tac :=
  repeat first
    [ apply evolution_modify; done | apply moves_try; [|intros ?] | moves_step ].

Section Steps.
Context {X R : Type} `{!Operations X R} `{!OperationsLaws X R}.
Context (is_authorized_asset : R → Z → Z → bool) (active_of owner_of : R → Z → option authority).
Context (addresses : Z → list Z) (calculate_fee : database (X := X) (R := R) → operation (X := X) → Z).
Context (pack_proposal : Z → proposal_object (X := X) → list Z) (to_detail_string : exn → string) (waiting : Z → string).
Context (freed : Z).
Implicit Types (d : database (X := X) (R := R)) (p : proposal_object (X := X)) (op : operation (X := X)).

Lemma remove_proposal_evolution i : evolution (remove_proposal (R := R) pack_proposal i).
Proof. unfold remove_proposal, deref. evolution_tac. Qed.
#[local] Hint Resolve remove_proposal_evolution : zos.

Definition unlocked (account : Z) d : Prop :=
  ∃ a, accounts (world d).1 !! account = Some a ∧ is_lock_balance a = false.

Lemma assert_unlocked_Ok account d u d' : assert_unlocked account d = Ok (u, d') ↔ unlocked account d ∧ d' = d.
Proof.
  unfold assert_unlocked, on_ledger, on_world, get, unlocked. destruct d as [[l r] ? ? ? ? ?]. run_e. cbn.
  destruct (accounts l !! account) as [a|]; [|by split; [|intros [(? & ? & _) _]]].
  destruct (is_lock_balance a) eqn:Ha; cbn; destruct u.
  - split; [done|]. intros [(? & [= <-] & ?) _]. congruence.
  - split; [intros [= <-]; by eauto|]. by intros [_ ->].
Qed.

Section Inner.
Context (apply_op : operation (X := X) → M (database (X := X) (R := R)) operation_result).
Context (Hop : ∀ op, evolution (apply_op op)).

Lemma run_operations_evolution i ops results : evolution (run_operations apply_op i ops results).
Proof. revert results. induction ops as [|op ops IH]; intros results; cbn; unfold deref; evolution_tac. Qed.

Lemma push_proposal_evolution i : evolution (push_proposal pack_proposal apply_op i).
Proof.
  unfold push_proposal, deref. evolution_tac. apply run_operations_evolution.
Qed.
#[local] Hint Resolve push_proposal_evolution : zos.

(** What the evaluation establishes of the proposal to come. *)
Lemma must_review_flat ops : is_must_review_period ops = Ok false → Forall (λ op, flat op = true) ops.
Proof.
  induction ops as [|op ops IH]; cbn; [done|]. intros Hm. constructor.
  - unfold flat. destruct (which op); done.
  - apply IH. destruct (which op); done.
Qed.

Lemma create_evaluate_Ok o d nr d' :
  create_evaluate o d = Ok (nr, d') → d' = d ∧ ∀ d1, now d1 = now d → lawful (now d) (global_parameters d) (new_proposal nr o d1).
Proof.
  unfold create_evaluate. intros Hrun.
  apply M_bind_Ok in Hrun as (? & ? & [= <- <-] & Hrun).
  apply M_bind_Ok in Hrun as (? & d1 & Hun & Hrun).
  apply assert_unlocked_Ok in Hun as [_ ->].
  repeat (apply M_bind_Ok in Hrun as (? & ? & Ha & Hrun); apply assert_st_Ok in Ha as [? ->]).
  destruct (required_shared _) as [auths other] eqn:Hsh.
  apply M_bind_Ok in Hrun as (must & ? & Hm & Hrun). apply lift_Ok in Hm as [Hm ->].
  repeat (apply M_bind_Ok in Hrun as (? & ? & Ha & Hrun); apply assert_st_Ok in Ha as [? ->]).
  apply M_bind_Ok in Hrun as (? & d2 & Hrev & Hrun).
  assert (d2 = d) as -> by (destruct (_ && _) in Hrev; inv_ok; done).
  inv_ok. split; [done|]. intros d1 Hnow. unfold new_proposal. rewrite Hnow.
  destruct (required_by operation_get_required_authorities (proposed_ops o)) as [[active owner] other'] eqn:Hreq.
  constructor; cbn -[required_by]; rewrite ?Hreq; [done|lia|by split| |].
  - intros Hnone. destruct must; [exfalso|by apply must_review_flat].
    cbn in Hrev. destruct (review_period_seconds o); [done|]. inv_ok.
  - intros Ht Hpar Hneeds. unfold needs_review in Hneeds. cbn [proposed_transaction] in Hneeds. rewrite Hsh, Hm in Hneeds.
    assert ((negb (if must then false else is_no_review_period (proposed_ops o)) &&
             (must || bool_decide (GRAPHENE_COMMITTEE_ACCOUNT ∈ auths))) = true) as Hguard.
    { destruct must; [done|]. by apply andb_true_iff in Hneeds as [-> ->]. }
    rewrite Hguard in Hrev. destruct (review_period_seconds o) as [r|]; [|by inv_ok].
    assert ((if must then false else is_no_review_period (proposed_ops o)) = false) as ->.
    { apply andb_true_iff in Hguard as [Hn _]. by destruct must, (is_no_review_period (proposed_ops o)). }
    apply lift_Ok in Hrev as [Hrev%GRAPHENE_ASSERT_Ok _]. eexists. split; [done|].
    assert (create_expiration o ≤ to_uint 32 (now d' + maximum_proposal_lifetime (global_parameters d'))) as Hlt by lia.
    pose proof (to_uint_range 32 (now d' + maximum_proposal_lifetime (global_parameters d')) ltac:(lia)) as Hrange.
    rewrite to_uint_id by (unfold uint in *; lia). lia.
Qed.

Lemma execute_now_evolution fl e i : evolution (execute_now pack_proposal to_detail_string apply_op fl e i).
Proof. unfold execute_now. evolution_tac. Qed.

Lemma creation_evolves p d :
  lawful (now d) (global_parameters d) p →
  evolves d (set_proposals (<[next_proposal_id d := p]> (proposals d)) (next_proposal_id d + 1) d).
Proof.
  intros Hl. constructor; [done..|cbn; lia|]. intros j q. cbn.
  intros [[<- <-]|[_ Hq]]%lookup_insert_Some; [right; split; [lia|done]|left; by exists q].
Qed.

Lemma create_apply_evolution fl o nr e d r d' :
  lawful (now d) (global_parameters d) (new_proposal nr o d) →
  create_apply active_of owner_of addresses pack_proposal to_detail_string freed apply_op fl o nr e d = Ok (r, d') →
  evolves d d'.
Proof.
  unfold create_apply. intros Hl Hrun.
  apply M_bind_Ok in Hrun as (? & ? & [= <- <-] & Hrun). cbv zeta in Hrun.
  apply M_bind_Ok in Hrun as (? & d1 & Hput & Hrun). apply put_st_Ok in Hput as ->.
  apply M_bind_Ok in Hrun as (? & ? & [= <- <-] & Hrun).
  apply M_bind_Ok in Hrun as (? & d2 & Hex & Hrun). inv_ok.
  etransitivity; [exact (creation_evolves _ _ Hl)|].
  destruct (_ && _) in Hex; [by eapply execute_now_evolution|]. inv_ok. reflexivity.
Qed.

Lemma update_evaluate_evolution o : evolution (update_evaluate (X := X) (R := R) o).
Proof. unfold update_evaluate, find_proposal, assert_unlocked. evolution_tac. Qed.

Lemma update_apply_evolution o b e :
  evolution (update_apply active_of owner_of addresses pack_proposal to_detail_string waiting apply_op o b e).
Proof. unfold update_apply, deref. evolution_tac. Qed.

Lemma delete_evaluate_evolution o : evolution (delete_evaluate (X := X) (R := R) o).
Proof. unfold delete_evaluate, find_proposal, assert_unlocked. evolution_tac. Qed.
Lemma delete_apply_evolution o e : evolution (delete_apply (X := X) (R := R) o e).
Proof. unfold delete_apply. evolution_tac. Qed.

(** The evaluation and the application, with the fee around them. *)
Lemma with_fee_Ok {A} fl op payer fee (ev : M _ A) app d r d' :
  with_fee is_authorized_asset calculate_fee fl op payer fee ev app d = Ok (r, d') →
  ∃ a e e' d1 d2 d3 d4, agree d d1 ∧ ev d1 = Ok (a, d2) ∧ agree d2 d3 ∧ app a e d3 = Ok ((e', r), d4) ∧ agree d4 d'.
Proof.
  unfold with_fee. intros Hrun.
  apply M_bind_Ok in Hrun as (? & ? & [= <- <-] & Hrun).
  apply M_bind_Ok in Hrun as (e & d1 & H1 & Hrun). apply agree_on_ledger in H1; [|eauto with zos].
  apply M_bind_Ok in Hrun as (e' & ? & Hc & Hrun). apply lift_Ok in Hc as [_ ->].
  apply M_bind_Ok in Hrun as (a & d2 & H2 & Hrun).
  apply M_bind_Ok in Hrun as (? & d3 & H3 & Hrun). apply agree_on_ledger in H3; [|eauto with zos].
  apply M_bind_Ok in Hrun as (e2 & d4 & H4 & Hrun). apply agree_on_ledger in H4; [|eauto with zos].
  apply M_bind_Ok in Hrun as ([e3 res] & d5 & H5 & Hrun).
  apply M_bind_Ok in Hrun as (? & ? & Hc & Hrun). apply lift_Ok in Hc as [_ ->].
  apply M_bind_Ok in Hrun as (? & d6 & H6 & [= <- <-]). apply agree_on_ledger in H6; [|eauto with zos].
  do 7 eexists. split; [exact H1|]. split; [exact H2|]. split; [by etransitivity|]. by split.
Qed.

(** An evaluator whose evaluation establishes [Q] of the time and the parameters. *)
Lemma with_fee_evolution {A} fl op payer fee (ev : M _ A) (app : A → evaluator → M _ (evaluator * operation_result))
    (Q : A → Z → proposal_parameters → Prop) :
  (∀ d a d', ev d = Ok (a, d') → evolves d d' ∧ Q a (now d') (global_parameters d')) →
  (∀ a e d r d', Q a (now d) (global_parameters d) → app a e d = Ok (r, d') → evolves d d') →
  evolution (with_fee is_authorized_asset calculate_fee fl op payer fee ev app).
Proof.
  intros Hev Happ d r d' (a & e & e' & d1 & d2 & d3 & d4 & A1 & [H2 HQ]%Hev & A3 & H4 & A5)%with_fee_Ok.
  apply Happ in H4; [|by rewrite (agree_now _ _ A3), (agree_params _ _ A3)].
  etransitivity; [by apply agree_evolves|]. etransitivity; [done|]. etransitivity; [by apply agree_evolves|].
  etransitivity; [done|]. by apply agree_evolves.
Qed.

Lemma plain_fee_evolution {A} fl op payer fee (ev : M _ A) app :
  evolution ev → (∀ a e, evolution (app a e)) →
  evolution (with_fee is_authorized_asset calculate_fee fl op payer fee ev app).
Proof.
  intros Hev Happ. apply (with_fee_evolution _ _ _ _ _ _ (λ _ _ _, True)).
  - intros d a d' H. split; [by eapply Hev|done].
  - intros a e d r d' _. apply Happ.
Qed.

Lemma start_evaluate_evolution fl op :
  evolution (start_evaluate is_authorized_asset active_of owner_of addresses calculate_fee pack_proposal
    to_detail_string waiting freed apply_op fl op).
Proof.
  destruct op as [o|o|o| |x]; cbn.
  - apply (with_fee_evolution _ _ _ _ _ _
      (λ nr t par, ∀ d1, now d1 = t → lawful t par (new_proposal nr o d1))).
    + intros d nr d' [-> Hl]%create_evaluate_Ok. by split.
    + intros nr e d r d' Hl. apply create_apply_evolution. by apply Hl.
  - apply plain_fee_evolution; [apply update_evaluate_evolution|intros; apply update_apply_evolution].
  - apply plain_fee_evolution; [apply delete_evaluate_evolution|intros _; apply delete_apply_evolution].
  - apply moves_throw.
  - apply evolution_on_world. intros w a w'. apply x_time.
Qed.
End Inner.

#[local] Notation run := (apply_operation is_authorized_asset active_of owner_of addresses calculate_fee pack_proposal
  to_detail_string waiting freed).
#[local] Notation start := (start_evaluate is_authorized_asset active_of owner_of addresses calculate_fee pack_proposal
  to_detail_string waiting freed).
#[local] Notation clear := (clear_expired_proposals is_authorized_asset active_of owner_of addresses calculate_fee
  pack_proposal to_detail_string waiting freed).

Lemma apply_operation_evolution fuel fl op : evolution (run fuel fl op).
Proof.
  revert fl op. induction fuel as [|fuel IH]; intros fl op; cbn; [apply moves_throw|].
  assert (evolution (start (run fuel (mk_flags false false)) fl op)) by by apply start_evaluate_evolution.
  evolution_tac.
Qed.

#[local] Notation expire := (expire_proposal is_authorized_asset active_of owner_of addresses calculate_fee
  pack_proposal to_detail_string waiting freed).

Lemma push_run_evolution fuel i : evolution (push_proposal pack_proposal (run fuel (mk_flags false false)) i).
Proof. apply push_proposal_evolution. intros op. apply apply_operation_evolution. Qed.
#[local] Hint Resolve push_run_evolution : zos.

Lemma expire_evolution fuel i p : evolution (expire fuel i p).
Proof. unfold expire_proposal. evolution_tac. Qed.

(** Whatever an operation does to the proposals, directly or through proposals it
    executes, it leaves the bodies of those that stay as they were (the operations, the
    accounts that must approve, the times), and those it adds are lawful: they expire
    within the allowed lifetime, they require what their operations require, and if an
    operation needs a review or the committee must approve, the period in which nobody can
    approve is as long as the parameters ask and ends before they expire. *)
Theorem proposals_evolve fuel fl op d r d' : run fuel fl op d = Ok (r, d') → evolves d d'.
Proof. apply apply_operation_evolution. Qed.

(** ** Termination *)

(** The fuel an operation needs. *)
Fixpoint need op : nat :=
  match op with
  | proposal_create (mk_create _ _ _ ops _ _) => S (foldr (λ op n, Nat.max (need op) n) 1%nat ops)
  | proposal_update _ => 2
  | _ => 1
  end.

(** The proposals that can be executed at once neither create nor update proposals. *)
Definition settled d : Prop :=
  HARDFORK_201201_TIME < now d ∧
  ∀ i p, proposals d !! i = Some p → review_period_time p = None → Forall (λ op, flat op = true) (proposed_transaction p).

Lemma settled_evolves d d' : settled d → evolves d d' → settled d'.
Proof.
  intros [Ht Hs] He. split; [by rewrite (ev_now _ _ He)|]. intros i p' Hp' Hr.
  destruct (ev_proposals _ _ He i p' Hp') as [(p & Hp & Hb)|[_ Hl]]; [|by apply (lawful_flat _ _ _ Hl)].
  injection Hb as _ _ E1 E2 _ _ _ _. rewrite E2. apply (Hs i p Hp). congruence.
Qed.

Definition fueled {A} (m : M (database (X := X) (R := R)) A) : Prop := ∀ d, settled d → m d ≠ Throw out_of_fuel.

Lemma fueled_raises {A} (m : M _ A) : raises (λ e, e ≠ out_of_fuel) m → fueled m.
Proof. intros Hm d _ He. by apply (Hm _ _ He). Qed.

Lemma fueled_bind_at {A B} (m : M _ A) (f : A → M _ B) d :
  evolution m → settled d → m d ≠ Throw out_of_fuel →
  (∀ a d', m d = Ok (a, d') → evolves d d' → settled d' → f a d' ≠ Throw out_of_fuel) → (m ≫= f) d ≠ Throw out_of_fuel.
Proof.
  intros He Hd Hm Hf. unfold mbind, M_bind. destruct (m d) as [[a d']|e] eqn:Hrun; [|congruence].
  pose proof (He _ _ _ Hrun) as Hev. apply Hf; [done..|]. by eapply settled_evolves.
Qed.

Lemma fueled_bind {A B} (m : M _ A) (f : A → M _ B) : evolution m → fueled m → (∀ a, fueled (f a)) → fueled (m ≫= f).
Proof. intros He Hm Hf d Hd. apply fueled_bind_at; [done|done|by apply Hm|]. intros a d' _ _ Hd'. by apply Hf. Qed.

Lemma fueled_try {A} (m : M _ A) h d :
  m d ≠ Throw out_of_fuel → (∀ e, h e d ≠ Throw out_of_fuel) → try_catch m h d ≠ Throw out_of_fuel.
Proof. intros Hm Hh. unfold try_catch. destruct (m d) as [|e]; [done|]. destruct (fc_exception e); [apply Hh|congruence]. Qed.

Lemma fueled_on_ledger {A} (m : M ledger A) : fc_only m → fueled (on_ledger m).
Proof.
  intros Hm. apply fueled_raises. intros d e. unfold on_ledger, on_world.
  destruct (m (world d).1) as [[a l]|e'] eqn:He; [done|]. intros [= <-] ->. by specialize (Hm _ _ He).
Qed.

Lemma fueled_deref {B} i (f : proposal_object → M _ B) d :
  (∀ p, proposals d !! i = Some p → f p d ≠ Throw out_of_fuel) → (deref i ≫= f) d ≠ Throw out_of_fuel.
Proof. unfold deref. run_e. intros Hf. destruct (proposals d !! i) as [p|]; [by apply Hf|done]. Qed.

Lemma modify_fueled i f : fueled (modify i f).
Proof. intros d _. unfold modify. by apply fueled_deref. Qed.

Lemma remove_proposal_fueled i : fueled (remove_proposal (R := R) pack_proposal i).
Proof.
  intros d _. unfold remove_proposal. apply fueled_deref. intros p Hp.
  unfold remove, deref, push_applied_operation. run_e. destruct (has_object_history_plugin d); cbn; by rewrite Hp.
Qed.

Lemma run_operations_fueled apply_op i ops results :
  (∀ op, evolution (apply_op op)) → Forall (λ op, fueled (apply_op op)) ops → fueled (run_operations apply_op i ops results).
Proof.
  intros Hev Hops. revert results. induction Hops as [|op ops Hop _ IH]; intros results d Hd; cbn; apply fueled_deref; [done|].
  intros p _. apply fueled_bind_at; [apply Hev|done|by apply Hop|]. intros r d' _ _ Hd'. by apply IH.
Qed.

Lemma push_proposal_fueled apply_op i p d :
  (∀ op, evolution (apply_op op)) → settled d → proposals d !! i = Some p →
  Forall (λ op, fueled (apply_op op)) (proposed_transaction p) →
  push_proposal pack_proposal apply_op i d ≠ Throw out_of_fuel.
Proof.
  intros Hev Hd Hp Hops. unfold push_proposal. apply fueled_deref. intros p' Hp'. simplify_eq.
  apply fueled_bind_at; [by apply run_operations_evolution|done|by apply run_operations_fueled|]. intros l d1 _ _ Hd1.
  apply fueled_bind_at; [by apply evolution_modify|done|by apply modify_fueled|]. intros _ d2 _ _ Hd2.
  apply fueled_bind_at; [apply remove_proposal_evolution|done|by apply remove_proposal_fueled|]. done.
Qed.

Lemma fueled_lift {A} (r : result A) : (∀ e, r = Throw e → fc_exception e = true) → fueled (lift r).
Proof. intros Hr. apply fueled_raises, raises_lift. intros e He ->. by specialize (Hr _ He). Qed.
Lemma fueled_assert b : fueled (assert_st b).
Proof. apply fueled_raises, raises_assert. done. Qed.
Lemma fueled_ret {A} (a : A) : fueled (mret a).
Proof. done. Qed.
Lemma fueled_get : fueled get_st.
Proof. done. Qed.

Lemma with_fee_fueled {A} fl op payer fee (ev : M _ A) (app : A → evaluator → M _ (evaluator * operation_result))
    (Q : A → Z → proposal_parameters → Prop) :
  (∀ d a d', ev d = Ok (a, d') → evolves d d' ∧ Q a (now d') (global_parameters d')) → fueled ev →
  (∀ a e d r d', Q a (now d) (global_parameters d) → app a e d = Ok (r, d') → evolves d d') →
  (∀ a e d, Q a (now d) (global_parameters d) → settled d → app a e d ≠ Throw out_of_fuel) →
  fueled (with_fee is_authorized_asset calculate_fee fl op payer fee ev app).
Proof.
  intros Hev Hfev Happ Hfapp d Hd. unfold with_fee.
  assert (evolution ev) as Hevo by (intros ? ? ? Hr; by apply Hev in Hr as [? _]).
  apply fueled_bind_at; [moves_step|done..|]. intros ? ? [= <- <-] _ _.
  apply fueled_bind_at; [evolution_tac|done|by apply fueled_on_ledger, Hd; apply prepare_fee_fc|]. intros e d1 _ _ Hd1.
  apply fueled_bind_at; [evolution_tac|done|apply fueled_lift, Hd1|].
  { intros ex. unfold check_fee, GRAPHENE_ASSERT, mbind, result_bind. intros Hr. repeat case_match; simplify_eq; done. }
  intros e1 d2 _ _ Hd2.
  apply fueled_bind_at; [done|done|by apply Hfev|]. intros a d3 [_ HQ]%Hev _ Hd3.
  apply fueled_bind_at; [evolution_tac|done|by apply fueled_on_ledger, Hd3; apply convert_fee_fc|]. intros _ d4 _ E4 Hd4.
  apply fueled_bind_at; [evolution_tac|done|by apply fueled_on_ledger, Hd4; apply pay_fee_fc|]. intros e2 d5 _ E5 Hd5.
  assert (Q a (now d5) (global_parameters d5)) as HQ5.
  { by rewrite (ev_now _ _ E5), (ev_params _ _ E5), (ev_now _ _ E4), (ev_params _ _ E4). }
  unfold mbind at 1, M_bind at 1. destruct (app a e2 d5) as [[[e3 r] d6]|ex] eqn:Ha.
  2: { intros [= ->]. by apply (Hfapp _ _ _ HQ5 Hd5 Ha). }
  pose proof (settled_evolves _ _ Hd5 (Happ _ _ _ _ _ HQ5 Ha)) as Hd6.
  apply fueled_bind_at; [evolution_tac|done|apply fueled_lift, Hd6|].
  { intros ex. unfold asset_neg, safe_neg. run_e. destruct (_ =? _); [by intros [= <-]|done]. }
  intros debit d7 _ _ Hd7.
  apply fueled_bind_at; [evolution_tac|done|by apply fueled_on_ledger, Hd7; apply db_adjust_balance_fc|]. done.
Qed.

Section InnerFuel.
Context (apply_op : operation (X := X) → M (database (X := X) (R := R)) operation_result).
Context (Hop : ∀ op, evolution (apply_op op)).
#[local] Hint Resolve push_proposal_evolution : zos.

Lemma assert_unlocked_fueled a : fueled (assert_unlocked a).
Proof.
  unfold assert_unlocked. apply fueled_bind; [evolution_tac| |intros; apply fueled_assert].
  apply fueled_on_ledger. unfold get. intros l e. run_fee.
Qed.

Lemma update_evaluate_Ok o d b d' : update_evaluate o d = Ok (b, d') →
  d' = d ∧ b = (HARDFORK_201201_TIME <? now d) ∧ unlocked (update_payer o) d ∧
  ∃ p, proposals d !! proposal o = Some p ∧
    active_approvals_to_remove o ⊆ available_active_approvals p ∧ owner_approvals_to_remove o ⊆ available_owner_approvals p ∧
    (∀ t, review_period_time p = Some t → b = true → now d < t →
     active_approvals_to_add o = ∅ ∧ owner_approvals_to_add o = ∅).
Proof.
  unfold update_evaluate, find_proposal. intros Hrun.
  apply M_bind_Ok in Hrun as (p & d1 & Hp & Hrun).
  assert (d1 = d ∧ proposals d !! proposal o = Some p) as [-> Hp'].
  { revert Hp. run_e. destruct (proposals d !! proposal o); [|done]. by intros [= -> ->]. }
  apply M_bind_Ok in Hrun as (? & ? & [Hun ->]%assert_unlocked_Ok & Hrun).
  apply M_bind_Ok in Hrun as (? & ? & [= <- <-] & Hrun). cbv zeta in Hrun.
  apply M_bind_Ok in Hrun as (? & d2 & Hrev & Hrun).
  assert (d2 = d ∧ ∀ t, review_period_time p = Some t → (HARDFORK_201201_TIME <? now d) = true → now d < t →
    active_approvals_to_add o = ∅ ∧ owner_approvals_to_add o = ∅) as [-> Hadd].
  { revert Hrev. destruct (review_period_time p) as [t|]; [|by intros [= _ <-]].
    destruct (Z.ltb_spec (now d) t); [|intros [= _ <-]; split; [done|]; intros ? [= <-]; lia].
    destruct (HARDFORK_201201_TIME <? now d); [|by intros [= _ <-]].
    intros [[Ha Hb]%andb_true_iff ->]%assert_st_Ok. by apply bool_decide_eq_true in Ha, Hb. }
  apply M_bind_Ok in Hrun as (? & ? & [Ha%bool_decide_eq_true ->]%assert_st_Ok & Hrun).
  apply M_bind_Ok in Hrun as (? & ? & [Hb%bool_decide_eq_true ->]%assert_st_Ok & [= <- <-]). eauto 10.
Qed.

Lemma update_evaluate_fueled o : fueled (update_evaluate (X := X) (R := R) o).
Proof.
  unfold update_evaluate, find_proposal.
  apply fueled_bind; [evolution_tac| |intros p].
  { apply fueled_bind; [evolution_tac|done|]. intros d. apply fueled_lift. intros e. destruct (_ !! _); by intros [= <-]. }
  apply fueled_bind; [unfold assert_unlocked; evolution_tac|apply assert_unlocked_fueled|intros _].
  apply fueled_bind; [evolution_tac|done|intros d].
  apply fueled_bind; [evolution_tac| |intros _].
  { repeat case_match; (apply fueled_assert || done). }
  do 2 (apply fueled_bind; [evolution_tac|apply fueled_assert|intros _]). done.
Qed.

Lemma update_apply_fueled o e d :
  settled d → (∀ op, flat op = true → fueled (apply_op op)) →
  update_apply active_of owner_of addresses pack_proposal to_detail_string waiting apply_op o
    (HARDFORK_201201_TIME <? now d) e d ≠ Throw out_of_fuel.
Proof.
  intros Hd Hflat. assert ((HARDFORK_201201_TIME <? now d) = true) as -> by (destruct Hd; lia). unfold update_apply. cbv zeta.
  apply fueled_bind_at; [by apply evolution_modify|done|by apply modify_fueled|]. intros _ d1 _ _ Hd1.
  apply fueled_deref. intros p Hp.
  apply fueled_bind_at; [evolution_tac|done|done|]. intros ? ? [= <- <-] _ _.
  apply fueled_bind_at; [evolution_tac|done| |done].
  rewrite andb_true_r. destruct (decide (is_Some (review_period_time p))) as [Hr|Hr].
  - rewrite bool_decide_true by done. destruct (_ && _); [by apply modify_fueled|done].
  - rewrite bool_decide_false by done. destruct (is_authorized_to_execute _ _ _ _ _); [|done].
    apply fueled_try; [|intros ex; by apply modify_fueled].
    apply fueled_bind_at; [by apply push_proposal_evolution|done| |done].
    apply (push_proposal_fueled _ _ p); [done..|]. eapply Forall_impl; [|exact Hflat].
    apply (proj2 Hd1 _ _ Hp). by apply eq_None_not_Some.
Qed.

Lemma result_bind_fuel {A B} (m : result A) (f : A → result B) :
  m ≠ Throw out_of_fuel → (∀ a, f a ≠ Throw out_of_fuel) → (m ≫= f) ≠ Throw out_of_fuel.
Proof. intros Hm Hf. destruct m as [a|e]; cbn; [apply Hf|congruence]. Qed.
Lemma FC_ASSERT_fuel b : FC_ASSERT b ≠ Throw out_of_fuel.
Proof. by destruct b. Qed.

Lemma operation_validate_fuel op : operation_validate op ≠ Throw out_of_fuel.
Proof.
  revert op. fix IH 1. intros [[fee payer expiration ops review memo]|o|o|i a l|x]; cbn.
  - apply result_bind_fuel; [apply FC_ASSERT_fuel|intros _]. apply result_bind_fuel; [|intros _].
    { destruct memo; [cbn|done]. apply result_bind_fuel; [apply FC_ASSERT_fuel|intros _; apply FC_ASSERT_fuel]. }
    induction ops as [|op ops IHops]; cbn; [done|]. apply result_bind_fuel; [apply IH|done].
  - unfold proposal_update_validate. do 4 (apply result_bind_fuel; [apply FC_ASSERT_fuel|intros _]). apply FC_ASSERT_fuel.
  - apply FC_ASSERT_fuel.
  - done.
  - apply x_validate_fuel.
Qed.

Lemma transaction_validate_fuel ops : transaction_validate ops ≠ Throw out_of_fuel.
Proof.
  unfold transaction_validate. apply result_bind_fuel; [apply FC_ASSERT_fuel|intros _].
  induction ops as [|op ops IH]; cbn; [done|]. apply result_bind_fuel; [apply operation_validate_fuel|done].
Qed.

Lemma lift_fuel {A} (r : result A) : r ≠ Throw out_of_fuel → fueled (lift r).
Proof. intros Hr. apply fueled_raises, raises_lift. by intros e -> ->. Qed.

Lemma must_review_fuel ops : is_must_review_period ops ≠ Throw out_of_fuel.
Proof. induction ops as [|op ops IH]; cbn; [done|]. by destruct (which op). Qed.

Lemma create_evaluate_fueled o : fueled (create_evaluate (X := X) (R := R) o).
Proof.
  unfold create_evaluate. apply fueled_bind; [evolution_tac|done|intros d].
  apply fueled_bind; [unfold assert_unlocked; evolution_tac|apply assert_unlocked_fueled|intros _].
  do 3 (apply fueled_bind; [evolution_tac|apply fueled_assert|intros _]).
  destruct (required_shared _) as [auths other].
  apply fueled_bind; [evolution_tac|apply lift_fuel, must_review_fuel|intros must]. cbv zeta.
  do 2 (apply fueled_bind; [evolution_tac|apply fueled_assert|intros _]).
  apply fueled_bind; [evolution_tac| |intros _].
  { destruct (_ && _); [|done]. apply lift_fuel. destruct (review_period_seconds o); [|done]. by destruct (_ <=? _). }
  apply fueled_bind; [evolution_tac|apply lift_fuel, transaction_validate_fuel|done].
Qed.

Lemma execute_now_fueled fl e i p d :
  settled d → proposals d !! i = Some p → Forall (λ op, fueled (apply_op op)) (proposed_transaction p) →
  execute_now pack_proposal to_detail_string apply_op fl e i d ≠ Throw out_of_fuel.
Proof.
  intros Hd Hp Hops. unfold execute_now.
  apply fueled_bind_at; [evolution_tac|done| |].
  - apply fueled_try; [|done]. apply fueled_bind_at; [by apply push_proposal_evolution|done| |done].
    by eapply push_proposal_fueled.
  - intros pushed d1 _ _ Hd1.
    assert (∀ ex d, settled d → (modify i (set_status 2 (to_detail_string ex)) ;; mret e) d ≠ Throw out_of_fuel) as Hmod.
    { intros ex d2 Hd2. apply fueled_bind_at; [by apply evolution_modify|done|by apply modify_fueled|done]. }
    destruct pushed; [by apply Hmod|]. apply fueled_try; [|by intros; apply Hmod].
    apply fueled_on_ledger; [apply rollback_fee_fc|done].
Qed.

Lemma create_apply_fueled fl o nr e d :
  lawful (now d) (global_parameters d) (new_proposal nr o d) → settled d →
  Forall (λ op, fueled (apply_op op)) (proposed_ops o) →
  create_apply active_of owner_of addresses pack_proposal to_detail_string freed apply_op fl o nr e d ≠ Throw out_of_fuel.
Proof.
  intros Hl Hd Hops. unfold create_apply.
  apply fueled_bind_at; [evolution_tac|done|done|]. intros ? ? [= <- <-] _ _. cbv zeta.
  unfold mbind at 1, M_bind at 1, put_st. set (d1 := set_proposals _ _ d).
  pose proof (settled_evolves _ _ Hd (creation_evolves _ _ Hl) : settled d1) as Hd1.
  apply fueled_bind_at; [evolution_tac|done|done|]. intros ? ? [= <- <-] _ _.
  apply fueled_bind_at; [pose proof execute_now_evolution; evolution_tac|done| |done].
  destruct (_ && _); [|done]. apply (execute_now_fueled _ _ _ (new_proposal nr o d)); [done| |].
  - apply lookup_insert_eq.
  - unfold new_proposal. by destruct (required_by _ _) as [[??]?].
Qed.

(** The fuel for an operation covers those it executes. *)
Lemma start_evaluate_fueled fl op :
  (∀ o, op = proposal_update o → ∀ op, flat op = true → fueled (apply_op op)) →
  (∀ o, op = proposal_create o → Forall (λ op, fueled (apply_op op)) (proposed_ops o)) →
  fueled (start_evaluate is_authorized_asset active_of owner_of addresses calculate_fee pack_proposal
    to_detail_string waiting freed apply_op fl op).
Proof.
  intros Hflat Hops. destruct op as [o|o|o|i a l|x]; cbn.
  - apply (with_fee_fueled _ _ _ _ _ _ (λ nr t par, ∀ d1, now d1 = t → lawful t par (new_proposal nr o d1))).
    + intros d nr d' [-> Hl]%create_evaluate_Ok. by split.
    + apply create_evaluate_fueled.
    + intros nr e d r d' Hl. eapply create_apply_evolution; [done|]. by apply Hl.
    + intros nr e d Hl Hd. apply create_apply_fueled; [by apply Hl|done|by apply Hops].
  - apply (with_fee_fueled _ _ _ _ _ _ (λ b t _, b = (HARDFORK_201201_TIME <? t))).
    + intros d b d' (-> & -> & _)%update_evaluate_Ok. by split.
    + apply update_evaluate_fueled.
    + intros b e d r d' _. by apply update_apply_evolution.
    + intros b e d -> Hd. apply update_apply_fueled; [done|by apply (Hflat o)].
  - apply (with_fee_fueled _ _ _ _ _ _ (λ _ _ _, True)).
    + intros d u d' Hr. split; [by eapply delete_evaluate_evolution|done].
    + unfold delete_evaluate, find_proposal. apply fueled_bind; [evolution_tac| |intros p].
      { apply fueled_bind; [evolution_tac|done|]. intros d. apply lift_fuel. by destruct (_ !! _). }
      apply fueled_bind; [evolution_tac|apply fueled_assert|intros _]. apply assert_unlocked_fueled.
    + intros a e d r d' _. apply delete_apply_evolution.
    + intros a e d _ _. unfold delete_apply, remove, deref. run_e. by destruct (_ !! _).
  - done.
  - intros d _. unfold on_world. destruct (x_apply fl x (world d)) as [[r w]|ex] eqn:Hx; [done|]. intros [= ->]. by apply x_fuel in Hx.
Qed.
End InnerFuel.

Lemma need_pos op : (1 ≤ need op)%nat.
Proof. destruct op as [[]| | | |]; cbn; lia. Qed.

Lemma need_flat op : flat op = true → need op = 1%nat.
Proof. by destruct op. Qed.

Lemma need_ops ops : Forall (λ op, need op ≤ foldr (λ op n, Nat.max (need op) n) 1 ops)%nat ops.
Proof.
  induction ops as [|op ops IH]; constructor; cbn; [lia|]. eapply Forall_impl; [exact IH|]. cbn. lia.
Qed.

Lemma apply_operation_fueled fuel fl op : (need op ≤ fuel)%nat → fueled (run fuel fl op).
Proof.
  revert fl op. induction fuel as [|fuel IH]; intros fl op Hn; [pose proof (need_pos op); lia|]. cbn [apply_operation].
  pose proof (apply_operation_evolution fuel (mk_flags false false)) as Hev.
  assert (fueled (start (run fuel (mk_flags false false)) fl op)) as Hs.
  { apply start_evaluate_fueled; [done|intros o -> op' Hop'; apply IH|intros o ->].
    - cbn in Hn. rewrite (need_flat _ Hop'). lia.
    - destruct o as [fee payer expiration ops review m].
      assert (foldr (λ op n, Nat.max (need op) n) 1 ops ≤ fuel)%nat as Hf by exact (le_S_n _ _ Hn).
      eapply Forall_impl; [apply need_ops|]. intros op' Hop'. apply IH. cbn in Hop'. lia. }
  assert (evolution (start (run fuel (mk_flags false false)) fl op)) as Hsev by by apply start_evaluate_evolution.
  apply fueled_bind; [evolution_tac|apply fueled_raises; by intros d e|intros op_id].
  apply fueled_bind; [exact Hsev|exact Hs|intros r]. done.
Qed.

(** *** Expiration *)

Definition expired d : gmap Z (proposal_object (X := X)) := filter (λ ip, expiration_time ip.2 ≤ now d) (proposals d).

Lemma expired_lookup d i p : expired d !! i = Some p ↔ proposals d !! i = Some p ∧ expiration_time p ≤ now d.
Proof. unfold expired. by rewrite map_lookup_filter_Some. Qed.

(** The order of the index. *)
Definition expires_before (a b : Z * proposal_object (X := X)) : Prop :=
  expiration_time a.2 < expiration_time b.2 ∨ expiration_time a.2 = expiration_time b.2 ∧ a.1 ≤ b.1.

Lemma least_by_expiration_spec (l : list (Z * proposal_object)) :
  match least_by_expiration l with
  | None => l = []
  | Some a => a ∈ l ∧ ∀ b, b ∈ l → expires_before a b
  end.
Proof.
  induction l as [|a l IH]; cbn; [done|]. destruct (least_by_expiration l) as [b|].
  - destruct IH as [Hb Hle]. destruct (expires_first b a) eqn:He; unfold expires_first in He.
    + split; [by right|]. intros c [->|Hc]%elem_of_cons; [unfold expires_before; lia|by apply Hle].
    + split; [by left|]. unfold expires_before in *. intros c [->|Hc]%elem_of_cons; [lia|]. specialize (Hle c Hc). lia.
  - subst l. split; [by left|]. intros b [->|[]%elem_of_nil]%elem_of_cons. right. lia.
Qed.

Lemma first_proposal_spec d :
  match first_proposal d with
  | None => proposals d = ∅
  | Some (i, p) => proposals d !! i = Some p ∧ ∀ j q, proposals d !! j = Some q → expires_before (i, p) (j, q)
  end.
Proof.
  unfold first_proposal. pose proof (least_by_expiration_spec (map_to_list (proposals d))) as Hl.
  destruct (least_by_expiration _) as [[i p]|]; [|by apply map_to_list_empty_iff].
  destruct Hl as [Hi Hle]. split; [by apply elem_of_map_to_list|]. intros j q Hj. apply (Hle (j, q)). by apply elem_of_map_to_list.
Qed.

Lemma remove_proposal_removes i d u d' : remove_proposal pack_proposal i d = Ok (u, d') → proposals d' !! i = None.
Proof.
  unfold remove_proposal, remove. intros Hrun. inv_ok. apply lookup_delete_eq.
Qed.

Lemma push_proposal_removes apply_op i d r d' : push_proposal pack_proposal apply_op i d = Ok (r, d') → proposals d' !! i = None.
Proof. unfold push_proposal. intros Hrun. inv_ok. by eapply remove_proposal_removes. Qed.

Lemma expire_removes fuel i p d u d' : expire fuel i p d = Ok (u, d') → proposals d' !! i = None.
Proof.
  unfold expire_proposal. intros Hrun.
  apply M_bind_Ok in Hrun as (? & ? & [= <- <-] & Hrun). apply M_bind_Ok in Hrun as (executed & d1 & Hex & Hrun).
  destruct executed; [|by eapply remove_proposal_removes]. injection Hrun as _ <-.
  apply try_catch_Ok in Hex as [Hex|(e & _ & _ & Hex)]; [|inv_ok].
  destruct (is_authorized_to_execute _ _ _ _ _); [|inv_ok].
  apply M_bind_Ok in Hex as (? & ? & Hpush & [= <-]). by eapply push_proposal_removes.
Qed.

(** An evolution that removes an expired proposal leaves fewer of them. *)
Lemma expired_decreases d d' i p :
  evolves d d' → expired d !! i = Some p → proposals d' !! i = None → (size (expired d') < size (expired d))%nat.
Proof.
  intros He Hi Hn. rewrite <- !size_dom. apply subset_size. split.
  - intros j [q Hq]%elem_of_dom. apply expired_lookup in Hq as [Hq Ht].
    destruct (ev_proposals _ _ He _ _ Hq) as [(q' & Hq' & Hb)|[_ Hl]].
    + apply elem_of_dom. exists q'. apply expired_lookup. split; [done|]. injection Hb as Hb _. rewrite (ev_now _ _ He) in Ht. lia.
    + pose proof (lawful_expiration _ _ _ Hl). rewrite (ev_now _ _ He) in Ht. lia.
  - intros Hsub. assert (i ∈ dom (expired d')) as [q Hq]%elem_of_dom; [apply Hsub, elem_of_dom; eauto|].
    apply expired_lookup in Hq as [Hq _]. congruence.
Qed.

(** The operations of the proposals that have expired need at most [fuel]. *)
Definition affordable (fuel : nat) d : Prop :=
  ∀ i p, expired d !! i = Some p → Forall (λ op, need op ≤ fuel)%nat (proposed_transaction p).

Lemma affordable_evolves fuel d d' : affordable fuel d → evolves d d' → affordable fuel d'.
Proof.
  intros Hf He i p [Hp Ht]%expired_lookup. destruct (ev_proposals _ _ He _ _ Hp) as [(q & Hq & Hb)|[_ Hl]].
  - injection Hb as E1 _ _ E2 _ _ _ _. rewrite E2. apply (Hf i q). apply expired_lookup. split; [done|].
    rewrite (ev_now _ _ He) in Ht. lia.
  - pose proof (lawful_expiration _ _ _ Hl). rewrite (ev_now _ _ He) in Ht. lia.
Qed.

Lemma expire_fueled fuel i p d :
  settled d → affordable fuel d → expired d !! i = Some p → expire fuel i p d ≠ Throw out_of_fuel.
Proof.
  intros Hd Hf Hp. unfold expire_proposal.
  apply fueled_bind_at; [evolution_tac|done|done|]. intros ? ? [= <- <-] _ _.
  apply fueled_bind_at; [evolution_tac|done| |].
  - apply fueled_try.
    2: { intros e. apply fueled_bind_at; [by apply evolution_modify|done|by apply modify_fueled|done]. }
    destruct (is_authorized_to_execute _ _ _ _ _).
    + apply fueled_bind_at; [evolution_tac|done| |done].
      apply (push_proposal_fueled _ _ p); [intros op; apply apply_operation_evolution|done|by apply expired_lookup in Hp as [? _]|].
      eapply Forall_impl; [by eapply Hf|]. intros op. apply apply_operation_fueled.
    + apply fueled_bind_at; [by apply evolution_modify|done|by apply modify_fueled|done].
  - intros executed d1 _ _ Hd1. destruct executed; [done|]. by apply remove_proposal_fueled.
Qed.

Lemma clear_round fuel n d :
  clear fuel n d = match first_proposal d with
    | Some (i, p) =>
        if expiration_time p <=? now d
        then match n with O => Throw out_of_fuel | S n => (expire fuel i p ;; clear fuel n) d end
        else Ok ((), d)
    | None => Ok ((), d)
    end.
Proof.
  destruct n; cbn [clear_expired_proposals]; unfold mbind at 1, M_bind at 1, get_st;
    destruct (first_proposal d) as [[i p]|]; [|done| |done]; by destruct (_ <=? _).
Qed.


(** *** Updating a proposal *)

Lemma authorized_agree p d d' : agree d d' →
  is_authorized_to_execute active_of owner_of addresses p d' = is_authorized_to_execute active_of owner_of addresses p d.
Proof. intros [_ _ G W _]. unfold is_authorized_to_execute. by rewrite G, W. Qed.

Lemma modify_run i f d p : proposals d !! i = Some p →
  modify i f d = Ok ((), set_proposals (<[i := f p]> (proposals d)) (next_proposal_id d) d).
Proof. intros Hp. unfold modify, deref. run_e. by rewrite Hp. Qed.

Lemma deref_run {B} i p (f : proposal_object → M _ B) d : proposals d !! i = Some p → (deref i ≫= f) d = f p d.
Proof. intros Hp. unfold deref. run_e. by rewrite Hp. Qed.

Lemma remove_proposal_run i p d : proposals d !! i = Some p →
  ∃ d1, remove_proposal pack_proposal i d = Ok ((), d1) ∧ world d1 = world d ∧ proposals d1 = delete i (proposals d) ∧
    global_parameters d1 = global_parameters d.
Proof.
  intros Hp. unfold remove_proposal. rewrite (deref_run _ _ _ _ Hp). unfold push_applied_operation, remove, deref. run_e.
  destruct (has_object_history_plugin d); cbn; rewrite Hp; by eexists.
Qed.

(** Operations carried out one after the other, all of them with success. *)
Inductive carried_out (apply_op : operation (X := X) → M (database (X := X) (R := R)) operation_result) :
    list (operation (X := X)) → database (X := X) (R := R) → database (X := X) (R := R) → Prop :=
  | carried_nil d : carried_out apply_op [] d d
  | carried_cons op ops r d d1 d2 :
      apply_op op d = Ok (r, d1) → carried_out apply_op ops d1 d2 → carried_out apply_op (op :: ops) d d2.

(** What an update makes of the proposal [i], which is [p1] with its new approvals, given
    whether it is authorized then and whether it waits for its expiration.  It is carried
    out and gone, with all that its operations did; or one of them has failed, after those
    before it have been carried out, and nothing that they did is left; or it is kept. *)
Definition enacted apply_op (i : Z) (authorized waits : bool) (p1 : proposal_object (X := X)) d d' : Prop :=
  if authorized && negb waits then
    (∃ d1, carried_out apply_op (proposed_transaction p1) d d1 ∧
       world d' = world d1 ∧ proposals d' = delete i (proposals d1)) ∨
    (∃ before op after d1 e, proposed_transaction p1 = before ++ op :: after ∧
       carried_out apply_op before d d1 ∧ apply_op op d1 = Throw e ∧
       world d' = world d ∧ proposals d' = <[i := set_status 2 (to_detail_string e) p1]> (proposals d))
  else
    world d' = world d ∧
    proposals d' = <[i := set_status (if authorized then 1 else 0) (if authorized then waiting (expiration_time p1) else "") p1]>
      (proposals d).

Lemma run_operations_carried apply_op i ops : ∀ results d,
  match run_operations apply_op i ops results d with
  | Ok (_, d') => carried_out apply_op ops d d'
  | Throw e => fc_exception e = true → ∃ before op after d1,
      ops = before ++ op :: after ∧ carried_out apply_op before d d1 ∧ apply_op op d1 = Throw e
  end.
Proof.
  induction ops as [|op ops IH]; intros results d; cbn [run_operations];
    unfold mbind at 1, M_bind at 1, deref, get_st, lift, mbind at 1, M_bind at 1.
  - destruct (proposals d !! i); [constructor|done].
  - destruct (proposals d !! i); [|done]. unfold mbind at 1, M_bind at 1. destruct (apply_op op d) as [[r d1]|e] eqn:Hop.
    + specialize (IH (results ++ [r]) d1). destruct (run_operations _ _ _ _ d1) as [[? d2]|e]; [by eapply carried_cons|].
      intros (before & x & after & d2 & -> & Hc & Hx)%IH. exists (op :: before), x, after, d2. split_and!; [done| |done]. by eapply carried_cons.
    + intros _. exists [], op, ops, d. split_and!; [done|constructor|done].
Qed.

Lemma carried_evolves apply_op ops d d' :
  (∀ op, evolution (apply_op op)) → carried_out apply_op ops d d' → evolves d d'.
Proof. intros Hev. induction 1 as [|op ops r d d1 d2 Hop _ IH]; [done|]. etransitivity; [by eapply Hev|done]. Qed.

Lemma modify_fc i f d e : modify i f d = Throw e → fc_exception e = true → False.
Proof. unfold modify, deref. run_e. destruct (proposals d !! i); [done|]. by intros [= <-]. Qed.

Lemma remove_proposal_fc i d e : remove_proposal pack_proposal i d = Throw e → fc_exception e = true → False.
Proof.
  unfold remove_proposal, remove, push_applied_operation, deref. run_e. destruct (proposals d !! i) eqn:Hi; [|by intros [= <-]].
  destruct (has_object_history_plugin d); cbn; by rewrite Hi.
Qed.

Lemma push_proposal_carried apply_op i p d : proposals d !! i = Some p →
  match push_proposal pack_proposal apply_op i d with
  | Ok (_, d') => ∃ d1, carried_out apply_op (proposed_transaction p) d d1 ∧
      world d' = world d1 ∧ proposals d' = delete i (proposals d1)
  | Throw e => fc_exception e = true → ∃ before op after d1,
      proposed_transaction p = before ++ op :: after ∧ carried_out apply_op before d d1 ∧ apply_op op d1 = Throw e
  end.
Proof.
  intros Hp. unfold push_proposal. rewrite (deref_run _ _ _ _ Hp).
  pose proof (run_operations_carried apply_op i (proposed_transaction p) [] d) as Hrun.
  unfold mbind at 1, M_bind at 1. destruct (run_operations _ _ _ _ d) as [[r d1]|e]; [|exact Hrun].
  unfold mbind at 1, M_bind at 1. destruct (modify _ _ d1) as [[[] d2]|e] eqn:Hmod; [|by intros ?%(modify_fc _ _ _ _ Hmod)].
  unfold mbind at 1, M_bind at 1. destruct (remove_proposal _ _ d2) as [[[] d3]|e] eqn:Hrem; [|by intros ?%(remove_proposal_fc _ _ _ Hrem)].
  exists d1. split; [exact Hrun|]. unfold modify, deref in Hmod. revert Hmod. run_e.
  destruct (proposals d1 !! i) eqn:Hi; [|done]. intros [= <-].
  destruct (remove_proposal_run i (set_status 3 "" p0) (set_proposals (<[i := set_status 3 "" p0]> (proposals d1)) (next_proposal_id d1) d1))
    as (d4 & Hrem' & W & P & _); [apply lookup_insert_eq|].
  rewrite Hrem in Hrem'. injection Hrem' as ->. rewrite W, P. split; [done|]. apply delete_insert_eq.
Qed.

Lemma update_apply_Ok apply_op o use_review e d r d' p :
  proposals d !! proposal o = Some p →
  update_apply active_of owner_of addresses pack_proposal to_detail_string waiting apply_op o use_review e d = Ok (r, d') →
  let p1 := update_approvals o p in
  r = (e, void_result) ∧
  enacted apply_op (proposal o) (is_authorized_to_execute active_of owner_of addresses p1 d)
    (bool_decide (is_Some (review_period_time p)) && use_review) p1
    (set_proposals (<[proposal o := p1]> (proposals d)) (next_proposal_id d) d) d'.
Proof.
  intros Hp Hrun p1. revert Hrun. unfold update_apply. cbv zeta. rewrite (M_bind_run _ _ _ _ _ (modify_run _ _ _ _ Hp)).
  fold p1. set (d1 := set_proposals _ _ d).
  assert (proposals d1 !! proposal o = Some p1) as Hp1 by apply lookup_insert_eq.
  assert (is_authorized_to_execute active_of owner_of addresses p1 d1 = is_authorized_to_execute active_of owner_of addresses p1 d)
    as Hauth by done.
  rewrite (deref_run _ _ _ _ Hp1). intros Hrun.
  apply M_bind_Ok in Hrun as (? & ? & [= <- <-] & Hrun). rewrite Hauth in Hrun.
  apply M_bind_Ok in Hrun as (u & d2 & Hrun & [= <- <-]). split; [done|].
  change (review_period_time p1) with (review_period_time p) in Hrun. change (status p1 =? 1) with false in Hrun.
  assert (∀ n info, modify (proposal o) (set_status n info) d1 = Ok (u, d2) →
    world d2 = world d1 ∧ proposals d2 = <[proposal o := set_status n info p1]> (proposals d1)) as Hmod.
  { intros n info. rewrite (modify_run _ _ _ _ Hp1). by intros [= _ <-]. }
  unfold enacted. destruct (is_authorized_to_execute active_of owner_of addresses p1 d) eqn:Ha;
    destruct (_ && use_review) eqn:Hw; cbn [negb andb] in Hrun |- *.
  - by apply Hmod.
  - pose proof (push_proposal_carried apply_op _ _ _ Hp1) as Hpush.
    apply try_catch_Ok in Hrun as [(? & ? & Hrun & [= _ <-])%M_bind_Ok|(ex & Hex & Hfcx & Hrun)].
    + left. by rewrite Hrun in Hpush.
    + right. unfold mbind at 1, M_bind at 1 in Hex. destruct (push_proposal _ _ _ d1) as [[]|ex']; [done|]. injection Hex as ->.
      destruct (Hpush Hfcx) as (before & op & after & d3 & Hops & Hc & Hop). apply Hmod in Hrun as [W P].
      exists before, op, after, d3, ex. by split_and!.
  - injection Hrun as _ <-. split; [done|]. cbn. by rewrite insert_insert_eq.
  - injection Hrun as _ <-. split; [done|]. cbn. by rewrite insert_insert_eq.
Qed.

(** What is charged of whoever pays before an operation is applied, and afterwards. *)
Definition charge fl (op : operation (X := X)) (payer : Z) (fee : asset) d : M ledger evaluator :=
  e ← prepare_fee (is_authorized_asset (world d).2) payer fee;
  e ← lift (check_fee fl (calculate_fee d op) fee e);
  convert_fee fl e ;;
  pay_fee fl false e.

Definition debit (e : evaluator) (payer : Z) : M ledger () :=
  debit ← lift (asset_neg (fee_from_account e)); db_adjust_balance e payer debit.

Lemma on_ledger_exact {A} (m : M ledger A) d a d' :
  on_ledger m d = Ok (a, d') → ∃ l, m (world d).1 = Ok (a, l) ∧ d' = set_world (l, (world d).2) d.
Proof.
  unfold on_ledger, on_world. destruct (m (world d).1) as [[a0 l]|]; [|done]. intros [= <- <-]. by exists l.
Qed.

(** An operation that is evaluated without effect: it is charged, applied, and debited. *)
Lemma with_fee_exact {A} fl op payer fee (ev : M _ A) app d r d' :
  (∀ d a d', ev d = Ok (a, d') → d' = d) →
  with_fee is_authorized_asset calculate_fee fl op payer fee ev app d = Ok (r, d') →
  ∃ a e e' d0 l1 d1 l2,
    agree d d0 ∧ ev d0 = Ok (a, d0) ∧
    charge fl op payer fee d (world d).1 = Ok (e, l1) ∧
    app a e (set_world (l1, (world d).2) d) = Ok ((e', r), d1) ∧
    debit e' payer (world d1).1 = Ok ((), l2) ∧ d' = set_world (l2, (world d1).2) d1.
Proof.
  intros Hev. unfold with_fee. intros Hrun.
  apply M_bind_Ok in Hrun as (? & ? & [= <- <-] & Hrun).
  apply M_bind_Ok in Hrun as (e & d1 & H1 & Hrun).
  assert (agree d d1) as A1 by (apply agree_on_ledger in H1; [done|eauto with zos]). apply on_ledger_exact in H1 as (l1 & H1 & ->).
  apply M_bind_Ok in Hrun as (e1 & ? & Hc & Hrun). apply lift_Ok in Hc as [Hc ->].
  apply M_bind_Ok in Hrun as (a & d2 & H2 & Hrun). assert (d2 = set_world (l1, (world d).2) d) as -> by by eapply Hev.
  apply M_bind_Ok in Hrun as ([] & ? & H3 & Hrun). apply on_ledger_exact in H3 as (l3 & H3 & ->).
  apply M_bind_Ok in Hrun as (e2 & ? & H4 & Hrun). apply on_ledger_exact in H4 as (l4 & H4 & ->).
  apply M_bind_Ok in Hrun as ([e3 res] & d5 & H5 & Hrun).
  apply M_bind_Ok in Hrun as (db & ? & Hc2 & Hrun). apply lift_Ok in Hc2 as [Hc2 ->].
  apply M_bind_Ok in Hrun as ([] & d6 & H6 & [= <- <-]). apply on_ledger_exact in H6 as (l6 & H6 & ->).
  exists a, e2, e3, (set_world (l1, (world d).2) d), l4, d5, l6. split_and!; [done|done| |exact H5| |done].
  - unfold charge. rewrite (M_bind_run _ _ _ _ _ H1). unfold lift, mbind at 1, M_bind at 1. rewrite Hc. cbn [world set_world fst] in *.
    by rewrite (M_bind_run _ _ _ _ _ H3).
  - unfold debit, lift, mbind at 1, M_bind at 1. by rewrite Hc2.
Qed.


(** *** Expired proposals of plain operations *)

Definition plain op : bool := match op with other_operation _ => true | _ => false end.

(** The reference: the operations of a proposal change the world all or not at all. *)
Fixpoint apply_all (ops : list (operation (X := X))) (w : ledger * R) : option (ledger * R) :=
  match ops with
  | [] => Some w
  | other_operation x :: ops =>
      match x_apply (mk_flags false false) x w with Ok (_, w) => apply_all ops w | Throw _ => None end
  | _ :: _ => None
  end.

Definition settle d (w : ledger * R) (ip : Z * proposal_object (X := X)) : ledger * R :=
  if is_authorized_to_execute active_of owner_of addresses ip.2 (set_world w d)
  then default w (apply_all (proposed_transaction ip.2) w) else w.

Context (Hfc : ∀ fl (x : X) (w : ledger * R) e, x_apply fl x w = Throw e → fc_exception e = true).

Lemma run_plain fuel fl x d :
  match run (S fuel) fl (other_operation x) d with
  | Ok (r, d1) => x_apply fl x (world d) = Ok (r, world d1) ∧ proposals d1 = proposals d ∧ global_parameters d1 = global_parameters d
  | Throw e => x_apply fl x (world d) = Throw e
  end.
Proof.
  cbn [apply_operation]. unfold push_applied_operation, set_applied_operation_result, start_evaluate, on_world. run_e.
  change (world (set_applied_ops ?a ?d)) with (world d). by destruct (x_apply fl x (world d)) as [[r w]|e].
Qed.

Lemma run_operations_plain fuel i p ops results d :
  proposals d !! i = Some p → Forall (λ op, plain op = true) ops →
  match run_operations (run (S fuel) (mk_flags false false)) i ops results d with
  | Ok (_, d1) => apply_all ops (world d) = Some (world d1) ∧ proposals d1 = proposals d ∧ global_parameters d1 = global_parameters d
  | Throw e => apply_all ops (world d) = None ∧ fc_exception e = true
  end.
Proof.
  intros Hp Hops. revert results d Hp. induction Hops as [|op ops Hop _ IH]; intros results d Hp; cbn [run_operations].
  - by rewrite (deref_run _ _ _ _ Hp).
  - rewrite (deref_run _ _ _ _ Hp). destruct op as [| | | |x]; [done..|]. pose proof (run_plain fuel (mk_flags false false) x d) as Hx.
    unfold mbind at 1, M_bind at 1. cbn [apply_all]. destruct (run (S fuel) _ _ d) as [[r d1]|e].
    + destruct Hx as (-> & P1 & G1). rewrite <- P1 in Hp. specialize (IH (results ++ [r]) d1 Hp). by rewrite P1, G1 in IH.
    + rewrite Hx. split; [done|by eapply Hfc].
Qed.

Lemma push_plain fuel i p d :
  proposals d !! i = Some p → Forall (λ op, plain op = true) (proposed_transaction p) →
  match push_proposal pack_proposal (run (S fuel) (mk_flags false false)) i d with
  | Ok (_, d1) => apply_all (proposed_transaction p) (world d) = Some (world d1) ∧
      proposals d1 = delete i (proposals d) ∧ global_parameters d1 = global_parameters d
  | Throw e => apply_all (proposed_transaction p) (world d) = None ∧ fc_exception e = true
  end.
Proof.
  intros Hp Hops. unfold push_proposal. rewrite (deref_run _ _ _ _ Hp).
  pose proof (run_operations_plain fuel i p _ [] d Hp Hops) as Hrun. unfold mbind at 1, M_bind at 1.
  destruct (run_operations _ _ _ _ d) as [[r d1]|e]; [|done]. destruct Hrun as (Hw & P1 & G1). rewrite <- P1 in Hp.
  rewrite (M_bind_run _ _ _ _ _ (modify_run _ _ _ _ Hp)). set (d2 := set_proposals _ _ d1).
  destruct (remove_proposal_run i (set_status 3 "" p) d2) as (d3 & Hr & W3 & P3 & G3); [apply lookup_insert_eq|].
  rewrite (M_bind_run _ _ _ _ _ Hr). split_and!; [by rewrite W3| |by rewrite G3].
  rewrite P3. cbn. by rewrite delete_insert_eq, P1.
Qed.

Lemma expire_plain fuel i p d :
  proposals d !! i = Some p → Forall (λ op, plain op = true) (proposed_transaction p) →
  ∃ d1, expire (S fuel) i p d = Ok ((), d1) ∧ world d1 = settle d (world d) (i, p) ∧ proposals d1 = delete i (proposals d) ∧
    global_parameters d1 = global_parameters d.
Proof.
  intros Hp Hops. unfold expire_proposal, settle. rewrite (M_bind_run _ get_st d d d eq_refl). cbn [snd].
  assert (is_authorized_to_execute active_of owner_of addresses p (set_world (world d) d) =
          is_authorized_to_execute active_of owner_of addresses p d) as -> by done.
  assert (∀ n info, ∃ d1, ((modify i (set_status n info) ;; mret false : M _ bool) ≫= λ executed : bool,
      if executed then mret () else remove_proposal pack_proposal i) d = Ok ((), d1) ∧ world d1 = world d ∧
    proposals d1 = delete i (proposals d) ∧ global_parameters d1 = global_parameters d) as Hdrop.
  { intros n info. unfold mbind at 1, M_bind at 1. rewrite (M_bind_run _ _ _ _ _ (modify_run _ _ _ _ Hp)). cbn.
    destruct (remove_proposal_run i (set_status n info p) (set_proposals (<[i:=set_status n info p]> (proposals d)) (next_proposal_id d) d))
      as (d3 & -> & W3 & P3 & G3); [apply lookup_insert_eq|].
    exists d3. split_and!; [done|by rewrite W3| |by rewrite G3]. rewrite P3. cbn. apply delete_insert_eq. }
  unfold mbind at 1, M_bind at 1, try_catch. cbn [snd].
  destruct (is_authorized_to_execute active_of owner_of addresses p d).
  - pose proof (push_plain fuel i p d Hp Hops) as Hpush. unfold mbind at 1, M_bind at 1.
    destruct (push_proposal _ _ i d) as [[r d1]|e].
    + destruct Hpush as (-> & P1 & G1). by exists d1.
    + destruct Hpush as [-> ->]. exact (Hdrop _ _).
  - destruct (Hdrop 4 "") as (d1 & Hrun & Hd1). exists d1. split; [|exact Hd1]. revert Hrun. unfold mbind at 1, M_bind at 1.
    by destruct ((modify i _ ;; mret false) d) as [[[] ?]|].
Qed.

Lemma settle_params d d1 : global_parameters d1 = global_parameters d → settle d1 = settle d.
Proof. intros G. unfold settle, is_authorized_to_execute. cbn. by rewrite G. Qed.

(** C15: expired proposals are settled in order.  When their operations are no proposals and
    throw exceptions of fc only, clearing returns: the proposals that have expired, in the
    order of their expirations and numbers, change the world if they are authorized at
    their turn and every one of their operations succeeds, and otherwise leave it as it
    is; just those proposals are gone afterwards. *)
Theorem expired_proposals_settled fuel n d :
  (∀ i p, expired d !! i = Some p → Forall (λ op, plain op = true) (proposed_transaction p)) →
  (size (expired d) ≤ n)%nat →
  ∃ l d', clear (S fuel) n d = Ok ((), d') ∧ l ≡ₚ map_to_list (expired d) ∧ StronglySorted expires_before l ∧
    world d' = foldl (settle d) (world d) l ∧
    proposals d' = filter (λ ip, now d < expiration_time ip.2) (proposals d).
Proof.
  revert d. induction n as [|n IH]; intros d Hplain Hn; rewrite clear_round; pose proof (first_proposal_spec d) as Hfst;
    destruct (first_proposal d) as [[i p]|].
  all: try (exists [], d; unfold expired; rewrite Hfst, !map_filter_empty, map_to_list_empty; split_and!; [done..|constructor|done|done]).
  all: destruct Hfst as [Hi Hle], (Z.leb_spec (expiration_time p) (now d)) as [Hexp|Hexp].
  all: try (assert (expired d = ∅ ∧ filter (λ ip, now d < expiration_time ip.2) (proposals d) = proposals d) as [Hnone Hall];
    [split; [apply map_empty; intros j; apply map_lookup_filter_None; right|apply map_filter_id]; intros q Hq;
     first [destruct (Hle j q Hq)|intros Hq'; destruct (Hle q _ Hq')]; cbn in *; lia|];
    exists [], d; rewrite Hnone, Hall, map_to_list_empty; split_and!; [done..|constructor|done|done]).
  all: assert (expired d !! i = Some p) as Hi' by (by apply expired_lookup).
  { apply Nat.le_0_r, map_size_empty_inv in Hn. by rewrite Hn, lookup_empty in Hi'. }
  destruct (expire_plain fuel i p d Hi (Hplain i p Hi')) as (d1 & Hrun & W1 & P1 & G1).
  assert (now d1 = now d) as N1 by (exact (ev_now _ _ (expire_evolution _ _ _ _ _ _ Hrun))).
  assert (expired d1 = delete i (expired d)) as X1 by (unfold expired; by rewrite P1, N1, map_filter_delete).
  destruct (IH d1) as (l & d' & Hclear & Hl & Hsort & Hw & Hp).
  { intros j q. rewrite X1. intros [_ Hq]%lookup_delete_Some. by eapply Hplain. }
  { rewrite X1. rewrite map_size_delete_Some by done. lia. }
  exists ((i, p) :: l), d'. rewrite (M_bind_run _ _ _ _ _ Hrun). split_and!.
  - done.
  - rewrite Hl, X1. by apply map_to_list_delete.
  - constructor; [done|]. apply Forall_forall. intros [j q]. rewrite Hl, X1. intros Hq%elem_of_map_to_list.
    apply lookup_delete_Some in Hq as [_ [Hq _]%expired_lookup]. by apply Hle.
  - cbn. by rewrite Hw, W1, (settle_params _ _ G1).
  - rewrite Hp, P1, N1. rewrite map_filter_delete. apply delete_id, map_lookup_filter_None. right. intros q Hq. simplify_eq. cbn. lia.
Qed.
End Steps.

(** ** The index of the accounts that must approve: required_approval_index *)

Section ApprovalIndex.
Context {X : Type}.
Implicit Types (p : proposal_object (X := X)) (m : gmap Z (gset Z)).

(** [_account_to_proposals[a].insert( i )]. *)
Definition enter (i : Z) m (a : Z) : gmap Z (gset Z) := <[a := {[i]} ∪ default ∅ (m !! a)]> m.

(** [required_approval_index::remove]. *)
Definition forget (i : Z) m (a : Z) : gmap Z (gset Z) :=
  match m !! a with
  | None => m
  | Some s => if decide (s ∖ {[i]} = ∅) then delete a m else <[a := s ∖ {[i]}]> m
  end.

(** The accounts of the four loops, in their order. *)
Definition approvals_of p : list Z :=
  ordered (required_active_approvals p) ++ ordered (required_owner_approvals p) ++
  ordered (available_active_approvals p) ++ ordered (available_owner_approvals p).

Definition object_inserted (i : Z) p m : gmap Z (gset Z) := foldl (enter i) m (approvals_of p).
Definition object_removed (i : Z) p m : gmap Z (gset Z) := foldl (forget i) m (approvals_of p).

(** The proposals and their index as they change; the index hears of no modification. *)
Inductive indexed : gmap Z (proposal_object (X := X)) → gmap Z (gset Z) → Prop :=
  | indexed_empty : indexed ∅ ∅
  | indexed_insert ps m i p : indexed ps m → ps !! i = None → indexed (<[i := p]> ps) (object_inserted i p m)
  | indexed_modify ps m i p p' : indexed ps m → ps !! i = Some p → body p' = body p → indexed (<[i := p']> ps) m
  | indexed_remove ps m i p : indexed ps m → ps !! i = Some p → indexed (delete i ps) (object_removed i p m).

(** The proposals the index names for an account. *)
Definition entries m (a : Z) : gset Z := default ∅ (m !! a).

Lemma enter_entries i m a b : entries (enter i m a) b = if decide (b = a) then {[i]} ∪ entries m b else entries m b.
Proof.
  unfold entries, enter. destruct (decide (b = a)) as [->|Hne]; [by rewrite lookup_insert_eq|by rewrite lookup_insert_ne].
Qed.

Lemma forget_entries i m a b : entries (forget i m a) b = if decide (b = a) then entries m b ∖ {[i]} else entries m b.
Proof.
  unfold entries, forget. destruct (m !! a) as [s|] eqn:Ha; repeat case_decide; subst.
  - by rewrite lookup_delete_eq, Ha.
  - by rewrite lookup_delete_ne.
  - by rewrite lookup_insert_eq, Ha.
  - by rewrite lookup_insert_ne.
  - rewrite Ha. cbn. set_solver.
  - done.
Qed.

Lemma inserted_entries i l m b : i ∈ entries (foldl (enter i) m l) b ↔ b ∈ l ∨ i ∈ entries m b.
Proof.
  revert m. induction l as [|a l IH]; intros m; cbn; [set_solver|]. rewrite IH, enter_entries. case_decide; set_solver.
Qed.

Lemma inserted_others i j l m b : j ≠ i → j ∈ entries (foldl (enter i) m l) b ↔ j ∈ entries m b.
Proof.
  intros Hj. revert m. induction l as [|a l IH]; intros m; cbn; [done|]. rewrite IH, enter_entries. case_decide; set_solver.
Qed.

Lemma removed_others i j l m b : j ≠ i → j ∈ entries (foldl (forget i) m l) b ↔ j ∈ entries m b.
Proof.
  intros Hj. revert m. induction l as [|a l IH]; intros m; cbn; [done|]. rewrite IH, forget_entries. case_decide; set_solver.
Qed.

Lemma removed_nonempty i l m : (∀ a s, m !! a = Some s → s ≠ ∅) → ∀ a s, foldl (forget i) m l !! a = Some s → s ≠ ∅.
Proof.
  revert m. induction l as [|b l IH]; intros m Hm; cbn; [exact Hm|]. apply IH. intros a s. unfold forget.
  destruct (m !! b) as [t|] eqn:Hb; [|apply Hm]. case_decide.
  - intros [_ Hs]%lookup_delete_Some. by eapply Hm.
  - intros [[_ <-]|[_ Hs]]%lookup_insert_Some; [done|by eapply Hm].
Qed.

Lemma inserted_nonempty i l m : (∀ a s, m !! a = Some s → s ≠ ∅) → ∀ a s, foldl (enter i) m l !! a = Some s → s ≠ ∅.
Proof.
  revert m. induction l as [|b l IH]; intros m Hm; cbn; [exact Hm|]. apply IH. intros a s. unfold enter.
  intros [[_ <-]|[_ Hs]]%lookup_insert_Some; [set_solver|by eapply Hm].
Qed.

(** The index of required approvals misses nobody: however proposals are created,
    modified and removed, every account that must approve of a proposal finds it in the
    index, and no account has an empty entry. *)
Theorem approval_index_covers ps m :
  indexed ps m →
  (∀ i p a, ps !! i = Some p → a ∈ required_active_approvals p ∪ required_owner_approvals p → i ∈ entries m a) ∧
  (∀ a s, m !! a = Some s → s ≠ ∅).
Proof.
  induction 1 as [|ps m i p _ [IH1 IH2] Hi|ps m i p p' _ [IH1 IH2] Hi Hb|ps m i p _ [IH1 IH2] Hi].
  - split; [intros i p a Hi|intros a s Ha]; by rewrite lookup_empty in *.
  - split; [|by apply inserted_nonempty]. intros j q a [[<- <-]|[Hne Hq]]%lookup_insert_Some Ha.
    + apply inserted_entries. left. unfold approvals_of. rewrite !elem_of_app, !ordered_elem. set_solver.
    + apply inserted_others; [done|]. by eapply IH1.
  - split; [|done]. intros j q a [[<- <-]|[_ Hq]]%lookup_insert_Some Ha; [|by eapply IH1].
    injection Hb as _ _ _ _ _ E1 E2 _. eapply IH1; [done|]. by rewrite <- E1, <- E2.
  - split; [|by apply removed_nonempty]. intros j q a [Hne Hq]%lookup_delete_Some Ha.
    apply removed_others; [done|]. by eapply IH1.
Qed.
End ApprovalIndex.

Module ProposalsExample.
(** An operation adds to a number; adding a negative number fails. *)
Record demo_op := mk_demo { demo_tag : Tag.tag; demo_payer : Z; addend : Z }.

Definition demo_apply (fl : evaluation_flags) (x : demo_op) : M (ledger * Z) operation_result :=
  assert_st (0 <=? addend x) ;; modify_st (λ w, (w.1, w.2 + addend x)) ;; mret void_result.

#[export] Instance demo_operations : Operations demo_op Z :=
  Build_Operations _ _ demo_tag (λ _, Ok ()) (λ x, Requirements.calls (λ _, None) (payer_operation (demo_payer x))) demo_apply.

#[export] Instance demo_laws : OperationsLaws demo_op Z.
Proof.
  split.
  - intros fl x w r w'. cbn. unfold demo_apply. run_e. destruct (0 <=? addend x); [|done]. by intros [= _ <-].
  - intros fl x w. cbn. unfold demo_apply. run_e. by destruct (0 <=? addend x).
  - done.
Qed.

Definition demo_authority (_ : Z) (a : Z) : option authority := Some (mk_authority 1 [] [(1000 + a, 1)] []).

Definition run (fuel : nat) (op : operation (X := demo_op)) : M database operation_result :=
  apply_operation (R := Z) (λ _ _ _, true) demo_authority demo_authority (λ _, []) (λ _ _, 0) (λ _ _, []) (λ _, "failed")
    (λ _, "waiting") (-1) fuel (mk_flags false false) op.
Definition clear (fuel n : nat) : M database () :=
  clear_expired_proposals (R := Z) (λ _ _ _, true) demo_authority demo_authority (λ _, []) (λ _ _, 0) (λ _ _, [])
    (λ _, "failed") (λ _, "waiting") (-1) fuel n.

Definition demo_ledger (t : Z) : ledger :=
  mk_ledger {[ (700, 0) := 5000 ]} ∅ 0 {[ 0 := mk_dyn 0 0 0 ]}
    (<[7 := mk_account 7 7 7 2000 3000 5000 None 0]> {[ 700 := mk_account 7 7 7 2000 3000 5000 None 0 ]})
    (<[7 := demo_stats]> {[ 700 := demo_stats ]}) ∅ t 0 0 (mk_params 100 100 50 5 50) false [].

Definition t0 : Z := 1700000000.
Definition demo_db (ps : gmap Z (proposal_object (X := demo_op))) (n : Z) : database :=
  mk_database (demo_ledger t0, 0) ps n [] (mk_proposal_parameters 1000 100 2) false.

Definition create (ops : list (operation (X := demo_op))) (review : option Z) : operation (X := demo_op) :=
  proposal_create (mk_create (mk_asset 0 0) 700 (t0 + 500) ops review None).
Definition add (t : Tag.tag) (payer n : Z) : operation (X := demo_op) := other_operation (mk_demo t payer n).
Definition approve (payer i : Z) : operation (X := demo_op) :=
  proposal_update (mk_update (mk_asset 0 0) payer i {[payer]} ∅ ∅ ∅ ∅ ∅).

(** The number and the proposals after an operation, or the exception. *)
Definition outcome {A} (r : result (A * database (X := demo_op) (R := Z))) : Z * list Z + exn :=
  match r with Ok (_, d) => inl ((world d).2, (map_to_list (proposals d)).*1) | Throw e => inr e end.

(** Proposing what needs nobody else executes it at once. *)
Example executed_at_once : outcome (run 3 (create [add Tag.custom_operation 700 5] None) (demo_db ∅ 0)) = inl (5, []).
Proof. vm_compute. reflexivity. Qed.
Example waits_for_7 : outcome (run 3 (create [add Tag.custom_operation 7 5] None) (demo_db ∅ 0)) = inl (0, [0]).
Proof. vm_compute. reflexivity. Qed.

(** An operation that needs a review: the period is asked for, but a proposal its proposer
    can authorize alone is executed without waiting for it. *)
Theorem review_skipped_at_creation :
  outcome (run 3 (create [add Tag.gateway_create_operation 700 5] None) (demo_db ∅ 0)) =
    inr proposal_create_review_period_required ∧
  outcome (run 3 (create [add Tag.gateway_create_operation 700 5] (Some 200)) (demo_db ∅ 0)) = inl (5, []).
Proof. vm_compute. done. Qed.

(** A proposal to update a proposal is refused, unless an operation that needs a review
    comes before it. *)
Theorem nested_proposal_accepted :
  outcome (run 3 (create [approve 7 0] None) (demo_db ∅ 0)) = inr assert_exception ∧
  outcome (run 3 (create [add Tag.gateway_create_operation 7 5; proposal_delete (mk_delete 7 false (mk_asset 0 0) 0)] (Some 200))
    (demo_db ∅ 0)) = inl (0, [0]) ∧
  is_must_review_period [add Tag.gateway_create_operation 7 5; approve 7 0] = Ok true.
Proof. vm_compute. done. Qed.

(** The committee must approve (its account is 0), so a review is asked for; with a
    transfer next to it the proposal needs none. *)
Theorem transfer_exempts_committee :
  outcome (run 3 (create [add Tag.custom_operation 0 5] None) (demo_db ∅ 0)) = inr proposal_create_review_period_required ∧
  outcome (run 3 (create [add Tag.custom_operation 0 5; add Tag.transfer_operation 700 1] None) (demo_db ∅ 0)) = inl (0, [0]).
Proof. vm_compute. done. Qed.

(** A proposal whose operations delete it: after the second operation the loop over its
    operations follows a reference to a proposal that has been freed. *)
Theorem self_deleting_proposal_undefined :
  outcome (run 3 (create [add Tag.custom_operation 700 5; proposal_delete (mk_delete 700 false (mk_asset 0 0) 0)] None)
    (demo_db ∅ 0)) = inr undefined_behaviour.
Proof. vm_compute. done. Qed.

(** After a proposal has been executed at its creation, its number is read from freed
    memory (-1 stands for what is there). *)
Theorem created_number_dangles :
  match run 3 (create [add Tag.custom_operation 700 5] None) (demo_db ∅ 0) with
  | Ok (r, _) => r = object_result (-1)
  | Throw _ => False
  end.
Proof. vm_compute. done. Qed.

Definition waiting_proposal (expires : Z) (x : Z) : proposal_object (X := demo_op) :=
  mk_proposal expires 0 None [add Tag.custom_operation 7 x] "" {[7]} {[700]} ∅ ∅ ∅ 700 "" 0.

(** The index keeps the proposer of a proposal that is gone once he has withdrawn his
    approval. *)
Theorem withdrawn_approval_stays_indexed :
  let p := waiting_proposal (t0 + 500) 5 in
  let p' := update_approvals (mk_update (mk_asset 0 0) 700 0 ∅ {[700]} ∅ ∅ ∅ ∅) p in
  body p' = body p ∧ entries (object_removed 0 p' (object_inserted 0 p ∅)) 700 = {[0]}.
Proof. vm_compute. done. Qed.

(** *** Witnesses *)

Definition db1 : database := demo_db {[ 0 := waiting_proposal (t0 + 500) 5 ]} 1.
Definition after {A} (r : result (A * database (X := demo_op) (R := Z))) : database :=
  match r with Ok (_, d) => d | Throw _ => db1 end.

Lemma proposals_evolve_witness :
  let d' := after (run 3 (create [add Tag.custom_operation 7 5] None) db1) in
  bool_decide (is_Some (proposals d' !! 1)) = true ∧ evolves db1 d'.
Proof.
  split; [vm_compute; reflexivity|].
  apply (proposals_evolve (λ _ _ _, true) demo_authority demo_authority (λ _, []) (λ _ _, 0) (λ _ _, []) (λ _, "failed")
    (λ _, "waiting") (-1) 3 (mk_flags false false) (create [add Tag.custom_operation 7 5] None) db1 (object_result (ObjectId.pack 1 10 1))).
  vm_compute. reflexivity.
Defined.

Lemma db1_lookup i p : proposals db1 !! i = Some p → 0 = i ∧ waiting_proposal (t0 + 500) 5 = p.
Proof. unfold db1. cbn [proposals demo_db]. apply lookup_singleton_Some. Qed.

Lemma settled_1 : settled db1.
Proof. split; [by vm_compute|]. intros i p [<- <-]%db1_lookup _. by repeat constructor. Qed.



(** Two expired proposals: the one that expires first succeeds, the other fails. *)
Definition db2 : database :=
  demo_db (<[3 := set_approvals {[7]} ∅ ∅ (waiting_proposal (t0 - 9) 5)]> {[ 2 := set_approvals {[7]} ∅ ∅ (waiting_proposal (t0 - 4) (-1)) ]}) 4.

Lemma expired_proposals_settled_witness :
  ∃ l d', clear 1 2 db2 = Ok ((), d') ∧ l ≡ₚ map_to_list (expired db2) ∧ (world d').2 = 5.
Proof.
  destruct (expired_proposals_settled (λ _ _ _, true) demo_authority demo_authority (λ _, []) (λ _ _, 0) (λ _ _, []) (λ _, "failed")
    (λ _, "waiting") (-1)) with (fuel := 0%nat) (n := 2%nat) (d := db2) as (l & d' & Hrun & Hl & _).
  - intros fl x w e. cbn. unfold demo_apply. run_e. destruct (0 <=? addend x); [done|]. by intros [= <-].
  - intros i p [Hp _]%expired_lookup. unfold db2 in Hp. cbn [proposals demo_db] in Hp. apply lookup_insert_Some in Hp as [[_ <-]|[_ [_ <-]%lookup_singleton_Some]]; by repeat constructor.
  - by apply (bool_decide_unpack _); vm_compute.
  - exists l, d'. split; [exact Hrun|]. split; [exact Hl|].
    assert (match clear 1 2 db2 with Ok (_, d) => (world d).2 | Throw _ => 0 end = 5) as H5 by (vm_compute; reflexivity).
    unfold clear in H5. by rewrite Hrun in H5.
Defined.

Lemma approval_index_covers_witness :
  indexed {[ 0 := waiting_proposal (t0 + 500) 5 ]} (object_inserted 0 (waiting_proposal (t0 + 500) 5) ∅) ∧
  0 ∈ entries (object_inserted 0 (waiting_proposal (t0 + 500) 5) ∅) 7.
Proof.
  assert (indexed {[ 0 := waiting_proposal (t0 + 500) 5 ]} (object_inserted 0 (waiting_proposal (t0 + 500) 5) ∅)) as Hi.
  { apply (indexed_insert ∅ ∅); [constructor|done]. }
  split; [exact Hi|]. refine (proj1 (approval_index_covers _ _ Hi) 0 _ 7 (lookup_singleton_eq _ _) _).
  apply (bool_decide_unpack _). vm_compute. exact I.
Defined.
End ProposalsExample.
