(* ===== verification/Votes.v ===== *)
(** * Elections: the votes and the elected members of libraries/chain/db_maint.cpp

    At the maintenance interval the stake of every account is added to the votes of
    its opinions ([vote_tally_helper]), the witnesses, committee members and budget
    members with the most votes become active, and their votes become the weights of
    the authority they share ([vote_counter]).  The buffers of the tally are members
    of [database], not objects: no undo session restores them.  [find_msb] of boost,
    the index of the highest bit of a positive number, is a parameter. *)

From S2P Require Import Prelude Safe Uint128 Asset Vesting Balance Fees Authority.
From stdpp Require Import sorting.

Local Open Scope Z_scope.

(** ** protocol/vote.hpp: the type in the low 8 bits, the instance above *)

Definition VOTE_TYPE_COUNT : Z := 7.

Definition vote_id (type instance : Z) : Z := Z.lor (to_uint 64 (Z.shiftl instance 8)) type.
Definition vote_type (id : Z) : Z := Z.land id 255.
Definition vote_instance (id : Z) : Z := Z.shiftr id 8.
Definition set_vote_type (type id : Z) : Z := Z.lor (Z.land id (2 ^ 64 - 256)) (Z.land type 255).
Definition set_vote_instance (instance id : Z) : Z :=
  to_uint 64 (Z.lor (Z.land id 255) (Z.shiftl instance 8)).

(** [get_next_vote_id]: the id and [next_available_vote_id] after it. *)
Definition get_next_vote_id (next type : Z) : Z * Z := (vote_id type next, to_uint 64 (next + 1)).

(** ** vote_count.hpp *)

(** [flat_map::operator[]= ]. *)
Fixpoint flat_set_at (k w : Z) (l : list (Z * Z)) : list (Z * Z) :=
  match l with
  | [] => [(k, w)]
  | (j, v) :: l => if k <? j then (k, w) :: (j, v) :: l
                   else if k =? j then (k, w) :: l
                   else (j, v) :: flat_set_at k w l
  end.

Definition add_account (who w : Z) (a : authority) : authority :=
  mk_authority (weight_threshold a) (flat_set_at who w (account_auths a)) (key_auths a) (address_auths a).

Record vote_counter := mk_vc { last_votes : Z; total_votes : Z; bitshift : Z; auth : authority }.

Definition new_vote_counter : vote_counter := mk_vc (2 ^ 64 - 1) 0 (-1) (mk_authority 0 [] [] []).

Section Votes.
Variable find_msb : Z → Z.

(** [vote_counter::add]; [scaled_votes] becomes a 16-bit weight. *)
Definition vc_add (vc : vote_counter) (who votes : Z) : vote_counter :=
  if votes =? 0 then vc
  else
    let shift := if bitshift vc =? -1 then Z.max (find_msb votes - 15) 0 else bitshift vc in
    let scaled := Z.max (Z.shiftr votes shift) 1 in
    mk_vc votes (to_uint 64 (total_votes vc + scaled)) shift
          (add_account who (to_uint 16 scaled) (auth vc)).

Definition is_empty (vc : vote_counter) : bool := total_votes vc =? 0.

(** [vote_counter::finish]. *)
Definition vc_finish (vc : vote_counter) (out_auth : authority) : authority :=
  if is_empty vc then out_auth
  else
    let weight := to_uint 32 (Z.shiftr (to_uint 32 (total_votes vc)) 1 + 1) in
    mk_authority weight (account_auths (auth vc)) (key_auths (auth vc)) (address_auths (auth vc)).

(** The authority that the accounts get, from their votes, after hard fork 201230... *)
Definition counted_authority (votes : list (Z * Z)) (old : authority) : authority :=
  vc_finish (foldl (λ vc p, vc_add vc p.1 p.2) new_vote_counter votes) old.

(** ... and before: [map::emplace] keeps the first entry of an account. *)
Definition emplace (m : gmap Z Z) (p : Z * Z) : gmap Z Z :=
  match m !! p.1 with Some _ => m | None => <[p.1 := p.2]> m end.

Definition flat_get (k : Z) (l : list (Z * Z)) : Z :=
  match list_find (λ p, p.1 = k) l with Some (_, p) => p.2 | None => 0 end.

Definition legacy_weigh (drop : Z) (a : authority) (weight : Z * Z) : authority :=
  let votes := to_uint 16 (Z.max (Z.shiftr weight.2 drop) 1) in
  mk_authority (to_uint 32 (weight_threshold a + votes))
    (flat_set_at weight.1 (to_uint 16 (flat_get weight.1 (account_auths a) + votes)) (account_auths a))
    (key_auths a) (address_auths a).

Definition legacy_authority (votes : list (Z * Z)) (old : authority) : authority :=
  let weights := foldl emplace ∅ votes in
  let total := foldl (λ t p, to_uint 64 (t + p.2)) 0 votes in
  let drop := Z.max (find_msb total - 15) 0 in
  let a := foldl (legacy_weigh drop) (mk_authority 0 [] [] (address_auths old))
                 ((λ k, (k, default 0 (weights !! k))) <$> ordered (dom weights)) in
  mk_authority (to_uint 32 (Z.quot (weight_threshold a) 2 + 1)) (account_auths a) (key_auths a) (address_auths a).

Definition HARDFORK_201230_TIME : Z := 1609257600.

Definition elected_authority (time : Z) (votes : list (Z * Z)) (old : authority) : authority :=
  if time <? HARDFORK_201230_TIME then legacy_authority votes old else counted_authority votes old.
End Votes.

(** ** [sort_votable_objects] *)

Definition identity_disable : Z := 0.
Definition identity_enable : Z := 1.
Definition identity_enable_lost : Z := 2.

(** [witness_object], [committee_member_object] and [budget_member_object] share
    these fields; [recent_missed] is of witnesses only. *)
Record votable := mk_votable {
  member_id : Z;
  member_account : Z;
  member_vote_id : Z;
  total_votes_of : Z;
  recent_missed_of : Z;
  enable : Z
}.

Definition is_enable (o : votable) : bool := enable o =? identity_enable.

(** [_vote_tally_buffer[ o.vote_id ]]: the index is the instance; it lies in the
    buffer, that has an entry for every identifier ever made. *)
Definition votes_of (tally : list Z) (o : votable) : Z :=
  default 0 (tally !! Z.to_nat (vote_instance (member_vote_id o))).

(** The votes that count for the ranking, a [share_type]. *)
Definition ranked_votes (tally : list Z) (o : votable) : Z :=
  if is_enable o then to_sint 64 (votes_of tally o) else 0.

Definition outranks (tally : list Z) (a b : votable) : bool :=
  if ranked_votes tally a =? ranked_votes tally b then
    vote_instance (member_vote_id a) <? vote_instance (member_vote_id b)
  else ranked_votes tally b <? ranked_votes tally a.

(** [std::partial_sort] with this comparison, a strict total order on the objects:
    the first [count] of the sorted objects. *)
Definition not_after (tally : list Z) (a b : votable) : Prop := outranks tally b a = false.
#[export] Instance not_after_dec tally a b : Decision (not_after tally a b).
Proof. unfold not_after. apply _. Defined.

Definition sort_votable_objects (tally : list Z) (count : nat) (objects : list votable) : list votable :=
  take (count `min` length objects) (merge_sort (not_after tally) objects).

(** ** How many members: the loop over the histogram

    [add] is the addition of the tally: checked for [share_type] (witnesses), modulo
    2^64 for [uint64_t].  [rest] is what follows entry [count] of the histogram. *)
Fixpoint count_loop (add : Z → Z → result Z) (stake_target stake_tally : Z) (rest : list Z) (count : nat)
    : result nat :=
  match rest with
  | [] => Ok count
  | h :: rest =>
      if to_sint 64 stake_tally <=? stake_target then
        stake_tally ← add stake_tally h;
        count_loop add stake_target stake_tally rest (S count)
      else Ok count
  end.

Definition add_share (t h : Z) : result Z := safe_add t (to_sint 64 h).
Definition add_uint64 (t h : Z) : result Z := Ok (to_uint 64 (t + h)).

Definition voted_count (add : Z → Z → result Z) (total_voting_stake : Z) (histogram : list Z) : result nat :=
  match histogram with
  | [] => Throw other_exception
  | h :: rest =>
      let stake_target := to_uint 64 (total_voting_stake - h) / 2 in
      if 0 <? stake_target then count_loop add stake_target 0 rest 0 else Ok 0%nat
  end.

(** ** The tally: [vote_tally_helper] *)

Record buffers := mk_buffers {
  vote_tally : list Z;
  vote_worker : list Z;
  witness_count : list Z;
  committee_count : list Z;
  budget_count : list Z;
  total_voting_stake : Z
}.

Definition no_buffers : buffers := mk_buffers [] [] [] [] [] 0.

(** The options and statistics of an account that its votes depend on. *)
Record voter := mk_voter {
  voter_id : Z;
  membership_expiration_date : Z;
  voting_account : Z;
  opinions : list Z;
  num_witness : Z;
  num_committee : Z;
  num_budget : Z;
  voter_cashback_vb : option Z;
  locktoken_vb : option Z;
  total_core_in_orders : Z;
  lock_asset : Z;
  lock_token : Z
}.

Record budget_account := mk_budget_account { budget_member_enable : Z; budget_votes : list Z }.

Record vote_parameters := mk_vote_parameters {
  next_available_vote_id : Z;
  count_non_member_votes : bool;
  maximum_witness_count : Z;
  maximum_committee_count : Z;
  maximum_budget_count : Z
}.

Definition GRAPHENE_PROXY_TO_SELF_ACCOUNT : Z := 5.

(** [vector::resize]: existing entries are kept. *)
Definition resize (n : nat) (l : list Z) : list Z := take n l ++ replicate (n - length l) 0.

(** [v[ i ] += s] on [uint64_t] entries. *)
Definition bump (s : Z) (l : list Z) (i : nat) : list Z := alter (λ v, to_uint 64 (v + s)) i l.

(** An opinion; an illegal offset is ignored. *)
Definition bump_votes (s : Z) (l : list Z) (ids : list Z) : list Z :=
  foldl (λ l id, if vote_instance id <? Z.of_nat (length l) then bump s l (Z.to_nat (vote_instance id)) else l) l ids.

Definition bump_count (s num maximum : Z) (l : list Z) : list Z :=
  if num <=? maximum then
    bump s l (Z.to_nat (to_uint 16 (Z.min (num / 2) (to_uint 64 (Z.of_nat (length l) - 1)))))
  else l.

Definition start_tally (p : vote_parameters) (b : buffers) : buffers :=
  mk_buffers (resize (Z.to_nat (next_available_vote_id p)) (vote_tally b))
             (resize (Z.to_nat (next_available_vote_id p)) (vote_worker b))
             (resize (Z.to_nat (maximum_witness_count p / 2 + 1)) (witness_count b))
             (resize (Z.to_nat (maximum_committee_count p / 2 + 1)) (committee_count b))
             (resize (Z.to_nat (maximum_budget_count p / 2 + 1)) (budget_count b)) 0.

(** [is_member]. *)
Definition is_member (v : voter) (time : Z) : bool := negb (membership_expiration_date v <? time).

(** The balance of [( *vb )( d )], if the account has one. *)
Definition vesting_amount (ovb : option Z) (l : ledger) : result Z :=
  match ovb with
  | None => Ok 0
  | Some i => match vestings l !! i with
              | Some v => Ok (amount (vb_balance v))
              | None => Throw other_exception
              end
  end.

(** [voting_stake]: the sum of 64-bit integers as a [uint64_t]. *)
Definition voting_stake (v : voter) (l : ledger) : result Z :=
  cashback ← vesting_amount (voter_cashback_vb v) l;
  locktoken ← vesting_amount (locktoken_vb v) l;
  mret (to_uint 64 (total_core_in_orders v + cashback + locktoken
                    + amount (get_balance (voter_id v) GRAPHENE_CORE_ASSET l) + lock_asset v + lock_token v)).

(** The account whose opinions the stake of [v] votes for. *)
Definition opinion_account (get_voter : Z → option voter) (v : voter) : result voter :=
  if voting_account v =? GRAPHENE_PROXY_TO_SELF_ACCOUNT then Ok v
  else match get_voter (voting_account v) with
       | Some o => Ok o
       | None => Throw other_exception
       end.

(** [operator()( stake_account )]; the exceptions come before the writes. *)
Definition tally_voter (p : vote_parameters) (get_voter : Z → option voter) (v : voter) (l : ledger)
    (b : buffers) : result buffers :=
  if count_non_member_votes p || is_member v (head_block_time l) then
    opinion ← opinion_account get_voter v;
    s ← voting_stake v l;
    mret (mk_buffers (bump_votes s (vote_tally b) (opinions opinion)) (vote_worker b)
            (bump_count s (num_witness opinion) (maximum_witness_count p) (witness_count b))
            (bump_count s (num_committee opinion) (maximum_committee_count p) (committee_count b))
            (bump_count s (num_budget opinion) (maximum_budget_count p) (budget_count b))
            (to_uint 64 (total_voting_stake b + s)))
  else Ok b.

(** [budget( budget_account )]: one vote for each active member. *)
Definition tally_budget (a : budget_account) (b : buffers) : buffers :=
  if budget_member_enable a =? identity_enable then
    mk_buffers (vote_tally b) (bump_votes 1 (vote_worker b) (budget_votes a)) (witness_count b)
      (committee_count b) (budget_count b) (total_voting_stake b)
  else b.

(** ** [perform_account_maintenance( tally_helper, fee_helper )]

    For each account in the order of the names the tally and then the fees, that may
    change the balances of the accounts that come after.  An exception leaves the
    buffers as they are; the undo session of the block restores the ledger. *)
Section AccountMaintenance.
Context `{Division128}.
Variables (p : vote_parameters) (get_voter : Z → option voter) (month_flag : Z → Z).

Definition maintain_account (v : voter) : E (ledger * buffers) () := λ '(l, b),
  match tally_voter p get_voter v l b with
  | Throw e => ((l, b), Throw e)
  | Ok b' =>
      match (a ← get accounts (voter_id v); process_fees month_flag (voter_id v) a) l with
      | Throw e => ((l, b'), Throw e)
      | Ok (_, l') => ((l', b'), Ok ())
      end
  end.

Definition budget_vote (ob : option budget_account) : E (ledger * buffers) () := λ '(l, b),
  match ob with
  | Some a => ((l, tally_budget a b), Ok ())
  | None => ((l, b), Throw other_exception)
  end.

(** [active_budget_members] with the objects found for their identifiers. *)
Definition perform_account_maintenance (by_name : list voter) (active_budget_members : list (option budget_account))
    : E (ledger * buffers) () :=
  modify_e (λ '(l, b), (l, start_tally p b)) ;;
  mapE_ maintain_account by_name ;;
  mapE_ budget_vote active_budget_members.
End AccountMaintenance.

(** ** [update_active_witnesses], [update_active_committee_members] and
    [update_active_budget_members] *)

Record election := mk_election {
  witness_members : list votable;
  committee_members : list votable;
  budget_members : list votable;
  active_witnesses : list Z;
  active_committee_members : list Z;
  active_budget_members : list Z;
  active_authority : gmap Z authority
}.

Definition GRAPHENE_WITNESS_ACCOUNT : Z := 1.
Definition GRAPHENE_RELAXED_COMMITTEE_ACCOUNT : Z := 2.
Definition GRAPHENE_BUDGET_ACCOUNT : Z := 7.

(** [modify( get( account ), ... )] on the active authority. *)
Definition modify_authority (account : Z) (f : authority → authority) (m : gmap Z authority)
    : result (gmap Z authority) :=
  match m !! account with
  | Some a => Ok (<[account := f a]> m)
  | None => Throw other_exception
  end.

Definition member_votes (tally : list Z) (l : list votable) : list (Z * Z) :=
  (λ o, (member_account o, votes_of tally o)) <$> l.

(** [database_check_witness]: a witness that missed more than half of the blocks loses
    its rank; the first twelve never do. *)
Definition check_witness (lost_num : Z) (o : votable) : votable :=
  if negb (enable o =? identity_enable) || (member_id o <=? 11) then o
  else mk_votable (member_id o) (member_account o) (member_vote_id o) (total_votes_of o) 0
         (if Z.quot lost_num 2 <? recent_missed_of o then identity_enable_lost else enable o).

Definition set_total_votes (tally : list Z) (o : votable) : votable :=
  mk_votable (member_id o) (member_account o) (member_vote_id o) (votes_of tally o) (recent_missed_of o) (enable o).

Definition reset_missed (o : votable) : votable :=
  mk_votable (member_id o) (member_account o) (member_vote_id o) (total_votes_of o) 0 (enable o).

(** [std::max( count*2 + 1, min_count )]. *)
Definition seats (count min_count : nat) : nat := (count * 2 + 1) `max` min_count.

Section Elections.
Variables (find_msb : Z → Z) (time : Z) (b : buffers).

Definition update_active_witnesses (lost_num : Z) (min_witness_count : nat) (s : election) : result election :=
  count ← voted_count add_share (total_voting_stake b) (witness_count b);
  let all := check_witness lost_num <$> witness_members s in
  let wits := sort_votable_objects (vote_tally b) (seats count min_witness_count) all in
  auths ← modify_authority GRAPHENE_WITNESS_ACCOUNT
            (elected_authority find_msb time (member_votes (vote_tally b) wits)) (active_authority s);
  mret (mk_election (reset_missed ∘ set_total_votes (vote_tally b) <$> all) (committee_members s) (budget_members s)
          (ordered (list_to_set (member_id <$> wits))) (active_committee_members s) (active_budget_members s) auths).

Definition update_active_committee_members (min_count : nat) (s : election) : result election :=
  count ← voted_count add_uint64 (total_voting_stake b) (committee_count b);
  let members := sort_votable_objects (vote_tally b) (seats count min_count) (committee_members s) in
  auths ← (if bool_decide (members = []) then Ok (active_authority s)
           else
             m ← modify_authority GRAPHENE_COMMITTEE_ACCOUNT
                   (elected_authority find_msb time (member_votes (vote_tally b) members)) (active_authority s);
             modify_authority GRAPHENE_RELAXED_COMMITTEE_ACCOUNT
               (λ old, default old (m !! GRAPHENE_COMMITTEE_ACCOUNT)) m);
  mret (mk_election (witness_members s) (set_total_votes (vote_tally b) <$> committee_members s) (budget_members s)
          (active_witnesses s) (member_id <$> members) (active_budget_members s) auths).

Definition update_active_budget_members (min_count : nat) (s : election) : result election :=
  count ← voted_count add_uint64 (total_voting_stake b) (budget_count b);
  let members := sort_votable_objects (vote_tally b) (seats count min_count) (budget_members s) in
  auths ← (if bool_decide (members = []) then Ok (active_authority s)
           else modify_authority GRAPHENE_BUDGET_ACCOUNT
                  (elected_authority find_msb time (member_votes (vote_tally b) members)) (active_authority s));
  mret (mk_election (witness_members s) (committee_members s) (set_total_votes (vote_tally b) <$> budget_members s)
          (active_witnesses s) (active_committee_members s) (member_id <$> members) auths).

(** The calls of [perform_chain_maintenance], in order. *)
Definition elections (lost_num : Z) (min_witness min_committee min_budget : nat) (s : election) : result election :=
  s ← update_active_witnesses lost_num min_witness s;
  s ← update_active_committee_members min_committee s;
  update_active_budget_members min_budget s.
End Elections.

(** * The authority of the elected *)

(** The reference weight of [v] votes, when the first candidate has [top] of them: the
    16 bits from the highest bit of [top] on, at least one. *)
Definition scaled (shift v : Z) : Z := Z.max (Z.shiftr v shift) 1.
Definition top_shift (top : Z) : Z := Z.max (Z.log2 top - 15) 0.
Definition vote_weight (top v : Z) : Z := Z.max (v / 2 ^ top_shift top) 1.
Definition weighed (top : Z) (votes : list (Z * Z)) : list (Z * Z) := prod_map id (vote_weight top) <$> votes.

(** The candidates somebody voted for. *)
Definition voted (votes : list (Z * Z)) : list (Z * Z) := filter (λ p, 0 < p.2) votes.

Definition highest_bit (find_msb : Z → Z) : Prop := ∀ v, 0 < v → find_msb v = Z.log2 v.

Lemma flat_set_at_fresh k w l : k ∉ l.*1 → flat_set_at k w l ≡ₚ (k, w) :: l.
Proof.
  induction l as [|[j v] l IH]; cbn; [done|]. intros [Hkj Hk]%not_elem_of_cons.
  destruct (k <? j); [done|]. destruct (Z.eqb_spec k j); [done|].
  rewrite IH by done. apply Permutation_swap.
Qed.

Lemma vote_weight_scaled top v : vote_weight top v = scaled (top_shift top) v.
Proof. unfold vote_weight, scaled, top_shift. by rewrite Z.shiftr_div_pow2 by lia. Qed.

Lemma vote_weight_bounds top v : 0 < v ≤ top → 1 ≤ vote_weight top v ≤ 65535.
Proof.
  intros Hv. unfold vote_weight, top_shift.
  assert (v / 2 ^ Z.max (Z.log2 top - 15) 0 < 2 ^ 16); [|lia].
  apply Z.div_lt_upper_bound; [apply Z.pow_pos_nonneg; lia|].
  rewrite <- Z.pow_add_r by lia. pose proof (Z.log2_spec top ltac:(lia)) as [_ Hlog].
  eapply Z.le_lt_trans; [apply Hv|]. eapply Z.lt_le_trans; [exact Hlog|].
  apply Z.pow_le_mono_r; lia.
Qed.

Lemma vote_weight_mono top v v' : v ≤ v' → vote_weight top v ≤ vote_weight top v'.
Proof.
  intros Hv. unfold vote_weight, top_shift. apply Z.max_le_compat_r, Z.div_le_mono; [|done].
  apply Z.pow_pos_nonneg; lia.
Qed.

Section Counting.
Context (find_msb : Z → Z).

Lemma count_nonzero votes vc :
  Forall (λ p, 0 ≤ p.2) votes →
  foldl (λ vc p, vc_add find_msb vc p.1 p.2) vc votes
  = foldl (λ vc p, vc_add find_msb vc p.1 p.2) vc (voted votes).
Proof.
  intros Hv. revert vc. induction Hv as [|[a v] votes Hv _ IH]; intros vc; [done|].
  unfold voted. rewrite filter_cons. cbn [foldl fst snd]. cbn in Hv. case_decide; cbn in *; [apply IH|].
  rewrite IH. unfold vc_add at 2. by replace v with 0 by lia.
Qed.

(** The counter after some votes: the accounts have their weights. *)
Record counted (shift : Z) (done : list (Z * Z)) (vc : vote_counter) : Prop := mk_counted {
  counted_shift : bitshift vc = shift;
  counted_total : total_votes vc = zsum (scaled shift <$> done.*2);
  counted_accounts : account_auths (auth vc) ≡ₚ prod_map id (scaled shift) <$> done;
  counted_keys : key_auths (auth vc) = [] ∧ address_auths (auth vc) = []
}.

(** The votes that still fit: distinct accounts, weights of 16 bits, a total of 32 bits. *)
Definition fitting (shift : Z) (votes : list (Z * Z)) : Prop :=
  NoDup votes.*1 ∧ Forall (λ p, 0 < p.2 ∧ scaled shift p.2 ≤ 65535) votes ∧ Z.of_nat (length votes) < 2 ^ 16.

Lemma fitting_total shift votes : fitting shift votes → 0 ≤ zsum (scaled shift <$> votes.*2) < 2 ^ 32.
Proof.
  intros (_ & Hw & Hlen).
  assert (Forall (λ x, 0 ≤ x ≤ 65535) (scaled shift <$> votes.*2)) as Hb.
  { rewrite !Forall_fmap. eapply Forall_impl; [exact Hw|]. intros [a v] [_ Hs]. cbn in *.
    unfold scaled in *. lia. }
  apply zsum_bounds in Hb. rewrite !length_fmap in Hb. lia.
Qed.

Lemma vc_add_counted shift prior vc who votes :
  shift ≠ -1 → (bitshift vc = shift ∨ bitshift vc = -1 ∧ Z.max (find_msb votes - 15) 0 = shift ∧ prior = []) →
  total_votes vc = zsum (scaled shift <$> prior.*2) →
  account_auths (auth vc) ≡ₚ prod_map id (scaled shift) <$> prior →
  key_auths (auth vc) = [] ∧ address_auths (auth vc) = [] →
  fitting shift (prior ++ [(who, votes)]) →
  counted shift (prior ++ [(who, votes)]) (vc_add find_msb vc who votes).
Proof.
  intros Hs Hshift Htot Hacc Hkeys Hfit.
  pose proof (fitting_total _ _ Hfit) as Ht. destruct Hfit as (Hnd & Hw & _).
  apply Forall_app in Hw as [_ [[Hpos Hsc] _]%Forall_cons]. cbn in Hpos, Hsc.
  rewrite fmap_app in Hnd. apply NoDup_app in Hnd as (_ & Hfresh & _).
  rewrite !fmap_app, zsum_app in Ht. cbn in Ht.
  unfold vc_add. rewrite (proj2 (Z.eqb_neq votes 0)) by lia.
  assert ((if bitshift vc =? -1 then Z.max (find_msb votes - 15) 0 else bitshift vc) = shift) as ->.
  { destruct Hshift as [->|(-> & ? & _)]; [|done]. by rewrite (proj2 (Z.eqb_neq shift (-1))). }
  fold (scaled shift votes). split; cbn; [done| | |exact Hkeys].
  - rewrite Htot, !fmap_app, zsum_app. cbn. rewrite to_uint_id; [lia|]. unfold uint. lia.
  - rewrite to_uint_id by (unfold uint, scaled in *; lia).
    rewrite flat_set_at_fresh, Hacc, fmap_app; [by rewrite Permutation_app_comm|].
    rewrite Hacc. intros Hin. apply list_elem_of_fmap in Hin as ([a w] & Heq & Hin).
    apply list_elem_of_fmap in Hin as ([a' w'] & [= -> ->] & Hin). cbn in Heq. subst.
    apply (Hfresh a'); [|by left]. apply list_elem_of_fmap. by exists (a', w').
Qed.

Lemma count_all shift votes prior vc :
  shift ≠ -1 → counted shift prior vc → fitting shift (prior ++ votes) →
  counted shift (prior ++ votes) (foldl (λ vc p, vc_add find_msb vc p.1 p.2) vc votes).
Proof.
  intros Hs. revert prior vc. induction votes as [|[a v] votes IH]; intros prior vc Hc Hfit.
  { by rewrite app_nil_r. }
  replace (prior ++ (a, v) :: votes) with ((prior ++ [(a, v)]) ++ votes) in * by (by rewrite <- app_assoc).
  cbn. apply IH; [|done]. destruct Hc. apply vc_add_counted; auto.
  destruct Hfit as (Hnd & Hw & Hlen). rewrite length_app in Hlen. apply Forall_app in Hw as [Hw _].
  rewrite fmap_app in Hnd. apply NoDup_app in Hnd as [Hnd _]. split_and!; [done..|lia].
Qed.
End Counting.

(** The elected authority as the votes define it. *)
Record majority_authority (votes : list (Z * Z)) (a : authority) : Prop := mk_majority {
  majority_accounts : ∀ top, head (voted votes) = Some top →
    account_auths a ≡ₚ weighed top.2 (voted votes);
  majority_only : key_auths a = [] ∧ address_auths a = [];
  majority_weights : Forall (λ p, 1 ≤ p.2 ≤ 65535) (account_auths a);
  majority_possible : is_impossible a = false;
  majority_threshold : weight_threshold a = all_weight (account_auths a) / 2 + 1;
  majority_sum : all_weight (account_auths a) < 2 ^ 32
}.

Definition descending (votes : list (Z * Z)) : Prop := StronglySorted (λ p q, q.2 ≤ p.2) votes.

(** The candidates that the counter can take: distinct accounts, votes that are 64-bit
    and come in descending order (what [vote_counter] asserts). *)
Definition countable (votes : list (Z * Z)) : Prop :=
  NoDup votes.*1 ∧ descending votes ∧ Forall (λ p, 0 ≤ p.2) votes ∧ Z.of_nat (length votes) < 2 ^ 16.

Lemma all_weight_zsum l : all_weight l = zsum l.*2.
Proof. unfold all_weight, weight_of, zsum. induction l as [|p l IH]; cbn; [done|]. by rewrite IH. Qed.

Lemma wide_sum l n :
  Forall (λ p : Z * Z, 0 ≤ p.2) l → 0 ≤ n → n + zsum l.*2 < 2 ^ 64 →
  foldl (λ n p, to_uint 64 (n + p.2)) n l = n + zsum l.*2.
Proof.
  intros Hl. revert n. induction Hl as [|p l Hp Hl IH]; intros n Hn Hs; cbn in *; [lia|].
  fold (zsum l.*2) in *. pose proof (zsum_nonneg l.*2) as Hz. rewrite Forall_fmap in Hz.
  specialize (Hz Hl). rewrite to_uint_id by (unfold uint; lia). rewrite IH by lia. lia.
Qed.

Lemma descending_voted votes : descending votes → descending (voted votes).
Proof.
  induction 1 as [|p l _ IH Hp]; [constructor|]. unfold voted. rewrite filter_cons. case_decide; [|done].
  constructor; [done|]. apply Forall_forall. intros q [_ Hq]%list_elem_of_filter.
  rewrite Forall_forall in Hp. by apply Hp.
Qed.

Lemma voted_fitting top votes :
  countable votes → head (voted votes) = Some top → fitting (top_shift top.2) (voted votes).
Proof.
  intros (Hnd & Hdesc & _ & Hlen) Htop. split_and!.
  - eapply sublist_NoDup; [exact Hnd|]. apply fmap_sublist, sublist_filter.
  - pose proof (descending_voted _ Hdesc) as Hs.
    apply Forall_forall. intros p Hp. pose proof Hp as [Hpos _]%list_elem_of_filter.
    split; [done|]. rewrite <- vote_weight_scaled. apply vote_weight_bounds. split; [done|].
    destruct (voted votes) as [|q l]; [done|]. injection Htop as ->.
    apply StronglySorted_inv in Hs as [_ Hall]. apply elem_of_cons in Hp as [->|Hp]; [lia|].
    rewrite Forall_forall in Hall. by apply Hall.
  - eapply Z.le_lt_trans; [|exact Hlen]. apply inj_le, length_filter.
Qed.

Lemma counted_majority top votes vc old :
  countable votes → head (voted votes) = Some top → counted (top_shift top.2) (voted votes) vc →
  majority_authority votes (vc_finish vc old).
Proof.
  intros Hc Htop [_ Htot Hacc [Hk Ha]]. pose proof (voted_fitting _ _ Hc Htop) as Hfit.
  pose proof (fitting_total _ _ Hfit) as Hsum. destruct Hfit as (_ & Hw & _).
  assert (zsum (account_auths (auth vc)).*2 = total_votes vc) as Hz.
  { rewrite Htot, Hacc, <- !list_fmap_compose. done. }
  assert (0 < total_votes vc) as Hpos.
  { rewrite Htot. destruct (voted votes) as [|q l]; [done|]. cbn.
    assert (1 ≤ scaled (top_shift top.2) q.2) by (unfold scaled; lia).
    pose proof (zsum_nonneg (scaled (top_shift top.2) <$> l.*2)) as Hn. rewrite !Forall_fmap in Hn.
    assert (0 ≤ zsum (scaled (top_shift top.2) <$> l.*2)); [|unfold zsum in *; lia].
    apply Hn, Forall_true. intros. cbn. unfold scaled. lia. }
  assert (Forall (λ p, 1 ≤ p.2 ≤ 65535) (account_auths (auth vc))) as Hb.
  { rewrite Hacc, Forall_fmap. eapply Forall_impl; [exact Hw|]. intros [a v] [_ Hs]. cbn in *.
    unfold scaled in *. lia. }
  pose proof (Z.div_mod (total_votes vc) 2 ltac:(done)). pose proof (Z.mod_pos_bound (total_votes vc) 2 eq_refl).
  assert (weight_threshold (vc_finish vc old) = total_votes vc / 2 + 1
          ∧ account_auths (vc_finish vc old) = account_auths (auth vc)
          ∧ key_auths (vc_finish vc old) = [] ∧ address_auths (vc_finish vc old) = []) as (Ht & HA & HK & HD).
  { unfold vc_finish, is_empty. rewrite (proj2 (Z.eqb_neq _ 0)) by lia. cbn.
    rewrite (to_uint_id 32 (total_votes vc)) by (unfold uint; lia).
    rewrite Z.shiftr_div_pow2 by lia. change (2 ^ 1) with 2.
    rewrite to_uint_id by (unfold uint; lia). done. }
  split; rewrite ?HA, ?HK, ?HD, ?Ht, ?all_weight_zsum, ?Hz; try done; [| |lia].
  - intros top' Htop'. rewrite Htop in Htop'. injection Htop' as <-. rewrite Hacc. unfold weighed.
    apply reflexive_eq, list_fmap_ext. intros _ [a v] _. cbn. by rewrite vote_weight_scaled.
  - unfold is_impossible. rewrite HA, HK, HD, Ht. cbn. apply Z.ltb_ge.
    rewrite wide_sum; rewrite ?Hz; [lia| |lia|lia].
    eapply Forall_impl; [exact Hb|]. cbn. lia.
Qed.

(** The weights are the votes scaled alike to 16 bits, the threshold is the least majority
    of them; without any vote the authority stays as it is. *)
Lemma counted_authority_majority find_msb votes old :
  highest_bit find_msb → countable votes →
  (voted votes = [] → counted_authority find_msb votes old = old) ∧
  (voted votes ≠ [] → majority_authority votes (counted_authority find_msb votes old)).
Proof.
  intros Hmsb Hc. unfold counted_authority.
  rewrite count_nonzero by apply Hc. split; [by intros ->|]. intros Hne.
  destruct (voted votes) as [|top l] eqn:Hv; [done|].
  assert (head (voted votes) = Some top) as Htop by (by rewrite Hv).
  pose proof (voted_fitting _ _ Hc Htop) as Hfit.
  apply counted_majority with top; [done..|]. rewrite Hv in *. cbn [foldl].
  assert (0 < top.2) as Hpos by (destruct Hfit as (_ & [[? _] _]%Forall_cons & _); done).
  change (top :: l) with ([top] ++ l). apply count_all; [unfold top_shift; lia| |done].
  destruct top as [a v]. cbn [fst snd]. apply (vc_add_counted _ _ [] new_vote_counter a v); try done.
  - unfold top_shift; lia.
  - right. cbn in Hpos. by rewrite (Hmsb v Hpos).
  - destruct Hfit as (Hnd & Hw & Hlen). apply Forall_cons in Hw as [Hw _]. split_and!; [|by constructor|done].
    cbn. apply NoDup_singleton.
Qed.

(** * The ranking of the candidates *)

Lemma not_after_spec tally a b :
  not_after tally a b ↔
    ranked_votes tally b < ranked_votes tally a ∨
    ranked_votes tally a = ranked_votes tally b ∧
    vote_instance (member_vote_id a) ≤ vote_instance (member_vote_id b).
Proof.
  unfold not_after, outranks.
  destruct (Z.eqb_spec (ranked_votes tally b) (ranked_votes tally a)); rewrite Z.ltb_ge; lia.
Qed.

#[export] Instance not_after_total tally : Total (not_after tally).
Proof. intros a b. rewrite !not_after_spec. lia. Qed.
#[export] Instance not_after_transitive tally : Transitive (not_after tally).
Proof. intros a b c. rewrite !not_after_spec. lia. Qed.

Lemma not_after_outranks tally a b :
  not_after tally a b → vote_instance (member_vote_id a) ≠ vote_instance (member_vote_id b) →
  outranks tally a b = true.
Proof.
  rewrite not_after_spec. unfold outranks. intros Hn Hne.
  destruct (Z.eqb_spec (ranked_votes tally a) (ranked_votes tally b)); apply Z.ltb_lt; lia.
Qed.

(** The candidates' identifiers: every member ever made got the next one. *)
Definition distinct_ids (l : list votable) : Prop := NoDup ((λ o, vote_instance (member_vote_id o)) <$> l).

(** [elected] are the [n] best of the candidates, the best first: each of them outranks
    every candidate that is left out. *)
Definition top_ranked (tally : list Z) (n : nat) (candidates elected : list votable) : Prop :=
  ∃ rest, elected ++ rest ≡ₚ candidates ∧ length elected = (n `min` length candidates)%nat ∧
    StronglySorted (not_after tally) elected ∧
    ∀ e r, e ∈ elected → r ∈ rest → outranks tally e r = true.

Lemma sort_votable_top_ranked tally n l : distinct_ids l → top_ranked tally n l (sort_votable_objects tally n l).
Proof.
  intros Hids. unfold sort_votable_objects. set (sorted := merge_sort (not_after tally) l).
  set (m := (n `min` length l)%nat).
  assert (sorted ≡ₚ l) as Hp by apply merge_sort_Permutation.
  assert (StronglySorted (not_after tally) (take m sorted ++ drop m sorted)) as Hs.
  { rewrite take_drop. apply StronglySorted_merge_sort; apply _. }
  exists (drop m sorted). split_and!.
  - by rewrite take_drop.
  - rewrite length_take, Hp. lia.
  - by apply StronglySorted_app_1_l in Hs.
  - intros e r He Hr. apply not_after_outranks; [by eapply StronglySorted_app_1_elem_of|].
    unfold distinct_ids in Hids. rewrite <- Hp, <- (take_drop m sorted), fmap_app in Hids.
    apply NoDup_app in Hids as (_ & Hd & _). intros Heq. eapply Hd.
    + apply list_elem_of_fmap. by exists e.
    + apply list_elem_of_fmap. by exists r.
Qed.

(** * The number of members *)

(** [k] is the least number such that the entries 1 to [k] of the histogram hold more than
    half of the stake that is not in entry 0, or the last entry; entry [i] is the stake
    that votes for [2 i] or [2 i + 1] members. *)
Definition count_by_stake (total : Z) (histogram : list Z) (k : nat) : Prop :=
  ∃ abstained rest, histogram = abstained :: rest ∧
    let stake_target := (total - abstained) / 2 in
    (stake_target = 0 ∧ k = 0%nat ∨
     0 < stake_target ∧ (k ≤ length rest)%nat ∧
     (∀ j, (j < k)%nat → zsum (take j rest) ≤ stake_target) ∧
     (k = length rest ∨ stake_target < zsum (take k rest))).

(** A histogram that the tally can have: no more stake than there is. *)
Definition histogram_ok (total : Z) (histogram : list Z) : Prop :=
  histogram ≠ [] ∧ Forall (λ h, 0 ≤ h) histogram ∧ zsum histogram ≤ total ∧ total < 2 ^ 63.

(** The two additions agree where the sum is a [share_type]. *)
Definition exact_addition (add : Z → Z → result Z) : Prop :=
  ∀ t h, 0 ≤ t → 0 ≤ h → t + h < 2 ^ 63 → add t h = Ok (t + h).

Lemma add_share_exact : exact_addition add_share.
Proof.
  intros t h Ht Hh Hs. unfold add_share, safe_add. rewrite (to_sint_64_id h) by int_lia.
  rewrite (proj2 (Z.ltb_ge (int64_max - h) t)), (proj2 (Z.ltb_ge h 0)) by int_lia.
  rewrite andb_false_r, andb_false_l. by rewrite to_sint_64_id by int_lia.
Qed.
Lemma add_uint64_exact : exact_addition add_uint64.
Proof. intros t h Ht Hh Hs. unfold add_uint64. by rewrite to_uint_id by (unfold uint; lia). Qed.

Lemma count_loop_spec add target tally rest c :
  exact_addition add → 0 ≤ tally → Forall (λ h, 0 ≤ h) rest → tally + zsum rest < 2 ^ 63 →
  ∃ k, count_loop add target tally rest c = Ok (c + k)%nat ∧ (k ≤ length rest)%nat ∧
    (∀ j, (j < k)%nat → tally + zsum (take j rest) ≤ target) ∧
    (k = length rest ∨ target < tally + zsum (take k rest)).
Proof.
  intros Hadd Ht Hr. revert tally c Ht. induction Hr as [|h rest Hh Hr IH]; intros tally c Ht Hsum; cbn.
  { exists 0%nat. rewrite Nat.add_0_r. split_and!; [done|lia|lia|by left]. }
  cbn in Hsum. fold (zsum rest) in Hsum. pose proof (zsum_nonneg _ Hr).
  rewrite to_sint_64_id by int_lia. destruct (Z.leb_spec tally target).
  - rewrite Hadd by lia. cbn. destruct (IH (tally + h) (S c) ltac:(lia) ltac:(lia)) as (k & -> & Hk & Hj & Hend).
    exists (S k). split_and!; [f_equal; lia|lia| |].
    + intros [|j] Hlt; cbn; [lia|]. specialize (Hj j ltac:(lia)). fold (zsum (take j rest)). lia.
    + cbn. fold (zsum (take k rest)). destruct Hend as [->|Hend]; [by left|right; lia].
  - exists 0%nat. split_and!; [f_equal; lia|lia|lia|right; cbn; lia].
Qed.

Lemma voted_count_spec add total histogram :
  exact_addition add → histogram_ok total histogram →
  ∃ k, voted_count add total histogram = Ok k ∧ count_by_stake total histogram k.
Proof.
  intros Hadd (Hne & Hpos & Hle & Htot). destruct histogram as [|h rest]; [done|].
  apply Forall_cons in Hpos as [Hh Hr]. cbn in Hle. fold (zsum rest) in Hle.
  pose proof (zsum_nonneg _ Hr). cbn. rewrite to_uint_id by (unfold uint; lia).
  pose proof (Z.div_mod (total - h) 2 ltac:(done)). pose proof (Z.mod_pos_bound (total - h) 2 eq_refl).
  destruct (Z.ltb_spec 0 ((total - h) / 2)).
  - destruct (count_loop_spec add ((total - h) / 2) 0 rest 0 Hadd) as (k & -> & Hk & Hj & Hend); [lia|done|lia|].
    exists k. split; [done|]. exists h, rest. split; [done|]. right. split_and!; [done..|].
    destruct Hend as [->|Hend]; [by left|by right].
  - exists 0%nat. split; [done|]. exists h, rest. split; [done|]. left. split; [lia|done].
Qed.

(** * The elections *)

(** What an election promises: the number of seats follows the votes for it, and the
    elected outrank the others. *)
Definition elects (b : buffers) (histogram : list Z) (min_count : nat) (candidates elected : list votable) : Prop :=
  ∃ k, count_by_stake (total_voting_stake b) histogram k ∧
    top_ranked (vote_tally b) (seats k min_count) candidates elected.

(** The authority of [account] after the election of [elected]. *)
Definition rules (find_msb : Z → Z) (time : Z) (b : buffers) (account : Z) (elected : list votable) (s s' : election) : Prop :=
  ∃ old, active_authority s !! account = Some old ∧
    active_authority s' !! account
    = Some (elected_authority find_msb time (member_votes (vote_tally b) elected) old).

(** The state in which an election takes place. *)
Record election_ok (b : buffers) (s : election) : Prop := mk_election_ok {
  witness_histogram_ok : histogram_ok (total_voting_stake b) (witness_count b);
  committee_histogram_ok : histogram_ok (total_voting_stake b) (committee_count b);
  budget_histogram_ok : histogram_ok (total_voting_stake b) (budget_count b);
  witnesses_distinct : distinct_ids (witness_members s);
  committee_distinct : distinct_ids (committee_members s);
  budget_distinct : distinct_ids (budget_members s);
  tally_shares : Forall (λ v, 0 ≤ v < 2 ^ 63) (vote_tally b);
  special_accounts : ∀ a, a ∈ [GRAPHENE_WITNESS_ACCOUNT; GRAPHENE_COMMITTEE_ACCOUNT;
                               GRAPHENE_RELAXED_COMMITTEE_ACCOUNT; GRAPHENE_BUDGET_ACCOUNT] →
    is_Some (active_authority s !! a)
}.

Lemma check_witness_vote_id n o : member_vote_id (check_witness n o) = member_vote_id o.
Proof. unfold check_witness. by destruct (_ || _). Qed.

Lemma distinct_fmap f l :
  (∀ o, member_vote_id (f o) = member_vote_id o) → distinct_ids l → distinct_ids (f <$> l).
Proof.
  intros Hf. unfold distinct_ids. rewrite <- list_fmap_compose. intros Hl.
  erewrite list_fmap_ext; [exact Hl|]. intros i o _. cbn. by rewrite Hf.
Qed.

(** The authorities of other accounts stay. *)
Definition only_rules (accounts : list Z) (s s' : election) : Prop :=
  ∀ a, a ∉ accounts → active_authority s' !! a = active_authority s !! a.

Lemma election_ok_step b s s' :
  election_ok b s → distinct_ids (witness_members s') → distinct_ids (committee_members s') →
  distinct_ids (budget_members s') → dom (active_authority s') = dom (active_authority s) → election_ok b s'.
Proof.
  intros [? ? ? _ _ _ ? Hacc] ? ? ? Hdom. split; [done..|].
  intros a Ha. apply Hacc in Ha. by rewrite <- !elem_of_dom, Hdom in *.
Qed.

Section ElectionProofs.
Context (find_msb : Z → Z) (time : Z) (b : buffers).

Lemma modify_authority_Ok account f m old :
  m !! account = Some old → modify_authority account f m = Ok (<[account := f old]> m).
Proof. unfold modify_authority. by intros ->. Qed.

Lemma witnesses_elected lost min_count s :
  election_ok b s →
  ∃ s' elected, update_active_witnesses find_msb time b lost min_count s = Ok s' ∧
    elects b (witness_count b) min_count (check_witness lost <$> witness_members s) elected ∧
    active_witnesses s' = ordered (list_to_set (member_id <$> elected)) ∧
    rules find_msb time b GRAPHENE_WITNESS_ACCOUNT elected s s' ∧
    committee_members s' = committee_members s ∧ budget_members s' = budget_members s ∧
    only_rules [GRAPHENE_WITNESS_ACCOUNT] s s' ∧ election_ok b s'.
Proof.
  intros Hok. pose proof Hok as [Hh _ _ Hd ? ? _ Hacc].
  destruct (voted_count_spec add_share _ _ add_share_exact Hh) as (k & Hk & Hcount).
  destruct (Hacc GRAPHENE_WITNESS_ACCOUNT ltac:(set_solver)) as [old Hold].
  assert (distinct_ids (check_witness lost <$> witness_members s)) as Hd'
    by (apply distinct_fmap; [apply check_witness_vote_id|done]).
  unfold update_active_witnesses. rewrite Hk. cbn -[seats].
  rewrite (modify_authority_Ok _ _ _ _ Hold). cbn -[seats].
  eexists _, _. split; [done|]. split_and!; try done.
  - exists k. split; [done|]. by apply sort_votable_top_ranked.
  - exists old. split; [done|]. cbn. by rewrite lookup_insert_eq.
  - intros a Ha. cbn. apply lookup_insert_ne. set_solver.
  - apply (election_ok_step b s); [done| |done|done|].
    + cbn. by apply distinct_fmap.
    + cbn. rewrite dom_insert_lookup_L; [done|]. by eexists.
Qed.

Lemma committee_elected min_count s :
  election_ok b s →
  ∃ s' elected, update_active_committee_members find_msb time b min_count s = Ok s' ∧
    elects b (committee_count b) min_count (committee_members s) elected ∧
    active_committee_members s' = member_id <$> elected ∧
    (elected ≠ [] → rules find_msb time b GRAPHENE_COMMITTEE_ACCOUNT elected s s' ∧
       active_authority s' !! GRAPHENE_RELAXED_COMMITTEE_ACCOUNT = active_authority s' !! GRAPHENE_COMMITTEE_ACCOUNT) ∧
    budget_members s' = budget_members s ∧ active_witnesses s' = active_witnesses s ∧
    only_rules [GRAPHENE_COMMITTEE_ACCOUNT; GRAPHENE_RELAXED_COMMITTEE_ACCOUNT] s s' ∧ election_ok b s'.
Proof.
  intros Hok. pose proof Hok as [_ Hh _ ? Hd ? _ Hacc].
  destruct (voted_count_spec add_uint64 _ _ add_uint64_exact Hh) as (k & Hk & Hcount).
  destruct (Hacc GRAPHENE_COMMITTEE_ACCOUNT ltac:(set_solver)) as [old Hold].
  destruct (Hacc GRAPHENE_RELAXED_COMMITTEE_ACCOUNT ltac:(set_solver)) as [rel Hrel].
  unfold update_active_committee_members. rewrite Hk. cbn -[seats].
  set (e := sort_votable_objects _ _ _).
  assert (elects b (committee_count b) min_count (committee_members s) e) as He.
  { exists k. split; [done|]. by apply sort_votable_top_ranked. }
  assert (distinct_ids (set_total_votes (vote_tally b) <$> committee_members s)) as Hd' by by apply distinct_fmap.
  case_bool_decide as Hempty; cbn.
  - eexists _, e. split; [done|]. split_and!; try done. by apply (election_ok_step b s).
  - rewrite (modify_authority_Ok _ _ _ _ Hold). cbn.
    rewrite (modify_authority_Ok _ _ _ rel) by (by rewrite lookup_insert_ne). cbn. rewrite lookup_insert_eq.
    eexists _, e. split; [done|]. split_and!; try done; [intros _; cbn; split| |].
    + exists old. split; [done|]. cbn. by rewrite lookup_insert_ne, lookup_insert_eq by done.
    + by rewrite lookup_insert_eq, lookup_insert_ne, lookup_insert_eq by done.
    + intros a Ha. cbn. rewrite !lookup_insert_ne by set_solver. done.
    + apply (election_ok_step b s); try done. cbn.
      rewrite !dom_insert_lookup_L; [done|by eexists|]. rewrite lookup_insert_ne by done. by eexists.
Qed.

Lemma budget_elected min_count s :
  election_ok b s →
  ∃ s' elected, update_active_budget_members find_msb time b min_count s = Ok s' ∧
    elects b (budget_count b) min_count (budget_members s) elected ∧
    active_budget_members s' = member_id <$> elected ∧
    (elected ≠ [] → rules find_msb time b GRAPHENE_BUDGET_ACCOUNT elected s s') ∧
    active_witnesses s' = active_witnesses s ∧ active_committee_members s' = active_committee_members s ∧
    only_rules [GRAPHENE_BUDGET_ACCOUNT] s s'.
Proof.
  intros [_ _ Hh _ _ Hd _ Hacc].
  destruct (voted_count_spec add_uint64 _ _ add_uint64_exact Hh) as (k & Hk & Hcount).
  destruct (Hacc GRAPHENE_BUDGET_ACCOUNT ltac:(set_solver)) as [old Hold].
  unfold update_active_budget_members. rewrite Hk. cbn -[seats].
  set (e := sort_votable_objects _ _ _).
  assert (elects b (budget_count b) min_count (budget_members s) e) as He.
  { exists k. split; [done|]. by apply sort_votable_top_ranked. }
  case_bool_decide as Hempty; cbn; [eexists _, e; split; [done|]; by split_and!|].
  rewrite (modify_authority_Ok _ _ _ _ Hold). cbn. eexists _, e. split; [done|]. split_and!; try done.
  - intros _. exists old. split; [done|]. cbn. by rewrite lookup_insert_eq.
  - intros a Ha. cbn. apply lookup_insert_ne. set_solver.
Qed.
End ElectionProofs.

(** When every elected member is enabled, their votes come in descending order, and
    after hard fork 201230 their authority is that of a majority of the votes for them: it
    holds exactly when those who approve have more than half of the weight. *)
Theorem elected_majority find_msb time tally n candidates elected old :
  highest_bit find_msb → HARDFORK_201230_TIME ≤ time →
  top_ranked tally n candidates elected → Forall (λ o, is_enable o = true) elected →
  NoDup (member_account <$> elected) → Z.of_nat (length elected) < 2 ^ 16 →
  Forall (λ v, 0 ≤ v < 2 ^ 63) tally →
  let votes := member_votes tally elected in
  let a := elected_authority find_msb time votes old in
  (voted votes = [] → a = old) ∧
  (voted votes ≠ [] → majority_authority votes a ∧
     ∀ addresses get_active keys approved holds,
       holds_with addresses get_active keys approved holds a = true ↔
       all_weight (account_auths a) < 2 * weight_of (account_holds get_active approved holds) (account_auths a)).
Proof.
  intros Hmsb Htime (rest & _ & _ & Hs & _) Hen Hnd Hlen Htally votes a.
  assert (∀ o, 0 ≤ votes_of tally o < 2 ^ 63) as Hv.
  { intros o. unfold votes_of. destruct (tally !! _) as [v|] eqn:Hv; cbn; [|lia].
    rewrite Forall_forall in Htally. apply Htally. by eapply list_elem_of_lookup_2. }
  assert (countable votes) as Hc.
  { unfold votes, member_votes. split_and!.
    - by rewrite <- list_fmap_compose.
    - clear Hnd Hlen. induction Hs as [|o l _ IH Ho]; cbn; [constructor|].
      apply Forall_cons in Hen as [He Hen]. constructor; [by apply IH|].
      apply Forall_fmap, Forall_forall. intros q Hq. cbn. rewrite Forall_forall in Hen, Ho.
      specialize (Ho q Hq). apply not_after_spec in Ho. unfold ranked_votes in Ho.
      rewrite He, (Hen q Hq), !to_sint_64_id in Ho by (pose proof (Hv o); pose proof (Hv q); int_lia). lia.
    - apply Forall_fmap, Forall_forall. intros o _. apply Hv.
    - by rewrite length_fmap. }
  unfold a, elected_authority. rewrite (proj2 (Z.ltb_ge _ _) Htime).
  destruct (counted_authority_majority find_msb votes old Hmsb Hc) as [Hnone Hsome].
  split; [done|]. intros Hne. destruct (Hsome Hne) as [Hacc [Hk Ha] Hw Himp Ht Hsum]. split; [done|].
  intros addresses get_active keys approved holds. unfold holds_with. rewrite Hk, Ha, Ht. cbn. rewrite Z.leb_le.
  fold a. set (w := weight_of _ _). set (t := all_weight _).
  pose proof (Z.div_mod t 2 ltac:(done)). pose proof (Z.mod_pos_bound t 2 eq_refl). lia.
Qed.

(** ** The elections, by the votes *)

(** A witness that missed more than half of the blocks does not count as enabled, but for
    the first twelve. *)
Definition enabled_member (o : votable) : bool := enable o =? 1.
Definition enabled_witness (lost_num : Z) (o : votable) : bool :=
  (enable o =? 1) && ((member_id o <=? 11) || (recent_missed_of o <=? Z.quot lost_num 2)).

(** The votes for a candidate, that count if it is enabled. *)
Definition standing (tally : list Z) (enabled : votable → bool) (o : votable) : Z :=
  if enabled o then default 0 (tally !! Z.to_nat (vote_instance (member_vote_id o))) else 0.

(** More votes, or as many and an older vote identifier. *)
Definition precedes (tally : list Z) (enabled : votable → bool) (x y : votable) : Prop :=
  standing tally enabled y < standing tally enabled x ∨
  standing tally enabled x = standing tally enabled y ∧
  vote_instance (member_vote_id x) < vote_instance (member_vote_id y).

(** As many seats as the votes ask for, at least the minimum, filled from the candidates in
    the order of their votes: every elected one has more than every one left out. *)
Definition most_voted (b : buffers) (histogram : list Z) (min_count : nat) (enabled : votable → bool)
    (candidates elected : list votable) : Prop :=
  ∃ k rest, count_by_stake (total_voting_stake b) histogram k ∧
    elected ++ rest ≡ₚ candidates ∧ length elected = (seats k min_count `min` length candidates)%nat ∧
    StronglySorted (precedes (vote_tally b) enabled) elected ∧
    ∀ e r, e ∈ elected → r ∈ rest → precedes (vote_tally b) enabled e r.

(** The shared authority of an account after the election: after hard fork 201230 it is
    the old one if nobody voted for the elected and otherwise that of a majority of the
    votes, when the elected are enabled and few enough. *)
Definition holds_office (find_msb : Z → Z) (time : Z) (b : buffers) (account : Z) (enabled : votable → bool)
    (elected : list votable) (s s' : election) : Prop :=
  let votes := member_votes (vote_tally b) elected in
  ∃ old a, active_authority s !! account = Some old ∧ active_authority s' !! account = Some a ∧
    (time < HARDFORK_201230_TIME → a = legacy_authority find_msb votes old) ∧
    (HARDFORK_201230_TIME ≤ time → highest_bit find_msb → Forall (λ o, enabled o = true) elected →
     NoDup (member_account <$> elected) → Z.of_nat (length elected) < 2 ^ 16 →
     (voted votes = [] → a = old) ∧ (voted votes ≠ [] → majority_authority votes a)).

Lemma strongly_sorted_distinct {A} (R P : A → A → Prop) (f : A → Z) l :
  (∀ a b, R a b → f a ≠ f b → P a b) → NoDup (f <$> l) → StronglySorted R l → StronglySorted P l.
Proof.
  intros HRP Hnd Hs. induction Hs as [|a l Hs IH Ha]; [constructor|]. cbn in Hnd. apply NoDup_cons in Hnd as [Hna Hnd].
  constructor; [by apply IH|]. apply Forall_forall. intros b Hb. rewrite Forall_forall in Ha. apply HRP; [by apply Ha|].
  intros Heq. apply Hna. rewrite Heq. by apply list_elem_of_fmap_2.
Qed.

Lemma outranks_precedes tally enabled a b :
  Forall (λ v, 0 ≤ v < 2 ^ 63) tally → enabled a = is_enable a → enabled b = is_enable b →
  outranks tally a b = true → precedes tally enabled a b.
Proof.
  intros Ht Ha Hb. unfold outranks, precedes, standing, ranked_votes, votes_of. rewrite Ha, Hb.
  assert (∀ i, to_sint 64 (default 0 (tally !! i)) = default 0 (tally !! i)) as Hv.
  { intros i. apply to_sint_64_id. destruct (tally !! i) as [v|] eqn:Hi; cbn; [|int_lia].
    rewrite Forall_forall in Ht. apply list_elem_of_lookup_2, Ht in Hi. int_lia. }
  rewrite !Hv. destruct (is_enable a), (is_enable b);
    (destruct (_ =? _) eqn:Heq; [apply Z.eqb_eq in Heq|apply Z.eqb_neq in Heq]); intros ?%Z.ltb_lt; lia.
Qed.

Lemma elects_most_voted b histogram min_count enabled candidates elected :
  Forall (λ v, 0 ≤ v < 2 ^ 63) (vote_tally b) → distinct_ids candidates →
  (∀ o, o ∈ candidates → enabled o = is_enable o) →
  elects b histogram min_count candidates elected → most_voted b histogram min_count enabled candidates elected.
Proof.
  intros Ht Hd Hen (k & Hk & rest & Hp & Hlen & Hs & Hout). exists k, rest. split_and!; [done..| |].
  - assert (∀ o, o ∈ elected → enabled o = is_enable o) as Hee by (intros o Ho; apply Hen; rewrite <- Hp; set_solver).
    assert (Forall (λ o, enabled o = is_enable o) elected) as Hall by (by apply Forall_forall).
    assert (NoDup ((λ o, vote_instance (member_vote_id o)) <$> elected)) as Hnd.
    { unfold distinct_ids in Hd. rewrite <- Hp, fmap_app in Hd. by apply NoDup_app in Hd as [? _]. }
    clear -Ht Hs Hall Hnd. induction Hs as [|a l Hs IH Ha]; [constructor|].
    apply Forall_cons in Hall as [Hea Hall]. cbn in Hnd. apply NoDup_cons in Hnd as [Hna Hnd]. constructor; [by apply IH|].
    apply Forall_forall. intros o Ho. rewrite Forall_forall in Ha, Hall.
    apply outranks_precedes; [done|done|by apply Hall|]. apply not_after_outranks; [by apply Ha|].
    intros Heq. apply Hna. rewrite Heq. by apply (list_elem_of_fmap_2 (λ o, vote_instance (member_vote_id o))).
  - intros e r He Hr. apply outranks_precedes; [done|apply Hen; rewrite <- Hp; set_solver..|by apply Hout].
Qed.

Lemma rules_office find_msb time b account n candidates elected s s' :
  Forall (λ v, 0 ≤ v < 2 ^ 63) (vote_tally b) → top_ranked (vote_tally b) n candidates elected →
  rules find_msb time b account elected s s' → holds_office find_msb time b account is_enable elected s s'.
Proof.
  intros Ht Htop (old & Hold & Hnew). eexists old, _. split; [done|]. split; [exact Hnew|]. split.
  - intros Hlt. unfold elected_authority. by rewrite (proj2 (Z.ltb_lt _ _) Hlt).
  - intros Hge Hmsb Hen Hnd Hlen.
    destruct (elected_majority find_msb time (vote_tally b) n candidates elected old) as [Hnone Hsome]; try done.
    split; [done|]. intros Hv. by apply Hsome.
Qed.

(** The election of the witnesses in terms of the witnesses themselves, not of those that
    [check_witness] has marked. *)
Lemma check_witness_enabled lost o : is_enable (check_witness lost o) = enabled_witness lost o.
Proof.
  unfold check_witness, enabled_witness, is_enable, identity_enable, identity_enable_lost.
  destruct (Z.eqb_spec (enable o) 1); cbn; [|by apply Z.eqb_neq]. destruct (member_id o <=? 11) eqn:Hid; cbn; [by apply Z.eqb_eq|].
  destruct (Z.ltb_spec (Z.quot lost 2) (recent_missed_of o)), (Z.leb_spec (recent_missed_of o) (Z.quot lost 2)); cbn; lia.
Qed.

Lemma check_witness_same lost o :
  member_id (check_witness lost o) = member_id o ∧ member_account (check_witness lost o) = member_account o ∧
  member_vote_id (check_witness lost o) = member_vote_id o.
Proof. unfold check_witness. by destruct (_ || _). Qed.

Lemma precedes_check tally lost a b :
  precedes tally is_enable (check_witness lost a) (check_witness lost b) → precedes tally (enabled_witness lost) a b.
Proof. unfold precedes, standing. by rewrite !check_witness_enabled, !check_witness_vote_id. Qed.

Lemma most_voted_check b histogram min_count lost candidates elected :
  most_voted b histogram min_count is_enable (check_witness lost <$> candidates) elected →
  ∃ l, elected = check_witness lost <$> l ∧ most_voted b histogram min_count (enabled_witness lost) candidates l.
Proof.
  intros (k & rest & Hk & Hp & Hlen & Hs & Hout).
  apply Permutation_map_inv in Hp as (l & Hl & Hp).
  symmetry in Hl. apply fmap_app_inv in Hl as (l1 & l2 & -> & -> & ->). exists l1. split; [done|]. exists k, l2.
  rewrite !length_fmap in Hlen. split_and!; [done|by symmetry|done| |].
  - clear -Hs. induction l1 as [|a l1 IH]; [constructor|]. cbn in Hs. apply StronglySorted_inv in Hs as [Hs Ha].
    constructor; [by apply IH|]. rewrite Forall_fmap in Ha. eapply Forall_impl; [exact Ha|]. intros o. apply precedes_check.
  - intros e r He Hr. apply precedes_check, Hout; by apply list_elem_of_fmap_2.
Qed.

Lemma office_check find_msb time b account lost l s s' :
  holds_office find_msb time b account is_enable (check_witness lost <$> l) s s' →
  holds_office find_msb time b account (enabled_witness lost) l s s'.
Proof.
  unfold holds_office, member_votes. rewrite <- !list_fmap_compose, length_fmap.
  assert ((λ o, (member_account o, votes_of (vote_tally b) o)) ∘ check_witness lost <$> l =
          (λ o, (member_account o, votes_of (vote_tally b) o)) <$> l) as ->.
  { apply list_fmap_ext. intros i o _. cbn. unfold votes_of. by destruct (check_witness_same lost o) as (_ & -> & ->). }
  assert (member_account ∘ check_witness lost <$> l = member_account <$> l) as ->.
  { apply list_fmap_ext. intros i o _. cbn. apply check_witness_same. }
  intros (old & a & Hold & Hnew & Hleg & Hmaj). exists old, a. split_and!; [done..|].
  intros Hge Hmsb Hen. apply Hmaj; [done..|]. apply Forall_fmap. eapply Forall_impl; [exact Hen|].
  intros o Ho. cbn. by rewrite check_witness_enabled.
Qed.

(** C12: at the maintenance interval the elections take place whatever the votes.  The seats
    of the witnesses, the committee and the budget members are as many as the votes ask
    for, at least the minimum, as far as there are candidates; those get them who have the
    most votes, where the votes for a member count if it is enabled (and, for a witness
    other than the first twelve, has not missed more than half of the blocks) and of two
    with as many votes the one with the older vote identifier comes first.  The elected
    become the active members, and the shared authorities are those of a majority of the
    votes for them after hard fork 201230, the other authorities being untouched. *)
Theorem elections_choose_the_best find_msb time b lost min_w min_c min_b s :
  election_ok b s →
  ∃ s' wits committee budget, elections find_msb time b lost min_w min_c min_b s = Ok s' ∧
    most_voted b (witness_count b) min_w (enabled_witness lost) (witness_members s) wits ∧
    most_voted b (committee_count b) min_c enabled_member (committee_members s) committee ∧
    most_voted b (budget_count b) min_b enabled_member (budget_members s) budget ∧
    active_witnesses s' = ordered (list_to_set (member_id <$> wits)) ∧
    active_committee_members s' = member_id <$> committee ∧
    active_budget_members s' = member_id <$> budget ∧
    holds_office find_msb time b GRAPHENE_WITNESS_ACCOUNT (enabled_witness lost) wits s s' ∧
    (committee ≠ [] → holds_office find_msb time b GRAPHENE_COMMITTEE_ACCOUNT enabled_member committee s s' ∧
       active_authority s' !! GRAPHENE_RELAXED_COMMITTEE_ACCOUNT = active_authority s' !! GRAPHENE_COMMITTEE_ACCOUNT) ∧
    (budget ≠ [] → holds_office find_msb time b GRAPHENE_BUDGET_ACCOUNT enabled_member budget s s') ∧
    only_rules [GRAPHENE_WITNESS_ACCOUNT; GRAPHENE_COMMITTEE_ACCOUNT;
                GRAPHENE_RELAXED_COMMITTEE_ACCOUNT; GRAPHENE_BUDGET_ACCOUNT] s s'.
Proof.
  intros Hok. pose proof Hok as [_ _ _ Hdw Hdc Hdb Ht _].
  destruct (witnesses_elected find_msb time b lost min_w s Hok) as (s1 & w & H1 & Hw & Aw & Rw & C1 & B1 & O1 & Hok1).
  destruct (committee_elected find_msb time b min_c s1 Hok1) as (s2 & c & H2 & Hc & Ac & Rc & B2 & W2 & O2 & Hok2).
  destruct (budget_elected find_msb time b min_b s2 Hok2) as (s3 & u & H3 & Hu & Au & Ru & W3 & C3 & O3).
  rewrite C1 in Hc. rewrite B2, B1 in Hu.
  assert (holds_office find_msb time b GRAPHENE_WITNESS_ACCOUNT is_enable w s s3) as Ow.
  { destruct Hw as (k & _ & Htop). apply (rules_office _ _ _ _ _ _ _ _ _ Ht Htop).
    destruct Rw as (old & Hold & Hnew). exists old. by rewrite O3, O2 by (vm_compute; set_solver). }
  apply (elects_most_voted _ _ _ is_enable) in Hw;
    [|done|apply distinct_fmap; [apply check_witness_vote_id|done]|done].
  apply most_voted_check in Hw as (wl & -> & Hw).
  exists s3, wl, c, u. unfold elections. rewrite H1. cbn. rewrite H2. cbn. rewrite H3.
  split_and!; [done|done|by apply elects_most_voted|by apply elects_most_voted| |congruence|done| | | |].
  - rewrite W3, W2, Aw. do 2 f_equal. rewrite <- list_fmap_compose. apply list_fmap_ext. intros i o _. apply check_witness_same.
  - by apply office_check.
  - intros Hne. destruct (Rc Hne) as [(old & Hold & Hnew) Hrel]. split; [|by rewrite !O3 by (vm_compute; set_solver)].
    destruct Hc as (k & _ & Htop). apply (rules_office _ _ _ _ _ _ _ _ _ Ht Htop).
    exists old. by rewrite O3, <- O1 by (vm_compute; set_solver).
  - intros Hne. destruct (Ru Hne) as (old & Hold & Hnew).
    destruct Hu as (k & _ & Htop). apply (rules_office _ _ _ _ _ _ _ _ _ Ht Htop). exists old.
    by rewrite <- O1, <- O2 by (vm_compute; set_solver).
  - intros a Ha. rewrite O3, O2, O1 by set_solver. done.
Qed.

(** * The tally *)

(** Entry [i] of [l] is [W i], modulo 2^64. *)
Definition represents (l : list Z) (n : nat) (W : nat → Z) : Prop :=
  length l = n ∧ ∀ i, (i < n)%nat → l !! i = Some (to_uint 64 (W i)).

Lemma represents_ext l n W W' : (∀ i, (i < n)%nat → W i = W' i) → represents l n W → represents l n W'.
Proof. intros HW [Hn Hl]. split; [done|]. intros i Hi. by rewrite <- HW, Hl. Qed.

Lemma represents_start n : represents (resize n []) n (λ _, 0).
Proof.
  unfold resize. rewrite take_nil, app_nil_l, Nat.sub_0_r. split; [apply length_replicate|].
  intros i Hi. by apply lookup_replicate_2.
Qed.

Lemma represents_bump s l n W j :
  represents l n W → represents (bump s l j) n (λ i, W i + (if decide (i = j) then s else 0)).
Proof.
  intros [Hn Hl]. unfold bump. split; [by rewrite length_alter|]. intros i Hi.
  destruct (decide (i = j)) as [->|Hij].
  - rewrite list_lookup_alter_eq, Hl by done. cbn. f_equal. unfold to_uint. by rewrite Zplus_mod_idemp_l.
  - by rewrite list_lookup_alter_ne, Hl, Z.add_0_r by done.
Qed.

(** How often a list of opinions names instance [i]. *)
Definition multiplicity (i : nat) (ids : list Z) : Z :=
  Z.of_nat (length (filter (λ id, Z.to_nat (vote_instance id) = i) ids)).

Lemma represents_votes s l n W ids :
  Forall (λ id, 0 ≤ id) ids → represents l n W →
  represents (bump_votes s l ids) n (λ i, W i + s * multiplicity i ids).
Proof.
  intros Hids. revert l W. induction Hids as [|id ids Hid _ IH]; intros l W Hl; cbn [bump_votes foldl].
  { eapply represents_ext; [|exact Hl]. intros i _. unfold multiplicity. cbn. lia. }
  assert (0 ≤ vote_instance id) by (by apply Z.shiftr_nonneg).
  pose proof Hl as [Hn _]. rewrite Hn. fold (bump_votes s).
  destruct (Z.ltb_spec (vote_instance id) (Z.of_nat n)).
  - eapply represents_ext; [|apply IH, represents_bump, Hl]. intros i Hi. cbn. unfold multiplicity.
    rewrite filter_cons. destruct (decide (i = _)), (decide (_ = i)); try lia; cbn [length]; lia.
  - eapply represents_ext; [|by apply IH]. intros i Hi. unfold multiplicity.
    rewrite filter_cons. destruct (decide (_ = i)); [lia|done].
Qed.

(** The entry of a histogram that a number of members goes to. *)
Definition counts_for (i n : nat) (maximum num : Z) : bool :=
  (num <=? maximum) && bool_decide (Z.to_nat (Z.min (num / 2) (Z.of_nat n - 1)) = i).

Lemma represents_count s num maximum l n W :
  (0 < n)%nat → Z.of_nat n < 2 ^ 16 → 0 ≤ num → represents l n W →
  represents (bump_count s num maximum l) n (λ i, W i + s * (if counts_for i n maximum num then 1 else 0)).
Proof.
  intros Hn0 Hn16 Hnum Hl. pose proof Hl as [Hn _]. unfold bump_count, counts_for. rewrite Hn.
  destruct (num <=? maximum); cbn [andb].
  - assert (0 ≤ num / 2) by (by apply Z.div_pos).
    rewrite (to_uint_id 64), to_uint_id by (unfold uint; lia).
    eapply represents_ext; [|apply represents_bump, Hl]. intros i Hi. cbn.
    repeat case_bool_decide || case_decide; cbn; lia.
  - eapply represents_ext; [|exact Hl]. intros i Hi. cbn. lia.
Qed.

Section Tally.
Context `{Division128}.
Context (p : vote_parameters) (get_voter : Z → option voter) (month_flag : Z → Z).

(** The stake that an account votes with, and the options it votes for. *)
Definition ballot (x : voter * ledger) : list (Z * voter) :=
  if count_non_member_votes p || is_member x.1 (head_block_time x.2) then
    match opinion_account get_voter x.1, voting_stake x.1 x.2 with
    | Ok o, Ok s => [(s, o)]
    | _, _ => []
    end
  else [].

(** The accounts with the ledger each of them finds, in the order of the tally. *)
Fixpoint tallied (by_name : list voter) (l : ledger) : list (voter * ledger) :=
  match by_name with
  | [] => []
  | v :: by_name =>
      (v, l) :: match (a ← get accounts (voter_id v); process_fees month_flag (voter_id v) a) l with
                | Ok (_, l') => tallied by_name l'
                | Throw _ => []
                end
  end.

Definition ballots (by_name : list voter) (l : ledger) : list (Z * voter) := tallied by_name l ≫= ballot.

(** The stake of the ballots, weighted by [f]. *)
Definition stake_for (f : voter → Z) (bs : list (Z * voter)) : Z := zsum ((λ x, x.1 * f x.2) <$> bs).

(** The buffers hold the ballots: [W] what each of them held before. *)
Record holds_ballots (nv nw nc nb : nat) (bs : list (Z * voter)) (b : buffers) : Prop := mk_holds_ballots {
  held_votes : represents (vote_tally b) nv (λ i, stake_for (λ o, multiplicity i (opinions o)) bs);
  held_witnesses : represents (witness_count b) nw
    (λ i, stake_for (λ o, if counts_for i nw (maximum_witness_count p) (num_witness o) then 1 else 0) bs);
  held_committee : represents (committee_count b) nc
    (λ i, stake_for (λ o, if counts_for i nc (maximum_committee_count p) (num_committee o) then 1 else 0) bs);
  held_budget : represents (budget_count b) nb
    (λ i, stake_for (λ o, if counts_for i nb (maximum_budget_count p) (num_budget o) then 1 else 0) bs);
  held_total : total_voting_stake b = to_uint 64 (stake_for (λ _, 1) bs)
}.

Definition voter_ok (v : voter) : Prop :=
  Forall (λ id, 0 ≤ id) (opinions v) ∧ 0 ≤ num_witness v ∧ 0 ≤ num_committee v ∧ 0 ≤ num_budget v.

Lemma stake_for_snoc f bs s o : stake_for f (bs ++ [(s, o)]) = stake_for f bs + s * f o.
Proof. unfold stake_for. rewrite fmap_app, zsum_app. cbn. lia. Qed.

(** The parameters are 16-bit numbers: the histograms have fewer than 2^16 entries. *)
Definition entries (maximum : Z) : nat := Z.to_nat (maximum / 2 + 1).
Definition parameters_ok : Prop :=
  uint 16 (maximum_witness_count p) ∧ uint 16 (maximum_committee_count p) ∧ uint 16 (maximum_budget_count p).

Lemma entries_bounds m : uint 16 m → (0 < entries m)%nat ∧ Z.of_nat (entries m) < 2 ^ 16.
Proof.
  intros [Hm Hm']. unfold entries.
  assert (0 ≤ m / 2) by by apply Z.div_pos.
  assert (m / 2 < 2 ^ 15); [|lia]. by apply Z.div_lt_upper_bound.
Qed.

Abbreviation all_held := (holds_ballots (Z.to_nat (next_available_vote_id p)) (entries (maximum_witness_count p))
  (entries (maximum_committee_count p)) (entries (maximum_budget_count p))).

Lemma ballots_start : all_held [] (start_tally p no_buffers).
Proof. split; try apply represents_start. done. Qed.

Lemma tally_voter_ballot v l bs b b' :
  parameters_ok → voter_ok v → (∀ i o, get_voter i = Some o → voter_ok o) →
  all_held bs b → tally_voter p get_voter v l b = Ok b' →
  all_held (bs ++ ballot (v, l)) b'.
Proof.
  intros ((Hw0 & Hw)%entries_bounds & (Hc0 & Hc)%entries_bounds & (Hu0 & Hu)%entries_bounds) Hv Hget Hb Hrun.
  unfold tally_voter in Hrun. unfold ballot. cbn [fst snd].
  destruct (count_non_member_votes p || _); [|injection Hrun as <-; by rewrite app_nil_r].
  destruct (opinion_account get_voter v) as [o|] eqn:Ho; [|done]. cbn in Hrun.
  destruct (voting_stake v l) as [s|]; [|done]. injection Hrun as <-.
  assert (voter_ok o) as (Hids & Hnw & Hnc & Hnu).
  { unfold opinion_account in Ho. destruct (_ =? _); [by injection Ho as <-|].
    destruct (get_voter _) eqn:Hg; [|done]. injection Ho as <-. by eapply Hget. }
  destruct Hb as [H1 H2 H3 H4 H5]. split; cbn.
  - eapply represents_ext; [|by apply represents_votes]. intros i _. cbn. by rewrite stake_for_snoc.
  - eapply represents_ext; [|by apply represents_count]. intros i _. cbn. by rewrite stake_for_snoc.
  - eapply represents_ext; [|by apply represents_count]. intros i _. cbn. by rewrite stake_for_snoc.
  - eapply represents_ext; [|by apply represents_count]. intros i _. cbn. by rewrite stake_for_snoc.
  - rewrite stake_for_snoc, H5, Z.mul_1_r. unfold to_uint. by rewrite Zplus_mod_idemp_l.
Qed.

Lemma maintain_accounts vs l b bs l' b' u :
  parameters_ok → Forall voter_ok vs → (∀ i o, get_voter i = Some o → voter_ok o) →
  all_held bs b →
  mapE_ (maintain_account p get_voter month_flag) vs (l, b) = ((l', b'), Ok u) →
  all_held (bs ++ ballots vs l) b' ∧ vote_worker b' = vote_worker b.
Proof.
  intros Hp Hvs Hget. revert l b bs. induction Hvs as [|v vs Hv _ IH]; intros l b bs Hb Hrun.
  { injection Hrun as <- <- <-. unfold ballots. cbn. by rewrite app_nil_r. }
  cbn in Hrun. rewrite E_bind_step in Hrun. unfold maintain_account at 1 in Hrun. unfold ballots. cbn [tallied].
  destruct (tally_voter p get_voter v l b) as [b1|] eqn:Ht; [|discriminate Hrun].
  destruct ((a ← get accounts (voter_id v); process_fees month_flag (voter_id v) a) l) as [[[] l1]|] eqn:Hf;
    [|discriminate Hrun].
  assert (vote_worker b1 = vote_worker b) as Hwk.
  { unfold tally_voter in Ht. destruct (_ || _); [|by injection Ht as <-].
    destruct (opinion_account _ _); [|done]. cbn in Ht. destruct (voting_stake _ _); [|done]. by injection Ht as <-. }
  apply (tally_voter_ballot v l bs b b1 Hp Hv Hget Hb) in Ht.
  destruct (IH l1 b1 _ Ht Hrun) as [Hall Hw]. split; [|congruence].
  cbn [mbind list_bind]. by rewrite app_assoc.
Qed.

(** The votes of the budget members: one for every opinion of an enabled member. *)
Definition budget_ballots (members : list (option budget_account)) : list Z :=
  members ≫= λ ob, match ob with
                   | Some a => if budget_member_enable a =? identity_enable then budget_votes a else []
                   | None => []
                   end.

Lemma multiplicity_app i l1 l2 : multiplicity i (l1 ++ l2) = multiplicity i l1 + multiplicity i l2.
Proof. unfold multiplicity. rewrite filter_app, length_app. lia. Qed.

Lemma budget_votes_counted ms l b l' b' u n ids bs :
  Forall (λ ob, ∀ a, ob = Some a → Forall (λ id, 0 ≤ id) (budget_votes a)) ms →
  all_held bs b → represents (vote_worker b) n (λ i, multiplicity i ids) →
  mapE_ (λ ob, budget_vote ob) ms (l, b) = ((l', b'), Ok u) →
  l' = l ∧ all_held bs b' ∧ represents (vote_worker b') n (λ i, multiplicity i (ids ++ budget_ballots ms)).
Proof.
  intros Hms. revert b ids. induction Hms as [|[a|] ms Ha _ IH]; intros b ids Hb Hr Hrun; [|..|discriminate Hrun].
  { injection Hrun as <- <- <-. split_and!; [done..|]. unfold budget_ballots. cbn. by rewrite app_nil_r. }
  cbn in Hrun. rewrite E_bind_step in Hrun. cbn in Hrun.
  change (budget_ballots (Some a :: ms))
    with ((if budget_member_enable a =? identity_enable then budget_votes a else []) ++ budget_ballots ms).
  rewrite app_assoc. eapply IH; [| |exact Hrun].
  - unfold tally_budget. destruct (_ =? _); [|done]. by destruct Hb.
  - unfold tally_budget. destruct (_ =? _); cbn; [|by rewrite app_nil_r].
    eapply represents_ext; [|apply represents_votes; [by apply Ha|exact Hr]].
    intros i _. cbn. rewrite multiplicity_app. lia.
Qed.

(** *** The histograms hold no more stake than there is *)

Lemma zsum_swap (L : list nat) (f : nat → voter → Z) bs :
  zsum ((λ i, stake_for (f i) bs) <$> L) = stake_for (λ o, zsum ((λ i, f i o) <$> L)) bs.
Proof.
  induction bs as [|[s o] bs IH] using rev_ind.
  - unfold stake_for, zsum. induction L as [|i L IHL]; [done|]. cbn. cbn in IHL. by rewrite IHL.
  - rewrite stake_for_snoc, <- IH. clear IH.
    induction L as [|i L IHL]; cbn; [lia|]. cbn in IHL. unfold zsum in *. rewrite IHL, stake_for_snoc. lia.
Qed.

Lemma no_entry j a len : (j < a)%nat → zsum ((λ i, if bool_decide (j = i) then 1 else 0) <$> seq a len) = 0.
Proof.
  unfold zsum. revert a. induction len as [|len IH]; intros a Ha; cbn; [done|].
  rewrite bool_decide_eq_false_2, IH by lia. done.
Qed.

Lemma one_entry n m num k len :
  0 ≤ zsum ((λ i, if counts_for i n m num then 1 else 0) <$> seq k len) ≤ 1.
Proof.
  unfold counts_for. destruct (num <=? m); cbn [andb]; [set (j := Z.to_nat _)|].
  - revert k. induction len as [|len IH]; intros k; cbn; [lia|]. case_bool_decide as Hj.
    + pose proof (no_entry j (S k) len ltac:(lia)) as Hz. unfold zsum in Hz. cbn in Hz. rewrite Hz. lia.
    + apply IH.
  - revert k. unfold zsum. induction len as [|len IH]; intros a; cbn; [lia|apply IH].
Qed.

Lemma stake_for_mono f g bs :
  Forall (λ x, 0 ≤ x.1) bs → (∀ o, 0 ≤ f o ≤ g o) → 0 ≤ stake_for f bs ≤ stake_for g bs.
Proof.
  intros Hb Hfg. unfold stake_for. induction Hb as [|[s o] bs Hs _ IH]; cbn; [lia|].
  unfold zsum in IH. specialize (Hfg o). cbn in Hs. nia.
Qed.

Lemma ballots_nonneg by_name l : Forall (λ x, 0 ≤ x.1) (ballots by_name l).
Proof.
  unfold ballots. generalize (tallied by_name l). intros xs. induction xs as [|x xs IH]; cbn; [constructor|].
  apply Forall_app. split; [|done]. unfold ballot. destruct (_ || _); [|constructor].
  destruct (opinion_account _ _); [|constructor]. destruct (voting_stake _ _) as [s|] eqn:Hs; [|constructor].
  constructor; [|constructor]. cbn. unfold voting_stake in Hs.
  apply bind_Ok in Hs as (c & _ & (k & _ & [= <-])%bind_Ok). by apply to_uint_range.
Qed.

Lemma histogram_represented n m (field : voter → Z) bs l total :
  (0 < n)%nat → Forall (λ x, 0 ≤ x.1) bs → stake_for (λ _, 1) bs < 2 ^ 63 →
  total = to_uint 64 (stake_for (λ _, 1) bs) →
  represents l n (λ i, stake_for (λ o, if counts_for i n m (field o) then 1 else 0) bs) →
  histogram_ok total l.
Proof.
  intros Hn Hbs Hlt -> [Hlen Hl].
  assert (∀ f, (∀ o, 0 ≤ f o ≤ 1) → 0 ≤ stake_for f bs ≤ stake_for (λ _, 1) bs) as Hmono
    by (intros f Hf; by apply stake_for_mono).
  rewrite to_uint_id by (pose proof (Hmono (λ _, 1) ltac:(done)); unfold uint; lia).
  set (W := λ i, stake_for (λ o, if counts_for i n m (field o) then 1 else 0) bs).
  assert (∀ i, 0 ≤ W i < 2 ^ 63) as HW.
  { intros i. unfold W. pose proof (Hmono (λ o, if counts_for i n m (field o) then 1 else 0)) as Hi.
    assert (0 ≤ stake_for (λ o, if counts_for i n m (field o) then 1 else 0) bs ≤ stake_for (λ _, 1) bs); [|lia].
    apply Hi. intros o. destruct (counts_for _ _ _ _); lia. }
  assert (l = W <$> seq 0 n) as ->.
  { apply list_eq. intros i. destruct (decide (i < n)%nat) as [Hi|Hi].
    - rewrite Hl, list_lookup_fmap, lookup_seq_lt by done. cbn. f_equal. apply to_uint_id.
      specialize (HW i). unfold uint, W in *. lia.
    - rewrite !lookup_ge_None_2; [done| |lia]. rewrite length_fmap, length_seq. lia. }
  split_and!.
  - destruct n; [lia|done].
  - apply Forall_fmap, Forall_true. intros i. apply HW.
  - unfold W. rewrite zsum_swap. apply Hmono. intros o. apply one_entry.
  - done.
Qed.

(** The tally that starts from empty buffers counts the stake of every account exactly
    once for each of its opinions, or of those of its proxy, and each active and enabled
    budget member once for each of its votes; every buffer holds the sum modulo 2^64.
    When the stakes add up to less than 2^63 the histograms are such that the elections
    cannot fail. *)
Theorem tally_counts_stake by_name members l l' b u :
  parameters_ok → Forall voter_ok by_name → (∀ i o, get_voter i = Some o → voter_ok o) →
  Forall (λ ob, ∀ a, ob = Some a → Forall (λ id, 0 ≤ id) (budget_votes a)) members →
  perform_account_maintenance p get_voter month_flag by_name members (l, no_buffers) = ((l', b), Ok u) →
  all_held (ballots by_name l) b ∧
  represents (vote_worker b) (Z.to_nat (next_available_vote_id p)) (λ i, multiplicity i (budget_ballots members)) ∧
  (stake_for (λ _, 1) (ballots by_name l) < 2 ^ 63 →
   histogram_ok (total_voting_stake b) (witness_count b) ∧ histogram_ok (total_voting_stake b) (committee_count b) ∧
   histogram_ok (total_voting_stake b) (budget_count b)).
Proof.
  intros Hp Hvs Hget Hms Hrun. unfold perform_account_maintenance in Hrun.
  rewrite !E_bind_step in Hrun. cbn -[start_tally mapE_] in Hrun. rewrite E_bind_step in Hrun.
  destruct (mapE_ _ by_name _) as [[l1 b1] [[]|e]] eqn:Hv; [|discriminate Hrun].
  destruct (maintain_accounts _ _ _ [] _ _ _ Hp Hvs Hget ballots_start Hv) as [H1 Hw].
  eapply (budget_votes_counted _ _ _ _ _ _ _ []) in Hrun as (_ & Hb & Hr);
    [|done|exact H1|rewrite Hw; apply represents_start].
  split_and!; [done..|]. intros Hlt. pose proof (ballots_nonneg by_name l) as Hnn.
  destruct Hb as [_ H2 H3 H4 H5], Hp as ((? & _)%entries_bounds & (? & _)%entries_bounds & (? & _)%entries_bounds).
  split_and!; [eapply (histogram_represented _ _ num_witness); [| | | |exact H2]
              |eapply (histogram_represented _ _ num_committee); [| | | |exact H3]
              |eapply (histogram_represented _ _ num_budget); [| | | |exact H4]]; done.
Qed.
End Tally.

(** * Examples: what the code does wrong, and witnesses *)
Module VotesExample.

(** Accounts 7 and 700 of the fee ledger vote, with 900 and 5000 shares. *)
Definition ledger_with_votes : ledger :=
  set_balances (<[(7, 0) := 900]> {[ (700, 0) := 5000 ]}) fee_ledger.

Definition opinion (i proxy : Z) (ids : list Z) : voter := mk_voter i 1000 proxy ids 2 2 2 None None 0 0 0.

Definition voter_7 : voter := opinion 7 5 [vote_id 1 1; vote_id 0 2].
Definition voter_700 : voter := opinion 700 5 [vote_id 0 2; vote_id 0 3].
Definition proxied_700 : voter := opinion 700 99 [].

Definition get_voter (i : Z) : option voter :=
  if i =? 7 then Some voter_7 else if i =? 700 then Some voter_700 else None.

Definition params : vote_parameters := mk_vote_parameters 6 true 4 4 4.

Definition run (by_name : list voter) (members : list (option budget_account)) (b : buffers) : buffers :=
  (perform_account_maintenance params get_voter (λ t, t) by_name members (ledger_with_votes, b)).1.2.

(** A member votes once for a worker with each type that it writes in the identifier: the
    evaluator checks identifiers of type [worker] (2) only, the tally counts instances. *)
Theorem budget_member_votes_repeatedly :
  vote_worker (run [] [Some (mk_budget_account identity_enable [vote_id 0 4; vote_id 1 4; vote_id 2 4])] no_buffers)
  = [0; 0; 0; 0; 3; 0].
Proof. vm_compute. reflexivity. Qed.

(** An exception in the middle of the tally leaves the stake of account 7 in the buffers,
    which the next maintenance counts again. *)
Theorem failed_tally_counts_twice :
  is_ok (perform_account_maintenance params get_voter (λ t, t) [voter_7; proxied_700] [] (ledger_with_votes, no_buffers)).2 = false ∧
  vote_tally (run [voter_7] [] no_buffers) = [0; 900; 900; 0; 0; 0] ∧
  vote_tally (run [voter_7] [] (run [voter_7; proxied_700] [] no_buffers)) = [0; 1800; 1800; 0; 0; 0].
Proof. vm_compute. split_and!; reflexivity. Qed.

(** Two candidates for two seats: the second is disabled, yet has more votes. *)
Definition votes : buffers := mk_buffers [0; 0; 1; 2 ^ 20; 0; 0] [] [0] [0; 5; 0] [0; 5; 0] 5.
Definition member (i : Z) (en : Z) : votable := mk_votable i (20 + i) (vote_id 0 (1 + i)) 0 0 en.
Definition no_authority : authority := mk_authority 1 [] [] [].
Definition before (en : Z) : election :=
  mk_election [] [member 1 identity_enable; member 2 en] [] [] [] []
    {[ 0 := no_authority; 1 := no_authority; 2 := no_authority; 7 := no_authority ]}.

Definition committee_after (en : Z) : option authority :=
  match update_active_committee_members Z.log2 HARDFORK_201230_TIME votes 2 (before en) with
  | Ok s => active_authority s !! GRAPHENE_COMMITTEE_ACCOUNT
  | Throw _ => None
  end.

(** The committee gets an authority that nobody can satisfy: its threshold counts all the
    votes of the disabled member, whose weight has been cut to 16 bits. *)
Theorem disabled_member_blocks_committee :
  (is_impossible <$> committee_after identity_enable_lost) = Some true ∧
  (is_impossible <$> committee_after identity_enable) = Some false.
Proof. vm_compute. split; reflexivity. Qed.

(** *** Witnesses *)

Lemma election_ok_votes : election_ok votes (before identity_enable).
Proof.
  split; try (apply (bool_decide_unpack _); vm_compute; exact I).
  intros a Ha. repeat (apply elem_of_cons in Ha as [->|Ha]; [vm_compute; by eexists|]). by apply not_elem_of_nil in Ha.
Qed.

Lemma elections_choose_the_best_witness :
  ∃ s', elections Z.log2 HARDFORK_201230_TIME votes 100 1 2 1 (before identity_enable) = Ok s' ∧
    ∃ committee, most_voted votes (committee_count votes) 2 enabled_member (committee_members (before identity_enable)) committee ∧
      active_committee_members s' = member_id <$> committee.
Proof.
  destruct (elections_choose_the_best Z.log2 HARDFORK_201230_TIME votes 100 1 2 1 (before identity_enable)
    election_ok_votes) as (s' & w & c & u & Hrun & _ & Hc & _ & _ & Ha & _).
  exists s'. split; [exact Hrun|]. exists c. exact (conj Hc Ha).
Defined.

Definition elected : list votable := [member 2 identity_enable; member 1 identity_enable].

Lemma elected_majority_witness :
  majority_authority (member_votes (vote_tally votes) elected)
    (elected_authority Z.log2 HARDFORK_201230_TIME (member_votes (vote_tally votes) elected) no_authority).
Proof.
  refine (proj1 (proj2 (elected_majority Z.log2 HARDFORK_201230_TIME (vote_tally votes) 2 elected elected no_authority _ _ _ _ _ _ _) _)).
  - intros v _. reflexivity.
  - reflexivity.
  - exists []. split_and!; [by rewrite app_nil_r|reflexivity| |].
    + constructor; [constructor; constructor|]. constructor; [|constructor].
      apply (bool_decide_unpack _). vm_compute. exact I.
    + intros e r _ Hr. by apply not_elem_of_nil in Hr.
  - repeat constructor.
  - apply (bool_decide_unpack _). vm_compute. exact I.
  - reflexivity.
  - repeat constructor; cbn; lia.
  - vm_compute. discriminate.
Defined.

Lemma tally_counts_stake_witness :
  total_voting_stake (run [voter_7; voter_700] [] no_buffers) = 5900 ∧
  histogram_ok (total_voting_stake (run [voter_7; voter_700] [] no_buffers))
               (witness_count (run [voter_7; voter_700] [] no_buffers)).
Proof.
  split; [vm_compute; reflexivity|].
  destruct (perform_account_maintenance params get_voter (λ t, t) [voter_7; voter_700] [] (ledger_with_votes, no_buffers))
    as [[l' b] r] eqn:Hrun.
  assert (r = Ok ()) as -> by (change r with (l', b, r).2; rewrite <- Hrun; vm_compute; reflexivity).
  unfold run. rewrite Hrun. cbn [fst snd].
  destruct (tally_counts_stake params get_voter (λ t, t) [voter_7; voter_700] [] ledger_with_votes l' b ())
    as (_ & _ & Hh); [| | | |exact Hrun|].
  - unfold parameters_ok, uint. cbn. lia.
  - repeat constructor; vm_compute; discriminate.
  - intros i o. unfold get_voter. destruct (i =? 7); [|destruct (i =? 700); [|done]]; intros [= <-];
      repeat constructor; vm_compute; discriminate.
  - constructor.
  - apply Hh. vm_compute. reflexivity.
Defined.
End VotesExample.
