(* ===== verification/Budget.v ===== *)
(** * The budget: miners and workers of libraries/chain/db_maint.cpp and worker_evaluator.cpp

    At the maintenance interval the chain sets aside the pay of the witnesses for the
    blocks to come ([budget_miners]) and pays the workers whose proposals are approved
    ([pay_workers]), from collected fees first and from new supply otherwise.  The
    treasury is the ledger with the budget fields of [dynamic_global_property_object],
    the workers and the [exchange_fees] of the account statistics.  Times are seconds;
    [distance] is in microseconds as in the code.  [block_interval] is never 0 (the
    chain parameters are validated). *)

From S2P Require Import Prelude Safe Uint128 Asset Vesting Balance Fees.
From stdpp Require Import sorting.

Local Open Scope Z_scope.

Definition GRAPHENE_PLATFORM_ACCOUNT : Z := 6.
Definition GRAPHENE_MAX_SHARE_MINER : Z := 700000000 * 100000.
Definition GRAPHENE_MAX_SHARE_BUDGET : Z := 2800000000 * 100000.
Definition HARDFORK_191001_TIME : Z := 1569859200.
Definition HARDFORK_300101_TIME : Z := 1893430800.

(** The budget of [dynamic_global_property_object]; the entries [miner_witness] and
    [miner_worker] of the vectors. *)
Record budget_properties := mk_budget_properties {
  next_maintenance_time : Z;
  last_budget_time : Z;
  witness_budget : Z;
  worker_budget_supply : Z;
  worker_payed : Z;
  witness_supply : Z;
  worker_supply : Z;
  miner_supply : Z;
  miner_fee_used : Z;
  budget_supply : Z;
  budget_fees_used : Z
}.

(** ** worker_object.hpp *)

Inductive worker_type :=
  | refund_worker (total_burned : Z)
  | vesting_balance_worker (total_burned : Z) (balance : Z)
  | burn_worker (total_burned : Z)
  | exchange_worker (total_burned : Z) (account : Z).

Record worker_object := mk_worker {
  worker_account : Z;
  work_begin_date : Z;
  work_end_date : Z;
  daily_pay : Z;
  worker : worker_type;
  vote_for : Z;
  vote_against : Z;
  total_votes_for : Z;
  total_votes_against : Z;
  need_pay : Z;
  total_pay : Z;
  last_pay : Z;
  worker_budget_time : Z;
  is_approved : bool
}.

Record budget_parameters := mk_budget_parameters {
  max_supply : Z;
  block_interval : Z;
  witness_pay_per_block : Z;
  max_worker_budget_per_day : Z;
  budget_member_count : Z
}.

(** [budget_record], the entry [miner_witness] of its vectors. *)
Record budget_record := mk_record {
  from_initial_reserve : Z;
  from_accumulated_fees : Z;
  from_platform_fees : Z;
  from_unused_miner_budget : Z;
  miner_budget : Z;
  record_worker_budget : Z
}.

Record treasury := mk_treasury {
  books : ledger;
  props : budget_properties;
  workers : gmap Z worker_object;
  exchange_fees : gmap Z Z;
  budget_params : budget_parameters;
  budget_records : list (Z * budget_record)
}.

Definition set_books l t := mk_treasury l (props t) (workers t) (exchange_fees t) (budget_params t) (budget_records t).
Definition set_props p t := mk_treasury (books t) p (workers t) (exchange_fees t) (budget_params t) (budget_records t).
Definition set_workers w t := mk_treasury (books t) (props t) w (exchange_fees t) (budget_params t) (budget_records t).
Definition set_exchange_fees f t := mk_treasury (books t) (props t) (workers t) f (budget_params t) (budget_records t).
Definition set_records r t := mk_treasury (books t) (props t) (workers t) (exchange_fees t) (budget_params t) r.

Definition now (t : treasury) : Z := head_block_time (books t).

Definition on_books {A} (m : M ledger A) : M treasury A := λ t,
  match m (books t) with Ok (a, l) => Ok (a, set_books l t) | Throw e => Throw e end.

(** *** [worker_object] *)

Definition worker_active (w : worker_object) (now : Z) : bool := (work_begin_date w <=? now) && (now <=? work_end_date w).
Definition worker_active_ok (w : worker_object) (now : Z) : bool := (work_begin_date w <=? now) && (now <? work_end_date w).

Definition approving_stake (w : worker_object) : Z :=
  to_sint 64 (to_sint 64 (total_votes_for w) - to_sint 64 (total_votes_against w)).

Definition is_approving (w : worker_object) (member : Z) : bool :=
  (Z.quot member 3 <=? approving_stake w) && (Z.quot member 2 <? to_sint 64 (total_votes_for w)).

Definition day : Z := 86400 * 1000000.

Section Budget.
Context `{Division128}.

(** [get_budget]: the share of the daily pay for [dis] microseconds. *)
Definition get_budget (pay dis : Z) : result Z :=
  if negb (dis =? day) then
    v ← to_uint64 (div128 (mul128 (of_int64 pay) (of_int64 dis)) (of_int64 day));
    mret (to_sint 64 v)
  else Ok pay.

(** ** worker_evaluator.cpp: [pay_worker] of each type *)

Definition set_supply (i s : Z) (l : ledger) (d : asset_dynamic_data) : ledger :=
  set_dynamic (<[i := mk_dyn s (accumulated_fees d) (fee_pool d)]> (dynamic_data l)) l.

Definition set_fees (i f : Z) (l : ledger) (d : asset_dynamic_data) : ledger :=
  set_dynamic (<[i := mk_dyn (current_supply d) f (fee_pool d)]> (dynamic_data l)) l.

Definition pay_worker (w : worker_type) (pay : Z) : M treasury worker_type :=
  match w with
  | refund_worker burned =>
      burned ← lift (safe_add burned pay);
      d ← on_books (get dynamic_data GRAPHENE_CORE_ASSET);
      s ← lift (safe_sub (current_supply d) pay);
      on_books (modify_st (λ l, set_supply GRAPHENE_CORE_ASSET s l d)) ;;
      mret (refund_worker burned)
  | vesting_balance_worker burned balance =>
      burned ← lift (safe_add burned pay);
      v ← on_books (get vestings balance);
      t ← get_st;
      v ← lift (deposit (now t) (mk_asset pay GRAPHENE_CORE_ASSET) v);
      on_books (modify_st (λ l, set_vestings (<[balance := v]> (vestings l)) (next_vesting_id l) l)) ;;
      mret (vesting_balance_worker burned balance)
  | burn_worker burned =>
      burned ← lift (safe_add burned pay);
      on_books (adjust_balance 81 "" GRAPHENE_NULL_ACCOUNT (mk_asset pay GRAPHENE_CORE_ASSET)) ;;
      mret (burn_worker burned)
  | exchange_worker burned account =>
      burned ← lift (safe_add burned pay);
      on_books (get accounts account) ;;
      on_books (get statistics account) ;;
      t ← get_st;
      f ← lift (safe_add (default 0 (exchange_fees t !! account)) pay);
      modify_st (λ t, set_exchange_fees (<[account := f]> (exchange_fees t)) t) ;;
      mret (exchange_worker burned account)
  end.

(** ** [budget_miners] *)

Definition with_witness_budget (b : Z) (r : budget_record) : budget_record :=
  mk_record (from_initial_reserve r) (from_accumulated_fees r) (from_platform_fees r)
    (from_unused_miner_budget r) b (record_worker_budget r).

Definition add_miner_fee (p : budget_properties) (used : Z) : budget_properties :=
  mk_budget_properties (next_maintenance_time p) (last_budget_time p) (witness_budget p) (worker_budget_supply p)
    (worker_payed p) (witness_supply p) (worker_supply p) (miner_supply p) used (budget_supply p) (budget_fees_used p).

Definition add_miner_supply (p : budget_properties) (supply wsupply used : Z) : budget_properties :=
  mk_budget_properties (next_maintenance_time p) (last_budget_time p) (witness_budget p) (worker_budget_supply p)
    (worker_payed p) wsupply (worker_supply p) supply used (budget_supply p) (budget_fees_used p).

(** New supply: what is needed, within the share of the recipients and the maximum. *)
Definition limit_supply (needed share issued maximum current : Z) : result Z :=
  left ← safe_sub share issued;
  let s := if left <? needed then left else needed in
  reserve ← safe_sub maximum current;
  mret (if reserve <? s then reserve else s).

(** The supply for the miners is created and the fees are used. *)
Definition supply_miners (supply : Z) : M treasury () :=
  d ← on_books (get dynamic_data GRAPHENE_CORE_ASSET);
  t ← get_st;
  s ← lift (safe_add (current_supply d) supply);
  on_books (modify_st (λ l, set_supply GRAPHENE_CORE_ASSET s l d)) ;;
  m ← lift (safe_add (miner_supply (props t)) supply);
  w ← lift (safe_add (witness_supply (props t)) supply);
  f ← lift (safe_add (miner_fee_used (props t)) (accumulated_fees d));
  modify_st (λ t, set_props (add_miner_supply (props t) m w f) t) ;;
  d ← on_books (get dynamic_data GRAPHENE_CORE_ASSET);
  on_books (modify_st (λ l, set_fees GRAPHENE_CORE_ASSET 0 l d)).

(** The budget that the fees and the supply give towards [needed]. *)
Definition fund_miners (needed : Z) : M treasury Z :=
  d ← on_books (get dynamic_data GRAPHENE_CORE_ASSET);
  t ← get_st;
  if needed <=? accumulated_fees d then
    f ← lift (safe_sub (accumulated_fees d) needed);
    on_books (modify_st (λ l, set_fees GRAPHENE_CORE_ASSET f l d)) ;;
    u ← lift (safe_add (miner_fee_used (props t)) needed);
    modify_st (λ t, set_props (add_miner_fee (props t) u) t) ;;
    mret needed
  else
    missing ← lift (safe_sub needed (accumulated_fees d));
    supply ← lift (limit_supply missing GRAPHENE_MAX_SHARE_MINER (miner_supply (props t))
                     (max_supply (budget_params t)) (current_supply d));
    (if 0 <? supply then supply_miners supply else mret ()) ;;
    lift (safe_add supply (accumulated_fees d)).

Definition blocks_to_maint (t : treasury) : Z :=
  to_uint 64 (next_maintenance_time (props t) - now t + block_interval (budget_params t) - 1)
  / block_interval (budget_params t).

Definition budget_miners : M treasury budget_record :=
  t ← get_st;
  d ← on_books (get dynamic_data GRAPHENE_CORE_ASSET);
  reserve ← lift (safe_sub (max_supply (budget_params t)) (current_supply d));
  let rec := mk_record reserve (accumulated_fees d) 0 (witness_budget (props t)) 0 0 in
  if (last_budget_time (props t) =? 0) || (now t <=? last_budget_time (props t)) then mret rec
  else
    let pay := to_sint 64 (to_uint 64 (witness_pay_per_block (budget_params t) * blocks_to_maint t)) in
    needed ← lift (safe_sub pay (from_unused_miner_budget rec));
    b ← fund_miners needed;
    b ← lift (safe_add b (from_unused_miner_budget rec));
    mret (with_witness_budget b rec).

(** ** [pay_workers] *)

Definition distance (t : treasury) : Z := (now t - last_budget_time (props t)) * 1000000.

Definition is_active (t : treasury) (w : worker_object) : bool :=
  (if HARDFORK_191001_TIME <=? now t then worker_active_ok w (now t) else worker_active w (now t)) && is_approved w.

Definition by_id (a b : Z * worker_object) : Prop := a.1 ≤ b.1.
#[export] Instance by_id_dec a b : Decision (by_id a b).
Proof. unfold by_id. apply _. Defined.

(** The workers to pay, in the order of their identifiers, and what they ask for. *)
Definition active_workers (t : treasury) : list (Z * worker_object) :=
  filter (λ p, is_active t p.2 = true) (merge_sort by_id (map_to_list (workers t))).

Fixpoint requested (dis : Z) (ws : list (Z * worker_object)) (budget_amount : Z) : result Z :=
  match ws with
  | [] => Ok budget_amount
  | (_, w) :: ws =>
      b ← get_budget (daily_pay w) dis;
      budget_amount ← safe_add budget_amount b;
      requested dis ws budget_amount
  end.

(** The order of payment: the votes first, then the identifiers. *)
Definition paid_before (a b : Z * worker_object) : Prop :=
  if decide (approving_stake a.2 = approving_stake b.2) then a.1 ≤ b.1
  else approving_stake b.2 < approving_stake a.2.
#[export] Instance paid_before_dec a b : Decision (paid_before a b).
Proof. unfold paid_before. destruct (decide _); apply _. Defined.

Definition add_budget_fees (p : budget_properties) (used : Z) : budget_properties :=
  mk_budget_properties (next_maintenance_time p) (last_budget_time p) (witness_budget p) (worker_budget_supply p)
    (worker_payed p) (witness_supply p) (worker_supply p) (miner_supply p) (miner_fee_used p) (budget_supply p) used.

Definition add_budget_supply (p : budget_properties) (total supply wsupply used : Z) : budget_properties :=
  mk_budget_properties (next_maintenance_time p) (last_budget_time p) (witness_budget p) supply
    (worker_payed p) (witness_supply p) wsupply (miner_supply p) (miner_fee_used p) total used.

Definition add_worker_payed (p : budget_properties) (payed : Z) : budget_properties :=
  mk_budget_properties (next_maintenance_time p) (last_budget_time p) (witness_budget p) (worker_budget_supply p)
    payed (witness_supply p) (worker_supply p) (miner_supply p) (miner_fee_used p) (budget_supply p) (budget_fees_used p).

Definition core (n : Z) : asset := mk_asset n GRAPHENE_CORE_ASSET.

Definition take_platform_fees (n : Z) : M treasury () :=
  m ← lift (safe_neg n);
  on_books (adjust_balance 47 "" GRAPHENE_PLATFORM_ACCOUNT (core m)).

Definition supply_workers (supply platform : Z) : M treasury () :=
  d ← on_books (get dynamic_data GRAPHENE_CORE_ASSET);
  t ← get_st;
  s ← lift (safe_add (current_supply d) supply);
  on_books (modify_st (λ l, set_supply GRAPHENE_CORE_ASSET s l d)) ;;
  b ← lift (safe_add (budget_supply (props t)) supply);
  w ← lift (safe_add (worker_supply (props t)) supply);
  f ← lift (safe_add (budget_fees_used (props t)) platform);
  modify_st (λ t, set_props (add_budget_supply (props t) b supply w f) t) ;;
  take_platform_fees platform.

(** What the platform fees and the supply give towards [budget_amount]. *)
Definition fund_workers (budget_amount : Z) : M treasury Z :=
  d ← on_books (get dynamic_data GRAPHENE_CORE_ASSET);
  t ← get_st;
  let platform := amount (get_balance GRAPHENE_PLATFORM_ACCOUNT GRAPHENE_CORE_ASSET (books t)) in
  if budget_amount <=? platform then
    take_platform_fees budget_amount ;;
    t ← get_st;
    u ← lift (safe_add (budget_fees_used (props t)) budget_amount);
    modify_st (λ t, set_props (add_budget_fees (props t) u) t) ;;
    mret budget_amount
  else
    missing ← lift (safe_sub budget_amount platform);
    supply ← lift (limit_supply missing GRAPHENE_MAX_SHARE_BUDGET (budget_supply (props t))
                     (max_supply (budget_params t)) (current_supply d));
    (if 0 <? supply then supply_workers supply platform else mret ()) ;;
    lift (safe_add supply platform).

Definition set_paid (w : worker_object) (wt : worker_type) (total pay time : Z) : worker_object :=
  mk_worker (worker_account w) (work_begin_date w) (work_end_date w) (daily_pay w) wt (vote_for w) (vote_against w)
    (total_votes_for w) (total_votes_against w) (need_pay w) total pay time (is_approved w).

(** One payment; what is left of [budget_amount] after it. *)
Definition pay_one (dis budget_amount budget_pay i : Z) : M treasury Z :=
  t ← get_st;
  w ← lift (match workers t !! i with Some w => Ok w | None => Throw other_exception end);
  requested_pay ← lift (get_budget (daily_pay w) dis);
  left ← lift (safe_sub budget_amount budget_pay);
  let actual_pay := Z.min left requested_pay in
  if 0 <? actual_pay then
    wt ← pay_worker (worker w) actual_pay;
    total ← lift (safe_add (total_pay w) actual_pay);
    modify_st (λ t, set_workers (<[i := set_paid w wt total actual_pay (now t)]> (workers t)) t) ;;
    lift (safe_add budget_pay actual_pay)
  else mret budget_pay.

Fixpoint pay_all (dis budget_amount budget_pay : Z) (ids : list Z) : M treasury () :=
  match ids with
  | [] => assert_st (budget_pay <=? budget_amount)
  | i :: ids =>
      budget_pay ← pay_one dis budget_amount budget_pay i;
      pay_all dis budget_amount budget_pay ids
  end.

Definition with_worker_budget (b platform : Z) (r : budget_record) : budget_record :=
  mk_record (from_initial_reserve r) (from_accumulated_fees r) platform (from_unused_miner_budget r) (miner_budget r) b.

Definition pay_workers (r : budget_record) : M treasury budget_record :=
  t ← get_st;
  let dis := distance t in
  let ws := active_workers t in
  asked ← lift (requested dis ws 0);
  max_pay ← lift (get_budget (max_worker_budget_per_day (budget_params t)) dis);
  let asked := if max_pay <? asked then max_pay else asked in
  let platform := amount (get_balance GRAPHENE_PLATFORM_ACCOUNT GRAPHENE_CORE_ASSET (books t)) in
  budget_amount ← fund_workers asked;
  t ← get_st;
  payed ← lift (safe_add (worker_payed (props t)) budget_amount);
  modify_st (λ t, set_props (add_worker_payed (props t) payed) t) ;;
  (if 0 <? budget_amount then pay_all dis budget_amount 0 (merge_sort paid_before ws).*1 else mret ()) ;;
  mret (with_worker_budget budget_amount platform r).

(** ** [process_budget] *)

Definition end_budget (p : budget_properties) (b time : Z) : budget_properties :=
  mk_budget_properties (next_maintenance_time p) time b (worker_budget_supply p)
    (worker_payed p) (witness_supply p) (worker_supply p) (miner_supply p) (miner_fee_used p) (budget_supply p) (budget_fees_used p).

Definition process_budget : M treasury () :=
  r ← budget_miners;
  r ← pay_workers r;
  modify_st (λ t, set_records (budget_records t ++ [(now t, r)]) t) ;;
  modify_st (λ t, set_props (end_budget (props t) (miner_budget r) (now t)) t).

(** ** [update_worker_votes]: the workers that have ended are removed, the others get the
    votes of [_vote_worker_buffer], whose index is the instance of a vote identifier. *)
Definition set_votes (buffer : Z → Z) (time member : Z) (w : worker_object) : worker_object :=
  let v := mk_worker (worker_account w) (work_begin_date w) (work_end_date w) (daily_pay w) (worker w) (vote_for w)
             (vote_against w) (buffer (vote_for w)) (if time <? HARDFORK_300101_TIME then buffer (vote_against w) else 0)
             (need_pay w) (total_pay w) (last_pay w) (worker_budget_time w) (is_approved w) in
  mk_worker (worker_account v) (work_begin_date v) (work_end_date v) (daily_pay v) (worker v) (vote_for v)
    (vote_against v) (total_votes_for v) (total_votes_against v) (need_pay v) (total_pay v) (last_pay v)
    (worker_budget_time v) (is_approving v member).

Definition update_worker_votes (buffer : Z → Z) (t : treasury) : treasury :=
  set_workers (omap (λ w, if work_end_date w <? now t then None
                          else Some (set_votes buffer (now t) (budget_member_count (budget_params t)) w)) (workers t)) t.
End Budget.

(** * Where the shares are *)

Definition fees_of (_ f : Z) : Z := f.

(** The core shares in balances, vesting balances, collected fees, the budget of the
    witnesses and the fees to exchange, less the recorded supply. *)
Definition funds (t : treasury) : Z :=
  wealth GRAPHENE_CORE_ASSET (books t) + accumulated GRAPHENE_CORE_ASSET (books t)
  + witness_budget (props t) + msum fees_of (exchange_fees t) - supply GRAPHENE_CORE_ASSET (books t).

Definition core_supply (t : treasury) : Z := supply GRAPHENE_CORE_ASSET (books t).
Definition core_fees (t : treasury) : Z := accumulated GRAPHENE_CORE_ASSET (books t).
Definition platform_fees (t : treasury) : Z := held (GRAPHENE_PLATFORM_ACCOUNT, GRAPHENE_CORE_ASSET) (books t).

Record props_typed (p : budget_properties) : Prop := mk_props_typed {
  ty_witness_budget : int64 (witness_budget p);
  ty_worker_payed : int64 (worker_payed p);
  ty_witness_supply : int64 (witness_supply p);
  ty_worker_supply : int64 (worker_supply p);
  ty_miner_supply : int64 (miner_supply p);
  ty_miner_fee_used : int64 (miner_fee_used p);
  ty_budget_supply : int64 (budget_supply p);
  ty_budget_fees_used : int64 (budget_fees_used p)
}.

Definition books_ok (l : ledger) : Prop := balances_ok l ∧ ledger_typed l.

(** Amounts are in their type. *)
Record treasury_ok (t : treasury) : Prop := mk_treasury_ok {
  ok_books : books_ok (books t);
  ok_props : props_typed (props t);
  ok_fees : ∀ a f, exchange_fees t !! a = Some f → int64 f;
  ok_max_supply : int64 (max_supply (budget_params t));
  ok_workers : ∀ i w, workers t !! i = Some w → int64 (total_pay w) ∧ int64 (daily_pay w)
}.

Lemma on_books_Ok {A} (m : M ledger A) t a t' :
  on_books m t = Ok (a, t') → ∃ l, m (books t) = Ok (a, l) ∧ t' = set_books l t.
Proof. unfold on_books. destruct (m (books t)) as [[b l]|]; [|done]. intros [= <- <-]. by exists l. Qed.

Lemma set_books_id t : set_books (books t) t = t.
Proof. by destruct t. Qed.

Lemma on_books_get {A} (index : ledger → gmap Z A) i t a t' :
  on_books (get index i) t = Ok (a, t') → index (books t) !! i = Some a ∧ t' = t.
Proof. intros (l & [Hi ->]%get_Ok & ->)%on_books_Ok. by rewrite set_books_id. Qed.

Lemma on_books_modify f t u t' : on_books (modify_st f) t = Ok (u, t') → t' = set_books (f (books t)) t.
Proof. intros (l & ->%modify_st_Ok & ->)%on_books_Ok. done. Qed.

Lemma get_st_Ok {S} (s a s' : S) : get_st s = Ok (a, s') → a = s ∧ s' = s.
Proof. by intros [= <- <-]. Qed.

(** Decompose a computation of the treasury that returned. *)
Ltac run_treasury :=
  repeat match goal with
  | H : (_ ≫= _) _ = Ok (_, _) |- _ => apply M_bind_Ok in H; destruct H as (?&?&?&H)
  | H : on_books (get _ _) _ = Ok (_, _) |- _ => apply on_books_get in H; destruct H as [? ->]
  | H : on_books (modify_st _) _ = Ok (_, _) |- _ => apply on_books_modify in H; subst
  | H : lift _ _ = Ok (_, _) |- _ => apply lift_Ok in H; destruct H as [H ->]
  | H : get_st _ = Ok (_, _) |- _ => apply get_st_Ok in H; destruct H as [-> ->]
  | H : modify_st _ _ = Ok (_, _) |- _ => apply modify_st_Ok in H; subst
  | H : mret _ _ = Ok (_, _) |- _ => injection H as H; subst
  | H : Throw _ _ = Ok _ |- _ => discriminate H
  end.

Lemma typed_core l d : ledger_typed l → dynamic_data l !! GRAPHENE_CORE_ASSET = Some d →
  int64 (current_supply d) ∧ int64 (accumulated_fees d) ∧
  supply GRAPHENE_CORE_ASSET l = current_supply d ∧ accumulated GRAPHENE_CORE_ASSET l = accumulated_fees d.
Proof.
  intros Hl Hd. destruct (ty_dynamic _ Hl _ _ Hd). unfold supply, accumulated. by rewrite Hd.
Qed.

(** Writing the dynamic data of the core asset. *)
Lemma write_core l d :
  books_ok l → int64 (current_supply d) → int64 (accumulated_fees d) →
  let l' := set_dynamic (<[GRAPHENE_CORE_ASSET := d]> (dynamic_data l)) l in
  books_ok l' ∧ wealth GRAPHENE_CORE_ASSET l' = wealth GRAPHENE_CORE_ASSET l ∧
  supply GRAPHENE_CORE_ASSET l' = current_supply d ∧ accumulated GRAPHENE_CORE_ASSET l' = accumulated_fees d.
Proof.
  intros [Hb [Hv Hn Hd]] Hs Hf l'. unfold l', supply, accumulated. cbn [dynamic_data set_dynamic].
  rewrite lookup_insert_eq. split_and!; [split; [done|]|done..]. constructor; [done|done|]. cbn [dynamic_data set_dynamic].
  intros j e. destruct (decide (j = GRAPHENE_CORE_ASSET)) as [->|Hj].
  - rewrite lookup_insert_eq. by intros [= <-].
  - rewrite lookup_insert_ne by done. apply Hd.
Qed.

(** A credit to a balance. *)
Lemma credit_books utype info acct n l u l' :
  books_ok l → int64 n → adjust_balance utype info acct (mk_asset n GRAPHENE_CORE_ASSET) l = Ok (u, l') →
  books_ok l' ∧ wealth GRAPHENE_CORE_ASSET l' = wealth GRAPHENE_CORE_ASSET l + n ∧
  dynamic_data l' = dynamic_data l ∧ head_block_time l' = head_block_time l.
Proof.
  intros [Hb Ht] Hn Hrun.
  destruct (adjust_balance_returned _ _ _ (mk_asset n GRAPHENE_CORE_ASSET) _ _ _ Hb Hn Hrun) as ([[-> Hz]|Hc] & Hp & Hi).
  { cbn in Hz. subst n. rewrite Z.add_0_r. by split_and!. }
  pose proof (credited_wealth GRAPHENE_CORE_ASSET acct (mk_asset n GRAPHENE_CORE_ASSET) l l' Hc) as Hw.
  pose proof (credited_balances _ _ _ _ Hb Hp Hi Hc) as Hb'. destruct Hc as [h ->].
  split_and!; [split; [done|]| |done|done].
  - destruct Ht as [Hv Hnx Hd]. by constructor.
  - rewrite Hw. unfold only. cbn. lia.
Qed.

(** [t'] is [t] after [pay] came to a worker: the budget is as it was. *)
Record paid_out (pay : Z) (t t' : treasury) : Prop := mk_paid_out {
  po_ok : treasury_ok t';
  po_funds : funds t' = funds t + pay;
  po_props : props t' = props t;
  po_params : budget_params t' = budget_params t;
  po_workers : workers t' = workers t;
  po_records : budget_records t' = budget_records t;
  po_supply : core_supply t' ≤ core_supply t
}.

Lemma paid_out_books pay t l :
  treasury_ok t → books_ok l →
  wealth GRAPHENE_CORE_ASSET l + accumulated GRAPHENE_CORE_ASSET l - supply GRAPHENE_CORE_ASSET l
  = wealth GRAPHENE_CORE_ASSET (books t) + accumulated GRAPHENE_CORE_ASSET (books t) - core_supply t + pay →
  supply GRAPHENE_CORE_ASSET l ≤ core_supply t → paid_out pay t (set_books l t).
Proof.
  intros [_ Hp Hf Hm Hw] Hl Hfunds Hs. split; try done. unfold funds, core_supply in *. cbn. lia.
Qed.

Section Payment.
Context `{Division128}.

Lemma pay_worker_funds w pay t w' t' :
  treasury_ok t → int64 pay → 0 ≤ pay → pay_worker w pay t = Ok (w', t') → paid_out pay t t'.
Proof.
  intros Hok Hpay Hpos Hrun. pose proof Hok as [[Hb Ht] Hp Hf Hm Hwk].
  destruct w as [burned|burned balance|burned|burned account]; unfold pay_worker in Hrun; run_treasury.
  - (* refund: the supply shrinks *)
    match goal with Hd : dynamic_data _ !! _ = Some ?d, Hsub : safe_sub _ _ = Ok _ |- _ =>
      destruct (typed_core _ d Ht Hd) as (Hs & Hac & HS & HA);
      destruct (safe_sub_Ok _ _ _ Hs Hpay Hsub) as [-> Hs'];
      destruct (write_core (books t) (mk_dyn (current_supply d - pay) (accumulated_fees d) (fee_pool d)))
        as (Hok' & Hw & HS' & HA'); [by split|done|done|] end.
    apply paid_out_books; [done|exact Hok'| |]; unfold core_supply, set_supply in *; rewrite HS'; cbn; [|lia].
    rewrite Hw, HA', HS, HA. cbn. lia.
  - (* a vesting balance *)
    match goal with Hv : vestings _ !! _ = Some ?v, Hd : deposit _ _ _ = Ok ?v' |- _ =>
      pose proof (ty_vesting _ Ht _ _ Hv) as Hvi;
      pose proof (deposit_int64 true _ (mk_asset pay GRAPHENE_CORE_ASSET) _ _ Hvi Hpay Hd) as Hv';
      destruct (deposit_funds true _ (mk_asset pay GRAPHENE_CORE_ASSET) _ _ Hvi Hpay Hd) as [Hid Hvb];
      apply paid_out_books; [done| | |unfold supply, core_supply; done];
        [split; [exact Hb|apply ledger_typed_vesting; [done|done|by eapply typed_id_below|lia]]|];
      rewrite (vesting_wealth_update _ _ v) by done end.
    rewrite Hvb. unfold only. cbn [asset_id amount] in *. rewrite <- Hid. cbn. unfold core_supply, supply, accumulated. cbn. lia.
  - (* the null account *)
    match goal with Ha : on_books (adjust_balance _ _ _ _) _ = Ok _ |- _ =>
      apply on_books_Ok in Ha as (l & Ha & ->); apply credit_books in Ha as (Hl & Hw & Hd & _); [|by split|done] end.
    apply paid_out_books; [done|done| |]; unfold core_supply, supply, accumulated in *; rewrite Hd; [|lia]. lia.
  - (* the fees to exchange *)
    match goal with Hadd : safe_add (default 0 _) _ = Ok _ |- _ => rename Hadd into Hsum end.
    assert (int64 (default 0 (exchange_fees t !! account))) as Hdef.
    { destruct (exchange_fees t !! account) as [f|] eqn:Hfa; [by eapply Hf|apply int64_0]. }
    destruct (safe_add_Ok _ _ _ Hdef Hpay Hsum) as [-> Hs]. split; try done; cbn.
    + split; try done. intros a f. cbn. destruct (decide (a = account)) as [->|].
      * rewrite lookup_insert_eq. by intros [= <-].
      * rewrite lookup_insert_ne by done. apply Hf.
    + unfold funds. cbn. destruct (exchange_fees t !! account) as [f|] eqn:Hfa; cbn.
      * rewrite (msum_insert _ _ _ f) by done. unfold fees_of. lia.
      * rewrite msum_insert_fresh by done. unfold fees_of. lia.
Qed.

Lemma get_budget_int64 pay dis r : int64 pay → get_budget pay dis = Ok r → int64 r.
Proof.
  unfold get_budget. intros Hp Hg. destruct (negb _); [|by injection Hg as <-].
  apply bind_Ok in Hg as (v & _ & [= <-]). apply to_sint_range.
Qed.

(** *** The payments: the workers in turn get what they ask for while there is something left *)

Fixpoint payroll (budget_amount budget_pay : Z) (asked : list Z) : list Z :=
  match asked with
  | [] => []
  | r :: asked =>
      let pay := Z.max 0 (Z.min (budget_amount - budget_pay) r) in
      pay :: payroll budget_amount (budget_pay + pay) asked
  end.

Lemma payroll_sum b p rs :
  p ≤ b → zsum (payroll b p rs) = Z.min (b - p) (zsum (Z.max 0 <$> rs)).
Proof.
  revert p. induction rs as [|r rs IH]; intros p Hp; [cbn; lia|].
  cbn [payroll]. rewrite fmap_cons, !zsum_cons, IH by lia.
  assert (0 ≤ zsum (Z.max 0 <$> rs)) as Hn by (apply zsum_nonneg, Forall_fmap, Forall_true; intros; cbn; lia).
  revert Hn. generalize (zsum (Z.max 0 <$> rs)). lia.
Qed.

Lemma payroll_nonneg b p rs : Forall (λ x, 0 ≤ x) (payroll b p rs).
Proof. revert p. induction rs as [|r rs IH]; intros p; cbn; constructor; [lia|apply IH]. Qed.

Definition total_paid (i : Z) (t : treasury) : Z := default 0 (total_pay <$> workers t !! i).

(** What the payments [pays] to the workers [ids] do. *)
Record payments (ids pays : list Z) (t t' : treasury) : Prop := mk_payments {
  pm_ok : treasury_ok t';
  pm_funds : funds t' = funds t + zsum pays;
  pm_props : props t' = props t;
  pm_params : budget_params t' = budget_params t;
  pm_records : budget_records t' = budget_records t;
  pm_supply : core_supply t' ≤ core_supply t;
  pm_paid : Forall2 (λ i pay, total_paid i t' = total_paid i t + pay) ids pays;
  pm_others : ∀ i, i ∉ ids → workers t' !! i = workers t !! i;
  pm_daily : ∀ i, daily_pay <$> workers t' !! i = daily_pay <$> workers t !! i
}.

Lemma pay_one_run dis b p i r w t p' t' :
  treasury_ok t → int64 b → 0 ≤ p ≤ b → workers t !! i = Some w → get_budget (daily_pay w) dis = Ok r →
  pay_one dis b p i t = Ok (p', t') →
  let pay := Z.max 0 (Z.min (b - p) r) in
  p' = p + pay ∧ payments [i] [pay] t t'.
Proof.
  intros Hok Hb Hp Hw Hr Hrun. assert (int64 p) as Hpi by int_lia.
  destruct (ok_workers _ Hok _ _ Hw) as [Htot Hday]. pose proof (get_budget_int64 _ _ _ Hday Hr) as Hri.
  unfold pay_one in Hrun. apply M_bind_Ok in Hrun as (? & ? & [-> ->]%get_st_Ok & Hrun).
  rewrite Hw in Hrun. apply M_bind_Ok in Hrun as (? & ? & [[= <-] ->]%lift_Ok & Hrun).
  rewrite Hr in Hrun. apply M_bind_Ok in Hrun as (? & ? & [[= <-] ->]%lift_Ok & Hrun).
  apply M_bind_Ok in Hrun as (lft & ? & [Hl ->]%lift_Ok & Hrun).
  destruct (safe_sub_Ok _ _ _ Hb Hpi Hl) as [-> _]. cbn zeta in *.
  destruct (Z.ltb_spec 0 (Z.min (b - p) r)) as [Hpos|Hneg].
  - rewrite Z.max_r by lia. set (pay := Z.min (b - p) r) in *. assert (int64 pay) as Hpay by int_lia.
    apply M_bind_Ok in Hrun as (wt & t1 & Hpw & Hrun).
    apply pay_worker_funds in Hpw as [Hok1 Hf1 Hp1 Hm1 Hw1 Hr1 Hs1]; [|done|done|lia].
    apply M_bind_Ok in Hrun as (tot & ? & [Ht ->]%lift_Ok & Hrun).
    destruct (safe_add_Ok _ _ _ Htot Hpay Ht) as [-> Htoti].
    apply M_bind_Ok in Hrun as (? & ? & ->%modify_st_Ok & Hrun). apply lift_Ok in Hrun as [Hs ->].
    destruct (safe_add_Ok _ _ _ Hpi Hpay Hs) as [-> _]. split; [done|].
    destruct Hok1 as [Hb1 Hpr1 Hfe1 Hmx1 Hwk1]. split; cbn; try done.
    + split; try done. intros j v. cbn. rewrite Hw1. destruct (decide (j = i)) as [->|].
      * rewrite lookup_insert_eq. intros [= <-]. by split.
      * rewrite lookup_insert_ne by done. apply Hok.
    + rewrite Z.add_0_r. exact Hf1.
    + constructor; [|constructor]. unfold total_paid. cbn. rewrite Hw1, lookup_insert_eq, Hw. done.
    + intros j Hj. rewrite Hw1, lookup_insert_ne; [done|]. set_solver.
    + intros j. rewrite Hw1. destruct (decide (j = i)) as [->|]; [by rewrite lookup_insert_eq, Hw|].
      by rewrite lookup_insert_ne by done.
  - rewrite Z.max_l by lia. injection Hrun as <- <-. split; [lia|].
    split; try done; cbn; [lia|]. constructor; [lia|constructor].
Qed.

Lemma payments_cons i ids pay pays t1 t2 t3 :
  i ∉ ids → payments [i] [pay] t1 t2 → payments ids pays t2 t3 → payments (i :: ids) (pay :: pays) t1 t3.
Proof.
  intros Hi [_ F1 P1 M1 R1 S1 D1 O1 Y1] [K2 F2 P2 M2 R2 S2 D2 O2 Y2].
  split; try congruence; cbn in *.
  - unfold zsum in *. cbn in *. lia.
  - lia.
  - constructor.
    + apply Forall2_cons in D1 as [D1 _]. unfold total_paid in *. by rewrite O2.
    + apply Forall2_same_length_lookup. pose proof (Forall2_length _ _ _ D2) as Hlen. split; [done|].
      intros k j q Hj Hq. pose proof (Forall2_lookup_lr _ _ _ _ _ _ D2 Hj Hq) as Hd. cbn in Hd. rewrite Hd.
      unfold total_paid. rewrite O1; [done|]. apply list_elem_of_lookup_2 in Hj. set_solver.
  - intros j Hj. rewrite O2, O1 by set_solver. done.
Qed.

(** The requests of the workers [ids]. *)
Definition requests (dis : Z) (t : treasury) (ids asked : list Z) : Prop :=
  Forall2 (λ i r, ∃ w, workers t !! i = Some w ∧ get_budget (daily_pay w) dis = Ok r) ids asked.

Lemma requests_daily dis t t' ids asked :
  (∀ i, daily_pay <$> workers t' !! i = daily_pay <$> workers t !! i) → requests dis t ids asked → requests dis t' ids asked.
Proof.
  intros Hd Hreq. eapply Forall2_impl; [exact Hreq|]. intros i r (w & Hw & Hr). specialize (Hd i). rewrite Hw in Hd.
  destruct (workers t' !! i) as [w'|]; [|done]. injection Hd as Hd. exists w'. by rewrite Hd.
Qed.

Lemma pay_all_run dis b p ids asked t u t' :
  treasury_ok t → int64 b → 0 ≤ p ≤ b → NoDup ids → requests dis t ids asked →
  pay_all dis b p ids t = Ok (u, t') → payments ids (payroll b p asked) t t'.
Proof.
  intros Hok Hb Hp Hnd Hreq. revert p t Hok Hp Hreq. revert asked.
  induction Hnd as [|i ids Hi _ IH]; intros asked p t Hok Hp Hreq Hrun.
  - apply Forall2_nil_inv_l in Hreq as ->. apply assert_st_Ok in Hrun as [_ ->].
    split; try done; cbn; lia.
  - apply Forall2_cons_inv_l in Hreq as (r & rs & (w & Hw & Hr) & Hreq & ->).
    cbn [pay_all] in Hrun. apply M_bind_Ok in Hrun as (p1 & t1 & H1 & Hrun).
    apply (pay_one_run _ _ _ _ r w) in H1 as [-> H1]; [|done..]. cbn [payroll].
    apply (payments_cons _ _ _ _ _ t1); [done|done|]. apply IH; [apply H1|lia| |done].
    eapply requests_daily; [apply H1|done].
Qed.
End Payment.

(** * The funding *)

(** The limits of the supply: the maximum of the asset, 10% for the miners, 40% for the
    workers. *)
Record caps (t : treasury) : Prop := mk_caps {
  cap_supply : core_supply t ≤ max_supply (budget_params t);
  cap_miners : miner_supply (props t) ≤ GRAPHENE_MAX_SHARE_MINER;
  cap_workers : budget_supply (props t) ≤ GRAPHENE_MAX_SHARE_BUDGET
}.

(** There is something left of the supply for them. *)
Definition room_for_miners (t : treasury) : Prop :=
  core_supply t < max_supply (budget_params t) ∧ miner_supply (props t) < GRAPHENE_MAX_SHARE_MINER.
Definition room_for_workers (t : treasury) : Prop :=
  core_supply t < max_supply (budget_params t) ∧ budget_supply (props t) < GRAPHENE_MAX_SHARE_BUDGET.

(** The parts that funding leaves as they are. *)
Record same_rest (t t' : treasury) : Prop := mk_same_rest {
  rest_now : now t' = now t;
  rest_workers : workers t' = workers t;
  rest_params : budget_params t' = budget_params t;
  rest_records : budget_records t' = budget_records t;
  rest_exchange : exchange_fees t' = exchange_fees t;
  rest_witness : witness_budget (props t') = witness_budget (props t);
  rest_last : last_budget_time (props t') = last_budget_time (props t);
  rest_next : next_maintenance_time (props t') = next_maintenance_time (props t)
}.

#[export] Instance same_rest_reflexive : Reflexive same_rest.
Proof. by intros t. Qed.
#[export] Instance same_rest_transitive : Transitive same_rest.
Proof. intros t1 t2 t3 [] []. split; congruence. Qed.

Lemma limit_supply_spec needed share issued maximum current s :
  int64 share → int64 issued → int64 maximum → int64 current →
  limit_supply needed share issued maximum current = Ok s →
  s = Z.min needed (Z.min (share - issued) (maximum - current)).
Proof.
  intros Hs Hi Hm Hc Hl. unfold limit_supply in Hl.
  apply bind_Ok in Hl as (left & Hleft & Hl). apply bind_Ok in Hl as (reserve & Hres & Hl).
  destruct (safe_sub_Ok _ _ _ Hs Hi Hleft) as [-> _]. destruct (safe_sub_Ok _ _ _ Hm Hc Hres) as [-> _].
  injection Hl as <-. destruct (Z.ltb_spec (share - issued) needed);
    [destruct (Z.ltb_spec (maximum - current) (share - issued))|destruct (Z.ltb_spec (maximum - current) needed)]; lia.
Qed.

Section Funding.
Context `{Division128}.

(** Writing supply or fees of the core asset. *)
Lemma write_supply t d s :
  treasury_ok t → dynamic_data (books t) !! GRAPHENE_CORE_ASSET = Some d → int64 s →
  let t' := set_books (set_supply GRAPHENE_CORE_ASSET s (books t) d) t in
  treasury_ok t' ∧ funds t' = funds t - (s - core_supply t) ∧ core_supply t' = s ∧ core_fees t' = core_fees t ∧
  dynamic_data (books t') !! GRAPHENE_CORE_ASSET = Some (mk_dyn s (accumulated_fees d) (fee_pool d)) ∧
  balances (books t') = balances (books t).
Proof.
  intros [Hb Hp Hf Hm Hw] Hd Hs t'. destruct (typed_core _ _ (proj2 Hb) Hd) as (_ & Hac & HS & HA).
  destruct (write_core (books t) (mk_dyn s (accumulated_fees d) (fee_pool d)) Hb Hs Hac) as (Hb' & Hwe & HS' & HA').
  unfold t', funds, core_supply, core_fees, set_supply. cbn [books set_books props exchange_fees].
  rewrite Hwe, HS', HA', HA. cbn [current_supply accumulated_fees]. split_and!; try done; [lia|].
  cbn. by rewrite lookup_insert_eq.
Qed.

Lemma write_fees t d f :
  treasury_ok t → dynamic_data (books t) !! GRAPHENE_CORE_ASSET = Some d → int64 f →
  let t' := set_books (set_fees GRAPHENE_CORE_ASSET f (books t) d) t in
  treasury_ok t' ∧ funds t' = funds t + (f - core_fees t) ∧ core_supply t' = core_supply t.
Proof.
  intros [Hb Hp Hf Hm Hw] Hd Hs t'. destruct (typed_core _ _ (proj2 Hb) Hd) as (Hcs & _ & HS & HA).
  destruct (write_core (books t) (mk_dyn (current_supply d) f (fee_pool d)) Hb Hcs Hs) as (Hb' & Hwe & HS' & HA').
  unfold t', funds, core_supply, core_fees, set_fees. cbn [books set_books props exchange_fees].
  rewrite Hwe, HS', HA', HA, HS. cbn [current_supply accumulated_fees]. split_and!; try done. lia.
Qed.

(** Writing budget fields other than the budget of the witnesses. *)
Lemma write_props t p :
  treasury_ok t → props_typed p → witness_budget p = witness_budget (props t) →
  treasury_ok (set_props p t) ∧ funds (set_props p t) = funds t.
Proof. intros [Hb Hp Hf Hm Hw] Hp' Hwb. split; [by split|]. unfold funds. cbn. by rewrite Hwb. Qed.

Lemma supply_miners_run s t u t' :
  treasury_ok t → int64 s → supply_miners s t = Ok (u, t') →
  treasury_ok t' ∧ same_rest t t' ∧ funds t' = funds t - s - core_fees t ∧
  core_supply t' = core_supply t + s ∧ miner_supply (props t') = miner_supply (props t) + s ∧
  budget_supply (props t') = budget_supply (props t).
Proof.
  intros Hok Hs Hrun. pose proof Hok as [[_ Ht] [T1 T2 T3 T4 T5 T6 T7 T8] _ _ _]. unfold supply_miners in Hrun.
  apply M_bind_Ok in Hrun as (d & ? & [Hd ->]%on_books_get & Hrun).
  apply M_bind_Ok in Hrun as (? & ? & [-> ->]%get_st_Ok & Hrun).
  destruct (typed_core _ _ Ht Hd) as (Hcs & Hac & HS & HA).
  apply M_bind_Ok in Hrun as (sum & ? & [Hsum ->]%lift_Ok & Hrun).
  destruct (safe_add_Ok _ _ _ Hcs Hs Hsum) as [-> Hsi].
  apply M_bind_Ok in Hrun as (? & t1 & ->%on_books_modify & Hrun).
  destruct (write_supply t d (current_supply d + s) Hok Hd Hsi) as (Hok1 & Hf1 & Hs1 & Hc1 & Hd1 & _).
  set (t1 := set_books _ t) in *.
  apply M_bind_Ok in Hrun as (m & ? & [Hm ->]%lift_Ok & Hrun).
  apply M_bind_Ok in Hrun as (w & ? & [Hw ->]%lift_Ok & Hrun).
  apply M_bind_Ok in Hrun as (f & ? & [Hf ->]%lift_Ok & Hrun).
  destruct (safe_add_Ok _ _ _ T5 Hs Hm) as [-> Hmi]. destruct (safe_add_Ok _ _ _ T3 Hs Hw) as [-> Hwi].
  destruct (safe_add_Ok _ _ _ T6 Hac Hf) as [-> Hfi].
  apply M_bind_Ok in Hrun as (? & t2 & ->%modify_st_Ok & Hrun).
  set (p2 := add_miner_supply _ _ _ _) in *.
  destruct (write_props t1 p2) as [Hok2 Hf2]; [done|by constructor|done|].
  apply M_bind_Ok in Hrun as (d2 & ? & [Hd2 ->]%on_books_get & Hrun). apply on_books_modify in Hrun as ->.
  destruct (write_fees (set_props p2 t1) d2 0 Hok2 Hd2 int64_0) as (Hok3 & Hf3 & Hs3).
  split; [exact Hok3|]. split; [by split|]. split_and!; try done.
  - rewrite Hf3, Hf2, Hf1. change (core_fees (set_props p2 t1)) with (core_fees t1). rewrite Hc1. unfold core_supply. lia.
  - rewrite Hs3. change (core_supply (set_props p2 t1)) with (core_supply t1). rewrite Hs1. unfold core_supply. lia.
Qed.

Lemma fund_miners_run needed t b t' :
  treasury_ok t → caps t → int64 needed → fund_miners needed t = Ok (b, t') →
  treasury_ok t' ∧ same_rest t t' ∧ caps t' ∧ int64 b ∧ b ≤ needed ∧
  core_supply t ≤ core_supply t' ≤ core_supply t + Z.max 0 (GRAPHENE_MAX_SHARE_MINER - miner_supply (props t)) ∧
  budget_supply (props t') = budget_supply (props t) ∧
  (room_for_miners t → funds t' = funds t - b).
Proof.
  intros Hok Hcaps Hn Hrun. pose proof Hok as [[_ Ht] [T1 T2 T3 T4 T5 T6 T7 T8] _ Hmx _]. unfold fund_miners in Hrun.
  apply M_bind_Ok in Hrun as (d & ? & [Hd ->]%on_books_get & Hrun).
  apply M_bind_Ok in Hrun as (? & ? & [-> ->]%get_st_Ok & Hrun).
  destruct (typed_core _ _ Ht Hd) as (Hcs & Hac & HS & HA).
  destruct (Z.leb_spec needed (accumulated_fees d)) as [Hle|Hgt].
  - apply M_bind_Ok in Hrun as (f & ? & [Hf ->]%lift_Ok & Hrun).
    destruct (safe_sub_Ok _ _ _ Hac Hn Hf) as [-> Hfi].
    apply M_bind_Ok in Hrun as (? & t1 & ->%on_books_modify & Hrun).
    destruct (write_fees t d _ Hok Hd Hfi) as (Hok1 & Hf1 & Hs1). set (t1 := set_books _ t) in *.
    apply M_bind_Ok in Hrun as (m & ? & [Hm ->]%lift_Ok & Hrun).
    destruct (safe_add_Ok _ _ _ T6 Hn Hm) as [-> Hmi].
    apply M_bind_Ok in Hrun as (? & t2 & ->%modify_st_Ok & Hrun). injection Hrun as <- <-.
    destruct (write_props t1 (add_miner_fee (props t) (miner_fee_used (props t) + needed))) as [Hok2 Hf2];
      [done|by constructor|done|].
    destruct Hcaps as [C1 C2 C3]. split_and!; try done.
    + split; [|done|done]. change (core_supply t1 ≤ max_supply (budget_params t)). lia.
    + change (core_supply t ≤ core_supply t1). lia.
    + change (core_supply t1 ≤ core_supply t + Z.max 0 (GRAPHENE_MAX_SHARE_MINER - miner_supply (props t))). lia.
    + intros _. rewrite Hf2, Hf1. unfold core_fees. lia.
  - apply M_bind_Ok in Hrun as (miss & ? & [Hmiss ->]%lift_Ok & Hrun).
    destruct (safe_sub_Ok _ _ _ Hn Hac Hmiss) as [-> Hmi].
    apply M_bind_Ok in Hrun as (s & ? & [Hs ->]%lift_Ok & Hrun).
    assert (int64 GRAPHENE_MAX_SHARE_MINER) as HM by (unfold GRAPHENE_MAX_SHARE_MINER; int_lia).
    apply limit_supply_spec in Hs; [|done..]. rewrite <- HS in Hs. fold (core_supply t) in Hs.
    destruct Hcaps as [C1 C2 C3].
    assert (int64 s) as Hsi by int_lia.
    apply M_bind_Ok in Hrun as (? & t1 & Hrun1 & [Hb ->]%lift_Ok).
    destruct (safe_add_Ok _ _ _ Hsi Hac Hb) as [-> Hbi].
    destruct (Z.ltb_spec 0 s).
    + apply supply_miners_run in Hrun1 as (Hok1 & Hr1 & Hf1 & Hs1 & Hm1 & Hb1); [|done..].
      pose proof (rest_params _ _ Hr1) as Hpar. split_and!; try done; try lia.
      * split; rewrite ?Hpar; lia.
      * intros _. rewrite Hf1. unfold core_fees. lia.
    + injection Hrun1 as _ <-. split_and!; try done; try lia. intros [R1 R2]. lia.
Qed.

Lemma platform_fees_balance t :
  amount (get_balance GRAPHENE_PLATFORM_ACCOUNT GRAPHENE_CORE_ASSET (books t)) = platform_fees t.
Proof. by rewrite get_balance_held. Qed.

Lemma take_platform_fees_run n t u t' :
  treasury_ok t → int64 n → take_platform_fees n t = Ok (u, t') →
  treasury_ok t' ∧ props t' = props t ∧ same_rest t t' ∧ funds t' = funds t - n ∧ core_supply t' = core_supply t.
Proof.
  intros [Hb Hp Hf Hm Hw] Hn Hrun. unfold take_platform_fees in Hrun.
  apply M_bind_Ok in Hrun as (m & ? & [Hneg ->]%lift_Ok & (l & Ha & ->)%on_books_Ok).
  destruct (safe_neg_Ok _ _ Hn Hneg) as [-> Hni].
  destruct (credit_books _ _ _ _ _ _ _ Hb Hni Ha) as (Hl & Hwe & Hd & Hnow).
  split_and!; [by split|done|done| |].
  - unfold funds, accumulated, supply. cbn. rewrite Hwe, Hd. lia.
  - unfold core_supply, supply. cbn. by rewrite Hd.
Qed.

Lemma supply_workers_run s platform t u t' :
  treasury_ok t → int64 s → int64 platform → supply_workers s platform t = Ok (u, t') →
  treasury_ok t' ∧ same_rest t t' ∧ funds t' = funds t - s - platform ∧
  core_supply t' = core_supply t + s ∧ budget_supply (props t') = budget_supply (props t) + s ∧
  miner_supply (props t') = miner_supply (props t) ∧ worker_payed (props t') = worker_payed (props t).
Proof.
  intros Hok Hs Hpl Hrun. pose proof Hok as [[_ Ht] [T1 T2 T3 T4 T5 T6 T7 T8] _ _ _]. unfold supply_workers in Hrun.
  apply M_bind_Ok in Hrun as (d & ? & [Hd ->]%on_books_get & Hrun).
  apply M_bind_Ok in Hrun as (? & ? & [-> ->]%get_st_Ok & Hrun).
  destruct (typed_core _ _ Ht Hd) as (Hcs & Hac & HS & HA).
  apply M_bind_Ok in Hrun as (sum & ? & [Hsum ->]%lift_Ok & Hrun).
  destruct (safe_add_Ok _ _ _ Hcs Hs Hsum) as [-> Hsi].
  apply M_bind_Ok in Hrun as (? & t1 & ->%on_books_modify & Hrun).
  destruct (write_supply t d (current_supply d + s) Hok Hd Hsi) as (Hok1 & Hf1 & Hs1 & _ & _ & _).
  set (t1 := set_books _ t) in *.
  apply M_bind_Ok in Hrun as (b & ? & [Hb ->]%lift_Ok & Hrun).
  apply M_bind_Ok in Hrun as (w & ? & [Hw ->]%lift_Ok & Hrun).
  apply M_bind_Ok in Hrun as (f & ? & [Hf ->]%lift_Ok & Hrun).
  destruct (safe_add_Ok _ _ _ T7 Hs Hb) as [-> Hbi]. destruct (safe_add_Ok _ _ _ T4 Hs Hw) as [-> Hwi].
  destruct (safe_add_Ok _ _ _ T8 Hpl Hf) as [-> Hfi].
  apply M_bind_Ok in Hrun as (? & t2 & ->%modify_st_Ok & Hrun).
  set (p2 := add_budget_supply _ _ _ _ _) in *.
  destruct (write_props t1 p2) as [Hok2 Hf2]; [done|constructor; (exact Hs || done)|done|].
  apply take_platform_fees_run in Hrun as (Hok3 & Hp3 & Hr3 & Hf3 & Hs3); [|done|done].
  split_and!; try done; rewrite ?Hp3; try done.
  - etransitivity; [|exact Hr3]. by split.
  - rewrite Hf3, Hf2, Hf1. unfold core_supply. lia.
  - rewrite Hs3. change (core_supply (set_props p2 t1)) with (core_supply t1). rewrite Hs1. unfold core_supply. lia.
Qed.

Lemma fund_workers_run asked t b t' :
  treasury_ok t → caps t → int64 asked → 0 ≤ asked → fund_workers asked t = Ok (b, t') →
  treasury_ok t' ∧ same_rest t t' ∧ caps t' ∧ int64 b ∧ 0 ≤ b ≤ asked ∧
  miner_supply (props t') = miner_supply (props t) ∧ worker_payed (props t') = worker_payed (props t) ∧
  (room_for_workers t → funds t' = funds t - b).
Proof.
  intros Hok Hcaps Hn Hpos Hrun. pose proof Hok as [[Hbal Ht] [T1 T2 T3 T4 T5 T6 T7 T8] _ Hmx _].
  unfold fund_workers in Hrun.
  apply M_bind_Ok in Hrun as (d & ? & [Hd ->]%on_books_get & Hrun).
  apply M_bind_Ok in Hrun as (? & ? & [-> ->]%get_st_Ok & Hrun).
  destruct (typed_core _ _ Ht Hd) as (Hcs & Hac & HS & HA). cbn zeta in Hrun.
  rewrite platform_fees_balance in Hrun.
  destruct (held_ok (GRAPHENE_PLATFORM_ACCOUNT, GRAPHENE_CORE_ASSET) _ Hbal) as [Hp0 Hpi]. fold (platform_fees t) in Hp0, Hpi.
  destruct (Z.leb_spec asked (platform_fees t)) as [Hle|Hgt].
  - apply M_bind_Ok in Hrun as (? & t1 & Htake & Hrun).
    apply take_platform_fees_run in Htake as (Hok1 & Hp1 & Hr1 & Hf1 & Hs1); [|done|done].
    apply M_bind_Ok in Hrun as (? & ? & [-> ->]%get_st_Ok & Hrun). rewrite Hp1 in Hrun.
    apply M_bind_Ok in Hrun as (f & ? & [Hf ->]%lift_Ok & Hrun).
    destruct (safe_add_Ok _ _ _ T8 Hn Hf) as [-> Hfi].
    apply M_bind_Ok in Hrun as (? & t2 & ->%modify_st_Ok & Hrun). injection Hrun as <- <-. rewrite Hp1.
    destruct (write_props t1 (add_budget_fees (props t) (budget_fees_used (props t) + asked))) as [Hok2 Hf2];
      [done|by constructor|by rewrite Hp1|].
    pose proof (rest_params _ _ Hr1) as Hpar. destruct Hcaps as [C1 C2 C3]. split_and!; try done.
    + etransitivity; [exact Hr1|]. by split; cbn; rewrite ?Hp1.
    + split; cbn; [|done|done]. change (core_supply t1 ≤ max_supply (budget_params t1)). by rewrite Hpar, Hs1.
    + intros _. by rewrite Hf2, Hf1.
  - apply M_bind_Ok in Hrun as (miss & ? & [Hmiss ->]%lift_Ok & Hrun).
    destruct (safe_sub_Ok _ _ _ Hn Hpi Hmiss) as [-> Hmi].
    apply M_bind_Ok in Hrun as (s & ? & [Hs ->]%lift_Ok & Hrun).
    assert (int64 GRAPHENE_MAX_SHARE_BUDGET) as HM by (unfold GRAPHENE_MAX_SHARE_BUDGET; int_lia).
    apply limit_supply_spec in Hs; [|done..]. rewrite <- HS in Hs. fold (core_supply t) in Hs.
    destruct Hcaps as [C1 C2 C3].
    assert (int64 s) as Hsi by int_lia.
    apply M_bind_Ok in Hrun as (? & t1 & Hrun1 & [Hb ->]%lift_Ok).
    destruct (safe_add_Ok _ _ _ Hsi Hpi Hb) as [-> Hbi].
    destruct (Z.ltb_spec 0 s).
    + apply supply_workers_run in Hrun1 as (Hok1 & Hr1 & Hf1 & Hs1 & Hb1 & Hm1 & Hw1); [|done..].
      pose proof (rest_params _ _ Hr1) as Hpar. split_and!; try done; try lia.
      split; rewrite ?Hpar; lia.
    + injection Hrun1 as _ <-. split_and!; try done; try lia. intros [R1 R2]. lia.
Qed.
End Funding.

(** * Paying the workers *)

Section Payroll.
Context `{Division128}.

(** What a worker asks for. *)
Definition ask (dis : Z) (p : Z * worker_object) : Z :=
  match get_budget (daily_pay p.2) dis with Ok r => r | Throw _ => 0 end.

Lemma requested_sum dis ws n s :
  Forall (λ p, int64 (daily_pay p.2)) ws → int64 n → requested dis ws n = Ok s →
  int64 s ∧ s = n + zsum (ask dis <$> ws) ∧ Forall (λ p, get_budget (daily_pay p.2) dis = Ok (ask dis p)) ws.
Proof.
  intros Hws. revert n. induction Hws as [|[i w] ws Hw _ IH]; intros n Hn Hs.
  { injection Hs as <-. cbn. split_and!; [done|lia|constructor]. }
  cbn [requested] in Hs. apply bind_Ok in Hs as (b & Hb & Hs). apply bind_Ok in Hs as (n' & Hn' & Hs).
  cbn in Hw. pose proof (get_budget_int64 _ _ _ Hw Hb) as Hbi. destruct (safe_add_Ok _ _ _ Hn Hbi Hn') as [-> Hni].
  destruct (IH _ Hni Hs) as (Hsi & -> & Hall). split; [done|].
  assert (ask dis (i, w) = b) as Hask by (unfold ask; cbn; by rewrite Hb).
  rewrite fmap_cons, zsum_cons, Hask. split; [lia|]. constructor; [cbn; by rewrite Hask|done].
Qed.

Lemma active_workers_spec t : NoDup (active_workers t).*1 ∧
  ∀ p, p ∈ active_workers t ↔ workers t !! p.1 = Some p.2 ∧ is_active t p.2 = true.
Proof.
  unfold active_workers. split.
  - eapply sublist_NoDup; [|apply fmap_sublist, sublist_filter].
    rewrite merge_sort_Permutation. apply NoDup_fst_map_to_list.
  - intros [i w]. rewrite list_elem_of_filter, merge_sort_Permutation, elem_of_map_to_list. cbn. tauto.
Qed.

#[export] Instance paid_before_total : Total paid_before.
Proof. intros [i v] [j w]. unfold paid_before. cbn. repeat case_decide; lia. Qed.
#[export] Instance paid_before_transitive : Transitive paid_before.
Proof. intros [i u] [j v] [k w]. unfold paid_before. cbn. repeat case_decide; lia. Qed.

(** The interval since the last budget, in which nobody asks for a negative pay. *)
Definition asks_ok (t : treasury) : Prop :=
  Forall (λ p, 0 ≤ ask (distance t) p) (active_workers t) ∧
  int64 (max_worker_budget_per_day (budget_params t)) ∧
  ∀ m, get_budget (max_worker_budget_per_day (budget_params t)) (distance t) = Ok m → 0 ≤ m.

(** The workers [order] were paid [b] together, in this order. *)
Record paid_workers (b : Z) (order : list (Z * worker_object)) (t t' : treasury) : Prop := mk_paid_workers {
  pd_active : order ≡ₚ active_workers t;
  pd_order : StronglySorted paid_before order;
  pd_asked : 0 ≤ b ≤ zsum (ask (distance t) <$> order);
  pd_limit : ∀ m, get_budget (max_worker_budget_per_day (budget_params t)) (distance t) = Ok m → b ≤ m;
  pd_sum : zsum (payroll b 0 (ask (distance t) <$> order)) = b;
  pd_paid : Forall2 (λ i pay, total_paid i t' = total_paid i t + pay) order.*1
              (payroll b 0 (ask (distance t) <$> order));
  pd_others : ∀ i, i ∉ order.*1 → workers t' !! i = workers t !! i
}.

Lemma zsum_max_id l : Forall (λ x, 0 ≤ x) l → zsum (Z.max 0 <$> l) = zsum l.
Proof.
  induction 1 as [|x l Hx _ IH]; [done|]. rewrite fmap_cons, !zsum_cons, IH. lia.
Qed.

Lemma write_payed t n :
  treasury_ok t → int64 n → let t' := set_props (add_worker_payed (props t) n) t in
  treasury_ok t' ∧ funds t' = funds t.
Proof.
  intros Hok Hn t'. apply write_props; [done| |done]. destruct (ok_props _ Hok). by constructor.
Qed.

Lemma pay_all_from dis b order t u t' :
  treasury_ok t → int64 b → 0 ≤ b → b ≤ zsum (ask dis <$> order) → NoDup order.*1 →
  Forall (λ p, workers t !! p.1 = Some p.2 ∧ get_budget (daily_pay p.2) dis = Ok (ask dis p) ∧ 0 ≤ ask dis p) order →
  (if 0 <? b then pay_all dis b 0 order.*1 else mret ()) t = Ok (u, t') →
  payments order.*1 (payroll b 0 (ask dis <$> order)) t t' ∧ zsum (payroll b 0 (ask dis <$> order)) = b.
Proof.
  intros Hok Hb H0b Hle Hnd Hall Hrun.
  assert (Forall (λ x, 0 ≤ x) (ask dis <$> order)) as Hpos.
  { apply Forall_fmap. eapply Forall_impl; [exact Hall|]. by intros p (_ & _ & ?). }
  split; [|rewrite payroll_sum, zsum_max_id by done; lia].
  destruct (Z.ltb_spec 0 b) as [Hb0|Hb0].
  - eapply pay_all_run; [done|done|lia|done| |exact Hrun]. unfold requests.
    apply Forall2_fmap. clear -Hall. induction Hall as [|p l (Hw & Hg & _) _ IH]; constructor; [|done].
    by exists p.2.
  - assert (b = 0) as -> by lia. injection Hrun as _ <-.
    assert (payroll 0 0 (ask dis <$> order) = replicate (length order) 0) as ->.
    { clear -Hpos. induction order as [|p l IH]; [done|]. apply Forall_cons in Hpos as [Hp Hl].
      cbn. rewrite Z.max_l by lia. f_equal. by apply IH. }
    split; try done.
    + assert (zsum (replicate (length order) 0) = 0) as ->; [|lia].
      induction (length order) as [|n IH]; [done|]. cbn [replicate]. by rewrite zsum_cons, IH.
    + clear. induction order as [|p l IH]; constructor; [lia|done].
Qed.

Lemma pay_workers_run r t r' t' :
  treasury_ok t → caps t → asks_ok t → pay_workers r t = Ok (r', t') →
  ∃ order, paid_workers (record_worker_budget r') order t t' ∧
    treasury_ok t' ∧ caps t' ∧ witness_budget (props t') = witness_budget (props t) ∧
    miner_budget r' = miner_budget r ∧ (room_for_workers t → funds t' = funds t).
Proof.
  intros Hok Hcaps (Hpos & Hmi & Hmax) Hrun. unfold pay_workers in Hrun.
  apply M_bind_Ok in Hrun as (? & ? & [-> ->]%get_st_Ok & Hrun). cbn zeta in Hrun.
  apply M_bind_Ok in Hrun as (asked & ? & [Hasked ->]%lift_Ok & Hrun).
  apply M_bind_Ok in Hrun as (m & ? & [Hm ->]%lift_Ok & Hrun). rewrite platform_fees_balance in Hrun.
  destruct (active_workers_spec t) as [Hnd Hact]. set (dis := distance t) in *.
  assert (Forall (λ p, int64 (daily_pay p.2)) (active_workers t)) as Hdaily.
  { apply Forall_forall. intros p [Hw _]%Hact. by apply (ok_workers _ Hok) in Hw as []. }
  destruct (requested_sum _ _ _ _ Hdaily int64_0 Hasked) as (Hai & Hsum & Hask). rewrite Z.add_0_l in Hsum.
  pose proof (get_budget_int64 _ _ _ Hmi Hm) as Hmint. pose proof (Hmax _ Hm) as Hm0.
  assert (0 ≤ asked) as Ha0 by (subst asked; by apply zsum_nonneg, Forall_fmap).
  set (wanted := if m <? asked then m else asked) in *.
  assert (wanted = Z.min m asked) as Hwanted by (unfold wanted; destruct (Z.ltb_spec m asked); lia).
  apply M_bind_Ok in Hrun as (b & t1 & Hfund & Hrun).
  apply fund_workers_run in Hfund as (Hok1 & Hr1 & Hc1 & Hbi & Hb & Hms1 & Hwp1 & Hf1);
    [|done|done|by rewrite Hwanted; int_lia|lia].
  apply M_bind_Ok in Hrun as (? & ? & [-> ->]%get_st_Ok & Hrun).
  apply M_bind_Ok in Hrun as (payed & ? & [Hpayed ->]%lift_Ok & Hrun).
  destruct (safe_add_Ok _ _ _ (ty_worker_payed _ (ok_props _ Hok1)) Hbi Hpayed) as [-> Hpi].
  apply M_bind_Ok in Hrun as (? & t2 & ->%modify_st_Ok & Hrun).
  destruct (write_payed t1 _ Hok1 Hpi) as [Hok2 Hf2]. set (t2 := set_props _ t1) in *.
  apply M_bind_Ok in Hrun as (? & t3 & Hpay & Hrun). injection Hrun as <- <-.
  pose proof (rest_workers _ _ Hr1) as Hw1. pose proof (rest_params _ _ Hr1) as Hpar1.
  set (order := merge_sort paid_before (active_workers t)) in *.
  assert (order ≡ₚ active_workers t) as Hperm by apply merge_sort_Permutation.
  apply pay_all_from in Hpay as [[Hok3 F3 P3 M3 R3 S3 D3 O3 Y3] Hsum3]; [|done|done|lia| | |].
  - exists order. cbn [record_worker_budget with_worker_budget miner_budget]. destruct Hc1 as [C1 C2 C3].
    assert (∀ i, workers t2 !! i = workers t !! i) as Hw2 by (intros i; unfold t2; cbn; by rewrite Hw1).
    split_and!; try done.
    + split; try done.
      * apply StronglySorted_merge_sort; apply _.
      * rewrite Hperm. fold dis. lia.
      * intros m' Hm'. fold dis in Hm'. rewrite Hm in Hm'. injection Hm' as <-. lia.
      * eapply Forall2_impl; [exact D3|]. intros i pay. cbn. unfold total_paid. by rewrite Hw2.
      * intros i Hi. by rewrite O3, Hw2.
    + split.
      * rewrite M3. unfold t2. cbn. rewrite Hpar1. change (core_supply t2) with (core_supply t1) in S3.
        rewrite Hpar1 in C1. lia.
      * rewrite P3. exact C2.
      * rewrite P3. exact C3.
    + rewrite P3. exact (rest_witness _ _ Hr1).
    + intros Hroom. rewrite F3, Hsum3, Hf2, (Hf1 Hroom). lia.
  - rewrite Hperm, <- Hsum. lia.
  - by rewrite Hperm.
  - rewrite Hperm. apply Forall_forall. intros p Hp. rewrite Forall_forall in Hask, Hpos. split_and!.
    + unfold t2. cbn. rewrite Hw1. by apply Hact in Hp as [? _].
    + by apply Hask.
    + by apply Hpos.
Qed.
End Payroll.

Section Process.
Context `{Division128}.

Lemma budget_miners_run t r t' :
  treasury_ok t → caps t → 0 < last_budget_time (props t) < now t → budget_miners t = Ok (r, t') →
  treasury_ok t' ∧ same_rest t t' ∧ caps t' ∧ int64 (miner_budget r) ∧
  core_supply t' ≤ core_supply t + (GRAPHENE_MAX_SHARE_MINER - miner_supply (props t)) ∧
  budget_supply (props t') = budget_supply (props t) ∧
  (room_for_miners t → funds t' = funds t - (miner_budget r - witness_budget (props t))).
Proof.
  intros Hok Hcaps Hlast Hrun. pose proof Hok as [[_ Ht] [T1 _ _ _ _ _ _ _] _ Hmx _]. unfold budget_miners in Hrun.
  apply M_bind_Ok in Hrun as (? & ? & [-> ->]%get_st_Ok & Hrun).
  apply M_bind_Ok in Hrun as (d & ? & [Hd ->]%on_books_get & Hrun).
  apply M_bind_Ok in Hrun as (reserve & ? & [Hres ->]%lift_Ok & Hrun). cbn zeta in Hrun.
  destruct (Z.eqb_spec (last_budget_time (props t)) 0); [lia|].
  destruct (Z.leb_spec (now t) (last_budget_time (props t))); [lia|]. cbn [orb] in Hrun.
  apply M_bind_Ok in Hrun as (needed & ? & [Hneed ->]%lift_Ok & Hrun).
  destruct (safe_sub_Ok _ _ _ (to_sint_range _) T1 Hneed) as [-> Hni].
  apply M_bind_Ok in Hrun as (b & t1 & Hfund & Hrun).
  apply fund_miners_run in Hfund as (Hok1 & Hr1 & Hc1 & Hbi & _ & Hs1 & Hb1 & Hf1); [|done..].
  apply M_bind_Ok in Hrun as (total & ? & [Htot ->]%lift_Ok & Hrun). injection Hrun as <- <-.
  destruct (safe_add_Ok _ _ _ Hbi T1 Htot) as [-> Hti]. cbn [miner_budget with_witness_budget from_unused_miner_budget].
  destruct Hcaps as [C1 C2 C3]. split_and!; try done; [lia|]. intros Hroom. rewrite (Hf1 Hroom). lia.
Qed.

(** C14: the budget of a maintenance interval moves shares and creates no more than it
    records: collected fees, platform fees and new supply become the budget of the
    witnesses and the pay of the workers.  The supply stays within the maximum and within
    the shares of the miners and the workers, and the payments are within the daily
    limit.  It takes that the supply is not used up: see [exhausted_supply_creates_funds]. *)
Theorem process_budget_conserves t u t' :
  treasury_ok t → caps t → asks_ok t → 0 < last_budget_time (props t) < now t →
  room_for_miners t → room_for_workers t →
  core_supply t + (GRAPHENE_MAX_SHARE_MINER - miner_supply (props t)) < max_supply (budget_params t) →
  process_budget t = Ok (u, t') →
  funds t' = funds t ∧ treasury_ok t' ∧ caps t'.
Proof.
  intros Hok Hcaps Hasks Hlast Hroom [_ Hroomw] Hleft Hrun. unfold process_budget in Hrun.
  apply M_bind_Ok in Hrun as (r & t1 & H1 & Hrun).
  apply budget_miners_run in H1 as (Hok1 & Hr1 & Hc1 & Hbi & Hs1 & Hb1 & Hf1); [|done..].
  apply M_bind_Ok in Hrun as (r' & t2 & H2 & Hrun).
  destruct Hr1 as [T1 W1 P1 R1 X1 B1 L1 N1].
  assert (asks_ok t1) as Hasks1.
  { unfold asks_ok, distance, active_workers, is_active in *. by rewrite T1, W1, P1, L1. }
  apply pay_workers_run in H2 as (order & Hpaid & Hok2 & Hc2 & B2 & Hmb & Hf2); [|done..].
  apply M_bind_Ok in Hrun as (? & t3 & ->%modify_st_Ok & ->%modify_st_Ok). rewrite Hmb. split_and!.
  - assert (room_for_workers t1) as Hroom1 by (unfold room_for_workers; rewrite P1, Hb1; split; [lia|done]).
    specialize (Hf1 Hroom). specialize (Hf2 Hroom1). unfold funds in *. cbn in *. lia.
  - destruct Hok2 as [K1 [] K3 K4 K5]. by split; [|constructor|..].
  - by destruct Hc2.
Qed.

(** The workers are paid in the order of their votes, then of their identifiers: each
    of them gets what it asks for, or what is left of the budget.  The budget is spent, is
    never more than they ask for together nor than the daily limit allows, and the other
    workers get nothing. *)
Theorem workers_paid_by_votes r t r' t' :
  treasury_ok t → caps t → asks_ok t → pay_workers r t = Ok (r', t') →
  ∃ order, paid_workers (record_worker_budget r') order t t'.
Proof.
  intros Hok Hcaps Hasks Hrun. destruct (pay_workers_run _ _ _ _ Hok Hcaps Hasks Hrun) as (order & Hp & _).
  by exists order.
Qed.
End Process.

(** * Examples: what the code does wrong, and witnesses *)
Module BudgetExample.

(** At time 1000, 500 seconds after the last budget; 100 collected fees, 50 platform fees,
    and two approved workers that ask for 86400 and 43200 a day. *)
Definition worker_of (wt : worker_type) (pay votes : Z) : worker_object :=
  mk_worker 7 0 2000 pay wt 1 2 votes 0 0 0 0 0 true.

Definition vesting_of_worker : vesting_balance_object :=
  mk_vbo 7 0 (mk_asset 0 0) (cdd (mk_cdd 1000 (of_int64 0) 0 500)) false.

Definition some_books : ledger :=
  mk_ledger (<[(6, 0) := 50]> {[ (7, 0) := 800 ]}) {[ 0 := vesting_of_worker ]} 1 {[ 0 := mk_dyn 1000 100 0 ]}
    {[ 7 := mk_account 7 7 7 2000 3000 5000 None 0 ]} {[ 7 := demo_stats ]} ∅ 1000 0 0 (mk_params 100 100 50 5 50) false [].

Definition example (maximum : Z) : treasury :=
  mk_treasury some_books (mk_budget_properties 1100 500 0 0 0 0 0 0 0 0 0)
    (<[1 := worker_of (vesting_balance_worker 0 0) 86400 5]> {[ 2 := worker_of (burn_worker 0) 43200 9 ]}) ∅
    (mk_budget_parameters maximum 5 10 86400 3) [].

Definition after (t : treasury) : treasury :=
  match process_budget t with Ok (_, t') => t' | Throw _ => t end.

(** When the supply is used up, the budget still counts the collected fees and the
    platform fees, but they stay where they are: 150 shares appear. *)
Theorem exhausted_supply_creates_funds :
  is_ok (process_budget (example 1000)) = true ∧
  funds (after (example 1000)) = funds (example 1000) + 100 + 50 ∧
  core_fees (after (example 1000)) = 100 ∧ platform_fees (after (example 1000)) = 50 ∧
  core_supply (after (example 1000)) = 1000.
Proof. vm_compute. split_and!; reflexivity. Qed.

Definition plenty : treasury := example 80000000000000.

(** They ask for 500 and 250, the limit for the interval is 500: the worker with more
    votes comes first. *)
Example both_workers_paid :
  total_paid 2 (after plenty) = 250 ∧ total_paid 1 (after plenty) = 250 ∧ witness_budget (props (after plenty)) = 200.
Proof. vm_compute. split_and!; reflexivity. Qed.

Lemma plenty_ok : treasury_ok plenty.
Proof.
  split.
  - split.
    + intros k b. cbn [plenty example books some_books balances].
      intros [[<- <-]|[_ [<- <-]%lookup_singleton_Some]]%lookup_insert_Some; int_lia.
    + split.
      * intros i v. cbn. intros [<- <-]%lookup_singleton_Some. cbn. int_lia.
      * intros i Hi. cbn in *. rewrite lookup_singleton_ne by lia. done.
      * intros i d. cbn. intros [<- <-]%lookup_singleton_Some. cbn. int_lia.
  - constructor; cbn; int_lia.
  - intros a f. cbn. by rewrite lookup_empty.
  - cbn. int_lia.
  - intros i w. cbn [plenty example workers].
    intros [[<- <-]|[_ [<- <-]%lookup_singleton_Some]]%lookup_insert_Some; cbn [worker_of total_pay daily_pay]; int_lia.
Qed.

Lemma plenty_caps : caps plenty.
Proof. constructor; vm_compute; discriminate. Qed.

Lemma plenty_asks : asks_ok plenty.
Proof.
  split_and!.
  - apply (bool_decide_unpack _). vm_compute. exact I.
  - cbn. int_lia.
  - assert (get_budget (max_worker_budget_per_day (budget_params plenty)) (distance plenty) = Ok 500) as ->
      by (vm_compute; reflexivity).
    by intros m [= <-].
Qed.

Lemma process_budget_conserves_witness : funds (after plenty) = funds plenty.
Proof.
  destruct (process_budget plenty) as [[u t']|e] eqn:Hrun.
  - unfold after. rewrite Hrun. cbn [fst snd].
    refine (proj1 (process_budget_conserves plenty u t' plenty_ok plenty_caps plenty_asks _ _ _ _ Hrun)).
    + cbn. lia.
    + split; vm_compute; reflexivity.
    + split; vm_compute; reflexivity.
    + vm_compute. reflexivity.
  - exfalso. assert (is_ok (process_budget plenty) = true) as Hok by (vm_compute; reflexivity).
    by rewrite Hrun in Hok.
Defined.

Definition no_record : budget_record := mk_record 0 0 0 0 0 0.

Lemma workers_paid_by_votes_witness :
  ∃ r' t' order, pay_workers no_record plenty = Ok (r', t') ∧ paid_workers (record_worker_budget r') order plenty t'.
Proof.
  destruct (pay_workers no_record plenty) as [[r' t']|e] eqn:Hrun.
  - destruct (workers_paid_by_votes no_record plenty r' t' plenty_ok plenty_caps plenty_asks Hrun) as [order Hp].
    exists r', t', order. exact (conj eq_refl Hp).
  - exfalso. assert (is_ok (pay_workers no_record plenty) = true) as Hok by (vm_compute; reflexivity).
    by rewrite Hrun in Hok.
Defined.
End BudgetExample.
