(* ===== verification/Maintenance.v ===== *)
(** * Chain maintenance: the rest of libraries/chain/db_maint.cpp, and fba_object.cpp

    [perform_chain_maintenance] and what it calls besides the elections (file Votes) and
    the budget (file Budget): the fees for buybacks ([split_fba_balance]), the authorities
    of the top holders of an asset ([update_top_n_authorities]), the pending parameters
    and the time of the next maintenance.  The parameters of the business objects and the
    settlement of their assets are an argument.  [create_buyback_orders] returns at
    once in the code.  The operations that are recorded for the history of an account
    only ([fba_distribute_operation]) and the limit of the block size that is handed to
    the block store are left out. *)

From S2P Require Import Prelude Safe Uint128 Asset Vesting Balance Fees Authority Votes Budget.
From stdpp Require Import sorting.

Local Open Scope Z_scope.

(** ** fba_object.cpp *)

Record fba_accumulator := mk_fba { accumulated_fba_fees : Z; designated_asset : option Z }.

(** The fields of the designated [asset_object] that are read. *)
Record fba_asset := mk_fba_asset {
  is_market_issued : bool;
  issuer_permissions : Z;
  asset_flags : Z;
  buyback_account : option Z;
  issuer : Z
}.

(** [special_authority]: none, or the top holders of an asset. *)
Inductive special_authority :=
  | no_special_authority
  | top_holders (asset : Z) (num_top_holders : Z).

Record special_account := mk_special {
  owner_special_authority : special_authority;
  active_special_authority : special_authority;
  top_n_control_flags : Z
}.

Definition charge_market_fee : Z := 1.
Definition top_n_control_owner : Z := 1.
Definition top_n_control_active : Z := 2.

Definition holds_asset (a : special_authority) (i : Z) : bool :=
  match a with no_special_authority => false | top_holders asset _ => asset =? i end.

Section Fba.
Context `{Division128}.
Variables (assets : gmap Z fba_asset) (specials : gmap Z special_account).

(** [is_configured]: the checks in order; an unknown issuer is an exception. *)
Definition is_configured (f : fba_accumulator) : result bool :=
  match designated_asset f with
  | None => Ok false
  | Some i =>
      match assets !! i with
      | None => Ok false
      | Some a =>
          if is_market_issued a then Ok false
          else if negb (Z.land (issuer_permissions a) charge_market_fee =? issuer_permissions a) then Ok false
          else if negb (Z.land (asset_flags a) charge_market_fee =? asset_flags a) then Ok false
          else match buyback_account a with
               | None => Ok false
               | Some _ =>
                   match specials !! issuer a with
                   | None => Throw other_exception
                   | Some acct =>
                       Ok (holds_asset (owner_special_authority acct) i && holds_asset (active_special_authority acct) i
                           && (top_n_control_flags acct =? Z.lor top_n_control_owner top_n_control_active))
                   end
               end
      end
  end.

(** ** [split_fba_balance] *)

Abbreviation fba_state := (ledger * gmap Z fba_accumulator)%type.

Definition on_ledger {A} (m : M ledger A) : M fba_state A := λ '(l, f),
  match m l with Ok (a, l') => Ok (a, (l', f)) | Throw e => Throw e end.

Definition share_of (fees pct : Z) : result Z :=
  v ← to_uint64 (div128 (mul128 (of_int64 fees) (of_uint64 pct)) (of_uint64 GRAPHENE_100_PERCENT));
  mret (to_sint 64 v).

Definition burn_supply (n : Z) : M fba_state () :=
  d ← on_ledger (get dynamic_data GRAPHENE_CORE_ASSET);
  s ← lift (safe_sub (current_supply d) n);
  on_ledger (modify_st (λ l, set_supply GRAPHENE_CORE_ASSET s l d)).

Definition reset_fba (i : Z) (f : fba_accumulator) : M fba_state () :=
  modify_st (λ '(l, fs), (l, <[i := mk_fba 0 (designated_asset f)]> fs)).

Definition distribute (account n utype : Z) : M fba_state () :=
  if n =? 0 then mret () else on_ledger (adjust_balance utype "" account (core n)).

Definition split_fba_balance (i network_pct buyback_pct issuer_pct : Z) : M fba_state () :=
  assert_st (network_pct + buyback_pct + issuer_pct =? GRAPHENE_100_PERCENT) ;;
  st ← get_st;
  f ← lift (match st.2 !! i with Some f => Ok f | None => Throw other_exception end);
  let fees := accumulated_fba_fees f in
  if fees =? 0 then mret ()
  else
    configured ← lift (is_configured f);
    if negb configured then burn_supply fees ;; reset_fba i f
    else
      buyback ← lift (share_of fees buyback_pct);
      to_issuer ← lift (share_of fees issuer_pct);
      both ← lift (safe_add buyback to_issuer);
      assert_st (both <=? fees) ;;
      network ← lift (safe_sub fees both);
      a ← lift (match designated_asset f ≫= λ i, assets !! i with Some a => Ok a | None => Throw other_exception end);
      (if negb (network =? 0) then burn_supply network else mret ()) ;;
      account ← lift (match buyback_account a with Some x => Ok x | None => Throw other_exception end);
      distribute account buyback 49 ;;
      distribute (issuer a) to_issuer 50 ;;
      reset_fba i f.

Definition GRAPHENE_1_PERCENT : Z := GRAPHENE_100_PERCENT / 100.

(** [distribute_fba_balances], for the three accumulators. *)
Definition distribute_fba_balances (transfer_to_blind blind_transfer transfer_from_blind : Z) : M fba_state () :=
  let split i := split_fba_balance i (20 * GRAPHENE_1_PERCENT) (60 * GRAPHENE_1_PERCENT) (20 * GRAPHENE_1_PERCENT) in
  split transfer_to_blind ;; split blind_transfer ;; split transfer_from_blind.
End Fba.

(** ** [update_top_n_authorities] *)

(** The index [by_asset_balance]: the balances of an asset, the greatest first. *)
Definition richer (a b : Z * Z) : Prop := b.2 < a.2 ∨ a.2 = b.2 ∧ a.1 ≤ b.1.
#[export] Instance richer_dec a b : Decision (richer a b).
Proof. unfold richer. apply _. Defined.

Definition holders (asset : Z) (l : ledger) : list (Z * Z) :=
  merge_sort richer ((λ p, (p.1.1, p.2)) <$> filter (λ p, p.1.2 = asset) (map_to_list (balances l))).

Section TopN.
Variable find_msb : Z → Z.

Fixpoint count_holders (acct : Z) (num_needed : Z) (bals : list (Z * Z)) (vc : vote_counter) : vote_counter :=
  match bals with
  | [] => vc
  | (own, balance) :: bals =>
      if own =? acct then count_holders acct num_needed bals vc
      else
        let vc := vc_add find_msb vc own (to_uint 64 balance) in
        if num_needed - 1 =? 0 then vc else count_holders acct (num_needed - 1) bals vc
  end.

Record authorities := mk_authorities {
  owner_authority : gmap Z authority;
  active_authorities : gmap Z authority;
  special_accounts_of : gmap Z special_account
}.

Definition add_control_flag (flag : Z) (s : special_account) : special_account :=
  mk_special (owner_special_authority s) (active_special_authority s) (Z.lor (top_n_control_flags s) flag).

(** The visitor, for one special authority of the account. *)
Definition visit (l : ledger) (acct : Z) (is_owner : bool) (auth : special_authority) (s : authorities) : authorities :=
  match auth with
  | no_special_authority => s
  | top_holders asset num =>
      if num =? 0 then s
      else
        let vc := count_holders acct num (holders asset l) new_vote_counter in
        mk_authorities
          (if is_owner then alter (vc_finish vc) acct (owner_authority s) else owner_authority s)
          (if is_owner then active_authorities s else alter (vc_finish vc) acct (active_authorities s))
          (if is_empty vc then special_accounts_of s
           else alter (add_control_flag (if is_owner then top_n_control_owner else top_n_control_active)) acct
                      (special_accounts_of s))
  end.

(** [visit_special_authorities], over the accounts of the index. *)
Definition visit_account (l : ledger) (s : authorities) (acct : Z) : result authorities :=
  match special_accounts_of s !! acct with
  | None => Throw other_exception
  | Some a => Ok (visit l acct false (active_special_authority a) (visit l acct true (owner_special_authority a) s))
  end.

Fixpoint update_top_n_authorities (l : ledger) (index : list Z) (s : authorities) : result authorities :=
  match index with
  | [] => Ok s
  | acct :: index => s ← visit_account l s acct; update_top_n_authorities l index s
  end.
End TopN.

(** ** The time of the next maintenance *)

Definition next_maintenance (next block_num timestamp head_time interval : Z) : Z :=
  if next <=? timestamp then
    if block_num =? 1 then to_uint 32 (to_uint 32 (timestamp / interval + 1) * interval)
    else to_uint 32 (next + (Z.quot (head_time - next) interval + 1) * interval)
  else next.

(** ** [perform_chain_maintenance] *)

(** The chain parameters that maintenance reads. *)
Record maintenance_parameters := mk_maintenance_parameters {
  vote_params : vote_parameters;
  maintenance_interval : Z;
  chain_block_interval : Z;
  chain_witness_pay : Z;
  chain_max_worker_budget : Z;
  account_fee_scale_bitshifts : Z;
  accounts_per_fee_scale : Z;
  create_basic_fee : Z;
  min_witness_count : nat;
  min_committee_count : nat;
  min_budget_count : nat
}.

Record maintenance (R : Type) := mk_maintenance {
  m_treasury : treasury;
  m_fbas : gmap Z fba_accumulator;
  m_buffers : buffers;
  m_voters : list voter;
  m_budget_accounts : gmap Z budget_account;
  m_election : election;
  m_owner : gmap Z authority;
  m_specials : gmap Z special_account;
  m_special_index : list Z;
  m_parameters : maintenance_parameters;
  m_pending : option maintenance_parameters;
  m_accounts_registered : Z;
  m_business : R
}.
Arguments mk_maintenance {R}.
Arguments m_treasury {R}.
Arguments m_fbas {R}.
Arguments m_buffers {R}.
Arguments m_voters {R}.
Arguments m_budget_accounts {R}.
Arguments m_election {R}.
Arguments m_owner {R}.
Arguments m_specials {R}.
Arguments m_special_index {R}.
Arguments m_parameters {R}.
Arguments m_pending {R}.
Arguments m_accounts_registered {R}.
Arguments m_business {R}.

Section Chain.
Context `{Division128} {R : Type}.
(** The parts that are not modelled: the pending parameters of the business objects, the
    settlement of their assets, and the month flag of the coupons. *)
Variables (apply_pending process_bids : R → result R) (month_flag : Z → Z) (find_msb : Z → Z).
Variables (fba_assets : gmap Z fba_asset) (fba_ids : Z * Z * Z).

Implicit Types m : maintenance R.

Definition m_with_treasury (t : treasury) m : maintenance R :=
  mk_maintenance t (m_fbas m) (m_buffers m) (m_voters m) (m_budget_accounts m) (m_election m) (m_owner m)
    (m_specials m) (m_special_index m) (m_parameters m) (m_pending m) (m_accounts_registered m) (m_business m).

Definition m_with_buffers (b : buffers) m : maintenance R :=
  mk_maintenance (m_treasury m) (m_fbas m) b (m_voters m) (m_budget_accounts m) (m_election m) (m_owner m)
    (m_specials m) (m_special_index m) (m_parameters m) (m_pending m) (m_accounts_registered m) (m_business m).

Definition distribute_fbas m : result (maintenance R) :=
  let '(a, b, c) := fba_ids in
  match distribute_fba_balances fba_assets (m_specials m) a b c (books (m_treasury m), m_fbas m) with
  | Throw e => Throw e
  | Ok (_, (l, fs)) =>
      Ok (mk_maintenance (set_books l (m_treasury m)) fs (m_buffers m) (m_voters m) (m_budget_accounts m)
            (m_election m) (m_owner m) (m_specials m) (m_special_index m) (m_parameters m) (m_pending m)
            (m_accounts_registered m) (m_business m))
  end.

Definition find_voter (vs : list voter) (i : Z) : option voter := snd <$> list_find (λ v, voter_id v = i) vs.

Definition count_votes m : result (maintenance R) :=
  match perform_account_maintenance (vote_params (m_parameters m)) (find_voter (m_voters m)) month_flag (m_voters m)
          ((λ i, m_budget_accounts m !! i) <$> active_budget_members (m_election m))
          (books (m_treasury m), m_buffers m) with
  | (_, Throw e) => Throw e
  | ((l, b), Ok _) => Ok (m_with_buffers b (m_with_treasury (set_books l (m_treasury m)) m))
  end.

Definition hand_to_holders m : result (maintenance R) :=
  s ← update_top_n_authorities find_msb (books (m_treasury m)) (m_special_index m)
        (mk_authorities (m_owner m) (active_authority (m_election m)) (m_specials m));
  let e := m_election m in
  mret (mk_maintenance (m_treasury m) (m_fbas m) (m_buffers m) (m_voters m) (m_budget_accounts m)
          (mk_election (witness_members e) (committee_members e) (budget_members e) (active_witnesses e)
             (active_committee_members e) (active_budget_members e) (active_authorities s))
          (owner_authority s) (special_accounts_of s) (m_special_index m) (m_parameters m) (m_pending m)
          (m_accounts_registered m) (m_business m)).

Definition hold_elections m : result (maintenance R) :=
  let p := m_parameters m in
  e ← elections find_msb (now (m_treasury m)) (m_buffers m) (maintenance_interval p / chain_block_interval p)
        (min_witness_count p) (min_committee_count p) (min_budget_count p) (m_election m);
  mret (mk_maintenance (m_treasury m) (m_fbas m) (m_buffers m) (m_voters m) (m_budget_accounts m) e (m_owner m)
          (m_specials m) (m_special_index m) p (m_pending m) (m_accounts_registered m) (m_business m)).

(** The votes for the workers; the budget counts the new budget members. *)
Definition with_budget_members (n : Z) (t : treasury) : treasury :=
  let p := budget_params t in
  mk_treasury (books t) (props t) (workers t) (exchange_fees t)
    (mk_budget_parameters (max_supply p) (block_interval p) (witness_pay_per_block p) (max_worker_budget_per_day p) n)
    (budget_records t).

Definition count_worker_votes m : maintenance R :=
  let votes i := default 0 (vote_worker (m_buffers m) !! Z.to_nat (vote_instance i)) in
  m_with_treasury (update_worker_votes votes
    (with_budget_members (Z.of_nat (length (active_budget_members (m_election m)))) (m_treasury m))) m.

(** The scaling of the registration fee is removed, also when pending parameters then
    replace it.  A fee scale of 0 divides by it; a shift by the width of the fee or more is
    undefined. *)
Definition unscale_fee (registered : Z) (p : maintenance_parameters) : result maintenance_parameters :=
  if accounts_per_fee_scale p =? 0 then Throw undefined_behaviour else
  let shift := to_uint 32 (account_fee_scale_bitshifts p * (registered / accounts_per_fee_scale p)) in
  if 64 <=? shift then Throw undefined_behaviour else
  Ok (mk_maintenance_parameters (vote_params p) (maintenance_interval p) (chain_block_interval p) (chain_witness_pay p)
    (chain_max_worker_budget p) (account_fee_scale_bitshifts p) (accounts_per_fee_scale p)
    (Z.shiftr (create_basic_fee p) shift)
    (min_witness_count p) (min_committee_count p) (min_budget_count p)).

Definition new_parameters m : result maintenance_parameters :=
  p ← unscale_fee (m_accounts_registered m) (m_parameters m);
  mret (default p (m_pending m)).

Definition with_budget_parameters (p : maintenance_parameters) (next : Z) (t : treasury) : treasury :=
  let q := props t in
  mk_treasury (books t)
    (mk_budget_properties next (last_budget_time q) (witness_budget q) (worker_budget_supply q) (worker_payed q)
       (witness_supply q) (worker_supply q) (miner_supply q) (miner_fee_used q) (budget_supply q) (budget_fees_used q))
    (workers t) (exchange_fees t)
    (mk_budget_parameters (max_supply (budget_params t)) (chain_block_interval p) (chain_witness_pay p)
       (chain_max_worker_budget p) (budget_member_count (budget_params t)))
    (budget_records t).

(** The parameters, the business objects and the next maintenance. *)
Definition change_parameters (block_num timestamp : Z) m : result (maintenance R) :=
  p ← new_parameters m;
  r ← apply_pending (m_business m);
  let next := next_maintenance (next_maintenance_time (props (m_treasury m))) block_num timestamp (now (m_treasury m))
                (maintenance_interval p) in
  mret (mk_maintenance (with_budget_parameters p next (m_treasury m)) (m_fbas m) (m_buffers m) (m_voters m)
          (m_budget_accounts m) (m_election m) (m_owner m) (m_specials m) (m_special_index m) p None 0 r).

Definition settle m : result (maintenance R) :=
  r ← process_bids (m_business m);
  mret (mk_maintenance (m_treasury m) (m_fbas m) (m_buffers m) (m_voters m) (m_budget_accounts m) (m_election m)
          (m_owner m) (m_specials m) (m_special_index m) (m_parameters m) (m_pending m) (m_accounts_registered m) r).

Definition make_budget m : result (maintenance R) :=
  match process_budget (m_treasury m) with
  | Ok (_, t) => Ok (m_with_treasury t m)
  | Throw e => Throw e
  end.

Definition perform_chain_maintenance (block_num timestamp : Z) m : result (maintenance R) :=
  m ← distribute_fbas m;
  m ← count_votes m;
  m ← hand_to_holders m;
  m ← hold_elections m;
  let m := count_worker_votes m in
  m ← change_parameters block_num timestamp m;
  m ← settle m;
  m ← make_budget m;
  mret (m_with_buffers (mk_buffers [] [] [] [] [] (total_voting_stake (m_buffers m))) m).
End Chain.

(** * Maintenance leaves the clock, and the next maintenance lies ahead *)

Create HintDb clock.

Section Time.
Context `{Division128}.
Abbreviation time_kept := (same head_block_time).

Lemma get_time {A} (index : ledger → gmap Z A) i : time_kept (get index i).
Proof. by intros l a l' ->%get_state. Qed.

Lemma get_st_time : time_kept get_st.
Proof. by intros l a l' [_ ->]%get_st_Ok. Qed.

#[local] Hint Resolve get_time get_st_time deposit_lazy_vesting_time : clock.

(** Frames of computations on the ledger: what they bind, in turn. *)
Ltac frame :=
  repeat first
    [ solve [auto 1 with clock] | apply same_ret | apply same_throw | apply same_lift | apply same_assert
    | apply same_modify; done
    | apply same_bind; [|intros ?]
    | progress case_match ].

Lemma deposit_cashback_time acct i n r : time_kept (deposit_cashback acct i n r).
Proof.
  unfold deposit_cashback. repeat case_match; [apply same_ret| |].
  - frame.
  - frame.
Qed.
#[local] Hint Resolve deposit_cashback_time : clock.

Lemma pay_out_fees_time a n r : time_kept (pay_out_fees a n r).
Proof.
  unfold pay_out_fees. frame.
Qed.
#[local] Hint Resolve pay_out_fees_time : clock.

Lemma put_statistics_time i s : time_kept (put_statistics i s).
Proof. by apply same_modify. Qed.
#[local] Hint Resolve put_statistics_time adjust_balance_time : clock.

Lemma process_fees_time mf i a : time_kept (process_fees mf i a).
Proof.
  unfold process_fees. apply same_bind; [|intros _; apply same_bind; [|intros _]].
  - unfold disseminate. frame.
  - intros l x l' Hrun. unfold burn_coupon_fees in Hrun.
    apply M_bind_Ok in Hrun as (s & ? & ->%get_state & Hrun). case_match; [|by inv_ok].
    apply M_bind_Ok in Hrun as (? & ? & [-> ->]%get_st_Ok & Hrun).
    apply M_bind_Ok in Hrun as (c & ? & [_ ->]%lift_Ok & Hrun).
    by apply M_bind_Ok in Hrun as (? & ? & ->%put_st_Ok & ->%put_statistics_time).
  - intros l x l' Hrun. unfold expire_coupon in Hrun.
    apply M_bind_Ok in Hrun as (s & ? & ->%get_state & Hrun).
    apply M_bind_Ok in Hrun as (? & ? & [-> ->]%get_st_Ok & Hrun). case_match; [|by inv_ok].
    apply M_bind_Ok in Hrun as (s' & l1 & Hc & ->%put_statistics_time). unfold set_coupon in Hc.
    apply M_bind_Ok in Hc as (? & ? & [-> ->]%get_st_Ok & Hc). case_match; [|by inv_ok].
    case_match; inv_ok; done.
Qed.
End Time.

(** The clock of the treasury: the time, and the next maintenance. *)
Definition clock (t : treasury) : Z * Z := (now t, next_maintenance_time (props t)).

Section Clock.
Context `{Division128}.
Abbreviation clock_kept := (same clock).

Lemma on_books_clock {A} (m : M ledger A) : same head_block_time m → clock_kept (on_books m).
Proof. intros Hm t a t' (l & Hrun & ->)%on_books_Ok. unfold clock, now. cbn. by rewrite (Hm _ _ _ Hrun). Qed.

Lemma get_st_clock : clock_kept get_st.
Proof. by intros t a t' [_ ->]%get_st_Ok. Qed.

Lemma modify_books_clock f : (∀ l, head_block_time (f l) = head_block_time l) → clock_kept (on_books (modify_st f)).
Proof. intros Hf. by apply on_books_clock, same_modify. Qed.

#[local] Hint Resolve on_books_clock get_st_clock get_time adjust_balance_time : clock.
Ltac clocked :=
  repeat first
    [ solve [auto 2 with clock] | apply modify_books_clock; done | apply same_ret | apply same_throw | apply same_lift
    | apply same_assert | apply same_modify; done | apply same_bind; [|intros ?] | progress case_match ].

Lemma pay_worker_clock w n : clock_kept (pay_worker w n).
Proof. unfold pay_worker. clocked. Qed.
Lemma take_platform_fees_clock n : clock_kept (take_platform_fees n).
Proof. unfold take_platform_fees. clocked. Qed.
#[local] Hint Resolve pay_worker_clock take_platform_fees_clock : clock.
Lemma supply_miners_clock n : clock_kept (supply_miners n).
Proof. unfold supply_miners. clocked. Qed.
Lemma supply_workers_clock n q : clock_kept (supply_workers n q).
Proof. unfold supply_workers. clocked. Qed.
#[local] Hint Resolve supply_miners_clock supply_workers_clock : clock.
Lemma fund_miners_clock n : clock_kept (fund_miners n).
Proof. unfold fund_miners. clocked. Qed.
Lemma fund_workers_clock n : clock_kept (fund_workers n).
Proof. unfold fund_workers. clocked. Qed.
Lemma pay_one_clock d b q i : clock_kept (pay_one d b q i).
Proof. unfold pay_one. clocked. Qed.
#[local] Hint Resolve fund_miners_clock fund_workers_clock pay_one_clock : clock.
Lemma pay_all_clock d b q ids : clock_kept (pay_all d b q ids).
Proof. revert q. induction ids as [|i ids IH]; intros q; cbn [pay_all]; clocked. Qed.
#[local] Hint Resolve pay_all_clock : clock.
Lemma budget_miners_clock : clock_kept budget_miners.
Proof. unfold budget_miners. clocked. Qed.
Lemma pay_workers_clock r : clock_kept (pay_workers r).
Proof. unfold pay_workers. clocked. Qed.
#[local] Hint Resolve budget_miners_clock pay_workers_clock : clock.
Lemma process_budget_clock : clock_kept process_budget.
Proof. unfold process_budget. clocked. Qed.
End Clock.

Section Fbas.
Context `{Division128}.
Context (assets : gmap Z fba_asset) (specials : gmap Z special_account).
Abbreviation fba_time := (λ s : ledger * gmap Z fba_accumulator, head_block_time s.1).

Lemma on_ledger_time {A} (m : M ledger A) : same head_block_time m → same fba_time (on_ledger m).
Proof.
  intros Hm [l fs] a [l' fs'] Hrun. unfold on_ledger in Hrun. destruct (m l) as [[b l1]|] eqn:Hml; [|done].
  injection Hrun as _ <- _. cbn. by rewrite (Hm _ _ _ Hml).
Qed.
Lemma get_fba_time : same fba_time get_st.
Proof. by intros t a t' [_ ->]%get_st_Ok. Qed.
Lemma modify_ledger_time f : (∀ l, head_block_time (f l) = head_block_time l) → same fba_time (on_ledger (modify_st f)).
Proof. intros Hf. by apply on_ledger_time, same_modify. Qed.
Lemma reset_fba_time i f : same fba_time (reset_fba i f).
Proof. apply same_modify. by intros [l fs]. Qed.
#[local] Hint Resolve on_ledger_time get_fba_time get_time adjust_balance_time reset_fba_time : clock.
Ltac fba_frame :=
  repeat first
    [ solve [auto 2 with clock] | apply modify_ledger_time; done | apply same_ret | apply same_throw | apply same_lift
    | apply same_assert | apply same_bind; [|intros ?] | progress case_match ].

Lemma burn_supply_time n : same fba_time (burn_supply n).
Proof. unfold burn_supply. fba_frame. Qed.
Lemma distribute_time a n u : same fba_time (distribute a n u).
Proof. unfold distribute. fba_frame. Qed.
#[local] Hint Resolve burn_supply_time distribute_time : clock.
Lemma split_fba_balance_time i n b u : same fba_time (split_fba_balance assets specials i n b u).
Proof. unfold split_fba_balance. fba_frame. Qed.
Lemma distribute_fba_balances_time a b c : same fba_time (distribute_fba_balances assets specials a b c).
Proof.
  unfold distribute_fba_balances. apply same_bind; [apply split_fba_balance_time|intros _].
  apply same_bind; [apply split_fba_balance_time|intros _]. apply split_fba_balance_time.
Qed.
End Fbas.

Lemma next_maintenance_spec next bn t interval :
  0 < interval → 0 ≤ next → 0 ≤ t → t + interval < 2 ^ 32 →
  let n := next_maintenance next bn t t interval in
  t < n ∧ (t < next → n = next) ∧ (next ≤ t → n ≤ t + interval) ∧
  (next ≤ t → bn ≠ 1 → ∃ k, 0 < k ∧ n = next + k * interval).
Proof.
  intros Hi Hn Ht Hmax n. unfold n, next_maintenance. destruct (Z.leb_spec next t) as [Hle|Hgt]; [|lia].
  pose proof (Z.div_mod t interval ltac:(lia)). pose proof (Z.mod_pos_bound t interval Hi).
  assert (0 ≤ t / interval) by (apply Z.div_pos; lia).
  pose proof (Z.quot_rem' (t - next) interval). pose proof (Z.rem_bound_pos (t - next) interval ltac:(lia) Hi).
  assert (0 ≤ Z.quot (t - next) interval) by (apply Z.quot_pos; lia).
  destruct (Z.eqb_spec bn 1).
  - rewrite (to_uint_id 32 (t / interval + 1)) by (unfold uint; nia). rewrite to_uint_id by (unfold uint; nia).
    split_and!; [nia|lia|nia|done].
  - rewrite to_uint_id by (unfold uint; nia). split_and!; [nia|lia|nia|]. intros _ _.
    exists (Z.quot (t - next) interval + 1). lia.
Qed.

Section Schedule.
Context `{Division128} {R : Type}.
Context (apply_pending process_bids : R → result R) (month_flag : Z → Z) (find_msb : Z → Z).
Context (fba_assets : gmap Z fba_asset) (fba_ids : Z * Z * Z).
Implicit Types m : maintenance R.

Lemma accounts_time p gv vs l b l' b' u :
  mapE_ (maintain_account p gv month_flag) vs (l, b) = ((l', b'), Ok u) → head_block_time l' = head_block_time l.
Proof.
  revert l b. induction vs as [|v vs IH]; intros l b Hrun; [inversion Hrun; by subst|].
  cbn in Hrun. rewrite E_bind_step in Hrun. unfold maintain_account at 1 in Hrun.
  destruct (tally_voter p gv v l b) as [b1|]; [|discriminate Hrun].
  destruct ((a ← get accounts (voter_id v); process_fees month_flag (voter_id v) a) l) as [[[] l1]|] eqn:Hf;
    [|discriminate Hrun].
  rewrite (IH _ _ Hrun). apply M_bind_Ok in Hf as (a & ? & ->%get_state & Hf). by eapply process_fees_time.
Qed.

Lemma budget_votes_time ms l b l' b' u :
  mapE_ (λ ob, budget_vote ob) ms (l, b) = ((l', b'), Ok u) → l' = l.
Proof.
  revert b. induction ms as [|ob ms IH]; intros b Hrun.
  - by inversion Hrun.
  - cbn in Hrun. rewrite E_bind_step in Hrun. unfold budget_vote at 1 in Hrun.
    destruct ob as [a|]; [|discriminate Hrun]. by eapply IH.
Qed.

Lemma perform_account_maintenance_time p gv vs ms l b l' b' u :
  perform_account_maintenance p gv month_flag vs ms (l, b) = ((l', b'), Ok u) → head_block_time l' = head_block_time l.
Proof.
  intros Hrun. unfold perform_account_maintenance in Hrun.
  rewrite !E_bind_step in Hrun. cbn -[start_tally mapE_] in Hrun. rewrite E_bind_step in Hrun.
  destruct (mapE_ _ vs _) as [[l1 b1] [[]|e]] eqn:Hv; [|discriminate Hrun].
  apply budget_votes_time in Hrun as ->. by eapply accounts_time.
Qed.

(** The parts of the maintenance state that come to the change of the parameters. *)
Definition before_change m : (Z * Z) * maintenance_parameters * option maintenance_parameters * Z :=
  (clock (m_treasury m), m_parameters m, m_pending m, m_accounts_registered m).

Lemma distribute_fbas_before m m' : distribute_fbas fba_assets fba_ids m = Ok m' → before_change m' = before_change m.
Proof.
  unfold distribute_fbas. destruct fba_ids as [[a b] c].
  destruct (distribute_fba_balances _ _ _ _ _ _) as [[[] [l fs]]|] eqn:Hd; [|done]. intros [= <-].
  apply distribute_fba_balances_time in Hd. cbn in Hd. unfold before_change, clock, now. cbn. by rewrite Hd.
Qed.

Lemma count_votes_before m m' : count_votes month_flag m = Ok m' → before_change m' = before_change m.
Proof.
  unfold count_votes. destruct (perform_account_maintenance _ _ _ _ _ _) as [[l b] [[]|]] eqn:Hd; [|done].
  intros [= <-]. apply perform_account_maintenance_time in Hd. unfold before_change, clock, now. cbn. by rewrite Hd.
Qed.

Lemma hand_to_holders_before m m' : hand_to_holders find_msb m = Ok m' → before_change m' = before_change m.
Proof. unfold hand_to_holders. intros (s & _ & [= <-])%bind_Ok. done. Qed.

Lemma hold_elections_before m m' : hold_elections find_msb m = Ok m' → before_change m' = before_change m.
Proof. unfold hold_elections. intros (s & _ & [= <-])%bind_Ok. done. Qed.

Lemma new_parameters_interval m p :
  new_parameters m = Ok p → maintenance_interval (default (m_parameters m) (m_pending m)) = maintenance_interval p.
Proof.
  unfold new_parameters, unscale_fee. intros (q & Hq & [= <-])%bind_Ok. destruct (m_pending m); [done|].
  case_match; [done|]. case_match; [done|]. by injection Hq as <-.
Qed.

(** C17: after a maintenance the next one lies ahead, by at most one interval when it was
    due and on the grid of the intervals, so that [budget_miners] finds time left before
    it; the pending parameters are in force, the votes are cleared and the count of the
    registered accounts starts anew. *)
Theorem maintenance_schedules_next bn m m' :
  perform_chain_maintenance apply_pending process_bids month_flag find_msb fba_assets fba_ids
    bn (now (m_treasury m)) m = Ok m' →
  let interval := maintenance_interval (default (m_parameters m) (m_pending m)) in
  let t := now (m_treasury m) in
  let next := next_maintenance_time (props (m_treasury m)) in
  let next' := next_maintenance_time (props (m_treasury m')) in
  0 < interval → 0 ≤ next → 0 ≤ t → t + interval < 2 ^ 32 →
  now (m_treasury m') = t ∧ t < next' ∧ (t < next → next' = next) ∧ (next ≤ t → next' ≤ t + interval) ∧
  (next ≤ t → bn ≠ 1 → ∃ k, 0 < k ∧ next' = next + k * interval) ∧
  new_parameters m = Ok (m_parameters m') ∧ m_pending m' = None ∧ m_accounts_registered m' = 0 ∧
  vote_tally (m_buffers m') = [] ∧ vote_worker (m_buffers m') = [] ∧ witness_count (m_buffers m') = [] ∧
  committee_count (m_buffers m') = [] ∧ budget_count (m_buffers m') = [].
Proof.
  intros Hrun interval t next next' Hi Hn Ht Hmax. unfold perform_chain_maintenance in Hrun.
  apply bind_Ok in Hrun as (m1 & H1%distribute_fbas_before & Hrun).
  apply bind_Ok in Hrun as (m2 & H2%count_votes_before & Hrun).
  apply bind_Ok in Hrun as (m3 & H3%hand_to_holders_before & Hrun).
  apply bind_Ok in Hrun as (m4 & H4%hold_elections_before & Hrun). cbn zeta in Hrun.
  apply bind_Ok in Hrun as (m5 & H5 & Hrun). apply bind_Ok in Hrun as (m6 & H6 & Hrun).
  apply bind_Ok in Hrun as (m7 & H7 & [= <-]).
  assert (before_change (count_worker_votes m4) = before_change m) as H0 by (by rewrite <- H1, <- H2, <- H3, <- H4).
  generalize dependent (count_worker_votes m4). intros m4' H5 H0. clear H1 H2 H3 H4.
  unfold before_change, clock in H0. injection H0 as Hnow Hnext Hpar Hpen Hreg.
  assert (new_parameters m4' = new_parameters m) as Hnew by (unfold new_parameters; by rewrite Hpar, Hpen, Hreg).
  unfold change_parameters in H5. apply bind_Ok in H5 as (p & Hp & H5). apply bind_Ok in H5 as (r & _ & [= <-]).
  rewrite Hnext, Hnow in H6. rewrite Hnew in Hp. rewrite <- (new_parameters_interval m p Hp) in H6. fold interval in H6.
  unfold settle in H6. apply bind_Ok in H6 as (r' & _ & [= <-]).
  unfold make_budget in H7. destruct (process_budget _) as [[u tr]|] eqn:Hb; [|done]. injection H7 as <-.
  apply process_budget_clock in Hb. unfold clock in Hb. cbn in Hb. injection Hb as Hnow' Hnext'.
  pose proof (next_maintenance_spec next bn t interval Hi Hn Ht Hmax) as Hspec. cbv zeta in Hspec.
  unfold next'. cbn [m_treasury m_with_buffers m_with_treasury]. rewrite Hnext'.
  cbn [m_parameters m_pending m_accounts_registered m_buffers m_with_buffers m_with_treasury vote_tally vote_worker
       witness_count committee_count budget_count].
  split_and!; try done; try apply Hspec.
  transitivity (now (m_treasury m4')); [exact Hnow'|exact Hnow].
Qed.
End Schedule.

(** * The top holders of an asset *)

#[export] Instance richer_trans : Transitive richer.
Proof. intros [a x] [b y] [c z]. unfold richer. cbn. lia. Qed.
#[export] Instance richer_total : Total richer.
Proof. intros [a x] [b y]. unfold richer. cbn. lia. Qed.

(** The [n] richest holders of the asset besides the account. *)
Definition others (acct : Z) (bals : list (Z * Z)) : list (Z * Z) := filter (λ p, p.1 ≠ acct) bals.

Definition as_votes (bals : list (Z * Z)) : list (Z * Z) := prod_map id (to_uint 64) <$> bals.

Lemma count_holders_take find_msb acct n bals vc :
  count_holders find_msb acct (Z.of_nat (S n)) bals vc
  = foldl (λ vc p, vc_add find_msb vc p.1 p.2) vc (as_votes (take (S n) (others acct bals))).
Proof.
  revert n vc. induction bals as [|[own b] bals IH]; intros n vc; [done|].
  unfold others. rewrite filter_cons. cbn [count_holders fst]. case_decide as Ho.
  - rewrite (proj2 (Z.eqb_neq own acct)) by done. destruct n as [|n].
    + replace (Z.of_nat 1 - 1 =? 0) with true by reflexivity. cbn. by rewrite take_0.
    + rewrite (proj2 (Z.eqb_neq (Z.of_nat (S (S n)) - 1) 0)) by lia.
      replace (Z.of_nat (S (S n)) - 1) with (Z.of_nat (S n)) by lia. by rewrite IH.
  - subst own. rewrite Z.eqb_refl. apply IH.
Qed.

Lemma holders_elem asset l own b : (own, b) ∈ holders asset l ↔ balances l !! (own, asset) = Some b.
Proof.
  unfold holders. rewrite merge_sort_Permutation, list_elem_of_fmap. split.
  - intros ([[o i] n] & [= -> ->] & [Hi Hin%elem_of_map_to_list]%list_elem_of_filter). cbn in Hi. by subst.
  - intros Hb. exists (own, asset, b). split; [done|]. apply list_elem_of_filter. by rewrite elem_of_map_to_list.
Qed.

Lemma holders_NoDup asset l : NoDup (holders asset l).*1.
Proof.
  unfold holders. rewrite merge_sort_Permutation, <- list_fmap_compose.
  apply NoDup_fmap_2_strong.
  - intros [[o i] n] [[o' i'] n'] Hp Hq Heq. cbn in Heq. subst o'.
    apply list_elem_of_filter in Hp as [Hi Hp]. apply list_elem_of_filter in Hq as [Hi' Hq]. cbn in Hi, Hi'. subst.
    apply elem_of_map_to_list in Hp, Hq. by simplify_eq.
  - apply NoDup_filter, NoDup_map_to_list.
Qed.

Lemma holders_sorted asset l : StronglySorted richer (holders asset l).
Proof. apply (StronglySorted_merge_sort richer). Qed.

Lemma balances_votes bals : Forall (λ p, 0 ≤ p.2 ∧ int64 p.2) bals → as_votes bals = bals.
Proof.
  induction 1 as [|[a v] bals Hv _ IH]; [done|]. unfold as_votes in *. cbn in *. rewrite IH. do 2 f_equal.
  apply to_uint_id. int_lia.
Qed.

Lemma sorted_descending bals : StronglySorted richer bals → descending bals.
Proof.
  induction 1 as [|p bals _ IH Hp]; [constructor|]. constructor; [done|].
  eapply Forall_impl; [exact Hp|]. intros q. unfold richer. lia.
Qed.

Lemma sorted_filter {A} (R : relation A) (P : A → Prop) `{!∀ x, Decision (P x)} l :
  StronglySorted R l → StronglySorted R (filter P l).
Proof.
  induction 1 as [|x l _ IH Hx]; [constructor|]. rewrite filter_cons. case_decide; [|done].
  constructor; [done|]. rewrite Forall_forall in *. intros y [_ Hy]%list_elem_of_filter. by apply Hx.
Qed.

Lemma sorted_take {A} (R : relation A) n (l : list A) :
  StronglySorted R l →
  StronglySorted R (take n l) ∧ (∀ x y, x ∈ take n l → y ∈ drop n l → R x y).
Proof.
  intros Hl. rewrite <- (take_drop n l) in Hl at 1. apply StronglySorted_app in Hl as (? & ? & ?).
  split; [done|]. eauto.
Qed.

(** The counter stays empty exactly when nobody has votes. *)
Lemma counter_empty find_msb votes :
  highest_bit find_msb → countable votes →
  is_empty (foldl (λ vc p, vc_add find_msb vc p.1 p.2) new_vote_counter votes) = true ↔ voted votes = [].
Proof.
  intros Hmsb Hc. split.
  - intros He. destruct (decide (voted votes = [])) as [|Hne]; [done|].
    destruct (counted_authority_majority find_msb votes (mk_authority 0 [] [(0, 0)] []) Hmsb Hc) as [_ Hm].
    destruct (Hm Hne) as [_ [Hk _] _ _ _ _]. unfold counted_authority, vc_finish in Hk. by rewrite He in Hk.
  - intros Hv. rewrite count_nonzero by apply Hc. by rewrite Hv.
Qed.

Definition owner_or_active (is_owner : bool) (s : authorities) : gmap Z authority :=
  if is_owner then owner_authority s else active_authorities s.

Definition control_flag (is_owner : bool) : Z := if is_owner then top_n_control_owner else top_n_control_active.

Lemma visit_counted find_msb l acct is_owner asset n s :
  let votes := as_votes (take (S n) (others acct (holders asset l))) in
  let s' := visit find_msb l acct is_owner (top_holders asset (Z.of_nat (S n))) s in
  owner_or_active is_owner s' = alter (counted_authority find_msb votes) acct (owner_or_active is_owner s) ∧
  owner_or_active (negb is_owner) s' = owner_or_active (negb is_owner) s ∧
  special_accounts_of s' =
    if is_empty (foldl (λ vc p, vc_add find_msb vc p.1 p.2) new_vote_counter votes) then special_accounts_of s
    else alter (add_control_flag (control_flag is_owner)) acct (special_accounts_of s).
Proof.
  intros votes s'. unfold s', visit. rewrite (proj2 (Z.eqb_neq (Z.of_nat (S n)) 0)) by lia.
  rewrite count_holders_take. by destruct is_owner.
Qed.

(** The [n] richest other holders of the asset: who they are, and that they can be counted. *)
Definition richest (acct asset : Z) (n : nat) (l : ledger) (votes : list (Z * Z)) : Prop :=
  ∃ rest, NoDup (votes ++ rest).*1 ∧
    (∀ own b, (own, b) ∈ votes ++ rest ↔ balances l !! (own, asset) = Some b ∧ own ≠ acct) ∧
    (rest ≠ [] → length votes = n) ∧ (length votes ≤ n)%nat ∧
    (∀ p q, p ∈ votes → q ∈ rest → q.2 ≤ p.2).

Lemma take_richest acct asset n l : richest acct asset n l (take n (others acct (holders asset l))).
Proof.
  exists (drop n (others acct (holders asset l))). rewrite take_drop. split_and!.
  - eapply sublist_NoDup; [apply holders_NoDup|]. apply fmap_sublist, sublist_filter.
  - intros own b. unfold others. rewrite list_elem_of_filter, holders_elem. naive_solver.
  - intros Hr. rewrite length_take. assert (drop n (others acct (holders asset l)) ≠ []) as Hd by done.
    destruct (decide (length (others acct (holders asset l)) ≤ n)%nat) as [Hle|]; [|lia].
    by rewrite drop_ge in Hd.
  - rewrite length_take. lia.
  - intros p q Hp Hq. pose proof (sorted_filter richer (λ p, p.1 ≠ acct) _ (holders_sorted asset l)) as Hs.
    destruct (sorted_take richer n _ Hs) as [_ Hr]. specialize (Hr p q Hp Hq). unfold richer in Hr. lia.
Qed.

Lemma richest_countable acct asset n l :
  balances_ok l → Z.of_nat n < 2 ^ 16 →
  let votes := take n (others acct (holders asset l)) in as_votes votes = votes ∧ countable votes.
Proof.
  intros Hok Hn votes.
  assert (Forall (λ p, 0 ≤ p.2 ∧ int64 p.2) votes) as Hv.
  { apply Forall_forall. intros [o b] (? & Hp%list_elem_of_lookup_2 & _)%elem_of_take.
    apply list_elem_of_filter in Hp as [_ Hp].
    apply holders_elem in Hp. by apply Hok in Hp. }
  split; [by apply balances_votes|]. split_and!.
  - eapply sublist_NoDup; [apply (holders_NoDup asset l)|]. apply fmap_sublist.
    transitivity (others acct (holders asset l)); [apply sublist_take|apply sublist_filter].
  - apply sorted_descending, sorted_take, sorted_filter, holders_sorted.
  - eapply Forall_impl; [exact Hv|]. naive_solver.
  - unfold votes. rewrite length_take. lia.
Qed.

(** An account under the control of the top holders of an asset hands its authority to
    the richest other holders, as many as it names: their weights are in proportion to
    their balances, a majority of the weight decides, and the account is flagged as
    controlled; while nobody else holds the asset, nothing changes. *)
Theorem top_holders_control find_msb l acct is_owner asset n s old :
  highest_bit find_msb → balances_ok l → Z.of_nat (S n) < 2 ^ 8 →
  owner_or_active is_owner s !! acct = Some old →
  let s' := visit find_msb l acct is_owner (top_holders asset (Z.of_nat (S n))) s in
  ∃ votes a, richest acct asset (S n) l votes ∧ owner_or_active is_owner s' !! acct = Some a ∧
    (∀ other, other ≠ acct → owner_or_active is_owner s' !! other = owner_or_active is_owner s !! other) ∧
    owner_or_active (negb is_owner) s' = owner_or_active (negb is_owner) s ∧
    (voted votes = [] → a = old ∧ special_accounts_of s' = special_accounts_of s) ∧
    (voted votes ≠ [] → majority_authority votes a ∧
       special_accounts_of s' = alter (add_control_flag (control_flag is_owner)) acct (special_accounts_of s)).
Proof.
  intros Hmsb Hok Hn Hold s'. set (votes := take (S n) (others acct (holders asset l))).
  destruct (visit_counted find_msb l acct is_owner asset n s) as (Ha & Hb & Hf). fold s' votes in Ha, Hb, Hf.
  destruct (richest_countable acct asset (S n) l Hok) as [Hv Hc]; [lia|]. fold votes in Hv, Hc. rewrite Hv in *.
  destruct (counted_authority_majority find_msb votes old Hmsb Hc) as [Hnone Hsome].
  pose proof (counter_empty find_msb votes Hmsb Hc) as He.
  exists votes, (counted_authority find_msb votes old). split_and!.
  - apply take_richest.
  - by rewrite Ha, lookup_alter_eq, Hold.
  - intros other Hne. by rewrite Ha, lookup_alter_ne.
  - done.
  - intros H0. split; [auto|]. by rewrite Hf, (proj2 He H0).
  - intros H0. split; [auto|]. rewrite Hf. destruct (is_empty _); [|done]. by destruct H0, He; auto.
Qed.

(** * The fees for buybacks *)

Section Split.
Context `{Division128}.
Context (assets : gmap Z fba_asset) (specials : gmap Z special_account).

Lemma share_of_spec fees pct :
  0 ≤ fees → int64 fees → 0 ≤ pct ≤ GRAPHENE_100_PERCENT → share_of fees pct = Ok (fees * pct / GRAPHENE_100_PERCENT).
Proof. apply percentage_128. Qed.

Lemma percent_bounds a p : 0 ≤ a → 0 ≤ p ≤ GRAPHENE_100_PERCENT → 0 ≤ a * p / GRAPHENE_100_PERCENT ≤ a.
Proof.
  unfold GRAPHENE_100_PERCENT. split; [apply Z.div_pos; nia|]. apply Z.div_le_upper_bound; nia.
Qed.

Lemma on_ledger_Ok {A} (m : M ledger A) l fs a s :
  on_ledger m (l, fs) = Ok (a, s) → ∃ l', m l = Ok (a, l') ∧ s = (l', fs).
Proof. unfold on_ledger. destruct (m l) as [[b l']|]; [|done]. intros [= <- <-]. eauto. Qed.

Lemma burn_supply_Ok n l fs s :
  books_ok l → int64 n → burn_supply n (l, fs) = Ok ((), s) →
  ∃ l', s = (l', fs) ∧ books_ok l' ∧ wealth GRAPHENE_CORE_ASSET l' = wealth GRAPHENE_CORE_ASSET l ∧
    supply GRAPHENE_CORE_ASSET l' = supply GRAPHENE_CORE_ASSET l - n ∧ balances l' = balances l.
Proof.
  intros Hl Hn Hrun. unfold burn_supply in Hrun.
  apply M_bind_Ok in Hrun as (d & ? & (l0 & [Hd ->]%get_Ok & ->)%on_ledger_Ok & Hrun).
  apply M_bind_Ok in Hrun as (s0 & ? & [Hs ->]%lift_Ok & (l' & ->%modify_st_Ok & ->)%on_ledger_Ok).
  destruct (typed_core _ _ (proj2 Hl) Hd) as (Hc & Ha & HS & _).
  destruct (safe_sub_Ok _ _ _ Hc Hn Hs) as [-> Hs'].
  destruct (write_core l (mk_dyn (current_supply d - n) (accumulated_fees d) (fee_pool d)) Hl Hs' Ha)
    as (Hok & Hw & HS' & _).
  eexists. split_and!; [done|exact Hok|exact Hw| |done]. unfold set_supply. by rewrite HS', HS.
Qed.

Lemma distribute_Ok account n u l fs s :
  books_ok l → int64 n → distribute account n u (l, fs) = Ok ((), s) →
  ∃ l', s = (l', fs) ∧ books_ok l' ∧ wealth GRAPHENE_CORE_ASSET l' = wealth GRAPHENE_CORE_ASSET l + n ∧
    supply GRAPHENE_CORE_ASSET l' = supply GRAPHENE_CORE_ASSET l ∧
    (∀ k, held k l' = held k l + (if decide (k = (account, GRAPHENE_CORE_ASSET)) then n else 0)).
Proof.
  intros Hl Hn Hrun. unfold distribute in Hrun. destruct (Z.eqb_spec n 0) as [->|].
  { injection Hrun as <-. exists l. split_and!; [done..|lia|done|]. intros k. case_decide; lia. }
  apply on_ledger_Ok in Hrun as (l' & Hrun & ->). exists l'.
  destruct (credit_books _ _ _ _ _ _ _ Hl Hn Hrun) as (Hok & Hw & Hd & _).
  split_and!; [done..| |].
  - unfold supply. by rewrite Hd.
  - destruct (adjust_balance_returned _ _ _ (core n) _ _ _ (proj1 Hl) Hn Hrun) as ([[-> Hz]|Hc] & _).
    + cbn in Hz. lia.
    + intros k. exact (credited_held _ k _ _ _ Hc).
Qed.

Lemma is_configured_asset f :
  is_configured assets specials f = Ok true →
  ∃ j a b, designated_asset f = Some j ∧ assets !! j = Some a ∧ buyback_account a = Some b.
Proof.
  unfold is_configured. intros Hf.
  destruct (designated_asset f) as [j|]; [|done]. destruct (assets !! j) as [a|] eqn:Ha; [|done].
  repeat (case_match; try done). by exists j, a, z.
Qed.

(** What a split does to the ledger: [fees] leave the accumulator, [paid] is credited. *)
Definition split_of (fees : Z) (paid : Z * Z → Z) (l l' : ledger) : Prop :=
  books_ok l' ∧
  wealth GRAPHENE_CORE_ASSET l' - supply GRAPHENE_CORE_ASSET l' =
    wealth GRAPHENE_CORE_ASSET l - supply GRAPHENE_CORE_ASSET l + fees ∧
  supply GRAPHENE_CORE_ASSET l' ≤ supply GRAPHENE_CORE_ASSET l ∧
  ∀ k, held k l' = held k l + paid k.

(** What the buyback account and the issuer receive. *)
Definition paid_to (buyback issuer b n : Z) (k : Z * Z) : Z :=
  (if decide (k = (buyback, GRAPHENE_CORE_ASSET)) then b else 0) +
  (if decide (k = (issuer, GRAPHENE_CORE_ASSET)) then n else 0).

Lemma pay_split account own network b n l fs s1 s2 s3 :
  books_ok l → int64 network → 0 ≤ network → int64 b → int64 n →
  (if negb (network =? 0) then burn_supply network else mret ()) (l, fs) = Ok ((), s1) →
  distribute account b 49 s1 = Ok ((), s2) → distribute own n 50 s2 = Ok ((), s3) →
  ∃ l', s3 = (l', fs) ∧ split_of (network + b + n) (paid_to account own b n) l l'.
Proof.
  intros Hl Hn Hpos Hb Hi H1 H2 H3.
  assert (∃ l1, s1 = (l1, fs) ∧ books_ok l1 ∧ wealth GRAPHENE_CORE_ASSET l1 = wealth GRAPHENE_CORE_ASSET l ∧
    supply GRAPHENE_CORE_ASSET l1 = supply GRAPHENE_CORE_ASSET l - network ∧ balances l1 = balances l)
    as (l1 & -> & Hl1 & Hw1 & Hs1 & Hb1).
  { destruct (Z.eqb_spec network 0) as [->|]; [|by apply burn_supply_Ok].
    injection H1 as <-. exists l. by rewrite Z.sub_0_r. }
  destruct (distribute_Ok _ _ _ _ _ _ Hl1 Hb H2) as (l2 & -> & Hl2 & Hw2 & Hs2 & Hh2).
  destruct (distribute_Ok _ _ _ _ _ _ Hl2 Hi H3) as (l3 & -> & Hl3 & Hw3 & Hs3 & Hh3).
  exists l3. split; [done|]. split_and!; [done|lia|lia|]. intros k. rewrite Hh3, Hh2. unfold held, paid_to. rewrite Hb1. lia.
Qed.

(** Splitting the fees of an accumulator neither makes nor loses shares: what the
    network takes leaves the supply, the rest goes to the buyback account and the issuer
    of a configured asset, in their percentages rounded down; the accumulator is empty. *)
Theorem split_fba_conserves i network_pct buyback_pct issuer_pct f l fs l' fs' :
  books_ok l → fs !! i = Some f → 0 ≤ accumulated_fba_fees f → int64 (accumulated_fba_fees f) →
  0 ≤ network_pct → 0 ≤ buyback_pct → 0 ≤ issuer_pct →
  split_fba_balance assets specials i network_pct buyback_pct issuer_pct (l, fs) = Ok ((), (l', fs')) →
  let fees := accumulated_fba_fees f in
  fs' = <[i := mk_fba 0 (designated_asset f)]> fs ∧
  ∃ paid, split_of fees paid l l' ∧
    (is_configured assets specials f = Ok false → ∀ k, paid k = 0) ∧
    (is_configured assets specials f = Ok true →
     ∃ j a account, designated_asset f = Some j ∧ assets !! j = Some a ∧ buyback_account a = Some account ∧
       ∀ k, paid k = paid_to account (issuer a) (fees * buyback_pct / GRAPHENE_100_PERCENT)
                        (fees * issuer_pct / GRAPHENE_100_PERCENT) k).
Proof.
  intros Hl Hf H0 Hi Hn Hb Hip Hrun fees. unfold split_fba_balance in Hrun.
  apply M_bind_Ok in Hrun as (? & ? & [Hsum ->]%assert_st_Ok & Hrun). apply Z.eqb_eq in Hsum.
  apply M_bind_Ok in Hrun as (? & ? & [-> ->]%get_st_Ok & Hrun). cbn [snd] in Hrun. rewrite Hf in Hrun.
  apply M_bind_Ok in Hrun as (? & ? & [[= <-] ->]%lift_Ok & Hrun). cbn zeta in Hrun. fold fees in Hrun, H0, Hi.
  destruct (Z.eqb_spec fees 0) as [Hz|Hnz].
  { injection Hrun as <- <-. split.
    - rewrite insert_id; [done|]. rewrite Hf. f_equal. destruct f as [g d]. unfold fees in Hz. cbn in *. by subst.
    - exists (λ _, 0). split; [split_and!; [done|lia|lia|intros; lia]|]. split; [done|].
      intros (j & a & b & Hj & Ha & Hba)%is_configured_asset. exists j, a, b. split_and!; [done..|].
      intros k. rewrite Hz. unfold paid_to. by repeat case_decide. }
  apply M_bind_Ok in Hrun as (c & ? & [Hc ->]%lift_Ok & Hrun). rewrite Hc. destruct c; cbn [negb] in Hrun.
  2: { apply M_bind_Ok in Hrun as ([] & s1 & H1 & Hr).
    destruct (burn_supply_Ok _ _ _ _ Hl Hi H1) as (l1 & -> & Hl1 & Hw & Hs & Hba). injection Hr as <- <-.
    split; [done|]. exists (λ _, 0). split; [|done]. split_and!; [done|lia|lia|].
    intros k. unfold held. rewrite Hba. lia. }
  apply is_configured_asset in Hc as (j & a & account & Hj & Ha & Hba).
  rewrite !share_of_spec in Hrun by (done || lia).
  pose proof (percent_bounds fees buyback_pct H0 ltac:(lia)) as Hb'.
  pose proof (percent_bounds fees issuer_pct H0 ltac:(lia)) as Hn'.
  set (b := fees * buyback_pct / GRAPHENE_100_PERCENT) in *. set (n := fees * issuer_pct / GRAPHENE_100_PERCENT) in *.
  apply M_bind_Ok in Hrun as (? & ? & [[= <-] ->]%lift_Ok & Hrun).
  apply M_bind_Ok in Hrun as (? & ? & [[= <-] ->]%lift_Ok & Hrun).
  apply M_bind_Ok in Hrun as (both & ? & [Hboth ->]%lift_Ok & Hrun).
  apply safe_add_Ok in Hboth as [-> Hi2]; [|int_lia..].
  apply M_bind_Ok in Hrun as (? & ? & [Hle%Z.leb_le ->]%assert_st_Ok & Hrun).
  apply M_bind_Ok in Hrun as (network & ? & [Hnet ->]%lift_Ok & Hrun).
  apply safe_sub_Ok in Hnet as [-> Hi3]; [|done..].
  apply M_bind_Ok in Hrun as (a' & ? & [Ha' ->]%lift_Ok & Hrun). rewrite Hj in Ha'. cbn in Ha'.
  rewrite Ha in Ha'. injection Ha' as <-.
  apply M_bind_Ok in Hrun as ([] & s1 & H1 & Hrun).
  apply M_bind_Ok in Hrun as (acct & ? & [Hacct ->]%lift_Ok & Hrun). rewrite Hba in Hacct. injection Hacct as <-.
  apply M_bind_Ok in Hrun as ([] & s2 & H2 & Hrun). apply M_bind_Ok in Hrun as ([] & s3 & H3 & Hr).
  destruct (pay_split account (issuer a) (fees - (b + n)) b n _ _ _ _ _ Hl Hi3 ltac:(lia) ltac:(int_lia) ltac:(int_lia) H1 H2 H3) as (l3 & -> & Hsplit).
  injection Hr as <- <-. split; [done|]. exists (paid_to account (issuer a) b n). split; [|split; [done|]].
  - by replace fees with (fees - (b + n) + b + n) by lia.
  - intros _. by exists j, a, account.
Qed.
End Split.

(** * Witnesses *)
Module MaintenanceExample.

(** The treasury of the budget's example; account 7 votes for the two committee members,
    and its authority is in the hands of the two richest holders of asset 5. *)
Definition books_of_asset (l : ledger) : ledger :=
  set_balances (<[(7, 5) := 10]> (<[(8, 5) := 40000]> (<[(9, 5) := 100000]> (<[(10, 5) := 30]> (balances l))))) l.

Definition held_by_others : special_account := mk_special (top_holders 5 2) (top_holders 5 3) 0.

Definition parameters (interval : Z) : maintenance_parameters :=
  mk_maintenance_parameters VotesExample.params interval 5 10 86400 4 1000 640 0 2 0.

Definition voter_7 : voter := VotesExample.opinion 7 5 [vote_id 0 1; vote_id 0 2].

Definition start : maintenance () :=
  mk_maintenance (set_props (mk_budget_properties 700 500 0 0 0 0 0 0 0 0 0)
                    (set_books (books_of_asset (books BudgetExample.plenty)) BudgetExample.plenty))
    {[ 1 := mk_fba 1000 (Some 5); 2 := mk_fba 0 None; 3 := mk_fba 7 None ]}
    no_buffers [voter_7] ∅ (VotesExample.before identity_enable)
    {[ 7 := VotesExample.no_authority ]} {[ 7 := held_by_others ]} [7] (parameters 100) (Some (parameters 300)) 17 ().

Definition asset_5 : fba_asset := mk_fba_asset false 1 0 (Some 12) 7.

Definition maintained : result (maintenance ()) :=
  perform_chain_maintenance Ok Ok (λ t, t) Z.log2 {[ 5 := asset_5 ]} (1, 2, 3) 20 1000 start.
Definition after_maintenance : maintenance () := match maintained with Ok m => m | Throw _ => start end.

(** The maintenance that was due at 700 runs at 1000, the next is due at 1300. *)
Lemma maintenance_schedules_next_witness :
  maintained = Ok after_maintenance ∧
  1000 < next_maintenance_time (props (m_treasury after_maintenance)) ≤ 1300.
Proof.
  assert (maintained = Ok after_maintenance) as Hrun.
  { assert (is_ok maintained = true) as Hok by (vm_compute; reflexivity).
    unfold after_maintenance. destruct maintained as [m|]; [done|]. cbn in Hok. congruence. }
  split; [exact Hrun|].
  destruct (maintenance_schedules_next Ok Ok (λ t, t) Z.log2 {[ 5 := asset_5 ]} (1, 2, 3) 20 start after_maintenance)
    as (_ & Hlt & _ & Hle & _); [exact Hrun|reflexivity|discriminate|discriminate|reflexivity|].
  split; [exact Hlt|]. apply Hle. vm_compute. discriminate.
Defined.

Definition books_5 : ledger := books (m_treasury start).

Lemma books_5_ok : books_ok books_5.
Proof.
  split.
  - intros [a i] b Hb. revert Hb. unfold books_5. cbn [start m_treasury set_props set_books books].
    unfold books_of_asset. cbn [balances set_balances].
    intros [[_ <-]|[_ [[_ <-]|[_ [[_ <-]|[_ [[_ <-]|[_ Hb]]%lookup_insert_Some]]%lookup_insert_Some]]%lookup_insert_Some]]%lookup_insert_Some;
      try int_lia. apply (proj1 (ok_books _ BudgetExample.plenty_ok) _ _ Hb).
  - destruct (ok_books _ BudgetExample.plenty_ok) as [_ [Hv Hn Hd]]. by constructor.
Qed.

(** Without account 7 itself, 9 and 8 hold the most of asset 5. *)
Lemma top_holders_control_witness :
  ∃ votes a, richest 7 5 2 books_5 votes ∧ majority_authority votes a ∧
    owner_authority (visit Z.log2 books_5 7 true (top_holders 5 2)
                      (mk_authorities (m_owner start) ∅ (m_specials start))) !! 7 = Some a.
Proof.
  destruct (top_holders_control Z.log2 books_5 7 true 5 1 (mk_authorities (m_owner start) ∅ (m_specials start))
    VotesExample.no_authority) as (votes & a & Hr & Ha & _ & _ & _ & Hm).
  - by intros v _.
  - apply books_5_ok.
  - reflexivity.
  - reflexivity.
  - exists votes, a. destruct Hm as [Hm _]; [|exact (conj Hr (conj Hm Ha))].
    intros Hv. destruct Hr as (rest & _ & Hin & Hlen & _ & Hmax).
    assert (∀ q, q ∈ votes → q.2 ≤ 0) as Hzero.
    { intros q Hq. destruct (Z.le_gt_cases q.2 0) as [|Hpos]; [done|].
      assert (q ∈ voted votes) as Hvq by (by apply list_elem_of_filter; split; [lia|]). rewrite Hv in Hvq.
      by apply not_elem_of_nil in Hvq. }
    assert ((9, 100000) ∈ votes ++ rest) as [H9|H9]%elem_of_app by (apply Hin; split; [vm_compute; reflexivity|done]).
    + specialize (Hzero _ H9). cbn in Hzero. lia.
    + destruct rest as [|r rest]; [by apply not_elem_of_nil in H9|].
      assert (length votes = 2%nat) as Hl by (by apply Hlen).
      destruct votes as [|p votes]; [done|].
      assert (p ∈ p :: votes) as Hp by left. pose proof (Hzero p Hp). specialize (Hmax p _ Hp H9). cbn in Hmax. lia.
Defined.

Definition controlled : gmap Z special_account := {[ 7 := mk_special (top_holders 5 2) (top_holders 5 3) 3 ]}.

(** Of 1000, the buyback account 12 gets 600, the issuer 7 and the network 200 each. *)
Lemma split_fba_conserves_witness :
  ∃ l' fs', split_fba_balance {[ 5 := asset_5 ]} controlled 1 2000 6000 2000 (books_5, m_fbas start) = Ok ((), (l', fs')) ∧
    fs' !! 1 = Some (mk_fba 0 (Some 5)) ∧ held (12, 0) l' = 600 ∧
    wealth 0 l' - supply 0 l' = wealth 0 books_5 - supply 0 books_5 + 1000.
Proof.
  destruct (split_fba_balance {[ 5 := asset_5 ]} controlled 1 2000 6000 2000 (books_5, m_fbas start))
    as [[[] [l' fs']]|e] eqn:Hrun.
  2: { exfalso. assert (is_ok (split_fba_balance {[ 5 := asset_5 ]} controlled 1 2000 6000 2000 (books_5, m_fbas start)) = true)
         as Hok by (vm_compute; reflexivity). by rewrite Hrun in Hok. }
  exists l', fs'. split; [reflexivity|].
  destruct (split_fba_conserves {[ 5 := asset_5 ]} controlled 1 2000 6000 2000 (mk_fba 1000 (Some 5)) books_5 (m_fbas start) l' fs')
    as (-> & paid & (_ & Hw & _ & Hheld) & _ & Hpaid); try (exact Hrun || exact books_5_ok || reflexivity || cbn; lia).
  { cbn. int_lia. }
  split; [reflexivity|]. split; [|exact Hw].
  destruct Hpaid as (j & a & account & [= <-] & Ha & Hacc & Hp); [vm_compute; reflexivity|].
  assert (a = asset_5) as -> by (by vm_compute in Ha; injection Ha as <-).
  injection Hacc as <-. rewrite Hheld, Hp. vm_compute. reflexivity.
Defined.
End MaintenanceExample.
