(* ===== verification/Accounts.v ===== *)
(** * Accounts: libraries/chain/account_evaluator.cpp and what it calls

    The registry of accounts and the operations that create, update, configure and upgrade
    them.  The fields of an account that take part in fees are in the ledger of Balance, as
    the rest of the ledger is; names, authorities, options and special authorities are its
    [profile] here.  The flag of a month ([get_month_flag]) and the canonical form of the
    two configurations that are JSON are parameters. *)

From S2P Require Import Prelude Safe Uint128 Asset Vesting Balance Fees Authority Votes Maintenance Names.

Local Open Scope Z_scope.

(** ** protocol/account.hpp *)

Record account_options := mk_options { voting_account : Z; num_witness : Z; num_committee : Z; num_budget : Z;
  votes : list Z }.

(** The types of a vote. *)
Definition committee_vote : Z := 0.
Definition witness_vote : Z := 1.
Definition gateway_vote : Z := 3.
Definition carrier_vote : Z := 4.
Definition budget_vote : Z := 5.

(** One vote in [account_options::validate]: it counts down what is still needed. *)
Definition count_down (needed : Z * Z * Z) (id : Z) : Z * Z * Z :=
  let '(w, c, b) := needed in
  if (vote_type id =? witness_vote) && negb (w =? 0) then (w - 1, c, b)
  else if (vote_type id =? committee_vote) && negb (c =? 0) then (w, c - 1, b)
  else if (vote_type id =? budget_vote) && negb (b =? 0) then (w, c, b - 1)
  else needed.

Definition options_validate (o : account_options) : result () :=
  let '(w, c, b) := foldl count_down (num_witness o, num_committee o, num_budget o) (votes o) in
  FC_ASSERT ((w =? 0) && (c =? 0) && (b =? 0)).

Record buyback_account_options := mk_buyback { asset_to_buy : Z; asset_to_buy_issuer : Z; markets : gset Z }.

Record account_create_operation := mk_account_create {
  create_fee_amount : Z;
  create_registrar : Z;
  create_referrer : Z;
  referrer_percent : Z;
  create_name : string;
  create_owner : authority;
  create_active : authority;
  create_limitactive : authority;
  create_options : account_options;
  create_owner_special : option special_authority;
  create_active_special : option special_authority;
  buyback_options : option buyback_account_options
}.

Record account_update_operation := mk_account_update {
  update_fee_amount : Z;
  update_account : Z;
  new_owner : option authority;
  new_active : option authority;
  new_limitactive : option authority;
  new_options : option account_options;
  new_owner_special : option special_authority;
  new_active_special : option special_authority
}.

(** ** protocol/account.cpp *)

Definition HARDFORK_200101_TIME : Z := 1577808000.

(** [account_create_operation::get_referrer_percent], in 16 bits. *)
Definition get_referrer_percent (o : account_create_operation) (now : Z) : Z :=
  let has_small_percent :=
    (now <=? HARDFORK_200101_TIME) && negb (create_referrer o =? create_registrar o) &&
    negb (referrer_percent o =? 0) && (referrer_percent o <=? 256) in
  if has_small_percent then
    let r := to_uint 16 (referrer_percent o * 100) in
    if GRAPHENE_100_PERCENT <? r then GRAPHENE_100_PERCENT else r
  else referrer_percent o.

Definition validate_special_authority (a : special_authority) : result () :=
  match a with no_special_authority => Ok () | top_holders _ n => FC_ASSERT (0 <? n) end.
Definition validate_special (a : option special_authority) : result () :=
  match a with Some a => validate_special_authority a | None => Ok () end.

Definition null_authority : authority := mk_authority 1 [(GRAPHENE_NULL_ACCOUNT, 1)] [] [].

(** The assertions about an authority of an operation. *)
Definition authority_usable (a : authority) : result () :=
  FC_ASSERT (negb (num_auths a =? 0)) ;;
  FC_ASSERT (bool_decide (address_auths a = [])) ;;
  FC_ASSERT (negb (is_impossible a)).

Definition account_create_validate (o : account_create_operation) : result () :=
  FC_ASSERT (0 <=? create_fee_amount o) ;;
  FC_ASSERT (is_valid_name (create_name o)) ;;
  FC_ASSERT (is_safe_string (create_name o)) ;;
  FC_ASSERT (referrer_percent o <=? GRAPHENE_100_PERCENT) ;;
  authority_usable (create_owner o) ;;
  authority_usable (create_active o) ;;
  options_validate (create_options o) ;;
  validate_special (create_owner_special o) ;;
  validate_special (create_active_special o) ;;
  match buyback_options o with
  | None => Ok ()
  | Some b =>
      FC_ASSERT (bool_decide (create_owner_special o = None)) ;;
      FC_ASSERT (bool_decide (create_active_special o = None)) ;;
      FC_ASSERT (bool_decide (create_owner o = null_authority)) ;;
      FC_ASSERT (bool_decide (create_active o = null_authority)) ;;
      FC_ASSERT (bool_decide (markets b ≠ ∅)) ;;
      FC_ASSERT (bool_decide (asset_to_buy b ∉ markets b))
  end.

Definition optionally {A} (f : A → result ()) (x : option A) : result () :=
  match x with Some x => f x | None => Ok () end.

Definition account_update_validate (o : account_update_operation) : result () :=
  FC_ASSERT (negb (update_account o =? GRAPHENE_TEMP_ACCOUNT)) ;;
  FC_ASSERT (0 <=? update_fee_amount o) ;;
  FC_ASSERT (negb (update_account o =? 0)) ;;
  FC_ASSERT (bool_decide (is_Some (new_owner o)) || bool_decide (is_Some (new_active o)) ||
    bool_decide (is_Some (new_limitactive o)) || bool_decide (is_Some (new_options o)) ||
    bool_decide (is_Some (new_owner_special o)) || bool_decide (is_Some (new_active_special o))) ;;
  optionally authority_usable (new_owner o) ;;
  optionally authority_usable (new_active o) ;;
  optionally options_validate (new_options o) ;;
  optionally validate_special_authority (new_owner_special o) ;;
  optionally validate_special_authority (new_active_special o).

(** ** The registry *)

(** The rest of [account_object]. *)
Record profile := mk_profile {
  name : string;
  membership_expiration_date : Z;
  register_date : Z;
  owner : authority;
  active : authority;
  limitactive : authority;
  options : account_options;
  special : special_account;
  allowed_assets : option (gset Z);
  configs : gmap string string
}.

Definition time_point_sec_maximum : Z := 2 ^ 32 - 1.
Definition is_lifetime_member (p : profile) : bool := time_point_sec_maximum <=? membership_expiration_date p.
Definition is_basic_account (now : Z) (p : profile) : bool := membership_expiration_date p <? now.
Definition is_annual_member (now : Z) (p : profile) : bool := negb (is_lifetime_member p) && negb (is_basic_account now p).

Definition is_special (a : special_authority) : bool := match a with no_special_authority => false | _ => true end.
Definition has_special_authority (p : profile) : bool :=
  is_special (owner_special_authority (special p)) || is_special (active_special_authority (special p)).

Record registry_parameters := mk_registry_parameters {
  maximum_authority_membership : Z;
  max_witnesses : Z;
  max_committee : Z;
  max_budget : Z;
  network_percent_of_fee : Z;
  lifetime_referrer_percent_of_fee : Z;
  accounts_per_fee_scale : Z;
  account_fee_scale_bitshifts : Z;
  basic_fee : Z
}.

Record registry := mk_registry {
  books : ledger;
  profiles : gmap Z profile;
  next_account_id : Z;
  (** The accounts that have a [special_authority_object]. *)
  special_index : gset Z;
  assets : gmap Z fba_asset;
  (** The ids one can vote for, those of all five indices. *)
  candidates : gset Z;
  accounts_registered_this_interval : Z;
  parameters : registry_parameters
}.

Definition set_books b r := mk_registry b (profiles r) (next_account_id r) (special_index r) (assets r) (candidates r)
  (accounts_registered_this_interval r) (parameters r).
Definition set_profiles p n r := mk_registry (books r) p n (special_index r) (assets r) (candidates r)
  (accounts_registered_this_interval r) (parameters r).
Definition set_special_index s r := mk_registry (books r) (profiles r) (next_account_id r) s (assets r) (candidates r)
  (accounts_registered_this_interval r) (parameters r).
Definition set_assets a r := mk_registry (books r) (profiles r) (next_account_id r) (special_index r) a (candidates r)
  (accounts_registered_this_interval r) (parameters r).
Definition set_registered n p r := mk_registry (books r) (profiles r) (next_account_id r) (special_index r) (assets r)
  (candidates r) n p.

Definition with_basic_fee (f : Z) (p : registry_parameters) : registry_parameters :=
  mk_registry_parameters (maximum_authority_membership p) (max_witnesses p) (max_committee p) (max_budget p)
    (network_percent_of_fee p) (lifetime_referrer_percent_of_fee p) (accounts_per_fee_scale p)
    (account_fee_scale_bitshifts p) f.

Definition on_books {A} (m : M ledger A) : M registry A := λ r,
  match m (books r) with Ok (a, l) => Ok (a, set_books l r) | Throw e => Throw e end.

(** [id( d )] for an account. *)
Definition get_profile (i : Z) : M registry profile :=
  r ← get_st; lift (match profiles r !! i with Some p => Ok p | None => Throw other_exception end).

(** ** What the evaluators verify *)

Definition verify_authority_accounts (r : registry) (a : authority) : result () :=
  GRAPHENE_ASSERT (num_auths a <=? maximum_authority_membership (parameters r)) account_max_auth_exceeded ;;
  foldr (λ p rest, GRAPHENE_ASSERT (bool_decide (is_Some (profiles r !! p.1))) account_auth_account_not_found ;; rest)
    (Ok ()) (account_auths a).

(** The loop of [verify_account_auth]: the three authorities of each account, [dep] being
    passed on. *)
Fixpoint verify_members (verify : authority → Z → result (bool * Z)) (r : registry) (l : list (Z * Z)) (dep : Z)
    : result (bool * Z) :=
  match l with
  | [] => Ok (false, dep)
  | (i, _) :: l =>
      match profiles r !! i with
      | None => Throw other_exception
      | Some p =>
          '(found, dep) ← verify (owner p) dep;
          if found : bool then mret (true, dep) else
          '(found, dep) ← verify (active p) dep;
          if found : bool then mret (true, dep) else
          '(found, dep) ← verify (limitactive p) dep;
          if found : bool then mret (true, dep) else verify_members verify r l dep
      end
  end.

(** [verify_account_auth]; [dep] is an unsigned number the calls share. *)
Fixpoint verify_account_auth (fuel : nat) (r : registry) (author_id : Z) (a : authority) (dep : Z) : result (bool * Z) :=
  match fuel with
  | O => Throw out_of_fuel
  | S fuel =>
      let dep := to_uint 32 (dep - 1) in
      if dep <=? 0 then Ok (false, dep)
      else if bool_decide (author_id ∈ (account_auths a).*1) then Ok (true, dep)
      else verify_members (verify_account_auth fuel r author_id) r (account_auths a) dep
  end.

(** [verify_account_votes]. *)
Definition votable (id : Z) : bool :=
  existsb (Z.eqb (vote_type id)) [committee_vote; budget_vote; witness_vote; gateway_vote; carrier_vote].

Definition verify_account_votes (r : registry) (o : account_options) : result () :=
  let p := parameters r in
  FC_ASSERT (num_witness o <=? max_witnesses p) ;;
  FC_ASSERT (num_committee o <=? max_committee p) ;;
  FC_ASSERT (num_budget o <=? max_budget p) ;;
  foldr (λ id rest, (if votable id then FC_ASSERT (bool_decide (id ∈ candidates r)) else Throw other_exception) ;; rest)
    (Ok ()) (votes o).

(** [evaluate_special_authority]: the asset must exist. *)
Definition evaluate_special (r : registry) (a : option special_authority) : result () :=
  match a with
  | Some (top_holders i _) => match assets r !! i with Some _ => Ok () | None => Throw other_exception end
  | _ => Ok ()
  end.

Definition GRAPHENE_DEFAULT_MAX_BUYBACK_MARKETS : nat := 4.

(** [evaluate_buyback_account_options]. *)
Definition evaluate_buyback (r : registry) (b : buyback_account_options) : result () :=
  match assets r !! asset_to_buy b with
  | None => Throw other_exception
  | Some a =>
      GRAPHENE_ASSERT (issuer a =? asset_to_buy_issuer b) account_create_buyback_incorrect_issuer ;;
      GRAPHENE_ASSERT (bool_decide (buyback_account a = None)) account_create_buyback_already_exists ;;
      GRAPHENE_ASSERT (size (markets b) <? GRAPHENE_DEFAULT_MAX_BUYBACK_MARKETS)%nat account_create_buyback_too_many_markets
  end.

(** Is there an account of this name? *)
Definition name_taken (r : registry) (n : string) : bool :=
  existsb (λ ip, String.eqb (name ip.2) n) (map_to_list (profiles r)).

(** ** account_create_evaluator *)

Section Evaluators.
Context `{Division128} (month_flag : Z → Z).

Definition create_evaluate (o : account_create_operation) : M registry () :=
  r ← get_st;
  assert_st (bool_decide (is_Some (profiles r !! voting_account (create_options o)))) ;;
  payer ← get_profile (create_registrar o);
  fees ← on_books (get accounts (create_registrar o));
  assert_st (is_lifetime_member payer || negb (is_cheap_name (create_name o))) ;;
  assert_st (negb (is_lock_balance fees)) ;;
  lift (verify_authority_accounts r (create_owner o)) ;;
  lift (verify_authority_accounts r (create_active o)) ;;
  lift (verify_authority_accounts r (create_limitactive o)) ;;
  lift (evaluate_special r (create_owner_special o)) ;;
  lift (evaluate_special r (create_active_special o)) ;;
  lift (optionally (evaluate_buyback r) (buyback_options o)) ;;
  lift (verify_account_votes r (create_options o)) ;;
  assert_st (String.eqb (create_name o) "" || negb (name_taken r (create_name o))) ;;
  assert_st (get_referrer_percent o (head_block_time (books r)) <=? GRAPHENE_100_PERCENT).

(** The new account: its fees and its profile. *)
Definition new_fees (o : account_create_operation) (lifetime : Z) (r : registry) : account_object :=
  mk_account (create_registrar o) (create_referrer o) lifetime (network_percent_of_fee (parameters r))
    (lifetime_referrer_percent_of_fee (parameters r)) (get_referrer_percent o (head_block_time (books r))) None 0.

Definition new_profile (o : account_create_operation) (now : Z) : profile :=
  mk_profile (create_name o) 0 now (create_owner o) (create_active o) (create_limitactive o) (create_options o)
    (mk_special (default no_special_authority (create_owner_special o)) (default no_special_authority (create_active_special o)) 0)
    ((λ b, {[asset_to_buy b]} ∪ markets b) <$> buyback_options o) ∅.

(** [create< account_object >]: names are unique in the index. *)
Definition insert_account (o : account_create_operation) : M registry Z :=
  r ← get_st;
  let i := next_account_id r in
  lifetime ← on_books (a ← get accounts (create_referrer o); mret (lifetime_referrer a));
  on_books (s ← set_coupon month_flag i 0 true (mk_stats 0 0 0 0 0 0 0 0); put_statistics i s) ;;
  assert_st (negb (name_taken r (create_name o))) ;;
  on_books (modify_st (λ l, set_accounts (<[i := new_fees o lifetime r]> (accounts l)) l)) ;;
  modify_st (λ r, set_profiles (<[i := new_profile o (head_block_time (books r))]> (profiles r)) (i + 1) r) ;;
  mret i.

(** The count of the accounts of the interval, and the fee after every so many: a fee
    scale of 0 divides by it, and a shift by the width of the fee is undefined. *)
Definition count_registration : M registry () :=
  modify_st (λ r, set_registered (to_uint 32 (accounts_registered_this_interval r + 1)) (parameters r) r) ;;
  r ← get_st;
  let p := parameters r in
  lift (if accounts_per_fee_scale p =? 0 then Throw undefined_behaviour else Ok ()) ;;
  if accounts_registered_this_interval r mod accounts_per_fee_scale p =? 0 then
    lift (if 64 <=? account_fee_scale_bitshifts p then Throw undefined_behaviour else Ok ()) ;;
    put_st (set_registered (accounts_registered_this_interval r)
      (with_basic_fee (to_uint 64 (Z.shiftl (basic_fee p) (account_fee_scale_bitshifts p))) p) r)
  else mret ().

(** [create< special_authority_object >]: one for an account. *)
Definition create_special (i : Z) : M registry () :=
  r ← get_st;
  assert_st (bool_decide (i ∉ special_index r)) ;; put_st (set_special_index ({[i]} ∪ special_index r) r).

Definition set_buyback (account : Z) (a : fba_asset) : fba_asset :=
  mk_fba_asset (is_market_issued a) (issuer_permissions a) (asset_flags a) (Some account) (issuer a).

Definition create_apply (o : account_create_operation) : M registry Z :=
  i ← insert_account o;
  count_registration ;;
  (if bool_decide (is_Some (create_owner_special o)) || bool_decide (is_Some (create_active_special o))
   then create_special i else mret ()) ;;
  match buyback_options o with
  | None => mret ()
  | Some b =>
      r ← get_st;
      a ← lift (match assets r !! asset_to_buy b with Some a => Ok a | None => Throw other_exception end);
      put_st (set_assets (<[asset_to_buy b := set_buyback i a]> (assets r)) r)
  end ;;
  mret i.

(** ** account_update_evaluator *)

(** The check of a new authority of [o.account]. *)
Definition verify_new_authority (fuel : nat) (r : registry) (account : Z) (a : authority) : result () :=
  '(found, _) ← verify_account_auth fuel r account a (to_uint 32 (maximum_authority_membership (parameters r) + 1));
  FC_ASSERT (negb found) ;;
  verify_authority_accounts r a.

Definition account_sub_committe : Z := 128.

Definition update_evaluate (fuel : nat) (o : account_update_operation) : M registry () :=
  r ← get_st;
  lift (optionally (verify_new_authority fuel r (update_account o)) (new_owner o)) ;;
  lift (optionally (verify_new_authority fuel r (update_account o)) (new_active o)) ;;
  lift (optionally (verify_new_authority fuel r (update_account o)) (new_limitactive o)) ;;
  lift (evaluate_special r (new_owner_special o)) ;;
  lift (evaluate_special r (new_active_special o)) ;;
  a ← on_books (get accounts (update_account o));
  assert_st (Z.land (uaccount_property a) account_sub_committe =? 0) ;;
  assert_st (negb (is_lock_balance a)) ;;
  lift (optionally (verify_account_votes r) (new_options o)).

(** What the lambda of [modify] does to the account. *)
Definition update_profile (o : account_update_operation) (p : profile) : profile :=
  let changed := bool_decide (is_Some (new_owner o)) || bool_decide (is_Some (new_active o)) ||
    bool_decide (is_Some (new_limitactive o)) || bool_decide (is_Some (new_owner_special o)) ||
    bool_decide (is_Some (new_active_special o)) in
  mk_profile (name p) (membership_expiration_date p) (register_date p) (default (owner p) (new_owner o))
    (default (active p) (new_active o)) (default (limitactive p) (new_limitactive o)) (default (options p) (new_options o))
    (mk_special (default (owner_special_authority (special p)) (new_owner_special o))
       (default (active_special_authority (special p)) (new_active_special o))
       (if changed then 0 else top_n_control_flags (special p)))
    (allowed_assets p) (configs p).

(** The object the code removes from the index is asserted to be there; in a release
    build the assertion is gone and the end of the index is dereferenced. *)
Definition remove_special (i : Z) : M registry () :=
  r ← get_st;
  lift (if bool_decide (i ∈ special_index r) then Ok () else Throw undefined_behaviour) ;;
  put_st (set_special_index (special_index r ∖ {[i]}) r).

Definition update_apply (o : account_update_operation) : M registry () :=
  p ← get_profile (update_account o);
  let p' := update_profile o p in
  let sa_before := has_special_authority p in
  let sa_after := has_special_authority p' in
  modify_st (λ r, set_profiles (<[update_account o := p']> (profiles r)) (next_account_id r) r) ;;
  if sa_before && negb sa_after then remove_special (update_account o)
  else if negb sa_before && sa_after then create_special (update_account o) else mret ().

(** ** account_upgrade_evaluator *)

Definition upgrade_evaluate (account : Z) : M registry () :=
  p ← get_profile account;
  a ← on_books (get accounts account);
  assert_st (negb (is_lifetime_member p)) ;;
  assert_st (negb (is_lock_balance a)).

Definition upgrade_fees (i : Z) (a : account_object) : account_object :=
  mk_account i i i (network_fee_percentage a) (to_uint 16 (GRAPHENE_100_PERCENT - network_fee_percentage a))
    (referrer_rewards_percentage a) (cashback_vb a) (uaccount_property a).
Definition upgrade_profile (p : profile) : profile :=
  mk_profile (name p) time_point_sec_maximum (register_date p) (owner p) (active p) (limitactive p) (options p) (special p)
    (allowed_assets p) (configs p).

(** The annual membership is refused on both of its branches. *)
Definition upgrade_apply (upgrade_to_lifetime_member : bool) (account : Z) : M registry () :=
  p ← get_profile account;
  if upgrade_to_lifetime_member then
    on_books (a ← get accounts account;
              process_fees month_flag account a ;;
              a ← get accounts account;
              modify_st (λ l, set_accounts (<[account := upgrade_fees account a]> (accounts l)) l)) ;;
    modify_st (λ r, set_profiles (<[account := upgrade_profile p]> (profiles r)) (next_account_id r) r)
  else throw assert_exception.

(** ** account_config_evaluator *)

(** The canonical texts of the configurations "locktoken_recommend" and "sellPair", or
    the exception of the parser. *)
Context (recommend_json sell_pair_json : string → result string).

(** The loop of [do_evaluate] over the entries, in order. *)
Fixpoint config_evaluate (l : list (string * string)) (config : gmap string string) : result (gmap string string) :=
  match l with
  | [] => Ok config
  | (k, v) :: l =>
      config ← (if String.eqb k "locktoken_recommend"
                then c ← recommend_json v; mret (<[k := c]> config) else mret config);
      config ← (if String.eqb k "sellPair"
                then c ← sell_pair_json v; mret (<[k := c]> config) else mret (<[k := v]> config));
      config_evaluate l config
  end.

(** [account_config_operation::validate]. *)
Definition account_config_validate (l : list (string * string)) : result () :=
  foldr (λ kv rest,
    FC_ASSERT (0 <? String.length kv.1)%nat ;;
    FC_ASSERT (String.length kv.1 <? 100)%nat ;;
    FC_ASSERT (Z.of_nat (String.length kv.2) <? 10000) ;; rest) (Ok ()) l.

Definition set_configs (c : gmap string string) (p : profile) : profile :=
  mk_profile (name p) (membership_expiration_date p) (register_date p) (owner p) (active p) (limitactive p) (options p)
    (special p) (allowed_assets p) c.

Definition config_apply (op_type issuer : Z) (config : gmap string string) : M registry () :=
  p ← get_profile issuer;
  let c := if op_type =? 1 then configs p ∖ config else config ∪ configs p in
  modify_st (λ r, set_profiles (<[issuer := set_configs c p]> (profiles r)) (next_account_id r) r).

(** ** The operations, from validation to application *)

Inductive account_operation :=
  | create (o : account_create_operation)
  | update (o : account_update_operation)
  | upgrade (fee_amount account : Z) (upgrade_to_lifetime_member : bool)
  | configure (op_type issuer : Z) (config : list (string * string)).

Definition apply_account (fuel : nat) (op : account_operation) : M registry () :=
  match op with
  | create o => lift (account_create_validate o) ;; create_evaluate o ;; create_apply o ;; mret ()
  | update o => lift (account_update_validate o) ;; update_evaluate fuel o ;; update_apply o
  | upgrade fee i lifetime => assert_st (0 <=? fee) ;; upgrade_evaluate i ;; upgrade_apply lifetime i
  | configure t i l =>
      lift (account_config_validate l) ;;
      get_profile i ;;
      a ← on_books (get accounts i);
      assert_st (0 <=? uaccount_property a) ;;
      config ← lift (config_evaluate l ∅);
      config_apply t i config
  end.
End Evaluators.

(** ** The registry stays well formed *)

(** An account's fees but for its cashback, which fees create. *)
Definition terms (a : account_object) : account_object := set_cashback_vb a 0.

Section Terms.
Context `{Division128}.

Lemma get_same {A} (index : ledger → gmap Z A) (f : ledger → gmap Z account_object) i : same f (get index i).
Proof. intros l a l' Hg. by rewrite (get_state index i l a l' Hg). Qed.

Lemma create_lazy_vesting_accounts a n v o r : same accounts (create_lazy_vesting a n v o r).
Proof. intros l i l' Hrun. unfold create_lazy_vesting in Hrun. by inv_ok. Qed.

Lemma deposit_lazy_vesting_accounts vb a n v o r : same accounts (deposit_lazy_vesting vb a n v o r).
Proof.
  intros l x l' Hrun. unfold deposit_lazy_vesting in Hrun. case_match; [by inv_ok|].
  destruct vb as [i|]; [|inv_ok; by eapply create_lazy_vesting_accounts].
  apply M_bind_Ok in Hrun as (v0 & l1 & Hg & Hrun). apply get_state in Hg as ->.
  destruct (reusable_vesting _ _ _ _); inv_ok; [done|by eapply create_lazy_vesting_accounts].
Qed.

Lemma deposit_cashback_terms acct i n req : same (λ l, terms <$> accounts l) (deposit_cashback acct i n req).
Proof.
  intros l u l' Hrun. unfold deposit_cashback in Hrun. case_match; [by inv_ok|]. case_match.
  { apply M_bind_Ok in Hrun as (d & l1 & Hg & Hrun). apply get_state in Hg as ->. by inv_ok. }
  apply M_bind_Ok in Hrun as (a & ? & Hg & Hrun). apply get_Ok in Hg as [Ha ->].
  apply M_bind_Ok in Hrun as (? & ? & [= <- <-] & Hrun).
  apply M_bind_Ok in Hrun as (new & l1 & Hd & Hrun). pose proof (deposit_lazy_vesting_accounts _ _ _ _ _ _ _ _ _ Hd) as Hacc.
  destruct new as [v|]; [|inv_ok; by rewrite Hacc]. case_match; [inv_ok; by rewrite Hacc|].
  apply modify_st_Ok in Hrun as ->. cbn. rewrite Hacc, fmap_insert. apply insert_id. by rewrite lookup_fmap, Ha.
Qed.

Lemma put_statistics_terms i s : same (λ l, terms <$> accounts l) (put_statistics i s).
Proof. by apply same_modify. Qed.

Lemma pay_out_fees_terms a n req : same (λ l, terms <$> accounts l) (pay_out_fees a n req).
Proof.
  unfold pay_out_fees. repeat first [ apply get_same | apply deposit_cashback_terms | apply same_lift | by apply same_modify
                                    | apply same_bind; [|intros ?] ].
Qed.

Lemma set_coupon_terms mf own fee b s : same (λ l, terms <$> accounts l) (set_coupon mf own fee b s).
Proof.
  intros l s' l' Hrun. unfold set_coupon in Hrun. apply M_bind_Ok in Hrun as (? & ? & [= <- <-] & Hrun).
  repeat first [progress inv_ok | case_match]; done.
Qed.

Lemma burn_coupon_fees_terms i : same (λ l, terms <$> accounts l) (burn_coupon_fees i).
Proof.
  intros l u l' Hrun. unfold burn_coupon_fees in Hrun. apply M_bind_Ok in Hrun as (s & l1 & Hg & Hrun).
  apply get_state in Hg as ->. case_match; inv_ok; [|done].
  match goal with Hp : put_statistics _ _ _ = _ |- _ => exact (put_statistics_terms _ _ _ _ _ Hp) end.
Qed.

Lemma expire_coupon_terms mf i : same (λ l, terms <$> accounts l) (expire_coupon mf i).
Proof.
  intros l u l' Hrun. unfold expire_coupon in Hrun. apply M_bind_Ok in Hrun as (s & l1 & Hg & Hrun).
  apply get_state in Hg as ->. apply M_bind_Ok in Hrun as (? & ? & [= <- <-] & Hrun). case_match; [|by inv_ok].
  apply M_bind_Ok in Hrun as (s' & l1 & Hs & Hrun).
  by rewrite (put_statistics_terms _ _ _ _ _ Hrun), (set_coupon_terms _ _ _ _ _ _ _ _ Hs).
Qed.

Lemma process_fees_terms mf i a : same (λ l, terms <$> accounts l) (process_fees mf i a).
Proof.
  unfold process_fees, disseminate.
  repeat first [ apply pay_out_fees_terms | apply put_statistics_terms | apply burn_coupon_fees_terms | apply expire_coupon_terms
               | apply get_same | apply same_lift | apply same_ret | apply same_bind; [|intros ?] | progress case_match ].
Qed.
End Terms.

(** What an account of the registry relies on. *)
Record registry_ok (r : registry) : Prop := mk_registry_ok {
  ok_ids i p : profiles r !! i = Some p → i < next_account_id r;
  ok_accounts i : is_Some (accounts (books r) !! i) ↔ is_Some (profiles r !! i);
  ok_names i j p q : profiles r !! i = Some p → profiles r !! j = Some q → name p = name q → i = j;
  ok_percentages i a : accounts (books r) !! i = Some a → percentages_ok a;
  ok_special i : i ∈ special_index r ↔ ∃ p, profiles r !! i = Some p ∧ has_special_authority p = true;
  ok_tree i a : accounts (books r) !! i = Some a → ∃ b p,
    accounts (books r) !! lifetime_referrer a = Some b ∧ lifetime_referrer b = lifetime_referrer a ∧
    profiles r !! lifetime_referrer a = Some p ∧ is_lifetime_member p = true;
  ok_member i a p : accounts (books r) !! i = Some a → profiles r !! i = Some p → is_lifetime_member p = true →
    lifetime_referrer a = i;
  ok_params : 0 ≤ network_percent_of_fee (parameters r) ∧ 0 ≤ lifetime_referrer_percent_of_fee (parameters r) ∧
    network_percent_of_fee (parameters r) + lifetime_referrer_percent_of_fee (parameters r) ≤ GRAPHENE_100_PERCENT
}.

(** A profile may change all but its name and its membership, when the index of special
    authorities follows. *)
Lemma registry_ok_profile r i p p' s :
  registry_ok r → profiles r !! i = Some p → name p' = name p →
  membership_expiration_date p' = membership_expiration_date p →
  (∀ j, j ∈ s ↔ if decide (j = i) then has_special_authority p' = true else j ∈ special_index r) →
  registry_ok (set_special_index s (set_profiles (<[i := p']> (profiles r)) (next_account_id r) r)).
Proof.
  intros Hr Hp Hname Hexp Hs.
  assert (∀ j q', <[i := p']> (profiles r) !! j = Some q' → ∃ q, profiles r !! j = Some q ∧ name q' = name q ∧
    is_lifetime_member q' = is_lifetime_member q) as Hold.
  { intros j q' [[<- <-]|[_ Hq]]%lookup_insert_Some; [exists p|exists q']; split_and!; try done.
    unfold is_lifetime_member. by rewrite Hexp. }
  assert (∀ j, is_Some (<[i := p']> (profiles r) !! j) ↔ is_Some (profiles r !! j)) as Hdom.
  { intros j. destruct (decide (i = j)) as [->|]; [rewrite lookup_insert_eq, Hp|by rewrite lookup_insert_ne]. by split. }
  constructor; cbn [profiles set_profiles set_special_index next_account_id books special_index parameters].
  - intros j q' (q & Hq & _)%Hold. by eapply ok_ids.
  - intros j. rewrite Hdom. by apply ok_accounts.
  - intros j k q1 q2 (p1 & H1 & N1 & _)%Hold (p2 & H2 & N2 & _)%Hold Heq. eapply (ok_names r Hr); [done..|congruence].
  - by apply ok_percentages.
  - intros j. rewrite Hs. case_decide as Hj; [subst j|].
    + rewrite lookup_insert_eq. split; [by eauto|]. by intros (q & [= <-] & ?).
    + rewrite lookup_insert_ne by done. by apply ok_special.
  - intros j a Ha. destruct (ok_tree r Hr j a Ha) as (b & q & Hb & Hl & Hq & Hm).
    destruct (proj2 (Hdom (lifetime_referrer a))) as [q' Hq']; [by eexists|]. exists b, q'. split_and!; [done..|].
    destruct (Hold _ _ Hq') as (q0 & Hq0 & _ & ->). congruence.
  - intros j a q' Ha (q & Hq & _ & Hm)%Hold Hm'. eapply ok_member; [done..|congruence].
  - by apply ok_params.
Qed.

(** The fees of an account may change their cashback. *)
Lemma registry_ok_books r l :
  registry_ok r → terms <$> accounts l = terms <$> accounts (books r) → registry_ok (set_books l r).
Proof.
  intros Hr Hl.
  assert (∀ i a, accounts l !! i = Some a → ∃ a0, accounts (books r) !! i = Some a0 ∧ terms a = terms a0) as Hold.
  { intros i a Ha. assert ((terms <$> accounts l) !! i = Some (terms a)) as Ht by by rewrite lookup_fmap, Ha.
    rewrite Hl, lookup_fmap in Ht. destruct (accounts (books r) !! i) as [a0|]; [|done]. exists a0. split; [done|]. cbn in Ht. congruence. }
  assert (∀ i a0, accounts (books r) !! i = Some a0 → ∃ a, accounts l !! i = Some a ∧ terms a = terms a0) as Hnew.
  { intros i a Ha. assert ((terms <$> accounts (books r)) !! i = Some (terms a)) as Ht by by rewrite lookup_fmap, Ha.
    rewrite <- Hl, lookup_fmap in Ht. destruct (accounts l !! i) as [a0|]; [|done]. exists a0. split; [done|]. cbn in Ht. congruence. }
  assert (∀ a a0, terms a = terms a0 → lifetime_referrer a = lifetime_referrer a0 ∧ (percentages_ok a0 → percentages_ok a)) as Hterms.
  { intros [] []. unfold terms, set_cashback_vb. cbn. intros [=]. subst. done. }
  constructor; cbn [profiles set_books next_account_id books special_index parameters]; try apply Hr.
  - intros i. rewrite <- (ok_accounts r Hr i). split; intros [a Ha]; [destruct (Hold _ _ Ha) as (? & ? & _)|destruct (Hnew _ _ Ha) as (? & ? & _)]; by eexists.
  - intros i a (a0 & Ha0 & Ht)%Hold. apply (Hterms a a0 Ht). by eapply ok_percentages.
  - intros i a (a0 & Ha0 & Ht)%Hold. destruct (Hterms _ _ Ht) as [-> _].
    destruct (ok_tree r Hr i a0 Ha0) as (b & p & Hb & Hlb & Hp & Hm). destruct (Hnew _ _ Hb) as (b' & Hb' & Htb).
    destruct (Hterms _ _ Htb) as [Hb2 _]. exists b', p. split_and!; [done|congruence|done|done].
  - intros i a p (a0 & Ha0 & Ht)%Hold Hp Hm. destruct (Hterms _ _ Ht) as [-> _]. by eapply ok_member.
Qed.

(** A new account under a lifetime member. *)
Lemma registry_ok_insert r o now s lifetime b p0 :
  registry_ok r → accounts (books r) !! lifetime = Some b → lifetime_referrer b = lifetime →
  profiles r !! lifetime = Some p0 → is_lifetime_member p0 = true →
  name_taken r (create_name o) = false →
  0 ≤ get_referrer_percent o (head_block_time (books r)) ≤ GRAPHENE_100_PERCENT →
  (∀ j, j ∈ s ↔ if decide (j = next_account_id r) then has_special_authority (new_profile o now) = true else j ∈ special_index r) →
  let l := books r in let i := next_account_id r in
  registry_ok (set_special_index s (set_profiles (<[i := new_profile o now]> (profiles r)) (i + 1)
    (set_books (set_accounts (<[i := new_fees o lifetime r]> (accounts l)) l) r))).
Proof.
  intros Hr Hb Hlb Hp0 Hm0 Hname Hpct Hs l i.
  assert (∀ j q, profiles r !! j = Some q → j ≠ i) as Hfresh by (intros j q Hq ->; pose proof (ok_ids r Hr _ _ Hq); unfold i in *; lia).
  assert (∀ j q, profiles r !! j = Some q → name q ≠ create_name o) as Hnew.
  { intros j q Hq Heq. unfold name_taken in Hname. apply not_true_iff_false in Hname. apply Hname, existsb_exists.
    exists (j, q). split; [by apply list_elem_of_In, elem_of_map_to_list|]. cbn. rewrite Heq. by apply String.eqb_eq. }
  assert (accounts l !! i = None ∧ profiles r !! i = None) as [Hai Hpi].
  { assert (profiles r !! i = None) as Hn by (apply eq_None_not_Some; intros [q Hq]; by apply (Hfresh _ _ Hq)). split; [|done].
    apply eq_None_not_Some. intros Hx%(ok_accounts r Hr i). rewrite Hn in Hx. by destruct Hx. }
  assert (lifetime ≠ i) as Hli by by eapply Hfresh.
  assert (∀ j a, <[i := new_fees o lifetime r]> (accounts l) !! j = Some a →
    j = i ∧ a = new_fees o lifetime r ∨ j ≠ i ∧ accounts l !! j = Some a) as Hacc.
  { intros j a [[<- <-]|[]]%lookup_insert_Some; auto. }
  constructor; cbn [profiles set_profiles set_special_index set_books next_account_id books special_index parameters accounts set_accounts].
  - intros j q [[<- _]|[_ Hq]]%lookup_insert_Some; [lia|]. pose proof (ok_ids r Hr _ _ Hq). unfold i. lia.
  - intros j. destruct (decide (i = j)) as [<-|]; [by rewrite !lookup_insert_eq|]. rewrite !lookup_insert_ne by done. by apply ok_accounts.
  - intros j k p q [[<- <-]|[Hj Hp]]%lookup_insert_Some [[<- <-]|[Hk Hq]]%lookup_insert_Some Heq; [done| | |by eapply ok_names].
    + by destruct (Hnew _ _ Hq).
    + by destruct (Hnew _ _ Hp).
  - intros j a [[-> ->]|[_ Ha]]%Hacc; [|by eapply ok_percentages]. unfold percentages_ok, new_fees. cbn.
    destruct (ok_params r Hr) as (?&?&?). done.
  - intros j. rewrite Hs. case_decide as Hj; [subst j|].
    + rewrite lookup_insert_eq. split; [by eauto|]. by intros (q & [= <-] & ?).
    + rewrite lookup_insert_ne by done. by apply ok_special.
  - intros j a [[-> ->]|[_ Ha]]%Hacc.
    + cbn [new_fees lifetime_referrer]. exists b, p0. rewrite !lookup_insert_ne by done. done.
    + destruct (ok_tree r Hr j a Ha) as (c & q & Hc & Hlc & Hq & Hm). exists c, q.
      assert (lifetime_referrer a ≠ i) by by eapply Hfresh. by rewrite !lookup_insert_ne.
  - intros j a q [[-> ->]|[Hj Ha]]%Hacc.
    + rewrite lookup_insert_eq. by intros [= <-].
    + rewrite lookup_insert_ne by done. by apply ok_member.
  - by apply ok_params.
Qed.

Lemma upgrade_member p : is_lifetime_member (upgrade_profile p) = true.
Proof. apply Z.leb_refl. Qed.

(** An account that becomes a lifetime member is the top of its own tree. *)
Lemma registry_ok_upgrade r i a p :
  registry_ok r → accounts (books r) !! i = Some a → profiles r !! i = Some p →
  let l := books r in
  registry_ok (set_profiles (<[i := upgrade_profile p]> (profiles r)) (next_account_id r)
    (set_books (set_accounts (<[i := upgrade_fees i a]> (accounts l)) l) r)).
Proof.
  intros Hr Ha Hp l.
  assert (∀ j q', <[i := upgrade_profile p]> (profiles r) !! j = Some q' → ∃ q, profiles r !! j = Some q ∧ name q' = name q ∧
    has_special_authority q' = has_special_authority q ∧ (is_lifetime_member q' = true → j = i ∨ is_lifetime_member q = true)) as Hold.
  { intros j q' [[<- <-]|[_ Hq]]%lookup_insert_Some; [exists p; by auto|exists q'; by auto]. }
  assert (∀ j q, profiles r !! j = Some q → ∃ q', <[i := upgrade_profile p]> (profiles r) !! j = Some q' ∧
    has_special_authority q' = has_special_authority q ∧ (is_lifetime_member q = true → is_lifetime_member q' = true)) as Hnew.
  { intros j q Hq. destruct (decide (i = j)) as [<-|Hj]; [|exists q; by rewrite lookup_insert_ne].
    rewrite lookup_insert_eq. rewrite Hp in Hq. injection Hq as <-. eexists. split; [done|]. split; [done|]. intros _. apply upgrade_member. }
  destruct (ok_percentages r Hr _ _ Ha) as (Hn & _ & Hsum & Hrw).
  constructor; cbn [profiles set_profiles set_books next_account_id books special_index parameters accounts set_accounts].
  - intros j q' (q & Hq & _)%Hold. by eapply ok_ids.
  - intros j. destruct (decide (i = j)) as [<-|]; [by rewrite !lookup_insert_eq|]. rewrite !lookup_insert_ne by done. by apply ok_accounts.
  - intros j k q1 q2 (p1 & H1 & N1 & _)%Hold (p2 & H2 & N2 & _)%Hold Heq. eapply (ok_names r Hr); [done..|congruence].
  - intros j b [[<- <-]|[_ Hb]]%lookup_insert_Some; [|by eapply ok_percentages]. unfold percentages_ok, upgrade_fees. cbn.
    destruct (ok_percentages r Hr _ _ Ha) as (_ & Hl & _ & _). unfold GRAPHENE_100_PERCENT in *.
    rewrite to_uint_id by (unfold uint; lia). lia.
  - intros j. rewrite (ok_special r Hr j). split.
    + intros (q & Hq & Hs). destruct (Hnew _ _ Hq) as (q' & Hq' & Hs' & _). exists q'. split; [done|congruence].
    + intros (q' & Hq' & Hs). destruct (Hold _ _ Hq') as (q & Hq & _ & Hs' & _). exists q. split; [done|congruence].
  - intros j b [[<- <-]|[Hj Hb]]%lookup_insert_Some.
    + cbn [upgrade_fees lifetime_referrer]. exists (upgrade_fees i a), (upgrade_profile p). rewrite !lookup_insert_eq. split_and!; [done|done|done|apply upgrade_member].
    + destruct (ok_tree r Hr j b Hb) as (c & q & Hc & Hlc & Hq & Hm). destruct (Hnew _ _ Hq) as (q' & Hq' & _ & Hm').
      destruct (decide (i = lifetime_referrer b)) as [Hi|Hi].
      * exists (upgrade_fees i a), q'. rewrite <- Hi in *. rewrite lookup_insert_eq. split_and!; auto.
      * exists c, q'. rewrite lookup_insert_ne by done. split_and!; auto.
  - intros j b q' Hb (q & Hq & _ & _ & Hm)%Hold Hq'. apply lookup_insert_Some in Hb as [[<- <-]|[Hj Hb]]; [done|].
    destruct (Hm Hq') as [->|Hm']; [done|]. by eapply ok_member.
  - by apply ok_params.
Qed.

(** What has nothing to do with accounts. *)
Lemma registry_ok_registered r n f : registry_ok r → registry_ok (set_registered n (with_basic_fee f (parameters r)) r).
Proof. intros []. by constructor. Qed.

Lemma registry_ok_assets r a : registry_ok r → registry_ok (set_assets a r).
Proof. intros []. by constructor. Qed.

Lemma registry_books_Ok {A} (m : M ledger A) r a r' :
  on_books m r = Ok (a, r') → ∃ l, m (books r) = Ok (a, l) ∧ r' = set_books l r.
Proof. unfold on_books. destruct (m (books r)) as [[b l]|]; [|done]. intros [= -> <-]. by exists l. Qed.

Lemma get_profile_Ok i r p r' : get_profile i r = Ok (p, r') → profiles r !! i = Some p ∧ r' = r.
Proof. unfold get_profile. intros Hg. inv_ok. by case_match; simplify_eq. Qed.

Lemma registry_books_id r : set_books (books r) r = r.
Proof. by destruct r. Qed.

Lemma get_books {A} (index : ledger → gmap Z A) i r a r' :
  on_books (get index i) r = Ok (a, r') → index (books r) !! i = Some a ∧ r' = r.
Proof.
  intros (l & Hg & ->)%registry_books_Ok. apply get_Ok in Hg as [Ha ->]. split; [done|]. apply registry_books_id.
Qed.

(** *** Creation *)
Definition clock (l : ledger) := (accounts l, head_block_time l).

Lemma set_coupon_clock mf own fee b s : same clock (set_coupon mf own fee b s).
Proof.
  intros l s' l' Hrun. unfold set_coupon in Hrun. apply M_bind_Ok in Hrun as (? & ? & [= <- <-] & Hrun).
  repeat first [progress inv_ok | case_match]; done.
Qed.

Lemma first_coupon_clock mf i :
  same clock (s ← set_coupon mf i 0 true (mk_stats 0 0 0 0 0 0 0 0); put_statistics i s).
Proof. apply same_bind; [apply set_coupon_clock|intros s]. by apply same_modify. Qed.

Lemma insert_account_Ok mf o r i r' :
  insert_account mf o r = Ok (i, r') →
  i = next_account_id r ∧ name_taken r (create_name o) = false ∧
  ∃ a l, accounts (books r) !! create_referrer o = Some a ∧ clock l = clock (books r) ∧
    r' = set_profiles (<[i := new_profile o (head_block_time l)]> (profiles r)) (i + 1)
      (set_books (set_accounts (<[i := new_fees o (lifetime_referrer a) (set_books l r)]> (accounts l)) l) r).
Proof.
  unfold insert_account. intros Hrun. apply M_bind_Ok in Hrun as (? & ? & [= <- <-] & Hrun).
  apply M_bind_Ok in Hrun as (lt & r1 & (l0 & Hlt & ->)%registry_books_Ok & Hrun).
  apply M_bind_Ok in Hlt as (a & l1 & Hg & Hlt). apply get_Ok in Hg as [Ha ->]. injection Hlt as <- <-. rewrite registry_books_id in Hrun.
  apply M_bind_Ok in Hrun as (u & r2 & (l & Hc & ->)%registry_books_Ok & Hrun). apply first_coupon_clock in Hc.
  apply M_bind_Ok in Hrun as (? & ? & [Hname%negb_true_iff ->]%assert_st_Ok & Hrun).
  apply M_bind_Ok in Hrun as (? & ? & (? & ->%modify_st_Ok & ->)%registry_books_Ok & Hrun).
  apply M_bind_Ok in Hrun as (? & ? & ->%modify_st_Ok & [= <- <-]).
  split; [done|]. split; [done|]. exists a, l. split; [done|]. split; [done|].
  injection Hc as Ha' Ht. unfold new_fees. cbn. by rewrite Ht.
Qed.

Lemma registered_id r :
  set_registered (accounts_registered_this_interval r) (with_basic_fee (basic_fee (parameters r)) (parameters r)) r = r.
Proof. destruct r as [? ? ? ? ? ? ? q]. by destruct q. Qed.

Lemma count_registration_Ok r u r' :
  count_registration r = Ok (u, r') → ∃ n f, r' = set_registered n (with_basic_fee f (parameters r)) r.
Proof.
  unfold count_registration. intros Hrun. apply M_bind_Ok in Hrun as (? & ? & ->%modify_st_Ok & Hrun).
  apply M_bind_Ok in Hrun as (? & ? & [= <- <-] & Hrun). apply M_bind_Ok in Hrun as (? & ? & [_ ->]%lift_Ok & Hrun).
  case_match; [apply M_bind_Ok in Hrun as (? & ? & [_ ->]%lift_Ok & ->%put_st_Ok)|injection Hrun as <-].
  - by eexists _, _.
  - eexists _, (basic_fee (parameters r)). unfold set_registered. cbn. by destruct (parameters r).
Qed.

Lemma create_special_Ok i r u r' : create_special i r = Ok (u, r') → r' = set_special_index ({[i]} ∪ special_index r) r.
Proof.
  unfold create_special. intros Hrun. apply M_bind_Ok in Hrun as (? & ? & [= <- <-] & Hrun).
  by apply M_bind_Ok in Hrun as (? & ? & [_ ->]%assert_st_Ok & ->%put_st_Ok).
Qed.

(** A special authority that is given says something. *)
Definition explicit_special (a : option special_authority) : Prop := a ≠ Some no_special_authority.

Lemma is_special_default a : explicit_special a → is_special (default no_special_authority a) = bool_decide (is_Some a).
Proof.
  unfold explicit_special. intros Ha. destruct a as [[|j n]|]; [done|by rewrite bool_decide_eq_true_2 by by eexists|].
  by rewrite bool_decide_eq_false_2 by by intros [? ?].
Qed.

Definition operation_typed (op : account_operation) : Prop :=
  match op with
  | create o => uint 16 (referrer_percent o) ∧ explicit_special (create_owner_special o) ∧ explicit_special (create_active_special o)
  | _ => True
  end.

Lemma referrer_percent_nonneg o now : uint 16 (referrer_percent o) → 0 ≤ get_referrer_percent o now.
Proof.
  intros Hu. unfold get_referrer_percent. repeat case_match; unfold uint, GRAPHENE_100_PERCENT in *; try lia.
  pose proof (to_uint_range 16 (referrer_percent o * 100)). unfold uint in *. lia.
Qed.

Lemma create_apply_ok mf o r i r' :
  registry_ok r → operation_typed (create o) →
  get_referrer_percent o (head_block_time (books r)) ≤ GRAPHENE_100_PERCENT →
  create_apply mf o r = Ok (i, r') → registry_ok r'.
Proof.
  intros Hr (Hu & Ho & Ha) Hpct Hrun. unfold create_apply in Hrun.
  apply M_bind_Ok in Hrun as (i' & r1 & (-> & Hname & a & l & Href & [= Hacc Htime] & Hr1)%insert_account_Ok & Hrun).
  apply M_bind_Ok in Hrun as (? & r2 & (n & f & Hr2)%count_registration_Ok & Hrun).
  apply M_bind_Ok in Hrun as (? & r3 & Hspecial & Hrun).
  assert (∃ assets', r' = set_assets assets' r3) as [assets' ->].
  { apply M_bind_Ok in Hrun as (? & ? & Hb & [= _ <-]). destruct (buyback_options o) as [b|].
    - apply M_bind_Ok in Hb as (? & ? & [= <- <-] & Hb). apply M_bind_Ok in Hb as (? & ? & [_ ->]%lift_Ok & ->%put_st_Ok). by eexists.
    - injection Hb as <-. exists (assets r3). by destruct r3. }
  apply registry_ok_assets. set (p := new_profile o (head_block_time l)).
  assert (∃ s, r3 = set_special_index s r2 ∧
    (∀ j, j ∈ s ↔ if decide (j = next_account_id r) then has_special_authority p = true else j ∈ special_index r)) as (s & -> & Hs).
  { assert (has_special_authority p = bool_decide (is_Some (create_owner_special o)) || bool_decide (is_Some (create_active_special o))) as Hp.
    { unfold has_special_authority, p, new_profile. cbn [special owner_special_authority active_special_authority]. by rewrite !is_special_default. }
    rewrite <- Hp in Hspecial. assert (special_index r2 = special_index r) as Hi by by rewrite Hr2, Hr1.
    assert (next_account_id r ∉ special_index r) as Hfresh.
    { intros (q & Hq & _)%(ok_special r Hr). pose proof (ok_ids r Hr _ _ Hq). lia. }
    destruct (has_special_authority p).
    - apply create_special_Ok in Hspecial as ->. rewrite Hi. eexists. split; [done|]. intros j. case_decide; set_solver.
    - injection Hspecial as <-. exists (special_index r). split; [rewrite <- Hi; by destruct r2|].
      intros j. case_decide; [subst j|done]. split; [done|by intros]. }
  subst r2 r1. destruct (ok_tree r Hr _ _ Href) as (b & q & Hb & Hlb & Hq & Hm).
  apply (registry_ok_registered (set_special_index s (set_profiles (<[next_account_id r := p]> (profiles r)) (next_account_id r + 1)
    (set_books (set_accounts (<[next_account_id r := new_fees o (lifetime_referrer a) (set_books l r)]> (accounts l)) l) r))) n f).
  apply (registry_ok_insert (set_books l r) o (head_block_time l) s (lifetime_referrer a) b q); cbn [books set_books profiles]; try done.
  - apply registry_ok_books; [done|by rewrite Hacc].
  - by rewrite Hacc.
  - rewrite Htime. split; [|done]. by apply referrer_percent_nonneg.
Qed.

(** *** The other operations *)
Lemma set_special_index_id r : set_special_index (special_index r) r = r.
Proof. by destruct r. Qed.

Lemma remove_special_Ok i r u r' : remove_special i r = Ok (u, r') → r' = set_special_index (special_index r ∖ {[i]}) r.
Proof.
  unfold remove_special. intros Hrun. apply M_bind_Ok in Hrun as (? & ? & [= <- <-] & Hrun).
  by apply M_bind_Ok in Hrun as (? & ? & [_ ->]%lift_Ok & ->%put_st_Ok).
Qed.

Lemma update_apply_ok o r u r' : registry_ok r → update_apply o r = Ok (u, r') → registry_ok r'.
Proof.
  intros Hr Hrun. unfold update_apply in Hrun. apply M_bind_Ok in Hrun as (p & ? & [Hp ->]%get_profile_Ok & Hrun).
  apply M_bind_Ok in Hrun as (? & r1 & ->%modify_st_Ok & Hrun). set (i := update_account o) in *. set (p' := update_profile o p) in *.
  pose proof (ok_special r Hr i) as Hi. rewrite Hp in Hi.
  assert (i ∈ special_index r ↔ has_special_authority p = true) as Hin.
  { rewrite Hi. split; [by intros (q & [= <-] & ?)|by eauto]. }
  assert (∃ s, r' = set_special_index s (set_profiles (<[i := p']> (profiles r)) (next_account_id r) r) ∧
    ∀ j, j ∈ s ↔ if decide (j = i) then has_special_authority p' = true else j ∈ special_index r) as (s & -> & Hs).
  { destruct (has_special_authority p) eqn:Hb, (has_special_authority p') eqn:Ha; cbn [andb negb] in Hrun.
    - injection Hrun as <-. exists (special_index r). split; [done|]. intros j. case_decide; [subst j; tauto|done].
    - apply remove_special_Ok in Hrun as ->. eexists. split; [done|]. intros j. case_decide; set_solver.
    - apply create_special_Ok in Hrun as ->. eexists. split; [done|]. intros j. case_decide; set_solver.
    - injection Hrun as <-. exists (special_index r). split; [done|]. intros j. case_decide; [subst j; tauto|done]. }
  by eapply registry_ok_profile.
Qed.

Lemma upgrade_apply_ok `{Division128} mf lifetime i r u r' :
  registry_ok r → upgrade_apply mf lifetime i r = Ok (u, r') → registry_ok r'.
Proof.
  intros Hr Hrun. unfold upgrade_apply in Hrun. apply M_bind_Ok in Hrun as (p & ? & [Hp ->]%get_profile_Ok & Hrun).
  destruct lifetime; [|done]. apply M_bind_Ok in Hrun as (? & r1 & (l & Hl & ->)%registry_books_Ok & ->%modify_st_Ok).
  apply M_bind_Ok in Hl as (a & ? & [Ha ->]%get_Ok & Hl). apply M_bind_Ok in Hl as (? & l1 & Hfees%process_fees_terms & Hl).
  apply M_bind_Ok in Hl as (a' & ? & [Ha' ->]%get_Ok & ->%modify_st_Ok).
  by apply (registry_ok_upgrade (set_books l1 r) i a' p); [apply registry_ok_books| |].
Qed.

Lemma config_apply_ok t i c r u r' : registry_ok r → config_apply t i c r = Ok (u, r') → registry_ok r'.
Proof.
  intros Hr Hrun. unfold config_apply in Hrun. apply M_bind_Ok in Hrun as (p & ? & [Hp ->]%get_profile_Ok & ->%modify_st_Ok).
  rewrite <- set_special_index_id. apply (registry_ok_profile r i p); try done.
  intros j. cbn [special_index set_profiles]. case_decide; [subst j|done]. rewrite (ok_special r Hr i), Hp.
  split; [by intros (q & [= <-] & ?)|by eauto].
Qed.

Lemma account_create_evaluate_Ok o r u r' :
  create_evaluate o r = Ok (u, r') → r' = r ∧ get_referrer_percent o (head_block_time (books r)) ≤ GRAPHENE_100_PERCENT.
Proof.
  unfold create_evaluate. intros Hrun. apply M_bind_Ok in Hrun as (? & ? & [= <- <-] & Hrun).
  apply M_bind_Ok in Hrun as (? & ? & [_ ->]%assert_st_Ok & Hrun). apply M_bind_Ok in Hrun as (p & ? & [_ ->]%get_profile_Ok & Hrun).
  apply M_bind_Ok in Hrun as (a & ? & [_ ->]%get_books & Hrun).
  repeat match type of Hrun with (_ ≫= _) _ = _ => apply M_bind_Ok in Hrun as (? & ? & [_ ->]%lift_Ok & Hrun) end.
  apply assert_st_Ok in Hrun as [?%Z.leb_le ->]. done.
Qed.

Lemma account_update_evaluate_Ok fuel o r u r' : update_evaluate fuel o r = Ok (u, r') → r' = r.
Proof.
  unfold update_evaluate. intros Hrun. apply M_bind_Ok in Hrun as (? & ? & [= <- <-] & Hrun).
  repeat match type of Hrun with
  | (lift _ ≫= _) _ = _ => apply M_bind_Ok in Hrun as (? & ? & [_ ->]%lift_Ok & Hrun)
  | (assert_st _ ≫= _) _ = _ => apply M_bind_Ok in Hrun as (? & ? & [_ ->]%assert_st_Ok & Hrun)
  | (on_books _ ≫= _) _ = _ => apply M_bind_Ok in Hrun as (? & ? & [_ ->]%get_books & Hrun)
  end. by apply lift_Ok in Hrun as [_ ->].
Qed.

Lemma upgrade_evaluate_Ok i r u r' : upgrade_evaluate i r = Ok (u, r') → r' = r.
Proof.
  unfold upgrade_evaluate. intros Hrun. apply M_bind_Ok in Hrun as (p & ? & [_ ->]%get_profile_Ok & Hrun).
  apply M_bind_Ok in Hrun as (a & ? & [_ ->]%get_books & Hrun). apply M_bind_Ok in Hrun as (? & ? & [_ ->]%assert_st_Ok & Hrun).
  by apply assert_st_Ok in Hrun as [_ ->].
Qed.

(** Whatever operation on accounts is applied, the registry stays well formed: every
    account has its fees and its profile, names are unique, the percentages of every
    account add up, its lifetime referrer is a lifetime member and at the top of its own
    tree, and exactly the accounts with a special authority have an entry in the index of
    special authorities.  A creation that gives [no_special_authority] explicitly is left
    out: see [explicit_none_is_indexed]. *)
Theorem registry_invariant `{Division128} month_flag recommend_json sell_pair_json fuel op r u r' :
  registry_ok r → operation_typed op →
  apply_account month_flag recommend_json sell_pair_json fuel op r = Ok (u, r') → registry_ok r'.
Proof.
  intros Hr Hop Hrun. destruct op as [o|o|f i lifetime|t i l]; cbn [apply_account] in Hrun.
  - apply M_bind_Ok in Hrun as (? & ? & [_ ->]%lift_Ok & Hrun). apply M_bind_Ok in Hrun as (? & ? & [-> Hpct]%account_create_evaluate_Ok & Hrun).
    apply M_bind_Ok in Hrun as (i & ? & Hrun & [= _ <-]). by eapply create_apply_ok.
  - apply M_bind_Ok in Hrun as (? & ? & [_ ->]%lift_Ok & Hrun). apply M_bind_Ok in Hrun as (? & ? & ->%account_update_evaluate_Ok & Hrun).
    by eapply update_apply_ok.
  - apply M_bind_Ok in Hrun as (? & ? & [_ ->]%assert_st_Ok & Hrun). apply M_bind_Ok in Hrun as (? & ? & ->%upgrade_evaluate_Ok & Hrun).
    by eapply upgrade_apply_ok.
  - apply M_bind_Ok in Hrun as (? & ? & [_ ->]%lift_Ok & Hrun). apply M_bind_Ok in Hrun as (? & ? & [_ ->]%get_profile_Ok & Hrun).
    apply M_bind_Ok in Hrun as (a & ? & [_ ->]%get_books & Hrun). apply M_bind_Ok in Hrun as (? & ? & [_ ->]%assert_st_Ok & Hrun).
    apply M_bind_Ok in Hrun as (c & ? & [_ ->]%lift_Ok & Hrun). by eapply config_apply_ok.
Qed.

(** ** The scaling of the registration fee *)
Fixpoint registrations (n : nat) : M registry () :=
  match n with O => mret () | S n => registrations n ;; count_registration end.

Definition scaled (n : Z) (r : registry) : registry :=
  let p := parameters r in
  set_registered n (with_basic_fee (basic_fee p * 2 ^ (account_fee_scale_bitshifts p * (n / accounts_per_fee_scale p))) p) r.

Lemma div_succ n k : 0 < k → (n + 1) / k = n / k + (if (n + 1) mod k =? 0 then 1 else 0).
Proof.
  intros Hk. pose proof (Z.div_mod n k). pose proof (Z.div_mod (n + 1) k). pose proof (Z.mod_pos_bound n k Hk).
  pose proof (Z.mod_pos_bound (n + 1) k Hk). case_match eqn:He; [apply Z.eqb_eq in He|apply Z.eqb_neq in He]; nia.
Qed.

Section Scaling.
Context (r : registry).
Let p := parameters r.
Let fee n := basic_fee p * 2 ^ (account_fee_scale_bitshifts p * (n / accounts_per_fee_scale p)).
Context (Hstart : accounts_registered_this_interval r = 0) (Hper : 0 < accounts_per_fee_scale p)
  (Hshift : 0 <= account_fee_scale_bitshifts p) (Hfee : 0 <= basic_fee p).

Lemma fee_mono m n : 0 ≤ m ≤ n → fee m ≤ fee n.
Proof.
  intros Hmn. unfold fee. apply Z.mul_le_mono_nonneg_l; [done|]. apply Z.pow_le_mono_r; [lia|].
  apply Z.mul_le_mono_nonneg_l; [done|]. apply Z.div_le_mono; lia.
Qed.

(** While the fee fits, scaling shifts by less than its width. *)
Lemma shift_small n : 0 < basic_fee p → 0 ≤ n → fee n < 2 ^ 64 →
  account_fee_scale_bitshifts p * (n / accounts_per_fee_scale p) < 64.
Proof.
  intros Hb Hn Hf. apply (Z.pow_lt_mono_r_iff 2); [lia|lia|]. unfold fee in Hf.
  pose proof (Z.pow_pos_nonneg 2 (account_fee_scale_bitshifts p * (n / accounts_per_fee_scale p))).
  pose proof (Z.div_pos n (accounts_per_fee_scale p)). nia.
Qed.

Lemma count_registration_scaled n :
  0 < basic_fee p → 0 ≤ n → n + 1 < 2 ^ 32 → fee (n + 1) < 2 ^ 64 →
  count_registration (scaled n r) = Ok ((), scaled (n + 1) r).
Proof.
  intros Hb Hn Hlt Hf. pose proof (div_succ n (accounts_per_fee_scale p) Hper) as Hdiv.
  pose proof (Z.div_pos n (accounts_per_fee_scale p)) as Hq. pose proof (shift_small (n + 1) Hb) as Hs.
  assert (0 ≤ fee (n + 1)) as Hf0 by (unfold fee; pose proof (Z.pow_nonneg 2 (account_fee_scale_bitshifts p * ((n + 1) / accounts_per_fee_scale p))); nia).
  unfold count_registration, scaled, mbind, M_bind. fold p. cbn -[Z.pow Z.shiftl to_uint Z.leb].
  rewrite (to_uint_id 32 (n + 1)) by (unfold uint; lia).
  rewrite (proj2 (Z.eqb_neq (accounts_per_fee_scale p) 0)) by lia. cbn -[Z.pow Z.shiftl to_uint Z.leb].
  destruct ((n + 1) mod accounts_per_fee_scale p =? 0); cbn -[Z.pow Z.shiftl to_uint Z.leb].
  - rewrite (proj2 (Z.leb_gt 64 (account_fee_scale_bitshifts p))) by nia. cbn -[Z.pow Z.shiftl to_uint].
    assert (fee n * 2 ^ account_fee_scale_bitshifts p = fee (n + 1)) as Hstep.
    { unfold fee. rewrite Hdiv, <- Z.mul_assoc, <- Z.pow_add_r by nia. do 2 f_equal. lia. }
    rewrite Z.shiftl_mul_pow2 by done. unfold fee in *. rewrite Hstep, to_uint_id by (unfold uint; lia). done.
  - rewrite Hdiv, Z.add_0_r. done.
Qed.

Lemma scaled_0 : scaled 0 r = r.
Proof.
  unfold scaled. fold p. rewrite Z.div_0_l, Z.mul_0_r, Z.pow_0_r, Z.mul_1_r by lia.
  transitivity (set_registered (accounts_registered_this_interval r) (with_basic_fee (basic_fee p) p) r);
    [by rewrite Hstart|apply registered_id].
Qed.

Lemma registrations_scaled (n : nat) : 0 < basic_fee p → Z.of_nat n < 2 ^ 32 → fee (Z.of_nat n) < 2 ^ 64 →
  registrations n r = Ok ((), scaled (Z.of_nat n) r).
Proof.
  intros Hb. induction n as [|n IH]; intros Hn Hf.
  - change (Z.of_nat 0) with 0. by rewrite scaled_0.
  - rewrite Nat2Z.inj_succ, <- Z.add_1_r in *. cbn [registrations]. unfold mbind, M_bind.
    rewrite IH; [|lia|pose proof (fee_mono (Z.of_nat n) (Z.of_nat n + 1)); lia].
    by apply count_registration_scaled; [|lia..].
Qed.
End Scaling.

(** The fee of a registration doubles as accounts register, and maintenance takes the
    scaling back: after [n] registrations from the start of an interval, the next
    maintenance finds in the scaled fee the one the interval began with, so long as the
    scaled fee fits its 64 bits (see [scaled_fee_lost] for one that does not). *)
Theorem fee_scaling_undone (n : nat) r (p' : maintenance_parameters) :
  let p := parameters r in
  accounts_registered_this_interval r = 0 → 0 < accounts_per_fee_scale p → uint 8 (account_fee_scale_bitshifts p) →
  0 < basic_fee p → Z.of_nat n < 2 ^ 32 →
  basic_fee p * 2 ^ (account_fee_scale_bitshifts p * (Z.of_nat n / accounts_per_fee_scale p)) < 2 ^ 64 →
  ∃ r', registrations n r = Ok ((), r') ∧ accounts_registered_this_interval r' = Z.of_nat n ∧
    (Maintenance.account_fee_scale_bitshifts p' = account_fee_scale_bitshifts p →
     Maintenance.accounts_per_fee_scale p' = accounts_per_fee_scale p →
     create_basic_fee p' = basic_fee (parameters r') →
     ∃ p'', unscale_fee (accounts_registered_this_interval r') p' = Ok p'' ∧ create_basic_fee p'' = basic_fee p).
Proof.
  intros p Hstart Hper [Hs _] Hb Hn Hf. assert (0 ≤ basic_fee p) as Hb0 by lia.
  exists (scaled (Z.of_nat n) r). split; [by apply registrations_scaled|]. split; [done|].
  intros E1 E2 E3. unfold unscale_fee. rewrite E1, E2, E3. cbn -[Z.pow Z.shiftr to_uint Z.leb]. fold p.
  rewrite (proj2 (Z.eqb_neq (accounts_per_fee_scale p) 0)) by lia.
  pose proof (shift_small r) as Hsmall. fold p in Hsmall. specialize (Hsmall Hper (Z.of_nat n) Hb ltac:(lia) Hf).
  pose proof (Z.div_pos (Z.of_nat n) (accounts_per_fee_scale p)) as Hq.
  rewrite to_uint_id by (unfold uint; nia). rewrite (proj2 (Z.leb_gt 64 _)) by done. eexists. split; [done|].
  cbn -[Z.pow Z.shiftr]. rewrite Z.shiftr_div_pow2 by nia. apply Z.div_mul. apply Z.pow_nonzero; nia.
Qed.

(** ** The search for circular authorities *)

(** The account is in the authority, or in one of the three authorities of an account
    of it. *)
Inductive reaches (r : registry) (author : Z) : authority → Prop :=
  | reaches_direct a : author ∈ (account_auths a).*1 → reaches r author a
  | reaches_through a i p b : i ∈ (account_auths a).*1 → profiles r !! i = Some p →
      b ∈ [owner p; active p; limitactive p] → reaches r author b → reaches r author a.

Section Search.
Context (r : registry) (author : Z) (rank : Z → nat).
Context (Hrank : ∀ i p b j, profiles r !! i = Some p → b ∈ [owner p; active p; limitactive p] →
  j ∈ (account_auths b).*1 → is_Some (profiles r !! j) ∧ (rank j < rank i)%nat).

Lemma verify_members_search verify l dep a :
  (∀ i p b d, i ∈ l.*1 → profiles r !! i = Some p → b ∈ [owner p; active p; limitactive p] →
    ∃ found d', verify b d = Ok (found, d') ∧ (found = true → reaches r author b)) →
  (∀ i, i ∈ l.*1 → is_Some (profiles r !! i)) → (∀ i, i ∈ l.*1 → i ∈ (account_auths a).*1) →
  ∃ found d', verify_members verify r l dep = Ok (found, d') ∧ (found = true → reaches r author a).
Proof.
  intros Hv Hex Hin. revert dep. induction l as [|[i w] l IH]; intros dep; [by exists false, dep|].
  destruct (Hex i) as [p Hp]; [by left|]. cbn [verify_members]. rewrite Hp.
  assert (∀ b d, b ∈ [owner p; active p; limitactive p] → ∃ found d', verify b d = Ok (found, d') ∧ (found = true → reaches r author a)) as Hb.
  { intros b d Hb. destruct (Hv i p b d) as (f & d' & ? & Hf); [by left|done|done|]. exists f, d'. split; [done|].
    intros Ht. eapply reaches_through; [apply Hin; by left|done|done|auto]. }
  destruct (Hb (owner p) dep) as (f1 & d1 & -> & H1); [set_solver|]. cbn. destruct f1; [by exists true, d1|].
  destruct (Hb (active p) d1) as (f2 & d2 & -> & H2); [set_solver|]. cbn. destruct f2; [by exists true, d2|].
  destruct (Hb (limitactive p) d2) as (f3 & d3 & -> & H3); [set_solver|]. cbn. destruct f3; [by exists true, d3|].
  apply IH; [|intros j Hj; apply Hex; by right|intros j Hj; apply Hin; by right].
  intros j q b d Hj. apply Hv. by right.
Qed.

Lemma verify_account_auth_search n a dep :
  (∀ j, j ∈ (account_auths a).*1 → is_Some (profiles r !! j) ∧ (rank j < n)%nat) →
  ∃ found dep', verify_account_auth (S n) r author a dep = Ok (found, dep') ∧ (found = true → reaches r author a).
Proof.
  revert a dep. induction n as [|n IH]; intros a dep Ha; cbn [verify_account_auth];
    (case_match; [by eexists false, _|]); (case_bool_decide; [eexists true, _; split; [done|]; intros _; by apply reaches_direct|]).
  - destruct (account_auths a) as [|[i w] l]; [by eexists false, _|]. destruct (Ha i) as [_ Hi]; [by left|lia].
  - apply verify_members_search; [|intros i Hi; by apply Ha|done].
    intros i p b d Hi Hp Hb. apply (IH b d). intros j Hj. destruct (Hrank i p b j Hp Hb Hj) as [He Hlt].
    split; [done|]. destruct (Ha i Hi). lia.
Qed.
End Search.

(** Where the authorities of the accounts are not circular already, the search of a new
    authority for its own account ends, however its counter runs, and what it finds is
    there.  It may miss one (see [circular_authority_accepted]), and then a later search
    never ends (see [circular_search_diverges]). *)
Theorem authority_search_ends r author (rank : Z → nat) n a dep :
  (∀ i p b j, profiles r !! i = Some p → b ∈ [owner p; active p; limitactive p] → j ∈ (account_auths b).*1 →
    is_Some (profiles r !! j) ∧ (rank j < rank i)%nat) →
  (∀ j, j ∈ (account_auths a).*1 → is_Some (profiles r !! j) ∧ (rank j < n)%nat) →
  ∃ found dep', verify_account_auth (S n) r author a dep = Ok (found, dep') ∧ (found = true → reaches r author a).
Proof. intros Hrank. by apply verify_account_auth_search. Qed.

(** * Concrete registries *)

Module AccountsExample.
Definition key_authority : authority := mk_authority 1 [] [(1, 1)] [].
Definition of_accounts (l : list Z) : authority := mk_authority 1 (map (λ i, (i, 1)) l) [] [].
Definition no_votes : account_options := mk_options 10 0 0 0 [].

Definition member (n : string) (o a : authority) : profile :=
  mk_profile n time_point_sec_maximum 0 o a key_authority no_votes (mk_special no_special_authority no_special_authority 0) None ∅.
Definition books_of (ids : list Z) : ledger :=
  mk_ledger ∅ ∅ 0 {[0 := mk_dyn 1000 0 0]} (list_to_map (map (λ i, (i, mk_account i i i 2000 8000 0 None 0)) ids))
    (list_to_map (map (λ i, (i, mk_stats 0 0 0 0 0 0 0 0)) ids)) ∅ 1600000000 0 0 (mk_params 0 0 0 0 0) false [].
Definition demo_parameters (basic per shift : Z) : registry_parameters :=
  mk_registry_parameters 10 10 10 10 2000 3000 per shift basic.
Definition demo (l : list (Z * profile)) (p : registry_parameters) : registry :=
  mk_registry (books_of l.*1) (list_to_map l) 100 ∅ {[5 := mk_fba_asset false 0 0 None 10]} ∅ 0 p.

Definition root : registry := demo [(10, member "root" key_authority key_authority)] (demo_parameters 10000 1000 4).

Definition newcomer (special : option special_authority) : account_create_operation :=
  mk_account_create 0 10 10 0 "new-comer1" key_authority key_authority key_authority no_votes special None None.

Definition run (op : account_operation) (r : registry) : result (() * registry) :=
  apply_account (λ _, 0) (λ s, Ok s) (λ s, Ok s) 10 op r.
Definition after (op : account_operation) (r : registry) : registry :=
  match run op r with Ok (_, r') => r' | Throw _ => r end.
Definition holders_of_5 : option special_authority := Some (top_holders 5 3).

Lemma root_ok : registry_ok root.
Proof.
  assert (∀ i p, profiles root !! i = Some p → i = 10 ∧ p = member "root" key_authority key_authority) as Hp.
  { intros i p [[<- <-]|[_ Hn]]%(lookup_insert_Some (∅ : gmap Z profile)); [done|discriminate Hn]. }
  assert (∀ i a, accounts (books root) !! i = Some a → i = 10 ∧ a = mk_account 10 10 10 2000 8000 0 None 0) as Ha.
  { intros i a [[<- <-]|[_ Hn]]%(lookup_insert_Some (∅ : gmap Z account_object)); [done|discriminate Hn]. }
  constructor.
  - by intros i p [-> _]%Hp.
  - intros i. split; [intros [a [-> _]%Ha]|intros [p [-> _]%Hp]]; eexists; vm_compute; reflexivity.
  - by intros i j p q [-> _]%Hp [-> _]%Hp.
  - intros i a [_ ->]%Ha. by unfold percentages_ok.
  - intros i. split; [intros Hi; by apply not_elem_of_empty in Hi|]. by intros (p & [_ ->]%Hp & ?).
  - intros i a [_ ->]%Ha. exists (mk_account 10 10 10 2000 8000 0 None 0), (member "root" key_authority key_authority).
    split_and!; vm_compute; reflexivity.
  - by intros i a p [-> ->]%Ha.
  - by vm_compute.
Qed.

Lemma registry_invariant_witness :
  special_index (after (create (newcomer holders_of_5)) root) = {[100]} ∧ registry_ok (after (create (newcomer holders_of_5)) root).
Proof.
  split; [vm_compute; reflexivity|].
  apply (registry_invariant (λ _, 0) (λ s, Ok s) (λ s, Ok s) 10 (create (newcomer holders_of_5)) root ()).
  - exact root_ok.
  - split; [|split]; [vm_compute; split; congruence|intros [=]|intros [=]].
  - vm_compute. reflexivity.
Defined.

Definition crowded : registry := demo [(10, member "root" key_authority key_authority)] (demo_parameters 10000 2 4).

Lemma fee_scaling_undone_witness : ∃ r', registrations 5 crowded = Ok ((), r') ∧ accounts_registered_this_interval r' = 5.
Proof.
  destruct (fee_scaling_undone 5 crowded
    (mk_maintenance_parameters (mk_vote_parameters 0 false 0 0 0) 0 0 0 0 4 2 2560000 0 0 0))
    as (r' & Hrun & Hn & _); try (vm_compute; split; congruence); try (vm_compute; reflexivity).
  exists r'. split; [exact Hrun|exact Hn].
Defined.

(** Account 20 is controlled by 10, and a new authority names 20. *)
Definition layered : registry :=
  demo [(10, member "root" key_authority key_authority); (20, member "child" (of_accounts [10]) key_authority)]
    (demo_parameters 10000 1000 4).

Lemma layered_rank i p b j :
  profiles layered !! i = Some p → b ∈ [owner p; active p; limitactive p] → j ∈ (account_auths b).*1 → i = 20 ∧ j = 10.
Proof.
  intros Hp Hb Hj. apply (lookup_insert_Some (<[20 := _]> (∅ : gmap Z profile))) in Hp as [[<- <-]|[_ Hp]].
  - cbn in Hb. repeat (apply elem_of_cons in Hb as [->|Hb]); cbn in Hj; by apply not_elem_of_nil in Hj || by apply not_elem_of_nil in Hb.
  - apply (lookup_insert_Some (∅ : gmap Z profile)) in Hp as [[<- <-]|[_ Hn]]; [|discriminate Hn]. split; [done|].
    cbn in Hb. repeat (apply elem_of_cons in Hb as [->|Hb]); cbn in Hj; try by apply not_elem_of_nil in Hj.
    + by apply list_elem_of_singleton in Hj.
    + by apply not_elem_of_nil in Hb.
Qed.

Lemma authority_search_ends_witness :
  ∃ found dep', verify_account_auth 3 layered 10 (of_accounts [20]) 11 = Ok (found, dep') ∧
    (found = true → reaches layered 10 (of_accounts [20])).
Proof.
  apply (authority_search_ends layered 10 (λ i, if decide (i = 20) then 1%nat else 0%nat) 2).
  - intros i p b j Hp Hb Hj. destruct (layered_rank i p b j Hp Hb Hj) as [-> ->].
    split; [by eexists; vm_compute; reflexivity|vm_compute; lia].
  - intros j Hj. apply list_elem_of_singleton in Hj as ->. split; [by eexists; vm_compute; reflexivity|vm_compute; lia].
Defined.

Example search_finds : verify_account_auth 3 layered 10 (of_accounts [20]) 11 = Ok (true, 9).
Proof. vm_compute. reflexivity. Qed.

(** A circular authority that is accepted.  Account 1 takes an authority of four accounts,
    the owner authority of the last of which names account 1; the authorities before it
    count the shared number down, from the maximum of ten members and one to zero exactly
    at that authority, and it is skipped. *)
Definition circle : registry :=
  demo [(1, member "first" key_authority key_authority); (2, member "second" key_authority key_authority);
        (3, member "third" key_authority key_authority); (4, member "fourth" key_authority key_authority);
        (5, member "fifth" (of_accounts [1]) key_authority)] (demo_parameters 10000 1000 4).

Theorem circular_authority_accepted :
  reaches circle 1 (of_accounts [2; 3; 4; 5]) ∧ verify_new_authority 10 circle 1 (of_accounts [2; 3; 4; 5]) = Ok () ∧
  verify_new_authority 10 circle 1 (of_accounts [2; 3; 5]) = Throw assert_exception.
Proof.
  split; [|split; vm_compute; reflexivity].
  apply (reaches_through _ _ _ 5 (member "fifth" (of_accounts [1]) key_authority) (of_accounts [1])).
  - cbn. set_solver.
  - vm_compute. reflexivity.
  - cbn. set_solver.
  - apply reaches_direct. cbn. set_solver.
Qed.

(** Two accounts that name each other in two of their authorities: the search of any
    authority that names one of them for a third account does not end, for the number
    wraps when it has reached zero. *)
Definition vicious : registry :=
  demo [(1, member "first" (of_accounts [5]) (of_accounts [5])); (5, member "fifth" (of_accounts [1]) (of_accounts [1]));
        (9, member "ninth" key_authority key_authority)] (demo_parameters 10000 1000 4).

Lemma vicious_spins fuel a dep :
  a = of_accounts [1] ∨ a = of_accounts [5] → uint 32 dep →
  verify_account_auth fuel vicious 9 a dep = Throw out_of_fuel ∨ (dep = 1 ∧ verify_account_auth fuel vicious 9 a dep = Ok (false, 0)).
Proof.
  revert a dep. induction fuel as [|fuel IH]; intros a dep Ha Hdep; [by left|].
  destruct (decide (dep = 1)) as [->|Hne]; [right; by destruct Ha as [->| ->]|left].
  assert (1 ≤ to_uint 32 (dep - 1)) as Hpos.
  { destruct (decide (dep = 0)) as [->|]; [by vm_compute|]. unfold uint in Hdep. rewrite to_uint_id by (unfold uint; lia). lia. }
  pose proof (to_uint_range 32 (dep - 1) ltac:(lia)) as Hrange. cbn [verify_account_auth].
  generalize dependent (to_uint 32 (dep - 1)). intros d Hd Hrange. rewrite (proj2 (Z.leb_gt d 0)) by lia.
  assert (∃ i p b, account_auths a = [(i, 1)] ∧ i ≠ 9 ∧ profiles vicious !! i = Some p ∧ owner p = b ∧ active p = b ∧
    (b = of_accounts [1] ∨ b = of_accounts [5])) as (i & p & b & -> & Hi & Hp & Ho & Hact & Hb).
  { destruct Ha as [->| ->]; eexists _, _, _; split_and!; try (vm_compute; reflexivity); try done; auto. }
  rewrite bool_decide_eq_false_2 by (cbn; set_solver). cbn [verify_members]. rewrite Hp, Ho, Hact.
  destruct (IH b d Hb Hrange) as [-> | [_ ->]]; [done|]. cbn -[uint].
  destruct (IH b 0 Hb) as [-> | [? _]]; [by unfold uint|done|done].
Qed.

Theorem circular_search_diverges fuel : verify_new_authority fuel vicious 9 (of_accounts [1]) = Throw out_of_fuel.
Proof.
  unfold verify_new_authority. change (to_uint 32 (maximum_authority_membership (parameters vicious) + 1)) with 11.
  destruct (vicious_spins fuel (of_accounts [1]) 11) as [->|[? _]]; auto; [by unfold uint|done].
Qed.

(** A creation that gives [no_special_authority] explicitly makes an entry in the index of
    special authorities for an account that has none, and a later update of the account to
    a special authority can not make its entry. *)
Definition say_nothing : account_operation := create (newcomer (Some no_special_authority)).
Definition take_special : account_operation :=
  update (mk_account_update 0 100 None None None None holders_of_5 None).

Theorem explicit_none_is_indexed :
  special_index (after say_nothing root) = {[100]} ∧
  has_special_authority <$> (profiles (after say_nothing root) !! 100) = Some false ∧
  run take_special (after say_nothing root) = Throw assert_exception ∧
  special_index (after take_special (after (create (newcomer None)) root)) = {[100]}.
Proof. vm_compute. done. Qed.

(** A scaled fee that does not fit its 64 bits is lost. *)
Theorem scaled_fee_lost :
  basic_fee ∘ parameters ∘ snd <$> registrations 16
    (demo [(10, member "root" key_authority key_authority)] (demo_parameters (2 ^ 20) 1 4)) = Ok 0.
Proof. vm_compute. reflexivity. Qed.

(** The third authority of an account is not validated: here it is impossible, as it may
    not be in the others. *)
Theorem limitactive_unchecked :
  account_update_validate (mk_account_update 0 100 None None (Some (mk_authority 2 [] [(1, 1)] [])) None None None) = Ok () ∧
  account_update_validate (mk_account_update 0 100 None (Some (mk_authority 2 [] [(1, 1)] [])) None None None None) = Throw assert_exception.
Proof. vm_compute. done. Qed.

(** A fee scale of 0 divides by 0. *)
Theorem no_fee_scale_undefined :
  registrations 1 (demo [(10, member "root" key_authority key_authority)] (demo_parameters 10000 0 4)) = Throw undefined_behaviour.
Proof. vm_compute. reflexivity. Qed.

(** The canonical text of the recommendations is overwritten by the text given. *)
Theorem recommendations_kept_raw recommend_json sell_pair_json v c :
  recommend_json v = Ok c →
  config_evaluate recommend_json sell_pair_json [("locktoken_recommend"%string, v)] ∅ = Ok {["locktoken_recommend"%string := v]}.
Proof.
  intros Hj. cbn. rewrite Hj. done.
Qed.
End AccountsExample.
