(* ===== verification/Transfers.v ===== *)
(** * Transfers: the operations that move shares between accounts

    libraries/chain/transfer_evaluator.cpp, withdraw_permission_evaluator.cpp,
    is_authorized_asset.cpp and the operations of asset_evaluator.cpp that change balances:
    issue, reserve, claim_fees and reserve_fees.  The checks of a gateway or a carrier that
    is authorized to withdraw are those of the business objects and a parameter. *)

From S2P Require Import Prelude Safe Asset Vesting Balance Fees.

Local Open Scope Z_scope.

(** ** asset_object.hpp *)

Definition ASSET_CASH : Z := 1.
Definition white_list : Z := 2.
Definition transfer_restricted : Z := 8.

(** The fields of [asset_object] and its options that decide who may hold and move it. *)
Record asset_object := mk_asset_object {
  asset_issuer : Z;
  flags : Z;
  max_supply : Z;
  uasset_property : Z;
  is_bitasset_issued : bool;
  whitelist_authorities : gset Z;
  blacklist_authorities : gset Z
}.

Definition is_market_issued (i : Z) (a : asset_object) : bool := negb (i =? 0) && is_bitasset_issued a.
Definition is_cash_issued (a : asset_object) : bool :=
  (Z.land (uasset_property a) ASSET_CASH =? ASSET_CASH) && is_bitasset_issued a.
Definition can_transfer (a : asset_object) : bool := negb (is_cash_issued a).
Definition is_transfer_restricted (a : asset_object) : bool :=
  Z.land (flags a) transfer_restricted =? transfer_restricted.

(** The fields of [account_object] that do not take part in fees. *)
Record holder := mk_holder {
  name : string;
  allowed_assets : option (gset Z);
  whitelisting_accounts : gset Z;
  blacklisting_accounts : gset Z
}.

(** ** is_authorized_asset.cpp *)

Definition slow_check (acct : holder) (i : Z) (a : asset_object) : bool :=
  if (match allowed_assets acct with Some s => bool_decide (i ∉ s) | None => false end) then false
  else if bool_decide (blacklisting_accounts acct ∩ blacklist_authorities a ≠ ∅) then false
  else if bool_decide (whitelist_authorities a = ∅) then true
  else bool_decide (whitelisting_accounts acct ∩ whitelist_authorities a ≠ ∅).

Definition is_authorized_asset (acct : holder) (i : Z) (a : asset_object) : bool :=
  let fast_check := (Z.land (flags a) white_list =? 0) && bool_decide (allowed_assets acct = None) in
  if fast_check then true else slow_check acct i a.

(** ** withdraw_permission_object.hpp *)

Record withdraw_permission_object := mk_permission {
  withdraw_from_account : Z;
  authorized_account : Z;
  withdrawal_limit : asset;
  withdrawal_period_sec : Z;
  period_start_time : Z;
  expiration : Z;
  authorized_identify : Z;
  claimed_this_period : Z;
  claimed_total : Z
}.

(** [time_point_sec::operator +( uint32_t )]. *)
Definition time_plus (t s : Z) : Z := to_uint 32 (t + s).

Definition available_this_period (p : withdraw_permission_object) (current_time : Z) : result asset :=
  if time_plus (period_start_time p) (withdrawal_period_sec p) <=? current_time then Ok (withdrawal_limit p)
  else if claimed_this_period p <? amount (withdrawal_limit p) then
    a ← safe_sub (amount (withdrawal_limit p)) (claimed_this_period p);
    mret (mk_asset a (asset_id (withdrawal_limit p)))
  else Ok (mk_asset 0 (asset_id (withdrawal_limit p))).

(** ** The state *)

Record bank := mk_bank {
  books : ledger;
  holders : gmap Z holder;
  assets : gmap Z asset_object;
  permissions : gmap Z withdraw_permission_object;
  next_permission_id : Z;
  block_interval : Z
}.

Definition set_books l b := mk_bank l (holders b) (assets b) (permissions b) (next_permission_id b) (block_interval b).
Definition set_permissions p n b := mk_bank (books b) (holders b) (assets b) p n (block_interval b).
Definition on_books {A} : M ledger A → M bank A := zoom books set_books.

Definition lookup_in {A} (index : bank → gmap Z A) (i : Z) : M bank A :=
  b ← get_st; lift (match index b !! i with Some a => Ok a | None => Throw other_exception end).

(** An account: its record in the ledger and the rest. *)
Definition get_account (i : Z) : M bank (account_object * holder) :=
  a ← on_books (get accounts i); h ← lookup_in holders i; mret (a, h).
Definition get_asset : Z → M bank asset_object := lookup_in assets.
Definition get_permission : Z → M bank withdraw_permission_object := lookup_in permissions.
Definition head_time : M bank Z := b ← get_st; mret (head_block_time (books b)).
Definition balance_of (owner i : Z) : M bank asset := b ← get_st; mret (get_balance owner i (books b)).

Definition unlocked (a : account_object) : M bank () := assert_st (negb (is_lock_balance a)).

(** [d.adjust_balance( utype, info, account, -amount )] and with the amount itself. *)
Definition debit (utype : Z) (info : string) (acct : Z) (a : asset) : M bank () :=
  d ← lift (asset_neg a); on_books (adjust_balance utype info acct d).
Definition credit (utype : Z) (info : string) (acct : Z) (a : asset) : M bank () :=
  on_books (adjust_balance utype info acct a).

Definition modify_dynamic (i : Z) (f : asset_dynamic_data → result asset_dynamic_data) : M bank () :=
  on_books (d ← get dynamic_data i; d' ← lift (f d);
            modify_st (λ l, set_dynamic (<[i := d']> (dynamic_data l)) l)).

(** ** transfer_evaluator.cpp *)

Record transfer_operation := mk_transfer { transfer_fee : asset; transfer_from : Z; transfer_to : Z; transfer_amount : asset;
  transfer_memo : option Z }.

Definition GRAPHENE_MAX_MEMO_DATA_LENGTH : Z := 280.
(** The length of the message of a memo. *)
Definition memo_ok (m : option Z) : result () :=
  match m with Some n => FC_ASSERT (n <? GRAPHENE_MAX_MEMO_DATA_LENGTH) | None => Ok () end.

Definition transfer_validate (o : transfer_operation) : result () :=
  FC_ASSERT (0 <=? amount (transfer_fee o)) ;;
  FC_ASSERT (negb (transfer_from o =? transfer_to o)) ;;
  FC_ASSERT (0 <? amount (transfer_amount o)) ;;
  memo_ok (transfer_memo o).

Definition transfer_evaluate (o : transfer_operation) : M bank () :=
  let i := asset_id (transfer_amount o) in
  from ← get_account (transfer_from o);
  to ← get_account (transfer_to o);
  a ← get_asset i;
  fee ← get_asset (asset_id (transfer_fee o));
  unlocked from.1 ;;
  unlocked to.1 ;;
  lift (GRAPHENE_ASSERT (is_authorized_asset from.2 i a) transfer_from_account_not_whitelisted) ;;
  lift (GRAPHENE_ASSERT (is_authorized_asset to.2 i a) transfer_to_account_not_whitelisted) ;;
  lift (GRAPHENE_ASSERT (can_transfer a) transfer_restricted_transfer_asset) ;;
  lift (GRAPHENE_ASSERT (can_transfer fee) transfer_restricted_transfer_asset) ;;
  lift (if is_transfer_restricted a
        then GRAPHENE_ASSERT ((transfer_from o =? asset_issuer a) || (transfer_to o =? asset_issuer a))
               transfer_restricted_transfer_asset
        else Ok ()) ;;
  balance ← balance_of (transfer_from o) i;
  assert_st (amount (transfer_amount o) <=? amount balance).

Definition transfer_apply (o : transfer_operation) : M bank () :=
  from ← get_account (transfer_from o);
  to ← get_account (transfer_to o);
  debit 69 ("transfer to " ++ name to.2) (transfer_from o) (transfer_amount o) ;;
  credit 70 ("transfer from " ++ name from.2) (transfer_to o) (transfer_amount o).

(** ** asset_evaluator.cpp *)

Record issue_operation := mk_issue { issue_fee : asset; issuer : Z; asset_to_issue : asset; issue_to_account : Z; issue_memo : option Z }.

Definition issue_validate (o : issue_operation) : result () :=
  FC_ASSERT (0 <=? amount (issue_fee o)) ;;
  FC_ASSERT (amount (asset_to_issue o) <=? GRAPHENE_MAX_SHARE_SUPPLY) ;;
  FC_ASSERT (0 <? amount (asset_to_issue o)) ;;
  FC_ASSERT (negb (asset_id (asset_to_issue o) =? GRAPHENE_CORE_ASSET)) ;;
  memo_ok (issue_memo o).

Definition issue_evaluate (o : issue_operation) : M bank () :=
  let i := asset_id (asset_to_issue o) in
  a ← get_asset i;
  assert_st (issuer o =? asset_issuer a) ;;
  assert_st (negb (is_market_issued i a)) ;;
  to ← get_account (issue_to_account o);
  unlocked to.1 ;;
  assert_st (is_authorized_asset to.2 i a) ;;
  d ← on_books (get dynamic_data i);
  s ← lift (safe_add (current_supply d) (amount (asset_to_issue o)));
  assert_st (s <=? max_supply a).

Definition add_supply (n : Z) (d : asset_dynamic_data) : result asset_dynamic_data :=
  s ← safe_add (current_supply d) n; mret (mk_dyn s (accumulated_fees d) (fee_pool d)).
Definition sub_supply (n : Z) (d : asset_dynamic_data) : result asset_dynamic_data :=
  s ← safe_sub (current_supply d) n; mret (mk_dyn s (accumulated_fees d) (fee_pool d)).
Definition add_fees (n : Z) (d : asset_dynamic_data) : result asset_dynamic_data :=
  f ← safe_add (accumulated_fees d) n; mret (mk_dyn (current_supply d) f (fee_pool d)).
Definition sub_fees (n : Z) (d : asset_dynamic_data) : result asset_dynamic_data :=
  f ← safe_sub (accumulated_fees d) n; mret (mk_dyn (current_supply d) f (fee_pool d)).

Definition issue_apply (o : issue_operation) : M bank () :=
  credit 8 "" (issue_to_account o) (asset_to_issue o) ;;
  modify_dynamic (asset_id (asset_to_issue o)) (add_supply (amount (asset_to_issue o))).

(** The other three take an amount of an account: its fee, the account, the amount. *)
Record share_operation := mk_share_operation { share_fee : asset; share_account : Z; share_amount : asset }.

Definition reserve_validate (o : share_operation) : result () :=
  FC_ASSERT (0 <=? amount (share_fee o)) ;;
  FC_ASSERT (amount (share_amount o) <=? GRAPHENE_MAX_SHARE_SUPPLY) ;;
  FC_ASSERT (0 <? amount (share_amount o)).

Definition reserve_evaluate (o : share_operation) : M bank () :=
  let i := asset_id (share_amount o) in
  a ← get_asset i;
  lift (GRAPHENE_ASSERT (negb (is_market_issued i a)) asset_reserve_invalid_on_mia) ;;
  from ← get_account (share_account o);
  unlocked from.1 ;;
  assert_st (is_authorized_asset from.2 i a) ;;
  d ← on_books (get dynamic_data i);
  s ← lift (safe_sub (current_supply d) (amount (share_amount o)));
  assert_st (0 <=? s).

Definition reserve_apply (o : share_operation) : M bank () :=
  debit 9 "" (share_account o) (share_amount o) ;;
  modify_dynamic (asset_id (share_amount o)) (sub_supply (amount (share_amount o))).

Definition fees_validate (o : share_operation) : result () :=
  FC_ASSERT (0 <=? amount (share_fee o)) ;;
  FC_ASSERT (0 <? amount (share_amount o)).

Definition claim_fees_evaluate (o : share_operation) : M bank () :=
  a ← get_asset (asset_id (share_amount o));
  assert_st (asset_issuer a =? share_account o) ;;
  acct ← get_account (share_account o);
  unlocked acct.1.

Definition claim_fees_apply (o : share_operation) : M bank () :=
  let i := asset_id (share_amount o) in
  get_asset i ;;
  d ← on_books (get dynamic_data i);
  assert_st (amount (share_amount o) <=? accumulated_fees d) ;;
  modify_dynamic i (sub_fees (amount (share_amount o))) ;;
  credit 13 "" (share_account o) (share_amount o).

Definition reserve_fees_evaluate (o : share_operation) : M bank () :=
  acct ← get_account (share_account o);
  unlocked acct.1 ;;
  balances ← balance_of (share_account o) (asset_id (share_amount o));
  covered ← lift (asset_leb (share_amount o) balances);
  assert_st covered ;;
  acct ← get_account (share_account o);
  unlocked acct.1.

Definition reserve_fees_apply (o : share_operation) : M bank () :=
  let i := asset_id (share_amount o) in
  get_asset i ;;
  modify_dynamic i (add_fees (amount (share_amount o))) ;;
  debit 14 "" (share_account o) (share_amount o).

(** ** withdraw_permission_evaluator.cpp *)

Record permission_terms := mk_terms {
  terms_fee : asset;
  terms_from : Z;
  terms_authorized : Z;
  terms_limit : asset;
  terms_period_sec : Z;
  terms_periods : Z;
  terms_start : Z
}.

(** The same assertions validate a creation and an update. *)
Definition terms_validate (o : permission_terms) : result () :=
  FC_ASSERT (0 <=? amount (terms_fee o)) ;;
  FC_ASSERT (negb (terms_from o =? terms_authorized o)) ;;
  FC_ASSERT (0 <? amount (terms_limit o)) ;;
  FC_ASSERT (0 <? terms_period_sec o) ;;
  FC_ASSERT (0 <? terms_periods o).

(** [op.period_start_time + op.periods_until_expiration * op.withdrawal_period_sec]. *)
Definition terms_expiration (o : permission_terms) : Z :=
  time_plus (terms_start o) (to_uint 32 (terms_periods o * terms_period_sec o)).

Definition enough_balance (o : permission_terms) : M bank () :=
  b ← balance_of (terms_from o) (asset_id (terms_limit o));
  assert_st (amount (terms_limit o) <=? amount b).

Section Identified.
(** The checks of [authorized_identify]: of the authorized account, the account withdrawn
    from, the asset and the identity it acts in. *)
Context (identified : Z → Z → Z → Z → M bank ()).

Definition permission_create_evaluate (identify : Z) (o : permission_terms) : M bank () :=
  get_account (terms_authorized o) ;;
  from ← get_account (terms_from o);
  get_asset (asset_id (terms_limit o)) ;;
  now ← head_time;
  b ← get_st;
  assert_st (now <? terms_start o) ;;
  assert_st (now <? terms_expiration o) ;;
  assert_st (block_interval b <=? terms_period_sec o) ;;
  unlocked from.1 ;;
  lift (terms_validate o) ;;
  identified (terms_authorized o) (terms_from o) (asset_id (terms_limit o)) identify ;;
  enough_balance o.

Definition new_permission (identify : Z) (o : permission_terms) : withdraw_permission_object :=
  mk_permission (terms_from o) (terms_authorized o) (terms_limit o) (terms_period_sec o) (terms_start o)
    (terms_expiration o) identify 0 0.

Definition permission_create_apply (identify : Z) (o : permission_terms) : M bank Z :=
  b ← get_st;
  let i := next_permission_id b in
  put_st (set_permissions (<[i := new_permission identify o]> (permissions b)) (i + 1) b) ;; mret i.
End Identified.

Definition permission_update_evaluate (i : Z) (o : permission_terms) : M bank () :=
  permit ← get_permission i;
  assert_st (authorized_account permit =? terms_authorized o) ;;
  assert_st (withdraw_from_account permit =? terms_from o) ;;
  assert_st (asset_id (withdrawal_limit permit) =? asset_id (terms_limit o)) ;;
  b ← get_st;
  assert_st (bool_decide (is_Some (assets b !! asset_id (terms_limit o)))) ;;
  now ← head_time;
  assert_st (now <=? terms_start o) ;;
  assert_st (now <? terms_expiration o) ;;
  assert_st (block_interval b <=? terms_period_sec o) ;;
  from ← get_account (terms_from o);
  unlocked from.1 ;;
  enough_balance o.

Definition with_terms (o : permission_terms) (p : withdraw_permission_object) : withdraw_permission_object :=
  mk_permission (withdraw_from_account p) (authorized_account p) (terms_limit o) (terms_period_sec o) (terms_start o)
    (terms_expiration o) (authorized_identify p) (claimed_this_period p) (claimed_total p).

Definition put_permission (i : Z) (p : withdraw_permission_object) : M bank () :=
  modify_st (λ b, set_permissions (<[i := p]> (permissions b)) (next_permission_id b) b).

Definition permission_update_apply (i : Z) (o : permission_terms) : M bank () :=
  p ← get_permission i; put_permission i (with_terms o p).

Record claim_operation := mk_claim { claim_fee : asset; claim_permission : Z; claim_from : Z; claim_to : Z;
  amount_to_withdraw : asset; claim_memo : option Z }.

Definition claim_validate (o : claim_operation) : result () :=
  FC_ASSERT (negb (claim_to o =? claim_from o)) ;;
  FC_ASSERT (0 <? amount (amount_to_withdraw o)) ;;
  FC_ASSERT (0 <=? amount (claim_fee o)) ;;
  memo_ok (claim_memo o).

Definition account_gateway : Z := 1.
Definition is_gateway_member (a : account_object) : bool := Z.land (uaccount_property a) account_gateway =? account_gateway.

(** [from] and [to] are the account that is paid, both. *)
Definition claim_evaluate (o : claim_operation) : M bank () :=
  let i := asset_id (amount_to_withdraw o) in
  now ← head_time;
  permit ← get_permission (claim_permission o);
  assert_st (now <? expiration permit) ;;
  assert_st (authorized_account permit =? claim_to o) ;;
  assert_st (withdraw_from_account permit =? claim_from o) ;;
  assert_st (asset_id (withdrawal_limit permit) =? i) ;;
  assert_st (period_start_time permit <=? now) ;;
  available ← lift (available_this_period permit now);
  covered ← lift (asset_leb (amount_to_withdraw o) available);
  assert_st covered ;;
  balance ← balance_of (claim_from o) i;
  covered ← lift (asset_leb (amount_to_withdraw o) balance);
  assert_st covered ;;
  a ← get_asset i;
  assert_st (negb (is_transfer_restricted a) || (asset_issuer a =? authorized_account permit)
             || (asset_issuer a =? withdraw_from_account permit)) ;;
  from ← get_account (claim_to o);
  to ← get_account (authorized_account permit);
  unlocked from.1 ;;
  unlocked to.1 ;;
  assert_st (is_authorized_asset to.2 i a) ;;
  assert_st (is_authorized_asset from.2 i a) ;;
  assert_st (negb (is_cash_issued a) || is_gateway_member to.1).

(** What the claim of [n] records; dividing by a period of 0 is undefined. *)
Definition claimed (now n : Z) (p : withdraw_permission_object) : result withdraw_permission_object :=
  if withdrawal_period_sec p =? 0 then Throw undefined_behaviour else
  let periods := (now - period_start_time p) ÷ withdrawal_period_sec p in
  let start := to_uint 32 (period_start_time p + to_uint 32 (periods * withdrawal_period_sec p)) in
  total ← safe_add (claimed_total p) n;
  this ← (if periods =? 0 then safe_add (claimed_this_period p) n else Ok n);
  mret (mk_permission (withdraw_from_account p) (authorized_account p) (withdrawal_limit p) (withdrawal_period_sec p) start
    (expiration p) (authorized_identify p) this total).

Definition claim_apply (o : claim_operation) : M bank () :=
  permit ← get_permission (claim_permission o);
  now ← head_time;
  p ← lift (claimed now (amount (amount_to_withdraw o)) permit);
  put_permission (claim_permission o) p ;;
  debit 76 "" (claim_from o) (amount_to_withdraw o) ;;
  credit 77 "" (claim_to o) (amount_to_withdraw o).

Definition permission_delete_validate (fee : asset) (from authorized : Z) : result () :=
  FC_ASSERT (0 <=? amount fee) ;; FC_ASSERT (negb (from =? authorized)).

Definition permission_delete_evaluate (i from authorized : Z) : M bank () :=
  permit ← get_permission i;
  assert_st (authorized_account permit =? authorized) ;;
  assert_st (withdraw_from_account permit =? from).

Definition remove_permission (i : Z) : M bank () :=
  get_permission i ;;
  modify_st (λ b, set_permissions (delete i (permissions b)) (next_permission_id b) b).

(** ** db_update.cpp: at the end of a block the permissions that have expired are removed *)
Definition update_withdraw_permissions : M bank () :=
  modify_st (λ b, set_permissions (filter (λ ip, ¬ expiration ip.2 ≤ head_block_time (books b)) (permissions b))
    (next_permission_id b) b).

(** ** The operations, from validation to application *)

Inductive share_operations :=
  | transfer (o : transfer_operation)
  | issue (o : issue_operation)
  | reserve (o : share_operation)
  | claim_fees (o : share_operation)
  | reserve_fees (o : share_operation)
  | permission_create (identify : Z) (o : permission_terms)
  | permission_update (i : Z) (o : permission_terms)
  | permission_claim (o : claim_operation)
  | permission_delete (fee : asset) (i from authorized : Z).

Definition apply_share_operation (identified : Z → Z → Z → Z → M bank ()) (op : share_operations) : M bank () :=
  match op with
  | transfer o => lift (transfer_validate o) ;; transfer_evaluate o ;; transfer_apply o
  | issue o => lift (issue_validate o) ;; issue_evaluate o ;; issue_apply o
  | reserve o => lift (reserve_validate o) ;; reserve_evaluate o ;; reserve_apply o
  | claim_fees o => lift (fees_validate o) ;; claim_fees_evaluate o ;; claim_fees_apply o
  | reserve_fees o => lift (fees_validate o) ;; reserve_fees_evaluate o ;; reserve_fees_apply o
  | permission_create id o =>
      lift (terms_validate o) ;; permission_create_evaluate identified id o ;; permission_create_apply id o ;; mret ()
  | permission_update i o => lift (terms_validate o) ;; permission_update_evaluate i o ;; permission_update_apply i o
  | permission_claim o => lift (claim_validate o) ;; claim_evaluate o ;; claim_apply o
  | permission_delete fee i from auth =>
      lift (permission_delete_validate fee from auth) ;; permission_delete_evaluate i from auth ;; remove_permission i
  end.

(** ** What evaluation reads *)

Abbreviation reads := (same (λ b : bank, b)).
Create HintDb reads.

Lemma books_id b : set_books (books b) b = b.
Proof. by destruct b. Qed.

Lemma reads_books {A} (index : ledger → gmap Z A) i : reads (on_books (get index i)).
Proof. intros b a b' (l & [_ ->]%get_Ok & ->)%zoom_Ok. apply books_id. Qed.

Lemma reads_get : reads get_st.
Proof. by intros b a b' [= _ <-]. Qed.
#[local] Hint Resolve reads_books reads_get : reads.

(** Computations that only read, along what they bind. *)
Ltac reading :=
  repeat first
    [ solve [eauto 1 with reads] | apply same_ret | apply same_lift | apply same_assert
    | apply same_bind; [|intros ?] | progress case_match ].

Lemma reads_lookup {A} (index : bank → gmap Z A) i : reads (lookup_in index i).
Proof. unfold lookup_in. reading. Qed.
#[local] Hint Resolve reads_lookup : reads.
Lemma reads_account i : reads (get_account i).
Proof. unfold get_account. reading. Qed.
Lemma reads_time : reads head_time.
Proof. unfold head_time. reading. Qed.
Lemma reads_balance o i : reads (balance_of o i).
Proof. unfold balance_of. reading. Qed.
Lemma reads_unlocked a : reads (unlocked a).
Proof. apply same_assert. Qed.
#[local] Hint Resolve reads_account reads_time reads_balance reads_unlocked : reads.

Lemma reads_enough o : reads (enough_balance o).
Proof. unfold enough_balance. reading. Qed.
#[local] Hint Resolve reads_enough : reads.

Lemma evaluations_read :
  (∀ o, reads (transfer_evaluate o)) ∧ (∀ o, reads (issue_evaluate o)) ∧ (∀ o, reads (reserve_evaluate o)) ∧
  (∀ o, reads (claim_fees_evaluate o)) ∧ (∀ o, reads (reserve_fees_evaluate o)) ∧
  (∀ i o, reads (permission_update_evaluate i o)) ∧ (∀ o, reads (claim_evaluate o)) ∧
  (∀ i f a, reads (permission_delete_evaluate i f a)).
Proof.
  unfold transfer_evaluate, issue_evaluate, reserve_evaluate, claim_fees_evaluate, reserve_fees_evaluate,
    permission_update_evaluate, claim_evaluate, permission_delete_evaluate, get_asset, get_permission.
  split_and!; intros; reading.
Qed.

Lemma create_reads identified id o : (∀ x y z t, reads (identified x y z t)) → reads (permission_create_evaluate identified id o).
Proof. intros Hid. unfold permission_create_evaluate, get_asset. reading. Qed.

(** ** What application changes *)

(** The ledger [l'] is [l] but for balances that change by [h], the wealth in each asset by
    [w], its supply by [s], its accumulated fees by [f]. *)
Definition changes (h : Z * Z → Z) (w s f : Z → Z) (l l' : ledger) : Prop :=
  ledger_ok l' ∧ head_block_time l' = head_block_time l ∧ accounts l' = accounts l ∧
  (∀ k, held k l' = held k l + h k) ∧
  ∀ i, wealth i l' = wealth i l + w i ∧ supply i l' = supply i l + s i ∧ Fees.accumulated i l' = Fees.accumulated i l + f i.

Lemma changes_trans h1 w1 s1 f1 h2 w2 s2 f2 l l1 l2 :
  changes h1 w1 s1 f1 l l1 → changes h2 w2 s2 f2 l1 l2 →
  changes (λ k, h1 k + h2 k) (λ i, w1 i + w2 i) (λ i, s1 i + s2 i) (λ i, f1 i + f2 i) l l2.
Proof.
  intros (_ & T1 & A1 & H1 & W1) (L2 & T2 & A2 & H2 & W2). split; [done|]. split; [congruence|]. split; [congruence|]. split.
  - intros k. rewrite H2, H1. lia.
  - intros i. destruct (W1 i) as (?&?&?), (W2 i) as (?&?&?). lia.
Qed.

Definition at_key (acct : Z) (a : asset) (k : Z * Z) : Z := if decide (k = (acct, asset_id a)) then amount a else 0.
Definition nothing (i : Z) : Z := 0.

Lemma posted u info acct a l x l' :
  ledger_ok l → int64 (amount a) → adjust_balance u info acct a l = Ok (x, l') →
  changes (at_key acct a) (λ i, only i a) nothing nothing l l'.
Proof.
  intros Hl Ha Hrun. destruct (adjust_balance_Ok _ _ _ _ _ _ _ Hl Ha Hrun) as [Hl' Hc]. split; [done|].
  assert (∃ h m, l' = set_applied h (set_balances m l)) as (h & m & Heq).
  { destruct Hc as [[-> _]|[h ->]]; [exists (applied_balances l), (balances l); by destruct l|by eexists _, _]. }
  split; [by rewrite Heq|]. split; [by rewrite Heq|]. split.
  - intros k. unfold at_key. destruct Hc as [[-> Hz]|Hc]; [case_decide; lia|]. apply (credited_held _ _ _ _ _ Hc).
  - intros i. destruct (adjust_balance_wealth i _ _ _ _ _ _ _ Hl Ha Hrun) as [Hw Hs]. split; [done|].
    split; [unfold nothing; lia|]. rewrite Heq. unfold Fees.accumulated, nothing. cbn. lia.
Qed.

Lemma credit_Ok u info acct a b x b' :
  ledger_ok (books b) → int64 (amount a) → credit u info acct a b = Ok (x, b') →
  ∃ l, b' = set_books l b ∧ changes (at_key acct a) (λ i, only i a) nothing nothing (books b) l.
Proof. intros Hl Ha (l & Hrun & ->)%zoom_Ok. exists l. split; [done|]. by eapply posted. Qed.

Lemma debit_Ok u info acct a b x b' :
  ledger_ok (books b) → int64 (amount a) → debit u info acct a b = Ok (x, b') →
  ∃ l, b' = set_books l b ∧ changes (λ k, - at_key acct a k) (λ i, - only i a) nothing nothing (books b) l.
Proof.
  intros Hl Ha Hrun. apply M_bind_Ok in Hrun as (d & ? & [Hd ->]%lift_Ok & (l & Hrun & ->)%zoom_Ok).
  apply bind_Ok in Hd as (n & [-> Hn]%safe_neg_Ok & [= <-]); [|done]. exists l. split; [done|].
  destruct (posted u info acct (mk_asset (- amount a) (asset_id a)) _ _ _ Hl Hn Hrun) as (L & T & A & H & W). repeat (split; [done|]). split.
  - intros k. rewrite H. unfold at_key. cbn. case_decide; lia.
  - intros i. destruct (W i) as (?&?&?). split; [|done]. unfold only in *. cbn in *. case_match; lia.
Qed.

(** A change of the supply and the fees of one asset. *)
Definition at_asset (j n : Z) (i : Z) : Z := if decide (i = j) then n else 0.

Lemma modify_dynamic_Ok i f s0 f0 b x b' :
  ledger_ok (books b) →
  (∀ d d', int64 (current_supply d) → int64 (accumulated_fees d) → f d = Ok d' →
    current_supply d' = current_supply d + s0 ∧ accumulated_fees d' = accumulated_fees d + f0 ∧
    int64 (current_supply d') ∧ int64 (accumulated_fees d')) →
  modify_dynamic i f b = Ok (x, b') →
  ∃ l d, b' = set_books l b ∧ dynamic_data (books b) !! i = Some d ∧ is_Some (dynamic_data l !! i) ∧
    changes (λ _, 0) nothing (at_asset i s0) (at_asset i f0) (books b) l.
Proof.
  intros Hl Hf (l & Hrun & ->)%zoom_Ok. apply M_bind_Ok in Hrun as (d & ? & [Hd ->]%get_Ok & Hrun).
  apply M_bind_Ok in Hrun as (d' & ? & [Hd' ->]%lift_Ok & ->%modify_st_Ok).
  destruct (ok_dynamic _ Hl _ _ Hd) as [I1 I2]. destruct (Hf d d' I1 I2 Hd') as (Es & Ef & I1' & I2').
  eexists _, d. split; [done|]. split; [done|]. split; [cbn; by rewrite lookup_insert_eq|]. split.
  - destruct Hl as [Hb Hv Hn Hdy]. constructor; try done. cbn [dynamic_data set_dynamic].
    intros j e [[<- <-]|[_ He]]%lookup_insert_Some; [done|by eapply Hdy].
  - split; [done|]. split; [done|]. split; [intros k; unfold held; cbn; lia|].
    intros j. unfold wealth, supply, Fees.accumulated, nothing, at_asset. cbn [balances vestings dynamic_data set_dynamic].
    split; [lia|]. case_decide as Hj; [subst j|by rewrite lookup_insert_ne by done; lia].
    rewrite lookup_insert_eq, Hd. cbn. lia.
Qed.

Lemma at_asset_only a i : at_asset (asset_id a) (amount a) i = only i a.
Proof. unfold at_asset, only. case_decide; case_match; lia. Qed.

Lemma add_supply_Ok n d d' : int64 n → int64 (current_supply d) → int64 (accumulated_fees d) → add_supply n d = Ok d' →
  current_supply d' = current_supply d + n ∧ accumulated_fees d' = accumulated_fees d + 0 ∧
  int64 (current_supply d') ∧ int64 (accumulated_fees d').
Proof. intros Hn I1 I2 (x & [-> ?]%safe_add_Ok & [= <-])%bind_Ok; [|done..]. cbn. by rewrite Z.add_0_r. Qed.
Lemma sub_supply_Ok n d d' : int64 n → int64 (current_supply d) → int64 (accumulated_fees d) → sub_supply n d = Ok d' →
  current_supply d' = current_supply d + - n ∧ accumulated_fees d' = accumulated_fees d + 0 ∧
  int64 (current_supply d') ∧ int64 (accumulated_fees d').
Proof. intros Hn I1 I2 (x & [-> ?]%safe_sub_Ok & [= <-])%bind_Ok; [|done..]. cbn. by rewrite Z.add_0_r. Qed.
Lemma add_fees_Ok n d d' : int64 n → int64 (current_supply d) → int64 (accumulated_fees d) → add_fees n d = Ok d' →
  current_supply d' = current_supply d + 0 ∧ accumulated_fees d' = accumulated_fees d + n ∧
  int64 (current_supply d') ∧ int64 (accumulated_fees d').
Proof. intros Hn I1 I2 (x & [-> ?]%safe_add_Ok & [= <-])%bind_Ok; [|done..]. cbn. by rewrite Z.add_0_r. Qed.
Lemma sub_fees_Ok n d d' : int64 n → int64 (current_supply d) → int64 (accumulated_fees d) → sub_fees n d = Ok d' →
  current_supply d' = current_supply d + 0 ∧ accumulated_fees d' = accumulated_fees d + - n ∧
  int64 (current_supply d') ∧ int64 (accumulated_fees d').
Proof. intros Hn I1 I2 (x & [-> ?]%safe_sub_Ok & [= <-])%bind_Ok; [|done..]. cbn. by rewrite Z.add_0_r. Qed.

(** The amount an operation moves, what it does to the balance [k], and to the supply and
    the accumulated fees of the asset [i]. *)
Definition moved_amount (op : share_operations) : asset :=
  match op with
  | transfer o => transfer_amount o
  | issue o => asset_to_issue o
  | reserve o | claim_fees o | reserve_fees o => share_amount o
  | permission_claim o => amount_to_withdraw o
  | _ => null_asset
  end.

Definition moved (op : share_operations) (k : Z * Z) : Z :=
  let at_acct acct := at_key acct (moved_amount op) k in
  match op with
  | transfer o => at_acct (transfer_to o) - at_acct (transfer_from o)
  | issue o => at_acct (issue_to_account o)
  | reserve o | reserve_fees o => - at_acct (share_account o)
  | claim_fees o => at_acct (share_account o)
  | permission_claim o => at_acct (claim_to o) - at_acct (claim_from o)
  | _ => 0
  end.

Definition minted (op : share_operations) (i : Z) : Z :=
  match op with issue _ => only i (moved_amount op) | reserve _ => - only i (moved_amount op) | _ => 0 end.

Definition collected (op : share_operations) (i : Z) : Z :=
  match op with reserve_fees _ => only i (moved_amount op) | claim_fees _ => - only i (moved_amount op) | _ => 0 end.

Definition accounts_for (op : share_operations) : ledger → ledger → Prop :=
  changes (moved op) (λ i, minted op i - collected op i) (minted op) (collected op).

Lemma changes_ext h w s f h' w' s' f' l l' :
  changes h w s f l l' → (∀ k, h k = h' k) → (∀ i, w i = w' i ∧ s i = s' i ∧ f i = f' i) → changes h' w' s' f' l l'.
Proof.
  intros (L & T & A & H & W) Eh E. repeat (split; [done|]). split; [intros k; by rewrite H, Eh|].
  intros i. destruct (W i) as (-> & -> & ->), (E i) as (-> & -> & ->). done.
Qed.

Lemma no_change l : ledger_ok l → changes (λ _, 0) nothing nothing nothing l l.
Proof. intros Hl. unfold nothing. repeat (split; [done|]). split; intros; lia. Qed.

(** Two steps in a row. *)
Lemma changes_step h1 w1 s1 f1 h2 w2 s2 f2 h w s f l l1 l2 :
  changes h1 w1 s1 f1 l l1 → changes h2 w2 s2 f2 l1 l2 →
  (∀ k, h1 k + h2 k = h k) → (∀ i, w1 i + w2 i = w i ∧ s1 i + s2 i = s i ∧ f1 i + f2 i = f i) →
  changes h w s f l l2.
Proof. intros H1 H2 Eh E. by eapply changes_ext; [by eapply changes_trans| |]. Qed.

Lemma bind_reads {A B} (m : M bank A) (k : A → M bank B) b x b' :
  reads m → (m ≫= k) b = Ok (x, b') → ∃ a, m b = Ok (a, b) ∧ k a b = Ok (x, b').
Proof. intros Hm (a & b1 & Ha & Hk)%M_bind_Ok. pose proof (Hm _ _ _ Ha) as E. cbn in E. subst b1. eauto. Qed.

(** What is left is a sum per key or asset. *)
Ltac settle :=
  intros; unfold nothing; cbn; unfold at_asset, only, at_key; cbn; repeat case_decide; repeat case_match; simplify_eq/=; lia.

Section Application.
Context (b : bank) (Hl : ledger_ok (books b)).

Lemma debit_credit u1 i1 from u2 i2 to a x b' :
  int64 (amount a) → (debit u1 i1 from a ;; credit u2 i2 to a) b = Ok (x, b') →
  changes (λ k, at_key to a k - at_key from a k) nothing nothing nothing (books b) (books b') ∧
  b' = set_books (books b') b.
Proof.
  intros Ha Hrun. apply M_bind_Ok in Hrun as (? & b1 & (l1 & -> & H1)%debit_Ok & Hrun); [|done..].
  apply credit_Ok in Hrun as (l2 & -> & H2); [|apply H1|done]. split; [|done].
  eapply changes_step; [exact H1|exact H2|settle|settle].
Qed.

Lemma transfer_apply_Ok o x b' : int64 (amount (transfer_amount o)) → transfer_apply o b = Ok (x, b') →
  accounts_for (transfer o) (books b) (books b').
Proof.
  intros Ha Hrun. apply bind_reads in Hrun as (f & _ & Hrun); [|apply reads_account].
  apply bind_reads in Hrun as (t & _ & Hrun); [|apply reads_account].
  apply debit_credit in Hrun as [Hc _]; [|done]. exact Hc.
Qed.

Lemma issue_apply_Ok o x b' : int64 (amount (asset_to_issue o)) → issue_apply o b = Ok (x, b') →
  accounts_for (issue o) (books b) (books b').
Proof.
  intros Ha Hrun. apply M_bind_Ok in Hrun as (? & b1 & (l1 & -> & H1)%credit_Ok & Hrun); [|done..].
  eapply modify_dynamic_Ok in Hrun as (l2 & d & -> & _ & _ & H2); [|apply H1|intros ? ? I1 I2; by apply add_supply_Ok].
  eapply changes_step; [exact H1|exact H2|settle|settle].
Qed.

Lemma reserve_apply_Ok o x b' : int64 (amount (share_amount o)) → reserve_apply o b = Ok (x, b') →
  accounts_for (reserve o) (books b) (books b').
Proof.
  intros Ha Hrun. apply M_bind_Ok in Hrun as (? & b1 & (l1 & -> & H1)%debit_Ok & Hrun); [|done..].
  eapply modify_dynamic_Ok in Hrun as (l2 & d & -> & _ & _ & H2); [|apply H1|intros ? ? I1 I2; by apply sub_supply_Ok].
  eapply changes_step; [exact H1|exact H2|settle|settle].
Qed.

Lemma claim_fees_apply_Ok o x b' : int64 (amount (share_amount o)) → claim_fees_apply o b = Ok (x, b') →
  accounts_for (claim_fees o) (books b) (books b').
Proof.
  intros Ha Hrun. apply bind_reads in Hrun as (a & _ & Hrun); [|apply reads_lookup].
  apply bind_reads in Hrun as (d0 & _ & Hrun); [|apply reads_books]. apply bind_reads in Hrun as (? & _ & Hrun); [|apply same_assert].
  apply M_bind_Ok in Hrun as (? & b1 & Hm & Hrun).
  eapply modify_dynamic_Ok in Hm as (l1 & d & -> & _ & _ & H1); [|done|intros ? ? I1 I2; by apply sub_fees_Ok].
  apply credit_Ok in Hrun as (l2 & -> & H2); [|apply H1|done].
  eapply changes_step; [exact H1|exact H2|settle|settle].
Qed.

Lemma reserve_fees_apply_Ok o x b' : int64 (amount (share_amount o)) → reserve_fees_apply o b = Ok (x, b') →
  accounts_for (reserve_fees o) (books b) (books b').
Proof.
  intros Ha Hrun. apply bind_reads in Hrun as (a & _ & Hrun); [|apply reads_lookup].
  apply M_bind_Ok in Hrun as (? & b1 & Hm & Hrun).
  eapply modify_dynamic_Ok in Hm as (l1 & d & -> & _ & _ & H1); [|done|intros ? ? I1 I2; by apply add_fees_Ok].
  apply debit_Ok in Hrun as (l2 & -> & H2); [|apply H1|done].
  eapply changes_step; [exact H1|exact H2|settle|settle].
Qed.

Lemma claim_apply_Ok o x b' : int64 (amount (amount_to_withdraw o)) → claim_apply o b = Ok (x, b') →
  accounts_for (permission_claim o) (books b) (books b') ∧
  ∃ p p', permissions b !! claim_permission o = Some p ∧ claimed (head_block_time (books b)) (amount (amount_to_withdraw o)) p = Ok p' ∧
    permissions b' = <[claim_permission o := p']> (permissions b).
Proof.
  intros Ha Hrun. apply M_bind_Ok in Hrun as (p & b1 & Hp & Hrun). unfold get_permission, lookup_in in Hp.
  apply M_bind_Ok in Hp as (? & ? & [= <- <-] & [Hp ->]%lift_Ok). destruct (permissions b !! claim_permission o) as [q|] eqn:Hq; [|done].
  injection Hp as ->. apply M_bind_Ok in Hrun as (now & ? & [= <- <-] & Hrun).
  apply M_bind_Ok in Hrun as (p' & ? & [Hp' ->]%lift_Ok & Hrun). apply M_bind_Ok in Hrun as (? & b1 & ->%modify_st_Ok & Hrun).
  unfold put_permission in Hrun. set (b1 := set_permissions _ _ b) in *.
  apply M_bind_Ok in Hrun as (? & b2 & (l1 & -> & H1)%debit_Ok & Hrun); [|done..].
  apply credit_Ok in Hrun as (l2 & -> & H2); [|apply H1|done]. split; [|by exists p, p'].
  eapply changes_step; [exact H1|exact H2|settle|settle].
Qed.
End Application.

(** The stages of an operation, evaluation being read-only. *)
Lemma staged {A} (v : result A) (ev ap : M bank ()) b x b' :
  reads ev → (lift v ;; ev ;; ap) b = Ok (x, b') → ∃ y, ev b = Ok (y, b) ∧ ap b = Ok (x, b').
Proof.
  intros Hev Hrun. apply bind_reads in Hrun as (? & _ & Hrun); [|apply same_lift]. apply bind_reads in Hrun as (y & He & Hrun); [|done]. eauto.
Qed.

Lemma issue_bounded o b y b1 a :
  ledger_ok (books b) → int64 (amount (asset_to_issue o)) → issue_evaluate o b = Ok (y, b1) → assets b !! asset_id (asset_to_issue o) = Some a →
  supply (asset_id (asset_to_issue o)) (books b) + amount (asset_to_issue o) ≤ max_supply a.
Proof.
  intros Hl Hi Hrun Ha. apply bind_reads in Hrun as (a' & Ha' & Hrun); [|apply reads_lookup].
  unfold get_asset, lookup_in in Ha'. apply M_bind_Ok in Ha' as (? & ? & [= <- <-] & [Ha' _]%lift_Ok). rewrite Ha in Ha'. injection Ha' as <-.
  do 2 (apply bind_reads in Hrun as (? & _ & Hrun); [|apply same_assert]). apply bind_reads in Hrun as (t & _ & Hrun); [|apply reads_account].
  do 2 (apply bind_reads in Hrun as (? & _ & Hrun); [|apply same_assert]).
  apply bind_reads in Hrun as (d & (? & [Hd _]%get_Ok & _)%zoom_Ok & Hrun); [|apply reads_books].
  apply bind_reads in Hrun as (s & [Hs _]%lift_Ok & Hrun); [|apply same_lift]. apply assert_st_Ok in Hrun as [Hle%Z.leb_le _].
  destruct (ok_dynamic _ Hl _ _ Hd) as [I _]. apply safe_add_Ok in Hs as [-> _]; [|done..]. unfold supply. by rewrite Hd.
Qed.

Lemma reserve_bounded o b y b1 :
  ledger_ok (books b) → int64 (amount (share_amount o)) → reserve_evaluate o b = Ok (y, b1) →
  0 ≤ supply (asset_id (share_amount o)) (books b) - amount (share_amount o).
Proof.
  intros Hl Hi Hrun. apply bind_reads in Hrun as (a' & _ & Hrun); [|apply reads_lookup].
  apply bind_reads in Hrun as (? & _ & Hrun); [|apply same_lift]. apply bind_reads in Hrun as (t & _ & Hrun); [|apply reads_account].
  do 2 (apply bind_reads in Hrun as (? & _ & Hrun); [|apply same_assert]).
  apply bind_reads in Hrun as (d & (? & [Hd _]%get_Ok & _)%zoom_Ok & Hrun); [|apply reads_books].
  apply bind_reads in Hrun as (s & [Hs _]%lift_Ok & Hrun); [|apply same_lift]. apply assert_st_Ok in Hrun as [Hle%Z.leb_le _].
  destruct (ok_dynamic _ Hl _ _ Hd) as [I _]. apply safe_sub_Ok in Hs as [-> _]; [|done..]. unfold supply. by rewrite Hd.
Qed.

Lemma operation_accounts identified op b u b' :
  (∀ x y z t, reads (identified x y z t)) → ledger_ok (books b) → int64 (amount (moved_amount op)) →
  apply_share_operation identified op b = Ok (u, b') →
  accounts_for op (books b) (books b') ∧
  (∀ o, op = issue o → ∃ y, issue_evaluate o b = Ok (y, b)) ∧ (∀ o, op = reserve o → ∃ y, reserve_evaluate o b = Ok (y, b)).
Proof.
  intros Hid Hl Hi Hrun. destruct evaluations_read as (R1 & R2 & R3 & R4 & R5 & R6 & R7 & R8).
  destruct op as [o|o|o|o|o|id o|i o|o|f i from auth]; cbn [apply_share_operation] in Hrun;
    (apply staged in Hrun as (y & He & Hrun); [|auto using create_reads]).
  - split; [by eapply transfer_apply_Ok|done].
  - split; [by eapply issue_apply_Ok|]. split; [|done]. intros ? [= <-]. eauto.
  - split; [by eapply reserve_apply_Ok|]. split; [done|]. intros ? [= <-]. eauto.
  - split; [by eapply claim_fees_apply_Ok|done].
  - split; [by eapply reserve_fees_apply_Ok|done].
  - apply M_bind_Ok in Hrun as (j & b1 & Hc & [= _ <-]). unfold permission_create_apply in Hc.
    apply M_bind_Ok in Hc as (? & ? & [= <- <-] & Hc). apply M_bind_Ok in Hc as (? & ? & ->%put_st_Ok & [= _ <-]).
    split; [by apply no_change|done].
  - apply bind_reads in Hrun as (p & _ & ->%modify_st_Ok); [|apply reads_lookup]. split; [by apply no_change|done].
  - split; [by eapply claim_apply_Ok|done].
  - apply bind_reads in Hrun as (p & _ & ->%modify_st_Ok); [|apply reads_lookup]. split; [by apply no_change|done].
Qed.

(** C23: An operation on shares changes the balances it names by its amount and no other; the
    supply changes by what is issued or reserved and stays within its bounds, the
    accumulated fees by what is claimed or given back; and for every asset, what the
    accounts and vesting balances hold plus the accumulated fees less the supply stays the
    same. *)
Theorem shares_accounted identified op b u b' :
  (∀ x y z t, reads (identified x y z t)) → ledger_ok (books b) → int64 (amount (moved_amount op)) →
  apply_share_operation identified op b = Ok (u, b') →
  ledger_ok (books b') ∧
  (∀ k, held k (books b') = held k (books b) + moved op k) ∧
  (∀ i, supply i (books b') = supply i (books b) + minted op i ∧
        Fees.accumulated i (books b') = Fees.accumulated i (books b) + collected op i ∧
        wealth i (books b') + Fees.accumulated i (books b') - supply i (books b') =
        wealth i (books b) + Fees.accumulated i (books b) - supply i (books b)) ∧
  (∀ o a, op = issue o → assets b !! asset_id (asset_to_issue o) = Some a →
     supply (asset_id (asset_to_issue o)) (books b') ≤ max_supply a) ∧
  (∀ o, op = reserve o → 0 ≤ supply (asset_id (share_amount o)) (books b')).
Proof.
  intros Hid Hl Hi Hrun. destruct (operation_accounts _ _ _ _ _ Hid Hl Hi Hrun) as ((L & T & A & H & W) & Hissue & Hreserve).
  split; [done|]. split; [done|]. split; [intros i; destruct (W i) as (->&->&->); lia|]. split.
  - intros o a -> Ha. destruct (Hissue o eq_refl) as [y He]. pose proof (issue_bounded _ _ _ _ _ Hl Hi He Ha) as Hle.
    destruct (W (asset_id (asset_to_issue o))) as (_ & -> & _). cbn. unfold only. by rewrite Z.eqb_refl.
  - intros o ->. destruct (Hreserve o eq_refl) as [y He]. pose proof (reserve_bounded _ _ _ _ Hl Hi He) as Hle.
    destruct (W (asset_id (share_amount o))) as (_ & -> & _). cbn. unfold only. rewrite Z.eqb_refl. lia.
Qed.

(** ** Withdrawals stay within the limit of their period *)

Abbreviation now b := (head_block_time (books b)).

Lemma books_permissions {A} (m : M ledger A) : same permissions (on_books m).
Proof. by intros b a b' (l & _ & ->)%zoom_Ok. Qed.

Lemma books_time {A} (m : M ledger A) : same head_block_time m → same (λ b, now b) (on_books m).
Proof. intros Hm b a b' (l & Hrun & ->)%zoom_Ok. by eapply Hm. Qed.

Definition frame (b : bank) := (permissions b, now b).

Lemma adjust_frame u info a d : same frame (on_books (adjust_balance u info a d)).
Proof.
  intros b x b' Hrun. unfold frame. rewrite (books_permissions _ _ _ _ Hrun).
  by rewrite (books_time _ (adjust_balance_time _ _ _ _) _ _ _ Hrun).
Qed.

Lemma get_permission_Ok i b p b' : get_permission i b = Ok (p, b') → permissions b !! i = Some p ∧ b' = b.
Proof.
  intros Hrun. apply M_bind_Ok in Hrun as (? & ? & [= <- <-] & [Hp ->]%lift_Ok).
  split; [|done]. by destruct (permissions b !! i); simplify_eq.
Qed.

Lemma claim_apply_permission o b x b' :
  claim_apply o b = Ok (x, b') →
  ∃ p p', permissions b !! claim_permission o = Some p ∧ claimed (now b) (amount (amount_to_withdraw o)) p = Ok p' ∧
    permissions b' = <[claim_permission o := p']> (permissions b) ∧ now b' = now b.
Proof.
  intros Hrun. apply M_bind_Ok in Hrun as (p & ? & [Hp ->]%get_permission_Ok & Hrun).
  apply M_bind_Ok in Hrun as (t & ? & [= <- <-] & Hrun). apply M_bind_Ok in Hrun as (p' & ? & [Hp' ->]%lift_Ok & Hrun).
  apply M_bind_Ok in Hrun as (? & b1 & ->%modify_st_Ok & Hrun).
  assert (same frame (debit 76 "" (claim_from o) (amount_to_withdraw o) ;; credit 77 "" (claim_to o) (amount_to_withdraw o))) as Hf.
  { unfold debit, credit. repeat first [apply same_bind; [|intros ?] | apply same_lift | apply adjust_frame]. }
  apply Hf in Hrun as [= -> ->]. by exists p, p'.
Qed.

Lemma asset_leb_true a b : asset_leb a b = Ok true → amount a ≤ amount b.
Proof.
  destruct a as [m i], b as [n j]. unfold asset_leb, asset_eqb, asset_ltb. cbn [amount asset_id].
  destruct (i =? j); cbn [andb]; [|done]. destruct (Z.eqb_spec m n) as [->|]; [done|]. cbn.
  intros H. change (Ok (m <? n) = Ok true) in H. injection H as H%Z.ltb_lt. lia.
Qed.

Lemma claim_evaluate_Ok o b y b' :
  claim_evaluate o b = Ok (y, b') →
  ∃ p av, permissions b !! claim_permission o = Some p ∧ period_start_time p ≤ now b < expiration p ∧
    available_this_period p (now b) = Ok av ∧ amount (amount_to_withdraw o) ≤ amount av ∧
    authorized_account p = claim_to o ∧ withdraw_from_account p = claim_from o ∧
    asset_id (withdrawal_limit p) = asset_id (amount_to_withdraw o).
Proof.
  intros Hrun. apply M_bind_Ok in Hrun as (t & ? & [= <- <-] & Hrun).
  apply M_bind_Ok in Hrun as (p & ? & [Hp ->]%get_permission_Ok & Hrun).
  do 5 (apply M_bind_Ok in Hrun as (? & ? & [? ->]%assert_st_Ok & Hrun)).
  apply M_bind_Ok in Hrun as (av & ? & [Hav ->]%lift_Ok & Hrun). apply M_bind_Ok in Hrun as (c & ? & [Hc ->]%lift_Ok & Hrun).
  apply M_bind_Ok in Hrun as (? & ? & [-> ->]%assert_st_Ok & _). exists p, av.
  apply asset_leb_true in Hc.
  split_and!; try done; lia.
Qed.

(** A history of the permission [i]: claims on it, between them anything that leaves the
    permission as it is, while the clock does not go back. *)
Section History.
Context (identified : Z → Z → Z → Z → M bank ()) (i : Z).

Inductive withdrawals : bank → list (Z * Z) → bank → Prop :=
  | withdrawals_none b : withdrawals b [] b
  | withdrawals_other b b1 tr b' : permissions b1 !! i = permissions b !! i → now b ≤ now b1 →
      withdrawals b1 tr b' → withdrawals b tr b'
  | withdrawals_claim b o u b1 tr b' : claim_permission o = i →
      apply_share_operation identified (permission_claim o) b = Ok (u, b1) →
      withdrawals b1 tr b' → withdrawals b ((now b, amount (amount_to_withdraw o)) :: tr) b'.

Lemma withdrawals_later b tr b' : withdrawals b tr b' → Forall (λ ta, now b ≤ ta.1) tr.
Proof.
  induction 1 as [b|b b1 tr b' _ Ht _ IH|b o u b1 tr b' Ho Hrun _ IH]; [done| |].
  - eapply Forall_impl; [exact IH|]. intros ta. cbn. lia.
  - constructor; [done|]. destruct evaluations_read as (_ & _ & _ & _ & _ & _ & Hread & _).
    apply staged in Hrun as (y & _ & Hrun); [|done]. apply claim_apply_permission in Hrun as (p & p' & _ & _ & _ & Hnow).
    rewrite Hnow in IH. eapply Forall_impl; [exact IH|]. intros ta. cbn. lia.
Qed.

(** What a history withdraws in the period [k] of a permission that starts at [start]. *)
Definition in_period (start period k : Z) (tr : list (Z * Z)) : Z :=
  zsum ((λ ta, if (ta.1 - start) / period =? k then ta.2 else 0) <$> tr).

Lemma in_period_before start period k t tr :
  0 < period → Forall (λ ta, t ≤ ta.1) tr → k < (t - start) / period → in_period start period k tr = 0.
Proof.
  intros Hp Hall Hk. unfold in_period. induction Hall as [|[t' a] tr Ht _ IH]; [done|]. rewrite fmap_cons, zsum_cons, IH. cbn in *.
  pose proof (Z.div_le_mono (t - start) (t' - start) period). destruct (Z.eqb_spec ((t' - start) / period) k); lia.
Qed.

Lemma in_period_shift start period m k tr :
  0 < period → in_period (start + m * period) period k tr = in_period start period (k + m) tr.
Proof.
  intros Hp. unfold in_period. f_equal. apply list_fmap_ext. intros _ [t a] _. cbn.
  replace (t - (start + m * period)) with (t - start + (- m) * period) by lia. rewrite Z.div_add by lia.
  destruct (Z.eqb_spec ((t - start) / period + - m) k), (Z.eqb_spec ((t - start) / period) (k + m)); lia.
Qed.
End History.

Record permission_ok (p : withdraw_permission_object) : Prop := mk_permission_ok {
  ok_period : 0 < withdrawal_period_sec p;
  ok_start : 0 ≤ period_start_time p;
  ok_limit : 0 ≤ amount (withdrawal_limit p) ∧ int64 (amount (withdrawal_limit p));
  ok_claimed : 0 ≤ claimed_this_period p ∧ int64 (claimed_this_period p);
  ok_total : int64 (claimed_total p)
}.

(** What a permission still allows in the period [k] from its start. *)
Definition remaining (p : withdraw_permission_object) (k : Z) : Z :=
  Z.max 0 (amount (withdrawal_limit p) - if k =? 0 then claimed_this_period p else 0).

Lemma claimed_Ok t a p p' :
  permission_ok p → period_start_time p ≤ t → t + withdrawal_period_sec p < 2 ^ 32 → 0 < a → int64 a →
  claimed t a p = Ok p' →
  let m := (t - period_start_time p) / withdrawal_period_sec p in
  permission_ok p' ∧ withdrawal_limit p' = withdrawal_limit p ∧ withdrawal_period_sec p' = withdrawal_period_sec p ∧
  period_start_time p' = period_start_time p + m * withdrawal_period_sec p ∧
  claimed_this_period p' = (if m =? 0 then claimed_this_period p + a else a) ∧ claimed_total p' = claimed_total p + a.
Proof.
  intros [Hp Hs Hl Hc Ht] Hst Hmax Ha Ha' Hrun m. unfold claimed in Hrun.
  rewrite (proj2 (Z.eqb_neq _ 0)) in Hrun by lia. rewrite Z.quot_div_nonneg in Hrun by lia. fold m in Hrun.
  assert (0 ≤ m * withdrawal_period_sec p ≤ t - period_start_time p) as Hm.
  { pose proof (Z.mul_div_le (t - period_start_time p) (withdrawal_period_sec p) Hp).
    pose proof (Z.div_pos (t - period_start_time p) (withdrawal_period_sec p)). fold m in H, H0. nia. }
  rewrite !to_uint_id in Hrun by (rewrite ?to_uint_id; unfold uint; lia).
  apply bind_Ok in Hrun as (total & [-> Htot]%safe_add_Ok & Hrun); [|done..].
  apply bind_Ok in Hrun as (this & Hthis & [= <-]).
  assert (this = (if m =? 0 then claimed_this_period p + a else a) ∧ 0 ≤ this ∧ int64 this) as (-> & Hpos & Hint).
  { destruct (m =? 0); [|injection Hthis as <-; split_and!; [done|lia|done]].
    apply safe_add_Ok in Hthis as [-> ?]; [|apply Hc|done]. split_and!; [done|lia|done]. }
  split; [|done]. constructor; cbn; try done; lia.
Qed.

Lemma available_remaining t p av :
  permission_ok p → period_start_time p ≤ t → t + withdrawal_period_sec p < 2 ^ 32 → available_this_period p t = Ok av →
  amount av = remaining p ((t - period_start_time p) / withdrawal_period_sec p).
Proof.
  intros [Hp Hs [Hl Hl'] [Hc Hc'] Ht] Hst Hmax Hrun. unfold available_this_period, time_plus in Hrun.
  rewrite to_uint_id in Hrun by (unfold uint; lia). unfold remaining.
  destruct (Z.leb_spec (period_start_time p + withdrawal_period_sec p) t) as [Hle|Hlt].
  - injection Hrun as <-. assert (1 ≤ (t - period_start_time p) / withdrawal_period_sec p) by (apply Z.div_le_lower_bound; lia).
    destruct (Z.eqb_spec ((t - period_start_time p) / withdrawal_period_sec p) 0); lia.
  - rewrite Z.div_small by lia. cbn [Z.eqb]. destruct (Z.ltb_spec (claimed_this_period p) (amount (withdrawal_limit p))).
    + apply bind_Ok in Hrun as (n & [-> _]%safe_sub_Ok & [= <-]); [|done..]. cbn. lia.
    + injection Hrun as <-. cbn. lia.
Qed.

(** However claims on a permission and other operations follow each other, in each of
    its periods no more is withdrawn than its limit, less what was claimed before in the
    first of them: the limit of the permission holds for each period as it stands, whatever
    the other operations do, so long as the periods fit the 32 bits of the clock (see
    [huge_period_unlimited] for one that does not). *)
Theorem withdrawals_limited identified i b tr b' p k :
  permissions b !! i = Some p → permission_ok p → 0 ≤ k →
  withdrawals identified i b tr b' → Forall (λ ta, ta.1 + withdrawal_period_sec p < 2 ^ 32) tr →
  in_period (period_start_time p) (withdrawal_period_sec p) k tr ≤ remaining p k.
Proof.
  intros Hp Hok Hk Htr. revert p k Hp Hok Hk.
  induction Htr as [b|b b1 tr b' Hsame Ht _ IH|b o u b1 tr b' Ho Hrun Htr IH]; intros p k Hp Hok Hk Hall.
  - unfold in_period, remaining. cbn. lia.
  - apply IH; [congruence|done..].
  - apply Forall_cons in Hall as [Hmax Hall]. cbn in Hmax.
    destruct evaluations_read as (_ & _ & _ & _ & _ & _ & Hread & _). assert (0 < amount (amount_to_withdraw o)) as Ha.
    { cbn [apply_share_operation] in Hrun. apply M_bind_Ok in Hrun as (? & ? & [Hv _]%lift_Ok & _). unfold claim_validate in Hv.
      apply bind_Ok in Hv as (? & _ & Hv). apply bind_Ok in Hv as (? & Hv%FC_ASSERT_Ok & _). lia. }
    apply staged in Hrun as (y & He & Hrun); [|done]. apply claim_evaluate_Ok in He as (q & av & Hq & Hst & Hav & Hle & _).
    apply claim_apply_permission in Hrun as (q' & p' & Hq' & Hc & Hperm & Hnow). rewrite Ho in Hq, Hq', Hperm.
    rewrite Hp in Hq, Hq'. injection Hq as <-. injection Hq' as <-.
    apply available_remaining in Hav; [|done|lia|done].
    assert (int64 (amount (amount_to_withdraw o))) as Hint.
    { destruct (ok_limit _ Hok). destruct (ok_claimed _ Hok). unfold remaining in Hav. unfold int64, int64_min, int64_max in *. case_match; lia. }
    apply claimed_Ok in Hc as (Hok' & Elim & Eper & Estart & Ethis & _); [|done|lia|done..].
    pose proof (withdrawals_later _ _ _ _ _ Htr) as Hlater. rewrite Hnow in Hlater.
    set (start := period_start_time p) in *. set (per := withdrawal_period_sec p) in *. set (m := (now b - start) / per) in *.
    unfold in_period. rewrite fmap_cons, zsum_cons. fold (in_period start per k tr). cbn [fst snd]. fold m.
    pose proof (ok_period _ Hok) as Hper. fold per in Hper. pose proof (Z.div_pos (now b - start) per) as Hm. fold m in Hm.
    destruct (Z.lt_trichotomy k m) as [Hkm|[->|Hkm]].
    + rewrite (in_period_before start per k (now b)) by done. rewrite (proj2 (Z.eqb_neq m k)) by lia. unfold remaining. lia.
    + specialize (IH p' 0). rewrite Hperm, lookup_insert_eq, Eper, Estart, in_period_shift, Z.add_0_l in IH by done.
      unfold remaining in *. rewrite Z.eqb_refl, Elim, Ethis in *. fold per in IH. specialize (IH eq_refl Hok' ltac:(lia) Hall).
      destruct (Z.eqb_spec m 0); lia.
    + specialize (IH p' (k - m)). rewrite Hperm, lookup_insert_eq, Eper, Estart, in_period_shift in IH by done.
      replace (k - m + m) with k in IH by lia. unfold remaining in *. rewrite Elim in IH.
      rewrite !(proj2 (Z.eqb_neq _ 0)) in * by lia. rewrite (proj2 (Z.eqb_neq m k)) by lia.
      specialize (IH eq_refl Hok' ltac:(lia) Hall). lia.
Qed.

(** ** When a transfer succeeds *)

(** Who may hold an asset, as the comment of the function has it. *)
Definition may_hold (acct : holder) (i : Z) (a : asset_object) : Prop :=
  Z.land (flags a) white_list = 0 ∧ allowed_assets acct = None ∨
  (∀ s, allowed_assets acct = Some s → i ∈ s) ∧ (∀ x, x ∈ blacklisting_accounts acct → x ∉ blacklist_authorities a) ∧
  (whitelist_authorities a = ∅ ∨ ∃ x, x ∈ whitelisting_accounts acct ∧ x ∈ whitelist_authorities a).

Lemma is_authorized_spec acct i a : is_authorized_asset acct i a = true ↔ may_hold acct i a.
Proof.
  unfold is_authorized_asset, may_hold. destruct (Z.eqb_spec (Z.land (flags a) white_list) 0) as [Hw|Hw];
    destruct (allowed_assets acct) as [s|] eqn:Hs; cbn [andb].
  all: try (rewrite bool_decide_eq_true_2 by done; by split; [intros _; left|]).
  all: rewrite ?bool_decide_eq_false_2 by done; unfold slow_check; rewrite Hs.
  1, 2: case_bool_decide as Hin; [split; [done|intros [[? ?]|[Hs' _]]; [done|]; by specialize (Hs' s eq_refl)]|].
  all: case_bool_decide as Hb;
    [split; [done|]; intros [[? ?]|(_ & Hd & _)]; [done|]; exfalso; apply Hb; set_solver|].
  all: case_bool_decide as Hwl; [split; [intros _; right; split_and!; [naive_solver|set_solver|by left]|done]|].
  all: rewrite bool_decide_eq_true; split;
    [intros [x Hx]%set_choose_L; right; split_and!; [naive_solver|set_solver|right; exists x; set_solver]
    |intros [[? ?]|(_ & _ & [?|(x & ? & ?)])]; [done|done|set_solver]].
Qed.

Definition transfer_allowed (o : transfer_operation) (b : bank) : Prop :=
  let i := asset_id (transfer_amount o) in
  let n := amount (transfer_amount o) in
  0 ≤ amount (transfer_fee o) ∧ transfer_from o ≠ transfer_to o ∧ 0 < n ∧
  (∀ m, transfer_memo o = Some m → m < GRAPHENE_MAX_MEMO_DATA_LENGTH) ∧
  ∃ af hf at_ ht a fee,
    accounts (books b) !! transfer_from o = Some af ∧ holders b !! transfer_from o = Some hf ∧
    accounts (books b) !! transfer_to o = Some at_ ∧ holders b !! transfer_to o = Some ht ∧
    assets b !! i = Some a ∧ assets b !! asset_id (transfer_fee o) = Some fee ∧
    is_lock_balance af = false ∧ is_lock_balance at_ = false ∧ may_hold hf i a ∧ may_hold ht i a ∧
    is_cash_issued a = false ∧ is_cash_issued fee = false ∧
    (is_transfer_restricted a = true → transfer_from o = asset_issuer a ∨ transfer_to o = asset_issuer a) ∧
    n ≤ held (transfer_from o, i) (books b) ∧ held (transfer_to o, i) (books b) + n ≤ int64_max.

Lemma get_account_Ok i b x b' :
  get_account i b = Ok (x, b') ↔ accounts (books b) !! i = Some x.1 ∧ holders b !! i = Some x.2 ∧ b' = b.
Proof.
  unfold get_account, lookup_in. rewrite M_bind_Ok. split.
  - intros (a & ? & (l & [Ha ->]%get_Ok & ->)%zoom_Ok & Hrun). rewrite books_id in Hrun.
    apply M_bind_Ok in Hrun as (h & ? & Hh & [= <- <-]). apply M_bind_Ok in Hh as (? & ? & [= <- <-] & [Hh ->]%lift_Ok).
    split; [done|]. split; [|done]. cbn. by destruct (holders b !! i); simplify_eq.
  - destruct x as [a h]. cbn. intros (Ha & Hh & ->). exists a, b. split.
    + apply zoom_Ok. exists (books b). unfold get. rewrite books_id. split; [|done]. cbv [mbind M_bind get_st lift]. by rewrite Ha.
    + cbv [mbind M_bind get_st lift]. by rewrite Hh.
Qed.

Lemma get_asset_Ok i b a b' : get_asset i b = Ok (a, b') ↔ assets b !! i = Some a ∧ b' = b.
Proof.
  unfold get_asset, lookup_in. cbv [mbind M_bind get_st lift]. destruct (assets b !! i); naive_solver.
Qed.

Lemma transfer_evaluates o b af hf at_ ht a fee :
  let i := asset_id (transfer_amount o) in
  accounts (books b) !! transfer_from o = Some af → holders b !! transfer_from o = Some hf →
  accounts (books b) !! transfer_to o = Some at_ → holders b !! transfer_to o = Some ht →
  assets b !! i = Some a → assets b !! asset_id (transfer_fee o) = Some fee →
  is_ok (transfer_evaluate o b) =
    negb (is_lock_balance af) && negb (is_lock_balance at_) && is_authorized_asset hf i a && is_authorized_asset ht i a &&
    can_transfer a && can_transfer fee &&
    (if is_transfer_restricted a then (transfer_from o =? asset_issuer a) || (transfer_to o =? asset_issuer a) else true) &&
    (amount (transfer_amount o) <=? held (transfer_from o, i) (books b)).
Proof.
  intros i H1 H2 H3 H4 H5 H6. unfold transfer_evaluate. fold i.
  rewrite (M_bind_run _ _ _ (af, hf) b) by by apply get_account_Ok. rewrite (M_bind_run _ _ _ (at_, ht) b) by by apply get_account_Ok.
  rewrite (M_bind_run _ _ _ a b) by by apply get_asset_Ok. rewrite (M_bind_run _ _ _ fee b) by by apply get_asset_Ok.
  unfold unlocked, assert_st, balance_of, GRAPHENE_ASSERT, FC_ASSERT. cbv [mbind M_bind lift get_st mret M_ret]. cbn [fst snd].
  destruct (is_lock_balance af), (is_lock_balance at_), (is_authorized_asset hf i a), (is_authorized_asset ht i a),
    (can_transfer a), (can_transfer fee), (is_transfer_restricted a); cbn [negb andb]; try done;
    rewrite ?get_balance_held; cbn [amount]; fold i; repeat (case_match; simplify_eq/=); try done;
    match goal with H : (_ <=? amount (get_balance _ _ _)) = _ |- _ => by rewrite get_balance_held in H end.
Qed.

Lemma debit_eq u info acct a b : int64 (- amount a) → amount a ≠ int64_min →
  debit u info acct a b = on_books (adjust_balance u info acct (mk_asset (- amount a) (asset_id a))) b.
Proof.
  intros Hn Hm. unfold debit, asset_neg, safe_neg. cbv [mbind M_bind lift]. destruct (Z.eqb_spec (amount a) int64_min); [done|].
  rewrite to_sint_64_id by done. done.
Qed.

Lemma transfer_applies o b af hf at_ ht :
  ledger_ok (books b) → int64 (amount (transfer_amount o)) → transfer_from o ≠ transfer_to o →
  let i := asset_id (transfer_amount o) in
  let n := amount (transfer_amount o) in
  0 < n → n ≤ held (transfer_from o, i) (books b) →
  accounts (books b) !! transfer_from o = Some af → holders b !! transfer_from o = Some hf →
  accounts (books b) !! transfer_to o = Some at_ → holders b !! transfer_to o = Some ht →
  is_ok (transfer_apply o b) = (held (transfer_to o, i) (books b) + n <=? int64_max).
Proof.
  intros Hl Hi Hne i n Hn Hheld H1 H2 H3 H4. unfold transfer_apply.
  rewrite (M_bind_run _ _ _ (af, hf) b) by by apply get_account_Ok. rewrite (M_bind_run _ _ _ (at_, ht) b) by by apply get_account_Ok.
  set (d := mk_asset (- n) i). cbn [fst snd].
  assert (int64 (- n)) as Hneg by (unfold int64, int64_min, int64_max in *; lia).
  destruct (held_ok (transfer_from o, i) _ (ledger_ok_balances _ Hl)) as [Hf Hf'].
  pose proof (adjust_balance_run 69 ("transfer to " ++ name ht) (transfer_from o) d _ (ledger_ok_balances _ Hl) Hneg) as H69.
  cbn [amount asset_id d] in H69. specialize (H69 ltac:(lia) ltac:(done)).
  rewrite (proj2 (Z.ltb_ge _ 0)) in H69 by lia. rewrite (proj2 (Z.ltb_ge int64_max _)) in H69 by (unfold int64, int64_max in *; lia).
  destruct H69 as (l & Hrun & Hc).
  rewrite (M_bind_run _ _ b () (set_books l b)); [|rewrite debit_eq by (fold n; unfold int64_min; done || lia); unfold on_books, zoom;
    fold n i d; by rewrite Hrun].
  assert (balances_ok l) as Hl' by (eapply credited_balances; [by apply ledger_ok_balances|..|done]; [lia|unfold int64, int64_min, int64_max in *; lia]).
  unfold credit, on_books, zoom. cbn [books set_books].
  pose proof (adjust_balance_run 70 ("transfer from " ++ name hf) (transfer_to o) (transfer_amount o) l Hl' Hi) as H70.
  specialize (H70 ltac:(fold n; lia) ltac:(done)). cbv zeta in H70. fold i n in H70. rewrite !(credited_held _ _ _ _ _ Hc) in H70.
  rewrite decide_False, Z.add_0_r in H70 by congruence.
  destruct (held_ok (transfer_to o, i) _ (ledger_ok_balances _ Hl)) as [Hto _]. rewrite (proj2 (Z.ltb_ge _ 0)) in H70 by lia.
  destruct (Z.ltb_spec int64_max (held (transfer_to o, i) (books b) + n)).
  - rewrite H70. symmetry. by apply Z.leb_gt.
  - destruct H70 as (l2 & -> & _). symmetry. by apply Z.leb_le.
Qed.

Lemma transfer_validate_Ok o u :
  transfer_validate o = Ok u ↔ 0 ≤ amount (transfer_fee o) ∧ transfer_from o ≠ transfer_to o ∧ 0 < amount (transfer_amount o) ∧
    (∀ m, transfer_memo o = Some m → m < GRAPHENE_MAX_MEMO_DATA_LENGTH).
Proof.
  destruct u. unfold transfer_validate, memo_ok, FC_ASSERT. cbv [mbind result_bind].
  destruct (Z.leb_spec 0 (amount (transfer_fee o))), (Z.eqb_spec (transfer_from o) (transfer_to o)), (Z.ltb_spec 0 (amount (transfer_amount o)));
    cbn [negb]; try (split; [done|lia || tauto]).
  destruct (transfer_memo o) as [m|]; [destruct (Z.ltb_spec m GRAPHENE_MAX_MEMO_DATA_LENGTH)|].
  - split; [|done]. intros _. split_and!; try done. by intros ? [= <-].
  - split; [done|]. intros (_ & _ & _ & Hm). specialize (Hm m eq_refl). lia.
  - split; [|done]. by intros _.
Qed.

(** C36: A transfer succeeds exactly when it is allowed: it is well formed, the accounts and
    assets exist, neither account is locked, both may hold the asset by its lists, it is not
    cash and its restriction to transfers of the issuer is kept, the sender has the amount,
    and the balance of the recipient does not overflow. *)
Theorem transfer_exact identified o b :
  ledger_ok (books b) → int64 (amount (transfer_amount o)) →
  is_ok (apply_share_operation identified (transfer o) b) = true ↔ transfer_allowed o b.
Proof.
  intros Hl Hi. unfold transfer_allowed. set (i := asset_id (transfer_amount o)). set (n := amount (transfer_amount o)). split.
  - intros Hrun. destruct (apply_share_operation identified (transfer o) b) as [[u b']|] eqn:Happ; [|done].
    cbn [apply_share_operation] in Happ. apply M_bind_Ok in Happ as (v & ? & [Hv ->]%lift_Ok & Happ).
    apply transfer_validate_Ok in Hv as (Hfee & Hne & Hn & Hmemo). do 4 (split; [done|]).
    destruct evaluations_read as (Hread & _). apply bind_reads in Happ as (y & He & Happ); [|done].
    pose proof He as Hlook. unfold transfer_evaluate in Hlook.
    apply bind_reads in Hlook as ([af hf] & (H1 & H2 & _)%get_account_Ok & Hlook); [|apply reads_account].
    apply bind_reads in Hlook as ([at_ ht] & (H3 & H4 & _)%get_account_Ok & Hlook); [|apply reads_account].
    apply bind_reads in Hlook as (a & [H5 _]%get_asset_Ok & Hlook); [|apply reads_lookup].
    apply bind_reads in Hlook as (fee & [H6 _]%get_asset_Ok & _); [|apply reads_lookup]. cbn [fst snd] in *.
    pose proof (transfer_evaluates o b af hf at_ ht a fee H1 H2 H3 H4 H5 H6) as Hev. rewrite He in Hev. fold i in Hev. cbn [is_ok] in Hev.
    symmetry in Hev. rewrite !andb_true_iff in Hev. destruct Hev as (((((((L1 & L2) & A1) & A2) & C1) & C2) & R) & B).
    pose proof (transfer_applies o b af hf at_ ht Hl Hi Hne Hn ltac:(fold i; lia) H1 H2 H3 H4) as Hap. rewrite Happ in Hap. fold i in Hap.
    exists af, hf, at_, ht, a, fee. split_and!; try done; try (by apply negb_true_iff); try (by apply is_authorized_spec); try (fold n in Hap; cbn in Hap; lia).
    intros Hr. rewrite Hr in R. lia.
  - intros (Hfee & Hne & Hn & Hmemo & af & hf & at_ & ht & a & fee & H1 & H2 & H3 & H4 & H5 & H6 & L1 & L2 & A1 & A2 & C1 & C2 & R & B1 & B2).
    cbn [apply_share_operation]. rewrite (M_bind_run _ _ b () b) by (apply lift_Ok; split; [by apply transfer_validate_Ok|done]).
    pose proof (transfer_evaluates o b af hf at_ ht a fee H1 H2 H3 H4 H5 H6) as Hev. fold i n in Hev.
    unfold can_transfer in Hev. apply is_authorized_spec in A1, A2. rewrite L1, L2, A1, A2, C1, C2 in Hev. cbn [negb andb] in Hev.
    assert ((if is_transfer_restricted a then (transfer_from o =? asset_issuer a) || (transfer_to o =? asset_issuer a) else true) = true) as Hr.
    { destruct (is_transfer_restricted a); [|done]. destruct (R eq_refl); lia. }
    rewrite Hr, (proj2 (Z.leb_le _ _) B1) in Hev. destruct (transfer_evaluate o b) as [[u b1]|] eqn:He; [|done].
    destruct evaluations_read as (Hread & _). pose proof (Hread _ _ _ _ He) as Hb. cbn in Hb. subst b1.
    rewrite (M_bind_run _ _ _ _ _ He). rewrite (transfer_applies o b af hf at_ ht) by done. by apply Z.leb_le.
Qed.

(** * Concrete banks *)

Module TransfersExample.
(** Account 10 holds 500 of asset 1 and may be locked; account 20 may withdraw from it. *)
Definition ledger_at (t : Z) (property : Z) : ledger :=
  mk_ledger {[ (10, 1) := 500 ]} ∅ 0 {[ 1 := mk_dyn 507 7 0 ]}
    {[ 10 := mk_account 10 10 10 2000 8000 0 None property; 20 := mk_account 20 20 20 2000 8000 0 None 0 ]} ∅ ∅ t 0 0
    (mk_params 0 0 0 0 0) false [].
Definition coin (issuer : Z) : asset_object := mk_asset_object issuer 0 1000 0 false ∅ ∅.
Definition bank_at (t property : Z) (p : gmap Z withdraw_permission_object) : bank :=
  mk_bank (ledger_at t property) {[ 10 := mk_holder "ten" None ∅ ∅; 20 := mk_holder "twenty" None ∅ ∅ ]}
    {[ 0 := coin 3; 1 := coin 10 ]} p 1 3.
Definition allow (_ _ _ _ : Z) : M bank () := mret ().
Definition run (op : share_operations) (b : bank) : result (() * bank) := apply_share_operation allow op b.
Definition after (op : share_operations) (b : bank) : bank := match run op b with Ok (_, b') => b' | Throw _ => b end.

Lemma ledger_at_ok t property : uint 32 t → ledger_ok (ledger_at t property).
Proof.
  intros Ht. constructor; cbn [ledger_at balances vestings dynamic_data head_block_time next_vesting_id]; try done.
  - intros k b [<- <-]%lookup_singleton_Some. split; [lia|int_lia].
  - intros i d [<- <-]%lookup_singleton_Some. cbn. split; int_lia.
Qed.

Definition send (n : Z) : transfer_operation := mk_transfer (mk_asset 0 0) 10 20 (mk_asset n 1) None.

Lemma shares_accounted_witness :
  held (10, 1) (books (after (transfer (send 30)) (bank_at 1000 0 ∅))) = 470 ∧
  ledger_ok (books (after (transfer (send 30)) (bank_at 1000 0 ∅))).
Proof.
  destruct (shares_accounted allow (transfer (send 30)) (bank_at 1000 0 ∅) () (after (transfer (send 30)) (bank_at 1000 0 ∅)))
    as (Hok & Hheld & _).
  - intros x y z t b u b'. by intros [= _ <-].
  - apply ledger_at_ok. unfold uint. lia.
  - cbn. int_lia.
  - vm_compute. reflexivity.
  - split; [rewrite Hheld; vm_compute; reflexivity|exact Hok].
Defined.

Lemma transfer_exact_witness :
  ¬ transfer_allowed (send 501) (bank_at 1000 0 ∅) ∧ ¬ transfer_allowed (send 30) (bank_at 1000 256 ∅).
Proof.
  split; intros Ha; apply (transfer_exact allow) in Ha;
    [vm_compute in Ha; discriminate Ha|apply ledger_at_ok; unfold uint; lia|cbn; int_lia
    |vm_compute in Ha; discriminate Ha|apply ledger_at_ok; unfold uint; lia|cbn; int_lia].
Defined.

Definition monthly (period start claimed : Z) : withdraw_permission_object :=
  mk_permission 10 20 (mk_asset 100 1) period start (2 ^ 32 - 1) 0 claimed claimed.
Definition withdraw (n : Z) : claim_operation := mk_claim (mk_asset 0 0) 0 10 20 (mk_asset n 1) None.
Definition first_bank : bank := bank_at 1000 0 {[ 0 := monthly 3600 900 0 ]}.
Definition second_bank : bank := after (permission_claim (withdraw 60)) first_bank.
Definition third_bank : bank := after (permission_claim (withdraw 40)) second_bank.

Lemma withdrawals_limited_witness :
  in_period 900 3600 0 [(1000, 60); (1000, 40)] ≤ 100 ∧ run (permission_claim (withdraw 41)) second_bank = Throw assert_exception.
Proof.
  split; [|vm_compute; reflexivity].
  change 100 with (remaining (monthly 3600 900 0) 0).
  apply (withdrawals_limited allow 0 first_bank [(1000, 60); (1000, 40)] third_bank (monthly 3600 900 0) 0).
  - vm_compute. reflexivity.
  - constructor; cbn; int_lia.
  - lia.
  - apply (withdrawals_claim allow 0 first_bank (withdraw 60) () second_bank [(1000, 40)]); [reflexivity|vm_compute; reflexivity|].
    apply (withdrawals_claim allow 0 second_bank (withdraw 40) () third_bank []); [reflexivity|vm_compute; reflexivity|].
    apply withdrawals_none.
  - repeat constructor; cbn; lia.
Defined.

(** A permission whose period ends after the last second of the clock: the end of the
    period wraps to a time before its start, so that every claim may have the whole
    limit. *)
Theorem huge_period_unlimited :
  let b := bank_at 1000 0 {[ 0 := monthly (2 ^ 32 - 1) 900 0 ]} in
  let b3 := after (permission_claim (withdraw 100)) (after (permission_claim (withdraw 100)) (after (permission_claim (withdraw 100)) b)) in
  held (20, 1) (books b3) = 300 ∧ claimed_this_period <$> permissions b3 !! 0 = Some 300 ∧
  amount (withdrawal_limit (monthly (2 ^ 32 - 1) 900 0)) = 100.
Proof. vm_compute. done. Qed.

(** The account that is withdrawn from may be locked: the two accounts the evaluator looks
    at are the recipient, twice. *)
Theorem locked_account_withdrawn :
  let b := bank_at 1000 256 {[ 0 := monthly 3600 900 0 ]} in
  held (20, 1) (books (after (permission_claim (withdraw 100)) b)) = 100 ∧ run (transfer (send 100)) b = Throw assert_exception.
Proof. vm_compute. done. Qed.

(** An update starts new periods but keeps the claims of the old one, against the limit of
    the first new one. *)
Definition renewed : permission_terms := mk_terms (mk_asset 0 0) 10 20 (mk_asset 100 1) 3600 10 1000.
Theorem update_keeps_claims :
  let b := after (permission_update 0 renewed) (bank_at 1000 0 {[ 0 := monthly 3600 900 100 ]}) in
  period_start_time <$> permissions b !! 0 = Some 1000 ∧ run (permission_claim (withdraw 1)) b = Throw assert_exception.
Proof. vm_compute. done. Qed.

(** The expiration wraps: 65537 periods of 65536 seconds expire after one of them. *)
Theorem expiration_wraps :
  terms_expiration (mk_terms (mk_asset 0 0) 10 20 (mk_asset 100 1) 65536 65537 1000) = 1000 + 65536.
Proof. vm_compute. done. Qed.

(** Without the flag that asks for it the lists of the asset bind those accounts that have
    their own list of allowed assets. *)
Example lists_bind_restricted_accounts :
  is_authorized_asset (mk_holder "a" None ∅ {[ 5 ]}) 1 (mk_asset_object 3 0 10 0 false ∅ {[ 5 ]}) = true ∧
  is_authorized_asset (mk_holder "a" (Some {[ 1 ]}) ∅ {[ 5 ]}) 1 (mk_asset_object 3 0 10 0 false ∅ {[ 5 ]}) = false.
Proof. vm_compute. done. Qed.
End TransfersExample.
