(* ===== verification/Collateral.v ===== *)
(** * Collateral prices: the rational arithmetic of libraries/chain/protocol/asset.cpp

    Prices times ratios, the price at which a debt position is called, and the prices a
    feed derives from its settlement price and its collateral ratios.  The rational numbers
    are those of boost, with 128-bit integers: an interface. *)

From S2P Require Import Prelude Safe Uint128 Asset.
From Stdlib Require Import ZArith.

Local Open Scope Z_scope.

(** ** The interface of [boost::rational< int128_t >] *)

(** A rational number keeps its numerator and denominator in lowest terms. *)
Class Rational (Q : Type) := {
  numerator : Q → Z;
  denominator : Q → Z;
  make_rational : Z → Z → Q;
  rational_mul : Q → Q → Q;
  (** [abs( a - c ) < abs( b - c )] *)
  rational_closer : Q → Q → Q → bool
}.

Class RationalLaws (Q : Type) `{Rational Q} := {
  make_terms n d : 0 < n < 2 ^ 127 → 0 < d < 2 ^ 127 →
    numerator (make_rational n d) = n / Z.gcd n d ∧ denominator (make_rational n d) = d / Z.gcd n d;
  mul_terms a b :
    0 < numerator a → 0 < denominator a → 0 < numerator b → 0 < denominator b →
    numerator a * numerator b < 2 ^ 127 → denominator a * denominator b < 2 ^ 127 →
    let n := numerator a * numerator b in
    let d := denominator a * denominator b in
    numerator (rational_mul a b) = n / Z.gcd n d ∧ denominator (rational_mul a b) = d / Z.gcd n d
}.

Definition GRAPHENE_COLLATERAL_RATIO_DENOM : Z := 1000.
Definition GRAPHENE_MIN_COLLATERAL_RATIO : Z := 1001.
Definition GRAPHENE_MAX_COLLATERAL_RATIO : Z := 32000.

(** ** [operator *( price, price )] *)

(** The two prices turned so that the second starts where the first ends. *)
Definition chain_prices (a b : price) : result (price * price) :=
  if asset_id (base a) =? asset_id (base b) then Ok (price_inv a, b)
  else if asset_id (base a) =? asset_id (quote b) then Ok (price_inv a, price_inv b)
  else if asset_id (quote a) =? asset_id (base b) then Ok (a, b)
  else if asset_id (quote a) =? asset_id (quote b) then Ok (a, price_inv b)
  else Throw assert_exception.

(** A price of an asset in itself is 1. *)
Definition self_price (p : price) : price :=
  if asset_id (base p) =? asset_id (quote p)
  then mk_price (mk_asset 10000 (asset_id (base p))) (mk_asset 10000 (asset_id (quote p))) else p.

Definition MAX_PRODUCT_BASE : Z := 1000000000000.

Section PriceProduct.
Context {U : Type} `{Multiprecision U}.

(** The loop; a base of 128 bits is divided at most 14 times. *)
Fixpoint drop_digits (fuel : nat) (b q : U) : result (U * U) :=
  if mp_le_int b MAX_PRODUCT_BASE then Ok (b, q)
  else match fuel with O => Throw out_of_fuel | S fuel => drop_digits fuel (mp_div b 100) (mp_div q 100) end.

Definition price_times_price (a b : price) : result price :=
  '(a_p, b_p) ← chain_prices a b;
  let a_p := self_price a_p in
  let b_p := self_price b_p in
  '(b', q') ← drop_digits 14 (mp_mul (mp_of_int64 (amount (base a_p))) (amount (base b_p)))
    (mp_mul (mp_of_int64 (amount (quote b_p))) (amount (quote a_p)));
  mret (mk_price (mk_asset (mp_to_int64 b') (asset_id (base a_p))) (mk_asset (mp_to_int64 q') (asset_id (quote b_p)))).
End PriceProduct.

(** * Correctness of the product of prices *)

Section PriceProductCorrect.
Context {U : Type} `{MultiprecisionLaws U}.

Lemma drop_digits_ends fuel (b q : U) : mp_val b < 10 ^ 12 * 100 ^ Z.of_nat fuel →
  ∃ k b' q', drop_digits fuel b q = Ok (b', q') ∧ (k ≤ fuel)%nat ∧ mp_val b' = mp_val b / 100 ^ Z.of_nat k ∧
    mp_val q' = mp_val q / 100 ^ Z.of_nat k ∧ mp_val b' ≤ MAX_PRODUCT_BASE ∧ (mp_val b ≤ MAX_PRODUCT_BASE → k = 0%nat).
Proof.
  revert b q. induction fuel as [|fuel IH]; intros b q Hb; cbn [drop_digits]; rewrite mp_le_int_val by (unfold MAX_PRODUCT_BASE; int_lia);
    destruct (Z.leb_spec (mp_val b) MAX_PRODUCT_BASE) as [Hle|Hgt].
  1,3: exists 0%nat, b, q; rewrite !Z.div_1_r; split_and!; done || lia.
  - cbn in Hb. unfold MAX_PRODUCT_BASE in Hgt. lia.
  - destruct (IH (mp_div b 100) (mp_div q 100)) as (k & b' & q' & Hrun & Hk & Vb & Vq & Hmax & _).
    { rewrite mp_val_div by int_lia. rewrite Nat2Z.inj_succ, Z.pow_succ_r in Hb by lia. apply Z.div_lt_upper_bound; lia. }
    exists (S k), b', q'. rewrite !mp_val_div in * by int_lia. rewrite Nat2Z.inj_succ, Z.pow_succ_r by lia.
    rewrite Z.div_div in Vb, Vq by lia. split_and!; done || lia.
Qed.
Lemma chain_prices_ok a b x y : price_ok a → price_ok b → chain_prices a b = Ok (x, y) →
  price_ok x ∧ price_ok y ∧ asset_id (quote x) = asset_id (base y).
Proof.
  unfold chain_prices, price_ok. intros Ha Hb. repeat case_match; intros [= <- <-]; rewrite ?Z.eqb_eq, ?Z.eqb_neq in *; cbn;
    naive_solver.
Qed.

Lemma chain_prices_shared a b i : is_for a i = true → is_for b i = true → ∃ x y, chain_prices a b = Ok (x, y).
Proof.
  unfold is_for, chain_prices. intros Ha Hb. apply orb_true_iff in Ha, Hb. rewrite !Z.eqb_eq in Ha, Hb.
  repeat case_match; eauto; rewrite ?Z.eqb_neq in *; lia.
Qed.

(** Every two prices that share an asset have a product: their terms multiplied, less the
    pairs of decimal digits that bring the base to at most 10^12. *)
Theorem price_product_terms a b x y : price_ok a → price_ok b → chain_prices a b = Ok (x, y) →
  ∃ k p, price_times_price a b = Ok p ∧ asset_id (base p) = asset_id (base x) ∧ asset_id (quote p) = asset_id (quote y) ∧
    amount (base p) = amount (base x) * amount (base y) / 100 ^ Z.of_nat k ∧ amount (base p) ≤ MAX_PRODUCT_BASE ∧
    (amount (quote x) * amount (quote y) / 100 ^ Z.of_nat k ≤ int64_max →
     amount (quote p) = amount (quote x) * amount (quote y) / 100 ^ Z.of_nat k) ∧
    (amount (base x) * amount (base y) ≤ MAX_PRODUCT_BASE → k = 0%nat).
Proof.
  intros Ha Hb Hc. destruct (chain_prices_ok a b x y Ha Hb Hc) as (Hx & Hy & _). unfold price_times_price. rewrite Hc, Ok_bind. unfold self_price.
  pose proof Hx as (X1 & I1 & X2 & I2 & X3). pose proof Hy as (Y1 & J1 & Y2 & J2 & Y3).
  rewrite (proj2 (Z.eqb_neq _ _) X3), (proj2 (Z.eqb_neq _ _) Y3).
  assert (∀ m n, 0 < m → int64 m → 0 < n → int64 n → mp_val (mp_mul (mp_of_int64 m) n) = m * n ∧ m * n < 2 ^ 126) as Hmul.
  { intros m n ????. assert (0 < m * n < 2 ^ 126) by (change (2 ^ 126) with (2 ^ 63 * 2 ^ 63); int_lia || (unfold int64, int64_max in *; nia)).
    rewrite mp_val_mul, mp_val_of_int64 by (done || lia). rewrite Z.mod_small; lia. }
  destruct (Hmul (amount (base x)) (amount (base y))) as [Vb Bb]; [done..|].
  destruct (Hmul (amount (quote y)) (amount (quote x))) as [Vq Bq]; [done..|].
  destruct (drop_digits_ends 14 (mp_mul (mp_of_int64 (amount (base x))) (amount (base y)))
    (mp_mul (mp_of_int64 (amount (quote y))) (amount (quote x)))) as (k & b' & q' & -> & _ & Hb' & Hq' & Hmax & Hk);
    [rewrite Vb; change (10 ^ 12 * 100 ^ Z.of_nat 14) with (10 ^ 40); lia|].
  rewrite Ok_bind. rewrite Vb in *. rewrite Vq in *. eexists k, _. split; [reflexivity|]. cbn.
  rewrite mp_to_int64_val by (unfold MAX_PRODUCT_BASE in Hmax; int_lia). split_and!; [done..|by rewrite Hb'|done| |done].
  intros Hle. rewrite (Z.mul_comm (amount (quote x))) in *. rewrite mp_to_int64_val; congruence.
Qed.
End PriceProductCorrect.

Section Collateral.
Context {U : Type} `{Multiprecision U} {Q : Type} `{Rational Q}.

(** The constructor throws [bad_rational] when the denominator is 0. *)
Definition rational (n d : Z) : result Q := if d =? 0 then Throw other_exception else Ok (make_rational n d).

Definition too_wide (q : Q) : bool :=
  (GRAPHENE_MAX_SHARE_SUPPLY <? numerator q) || (GRAPHENE_MAX_SHARE_SUPPLY <? denominator q).

(** The loops that make a fraction fit; [half] is how a term is halved. *)
Fixpoint shrink (half : Z → Z) (fuel : nat) (q : Q) : result Q :=
  if too_wide q then
    match fuel with
    | O => Throw out_of_fuel
    | S fuel => shrink half fuel (make_rational (half (numerator q)) (half (denominator q)))
    end
  else Ok q.

(** [(n >> 1) + 1] and [(n >> 1) + (n & 1)]. *)
Definition half_up (n : Z) : Z := Z.shiftr n 1 + 1.
Definition half_round (n : Z) : Z := Z.shiftr n 1 + Z.land n 1.

(** The fuel of all of them: a term has 127 bits. *)
Definition shrink_fuel : nat := 128.

(** [asset( cp.numerator(), a ) / asset( cp.denominator(), b )]. *)
Definition price_of (q : Q) (a b : Z) : result price :=
  asset_ratio (mk_asset (to_sint 64 (numerator q)) a) (mk_asset (to_sint 64 (denominator q)) b).

(** [price::call_price]. *)
Definition call_price (debt collateral : asset) (collateral_ratio : Z) : result price :=
  swan ← rational (amount debt) (amount collateral);
  ratio ← rational collateral_ratio GRAPHENE_COLLATERAL_RATIO_DENOM;
  cp ← shrink half_up shrink_fuel (rational_mul swan ratio);
  p ← price_of cp (asset_id debt) (asset_id collateral);
  mret (price_inv p).

(** [price_feed::user_collateral_price]; the next two have the ratios of the feed. *)
Definition user_collateral_price (f : price_feed) (collateral_ratio : Z) : result price :=
  let s := settlement_price f in
  sp ← rational (amount (base s)) (amount (quote s));
  ratio ← rational GRAPHENE_COLLATERAL_RATIO_DENOM collateral_ratio;
  cp ← shrink half_round shrink_fuel (rational_mul sp ratio);
  price_of cp (asset_id (base s)) (asset_id (quote s)).

Definition max_short_squeeze_price (f : price_feed) : result price :=
  user_collateral_price f (maximum_short_squeeze_ratio f).
Definition max_collateral_price (f : price_feed) : result price :=
  user_collateral_price f (maintenance_collateral_ratio f).

(** ** [operator *( price, ratio_type )] *)

(** Its loop: a numerator or denominator of 1 ends it. *)
Fixpoint shrink_ratio (fuel : nat) (q : Q) (shrinked : bool) : result (Q * bool) :=
  if too_wide q then
    if numerator q =? 1 then Ok (make_rational 1 GRAPHENE_MAX_SHARE_SUPPLY, shrinked)
    else if denominator q =? 1 then Ok (make_rational GRAPHENE_MAX_SHARE_SUPPLY 1, shrinked)
    else match fuel with
         | O => Throw out_of_fuel
         | S fuel => shrink_ratio fuel (make_rational (Z.shiftr (numerator q) 1) (Z.shiftr (denominator q) 1)) true
         end
  else Ok (q, shrinked).

(** The nearest fraction with a term of 1, and the choice between it and [cp]. *)
Definition refine_ratio (ocp cp : Q) : Q :=
  let num := numerator ocp in
  let den := denominator ocp in
  let '(num, den) :=
    if den <? num then (Z.min (num ÷ den) GRAPHENE_MAX_SHARE_SUPPLY, 1) else (1, Z.min (den ÷ num) GRAPHENE_MAX_SHARE_SUPPLY) in
  let ncp := make_rational num den in
  if (num =? GRAPHENE_MAX_SHARE_SUPPLY) || (den =? GRAPHENE_MAX_SHARE_SUPPLY) then ncp
  else if rational_closer ncp cp ocp then ncp else cp.

(** [r] is the fraction [rn / rd], in lowest terms. *)
Definition price_times_ratio (p : price) (rn rd : Z) : result price :=
  price_validate p ;;
  FC_ASSERT ((0 <? rn) && (0 <? rd)) ;;
  if rn =? rd then Ok p else
  let ocp := rational_mul (make_rational (amount (base p)) (amount (quote p))) (make_rational rn rd) in
  '(cp, shrinked) ← shrink_ratio shrink_fuel ocp false;
  let cp := if shrinked : bool then refine_ratio ocp cp else cp in
  np ← price_of cp (asset_id (base p)) (asset_id (quote p));
  let np := if (rd <? rn) && price_ltb np p || (rn <? rd) && price_ltb p np then p else np in
  price_validate np ;;
  mret np.

Definition price_over_ratio (p : price) (rn rd : Z) : result price := price_times_ratio p rd rn.

(** [ratio_type( n, d )] of two positive numbers: in lowest terms, too. *)
Definition ratio_terms (n d : Z) : Z * Z := (n / Z.gcd n d, d / Z.gcd n d).

Definition maintenance_collateralization (f : price_feed) : result price :=
  if is_null (settlement_price f) then Ok null_price else
  let '(rn, rd) := ratio_terms (maintenance_collateral_ratio f) GRAPHENE_COLLATERAL_RATIO_DENOM in
  price_times_ratio (price_inv (settlement_price f)) rn rd.

(** ** [price_feed::validate] *)

(** [fcmax] is [fc::uint128( (int64_t) 0xFFFFFFFFFFFFFFFF )], the 128-bit number of -1. *)
Definition fcmax : uint128 := of_int64 (-1).
Definition below_fcmax (ratio amount : Z) : bool := lt128 (mul128 (of_int64 ratio) (of_int64 amount)) fcmax.

Definition price_feed_validate (f : price_feed) : result () :=
  let sp := settlement_price f in
  let cer := core_exchange_rate f in
  let mcr := maintenance_collateral_ratio f in
  FC_ASSERT (negb (is_null sp)) ;;
  price_validate sp ;;
  FC_ASSERT (GRAPHENE_MIN_COLLATERAL_RATIO <=? maximum_short_squeeze_ratio f) ;;
  FC_ASSERT (maximum_short_squeeze_ratio f <=? GRAPHENE_MAX_COLLATERAL_RATIO) ;;
  FC_ASSERT (GRAPHENE_MIN_COLLATERAL_RATIO <=? mcr) ;;
  FC_ASSERT (mcr <=? GRAPHENE_MAX_COLLATERAL_RATIO) ;;
  FC_ASSERT (maximum_short_squeeze_ratio f <=? mcr) ;;
  FC_ASSERT (below_fcmax mcr (amount (base sp))) ;;
  FC_ASSERT (below_fcmax mcr (amount (quote sp))) ;;
  FC_ASSERT (below_fcmax mcr (amount (base cer))) ;;
  FC_ASSERT (below_fcmax mcr (amount (quote cer))) ;;
  max_short_squeeze_price f ;;
  max_collateral_price f ;;
  mret ().
End Collateral.

(** ** Fractions that fit *)

Section Fractions.
Context {Q : Type} `{RationalLaws Q}.

Definition within (m : Z) (q : Q) : Prop := 0 < numerator q ≤ m ∧ 0 < denominator q ≤ m.
Abbreviation fits := (within GRAPHENE_MAX_SHARE_SUPPLY).

(** [q] is the fraction [n / d]. *)
Definition is_fraction (q : Q) (n d : Z) : Prop :=
  numerator q = n / Z.gcd n d ∧ denominator q = d / Z.gcd n d.

Lemma fraction_terms q n d : 0 < n → 0 < d → is_fraction q n d →
  0 < numerator q ≤ n ∧ 0 < denominator q ≤ d ∧ numerator q * d = denominator q * n.
Proof.
  intros Hn Hd [Eq Ed]. pose proof (Z.gcd_nonneg n d) as Hg.
  destruct (Z.gcd_divide_l n d) as [a Ha], (Z.gcd_divide_r n d) as [b Hb].
  assert (Z.gcd n d ≠ 0) by (intros E; apply Z.gcd_eq_0 in E; lia).
  assert (n / Z.gcd n d = a) as Ea by (rewrite Ha at 1; apply Z.div_mul; lia).
  assert (d / Z.gcd n d = b) as Eb by (rewrite Hb at 1; apply Z.div_mul; lia).
  rewrite Eq, Ed, Ea, Eb. nia.
Qed.

Lemma make_fraction n d : 0 < n < 2 ^ 127 → 0 < d < 2 ^ 127 → is_fraction (make_rational n d) n d.
Proof. apply make_terms. Qed.

Lemma make_within n d m : 0 < n ≤ m → 0 < d ≤ m → m < 2 ^ 127 → within m (make_rational n d).
Proof. intros Hn Hd Hm. destruct (fraction_terms (make_rational n d) n d) as (?&?&_); [lia..|apply make_fraction; lia|]. unfold within. lia. Qed.

Lemma make_unit m : 0 < m → m < 2 ^ 127 → within m (make_rational m 1) ∧ within m (make_rational 1 m).
Proof. intros. split; apply make_within; lia. Qed.

Lemma not_too_wide q : 0 < numerator q → 0 < denominator q → too_wide q = false → fits q.
Proof. unfold too_wide, within. lia. Qed.

(** How a halving loop may halve. *)
Definition halves (half : Z → Z) : Prop := ∀ n, 0 < n → 0 < half n ≤ n / 2 + 1.

Lemma shiftr_half n : Z.shiftr n 1 = n / 2.
Proof. by rewrite Z.shiftr_div_pow2 by lia. Qed.

Lemma half_up_halves : halves half_up.
Proof. intros n Hn. unfold half_up. rewrite shiftr_half. pose proof (Z.div_pos n 2). lia. Qed.

Lemma half_round_halves : halves half_round.
Proof.
  intros n Hn. unfold half_round. rewrite shiftr_half. assert (Z.land n 1 = n mod 2) as -> by exact (Z.land_ones n 1 ltac:(lia)).
  pose proof (Z.div_mod n 2). pose proof (Z.mod_pos_bound n 2). lia.
Qed.

Lemma half_bound half k n : halves half → 0 < n ≤ 2 ^ (Z.of_nat (S k) + 49) + 2 → 0 < half n ≤ 2 ^ (Z.of_nat k + 49) + 2.
Proof.
  intros Hh Hn. pose proof (Hh n). replace (Z.of_nat (S k) + 49) with (Z.succ (Z.of_nat k + 49)) in Hn by lia.
  rewrite Z.pow_succ_r in Hn by lia. pose proof (Z.div_le_mono n (2 * 2 ^ (Z.of_nat k + 49) + 2) 2).
  replace (2 * 2 ^ (Z.of_nat k + 49) + 2) with ((2 ^ (Z.of_nat k + 49) + 1) * 2) in * by lia. rewrite Z.div_mul in * by lia. lia.
Qed.

Lemma pow_bound k : (k < 77)%nat → 2 ^ (Z.of_nat k + 49) + 2 < 2 ^ 127.
Proof. intros Hk. pose proof (Z.pow_le_mono_r 2 (Z.of_nat k + 49) 125). change (2 ^ 127) with (4 * 2 ^ 125). lia. Qed.

Lemma shrink_fits half k fuel q : halves half → (k < 77)%nat → (k ≤ fuel)%nat → within (2 ^ (Z.of_nat k + 49) + 2) q →
  ∃ q', shrink half fuel q = Ok q' ∧ fits q' ∧ (fits q → q' = q).
Proof.
  intros Hh. revert k q. induction fuel as [|fuel IH]; intros k q Hk Hf [Hn Hd].
  - assert (k = 0%nat) as -> by lia. cbn in Hn, Hd. cbn [shrink].
    assert (too_wide q = false) as -> by (unfold too_wide, GRAPHENE_MAX_SHARE_SUPPLY; lia).
    exists q. split; [done|]. split; [|done]. unfold within, GRAPHENE_MAX_SHARE_SUPPLY. lia.
  - cbn [shrink]. destruct (too_wide q) eqn:Hw; [|exists q; split; [done|]; split; [by apply not_too_wide; [lia|lia|]|done]].
    destruct k as [|k]; [cbn in Hn, Hd; unfold too_wide, GRAPHENE_MAX_SHARE_SUPPLY in Hw; lia|].
    destruct (IH k (make_rational (half (numerator q)) (half (denominator q)))) as (q' & -> & Hq' & _); [lia|lia| |].
    + apply make_within; [by apply half_bound..|]. apply pow_bound. lia.
    + exists q'. split; [done|]. split; [done|]. unfold too_wide, within in *. lia.
Qed.

Lemma price_of_fits q a b : fits q → a ≠ b →
  price_of q a b = Ok (mk_price (mk_asset (numerator q) a) (mk_asset (denominator q) b)).
Proof.
  intros [Hn Hd] Hab. unfold price_of, asset_ratio. cbn [asset_id]. rewrite (proj2 (Z.eqb_neq a b)) by done.
  unfold GRAPHENE_MAX_SHARE_SUPPLY in *. rewrite !to_sint_64_id by int_lia. done.
Qed.

Lemma fits_price_ok q a b : fits q → a ≠ b → price_ok (mk_price (mk_asset (numerator q) a) (mk_asset (denominator q) b)).
Proof. intros [Hn Hd] Hab. unfold price_ok, GRAPHENE_MAX_SHARE_SUPPLY in *. cbn. split_and!; try done; int_lia. Qed.

(** The product of two fractions of an amount and a ratio. *)
Lemma scaled_fraction n1 d1 n2 d2 :
  0 < n1 → int64 n1 → 0 < d1 → int64 d1 → 0 < n2 < 2 ^ 32 → 0 < d2 < 2 ^ 32 →
  let q := rational_mul (make_rational n1 d1) (make_rational n2 d2) in
  within (2 ^ 95) q ∧ numerator q ≤ n1 * n2 ∧ denominator q ≤ d1 * d2 ∧ numerator q * (d1 * d2) = denominator q * (n1 * n2).
Proof.
  intros H1 I1 H2 I2 Hn2 Hd2 q. unfold int64, int64_max in I1, I2.
  destruct (fraction_terms (make_rational n1 d1) n1 d1) as (A1 & B1 & E1); [lia..|apply make_fraction; lia|].
  destruct (fraction_terms (make_rational n2 d2) n2 d2) as (A2 & B2 & E2); [lia..|apply make_fraction; lia|].
  set (a := make_rational n1 d1) in *. set (b := make_rational n2 d2) in *. change (2 ^ 95) with (2 ^ 63 * 2 ^ 32).
  assert (numerator a * numerator b < 2 ^ 63 * 2 ^ 32 ∧ denominator a * denominator b < 2 ^ 63 * 2 ^ 32) as [Pn Pd] by nia.
  destruct (fraction_terms q (numerator a * numerator b) (denominator a * denominator b)) as (A & B & E); [nia..| |].
  { apply mul_terms; lia. }
  unfold within. split; [lia|]. split; [etransitivity; [apply A|apply Z.mul_le_mono_nonneg; lia]|].
  split; [etransitivity; [apply B|apply Z.mul_le_mono_nonneg; lia]|].
  apply (Z.mul_reg_r _ _ (denominator a * denominator b)); [nia|].
  transitivity (numerator q * (denominator a * denominator b) * (d1 * d2)); [ring|]. rewrite E.
  transitivity (denominator q * ((numerator a * d1) * (numerator b * d2))); [ring|]. rewrite E1, E2. ring.
Qed.

Lemma rational_pos n d : 0 < d → rational n d = Ok (make_rational n d).
Proof. intros Hd. unfold rational. by rewrite (proj2 (Z.eqb_neq d 0)) by lia. Qed.

Lemma shrink_scaled half q : halves half → within (2 ^ 95) q →
  ∃ q', shrink half shrink_fuel q = Ok q' ∧ fits q' ∧ (fits q → q' = q).
Proof.
  intros Hh Hq. apply (shrink_fits half 46); [done|lia|unfold shrink_fuel; lia|].
  change (Z.of_nat 46 + 49) with 95. unfold within in *. lia.
Qed.

(** What the two functions return, case by case. *)
Section Sound.
Context (a b : asset) (ratio : Z) (Ha : 0 < amount a) (Ia : int64 (amount a)) (Hb : 0 < amount b) (Ib : int64 (amount b))
  (Hab : asset_id a ≠ asset_id b) (Hr : 0 < ratio < 2 ^ 16).

Definition sound (x y : asset) (nx ny : Z) (r : result price) : Prop :=
  ∃ p, r = Ok p ∧ price_ok p ∧ asset_id (base p) = asset_id x ∧ asset_id (quote p) = asset_id y ∧
    amount (base p) ≤ GRAPHENE_MAX_SHARE_SUPPLY ∧ amount (quote p) ≤ GRAPHENE_MAX_SHARE_SUPPLY ∧
    (nx ≤ GRAPHENE_MAX_SHARE_SUPPLY → ny ≤ GRAPHENE_MAX_SHARE_SUPPLY → amount (base p) * ny = amount (quote p) * nx).

Lemma fraction_price half n d : halves half → 0 < n < 2 ^ 32 → 0 < d < 2 ^ 32 →
  ∃ q', (q0 ← rational (amount a) (amount b); r ← rational n d; shrink half shrink_fuel (rational_mul q0 r)) = Ok q' ∧ fits q' ∧
    (amount a * n ≤ GRAPHENE_MAX_SHARE_SUPPLY → amount b * d ≤ GRAPHENE_MAX_SHARE_SUPPLY →
     numerator q' * (amount b * d) = denominator q' * (amount a * n)).
Proof.
  intros Hh Hn Hd. rewrite !rational_pos by lia. rewrite !Ok_bind.
  destruct (scaled_fraction (amount a) (amount b) n d) as (Hw & Ln & Ld & Heq); [done..|].
  destruct (shrink_scaled half _ Hh Hw) as (q' & Hq & Hfit & Hsame). exists q'. split; [exact Hq|]. split; [done|].
  intros Mn Md. destruct Hw as [[Wn _] [Wd _]]. rewrite Hsame by (unfold within; lia). exact Heq.
Qed.

Lemma call_price_sound : sound b a (amount b * 1000) (amount a * ratio) (call_price a b ratio).
Proof.
  destruct (fraction_price half_up ratio 1000 half_up_halves) as (q & Hrun & Hfit & Heq); [lia..|].
  unfold call_price, GRAPHENE_COLLATERAL_RATIO_DENOM.
  apply bind_Ok in Hrun as (q1 & -> & Hrun). apply bind_Ok in Hrun as (q2 & -> & Hrun). rewrite !Ok_bind, Hrun, Ok_bind.
  rewrite price_of_fits, Ok_bind by done. eexists. split; [reflexivity|]. cbn [base quote price_inv asset_id amount].
  destruct Hfit as [[Pn Mn] [Pd Md]]. unfold GRAPHENE_MAX_SHARE_SUPPLY in *. split; [unfold price_ok; cbn; split_and!; try done; int_lia|].
  split_and!; try done. intros F1 F2. specialize (Heq F2 F1). lia.
Qed.

Lemma user_price_sound f : settlement_price f = mk_price a b →
  sound a b (amount a * 1000) (amount b * ratio) (user_collateral_price f ratio).
Proof.
  intros Hf. destruct (fraction_price half_round 1000 ratio half_round_halves) as (q & Hrun & Hfit & Heq); [lia..|].
  unfold user_collateral_price, GRAPHENE_COLLATERAL_RATIO_DENOM. rewrite Hf. cbn [base quote].
  apply bind_Ok in Hrun as (q1 & -> & Hrun). apply bind_Ok in Hrun as (q2 & -> & Hrun). rewrite !Ok_bind, Hrun, Ok_bind.
  rewrite price_of_fits by done. eexists. split; [reflexivity|].
  pose proof (fits_price_ok q _ _ Hfit Hab). destruct Hfit as [[Pn Mn] [Pd Md]]. cbn [base quote asset_id amount]. by split_and!.
Qed.
End Sound.

(** The price at which a position is called, and the prices of a feed at a collateral
    ratio, are found for every position and feed of positive amounts: the loops that make
    the fraction fit end, the price is valid and its amounts within the supply, and it is
    exact when nothing had to be rounded. *)
Theorem collateral_prices_sound (a b : asset) (ratio : Z) f :
  0 < amount a → int64 (amount a) → 0 < amount b → int64 (amount b) → asset_id a ≠ asset_id b → 0 < ratio < 2 ^ 16 →
  settlement_price f = mk_price a b →
  sound b a (amount b * 1000) (amount a * ratio) (call_price a b ratio) ∧
  sound a b (amount a * 1000) (amount b * ratio) (user_collateral_price f ratio).
Proof. intros. split; [by apply call_price_sound|by apply user_price_sound]. Qed.
End Fractions.

(** ** A price times a ratio *)

Section Ratio.
Context {U : Type} `{MultiprecisionLaws U} {Q : Type} `{RationalLaws Q}.

Abbreviation fits := (within GRAPHENE_MAX_SHARE_SUPPLY).

Lemma max_supply_range : 0 < GRAPHENE_MAX_SHARE_SUPPLY < 2 ^ 127.
Proof. unfold GRAPHENE_MAX_SHARE_SUPPLY. lia. Qed.

Lemma shrink_ratio_fits k fuel q b : (k < 77)%nat → (k ≤ fuel)%nat → within (2 ^ (Z.of_nat k + 49) + 2) q →
  ∃ q' b', shrink_ratio fuel q b = Ok (q', b') ∧ fits q'.
Proof.
  pose proof max_supply_range as Hmax. destruct (make_unit GRAPHENE_MAX_SHARE_SUPPLY) as [U1 U2]; [lia..|].
  revert k q b. induction fuel as [|fuel IH]; intros k q b Hk Hf [Hn Hd].
  - assert (k = 0%nat) as -> by lia. cbn in Hn, Hd. cbn [shrink_ratio].
    assert (too_wide q = false) as -> by (unfold too_wide, GRAPHENE_MAX_SHARE_SUPPLY; lia).
    exists q, b. split; [done|]. unfold within, GRAPHENE_MAX_SHARE_SUPPLY. lia.
  - cbn [shrink_ratio]. destruct (too_wide q) eqn:Hw; [|exists q, b; split; [done|by apply not_too_wide; [lia|lia|]]].
    destruct (Z.eqb_spec (numerator q) 1) as [|N1]; [by eexists _, b|]. destruct (Z.eqb_spec (denominator q) 1) as [|D1]; [by eexists _, b|].
    destruct k as [|k]; [cbn in Hn, Hd; unfold too_wide, GRAPHENE_MAX_SHARE_SUPPLY in Hw; lia|].
    assert (∀ m, m ≠ 1 → 0 < m ≤ 2 ^ (Z.of_nat (S k) + 49) + 2 → 0 < Z.shiftr m 1 ≤ 2 ^ (Z.of_nat k + 49) + 2) as Hhalf.
    { intros m Hm1 Hm. pose proof (half_bound half_up k m half_up_halves Hm) as Hb. unfold half_up in Hb. rewrite shiftr_half in *.
      pose proof (Z.div_le_mono 2 m 2). change (2 / 2) with 1 in *. lia. }
    apply (IH k); [lia|lia|]. apply make_within; [by apply Hhalf..|]. apply pow_bound. lia.
Qed.

Lemma refine_fits ocp cp : 0 < numerator ocp → 0 < denominator ocp → fits cp → fits (refine_ratio ocp cp).
Proof.
  intros Hn Hd Hcp. pose proof max_supply_range as Hmax. unfold refine_ratio.
  assert (∀ x y, 0 < y < x → fits (make_rational (Z.min (x ÷ y) GRAPHENE_MAX_SHARE_SUPPLY) 1) ∧
    fits (make_rational 1 (Z.min (x ÷ y) GRAPHENE_MAX_SHARE_SUPPLY))) as Hquot.
  { intros x y Hxy. rewrite Z.quot_div_nonneg by lia. pose proof (Z.div_str_pos x y). split; apply make_within; lia. }
  destruct (Z.ltb_spec (denominator ocp) (numerator ocp)).
  - destruct (Hquot (numerator ocp) (denominator ocp)) as [? _]; [lia|]. by repeat case_match.
  - destruct (decide (numerator ocp = denominator ocp)) as [He|].
    + rewrite He, Z.quot_same by lia. assert (fits (make_rational 1 (Z.min 1 GRAPHENE_MAX_SHARE_SUPPLY))) by (apply make_within; lia).
      by repeat case_match.
    + destruct (Hquot (denominator ocp) (numerator ocp)) as [_ ?]; [lia|]. by repeat case_match.
Qed.

Lemma price_validate_ok p : price_ok p → price_validate p = Ok ().
Proof.
  intros (B & _ & C & _ & D). unfold price_validate. rewrite (proj2 (Z.ltb_lt _ _) B), (proj2 (Z.ltb_lt _ _) C), (proj2 (Z.eqb_neq _ _) D).
  done.
Qed.

(** A price times a ratio is found for every valid price and ratio: it is a price of the
    same assets, it does not fall when the ratio is above one and does not rise when it is
    below, whatever was rounded to make its terms fit. *)
Theorem price_times_ratio_sound p rn rd :
  price_ok p → 0 < rn < 2 ^ 31 → 0 < rd < 2 ^ 31 →
  ∃ np, price_times_ratio p rn rd = Ok np ∧ price_ok np ∧ asset_id (base np) = asset_id (base p) ∧
    asset_id (quote np) = asset_id (quote p) ∧ (rd ≤ rn → ¬ price_lt np p) ∧ (rn ≤ rd → ¬ price_lt p np).
Proof.
  intros Hp Hn Hd. assert (¬ price_lt p p) as Hirr by (unfold price_lt; lia).
  unfold price_times_ratio. rewrite price_validate_ok, Ok_bind by done.
  rewrite (proj2 (Z.ltb_lt 0 rn)), (proj2 (Z.ltb_lt 0 rd)) by lia. cbn [andb FC_ASSERT]. rewrite Ok_bind.
  destruct (Z.eqb_spec rn rd) as [->|Hne]; [by exists p|].
  destruct Hp as (P1 & I1 & P2 & I2 & Hids) eqn:Hpe. clear Hpe. assert (price_ok p) as Hp' by done.
  destruct (scaled_fraction (amount (base p)) (amount (quote p)) rn rd) as (Hw & _); [done..|lia|lia|]. cbv zeta in Hw.
  generalize dependent (rational_mul (make_rational (amount (base p)) (amount (quote p))) (make_rational rn rd)). intros ocp Hw.
  destruct (shrink_ratio_fits 46 shrink_fuel ocp false) as (cp & shrinked & -> & Hcp);
    [lia|unfold shrink_fuel; lia|change (Z.of_nat 46 + 49) with 95; unfold within in *; lia|]. rewrite Ok_bind.
  set (cp' := if shrinked then refine_ratio ocp cp else cp).
  assert (fits cp') as Hcp' by (destruct Hw as [[] []]; unfold cp'; destruct shrinked; [by apply refine_fits|done]).
  rewrite price_of_fits, Ok_bind by done. pose proof (fits_price_ok cp' _ _ Hcp' Hids) as Hnp. set (np := mk_price _ _) in *.
  destruct ((rd <? rn) && price_ltb np p || (rn <? rd) && price_ltb p np) eqn:Hback.
  - rewrite price_validate_ok, Ok_bind by done. by exists p.
  - rewrite price_validate_ok, Ok_bind by done. exists np. do 4 (split; [done|]).
    apply orb_false_iff in Hback as [B1 B2]. split; intros Hle Hlt; apply price_ltb_iff in Hlt; try done.
    + rewrite Hlt, (proj2 (Z.ltb_lt rd rn)) in B1 by lia. done.
    + rewrite Hlt, (proj2 (Z.ltb_lt rn rd)) in B2 by lia. done.
Qed.

End Ratio.

(** The bound of the validation of a feed is no bound: -1 is the largest 128-bit number. *)
Theorem fcmax_is_no_bound ratio n : uint 16 ratio → 0 ≤ n → int64 n → below_fcmax ratio n = true.
Proof.
  intros [R1 R2] Hn Hn'. unfold int64, int64_max in Hn'. assert (int64 ratio) by int_lia.
  destruct (of_int64_spec ratio) as [Wr Vr]; [lia|done|]. destruct (of_int64_spec n) as [Wn Vn]; [done|int_lia|].
  destruct (mul128_spec _ _ Wr Wn) as [Wm Vm]. unfold below_fcmax.
  assert (wf128 fcmax) by by vm_compute. rewrite lt128_spec, Vm, Vr, Vn by done. change (val fcmax) with (2 ^ 128 - 1).
  rewrite Z.mod_small by (change (2 ^ 128) with (2 ^ 65 * 2 ^ 63); nia). apply Z.ltb_lt. change (2 ^ 128) with (2 ^ 65 * 2 ^ 63). nia.
Qed.

(** * Pairs in lowest terms are such rational numbers *)

Module CollateralExample.
Definition reduced : Type := Z * Z.
Definition reduce (n d : Z) : reduced := (n / Z.gcd n d, d / Z.gcd n d).
(** [|a - c| < |b - c|], over the common denominator. *)
Definition closer (a b c : reduced) : bool :=
  Z.abs (a.1 * c.2 - c.1 * a.2) * b.2 <? Z.abs (b.1 * c.2 - c.1 * b.2) * a.2.

#[export] Instance reduced_rational : Rational reduced := {
  numerator := fst; denominator := snd; make_rational := reduce;
  rational_mul a b := reduce (a.1 * b.1) (a.2 * b.2);
  rational_closer := closer
}.
#[export] Instance reduced_laws : RationalLaws reduced.
Proof. by constructor. Qed.

(** A debt of 1000 in asset 1 against 3 million of asset 0, at 175 percent: the position is
    called at 12000 to 7. *)
Definition debt : asset := mk_asset 1000 1.
Definition collateral : asset := mk_asset 3000000 0.
Definition usd_feed : price_feed := mk_feed (mk_price debt collateral) 1750 1100 (mk_price debt collateral).

Example called_at : call_price (Q := reduced) debt collateral 1750 = Ok (mk_price (mk_asset 12000 0) (mk_asset 7 1)).
Proof. vm_compute. reflexivity. Qed.

Lemma collateral_prices_sound_witness :
  sound debt collateral (1000 * 1000) (3000000 * 1750) (user_collateral_price (Q := reduced) usd_feed 1750).
Proof.
  destruct (collateral_prices_sound debt collateral 1750 usd_feed) as [_ Hs]; try done; cbn; try lia; int_lia.
Defined.

Lemma price_times_ratio_sound_witness :
  ∃ np, price_times_ratio (U := checked128) (Q := reduced) demo_price 7 4 = Ok np ∧ ¬ price_lt np demo_price.
Proof.
  destruct (price_times_ratio_sound (U := checked128) (Q := reduced) demo_price 7 4 demo_price_ok) as (np & Hrun & _ & _ & _ & Hup & _);
    [lia|lia|]. exists np. split; [exact Hrun|apply Hup; lia].
Defined.

Definition chain_a : price := mk_price (mk_asset (10 ^ 9) 0) (mk_asset 1 1).
Definition chain_b : price := mk_price (mk_asset (10 ^ 9) 1) (mk_asset 1 2).

(** The product of two valid prices is no price at all when its quote is small. *)
Theorem price_product_vanishes :
  price_validate chain_a = Ok () ∧ price_validate chain_b = Ok () ∧
  ∃ p, price_times_price (U := checked128) chain_a chain_b = Ok p ∧ amount (quote p) = 0 ∧ price_validate p = Throw assert_exception.
Proof. split; [done|]. split; [done|]. eexists. split; [vm_compute; reflexivity|]. done. Qed.
End CollateralExample.
