(* ===== verification/Feeds.v ===== *)
(** * Price feeds: libraries/chain/asset_object.cpp

    The feeds of a market-issued asset, the median of those that have not expired, and the
    volume that may be settled by force.  [std::nth_element] is an interface: the standard
    leaves the arrangement of the other elements open. *)

From S2P Require Import Prelude Safe Uint128 Asset Fees Authority Collateral.
From Stdlib Require Import ZArith.
From stdpp Require Import gmap sorting.

Local Open Scope Z_scope.

(** ** The interface of [std::nth_element] *)

Class Selection := {
  nth_element {A} : (A → A → bool) → nat → list A → list A
}.

(** The order the elements of [P] are compared by. *)
Record weak_order {A} (P : A → Prop) (lt : A → A → bool) : Prop := mk_weak_order {
  lt_asym x y : P x → P y → lt x y = true → lt y x = false;
  lt_cotrans x y z : P x → P y → P z → lt x z = true → lt x y = true ∨ lt y z = true
}.

Class SelectionLaws `{Selection} := {
  nth_permutes {A} (lt : A → A → bool) k l : nth_element lt k l ≡ₚ l;
  nth_splits {A} (P : A → Prop) (lt : A → A → bool) k l m i x :
    weak_order P lt → Forall P l → nth_element lt k l !! k = Some m → nth_element lt k l !! i = Some x →
    if (i <=? k)%nat then lt m x = false else lt x m = false
}.

(** ** asset_object.hpp *)

Record bitasset_options := mk_bitasset_options {
  feed_lifetime_sec : Z;
  minimum_feeds : Z;
  force_settlement_delay_sec : Z;
  force_settlement_offset_percent : Z;
  maximum_force_settlement_volume : Z;
  short_backing_asset : Z
}.

#[export] Instance bitasset_options_eq_dec : EqDecision bitasset_options.
Proof. solve_decision. Defined.

(** [bitasset_options::validate]. *)
Definition bitasset_options_validate (o : bitasset_options) : result () :=
  FC_ASSERT (0 <? minimum_feeds o) ;;
  FC_ASSERT (force_settlement_offset_percent o <=? GRAPHENE_100_PERCENT) ;;
  FC_ASSERT (maximum_force_settlement_volume o <=? GRAPHENE_100_PERCENT).

Definition GRAPHENE_DEFAULT_MAINTENANCE_COLLATERAL_RATIO : Z := 1750.
Definition GRAPHENE_DEFAULT_MAX_SHORT_SQUEEZE_RATIO : Z := 1500.

(** [price_feed()]. *)
Definition null_feed : price_feed :=
  mk_feed null_price GRAPHENE_DEFAULT_MAINTENANCE_COLLATERAL_RATIO GRAPHENE_DEFAULT_MAX_SHORT_SQUEEZE_RATIO null_price.

Record asset_bitasset_data_object := mk_bitasset {
  bitasset_asset : Z;
  options : bitasset_options;
  feeds : gmap Z (Z * price_feed);
  current_feed : price_feed;
  current_feed_publication_time : Z;
  current_maintenance_collateralization : price;
  is_prediction_market : bool;
  force_settled_volume : Z;
  swan_price : price;
  settlement_fund : Z;
  asset_cer_updated : bool;
  feed_cer_updated : bool
}.

Definition set_current (f : price_feed) (t : Z) (cmc : price) (cer : bool) (b : asset_bitasset_data_object) :=
  mk_bitasset (bitasset_asset b) (options b) (feeds b) f t cmc (is_prediction_market b) (force_settled_volume b)
    (swan_price b) (settlement_fund b) (asset_cer_updated b) cer.
Definition set_feeds (fs : gmap Z (Z * price_feed)) (b : asset_bitasset_data_object) :=
  mk_bitasset (bitasset_asset b) (options b) fs (current_feed b) (current_feed_publication_time b)
    (current_maintenance_collateralization b) (is_prediction_market b) (force_settled_volume b)
    (swan_price b) (settlement_fund b) (asset_cer_updated b) (feed_cer_updated b).
Definition set_options (o : bitasset_options) (b : asset_bitasset_data_object) :=
  mk_bitasset (bitasset_asset b) o (feeds b) (current_feed b) (current_feed_publication_time b)
    (current_maintenance_collateralization b) (is_prediction_market b) (force_settled_volume b)
    (swan_price b) (settlement_fund b) (asset_cer_updated b) (feed_cer_updated b).
Definition set_cer_updated (asset_cer feed_cer : bool) (b : asset_bitasset_data_object) :=
  mk_bitasset (bitasset_asset b) (options b) (feeds b) (current_feed b) (current_feed_publication_time b)
    (current_maintenance_collateralization b) (is_prediction_market b) (force_settled_volume b)
    (swan_price b) (settlement_fund b) asset_cer feed_cer.

(** The fields of [asset_exchange_feed_object] that its own median uses. *)
Record asset_exchange_feed_object := mk_exchange_feed {
  ex_options : bitasset_options;
  ex_feeds : gmap Z (Z * price_feed);
  ex_current_feed : price_feed;
  ex_current_feed_publication_time : Z
}.

(** A [flat_map] is iterated in the order of its keys. *)
Definition in_order (fs : gmap Z (Z * price_feed)) : list (Z * price_feed) := omap (λ i, fs !! i) (ordered (dom fs)).

Section Feeds.
Context {U : Type} `{Multiprecision U} {Q : Type} `{Rational Q} `{Selection}.

Definition has_settlement (b : asset_bitasset_data_object) : bool := negb (is_null (swan_price b)).
Definition need_to_update_cer (b : asset_bitasset_data_object) : bool :=
  (feed_cer_updated b || asset_cer_updated b) && negb (is_null (core_exchange_rate (current_feed b))).
Definition feed_expiration_time (b : asset_bitasset_data_object) : Z :=
  to_uint 32 (current_feed_publication_time b + feed_lifetime_sec (options b)).
Definition feed_is_expired (now : Z) (b : asset_bitasset_data_object) : bool := feed_expiration_time b <=? now.

(** ** update_median_feeds *)

(** The test of the loop: seconds are counted exactly in microseconds of 64 bits. *)
Definition unexpired (now lifetime : Z) (f : Z * price_feed) : bool := (now - f.1 <? lifetime) && negb (f.1 =? 0).

Definition current_feeds (now : Z) (o : bitasset_options) (fs : gmap Z (Z * price_feed)) : list (Z * price_feed) :=
  List.filter (unexpired now (feed_lifetime_sec o)) (in_order fs).
Definition oldest (now : Z) (fs : list (Z * price_feed)) : Z := foldl (λ t f, Z.min t f.1) now fs.

(** [CALCULATE_MEDIAN_VALUE]: what is selected, and the references as they are left; the
    iterator of an empty vector must not be followed. *)
Definition calculate_median_value {A} (lt : A → A → bool) (field : price_feed → A) (l : list price_feed)
    : result (A * list price_feed) :=
  let median_itr := (length l / 2)%nat in
  let l := nth_element (λ a b, lt (field a) (field b)) median_itr l in
  match l !! median_itr with Some m => Ok (field m, l) | None => Throw undefined_behaviour end.

(** The four fields, one after the other. *)
Definition median_feed (l : list price_feed) : result price_feed :=
  '(sp, l) ← calculate_median_value price_ltb settlement_price l;
  '(mcr, l) ← calculate_median_value Z.ltb maintenance_collateral_ratio l;
  '(mssr, l) ← calculate_median_value Z.ltb maximum_short_squeeze_ratio l;
  '(cer, _) ← calculate_median_value price_ltb core_exchange_rate l;
  mret (mk_feed sp mcr mssr cer).

(** [set_pric]; its loops have fuel enough for every amount. *)
Definition normal_feed (f : price_feed) : result price_feed :=
  match set_pric f with Some r => r | None => Throw out_of_fuel end.

(** [asset_bitasset_data_object::update_median_feeds]. *)
Definition update_median_feeds (current_time : Z) (b : asset_bitasset_data_object) : result asset_bitasset_data_object :=
  let current_feeds := current_feeds current_time (options b) (feeds b) in
  if Z.of_nat (length current_feeds) <? minimum_feeds (options b) then
    Ok (set_current null_feed current_time null_price false b)
  else match current_feeds with
  | [(t, f)] =>
      let cer := feed_cer_updated b || negb (price_eqb (core_exchange_rate (current_feed b)) (core_exchange_rate f)) in
      cmc ← maintenance_collateralization f;
      mret (set_current f (oldest current_time current_feeds) cmc cer b)
  | _ =>
      m ← median_feed (snd <$> current_feeds);
      let cer := feed_cer_updated b || negb (price_eqb (core_exchange_rate (current_feed b)) (core_exchange_rate m)) in
      f ← normal_feed m;
      cmc ← maintenance_collateralization f;
      mret (set_current f (oldest current_time current_feeds) cmc cer b)
  end.

(** [asset_exchange_feed_object::update_median_feeds]. *)
Definition update_exchange_feeds (current_time : Z) (x : asset_exchange_feed_object) : result asset_exchange_feed_object :=
  let current_feeds := current_feeds current_time (ex_options x) (ex_feeds x) in
  let set f t := mk_exchange_feed (ex_options x) (ex_feeds x) f t in
  if Z.of_nat (length current_feeds) <? minimum_feeds (ex_options x) then Ok (set null_feed current_time)
  else match current_feeds with
  | [(_, f)] => Ok (set f (oldest current_time current_feeds))
  | _ => m ← median_feed (snd <$> current_feeds); f ← normal_feed m; mret (set f (oldest current_time current_feeds))
  end.
End Feeds.

(** ** max_force_settlement_volume *)

Definition max_force_settlement_volume `{Division128} (percent force_settled_volume current_supply : Z) : result Z :=
  if percent =? 0 then Ok 0
  else if percent =? GRAPHENE_100_PERCENT then safe_add current_supply force_settled_volume
  else
    let volume := of_int64 (to_sint 64 (current_supply + force_settled_volume)) in
    v ← to_uint64 (div128 (mul128 volume (of_uint64 percent)) (of_uint64 GRAPHENE_100_PERCENT));
    mret (to_sint 64 v).

(** * Selection: the middle of a list is where its majority is *)

Lemma filter_disjoint {A} (p q : A → bool) l :
  (∀ x, x ∈ l → p x = true → q x = false) → (length (List.filter p l) + length (List.filter q l) ≤ length l)%nat.
Proof.
  induction l as [|x l IH]; intros Hd; cbn; [lia|].
  specialize (IH (λ y Hy, Hd y (proj2 (elem_of_cons l y x) (or_intror Hy)))).
  pose proof (Hd x ltac:(left)). destruct (p x), (q x); cbn; lia.
Qed.

Lemma filter_implies {A} (p q : A → bool) l :
  (∀ x, p x = true → q x = true) → (length (List.filter p l) ≤ length (List.filter q l))%nat.
Proof.
  intros Hpq. induction l as [|x l IH]; cbn; [done|]. pose proof (Hpq x) as Hx. destruct (p x); [by rewrite Hx by done; cbn; lia|].
  destruct (q x); cbn; lia.
Qed.

Lemma filter_segment {A} (p : A → bool) l1 l2 l3 :
  Forall (λ x, p x = true) l2 → (length l2 ≤ length (List.filter p (l1 ++ l2 ++ l3)))%nat.
Proof.
  intros Hall. rewrite !List.filter_app, !length_app.
  enough (length (List.filter p l2) = length l2) by lia.
  induction Hall as [|x l Hx _ IH]; cbn; [done|]. rewrite Hx. cbn. by rewrite IH.
Qed.

Lemma filter_permutes {A} (p : A → bool) l l' : l ≡ₚ l' → length (List.filter p l) = length (List.filter p l').
Proof. induction 1; cbn; repeat case_match; cbn; lia. Qed.

Section Median.
Context `{SelectionLaws} {A : Type} (P : A → Prop) (lt : A → A → bool) (Hlt : weak_order P lt).

Lemma nth_member k l m : nth_element lt k l !! k = Some m → m ∈ l.
Proof. intros Hm. rewrite <- (nth_permutes lt k l). by eapply list_elem_of_lookup_2. Qed.

(** What is selected is neither below nor above the bounds that more than half keep. *)
Lemma median_between l m lo hi :
  Forall P l → P lo → P hi → nth_element lt (length l / 2) l !! (length l / 2)%nat = Some m →
  (length l < 2 * length (List.filter (λ x, negb (lt x lo) && negb (lt hi x)) l))%nat →
  lt m lo = false ∧ lt hi m = false.
Proof.
  intros Hl Plo Phi Hm Hgood. set (k := (length l / 2)%nat) in *. set (s := nth_element lt k l) in *.
  assert (s ≡ₚ l) as Hs by apply nth_permutes. assert (length s = length l) as Hlen by (by rewrite Hs).
  pose proof (lookup_lt_Some _ _ _ Hm) as Hk. assert (P m) as Pm by (rewrite Forall_forall in Hl; by apply Hl, (nth_member k)).
  assert (∀ x, x ∈ s → P x) as Ps by (intros x Hx; rewrite Hs in Hx; rewrite Forall_forall in Hl; auto).
  assert (2 * k ≤ length l ∧ length l ≤ 2 * k + 1)%nat as [K1 K2]
    by (unfold k; pose proof (Nat.div_mod_eq (length l) 2); pose proof (Nat.mod_upper_bound (length l) 2); lia).
  split; apply not_true_is_false; intros Hbad.
  - assert (Forall (λ x, lt x lo = true) (take (S k) s)) as Hall.
    { apply Forall_forall. intros x Hx. apply list_elem_of_lookup in Hx as [i Hi]. apply lookup_take_Some in Hi as [Hi Hik].
      pose proof (nth_splits P lt k l m i x Hlt Hl Hm Hi) as Hsp. rewrite (proj2 (Nat.leb_le i k)) in Hsp by lia.
      destruct (lt_cotrans _ _ Hlt m x lo Pm (Ps x (list_elem_of_lookup_2 _ _ _ Hi)) Plo Hbad); congruence. }
    pose proof (filter_segment _ [] _ (drop (S k) s) Hall) as Hseg. cbn [app] in Hseg. rewrite take_drop, (filter_permutes _ s l Hs) in Hseg.
    rewrite length_take in Hseg.
    pose proof (filter_disjoint (λ x, negb (lt x lo) && negb (lt hi x)) (λ x, lt x lo) l) as Hd. rewrite Nat.min_l in Hseg by lia.
    enough (length (List.filter (λ x, negb (lt x lo) && negb (lt hi x)) l) + length (List.filter (λ x, lt x lo) l) ≤ length l)%nat by lia.
    apply Hd. intros x _. by destruct (lt x lo).
  - assert (Forall (λ x, lt hi x = true) (drop k s)) as Hall.
    { apply Forall_forall. intros x Hx. apply list_elem_of_lookup in Hx as [i Hi]. rewrite lookup_drop in Hi.
      pose proof (Ps x (list_elem_of_lookup_2 _ _ _ Hi)) as Px. destruct i as [|i]; [rewrite Nat.add_0_r in Hi; congruence|].
      pose proof (nth_splits P lt k l m _ x Hlt Hl Hm Hi) as Hsp. rewrite (proj2 (Nat.leb_gt (k + S i) k)) in Hsp by lia.
      destruct (lt_cotrans _ _ Hlt hi x m Phi Px Pm Hbad); congruence. }
    pose proof (filter_segment _ (take k s) _ [] Hall) as Hseg. rewrite app_nil_r, take_drop, (filter_permutes _ s l Hs) in Hseg.
    rewrite length_drop in Hseg.
    enough (length (List.filter (λ x, negb (lt x lo) && negb (lt hi x)) l) + length (List.filter (lt hi) l) ≤ length l)%nat by lia.
    apply filter_disjoint. intros x _. destruct (lt hi x); [by rewrite andb_false_r|done].
Qed.
End Median.

(** * The median of the feeds *)

Section MedianFeed.
Context {U : Type} `{MultiprecisionLaws U} {Q : Type} `{RationalLaws Q} `{SelectionLaws}.
Implicit Types (f lo hi : price_feed) (l : list price_feed).

Definition feed_ok f : Prop :=
  price_ok (settlement_price f) ∧ price_ok (core_exchange_rate f) ∧
  0 < maintenance_collateral_ratio f < 2 ^ 16 ∧ uint 16 (maximum_short_squeeze_ratio f).

(** No field is below that of [lo] or above that of [hi]. *)
Definition in_range lo hi f : bool :=
  let ok {A} (lt : A → A → bool) (field : price_feed → A) := negb (lt (field f) (field lo)) && negb (lt (field hi) (field f)) in
  ok price_ltb settlement_price && ok Z.ltb maintenance_collateral_ratio &&
  ok Z.ltb maximum_short_squeeze_ratio && ok price_ltb core_exchange_rate.

Lemma in_range_fields lo hi f :
  in_range lo hi f = true ↔
  (price_ltb (settlement_price f) (settlement_price lo) = false ∧ price_ltb (settlement_price hi) (settlement_price f) = false) ∧
  ((maintenance_collateral_ratio f <? maintenance_collateral_ratio lo) = false ∧
   (maintenance_collateral_ratio hi <? maintenance_collateral_ratio f) = false) ∧
  ((maximum_short_squeeze_ratio f <? maximum_short_squeeze_ratio lo) = false ∧
   (maximum_short_squeeze_ratio hi <? maximum_short_squeeze_ratio f) = false) ∧
  price_ltb (core_exchange_rate f) (core_exchange_rate lo) = false ∧ price_ltb (core_exchange_rate hi) (core_exchange_rate f) = false.
Proof. unfold in_range. rewrite !andb_true_iff, !negb_true_iff. tauto. Qed.

Lemma price_weak_order (field : price_feed → price) :
  weak_order (λ f, price_ok (field f)) (λ a b, price_ltb (field a) (field b)).
Proof.
  split.
  - intros x y Hx Hy Hxy. apply not_true_is_false. rewrite price_ltb_iff in * by done. unfold price_lt in *. lia.
  - intros x y z Hx Hy Hz. rewrite !price_ltb_iff by done. unfold price_lt. destruct Hx as (X1 & _ & X2 & _), Hy as (Y1 & _ & Y2 & _), Hz as (Z1 & _ & Z2 & _).
    intros [?|[? [?|[? Hc]]]]; [lia|lia|].
    destruct (Z.lt_trichotomy (asset_id (base (field x))) (asset_id (base (field y)))) as [?|[?|?]]; [lia| |lia].
    destruct (Z.lt_trichotomy (asset_id (quote (field x))) (asset_id (quote (field y)))) as [?|[?|?]]; [lia| |lia].
    destruct (Z.lt_ge_cases (amount (base (field x)) * amount (quote (field y))) (amount (base (field y)) * amount (quote (field x)))); [lia|].
    destruct (Z.lt_ge_cases (amount (base (field y)) * amount (quote (field z))) (amount (base (field z)) * amount (quote (field y)))); [lia|].
    exfalso. assert (amount (quote (field y)) * (amount (base (field z)) * amount (quote (field x))) ≤
      amount (quote (field y)) * (amount (base (field x)) * amount (quote (field z)))) by nia. nia.
Qed.

Lemma ratio_weak_order (field : price_feed → Z) : weak_order (λ _, True) (λ a b, field a <? field b).
Proof. split; intros; lia. Qed.

(** Of a list that is not empty one element is selected. *)
Lemma median_value_run {A} (lt : A → A → bool) (field : price_feed → A) l : l ≠ [] →
  ∃ m l', calculate_median_value lt field l = Ok (field m, l') ∧ l' ≡ₚ l ∧ m ∈ l ∧
    nth_element (λ a b, lt (field a) (field b)) (length l / 2) l !! (length l / 2)%nat = Some m.
Proof.
  intros Hne. unfold calculate_median_value.
  pose proof (nth_permutes (λ a b, lt (field a) (field b)) (length l / 2) l) as Hp.
  assert (length l / 2 < length l)%nat as Hk by (apply Nat.div_lt; destruct l; cbn; done || lia).
  destruct (lookup_lt_is_Some_2 (nth_element (λ a b, lt (field a) (field b)) (length l / 2) l) (length l / 2)) as [m Hm];
    [by rewrite Hp|]. rewrite Hm. eexists m, _. split; [reflexivity|]. split; [done|]. split; [by eapply nth_member|done].
Qed.

(** One field: what is selected is of the list, the list is rearranged, and the field stays
    in the range of the majority. *)
Lemma median_value_between {A} (P : price_feed → Prop) (lt : A → A → bool) (field : price_feed → A) l lo hi :
  weak_order P (λ a b, lt (field a) (field b)) → Forall P l → P lo → P hi →
  (length l < 2 * length (List.filter (λ f, negb (lt (field f) (field lo)) && negb (lt (field hi) (field f))) l))%nat →
  ∃ m l', calculate_median_value lt field l = Ok (field m, l') ∧ l' ≡ₚ l ∧ m ∈ l ∧
    lt (field m) (field lo) = false ∧ lt (field hi) (field m) = false.
Proof.
  intros Hlt Hl Plo Phi Hgood. destruct (median_value_run lt field l) as (m & l' & Hrun & Hp & Hin & Hm); [by intros ->; cbn in Hgood; lia|].
  destruct (median_between P _ Hlt l m lo hi Hl Plo Phi Hm Hgood). by exists m, l'.
Qed.

Lemma median_feed_run l : l ≠ [] → Forall feed_ok l → ∃ m, median_feed l = Ok m ∧ feed_ok m.
Proof.
  intros Hne Hl. assert (∀ l', l' ≡ₚ l → l' ≠ []) as Hne' by (intros l' Hp ->; by apply Permutation_nil in Hp; subst).
  unfold median_feed.
  destruct (median_value_run price_ltb settlement_price l Hne) as (m1 & l1 & -> & P1 & M1 & _). rewrite Ok_bind.
  destruct (median_value_run Z.ltb maintenance_collateral_ratio l1 (Hne' _ P1)) as (m2 & l2 & -> & P2 & M2 & _). rewrite Ok_bind, P1 in *.
  destruct (median_value_run Z.ltb maximum_short_squeeze_ratio l2 (Hne' _ P2)) as (m3 & l3 & -> & P3 & M3 & _). rewrite Ok_bind, P2 in *.
  destruct (median_value_run price_ltb core_exchange_rate l3 (Hne' _ P3)) as (m4 & l4 & -> & P4 & M4 & _). rewrite Ok_bind, P3 in *.
  rewrite Forall_forall in Hl. eexists. split; [reflexivity|]. unfold feed_ok. cbn.
  split_and!; try apply (Hl _ M1); try apply (Hl _ M4); try apply (Hl _ M2); apply (Hl _ M3).
Qed.

Lemma median_feed_between l lo hi :
  Forall feed_ok l → feed_ok lo → feed_ok hi → (length l < 2 * length (List.filter (in_range lo hi) l))%nat →
  ∃ m, median_feed l = Ok m ∧ in_range lo hi m = true ∧ feed_ok m.
Proof.
  intros Hl Hlo Hhi Hgood.
  assert (∀ q l', (∀ f, in_range lo hi f = true → q f = true) → l' ≡ₚ l → (length l' < 2 * length (List.filter q l'))%nat) as Hmaj.
  { intros q l' Hq Hp. pose proof (filter_implies _ q l Hq). rewrite (filter_permutes q l' l Hp), Hp. lia. }
  assert (∀ P l', (∀ f, feed_ok f → P f) → l' ≡ₚ l → Forall P l') as Hall.
  { intros P l' HP Hp. rewrite Hp. eapply Forall_impl; [exact Hl|exact HP]. }
  unfold median_feed.
  destruct (median_value_between (λ f, price_ok (settlement_price f)) price_ltb settlement_price l lo hi) as (m1 & l1 & -> & P1 & M1 & R1);
    [apply price_weak_order|apply Hall; [by intros f []|done]|apply Hlo|apply Hhi|apply Hmaj; [|done];
       intros f (Hf & _)%in_range_fields; by rewrite (proj1 Hf), (proj2 Hf)|]. rewrite Ok_bind.
  destruct (median_value_between (λ _, True) Z.ltb maintenance_collateral_ratio l1 lo hi) as (m2 & l2 & -> & P2 & M2 & R2);
    [apply ratio_weak_order|by apply Hall|done|done|apply Hmaj; [|done];
       intros f (_ & Hf & _)%in_range_fields; by rewrite (proj1 Hf), (proj2 Hf)|]. rewrite Ok_bind, P1 in *.
  destruct (median_value_between (λ _, True) Z.ltb maximum_short_squeeze_ratio l2 lo hi) as (m3 & l3 & -> & P3 & M3 & R3);
    [apply ratio_weak_order|by apply Hall|done|done|apply Hmaj; [|done];
       intros f (_ & _ & Hf & _)%in_range_fields; by rewrite (proj1 Hf), (proj2 Hf)|]. rewrite Ok_bind, P2 in *.
  destruct (median_value_between (λ f, price_ok (core_exchange_rate f)) price_ltb core_exchange_rate l3 lo hi) as (m4 & l4 & -> & P4 & M4 & R4);
    [apply price_weak_order|apply Hall; [by intros f (_ & ? & _)|done]|apply Hlo|apply Hhi|apply Hmaj; [|done];
       intros f (_ & _ & _ & Hf)%in_range_fields; by rewrite (proj1 Hf), (proj2 Hf)|]. rewrite Ok_bind, P3 in *.
  rewrite Forall_forall in Hl. eexists. split; [reflexivity|]. split; [rewrite in_range_fields; exact (conj R1 (conj R2 (conj R3 R4)))|].
  unfold feed_ok. cbn. split_and!; try apply (Hl _ M1); try apply (Hl _ M4); try apply (Hl _ M2); apply (Hl _ M3).
Qed.

(** Dividing both terms by a power of ten changes no comparison. *)
Lemma scaled_price p p' k : price_ok p → 0 ≤ k → amount (base p) = amount (base p') * 10 ^ k →
  amount (quote p) = amount (quote p') * 10 ^ k → is_same_asset p p' = true →
  price_ok p' ∧ ∀ o, price_ok o → price_ltb p' o = price_ltb p o ∧ price_ltb o p' = price_ltb o p.
Proof.
  intros Hp Hk Hb Hq Hsame. apply andb_true_iff in Hsame as [I1%Z.eqb_eq I2%Z.eqb_eq].
  destruct Hp as (P1 & J1 & P2 & J2 & Hne) eqn:Heq. clear Heq. assert (price_ok p) as Hp' by done.
  assert (0 < 10 ^ k) as Hpow by (by apply Z.pow_pos_nonneg).
  assert (∀ x y, 0 < x → int64 x → x = y * 10 ^ k → 0 < y ∧ int64 y) as Hterm.
  { intros x y Hx Hx' Hxy. assert (0 < y) by nia. assert (y ≤ x) by nia. split; [done|int_lia]. }
  destruct (Hterm _ _ P1 J1 Hb), (Hterm _ _ P2 J2 Hq). assert (price_ok p') as Hok by (unfold price_ok; split_and!; [done..|congruence]).
  split; [done|]. intros o Ho. split; apply eq_true_iff_eq; rewrite !price_ltb_iff by done; unfold price_lt; rewrite I1, I2, Hb, Hq; nia.
Qed.

Lemma normal_feed_between f lo hi : feed_ok f → feed_ok lo → feed_ok hi → in_range lo hi f = true →
  ∃ f', normal_feed f = Ok f' ∧ in_range lo hi f' = true ∧ feed_ok f'.
Proof.
  intros (Hsp & Hcer & Hm & Hs) (Lsp & Lcer & _) (Rsp & Rcer & _) (R1 & R2 & R3 & R4)%in_range_fields.
  destruct (set_pric_normalizes f) as (f' & Hrun & Em & Es & Hside); [apply Hsp|apply Hsp|apply Hcer|apply Hcer|].
  unfold normal_feed. rewrite Hrun. exists f'. split; [done|].
  destruct (Hside settlement_price ltac:(by left)) as (_ & S1 & k1 & K1 & B1 & Q1).
  destruct (Hside core_exchange_rate ltac:(by right)) as (_ & S2 & k2 & K2 & B2 & Q2).
  destruct (scaled_price _ _ k1 Hsp K1 B1 Q1 S1) as [Ok1 C1]. destruct (scaled_price _ _ k2 Hcer K2 B2 Q2 S2) as [Ok2 C2].
  destruct (C1 _ Lsp), (C1 _ Rsp), (C2 _ Lcer), (C2 _ Rcer). split.
  - rewrite in_range_fields. rewrite Em, Es. split_and!; try apply R2; try apply R3; destruct R1, R4; congruence.
  - unfold feed_ok. rewrite Em, Es. exact (conj Ok1 (conj Ok2 (conj Hm Hs))).
Qed.

Lemma collateralization_ok f : feed_ok f → ∃ p, maintenance_collateralization f = Ok p ∧ price_ok p.
Proof.
  intros (Hsp & _ & Hm & _). unfold maintenance_collateralization. destruct (is_null _) eqn:Hn.
  { exfalso. destruct Hsp as (_ & _ & _ & _ & Hne). unfold is_null, price_eqb in Hn.
    replace (is_same_asset (settlement_price f) null_price) with false in Hn; [done|].
    symmetry. apply andb_false_iff. cbn. unfold GRAPHENE_CORE_ASSET. rewrite !Z.eqb_neq. lia. }
  unfold ratio_terms. set (m := maintenance_collateral_ratio f) in *. set (g := Z.gcd m GRAPHENE_COLLATERAL_RATIO_DENOM).
  assert (0 < g ∧ g ≤ m ∧ g ≤ 1000) as (G1 & G2 & G3).
  { unfold g, GRAPHENE_COLLATERAL_RATIO_DENOM. pose proof (Z.gcd_nonneg m 1000). pose proof (Z.gcd_divide_l m 1000) as Dl.
    pose proof (Z.gcd_divide_r m 1000) as Dr. apply Z.divide_pos_le in Dl, Dr; try lia.
    destruct (Z.eq_dec (Z.gcd m 1000) 0) as [E|]; [|lia]. apply Z.gcd_eq_0_l in E. lia. }
  assert (∀ x, g ≤ x < 2 ^ 16 → 0 < x / g < 2 ^ 31) as Hq.
  { intros x Hx. split; [apply Z.div_str_pos; lia|]. apply Z.div_lt_upper_bound; nia. }
  destruct (price_times_ratio_sound (price_inv (settlement_price f)) (m / g) (GRAPHENE_COLLATERAL_RATIO_DENOM / g)) as (np & -> & Hok & _);
    [|apply Hq; lia|apply Hq; unfold GRAPHENE_COLLATERAL_RATIO_DENOM; lia|by exists np].
  destruct Hsp as (?&?&?&?&?). unfold price_ok, price_inv. cbn. split_and!; done || congruence.
Qed.

Lemma oldest_spec now (fs : list (Z * price_feed)) :
  oldest now fs ≤ now ∧ Forall (λ e, oldest now fs ≤ e.1) fs ∧ (oldest now fs = now ∨ ∃ e, e ∈ fs ∧ e.1 = oldest now fs).
Proof.
  induction fs as [|x l IH] using rev_ind; unfold oldest in *; [cbn; split_and!; [lia|done|by left]|].
  rewrite foldl_app. cbn. destruct IH as (I1 & I2 & I3). split_and!; [lia| |].
  - apply Forall_app. split; [eapply Forall_impl; [exact I2|cbn; lia]|]. constructor; [lia|done].
  - destruct (Z.min_spec (foldl (λ t (e : Z * price_feed), Z.min t e.1) now l) x.1) as [[_ ->]|[_ ->]].
    + destruct I3 as [->|(e & ? & ?)]; [by left|right; exists e; set_solver].
    + right. exists x. set_solver.
Qed.

(** What an update leaves of the data, and when the feed it makes was published. *)
Lemma update_median_frame now b b' : update_median_feeds now b = Ok b' →
  feeds b' = feeds b ∧ options b' = options b ∧ bitasset_asset b' = bitasset_asset b ∧ swan_price b' = swan_price b ∧
  is_prediction_market b' = is_prediction_market b ∧ current_feed_publication_time b' ≤ now ∧
  (current_feed_publication_time b' = now ∨ now < current_feed_publication_time b' + feed_lifetime_sec (options b)).
Proof.
  unfold update_median_feeds. set (valid := current_feeds now (options b) (feeds b)).
  destruct (oldest_spec now valid) as (O1 & _ & O2).
  assert (oldest now valid = now ∨ now < oldest now valid + feed_lifetime_sec (options b)) as O3.
  { destruct O2 as [|(e & He & <-)]; [by left|right]. unfold valid, current_feeds in He. apply list_elem_of_In, filter_In in He as [_ He].
    unfold unexpired in He. lia. }
  case_match; [intros [= <-]; cbn; split_and!; done || lia || by left|].
  destruct valid as [|[t f] [|g valid']] eqn:Hv.
  - intros (m & _ & (f & _ & (cmc & _ & [= <-])%bind_Ok)%bind_Ok)%bind_Ok. by cbn.
  - intros (cmc & _ & [= <-])%bind_Ok. by cbn.
  - intros (m & _ & (f' & _ & (cmc & _ & [= <-])%bind_Ok)%bind_Ok)%bind_Ok. by cbn.
Qed.

(** Right after an update the feed has not expired, if its lifetime counts and fits. *)
Lemma updated_unexpired now b b' : update_median_feeds now b = Ok b' →
  0 ≤ now → 0 < feed_lifetime_sec (options b) → now + feed_lifetime_sec (options b) < 2 ^ 32 → feed_is_expired now b' = false.
Proof.
  intros Hrun Hn Hl Hmax. destruct (update_median_frame now b b' Hrun) as (_ & Ho & _ & _ & _ & Hle & Hpub).
  unfold feed_is_expired, feed_expiration_time. rewrite Ho. apply Z.leb_gt. rewrite to_uint_id by int_lia. lia.
Qed.

Lemma in_range_refl f : feed_ok f → in_range f f f = true.
Proof.
  intros (Hs & Hc & _). rewrite in_range_fields.
  assert (∀ p, price_ok p → price_ltb p p = false) as Hirr.
  { intros p Hp. apply not_true_is_false. rewrite price_ltb_iff by done. unfold price_lt. lia. }
  rewrite !Hirr by done. split_and!; done || apply Z.ltb_irrefl.
Qed.

(** Valid feeds always have a median, and it is valid. *)
Lemma update_median_total now b :
  0 < minimum_feeds (options b) → Forall (λ e, feed_ok e.2) (current_feeds now (options b) (feeds b)) →
  ∃ b', update_median_feeds now b = Ok b' ∧ (current_feed b' = null_feed ∨ feed_ok (current_feed b')).
Proof.
  intros Hmin Hok. unfold update_median_feeds. set (valid := current_feeds now (options b) (feeds b)) in *.
  destruct (Z.ltb_spec (Z.of_nat (length valid)) (minimum_feeds (options b))); [eexists; split; [done|by left]|].
  destruct valid as [|[t f] [|g valid']] eqn:Hv; [cbn in *; lia| |].
  - apply Forall_cons in Hok as [Hf _]. destruct (collateralization_ok f Hf) as (p & -> & _). rewrite Ok_bind. eexists. split; [done|by right].
  - rewrite <- Hv in *. destruct (median_feed_run (snd <$> valid)) as (m & -> & Hm); [by rewrite Hv|by apply Forall_fmap|]. rewrite Ok_bind.
    destruct (normal_feed_between m m m Hm Hm Hm (in_range_refl m Hm)) as (f' & -> & _ & Hf'). rewrite Ok_bind.
    destruct (collateralization_ok f' Hf') as (p & -> & _). rewrite Ok_bind. eexists. split; [done|by right].
Qed.

Lemma median_robust now b lo hi :
  let valid := current_feeds now (options b) (feeds b) in
  minimum_feeds (options b) ≤ Z.of_nat (length valid) → Forall (λ e, feed_ok e.2) valid → feed_ok lo → feed_ok hi →
  (length valid < 2 * length (List.filter (in_range lo hi) (snd <$> valid)))%nat →
  ∃ b', update_median_feeds now b = Ok b' ∧ in_range lo hi (current_feed b') = true ∧ feed_ok (current_feed b') ∧
    price_ok (current_maintenance_collateralization b') ∧ feeds b' = feeds b ∧ options b' = options b ∧
    current_feed_publication_time b' ≤ now ∧ Forall (λ e, current_feed_publication_time b' ≤ e.1) valid.
Proof.
  intros valid Hmin Hok Hlo Hhi Hgood. unfold update_median_feeds. fold valid. rewrite (proj2 (Z.ltb_ge _ _)) by done.
  destruct (oldest_spec now valid) as (O1 & O2 & _).
  assert (∀ f cer, in_range lo hi f = true → feed_ok f → ∃ b',
    (cmc ← maintenance_collateralization f; mret (set_current f (oldest now valid) cmc cer b)) = Ok b' ∧
    in_range lo hi (current_feed b') = true ∧ feed_ok (current_feed b') ∧ price_ok (current_maintenance_collateralization b') ∧
    feeds b' = feeds b ∧ options b' = options b ∧ current_feed_publication_time b' ≤ now ∧
    Forall (λ e, current_feed_publication_time b' ≤ e.1) valid) as Hset.
  { intros f cer Hf Hfok. destruct (collateralization_ok f Hfok) as (p & -> & Hp). rewrite Ok_bind. by eexists. }
  assert (Forall feed_ok (snd <$> valid)) as Hfs by (by apply Forall_fmap).
  destruct (median_feed_between (snd <$> valid) lo hi Hfs Hlo Hhi) as (m & Hm & Hr & Hmok); [by rewrite length_fmap|].
  destruct (normal_feed_between m lo hi Hmok Hlo Hhi Hr) as (f' & Hn & Hr' & Hok').
  destruct valid as [|[t f] [|g valid']] eqn:Hv.
  - cbn in Hgood. lia.
  - apply Hset; [|by inversion Hok]. cbn in Hgood. destruct (in_range lo hi f); [done|cbn in Hgood; lia].
  - rewrite Hm, Ok_bind, Hn, Ok_bind. by apply Hset.
Qed.

(** The feed [f] is what the feeds [fs] that have not expired support: none if they are too
    few, and otherwise one with every field in any range that most of them keep to. *)
Definition rests_on (now : Z) (o : bitasset_options) (fs : gmap Z (Z * price_feed)) (f : price_feed) : Prop :=
  let valid := current_feeds now o fs in
  (Z.of_nat (length valid) < minimum_feeds o → f = null_feed) ∧
  ∀ lo hi, minimum_feeds o ≤ Z.of_nat (length valid) → Forall (λ e, feed_ok e.2) valid → feed_ok lo → feed_ok hi →
    (length valid < 2 * length (List.filter (in_range lo hi) (snd <$> valid)))%nat →
    in_range lo hi f = true ∧ feed_ok f.

Lemma update_median_rests now b b' : update_median_feeds now b = Ok b' →
  rests_on now (options b) (feeds b) (current_feed b').
Proof.
  intros Hrun. split.
  - intros Hfew. unfold update_median_feeds in Hrun. rewrite (proj2 (Z.ltb_lt _ _) Hfew) in Hrun. by injection Hrun as <-.
  - intros lo hi Hmin Hok Hlo Hhi Hmost. destruct (median_robust now b lo hi Hmin Hok Hlo Hhi Hmost) as (b2 & Hb2 & Hr & Hf & _).
    rewrite Hrun in Hb2. by injection Hb2 as ->.
Qed.

(** C39: The current feed of an asset is found and is valid whenever enough valid feeds have
    not expired, and every field of it lies in any range that more than half of these feeds
    keep to, whatever the others publish; its publication time is that of the oldest of them. *)
Theorem median_feed_robust now b lo hi :
  let valid := current_feeds now (options b) (feeds b) in
  minimum_feeds (options b) ≤ Z.of_nat (length valid) → Forall (λ e, feed_ok e.2) valid → feed_ok lo → feed_ok hi →
  (length valid < 2 * length (List.filter (in_range lo hi) (snd <$> valid)))%nat →
  ∃ b', update_median_feeds now b = Ok b' ∧ in_range lo hi (current_feed b') = true ∧ feed_ok (current_feed b') ∧
    price_ok (current_maintenance_collateralization b') ∧ feeds b' = feeds b ∧ options b' = options b ∧
    current_feed_publication_time b' ≤ now ∧ Forall (λ e, current_feed_publication_time b' ≤ e.1) valid.
Proof. apply median_robust. Qed.
End MedianFeed.

(** * The volume of forced settlements *)

Lemma max_force_settlement_volume_spec `{Division128} percent settled supply :
  0 ≤ percent ≤ GRAPHENE_100_PERCENT → 0 ≤ settled → 0 ≤ supply → int64 (supply + settled) →
  max_force_settlement_volume percent settled supply = Ok ((supply + settled) * percent / GRAPHENE_100_PERCENT).
Proof.
  intros Hp Hs Hc Hsum. unfold max_force_settlement_volume. unfold GRAPHENE_100_PERCENT in *.
  destruct (Z.eqb_spec percent 0) as [->|]; [by rewrite Z.mul_0_r|].
  destruct (Z.eqb_spec percent 10000) as [->|].
  - rewrite Z.div_mul by done. rewrite safe_add_spec by int_lia. by rewrite bool_decide_true.
  - rewrite to_sint_64_id by done. apply percentage_128; [lia|done|lia].
Qed.

(** * Sorting is a selection *)

Section Sorting.
Context {A : Type}.

Fixpoint insert_by (lt : A → A → bool) (x : A) (l : list A) : list A :=
  match l with
  | [] => [x]
  | y :: l' => if lt y x then y :: insert_by lt x l' else x :: l
  end.
Definition sort_by (lt : A → A → bool) (l : list A) : list A := foldr (insert_by lt) [] l.

Lemma insert_by_perm lt x l : insert_by lt x l ≡ₚ x :: l.
Proof. induction l as [|y l IH]; cbn; [done|]. case_match; [|done]. rewrite IH. constructor. Qed.
Lemma sort_by_perm lt l : sort_by lt l ≡ₚ l.
Proof. induction l as [|x l IH]; cbn; [done|]. by rewrite insert_by_perm, IH. Qed.

Context (P : A → Prop) (lt : A → A → bool) (Hlt : weak_order P lt).
Abbreviation sorted := (StronglySorted (λ a b, lt b a = false)).

Lemma insert_by_sorted x l : P x → Forall P l → sorted l → sorted (insert_by lt x l).
Proof.
  intros Px Pl Hs. induction Hs as [|y l Hs IH Hy]; cbn; [repeat constructor|].
  apply Forall_cons in Pl as [Py Pl]. destruct (lt y x) eqn:Hyx.
  - constructor; [by apply IH|]. rewrite insert_by_perm. constructor; [by apply (lt_asym _ _ Hlt)|done].
  - constructor; [by constructor|]. constructor; [done|]. rewrite Forall_forall in *. intros z Hz. apply not_true_is_false. intros Hzx.
    destruct (lt_cotrans _ _ Hlt z y x (Pl z Hz) Py Px Hzx) as [H|H]; [by rewrite (Hy z Hz) in H|congruence].
Qed.

Lemma sort_by_sorted l : Forall P l → sorted (sort_by lt l).
Proof. induction 1 as [|x l]; cbn; [constructor|]. fold (sort_by lt l). apply insert_by_sorted; [done| |done]. by rewrite sort_by_perm. Qed.

Lemma sorted_lookup l i j x y : sorted l → (i < j)%nat → l !! i = Some x → l !! j = Some y → lt y x = false.
Proof.
  intros Hs. revert i j. induction Hs as [|z l _ IH Hz]; intros [|i] [|j] Hij Hx Hy; try done; try lia.
  - injection Hx as ->. rewrite Forall_forall in Hz. by apply Hz, (list_elem_of_lookup_2 _ j).
  - apply (IH i j); [lia|done|done].
Qed.

Lemma sort_by_splits k l m i x : Forall P l → sort_by lt l !! k = Some m → sort_by lt l !! i = Some x →
  if (i <=? k)%nat then lt m x = false else lt x m = false.
Proof.
  intros Hl Hm Hx. pose proof (sort_by_sorted l Hl) as Hs. destruct (Nat.leb_spec i k) as [Hle|Hgt]; [|by eapply sorted_lookup].
  destruct (decide (i = k)) as [->|]; [|eapply sorted_lookup; [done| |done|done]; lia].
  rewrite Hm in Hx. injection Hx as <-. apply not_true_is_false. intros Hc.
  assert (P m) as Pm by (rewrite <- (sort_by_perm lt l), Forall_forall in Hl; by apply Hl, (list_elem_of_lookup_2 _ k)).
  pose proof (lt_asym _ _ Hlt m m Pm Pm Hc). congruence.
Qed.
End Sorting.

#[export] Instance sorting_selection : Selection := {| nth_element A lt k l := sort_by lt l |}.
#[export] Instance sorting_selection_laws : SelectionLaws.
Proof.
  split; [intros; apply sort_by_perm|]. intros A P lt k l m i x Hlt. by apply (sort_by_splits P).
Qed.

(** * Examples *)

Module FeedsExample.
Import CollateralExample.

Definition usd (p : Z) : price := mk_price (mk_asset p 1) (mk_asset 100 0).
Definition feed (p : Z) : price_feed := mk_feed (usd p) 1750 1100 (usd p).
Definition three_feeds : gmap Z (Z * price_feed) :=
  <[5 := (900, feed 20)]> (<[6 := (950, feed 21)]> (<[7 := (990, feed 100000)]> (<[8 := (0, null_feed)]> ∅))).
Definition usd_data : asset_bitasset_data_object :=
  mk_bitasset 1 (mk_bitasset_options 200 2 86400 0 2000 0) three_feeds null_feed 0 null_price false 0 null_price 0 false false.

Lemma usd_ok p : bool_decide (0 < p < 1000000) → feed_ok (feed p).
Proof. intros Hp%bool_decide_unpack. unfold feed_ok, price_ok. cbn. split_and!; int_lia || lia. Qed.

Lemma median_feed_robust_witness :
  ∃ b', update_median_feeds (U := checked128) (Q := reduced) 1000 usd_data = Ok b' ∧
    in_range (U := checked128) (feed 20) (feed 22) (current_feed b') = true ∧ current_feed_publication_time b' ≤ 1000.
Proof.
  destruct (median_feed_robust (U := checked128) (Q := reduced) 1000 usd_data (feed 20) (feed 22)) as (b' & H1 & H2 & _ & _ & _ & _ & H3 & _).
  - vm_compute. discriminate.
  - assert (current_feeds 1000 (options usd_data) (feeds usd_data) = [(900, feed 20); (950, feed 21); (990, feed 100000)]) as ->
      by (vm_compute; reflexivity).
    repeat constructor; by apply usd_ok.
  - by apply usd_ok.
  - by apply usd_ok.
  - apply (bool_decide_unpack _). vm_compute. exact I.
  - exists b'. exact (conj H1 (conj H2 H3)).
Defined.

(** The price of the majority is taken: 21, not the 100000 of account 7; when two of the
    feeds have expired there is no feed. *)
Example current_price :
  settlement_price ∘ current_feed <$> update_median_feeds (U := checked128) (Q := reduced) 1000 usd_data = Ok (usd 21) ∧
  current_feed <$> update_median_feeds (U := checked128) (Q := reduced) 1160 usd_data = Ok null_feed.
Proof. split; vm_compute; reflexivity. Qed.
End FeedsExample.
