(* ===== verification/AssetRegistry.v ===== *)
(** * The registry of assets: asset_evaluator.cpp, protocol/asset_ops.cpp, db_update.cpp

    The options of an asset and their validation, symbols, the evaluators that create and
    update assets, publish prices and choose who publishes them, and the updates of the
    prices at every block.  The calls of the market engine are an interface. *)

From S2P Require Import Prelude Safe Uint128 Asset Fees Authority Names Collateral Feeds Transfers.
From Stdlib Require Import ZArith Ascii.
From stdpp Require Import gmap strings.

Local Open Scope Z_scope.

(** ** types.hpp, asset_object.hpp, config.hpp *)

Definition disable_force_settle : Z := 16.
Definition global_settle : Z := 32.
Definition witness_fed_asset : Z := 128.
Definition committee_fed_asset : Z := 256.
Definition ASSET_ISSUER_PERMISSION_MASK : Z := 511.
Definition ASSET_LENDER : Z := 2.
Definition ASSET_LOAN : Z := 8.
Definition ASSET_BIT : Z := 64.
Definition ASSET_PROPERTY_MASK : Z := 971.
Definition GRAPHENE_MIN_ASSET_SYMBOL_LENGTH : nat := 3.
Definition GRAPHENE_MAX_ASSET_SYMBOL_LENGTH : nat := 16.
Definition GRAPHENE_MAX_MEMO_LENGTH : nat := 80.
Definition GRAPHENE_NULL_ACCOUNT : Z := 3.

(** ** protocol/asset_ops.cpp *)

Record asset_options := mk_asset_options {
  max_supply : Z;
  market_fee_percent : Z;
  max_market_fee : Z;
  issuer_permissions : Z;
  flags : Z;
  options_exchange_rate : price;
  whitelist_authorities : gset Z;
  blacklist_authorities : gset Z;
  whitelist_markets : gset Z;
  blacklist_markets : gset Z;
  description : string
}.

(** [a & b] and [a & ~b] as conditions. *)
Definition any (a b : Z) : bool := negb (Z.land a b =? 0).
Definition beyond (a b : Z) : bool := negb (Z.ldiff a b =? 0).

Definition is_upper (c : ascii) : bool := Names.in_range "A" "Z" c.
Definition is_alpha (c : ascii) : bool := is_upper c || letter c.
Definition is_digit (c : ascii) : bool := Names.in_range "0" "9" c.

(** The loop of [is_valid_symbol]. *)
Fixpoint symbol_chars (l : list ascii) (dot_already_present : bool) : bool :=
  match l with
  | [] => true
  | c :: l =>
      if is_alpha c && is_upper c || is_digit c then symbol_chars l dot_already_present
      else if Ascii.eqb c "." then negb dot_already_present && symbol_chars l true
      else false
  end.

Definition is_valid_symbol (symbol : string) : bool :=
  let s := String.list_ascii_of_string symbol in
  if (length s <? GRAPHENE_MIN_ASSET_SYMBOL_LENGTH)%nat then false
  else if bool_decide (take 3 s = ["B"; "I"; "T"]%char) then false
  else if (GRAPHENE_MAX_ASSET_SYMBOL_LENGTH <? length s)%nat then false
  else if negb (default false (is_alpha <$> head s)) then false
  else if negb (default false (is_alpha <$> last s)) then false
  else symbol_chars s false.

Section Options.
Context {U : Type} `{Multiprecision U}.

(** [asset_options::validate]. *)
Definition asset_options_validate (o : asset_options) : result () :=
  let rate := options_exchange_rate o in
  FC_ASSERT (0 <? max_supply o) ;;
  FC_ASSERT (max_supply o <=? GRAPHENE_MAX_BITCORE_SUPPLY) ;;
  FC_ASSERT (market_fee_percent o <=? GRAPHENE_100_PERCENT) ;;
  FC_ASSERT ((0 <=? max_market_fee o) && (max_market_fee o <=? max_supply o)) ;;
  FC_ASSERT (negb (beyond (issuer_permissions o) ASSET_ISSUER_PERMISSION_MASK)) ;;
  FC_ASSERT (negb (any (flags o) global_settle)) ;;
  FC_ASSERT (negb (Z.land (flags o) (Z.lor witness_fed_asset committee_fed_asset) =? Z.lor witness_fed_asset committee_fed_asset)) ;;
  price_validate rate ;;
  FC_ASSERT ((asset_id (base rate) =? 0) || (asset_id (quote rate) =? 0)) ;;
  (if bool_decide (whitelist_authorities o = ∅) && bool_decide (blacklist_authorities o = ∅) then Ok ()
   else FC_ASSERT (any (flags o) white_list)) ;;
  FC_ASSERT (bool_decide (whitelist_markets o ## blacklist_markets o)) ;;
  FC_ASSERT (is_safe_js_string (description o)) ;;
  FC_ASSERT (String.length (description o) <? GRAPHENE_MAX_MEMO_LENGTH)%nat.
End Options.

Record asset_create_operation := mk_create {
  create_fee : asset;
  create_issuer : Z;
  create_symbol : string;
  create_precision : Z;
  create_options : asset_options;
  create_bitasset_opts : option bitasset_options;
  create_prediction_market : bool
}.

Record asset_update_operation := mk_update {
  update_fee : asset;
  update_issuer : Z;
  asset_to_update : Z;
  new_issuer : option Z;
  new_options : asset_options
}.

Record asset_property_operation := mk_property {
  property_fee : asset;
  property_asset : Z;
  property_value : Z;
  property_mask : Z
}.

Record asset_update_bitasset_operation := mk_update_bitasset {
  bitasset_fee : asset;
  bitasset_issuer : Z;
  bitasset_to_update : Z;
  new_bitasset_options : bitasset_options
}.

Record asset_update_gateway_operation := mk_update_gateway {
  gateway_fee : asset;
  gateway_issuer : Z;
  gateway_asset : Z;
  new_gateways : list Z
}.

Record asset_update_feed_producers_operation := mk_producers {
  producers_fee : asset;
  producers_issuer : Z;
  producers_asset : Z;
  new_feed_producers : gset Z
}.

Record asset_publish_feed_operation := mk_publish {
  publish_fee : asset;
  publisher : Z;
  publish_asset : Z;
  published_feed : price_feed
}.

Section Validate.
Context {U : Type} `{Multiprecision U} {Q : Type} `{Rational Q}.

Definition fee_ok (fee : asset) : result () := FC_ASSERT (0 <=? amount fee).

Definition asset_create_validate (o : asset_create_operation) : result () :=
  let p := issuer_permissions (create_options o) in
  let bit := bool_decide (is_Some (create_bitasset_opts o)) in
  fee_ok (create_fee o) ;;
  FC_ASSERT (is_valid_symbol (create_symbol o)) ;;
  FC_ASSERT (is_safe_string (create_symbol o)) ;;
  asset_options_validate (create_options o) ;;
  (if any p (Z.lor disable_force_settle global_settle) then FC_ASSERT bit else Ok ()) ;;
  (if create_prediction_market o then FC_ASSERT bit ;; FC_ASSERT (any p global_settle) else Ok ()) ;;
  match create_bitasset_opts o with Some b => bitasset_options_validate b | None => Ok () end ;;
  FC_ASSERT (create_precision o <=? 12).

Definition asset_update_validate (o : asset_update_operation) : result () :=
  fee_ok (update_fee o) ;;
  match new_issuer o with Some i => FC_ASSERT (negb (update_issuer o =? i)) | None => Ok () end ;;
  asset_options_validate (new_options o) ;;
  dummy ← asset_times_price (mk_asset 1 (asset_to_update o)) (options_exchange_rate (new_options o));
  FC_ASSERT (asset_id dummy =? GRAPHENE_CORE_ASSET).

Definition asset_property_validate (o : asset_property_operation) : result () :=
  let v := property_value o in
  fee_ok (property_fee o) ;;
  FC_ASSERT (0 <? property_mask o) ;;
  FC_ASSERT (negb (beyond v (property_mask o))) ;;
  FC_ASSERT (negb (beyond (property_mask o) ASSET_PROPERTY_MASK)) ;;
  FC_ASSERT (negb (any v ASSET_CASH && any v ASSET_BIT)) ;;
  FC_ASSERT (negb (any v ASSET_LENDER && any v ASSET_LOAN)).

Definition asset_update_bitasset_validate (o : asset_update_bitasset_operation) : result () :=
  fee_ok (bitasset_fee o) ;; bitasset_options_validate (new_bitasset_options o).

(** [asset_publish_feed_operation::validate]. *)
Definition asset_publish_feed_validate (o : asset_publish_feed_operation) : result () :=
  let f := published_feed o in
  let sp := settlement_price f in
  let cer := core_exchange_rate f in
  fee_ok (publish_fee o) ;;
  price_feed_validate f ;;
  (if is_null cer then Ok () else price_validate cer) ;;
  (if negb (is_null sp) && negb (is_null cer)
   then FC_ASSERT (is_for sp (asset_id (base cer)) || is_for sp (asset_id (quote cer))) else Ok ()) ;;
  FC_ASSERT (negb (is_zero sp)) ;;
  FC_ASSERT (negb (is_null sp)) ;;
  FC_ASSERT (negb (is_zero cer)) ;;
  FC_ASSERT (negb (is_null cer)) ;;
  FC_ASSERT (feed_is_for f (publish_asset o)) ;;
  FC_ASSERT (is_core cer).
End Validate.

(** ** asset_object.hpp and the part of the database the evaluators use *)

Record asset_object := mk_asset_object {
  symbol : string;
  precision : Z;
  issuer : Z;
  common_options : asset_options;
  dynamic_asset_data_id : Z;
  bitasset_data_id : option Z;
  uasset_property : Z;
  whitelist_gateways : gset Z;
  real_asset : string;
  real_asset_sub : string
}.

Definition set_common_options (o : asset_options) (a : asset_object) : asset_object :=
  mk_asset_object (symbol a) (precision a) (issuer a) o (dynamic_asset_data_id a) (bitasset_data_id a) (uasset_property a)
    (whitelist_gateways a) (real_asset a) (real_asset_sub a).
Definition set_exchange_rate (p : price) (a : asset_object) : asset_object :=
  let o := common_options a in
  set_common_options (mk_asset_options (max_supply o) (market_fee_percent o) (max_market_fee o) (issuer_permissions o) (flags o) p
    (whitelist_authorities o) (blacklist_authorities o) (whitelist_markets o) (blacklist_markets o) (description o)) a.

(** What the transfers see of it. *)
Definition transfer_view (a : asset_object) : Transfers.asset_object :=
  let o := common_options a in
  Transfers.mk_asset_object (issuer a) (flags o) (max_supply o) (uasset_property a) (bool_decide (is_Some (bitasset_data_id a)))
    (whitelist_authorities o) (blacklist_authorities o).
Definition is_market_issued (i : Z) (a : asset_object) : bool := Transfers.is_market_issued i (transfer_view a).
Definition can_force_settle (a : asset_object) : bool := negb (any (flags (common_options a)) disable_force_settle).

Record dynamic_data := mk_dynamic { current_supply : Z; accumulated_fees : Z; fee_pool : Z }.

(** What is read of an account; its gateway object, if it has one. *)
Record account := mk_account {
  account_name : string;
  lock_balance : bool;
  gateway_member : bool;
  gateway_of : option Z;
  active_accounts : gset Z
}.

(** [bitlender_option_object]. *)
Record lender_option := mk_lender_option { lender_asset : Z; sproduct : string; lender_gateways : gset Z }.

Record registry_parameters := mk_registry_parameters {
  maximum_asset_whitelist_authorities : Z;
  maximum_asset_feed_publishers : Z;
  block_interval : Z
}.

Record database := mk_database {
  assets : gmap Z asset_object;
  next_asset : Z;
  bitassets : gmap Z asset_bitasset_data_object;
  next_bitasset : Z;
  dynamics : gmap Z dynamic_data;
  next_dynamic : Z;
  accounts : gmap Z account;
  gateways : gmap Z (gset Z);
  lender_options : gmap Z lender_option;
  head_time : Z;
  parameters : registry_parameters
}.

Definition set_assets (m : gmap Z asset_object) (n : Z) (d : database) : database :=
  mk_database m n (bitassets d) (next_bitasset d) (dynamics d) (next_dynamic d) (accounts d) (gateways d) (lender_options d)
    (head_time d) (parameters d).
Definition set_bitassets (m : gmap Z asset_bitasset_data_object) (n : Z) (d : database) : database :=
  mk_database (assets d) (next_asset d) m n (dynamics d) (next_dynamic d) (accounts d) (gateways d) (lender_options d)
    (head_time d) (parameters d).
Definition set_dynamics (m : gmap Z dynamic_data) (n : Z) (d : database) : database :=
  mk_database (assets d) (next_asset d) (bitassets d) (next_bitasset d) m n (accounts d) (gateways d) (lender_options d)
    (head_time d) (parameters d).
Definition set_gateways (m : gmap Z (gset Z)) (l : gmap Z lender_option) (d : database) : database :=
  mk_database (assets d) (next_asset d) (bitassets d) (next_bitasset d) (dynamics d) (next_dynamic d) (accounts d) m l
    (head_time d) (parameters d).

(** [db.get( id )]. *)
Definition found {A} (x : option A) : M database A := match x with Some a => mret a | None => throw assert_exception end.
Definition get_asset (i : Z) : M database asset_object := d ← get_st; found (assets d !! i).
Definition get_bitasset (i : Z) : M database asset_bitasset_data_object := d ← get_st; found (bitassets d !! i).
Definition get_dynamic (i : Z) : M database dynamic_data := d ← get_st; found (dynamics d !! i).
Definition get_account (i : Z) : M database account := d ← get_st; found (accounts d !! i).
Definition get_gateway (i : Z) : M database (gset Z) := d ← get_st; found (gateways d !! i).
Definition bitasset_data (a : asset_object) : M database asset_bitasset_data_object :=
  match bitasset_data_id a with Some i => get_bitasset i | None => throw assert_exception end.

Definition modify_asset (i : Z) (f : asset_object → asset_object) : M database () :=
  a ← get_asset i; modify_st (λ d, set_assets (<[i := f a]> (assets d)) (next_asset d) d).
Definition modify_bitasset (i : Z) (f : asset_bitasset_data_object → result asset_bitasset_data_object) : M database () :=
  b ← get_bitasset i; b ← lift (f b); modify_st (λ d, set_bitassets (<[i := b]> (bitassets d)) (next_bitasset d) d).
Definition modify_gateway (i : Z) (f : gset Z → gset Z) : M database () :=
  g ← get_gateway i; modify_st (λ d, set_gateways (<[i := f g]> (gateways d)) (lender_options d) d).

Definition check_unlocked (i : Z) : M database () := a ← get_account i; assert_st (negb (lock_balance a)).
(** The loops that look every account up. *)
Definition accounts_exist (s : gset Z) : M database () := mapM_ (λ i, get_account i ;; mret ()) (ordered s).

(** ** asset_property_evaluator *)

Definition new_property (old value mask : Z) : Z := Z.lor (Z.ldiff old mask) value.

Definition asset_property_evaluate (o : asset_property_operation) : M database () :=
  a ← get_asset (property_asset o);
  assert_st (is_market_issued (property_asset o) a) ;;
  let p := new_property (uasset_property a) (property_value o) (property_mask o) in
  assert_st (negb (p =? uasset_property a)) ;;
  assert_st (negb (any p ASSET_CASH && any p ASSET_LENDER)) ;;
  assert_st (negb (any p ASSET_CASH && any p ASSET_BIT)) ;;
  assert_st (negb (any p ASSET_LENDER && any p ASSET_LOAN)) ;;
  assert_st (any p ASSET_CASH || any p ASSET_BIT).

Definition asset_property_apply (o : asset_property_operation) : M database () :=
  modify_asset (property_asset o) (λ a,
    mk_asset_object (symbol a) (precision a) (issuer a) (common_options a) (dynamic_asset_data_id a) (bitasset_data_id a)
      (new_property (uasset_property a) (property_value o) (property_mask o)) (whitelist_gateways a) (real_asset a) (real_asset_sub a)).

(** ** asset_create_evaluator *)

(** [symbol.substr( 0, symbol.find( '.' ) )], where there is a dot. *)
Fixpoint prefix_of (l : list ascii) : option (list ascii) :=
  match l with
  | [] => None
  | c :: l => if Ascii.eqb c "." then Some [] else (λ p, c :: p) <$> prefix_of l
  end.
Definition symbol_prefix (s : string) : option (list ascii) := prefix_of (String.list_ascii_of_string s).

(** May the issuer use the prefix of the symbol? *)
Definition prefix_free (s : string) (i : Z) (d : database) : bool :=
  match symbol_prefix s with
  | None => true
  | Some p => bool_decide (map_Forall (λ _ a, symbol_prefix (symbol a) = Some p → issuer a = i) (assets d))
  end.

(** Nothing but the core asset may back, directly or through its own backing, what the
    committee controls. *)
Definition backing_is_core (backing_id : Z) (backing : asset_object) : M database bool :=
  if is_market_issued backing_id backing then
    b ← bitasset_data backing;
    let bb := short_backing_asset (options b) in
    _ ← get_asset bb;
    mret (bb =? GRAPHENE_CORE_ASSET)
  else mret (backing_id =? GRAPHENE_CORE_ASSET).

Definition HARDFORK_190309_TIME : Z := 1552060800.
Definition lender_desc : string := "LENDER".
Definition GRAPHENE_WITNESS_ACCOUNT : Z := 1.

(** The calls of the market engine: [cancel_settle_order] for all the orders of an asset,
    [revive_bitasset] and [check_call_orders]. *)
Class Market := {
  cancel_settle_orders : Z → M database ();
  revive_bitasset : Z → M database ();
  check_call_orders : Z → M database ()
}.

Section Evaluators.
Context {U : Type} `{Multiprecision U} {Q : Type} `{Rational Q} `{Selection} `{Market}.
(** [fc::json::from_string( description ).as< asset_description >()]: the real asset and its
    subclass. *)
Context (parse_description : string → result (string * string)).

(** [price_feed::operator==], which leaves out the core exchange rate. *)
Definition feed_eqb (a b : price_feed) : bool :=
  price_eqb (settlement_price a) (settlement_price b) &&
  (maintenance_collateral_ratio a =? maintenance_collateral_ratio b) &&
  (maximum_short_squeeze_ratio a =? maximum_short_squeeze_ratio b).

Definition create_evaluate (o : asset_create_operation) : M database (string * string) :=
  d ← get_st;
  let params := parameters d in
  let opts := create_options o in
  acc ← get_account (create_issuer o);
  assert_st (String.eqb (account_name acc) "nathan" || String.eqb (account_name acc) "committee-account") ;;
  assert_st (Z.of_nat (size (whitelist_authorities opts)) <=? maximum_asset_whitelist_authorities params) ;;
  assert_st (Z.of_nat (size (blacklist_authorities opts)) <=? maximum_asset_whitelist_authorities params) ;;
  accounts_exist (whitelist_authorities opts) ;;
  accounts_exist (blacklist_authorities opts) ;;
  assert_st (bool_decide (map_Forall (λ _ a, symbol a ≠ create_symbol o) (assets d))) ;;
  assert_st (prefix_free (create_symbol o) (create_issuer o) d) ;;
  match create_bitasset_opts o with
  | Some b =>
      let backing_id := short_backing_asset b in
      backing ← get_asset backing_id;
      (if is_market_issued backing_id backing then
         bb ← bitasset_data backing;
         let bb_id := short_backing_asset (options bb) in
         bb ← get_asset bb_id;
         assert_st (negb (is_market_issued bb_id bb)) ;;
         assert_st (negb (create_issuer o =? GRAPHENE_COMMITTEE_ACCOUNT) || (bb_id =? GRAPHENE_CORE_ASSET))
       else assert_st (negb (create_issuer o =? GRAPHENE_COMMITTEE_ACCOUNT) || (backing_id =? GRAPHENE_CORE_ASSET))) ;;
      assert_st ((block_interval params <? feed_lifetime_sec b) && (block_interval params <? force_settlement_delay_sec b))
  | None => mret ()
  end ;;
  (if create_prediction_market o then
     match create_bitasset_opts o with
     | Some b => backing ← get_asset (short_backing_asset b); assert_st (create_precision o =? precision backing)
     | None => throw assert_exception
     end
   else mret ()) ;;
  assert_st (is_core (options_exchange_rate opts)) ;;
  if HARDFORK_190309_TIME <=? head_time d then
    assert_st (0 <? String.length (description opts))%nat ;; lift (parse_description (description opts))
  else mret (create_symbol o, "").

(** [asset_create_evaluator::pay_fee]: the pool of the new asset and what remains of the fee. *)
Definition split_create_fee (core_fee_paid : Z) : result (Z * Z) :=
  fee_pool ← safe_sub core_fee_paid ((core_fee_paid + 1) ÷ 2);
  rest ← safe_sub core_fee_paid fee_pool;
  mret (fee_pool, rest).

(** The price of the new asset in the core asset, with the identifier it gets. *)
Definition own_rate (i : Z) (p : price) : price :=
  if asset_id (base p) =? 0 then mk_price (base p) (mk_asset (amount (quote p)) i)
  else mk_price (mk_asset (amount (base p)) i) (quote p).

Definition new_bitasset (i : Z) (o : bitasset_options) (prediction : bool) : asset_bitasset_data_object :=
  mk_bitasset i o ∅ null_feed 0 null_price prediction 0 null_price 0 false false.

Definition create_apply (fee_pool : Z) (_des : string * string) (o : asset_create_operation) : M database Z :=
  d ← get_st;
  let dyn := next_dynamic d in
  let i := next_asset d in
  modify_st (set_dynamics (<[dyn := mk_dynamic 0 0 fee_pool]> (dynamics d)) (dyn + 1)) ;;
  bit ← match create_bitasset_opts o with
        | Some b =>
            let n := next_bitasset d in
            modify_st (set_bitassets (<[n := new_bitasset i b (create_prediction_market o)]> (bitassets d)) (n + 1)) ;;
            mret (Some n)
        | None => mret None
        end;
  let a := mk_asset_object (create_symbol o) (create_precision o) (create_issuer o) (create_options o) dyn bit ASSET_BIT ∅ _des.1 _des.2 in
  modify_st (set_assets (<[i := set_exchange_rate (own_rate i (options_exchange_rate (create_options o))) a]> (assets d)) (i + 1)) ;;
  mret i.

(** ** asset_update_evaluator *)

(** [asset_object::validate], of a copy with the new options. *)
Definition object_validate (i : Z) (a : asset_object) : result () :=
  let o := common_options a in
  let bits := Z.lor disable_force_settle global_settle in
  if is_market_issued i a then Ok ()
  else FC_ASSERT (negb (any (flags o) bits)) ;; FC_ASSERT (negb (any (issuer_permissions o) bits)).

Definition update_evaluate (o : asset_update_operation) : M database (string * string) :=
  d ← get_st;
  let params := parameters d in
  let i := asset_to_update o in
  let opts := new_options o in
  a ← get_asset i;
  lift (object_validate i (set_common_options opts a)) ;;
  match new_issuer o with
  | Some n =>
      _ ← get_account n;
      if is_market_issued i a && (n =? GRAPHENE_COMMITTEE_ACCOUNT) then
        b ← bitasset_data a;
        backing ← get_asset (short_backing_asset (options b));
        ok ← backing_is_core (short_backing_asset (options b)) backing;
        assert_st ok
      else mret ()
  | None => mret ()
  end ;;
  assert_st (negb (i =? 0) || (max_supply opts <=? GRAPHENE_MAX_SHARE_SUPPLY)) ;;
  dyn ← get_dynamic (dynamic_asset_data_id a);
  assert_st ((current_supply dyn =? 0) || negb (beyond (issuer_permissions opts) (issuer_permissions (common_options a)))) ;;
  assert_st (negb (beyond (Z.lxor (flags opts) (flags (common_options a))) (issuer_permissions (common_options a)))) ;;
  assert_st (update_issuer o =? issuer a) ;;
  assert_st (Z.of_nat (size (whitelist_authorities opts)) <=? maximum_asset_whitelist_authorities params) ;;
  accounts_exist (whitelist_authorities opts) ;;
  assert_st (Z.of_nat (size (blacklist_authorities opts)) <=? maximum_asset_whitelist_authorities params) ;;
  accounts_exist (blacklist_authorities opts) ;;
  check_unlocked (update_issuer o) ;;
  assert_st (is_core (options_exchange_rate opts)) ;;
  assert_st (is_for (options_exchange_rate opts) i) ;;
  if HARDFORK_190309_TIME <=? head_time d then
    assert_st (0 <? String.length (description opts))%nat ;;
    des ← lift (parse_description (description opts));
    assert_st (0 <? String.length des.1)%nat ;; mret des
  else mret (real_asset a, "").

Definition update_object (_des : string * string) (o : asset_update_operation) (a : asset_object) : asset_object :=
  mk_asset_object (symbol a) (precision a) (default (issuer a) (new_issuer o)) (new_options o) (dynamic_asset_data_id a)
    (bitasset_data_id a) (uasset_property a) (whitelist_gateways a) _des.1 _des.2.

Definition update_apply (_des : string * string) (o : asset_update_operation) : M database () :=
  let i := asset_to_update o in
  a ← get_asset i;
  (if any (flags (new_options o)) disable_force_settle && can_force_settle a then cancel_settle_orders i else mret ()) ;;
  a ← get_asset i;
  (if is_market_issued i a && negb (price_eqb (options_exchange_rate (common_options a)) (options_exchange_rate (new_options o))) then
     match bitasset_data_id a with
     | Some n => modify_bitasset n (λ b, Ok (set_cer_updated true (feed_cer_updated b) b))
     | None => throw assert_exception
     end
   else mret ()) ;;
  modify_asset i (update_object _des o).

(** ** asset_update_bitasset_evaluator *)

Definition update_bitasset_evaluate (o : asset_update_bitasset_operation) : M database Z :=
  let i := bitasset_to_update o in
  a ← get_asset i;
  assert_st (is_market_issued i a) ;;
  lift (bitasset_options_validate (new_bitasset_options o)) ;;
  b ← bitasset_data a;
  assert_st (negb (has_settlement b)) ;;
  (if negb (short_backing_asset (new_bitasset_options o) =? short_backing_asset (options b)) then
     dyn ← get_dynamic (dynamic_asset_data_id a);
     assert_st (current_supply dyn =? 0) ;;
     get_asset (short_backing_asset (new_bitasset_options o)) ;;
     if issuer a =? GRAPHENE_COMMITTEE_ACCOUNT then
       b ← bitasset_data a;
       backing ← get_asset (short_backing_asset (options b));
       ok ← backing_is_core (short_backing_asset (options b)) backing;
       assert_st ok
     else mret ()
   else mret ()) ;;
  assert_st (bitasset_issuer o =? issuer a) ;;
  check_unlocked (bitasset_issuer o) ;;
  mret (default 0 (bitasset_data_id a)).

Definition update_bitasset_apply (n : Z) (o : asset_update_bitasset_operation) : M database () :=
  d ← get_st;
  modify_bitasset n (λ b,
    let b' := set_options (new_bitasset_options o) b in
    if minimum_feeds (new_bitasset_options o) =? minimum_feeds (options b) then Ok b'
    else update_median_feeds (head_time d) b').

(** ** asset_update_gateway_evaluator *)

Definition gateway_id_of (i : Z) : M database Z := acc ← get_account i; found (gateway_of acc).

Definition update_gateway_evaluate (o : asset_update_gateway_operation) : M database () :=
  ass ← get_asset (gateway_asset o);
  assert_st ((issuer ass =? gateway_issuer o) ||
    (issuer ass =? GRAPHENE_NULL_ACCOUNT) && (gateway_issuer o =? GRAPHENE_COMMITTEE_ACCOUNT)) ;;
  mapM_ (λ i, acc ← get_account i; assert_st (gateway_member acc)) (new_gateways o) ;;
  mapM_ (λ i, gateway_id_of i ;; mret ()) (ordered (whitelist_gateways ass)).

Definition set_whitelist_gateways (s : gset Z) (a : asset_object) : asset_object :=
  mk_asset_object (symbol a) (precision a) (issuer a) (common_options a) (dynamic_asset_data_id a) (bitasset_data_id a)
    (uasset_property a) s (real_asset a) (real_asset_sub a).

(** [ass] is a reference: the second loop runs over the new gateways. *)
Definition update_gateway_apply (o : asset_update_gateway_operation) : M database () :=
  let i := gateway_asset o in
  ass ← get_asset i;
  mapM_ (λ g, n ← gateway_id_of g; modify_gateway n (λ s, s ∖ {[i]})) (ordered (whitelist_gateways ass)) ;;
  modify_asset i (set_whitelist_gateways (list_to_set (new_gateways o))) ;;
  ass ← get_asset i;
  mapM_ (λ g, n ← gateway_id_of g; modify_gateway n (λ s, {[i]} ∪ s)) (ordered (whitelist_gateways ass)) ;;
  modify_st (λ d, set_gateways (gateways d)
    ((λ l, if (lender_asset l =? i) && String.eqb (sproduct l) lender_desc
           then mk_lender_option (lender_asset l) (sproduct l) (whitelist_gateways ass) else l) <$> lender_options d) d).

(** ** asset_update_feed_producers_evaluator *)

Definition producers_evaluate (o : asset_update_feed_producers_operation) : M database Z :=
  d ← get_st;
  assert_st (Z.of_nat (size (new_feed_producers o)) <=? maximum_asset_feed_publishers (parameters d)) ;;
  accounts_exist (new_feed_producers o) ;;
  a ← get_asset (producers_asset o);
  assert_st (is_market_issued (producers_asset o) a) ;;
  assert_st (negb (any (flags (common_options a)) committee_fed_asset)) ;;
  assert_st (negb (any (flags (common_options a)) witness_fed_asset)) ;;
  b ← bitasset_data a;
  assert_st (issuer a =? producers_issuer o) ;;
  check_unlocked (producers_issuer o) ;;
  accounts_exist (new_feed_producers o) ;;
  mret (default 0 (bitasset_data_id a)).

(** The old producers are erased, the new ones begin with [pair()]: time 0 and no price. *)
Definition new_feeds (producers : gset Z) (fs : gmap Z (Z * price_feed)) : gmap Z (Z * price_feed) :=
  filter (λ p, p.1 ∈ producers) fs ∪ gset_to_gmap (0, null_feed) producers.

Definition producers_apply (n : Z) (o : asset_update_feed_producers_operation) : M database () :=
  d ← get_st;
  b ← get_bitasset n;
  modify_bitasset n (λ b, update_median_feeds (head_time d) (set_feeds (new_feeds (new_feed_producers o) (feeds b)) b)) ;;
  b' ← get_bitasset n;
  if feed_eqb (current_feed b) (current_feed b') then mret () else check_call_orders (producers_asset o).

(** ** asset_publish_feeds_evaluator *)

Definition may_publish (who : Z) (a : asset_object) (b : asset_bitasset_data_object) : M database bool :=
  if any (flags (common_options a)) witness_fed_asset then
    w ← get_account GRAPHENE_WITNESS_ACCOUNT; mret (bool_decide (who ∈ active_accounts w))
  else if any (flags (common_options a)) committee_fed_asset then
    c ← get_account GRAPHENE_COMMITTEE_ACCOUNT; mret (bool_decide (who ∈ active_accounts c))
  else mret (bool_decide (is_Some (feeds b !! who))).

(** The results of the two calls of [is_for] on the settlement price are not used. *)
Definition publish_evaluate (o : asset_publish_feed_operation) : M database () :=
  let i := publish_asset o in
  let f := published_feed o in
  let sp := settlement_price f in
  let cer := core_exchange_rate f in
  base_ ← get_asset i;
  assert_st (is_market_issued i base_) ;;
  check_unlocked (publisher o) ;;
  b ← bitasset_data base_;
  assert_st (bitasset_asset b =? i) ;;
  (if is_prediction_market b then assert_st (negb (has_settlement b)) else mret ()) ;;
  assert_st (maximum_short_squeeze_ratio f <=? maintenance_collateral_ratio f) ;;
  assert_st (asset_id (quote sp) =? short_backing_asset (options b)) ;;
  get_asset (asset_id (base sp)) ;;
  get_asset (asset_id (quote sp)) ;;
  (if is_null cer then mret () else
     assert_st (is_for cer i) ;; assert_st (is_core cer) ;;
     get_asset (asset_id (base cer)) ;; get_asset (asset_id (quote cer)) ;; mret ()) ;;
  ok ← may_publish (publisher o) base_ b;
  assert_st ok.

(** Is the fund of a settled asset worth enough for the asset to be traded again? *)
Definition should_revive (i : Z) (b : asset_bitasset_data_object) (supply : Z) : bool :=
  (supply =? 0) ||
  price_ltb (current_maintenance_collateralization b)
    (mk_price (mk_asset (settlement_fund b) (short_backing_asset (options b))) (mk_asset supply i)).

Definition publish_apply (o : asset_publish_feed_operation) : M database () :=
  let i := publish_asset o in
  d ← get_st;
  a ← get_asset i;
  bad ← bitasset_data a;
  let n := default 0 (bitasset_data_id a) in
  modify_bitasset n (λ b, update_median_feeds (head_time d) (set_feeds (<[publisher o := (head_time d, published_feed o)]> (feeds b)) b)) ;;
  bad' ← bitasset_data a;
  if feed_eqb (current_feed bad) (current_feed bad') then mret () else
    (if has_settlement bad' && negb (is_null (settlement_price (current_feed bad'))) then
       dyn ← get_dynamic (dynamic_asset_data_id a);
       if should_revive i bad' (current_supply dyn) then revive_bitasset i else mret ()
     else mret ()) ;;
    check_call_orders i.

(** ** db_update.cpp *)

(** One turn of the loop of [update_expired_feeds]. *)
Definition update_expired_feed (i : Z) : M database () :=
  d ← get_st;
  a ← get_asset i;
  assert_st (negb (i =? 0)) ;;
  b ← bitasset_data a;
  let n := default 0 (bitasset_data_id a) in
  if feed_is_expired (head_time d) b then
    let clear b := if need_to_update_cer b then set_cer_updated false false b else b in
    update_cer ← lift (need_to_update_cer <$> update_median_feeds (head_time d) b);
    modify_bitasset n (λ b, clear <$> update_median_feeds (head_time d) b) ;;
    b1 ← bitasset_data a;
    (if negb (is_null (settlement_price (current_feed b1))) && negb (feed_eqb (current_feed b) (current_feed b1))
     then get_asset (asset_id (base (settlement_price (current_feed b1)))) ;;
          check_call_orders (asset_id (base (settlement_price (current_feed b1)))) else mret ()) ;;
    if update_cer : bool then
      a ← get_asset i;
      b2 ← bitasset_data a;
      if negb (is_null (core_exchange_rate (current_feed b2))) &&
         negb (price_eqb (options_exchange_rate (common_options a)) (core_exchange_rate (current_feed b2)))
      then modify_asset i (set_exchange_rate (core_exchange_rate (current_feed b2))) else mret ()
    else mret ()
  else mret ().

(** The market-issued assets, in the order of the index [by_type]. *)
Definition market_issued (d : database) : list Z :=
  List.filter (λ i, match assets d !! i with Some a => is_market_issued i a | None => false end) (ordered (dom (assets d))).
Definition update_expired_feeds : M database () := d ← get_st; mapM_ update_expired_feed (market_issued d).

(** One turn of [update_core_exchange_rates], and its loop: the index [by_cer_update] has the
    data to update last; here the one of the greatest identifier. *)
Definition update_core_exchange_rate (n : Z) : M database () :=
  b ← get_bitasset n;
  a ← get_asset (bitasset_asset b);
  (if negb (price_eqb (options_exchange_rate (common_options a)) (core_exchange_rate (current_feed b)))
   then modify_asset (bitasset_asset b) (set_exchange_rate (core_exchange_rate (current_feed b))) else mret ()) ;;
  modify_bitasset n (λ b, Ok (set_cer_updated false false b)).

Definition cer_pending (d : database) : list Z :=
  List.filter (λ n, match bitassets d !! n with Some b => need_to_update_cer b | None => false end) (ordered (dom (bitassets d))).

Fixpoint update_core_exchange_rates (fuel : nat) : M database () :=
  d ← get_st;
  match last (cer_pending d) with
  | None => mret ()
  | Some n => match fuel with O => throw out_of_fuel | S fuel => update_core_exchange_rate n ;; update_core_exchange_rates fuel end
  end.
End Evaluators.

(** * How the registry evolves *)

(** What the market engine leaves alone: the asset objects, the time and the identifiers, the
    gateways and the accounts, and of the data of the market-issued assets the options and the feeds. *)
Definition data_view (b : asset_bitasset_data_object) : Z * bitasset_options * gmap Z (Z * price_feed) * price_feed * Z :=
  (bitasset_asset b, options b, feeds b, current_feed b, current_feed_publication_time b).
Definition registry_of (d : database) :=
  (assets d, next_asset d, next_bitasset d, head_time d, data_view <$> bitassets d, gateways d, accounts d).

Class MarketLaws `{Market} : Prop := {
  cancel_keeps i : same registry_of (cancel_settle_orders i);
  revive_keeps i : same registry_of (revive_bitasset i);
  check_keeps i : same registry_of (check_call_orders i)
}.

(** What never changes of an asset, and what only its issuer changes. *)
Definition identity (a : asset_object) : string * Z * Z * option Z :=
  (symbol a, precision a, dynamic_asset_data_id a, bitasset_data_id a).
Definition controls (a : asset_object) : Z * Z * Z * Z :=
  (issuer a, issuer_permissions (common_options a), flags (common_options a), max_supply (common_options a)).

(** From [d] to [d'] no asset is lost or changes hands, and new ones have new identifiers. *)
Record grows (d d' : database) : Prop := mk_grows {
  grows_next : next_asset d ≤ next_asset d';
  grows_time : head_time d' = head_time d;
  grows_old i a : assets d !! i = Some a →
    ∃ a', assets d' !! i = Some a' ∧ identity a' = identity a ∧ controls a' = controls a;
  grows_new i a : assets d' !! i = Some a → is_Some (assets d !! i) ∨ next_asset d ≤ i < next_asset d'
}.

#[export] Instance grows_preorder : PreOrder grows.
Proof.
  split.
  - intros d. split; [lia|done|eauto|eauto].
  - intros d1 d2 d3 [N1 T1 O1 W1] [N2 T2 O2 W2]. split; [lia|congruence| |].
    + intros i a Ha. destruct (O1 i a Ha) as (a2 & Ha2 & ? & ?). destruct (O2 i a2 Ha2) as (a3 & ? & ? & ?). exists a3. split_and!; congruence.
    + intros i a Ha. destruct (W2 i a Ha) as [[b Hb]|]; [|right; lia]. destruct (W1 i b Hb); [by left|right; lia].
Qed.

Lemma grows_same d d' : assets d' = assets d → next_asset d' = next_asset d → head_time d' = head_time d → grows d d'.
Proof. intros Ha Hn Ht. split; rewrite ?Ha; [lia|done|eauto|eauto]. Qed.

Lemma same_grows {A} (m : M database A) : same registry_of m → moves grows m.
Proof. intros Hm d a d' Hrun. apply Hm in Hrun. unfold registry_of in Hrun. injection Hrun as Ha Hn _ Ht _ _ _. by apply grows_same. Qed.

(** ** The reads of the objects *)

Section Reads.
Context (R : database → database → Prop) `{!PreOrder R}.

Lemma found_moves {A} (x : option A) : moves R (found x).
Proof. destruct x; unfold found; moves_step. Qed.
#[local] Hint Resolve found_moves : zos.
Lemma get_asset_moves i : moves R (get_asset i).
Proof. unfold get_asset. repeat moves_step. Qed.
Lemma get_bitasset_moves i : moves R (get_bitasset i).
Proof. unfold get_bitasset. repeat moves_step. Qed.
Lemma get_dynamic_moves i : moves R (get_dynamic i).
Proof. unfold get_dynamic. repeat moves_step. Qed.
Lemma get_account_moves i : moves R (get_account i).
Proof. unfold get_account. repeat moves_step. Qed.
Lemma get_gateway_moves i : moves R (get_gateway i).
Proof. unfold get_gateway. repeat moves_step. Qed.
#[local] Hint Resolve get_asset_moves get_bitasset_moves get_account_moves : zos.
Lemma bitasset_data_moves a : moves R (bitasset_data a).
Proof. unfold bitasset_data. repeat moves_step. Qed.
Lemma check_unlocked_moves i : moves R (check_unlocked i).
Proof. unfold check_unlocked. repeat moves_step. Qed.
Lemma accounts_exist_moves s : moves R (accounts_exist s).
Proof. unfold accounts_exist. repeat moves_step. Qed.
#[local] Hint Resolve bitasset_data_moves : zos.
Lemma backing_is_core_moves i a : moves R (backing_is_core i a).
Proof. unfold backing_is_core. repeat moves_step. Qed.
End Reads.
#[export] Hint Extern 0 (PreOrder _) => apply _ : zos.
#[export] Hint Resolve found_moves get_asset_moves get_bitasset_moves get_dynamic_moves get_account_moves get_gateway_moves
  bitasset_data_moves check_unlocked_moves accounts_exist_moves backing_is_core_moves : zos.

Lemma modify_st_grows f : (∀ d, grows d (f d)) → moves grows (modify_st f).
Proof. intros Hf d a d' [= _ <-]. apply Hf. Qed.

Lemma modify_bitasset_grows n f : moves grows (modify_bitasset n f).
Proof. unfold modify_bitasset. repeat moves_step. apply modify_st_grows. intros d. by apply grows_same. Qed.
Lemma modify_gateway_grows n f : moves grows (modify_gateway n f).
Proof. unfold modify_gateway. repeat moves_step. apply modify_st_grows. intros d. by apply grows_same. Qed.
#[export] Hint Resolve modify_bitasset_grows modify_gateway_grows : zos.

Lemma grows_insert d i a a' : assets d !! i = Some a → identity a' = identity a → controls a' = controls a →
  grows d (set_assets (<[i := a']> (assets d)) (next_asset d) d).
Proof.
  intros Ha Hid Hc. split; cbn; [lia|done| |].
  - intros j b Hb. destruct (decide (j = i)) as [->|].
    + rewrite lookup_insert_eq. exists a'. split_and!; congruence.
    + rewrite lookup_insert_ne by done. eauto.
  - intros j b Hb. left. destruct (decide (j = i)) as [->|]; [by eexists|]. rewrite lookup_insert_ne in Hb by done. by eexists.
Qed.

Lemma modify_asset_grows i f :
  (∀ a, identity (f a) = identity a ∧ controls (f a) = controls a) → moves grows (modify_asset i f).
Proof.
  intros Hf d u d' Hrun. unfold modify_asset, get_asset, found in Hrun. cbn in Hrun. unfold mbind, M_bind, get_st in Hrun.
  destruct (assets d !! i) as [a|] eqn:Ha; [|done]. injection Hrun as _ <-. destruct (Hf a). by eapply grows_insert.
Qed.

(** ** Every evaluator *)

(** Take the next step of an evaluation that only reads. *)
Ltac read_step H :=
  let x := fresh "x" in let d1 := fresh "d" in let H1 := fresh "Hstep" in let E := fresh in
  apply M_bind_Ok in H as (x & d1 & H1 & H);
  match type of H1 with ?m _ = _ => assert (E : moves eq m) by (repeat moves_step); apply E in H1 as E'; clear E; subst d1 end.

#[local] Opaque modify_asset.

Section Steps.
Context {U : Type} `{Multiprecision U} {Q : Type} `{Rational Q} `{Selection} `{MarketLaws}.
Context (parse_description : string → result (string * string)).

Lemma cancel_grows i : moves grows (cancel_settle_orders i).
Proof. apply same_grows, cancel_keeps. Qed.
Lemma revive_grows i : moves grows (revive_bitasset i).
Proof. apply same_grows, revive_keeps. Qed.
Lemma check_grows i : moves grows (check_call_orders i).
Proof. apply same_grows, check_keeps. Qed.
#[local] Hint Resolve cancel_grows revive_grows check_grows : zos.

(** The operations, the updates of a block, and what the rest of the chain does to the supply
    of the assets and to the clock. *)
Inductive action :=
  | do_property (o : asset_property_operation)
  | do_create (core_fee_paid : Z) (o : asset_create_operation)
  | do_update (o : asset_update_operation)
  | do_update_bitasset (o : asset_update_bitasset_operation)
  | do_update_gateway (o : asset_update_gateway_operation)
  | do_update_producers (o : asset_update_feed_producers_operation)
  | do_publish (o : asset_publish_feed_operation)
  | do_block_updates
  | do_supply (m : gmap Z dynamic_data).

Definition run (act : action) : M database () :=
  match act with
  | do_property o => lift (asset_property_validate o) ;; asset_property_evaluate o ;; asset_property_apply o
  | do_create fee o =>
      lift (asset_create_validate o) ;; des ← create_evaluate parse_description o;
      '(pool, _) ← lift (split_create_fee fee); create_apply pool des o ;; mret ()
  | do_update o => lift (asset_update_validate o) ;; des ← update_evaluate parse_description o; update_apply des o
  | do_update_bitasset o => lift (asset_update_bitasset_validate o) ;; n ← update_bitasset_evaluate o; update_bitasset_apply n o
  | do_update_gateway o => lift (fee_ok (gateway_fee o)) ;; update_gateway_evaluate o ;; update_gateway_apply o
  | do_update_producers o => lift (fee_ok (producers_fee o)) ;; n ← producers_evaluate o; producers_apply n o
  | do_publish o => lift (asset_publish_feed_validate o) ;; publish_evaluate o ;; publish_apply o
  | do_block_updates => d ← get_st; update_expired_feeds ;; update_core_exchange_rates (size (bitassets d))
  | do_supply m => modify_st (λ d, set_dynamics m (next_dynamic d) d)
  end.

Lemma set_exchange_rate_controls p a :
  identity (set_exchange_rate p a) = identity a ∧ controls (set_exchange_rate p a) = controls a.
Proof. done. Qed.

Lemma set_rate_grows i p : moves grows (modify_asset i (set_exchange_rate p)).
Proof. apply modify_asset_grows. intros. apply set_exchange_rate_controls. Qed.
#[local] Hint Resolve set_rate_grows : zos.

Lemma property_grows o : moves grows (run (do_property o)).
Proof. cbn. unfold asset_property_evaluate. repeat moves_step. by apply modify_asset_grows. Qed.

(** The evaluations only read. *)
Lemma create_evaluate_reads o : moves eq (create_evaluate parse_description o).
Proof. unfold create_evaluate. repeat moves_step. Qed.
Lemma update_evaluate_reads o : moves eq (update_evaluate parse_description o).
Proof. unfold update_evaluate. repeat moves_step. Qed.

Lemma update_bitasset_grows o : moves grows (run (do_update_bitasset o)).
Proof. cbn. unfold update_bitasset_evaluate, update_bitasset_apply. repeat moves_step. Qed.

Lemma update_gateway_grows o : moves grows (run (do_update_gateway o)).
Proof.
  cbn. unfold update_gateway_evaluate, update_gateway_apply, gateway_id_of. repeat moves_step; [by apply modify_asset_grows|].
  apply modify_st_grows. intros d. by apply grows_same.
Qed.

Lemma update_producers_grows o : moves grows (run (do_update_producers o)).
Proof. cbn. unfold producers_evaluate, producers_apply. repeat moves_step. Qed.

Lemma publish_grows o : moves grows (run (do_publish o)).
Proof. cbn. unfold publish_evaluate, publish_apply, may_publish. repeat moves_step. Qed.

Lemma update_expired_feeds_grows : moves grows update_expired_feeds.
Proof. unfold update_expired_feeds, update_expired_feed. repeat moves_step. Qed.

Lemma update_core_exchange_rates_grows fuel : moves grows (update_core_exchange_rates fuel).
Proof. induction fuel; cbn; unfold update_core_exchange_rate; repeat moves_step. Qed.

Lemma moves_intro {A} (R : database → database → Prop) (m : M database A) d a d' : moves R m → m d = Ok (a, d') → R d d'.
Proof. intros Hm. apply Hm. Qed.

(** The new asset, and the data of a market-issued one. *)
Lemma create_applied pool des o d i d2 : create_apply pool des o d = Ok (i, d2) →
  ∃ a, assets d2 = <[next_asset d := a]> (assets d) ∧ next_asset d2 = next_asset d + 1 ∧ head_time d2 = head_time d ∧
    symbol a = create_symbol o ∧
    (bitasset_data_id a = None ∧ bitassets d2 = bitassets d ∧ next_bitasset d2 = next_bitasset d ∨
     ∃ b, create_bitasset_opts o = Some b ∧ bitasset_data_id a = Some (next_bitasset d) ∧ next_bitasset d2 = next_bitasset d + 1 ∧
       bitassets d2 = <[next_bitasset d := new_bitasset (next_asset d) b (create_prediction_market o)]> (bitassets d)).
Proof.
  unfold create_apply. cbn. unfold mbind, M_bind, get_st, modify_st, mret, M_ret.
  destruct (create_bitasset_opts o) as [b|]; intros [= _ <-]; eexists; (split; [reflexivity|]); split_and!; try done; [right|by left].
  exists b. by split_and!.
Qed.

Lemma create_grows fee o d u d' :
  assets d !! next_asset d = None → run (do_create fee o) d = Ok (u, d') → grows d d'.
Proof.
  intros Hfresh. cbn [run]. intros (? & ? & [_ ->]%lift_Ok & Hrun)%M_bind_Ok.
  apply M_bind_Ok in Hrun as (des & d1 & <-%create_evaluate_reads & Hrun).
  apply M_bind_Ok in Hrun as ([pool rest] & ? & [_ ->]%lift_Ok & Hrun).
  apply M_bind_Ok in Hrun as (i & d2 & (a & Ea & En & Et & _)%create_applied & [= _ <-]).
  split; rewrite ?Ea, ?En; [lia|done| |].
  - intros j b Hb. exists b. rewrite lookup_insert_ne by congruence. done.
  - intros j b Hb. destruct (decide (j = next_asset d)) as [->|]; [right; lia|]. rewrite lookup_insert_ne in Hb by done. left. by eexists.
Qed.

(** What the evaluation of an update has checked of the asset. *)
Lemma update_checked des o d d' : update_evaluate parse_description o d = Ok (des, d') →
  ∃ a dyn, assets d !! asset_to_update o = Some a ∧ dynamics d !! dynamic_asset_data_id a = Some dyn ∧
    (current_supply dyn ≠ 0 → beyond (issuer_permissions (new_options o)) (issuer_permissions (common_options a)) = false) ∧
    beyond (Z.lxor (flags (new_options o)) (flags (common_options a))) (issuer_permissions (common_options a)) = false ∧
    update_issuer o = issuer a.
Proof.
  unfold update_evaluate. intros Hrun. apply M_bind_Ok in Hrun as (? & ? & [= <- <-] & Hrun). cbv zeta in Hrun.
  do 8 read_step Hrun. clear Hrun.
  unfold get_asset, get_dynamic, found, mbind, M_bind, get_st in Hstep, Hstep3.
  destruct (assets d !! asset_to_update o) as [a|] eqn:Ha; [|done]. injection Hstep as <-.
  destruct (dynamics d !! dynamic_asset_data_id a) as [dyn|] eqn:Hd; [|done]. injection Hstep3 as <-.
  apply assert_st_Ok in Hstep4 as [Hperm _], Hstep5 as [Hflags _], Hstep6 as [Hiss%Z.eqb_eq _].
  exists a, dyn. split_and!; [done|done| |by apply negb_true_iff|done].
  intros Hs. apply orb_true_iff in Hperm as [?%Z.eqb_eq|?%negb_true_iff]; done.
Qed.

#[local] Transparent modify_asset.

(** The application of an update, to the asset it names and to no other. *)
Lemma update_applied des o d u d' : update_apply des o d = Ok (u, d') →
  ∃ a d1, grows d d1 ∧ assets d1 !! asset_to_update o = Some a ∧
    d' = set_assets (<[asset_to_update o := update_object des o a]> (assets d1)) (next_asset d1) d1.
Proof.
  unfold update_apply. cbv zeta. intros (a0 & d0 & Hd0%(get_asset_moves eq) & Hrun)%M_bind_Ok. subst d0.
  apply M_bind_Ok in Hrun as (u1 & d1 & R1 & Hrun). apply M_bind_Ok in Hrun as (a1 & d2 & Hd2%(get_asset_moves eq) & Hrun). subst d2.
  apply M_bind_Ok in Hrun as (u2 & d2 & R2 & Hrun).
  assert (grows d d1) as G1 by (revert R1; apply moves_intro; repeat moves_step).
  assert (grows d1 d2) as G2 by (revert R2; apply moves_intro; repeat moves_step).
  unfold modify_asset in Hrun. apply M_bind_Ok in Hrun as (a & d3 & Hg & [= _ <-]).
  unfold get_asset, found, mbind, M_bind, get_st in Hg. destruct (assets d2 !! asset_to_update o) as [b|] eqn:Hb; [|done].
  injection Hg as <- <-. exists b, d2. split_and!; [by etransitivity|done|done].
Qed.

Lemma beyond_bits a b k : beyond a b = false → Z.testbit a k = true → Z.testbit b k = true.
Proof.
  unfold beyond. intros Hd%negb_false_iff%Z.eqb_eq Ha. pose proof (Z.ldiff_spec a b k) as Hs. rewrite Hd, Z.bits_0, Ha in Hs.
  by destruct (Z.testbit b k).
Qed.

(** The identifiers of the registry are those given out so far. *)
Definition fresh (d : database) : Prop := ∀ j, is_Some (assets d !! j) → j < next_asset d.

Lemma grows_fresh d d' : grows d d' → fresh d → fresh d'.
Proof.
  intros [N _ _ W] Hf j [a Ha]. destruct (W j a Ha) as [Hj|]; [|lia]. specialize (Hf j Hj). lia.
Qed.

Lemma block_updates_grows : moves grows (run do_block_updates).
Proof.
  cbn [run]. apply moves_bind; [apply _|apply moves_get; apply _|intros d]. apply moves_bind; [apply _|apply update_expired_feeds_grows|].
  intros _. apply update_core_exchange_rates_grows.
Qed.

(** Every action but an update of an asset leaves all of them to their issuers. *)
Lemma run_grows act d u d' : (∀ o, act ≠ do_update o) → fresh d → run act d = Ok (u, d') → grows d d'.
Proof.
  intros Hno Hf Hrun. assert (assets d !! next_asset d = None) as Hnext.
  { destruct (assets d !! next_asset d) eqn:Ha; [|done]. specialize (Hf _ (mk_is_Some _ _ Ha)). lia. }
  destruct act as [o|fee o|o|o|o|o|o| |m].
  - by apply property_grows in Hrun.
  - by eapply create_grows.
  - by destruct (Hno o).
  - by apply update_bitasset_grows in Hrun.
  - by apply update_gateway_grows in Hrun.
  - by apply update_producers_grows in Hrun.
  - by apply publish_grows in Hrun.
  - by apply block_updates_grows in Hrun.
  - injection Hrun as _ <-. by apply grows_same.
Qed.

Lemma update_run o d u d' : run (do_update o) d = Ok (u, d') →
  asset_update_validate o = Ok () ∧ ∃ des a dyn d1 a1, assets d !! asset_to_update o = Some a ∧ dynamics d !! dynamic_asset_data_id a = Some dyn ∧
    (current_supply dyn ≠ 0 → beyond (issuer_permissions (new_options o)) (issuer_permissions (common_options a)) = false) ∧
    beyond (Z.lxor (flags (new_options o)) (flags (common_options a))) (issuer_permissions (common_options a)) = false ∧
    update_issuer o = issuer a ∧ grows d d1 ∧ assets d1 !! asset_to_update o = Some a1 ∧ identity a1 = identity a ∧
    d' = set_assets (<[asset_to_update o := update_object des o a1]> (assets d1)) (next_asset d1) d1.
Proof.
  cbn [run]. intros ([] & ? & [Hv ->]%lift_Ok & Hrun)%M_bind_Ok. split; [done|].
  apply M_bind_Ok in Hrun as (des & d1 & He & Hrun). pose proof (update_evaluate_reads o _ _ _ He) as <-.
  destruct (update_checked des o d d He) as (a & dyn & Ha & Hd & Hp & Hf & Hi).
  destruct (update_applied des o d u d' Hrun) as (a1 & d1 & Hg & Ha1 & ->).
  destruct (grows_old _ _ Hg _ _ Ha) as (a2 & Ha2 & Hid & _). rewrite Ha1 in Ha2. injection Ha2 as <-.
  exists des, a, dyn, d1, a1. by split_and!.
Qed.

(** One action, seen from an asset: only an update by its issuer touches what the issuer
    controls, within the permissions. *)
Lemma run_asset act d u d' i a : fresh d → run act d = Ok (u, d') → assets d !! i = Some a →
  ∃ a', assets d' !! i = Some a' ∧ identity a' = identity a ∧
    (controls a' = controls a ∨ ∃ o dyn, act = do_update o ∧ asset_to_update o = i ∧ update_issuer o = issuer a ∧
       dynamics d !! dynamic_asset_data_id a = Some dyn ∧
       (current_supply dyn ≠ 0 → beyond (issuer_permissions (common_options a')) (issuer_permissions (common_options a)) = false) ∧
       beyond (Z.lxor (flags (common_options a')) (flags (common_options a))) (issuer_permissions (common_options a)) = false) ∧
    fresh d'.
Proof.
  intros Hf Hrun Ha. assert ((∃ o, act = do_update o) ∨ ∀ o, act ≠ do_update o) as [[o ->]|Hno] by (destruct act; eauto); cycle 1.
  - pose proof (run_grows act d u d' Hno Hf Hrun) as Hg.
    destruct (grows_old _ _ Hg i a Ha) as (a' & ? & ? & ?). exists a'. split_and!; [done|done|by left|by eapply grows_fresh].
  - destruct (update_run o d u d' Hrun) as (_ & des & b & dyn & d1 & b1 & Hb & Hdyn & Hp & Hfl & Hi & Hg & Hb1 & Hid & ->).
    assert (fresh (set_assets (<[asset_to_update o := update_object des o b1]> (assets d1)) (next_asset d1) d1)) as Hf'.
    { intros j [c Hc]. cbn in *. pose proof (grows_fresh _ _ Hg Hf) as Hf1. destruct (decide (j = asset_to_update o)) as [->|].
      - apply Hf1. by eexists.
      - rewrite lookup_insert_ne in Hc by done. apply Hf1. by eexists. }
    destruct (decide (i = asset_to_update o)) as [->|Hne].
    + rewrite Ha in Hb. injection Hb as <-. eexists. cbn. rewrite lookup_insert_eq. split; [done|]. split; [exact Hid|].
      split; [|done]. right. exists o, dyn. by split_and!.
    + destruct (grows_old _ _ Hg i a Ha) as (a' & ? & ? & ?). exists a'. cbn. rewrite lookup_insert_ne by done. split_and!; [done|done|by left|done].
Qed.

(** C25: Only the issuer changes what is the issuer's to decide, the permissions, the flags, the
    greatest supply and who the issuer is, and only by an update of the asset whose changed
    flags were permitted; the symbol, the precision and the data objects never change. *)
Theorem only_the_issuer_decides act d u d' i a :
  fresh d → run act d = Ok (u, d') → assets d !! i = Some a →
  ∃ a', assets d' !! i = Some a' ∧ identity a' = identity a ∧
    (controls a' = controls a ∨
     ∃ o, act = do_update o ∧ asset_to_update o = i ∧ update_issuer o = issuer a ∧
       ∀ k, Z.testbit (flags (common_options a')) k ≠ Z.testbit (flags (common_options a)) k →
            Z.testbit (issuer_permissions (common_options a)) k = true).
Proof.
  intros Hf Hrun Ha. destruct (run_asset act d u d' i a Hf Hrun Ha) as (a' & Ha' & Hid & Hc & _). exists a'. split_and!; [done..|].
  destruct Hc as [|(o & dyn & -> & ? & ? & _ & _ & Hfl)]; [by left|right]. exists o. split_and!; [done..|].
  intros k Hk. apply (beyond_bits _ _ k Hfl). rewrite Z.lxor_spec.
  by destruct (Z.testbit (flags (common_options a')) k), (Z.testbit (flags (common_options a)) k).
Qed.

(** Actions during which some of the asset is in circulation. *)
Inductive circulating (i : Z) : database → database → Prop :=
  | circulating_refl d : circulating i d d
  | circulating_step d act u d1 d2 a dyn :
      assets d !! i = Some a → dynamics d !! dynamic_asset_data_id a = Some dyn → current_supply dyn ≠ 0 →
      run act d = Ok (u, d1) → circulating i d1 d2 → circulating i d d2.

(** C16: As long as some of an asset is in circulation a permission its issuer has given up stays
    given up, whoever the issuer becomes, and the flag of that permission stays as it is. *)
Theorem revoked_permissions_stay i d d' a k :
  fresh d → circulating i d d' → assets d !! i = Some a → Z.testbit (issuer_permissions (common_options a)) k = false →
  ∃ a', assets d' !! i = Some a' ∧ Z.testbit (issuer_permissions (common_options a')) k = false ∧
    Z.testbit (flags (common_options a')) k = Z.testbit (flags (common_options a)) k.
Proof.
  intros Hf Hc. revert a Hf. induction Hc as [d|d act u d1 d2 b dyn Hb Hdyn Hs Hrun _ IH]; intros a Hf Ha Hk; [by exists a|].
  destruct (run_asset act d u d1 i a Hf Hrun Ha) as (a1 & Ha1 & _ & Hcase & Hf1). rewrite Ha in Hb. injection Hb as <-.
  assert (Z.testbit (issuer_permissions (common_options a1)) k = false ∧
    Z.testbit (flags (common_options a1)) k = Z.testbit (flags (common_options a)) k) as [P1 F1].
  { destruct Hcase as [Hc|(o & dyn' & _ & _ & _ & Hd' & Hp & Hfl)].
    - unfold controls in Hc. injection Hc as _ -> -> _. done.
    - rewrite Hdyn in Hd'. injection Hd' as <-. specialize (Hp Hs). split.
      + apply not_true_is_false. intros Ht. pose proof (beyond_bits _ _ k Hp Ht). congruence.
      + assert (Z.testbit (Z.lxor (flags (common_options a1)) (flags (common_options a))) k = false) as Hx
          by (apply not_true_is_false; intros Ht; pose proof (beyond_bits _ _ k Hfl Ht); congruence).
        rewrite Z.lxor_spec in Hx.
        by destruct (Z.testbit (flags (common_options a1)) k), (Z.testbit (flags (common_options a)) k). }
  destruct (IH a1 Hf1 Ha1 P1) as (a2 & ? & ? & ?). exists a2. split_and!; congruence.
Qed.
End Steps.

(** * The registry stays valid *)

#[local] Opaque modify_asset modify_bitasset.

Section Valid.
Context {U : Type} `{MultiprecisionLaws U} {Q : Type} `{RationalLaws Q} `{SelectionLaws} `{MarketLaws}.
Context (parse_description : string → result (string * string)).

(** A feed is either that of a producer who has published nothing yet, or valid. *)
Definition data_ok (b : asset_bitasset_data_object) : Prop :=
  bitasset_options_validate (options b) = Ok () ∧ map_Forall (λ _ (e : Z * price_feed), e.1 = 0 ∨ feed_ok e.2) (feeds b).

Record registry_ok (d : database) : Prop := mk_registry_ok {
  ok_fresh : fresh d;
  ok_next n : is_Some (bitassets d !! n) → n < next_bitasset d;
  ok_symbol i a : assets d !! i = Some a → is_valid_symbol (symbol a) = true;
  ok_unique i j a b : assets d !! i = Some a → assets d !! j = Some b → symbol a = symbol b → i = j;
  ok_link i a n : assets d !! i = Some a → bitasset_data_id a = Some n → ∃ b, bitassets d !! n = Some b ∧ bitasset_asset b = i;
  ok_data n b : bitassets d !! n = Some b → data_ok b
}.

Definition stays_ok (d d' : database) : Prop := registry_ok d → registry_ok d'.
#[export] Instance stays_ok_preorder : PreOrder stays_ok.
Proof. split; unfold stays_ok; [intros d; auto|intros d1 d2 d3; auto]. Qed.

(** The same assets and data of the same view. *)
Lemma same_view_ok d d' : assets d' = assets d → next_asset d' = next_asset d → next_bitasset d' = next_bitasset d →
  data_view <$> bitassets d' = data_view <$> bitassets d → stays_ok d d'.
Proof.
  intros Ea En Eb Ev [F N S Un L D].
  assert (∀ n b', bitassets d' !! n = Some b' → ∃ b, bitassets d !! n = Some b ∧ data_view b' = data_view b) as Hback.
  { intros n b' Hb'. pose proof (lookup_fmap data_view (bitassets d') n) as L1. rewrite Ev, lookup_fmap, Hb' in L1.
    destruct (bitassets d !! n) as [b|]; [|done]. apply (inj Some) in L1. by exists b. }
  split; unfold fresh; rewrite ?Ea, ?En, ?Eb; [exact F| |exact S|exact Un| |].
  - intros n [b' Hb']. destruct (Hback n b' Hb') as (b & Hb & _). apply N. by eexists.
  - intros i a n Ha Hn. destruct (L i a n Ha Hn) as (b & Hb & Hi). pose proof (lookup_fmap data_view (bitassets d') n) as L1.
    rewrite Ev, lookup_fmap, Hb in L1. destruct (bitassets d' !! n) as [b'|] eqn:Hb'; [|done]. injection L1 as L1 _ _ _ _. exists b'. split; congruence.
  - intros n b' Hb'. destruct (Hback n b' Hb') as (b & Hb & Hv). injection Hv as _ Ho Hfs _ _. unfold data_ok. rewrite Ho, Hfs. by eapply D.
Qed.

Lemma same_ok {A} (m : M database A) : same registry_of m → moves stays_ok m.
Proof. intros Hm d a d' Hrun. apply Hm in Hrun. unfold registry_of in Hrun. injection Hrun as ? ? ? _ ? _ _. by apply same_view_ok. Qed.

Lemma cancel_ok i : moves stays_ok (cancel_settle_orders i).
Proof. apply same_ok, cancel_keeps. Qed.
Lemma revive_ok i : moves stays_ok (revive_bitasset i).
Proof. apply same_ok, revive_keeps. Qed.
Lemma check_ok i : moves stays_ok (check_call_orders i).
Proof. apply same_ok, check_keeps. Qed.

Lemma modify_gateway_ok n f : moves stays_ok (modify_gateway n f).
Proof. unfold modify_gateway. repeat moves_step. intros d u d' [= _ <-]. by apply same_view_ok. Qed.
#[local] Hint Resolve cancel_ok revive_ok check_ok modify_gateway_ok : zos.
#[local] Transparent modify_asset modify_bitasset.

Lemma modify_asset_ok i f : (∀ a, identity (f a) = identity a) → moves stays_ok (modify_asset i f).
Proof.
  intros Hf d u d' Hrun. unfold modify_asset, get_asset, found in Hrun. unfold mbind, M_bind, get_st in Hrun.
  destruct (assets d !! i) as [a|] eqn:Ha; [|done]. injection Hrun as _ <-. intros [F N S Un L D].
  assert (∀ j b, <[i := f a]> (assets d) !! j = Some b → ∃ c, assets d !! j = Some c ∧ identity b = identity c) as Hback.
  { intros j b. destruct (decide (j = i)) as [->|]; [rewrite lookup_insert_eq; intros [= <-]; by exists a|].
    rewrite lookup_insert_ne by done. by exists b. }
  split; cbn; [|done| | | |done].
  - intros j [b Hb]. destruct (Hback j b Hb) as (c & Hc & _). apply F. by eexists.
  - intros j b Hb. destruct (Hback j b Hb) as (c & Hc & [= -> _ _ _]). by eapply S.
  - intros j k b b' Hb Hb'. destruct (Hback j b Hb) as (c & Hc & [= -> _ _ _]), (Hback k b' Hb') as (c' & Hc' & [= -> _ _ _]). by apply Un.
  - intros j b n Hb. destruct (Hback j b Hb) as (c & Hc & [= _ _ _ ->]). by apply L.
Qed.

Lemma modify_bitasset_ok n f :
  (∀ b b', f b = Ok b' → data_ok b → data_ok b' ∧ bitasset_asset b' = bitasset_asset b) → moves stays_ok (modify_bitasset n f).
Proof.
  intros Hf d u d' Hrun. unfold modify_bitasset, get_bitasset, found in Hrun. unfold mbind, M_bind, get_st, lift in Hrun.
  destruct (bitassets d !! n) as [b|] eqn:Hb; [|done]. cbn in Hrun. destruct (f b) as [b'|] eqn:Hb'; [|done]. injection Hrun as _ <-.
  intros [F N S Un L D]. destruct (Hf b b' Hb' (D n b Hb)) as [Hok Hi]. split; cbn; [done| |done|done| |].
  - intros k [c Hc]. destruct (decide (k = n)) as [->|]; [apply N; by eexists|]. rewrite lookup_insert_ne in Hc by done. apply N. by eexists.
  - intros i a k Ha Hk. destruct (L i a k Ha Hk) as (c & Hc & Hci). destruct (decide (k = n)) as [->|].
    + rewrite Hb in Hc. injection Hc as <-. exists b'. rewrite lookup_insert_eq. split; [done|congruence].
    + exists c. by rewrite lookup_insert_ne.
  - intros k c Hc. destruct (decide (k = n)) as [->|]; [rewrite lookup_insert_eq in Hc; by injection Hc as <-|].
    rewrite lookup_insert_ne in Hc by done. by eapply D.
Qed.
#[local] Opaque modify_asset modify_bitasset.

Lemma update_median_ok now b b' : update_median_feeds now b = Ok b' → data_ok b → data_ok b' ∧ bitasset_asset b' = bitasset_asset b.
Proof. intros Hrun. destruct (update_median_frame now b b' Hrun) as (Hf & Ho & Hi & _). unfold data_ok. by rewrite Hf, Ho. Qed.

(** What a feed that is published has passed; the amounts are of 64 bits. *)
Definition feed_typed (f : price_feed) : Prop :=
  int64 (amount (base (settlement_price f))) ∧ int64 (amount (quote (settlement_price f))) ∧
  int64 (amount (base (core_exchange_rate f))) ∧ int64 (amount (quote (core_exchange_rate f))).

Lemma price_validate_price_ok p : int64 (amount (base p)) → int64 (amount (quote p)) → price_validate p = Ok () → price_ok p.
Proof.
  intros Hb Hq. unfold price_validate.
  intros (? & P1%FC_ASSERT_Ok & (? & P2%FC_ASSERT_Ok & P3%FC_ASSERT_Ok)%bind_Ok)%bind_Ok.
  apply negb_true_iff, Z.eqb_neq in P3. unfold price_ok. split_and!; done || lia.
Qed.

Lemma publish_valid o : feed_typed (published_feed o) → asset_publish_feed_validate o = Ok () → feed_ok (published_feed o).
Proof.
  intros (T1 & T2 & T3 & T4). unfold asset_publish_feed_validate. intros (? & _ & (? & Hf & (? & Hcer & Hrun)%bind_Ok)%bind_Ok)%bind_Ok.
  apply bind_Ok in Hrun as (? & _ & (? & _ & (? & _ & (? & _ & (? & Hnull%FC_ASSERT_Ok%negb_true_iff & _)%bind_Ok)%bind_Ok)%bind_Ok)%bind_Ok).
  rewrite Hnull in Hcer. destruct x1. unfold price_feed_validate in Hf.
  apply bind_Ok in Hf as (? & _ & ([] & Hsp & (? & M1%FC_ASSERT_Ok & (? & M2%FC_ASSERT_Ok & (? & M3%FC_ASSERT_Ok & (? & M4%FC_ASSERT_Ok & _)%bind_Ok)%bind_Ok)%bind_Ok)%bind_Ok)%bind_Ok).
  unfold GRAPHENE_MIN_COLLATERAL_RATIO, GRAPHENE_MAX_COLLATERAL_RATIO in *.
  split; [by apply price_validate_price_ok|]. split; [by apply price_validate_price_ok|]. unfold uint. lia.
Qed.

(** [modify] with the median of changed data. *)
Lemma modify_median_ok n now g :
  (∀ b, data_ok b → data_ok (g b) ∧ bitasset_asset (g b) = bitasset_asset b) →
  moves stays_ok (modify_bitasset n (λ b, update_median_feeds now (g b))).
Proof.
  intros Hg. apply modify_bitasset_ok. intros b b' Hrun Hb. destruct (Hg b Hb) as [Hgb <-]. by eapply update_median_ok.
Qed.

Lemma modify_flags_ok n f : moves stays_ok (modify_bitasset n (λ b, Ok (set_cer_updated (f b).1 (f b).2 b))).
Proof. apply modify_bitasset_ok. by intros b b' [= <-]. Qed.

Lemma property_ok o : moves stays_ok (run parse_description (do_property o)).
Proof. cbn. unfold asset_property_evaluate. repeat moves_step. by apply modify_asset_ok. Qed.

Lemma set_rate_ok i p : moves stays_ok (modify_asset i (set_exchange_rate p)).
Proof. by apply modify_asset_ok. Qed.
#[local] Hint Resolve set_rate_ok : zos.

Lemma update_ok o : moves stays_ok (run parse_description (do_update o)).
Proof.
  cbn. unfold update_evaluate, update_apply. repeat moves_step.
  all: first [by apply modify_asset_ok|apply (modify_flags_ok _ (λ b, (true, feed_cer_updated b)))].
Qed.

Lemma update_bitasset_ok o : moves stays_ok (run parse_description (do_update_bitasset o)).
Proof.
  intros d u d'. cbn [run]. intros ([] & ? & [Hv ->]%lift_Ok & Hrun)%M_bind_Ok. revert Hrun. apply moves_intro.
  apply bind_Ok in Hv as (? & _ & Hv).
  unfold update_bitasset_evaluate, update_bitasset_apply. repeat moves_step.
  apply modify_bitasset_ok. intros b b'. cbv zeta. intros Hrun [_ Hfs].
  assert (data_ok (set_options (new_bitasset_options o) b)) as Hok by (by split). revert Hrun. case_match; [by intros [= <-]|].
  intros Hrun. by destruct (update_median_ok _ _ _ Hrun Hok).
Qed.

Lemma update_gateway_ok o : moves stays_ok (run parse_description (do_update_gateway o)).
Proof.
  cbn. unfold update_gateway_evaluate, update_gateway_apply, gateway_id_of. repeat moves_step; [by apply modify_asset_ok|].
  intros d u d' [= _ <-]. by apply same_view_ok.
Qed.

Lemma new_feeds_ok producers fs :
  map_Forall (λ _ (e : Z * price_feed), e.1 = 0 ∨ feed_ok e.2) fs →
  map_Forall (λ _ (e : Z * price_feed), e.1 = 0 ∨ feed_ok e.2) (new_feeds producers fs).
Proof.
  intros Hfs i e. unfold new_feeds. intros [Hi|[_ Hi]]%lookup_union_Some_raw.
  - apply map_lookup_filter_Some in Hi as [Hi _]. by eapply Hfs.
  - apply lookup_gset_to_gmap_Some in Hi as [_ <-]. by left.
Qed.

Lemma update_producers_ok o : moves stays_ok (run parse_description (do_update_producers o)).
Proof.
  cbn. unfold producers_evaluate, producers_apply. repeat moves_step.
  apply modify_median_ok. intros b [Ho Hfs]. split; [|done]. split; [done|]. by apply new_feeds_ok.
Qed.

Lemma publish_ok o : feed_typed (published_feed o) → moves stays_ok (run parse_description (do_publish o)).
Proof.
  intros Ht d u d'. cbn [run]. intros ([] & ? & [Hv ->]%lift_Ok & Hrun)%M_bind_Ok. revert Hrun. apply moves_intro.
  unfold publish_evaluate, publish_apply, may_publish. repeat moves_step.
  apply modify_median_ok. intros b [Ho Hfs]. split; [|done]. split; [done|]. cbn.
  apply map_Forall_insert_2; [right; by apply publish_valid|done].
Qed.

Lemma update_expired_feeds_ok : moves stays_ok update_expired_feeds.
Proof.
  unfold update_expired_feeds, update_expired_feed. repeat moves_step.
  apply modify_bitasset_ok. intros b b'. destruct (update_median_feeds _ b) as [b1|] eqn:Hrun; [|done]. intros [= <-] Hb.
  destruct (update_median_ok _ _ _ Hrun Hb). by case_match.
Qed.

Lemma update_core_exchange_rates_ok fuel : moves stays_ok (update_core_exchange_rates fuel).
Proof. induction fuel; cbn; unfold update_core_exchange_rate; repeat moves_step. all: apply (modify_flags_ok _ (λ _, (false, false))). Qed.

(** What the creation of an asset has checked. *)
Lemma create_checked o des d d' : create_evaluate parse_description o d = Ok (des, d') →
  map_Forall (λ _ a, symbol a ≠ create_symbol o) (assets d).
Proof.
  unfold create_evaluate. intros Hrun. apply M_bind_Ok in Hrun as (? & ? & [= <- <-] & Hrun). cbv zeta in Hrun.
  do 7 read_step Hrun. clear Hrun. by apply assert_st_Ok in Hstep5 as [Hb%bool_decide_eq_true _].
Qed.

Lemma create_validated o : asset_create_validate o = Ok () →
  is_valid_symbol (create_symbol o) = true ∧
  match create_bitasset_opts o with Some b => bitasset_options_validate b = Ok () | None => True end.
Proof.
  unfold asset_create_validate. intros (? & _ & (? & Hs%FC_ASSERT_Ok & Hrun)%bind_Ok)%bind_Ok. split; [done|].
  apply bind_Ok in Hrun as (? & _ & (? & _ & (? & _ & (? & _ & ([] & Hb & _)%bind_Ok)%bind_Ok)%bind_Ok)%bind_Ok). by destruct (create_bitasset_opts o).
Qed.

Lemma create_ok fee o : moves stays_ok (run parse_description (do_create fee o)).
Proof.
  intros d u d'. cbn [run]. intros ([] & ? & [Hv ->]%lift_Ok & Hrun)%M_bind_Ok.
  apply M_bind_Ok in Hrun as (des & d1 & He & Hrun). pose proof (create_evaluate_reads _ o _ _ _ He) as <-.
  pose proof (create_checked _ _ _ _ He) as Hnew. destruct (create_validated o Hv) as [Hsym Hbit].
  apply M_bind_Ok in Hrun as ([pool rest] & ? & [_ ->]%lift_Ok & Hrun).
  apply M_bind_Ok in Hrun as (i & d2 & (a & Ea & En & _ & Hsy & Hcase)%create_applied & [= _ <-]). intros [F N S Un L D].
  assert (∀ j b, assets d2 !! j = Some b → (j = next_asset d ∧ b = a) ∨ (j < next_asset d ∧ assets d !! j = Some b)) as Hold.
  { intros j b. rewrite Ea. destruct (decide (j = next_asset d)) as [->|]; [rewrite lookup_insert_eq; intros [= <-]; by left|].
    rewrite lookup_insert_ne by done. intros Hb. right. split; [|done]. apply F. by eexists. }
  assert (∀ n b, bitassets d !! n = Some b → bitassets d2 !! n = Some b) as Hkeep.
  { intros n b Hb. destruct Hcase as [(_ & -> & _)|(b' & _ & _ & _ & ->)]; [done|].
    rewrite lookup_insert_ne; [done|]. intros <-. specialize (N _ (mk_is_Some _ _ Hb)). lia. }
  split.
  - intros j [b [[-> _]|[? _]]%Hold]; lia.
  - intros n [b Hb]. destruct Hcase as [(_ & Em & ->)|(b' & _ & _ & -> & Em)]; rewrite Em in Hb; [apply N; by eexists|].
    destruct (decide (n = next_bitasset d)) as [->|]; [lia|]. rewrite lookup_insert_ne in Hb by done.
    specialize (N n (mk_is_Some _ _ Hb)). lia.
  - intros j b [[-> ->]|[_ Hb]]%Hold; [by rewrite Hsy|by eapply S].
  - intros j k b c [[-> ->]|[_ Hb]]%Hold [[-> ->]|[_ Hc]]%Hold Hbc; [done| | |by eapply Un].
    + exfalso. eapply (Hnew k c Hc). congruence.
    + exfalso. eapply (Hnew j b Hb). congruence.
  - intros j b n [[-> ->]|[_ Hb]]%Hold Hn.
    + destruct Hcase as [(Hbi & _)|(b' & _ & Hbi & _ & Em)]; rewrite Hbi in Hn; [done|]. injection Hn as <-.
      eexists. rewrite Em, lookup_insert_eq. by split.
    + destruct (L j b n Hb Hn) as (c & Hc & ?). exists c. split; [by apply Hkeep|done].
  - intros n b Hb. destruct Hcase as [(_ & Em & _)|(b' & Hopt & _ & _ & Em)]; rewrite Em in Hb; [by eapply D|].
    destruct (decide (n = next_bitasset d)) as [->|]; [|rewrite lookup_insert_ne in Hb by done; by eapply D].
    rewrite lookup_insert_eq in Hb. injection Hb as <-. rewrite Hopt in Hbit. split; [done|]. by apply map_Forall_empty.
Qed.

(** C34: The registry of assets stays valid under every operation and every block: identifiers
    are those given out, symbols are well formed and no two assets share one, the data of a
    market-issued asset is its own, its options are valid and so is every published feed. *)
Theorem registry_stays_valid act d u d' :
  match act with do_publish o => feed_typed (published_feed o) | _ => True end →
  registry_ok d → run parse_description act d = Ok (u, d') → registry_ok d'.
Proof.
  intros Ht Hok Hrun. revert Hok. change (stays_ok d d'). destruct act as [o|fee o|o|o|o|o|o| |m].
  - eapply property_ok, Hrun.
  - eapply create_ok, Hrun.
  - eapply update_ok, Hrun.
  - eapply update_bitasset_ok, Hrun.
  - eapply update_gateway_ok, Hrun.
  - eapply update_producers_ok, Hrun.
  - by eapply (publish_ok o).
  - cbn [run] in Hrun. apply M_bind_Ok in Hrun as (? & ? & [= <- <-] & (? & d1 & R1%update_expired_feeds_ok & R2%update_core_exchange_rates_ok)%M_bind_Ok).
    by transitivity d1.
  - injection Hrun as _ <-. by apply same_view_ok.
Qed.
End Valid.

(** * The updates of a block *)

#[local] Transparent modify_asset modify_bitasset.

Section BlockUpdates.
Context {U : Type} `{MultiprecisionLaws U} {Q : Type} `{RationalLaws Q} `{SelectionLaws} `{MarketLaws}.

Lemma cer_pending_elem d n : n ∈ cer_pending d ↔ ∃ b, bitassets d !! n = Some b ∧ need_to_update_cer b = true.
Proof.
  unfold cer_pending. rewrite list_elem_of_In, filter_In, <- list_elem_of_In, ordered_elem, elem_of_dom. split.
  - intros [[b Hb] Hn]. exists b. rewrite Hb in Hn. done.
  - intros (b & Hb & Hn). rewrite Hb. split; [by eexists|done].
Qed.

Lemma cer_pending_NoDup d : NoDup (cer_pending d).
Proof. unfold cer_pending. apply NoDup_ListNoDup, List.NoDup_filter, NoDup_ListNoDup, ordered_NoDup. Qed.

Lemma cer_pending_bound d : (length (cer_pending d) ≤ size (bitassets d))%nat.
Proof.
  rewrite <- size_dom, <- (length_fmap id), list_fmap_id, <- (size_list_to_set (C := gset Z)) by apply cer_pending_NoDup.
  apply subseteq_size. intros n Hn%elem_of_list_to_set%cer_pending_elem. apply elem_of_dom. destruct Hn as (b & -> & _). by eexists.
Qed.

(** One turn: it throws when an object is missing, or one asset less is pending. *)
Lemma update_rate_turn n d : n ∈ cer_pending d →
  match update_core_exchange_rate n d with
  | Ok (_, d') => cer_pending d ≡ₚ n :: cer_pending d'
  | Throw e => e = assert_exception
  end.
Proof.
  intros Hn. pose proof Hn as (b & Hb & _)%cer_pending_elem.
  assert (∀ d1, bitassets d1 = bitassets d →
    cer_pending d ≡ₚ n :: cer_pending (set_bitassets (<[n := set_cer_updated false false b]> (bitassets d1)) (next_bitasset d1) d1)) as Hturn.
  { intros d1 E1. apply NoDup_Permutation; [apply cer_pending_NoDup| |].
    - constructor; [|apply cer_pending_NoDup]. rewrite cer_pending_elem. cbn. rewrite lookup_insert_eq. by intros (? & [= <-] & ?).
    - intros k. rewrite elem_of_cons, !cer_pending_elem. cbn. rewrite E1. destruct (decide (k = n)) as [->|Hk].
      + split; [by left|]. intros _. by apply cer_pending_elem.
      + rewrite lookup_insert_ne by done. split; [by right|]. by intros [?|?]. }
  unfold update_core_exchange_rate, get_bitasset, get_asset, modify_asset, modify_bitasset, get_bitasset, get_asset, found.
  unfold mbind, M_bind, get_st, modify_st, lift. rewrite Hb. cbn.
  destruct (assets d !! bitasset_asset b) as [a|] eqn:Ha; [|done]. cbn. destruct (negb _); cbn; rewrite ?Ha; cbn; rewrite Hb; cbn; first [exact (Hturn d eq_refl)|exact (Hturn (set_assets _ _ d) eq_refl)].
Qed.

(** C40: The loop that takes over the exchange rates ends: as many turns as there are market-issued
    assets are enough, whatever their data, and after it no rate is waiting to be taken over. *)
Theorem exchange_rates_settle d fuel : (size (bitassets d) ≤ fuel)%nat →
  match update_core_exchange_rates fuel d with
  | Ok (_, d') => cer_pending d' = []
  | Throw e => e = assert_exception
  end.
Proof.
  intros Hs. assert (length (cer_pending d) ≤ fuel)%nat as Hf by (pose proof (cer_pending_bound d); lia). clear Hs.
  revert d Hf. induction fuel as [|fuel IH]; intros d Hf; cbn; unfold mbind, M_bind, get_st.
  - destruct (cer_pending d) eqn:Hc; cbn in Hf |- *; [done|lia].
  - destruct (last (cer_pending d)) as [n|] eqn:Hl; [|by apply last_None in Hl].
    assert (n ∈ cer_pending d) as Hn by (apply last_Some in Hl as [l ->]; set_solver).
    pose proof (update_rate_turn n d Hn) as Hturn. destruct (update_core_exchange_rate n d) as [[[] d1]|e]; [|done].
    apply IH. apply Permutation_length in Hturn. cbn in Hturn. lia.
Qed.

(** ** No feed is stale after the updates of a block *)

(** The lifetime of the feeds counts, and their end is before the clock overflows. *)
Definition lifetime_fits (now : Z) (o : bitasset_options) : Prop :=
  0 ≤ now ∧ 0 < feed_lifetime_sec o ∧ now + feed_lifetime_sec o < 2 ^ 32.

(** Feeds are renewed, when they have expired, from those published that have not, or left
    as they were. *)
Definition renews (d d' : database) : Prop :=
  head_time d' = head_time d ∧
  ∀ n b', bitassets d' !! n = Some b' → ∃ b, bitassets d !! n = Some b ∧ options b' = options b ∧ feeds b' = feeds b ∧
    (current_feed_publication_time b' = current_feed_publication_time b ∧ current_feed b' = current_feed b ∨
     feed_is_expired (head_time d) b = true ∧
     rests_on (head_time d) (options b) (feeds b) (current_feed b') ∧
     (lifetime_fits (head_time d) (options b) → feed_is_expired (head_time d) b' = false)).

#[export] Instance renews_preorder : PreOrder renews.
Proof.
  split.
  - intros d. split; [done|]. intros n b Hb. exists b. split_and!; [done..|by left].
  - intros d1 d2 d3 [T1 R1] [T2 R2]. split; [congruence|]. intros n b3 Hb3. destruct (R2 n b3 Hb3) as (b2 & Hb2 & O2 & F2 & C2).
    destruct (R1 n b2 Hb2) as (b1 & Hb1 & O1 & F1 & C1). exists b1. split_and!; [done|congruence|congruence|].
    rewrite T1, O1, F1 in C2. destruct C1 as [[P1 E1]|(X1 & S1 & L1)], C2 as [[P2 E2]|(X2 & S2 & L2)].
    + left. split; congruence.
    + right. split_and!; [|done..]. revert X2. unfold feed_is_expired, feed_expiration_time. by rewrite P1, O1.
    + right. split_and!; [done|by rewrite E2|]. intros Hl. specialize (L1 Hl).
      revert L1. unfold feed_is_expired, feed_expiration_time. by rewrite P2, O2.
    + right. by split_and!.
Qed.

Lemma same_view_renews d d' : head_time d' = head_time d → data_view <$> bitassets d' = data_view <$> bitassets d → renews d d'.
Proof.
  intros Ht Hv. split; [done|]. intros n b' Hb'. pose proof (lookup_fmap data_view (bitassets d') n) as L1. rewrite Hv, lookup_fmap, Hb' in L1.
  destruct (bitassets d !! n) as [b|]; [|done]. apply (inj Some) in L1. injection L1 as _ Ho Hf Hc Hp. exists b. split_and!; [done..|by left].
Qed.

Lemma market_renews {A} (m : M database A) : same registry_of m → moves renews m.
Proof. intros Hm d a d' Hrun. apply Hm in Hrun. unfold registry_of in Hrun. injection Hrun as _ _ _ ? ? _ _. by apply same_view_renews. Qed.

Lemma check_renews i : moves renews (check_call_orders i).
Proof. apply market_renews, check_keeps. Qed.
Lemma modify_asset_renews i f : moves renews (modify_asset i f).
Proof. unfold modify_asset. repeat moves_step. intros d u d' [= _ <-]. by apply same_view_renews. Qed.
#[local] Hint Resolve check_renews modify_asset_renews : zos.

(** The current feed is what the published feeds support now. *)
Definition supported (now : Z) (b : asset_bitasset_data_object) : Prop := rests_on now (options b) (feeds b) (current_feed b).

Lemma renews_supported d d' n b' : renews d d' → bitassets d' !! n = Some b' →
  (∀ b, bitassets d !! n = Some b → supported (head_time d) b) → supported (head_time d') b'.
Proof.
  intros [T R] Hb' Hd. destruct (R n b' Hb') as (b & Hb & O & F & C). unfold supported in *. rewrite T, O, F.
  destruct C as [[_ ->]|(_ & Hs & _)]; [by apply Hd|done].
Qed.

(** One turn: after it the feed of the asset is not expired, and is supported if it was. *)
Lemma expired_turn i d u d' a n : update_expired_feed i d = Ok (u, d') → assets d !! i = Some a → bitasset_data_id a = Some n →
  renews d d' ∧ ∀ b', bitassets d' !! n = Some b' →
    (lifetime_fits (head_time d) (options b') → feed_is_expired (head_time d) b' = false) ∧
    ∀ b, bitassets d !! n = Some b → feed_is_expired (head_time d) b = true → supported (head_time d) b'.
Proof.
  unfold update_expired_feed. intros Hrun Ha Hn. apply M_bind_Ok in Hrun as (? & ? & [= <- <-] & Hrun). do 3 read_step Hrun.
  unfold get_asset, found, mbind, M_bind, get_st in Hstep. rewrite Ha in Hstep. injection Hstep as <-.
  unfold bitasset_data in Hstep1. rewrite Hn in Hstep1. rewrite Hn in Hrun.
  unfold get_bitasset, found, mbind, M_bind, get_st in Hstep1. destruct (bitassets d !! n) as [b|] eqn:Hb; [|done]. injection Hstep1 as <-.
  cbv zeta in Hrun. change (default 0 (Some n)) with n in Hrun. destruct (feed_is_expired (head_time d) b) eqn:Hex; cycle 1.
  { injection Hrun as _ <-. split; [reflexivity|]. intros b' Hb'. rewrite Hb in Hb'. injection Hb' as <-. split; [done|].
    intros b0 Hb0. congruence. }
  apply M_bind_Ok in Hrun as (cer & d1 & [Hcer ->]%lift_Ok & Hrun). destruct (update_median_feeds (head_time d) b) as [b1|] eqn:Hm; [|done].
  apply M_bind_Ok in Hrun as (u1 & d1 & Hmod & Hrun). unfold modify_bitasset, get_bitasset, found, mbind, M_bind, get_st, lift, modify_st in Hmod.
  rewrite Hb in Hmod. cbn -[update_median_feeds] in Hmod. rewrite Hm in Hmod. injection Hmod as _ <-.
  destruct (update_median_frame _ _ _ Hm) as (Hf & Ho & _). pose proof (update_median_rests _ _ _ Hm) as Hrest.
  set (bc := if need_to_update_cer b1 then _ else _) in *.
  assert (options bc = options b ∧ feeds bc = feeds b ∧ current_feed bc = current_feed b1 ∧
    current_feed_publication_time bc = current_feed_publication_time b1) as (Obc & Fbc & Cbc & Pbc)
    by (unfold bc; destruct (need_to_update_cer b1); done).
  assert (lifetime_fits (head_time d) (options b) → feed_is_expired (head_time d) bc = false) as Hlive.
  { intros (T1 & T2 & T3). pose proof (updated_unexpired _ _ _ Hm T1 T2 T3) as Hu. unfold feed_is_expired, feed_expiration_time in *. by rewrite Pbc, Obc, <- Ho. }
  assert (renews d (set_bitassets (<[n := bc]> (bitassets d)) (next_bitasset d) d)) as Hr1.
  { split; [done|]. cbn. intros k b' Hb'. destruct (decide (k = n)) as [->|].
    - rewrite lookup_insert_eq in Hb'. injection Hb' as <-. exists b. split_and!; [done..|]. right. by rewrite Cbc.
    - rewrite lookup_insert_ne in Hb' by done. exists b'. split_and!; [done..|by left]. }
  set (d1 := set_bitassets _ _ d) in *.
  assert (renews d1 d') as Hr2 by (revert Hrun; apply moves_intro; repeat moves_step).
  split; [by transitivity d1|]. intros b' Hb'. split.
  - intros Hfit. destruct Hr2 as [_ Hr2]. destruct (Hr2 n b' Hb') as (b2 & Hb2 & Ho2 & _ & Hcase).
    unfold d1 in Hb2. cbn in Hb2. rewrite lookup_insert_eq in Hb2. injection Hb2 as <-. rewrite Ho2 in Hfit.
    destruct Hcase as [[Hp _]|(_ & _ & Hc)]; [|by apply Hc]. rewrite Obc in Hfit. specialize (Hlive Hfit).
    unfold feed_is_expired, feed_expiration_time in *. by rewrite Hp, Ho2.
  - intros _ _ _. pose proof (renews_supported _ _ _ _ Hr2 Hb') as Hs. rewrite (proj1 Hr2) in Hs. apply Hs.
    intros b2 Hb2. unfold d1 in Hb2. cbn in Hb2. rewrite lookup_insert_eq in Hb2. injection Hb2 as <-.
    unfold supported. rewrite Obc, Fbc, Cbc. exact Hrest.
Qed.

Lemma turn_runs i d u d' : update_expired_feed i d = Ok (u, d') → ∃ a n, assets d !! i = Some a ∧ bitasset_data_id a = Some n.
Proof.
  unfold update_expired_feed. intros Hrun. apply M_bind_Ok in Hrun as (? & ? & [= <- <-] & Hrun). do 3 read_step Hrun. clear Hrun.
  unfold get_asset, found, mbind, M_bind, get_st in Hstep. destruct (assets d !! i) as [a|]; [|done]. injection Hstep as <-.
  unfold bitasset_data in Hstep1. destruct (bitasset_data_id a) as [n|] eqn:Hn; [|done]. by exists a, n.
Qed.

Lemma turn_renews i : moves renews (update_expired_feed i).
Proof. intros d u d' Hrun. destruct (turn_runs i d u d' Hrun) as (a & n & Ha & Hn). by destruct (expired_turn i d u d' a n Hrun Ha Hn). Qed.

Lemma turn_grows i : moves grows (update_expired_feed i).
Proof.
  assert (∀ i, moves grows (check_call_orders i)) as Hck by (intros k; apply same_grows, check_keeps).
  assert (∀ k p, moves grows (modify_asset k (set_exchange_rate p))) as Hma by (intros; by apply modify_asset_grows).
  unfold update_expired_feed. repeat first [apply Hck|apply Hma|moves_step].
Qed.

Lemma market_issued_elem d i a : assets d !! i = Some a → is_market_issued i a = true → i ∈ market_issued d.
Proof.
  intros Ha Hi. unfold market_issued. apply list_elem_of_In, filter_In.
  rewrite <- list_elem_of_In, ordered_elem, elem_of_dom, Ha. split; [by eexists|done].
Qed.

(** The turns of a list with the asset [i] in it. *)
Lemma turns_renew l d u d' i a n b' : mapM_ update_expired_feed l d = Ok (u, d') → i ∈ l →
  assets d !! i = Some a → bitasset_data_id a = Some n → bitassets d' !! n = Some b' →
  (lifetime_fits (head_time d) (options b') → feed_is_expired (head_time d) b' = false) ∧
  ((∀ b, bitassets d !! n = Some b → feed_is_expired (head_time d) b = true ∨ supported (head_time d) b) →
   supported (head_time d) b').
Proof.
  revert d a. induction l as [|j l IH]; intros d a Hrun Hin Ha Hn Hb'; [by apply not_elem_of_nil in Hin|].
  cbn in Hrun. apply M_bind_Ok in Hrun as (u1 & d1 & R1 & Hrun).
  pose proof (turn_renews j _ _ _ R1) as Hr1. pose proof (proj1 Hr1) as T1. apply elem_of_cons in Hin as [<-|Hin].
  - destruct (expired_turn i d u1 d1 a n R1 Ha Hn) as [_ Hturn].
    assert (renews d1 d') as Hr2 by (revert Hrun; apply moves_intro, moves_mapM; [apply _|apply turn_renews]).
    pose proof (proj1 Hr2) as T2. destruct (proj2 Hr2 n b' Hb') as (b1 & Hb1 & Ho & _ & Hcase). destruct (Hturn b1 Hb1) as [Hlive Hsup].
    rewrite T1 in Hcase. split.
    + intros Hfit. destruct Hcase as [[Hp _]|(_ & _ & Hc)]; [|rewrite Ho in Hfit; by apply Hc].
      rewrite Ho in Hfit. specialize (Hlive Hfit). unfold feed_is_expired, feed_expiration_time in *. by rewrite Hp, Ho.
    + intros Hq. pose proof (renews_supported _ _ _ _ Hr2 Hb') as Hs. rewrite T2, T1 in Hs. apply Hs. intros b2 Hb2.
      assert (b2 = b1) as -> by congruence. destruct (proj2 Hr1 n b1 Hb1) as (b & Hb & O1 & F1 & C1).
      destruct (Hq b Hb) as [Hex|Hsb]; [by apply (Hsup b Hb)|]. unfold supported in *. rewrite O1, F1.
      destruct C1 as [[_ ->]|(_ & Hs1 & _)]; [done|exact Hs1].
  - destruct (grows_old _ _ (turn_grows j _ _ _ R1) i a Ha) as (a1 & Ha1 & Hid & _). unfold identity in Hid. injection Hid as _ _ _ Hbit.
    destruct (IH d1 a1) as [Hlive Hsup]; [done|done|done|congruence|done|]. rewrite T1 in Hlive, Hsup. split; [exact Hlive|].
    intros Hq. apply Hsup. intros b1 Hb1. destruct (proj2 Hr1 n b1 Hb1) as (b & Hb & O1 & F1 & C1).
    destruct C1 as [[P1 E1]|(_ & Hs1 & _)]; [|right; unfold supported; by rewrite O1, F1].
    destruct (Hq b Hb) as [Hex|Hsb]; [left|right; unfold supported in *; by rewrite O1, F1, E1].
    revert Hex. unfold feed_is_expired, feed_expiration_time. by rewrite P1, O1.
Qed.

(** C35: After the updates of a block no market-issued asset shows a stale price.  If its
    current feed had expired, the one it shows is what the published feeds that have not
    expired support: no price when they are too few, and otherwise one with every field in
    any range that most of them keep to.  If it had not expired it is shown as before.  And
    the end of the feed lies in the future, if its lifetime counts and the clock allows it. *)
Theorem no_stale_feed d u d' i a n b' : update_expired_feeds d = Ok (u, d') →
  assets d !! i = Some a → is_market_issued i a = true → bitasset_data_id a = Some n → bitassets d' !! n = Some b' →
  (∃ b, bitassets d !! n = Some b ∧ options b' = options b ∧ feeds b' = feeds b ∧
     if feed_is_expired (head_time d) b then rests_on (head_time d) (options b) (feeds b) (current_feed b')
     else current_feed b' = current_feed b) ∧
  (lifetime_fits (head_time d) (options b') → feed_is_expired (head_time d') b' = false).
Proof.
  unfold update_expired_feeds. intros Hrun Ha Hi Hn Hb'. apply M_bind_Ok in Hrun as (? & ? & [= <- <-] & Hrun).
  destruct (turns_renew _ d u d' i a n b' Hrun (market_issued_elem d i a Ha Hi) Ha Hn Hb') as [Hlive Hsup].
  assert (renews d d') as [T R] by (revert Hrun; apply moves_intro, moves_mapM; [apply _|apply turn_renews]).
  rewrite T. split; [|exact Hlive]. destruct (R n b' Hb') as (b & Hb & O & F & C). exists b. split_and!; [done..|].
  destruct (feed_is_expired (head_time d) b) eqn:Hex; [|by destruct C as [[_ ?]|[? _]]].
  rewrite <- O, <- F. apply Hsup. intros b0 Hb0. left. congruence.
Qed.
End BlockUpdates.

(** * What the choice of the feed producers leaves *)

Section Producers.
Context {U : Type} `{MultiprecisionLaws U} {Q : Type} `{RationalLaws Q} `{SelectionLaws} `{MarketLaws}.
Context (parse_description : string → result (string * string)).

Lemma new_feeds_lookup producers fs who :
  new_feeds producers fs !! who = if decide (who ∈ producers) then Some (default (0, null_feed) (fs !! who)) else None.
Proof.
  unfold new_feeds. rewrite lookup_union, lookup_gset_to_gmap, map_lookup_filter.
  destruct (decide (who ∈ producers)) as [Hin|Hin].
  - rewrite option_guard_True by done. destruct (fs !! who) as [e|]; cbn; [|done]. by rewrite option_guard_True.
  - rewrite option_guard_False by done. destruct (fs !! who) as [e|]; cbn; [|done]. by rewrite option_guard_False.
Qed.

(** C1: After the producers of an asset are chosen they are the ones that have feeds: those who
    were producers before keep theirs, as the operation documents, and the new ones have none yet. *)
Theorem feed_producers_kept o d u d' a n b :
  run parse_description (do_update_producers o) d = Ok (u, d') →
  assets d !! producers_asset o = Some a → bitasset_data_id a = Some n → bitassets d !! n = Some b →
  producers_issuer o = issuer a ∧
  ∃ b', bitassets d' !! n = Some b' ∧ options b' = options b ∧
    ∀ who, feeds b' !! who = if decide (who ∈ new_feed_producers o) then Some (default (0, null_feed) (feeds b !! who)) else None.
Proof.
  intros Hrun Ha Hn Hb. cbn [run] in Hrun. apply M_bind_Ok in Hrun as ([] & ? & [_ ->]%lift_Ok & Hrun).
  apply M_bind_Ok in Hrun as (n' & d1 & He & Hrun).
  assert (n' = n ∧ producers_issuer o = issuer a ∧ d1 = d) as (-> & Hi & ->).
  { unfold producers_evaluate in He. apply M_bind_Ok in He as (? & ? & [= <- <-] & He). do 10 read_step He. injection He as <- <-.
    unfold get_asset, found, mbind, M_bind, get_st in Hstep1. rewrite Ha in Hstep1. injection Hstep1 as <-.
    apply assert_st_Ok in Hstep6 as [Hi%Z.eqb_eq _]. by rewrite Hn. }
  split; [done|]. unfold producers_apply in Hrun. apply M_bind_Ok in Hrun as (? & ? & [= <- <-] & Hrun). read_step Hrun.
  unfold get_bitasset, found, mbind, M_bind, get_st in Hstep. rewrite Hb in Hstep. injection Hstep as <-.
  apply M_bind_Ok in Hrun as (u1 & d1 & Hmod & Hrun). unfold modify_bitasset, get_bitasset, found, mbind, M_bind, get_st, lift, modify_st in Hmod.
  rewrite Hb in Hmod. cbn -[update_median_feeds] in Hmod. destruct (update_median_feeds _ _) as [b1|] eqn:Hm; [|done]. injection Hmod as _ <-.
  destruct (update_median_frame _ _ _ Hm) as (Hf & Ho & _). apply M_bind_Ok in Hrun as (b2 & d2 & Hg & Hrun).
  pose proof (get_bitasset_moves eq _ _ _ _ Hg) as <-. 
  assert (∃ b', bitassets d' !! n = Some b' ∧ data_view b' = data_view b1) as (b' & Hb' & Hv).
  { assert (data_view <$> bitassets d' = data_view <$> <[n := b1]> (bitassets d)) as Hview.
    { destruct (feed_eqb _ _); [by injection Hrun as _ <-|]. apply check_keeps in Hrun. unfold registry_of in Hrun. by injection Hrun. }
    pose proof (lookup_fmap data_view (bitassets d') n) as L1. rewrite Hview, lookup_fmap, lookup_insert_eq in L1.
    destruct (bitassets d' !! n) as [b'|]; [|done]. apply (inj Some) in L1. by exists b'. }
  injection Hv as _ Ho' Hf' _ _. exists b'. split; [done|]. rewrite Ho', Hf', Ho, Hf. split; [done|]. intros who. apply new_feeds_lookup.
Qed.
End Producers.

(** * Examples *)

Module RegistryExample.
Import CollateralExample.

#[export] Instance quiet_market : Market := {|
  cancel_settle_orders := λ _, mret ();
  revive_bitasset := λ _, mret ();
  check_call_orders := λ _, mret ()
|}.
#[export] Instance quiet_market_laws : MarketLaws.
Proof. split; intros i; apply same_ret. Qed.
Definition no_description (s : string) : result (string * string) := Ok ("gold", "").

Definition some_options (perms flags : Z) (rate : price) : asset_options :=
  mk_asset_options 1000000 0 1000 perms flags rate ∅ ∅ ∅ ∅ "text".
Definition rate (i : Z) : price := mk_price (mk_asset 100 0) (mk_asset 7 i).
Definition core : asset_object := mk_asset_object "ZOS" 5 0 (some_options 0 0 (rate 1)) 0 None 0 ∅ "ZOS" "".
Definition usd : asset_object := mk_asset_object "USD" 4 9 (some_options 79 2 (rate 1)) 1 (Some 0) ASSET_BIT ∅ "USD" "".
Definition gold : asset_object := mk_asset_object "GOLD" 4 0 (some_options 79 2 (rate 2)) 2 (Some 1) ASSET_BIT ∅ "GOLD" "".
Definition usd_feeds : gmap Z (Z * price_feed) :=
  <[5 := (900, FeedsExample.feed 20)]> (<[6 := (950, FeedsExample.feed 21)]> (<[7 := (0, null_feed)]> ∅)).
Definition opts (lifetime : Z) : bitasset_options := mk_bitasset_options lifetime 2 86400 0 2000 0.
Definition usd_data : asset_bitasset_data_object :=
  mk_bitasset 1 (opts 200) usd_feeds (FeedsExample.feed 21) 900 null_price false 0 null_price 0 false false.
Definition gold_data : asset_bitasset_data_object :=
  mk_bitasset 2 (opts 200) ∅ null_feed 0 null_price false 0 null_price 0 false false.
Definition some_account (name : string) (auths : gset Z) : account := mk_account name false false None auths.
Definition demo : database :=
  mk_database (<[0 := core]> (<[1 := usd]> (<[2 := gold]> ∅))) 3 (<[0 := usd_data]> (<[1 := gold_data]> ∅)) 2
    (<[0 := mk_dynamic 1000000 0 0]> (<[1 := mk_dynamic 500 0 0]> (<[2 := mk_dynamic 0 0 0]> ∅))) 3
    (<[0 := some_account "committee-account" {[5; 6]}]> (<[5 := some_account "e" ∅]> (<[6 := some_account "f" ∅]>
      (<[8 := some_account "h" ∅]> (<[9 := some_account "i" ∅]> ∅))))) ∅ ∅ 1000 (mk_registry_parameters 10 10 5).

Abbreviation run := (run (U := checked128) (Q := reduced) no_description).
Definition after (m : M database ()) (d : database) : database := match m d with Ok (_, d') => d' | Throw _ => d end.

(** The issuer of USD gives up the permission to restrict transfers. *)
Definition renounce : asset_update_operation := mk_update (mk_asset 0 0) 9 1 None (some_options 71 2 (rate 1)).
Definition take_back : asset_update_operation := mk_update (mk_asset 0 0) 9 1 None (some_options 79 2 (rate 1)).
Lemma given_up : run (do_update renounce) demo = Ok ((), after (run (do_update renounce)) demo).
Proof. vm_compute. reflexivity. Qed.

Lemma demo_assets i a : assets demo !! i = Some a → i = 0 ∧ a = core ∨ i = 1 ∧ a = usd ∨ i = 2 ∧ a = gold.
Proof.
  unfold demo. cbn [assets]. rewrite !lookup_insert_Some, lookup_empty. naive_solver.
Qed.
Lemma demo_bitassets n b : bitassets demo !! n = Some b → n = 0 ∧ b = usd_data ∨ n = 1 ∧ b = gold_data.
Proof.
  unfold demo. cbn [bitassets]. rewrite !lookup_insert_Some, lookup_empty. naive_solver.
Qed.

Lemma demo_fresh : fresh demo.
Proof. intros j [a [[-> _]|[[-> _]|[-> _]]]%demo_assets]; done. Qed.

Lemma demo_ok : registry_ok demo.
Proof.
  split.
  - exact demo_fresh.
  - intros n [b [[-> _]|[-> _]]%demo_bitassets]; done.
  - intros i a [[_ ->]|[[_ ->]|[_ ->]]]%demo_assets; vm_compute; reflexivity.
  - intros i j a b [[-> ->]|[[-> ->]|[-> ->]]]%demo_assets [[-> ->]|[[-> ->]|[-> ->]]]%demo_assets; done.
  - intros i a n [[-> ->]|[[-> ->]|[-> ->]]]%demo_assets [= <-]; [exists usd_data|exists gold_data]; split; vm_compute; reflexivity.
  - intros n b [[_ ->]|[_ ->]]%demo_bitassets; (split; [vm_compute; reflexivity|]); [|apply map_Forall_empty].
    repeat apply map_Forall_insert_2; try apply map_Forall_empty; [right|right|by left]; by apply FeedsExample.usd_ok.
Qed.

Lemma only_the_issuer_decides_witness :
  run (do_update renounce) demo = Ok ((), after (run (do_update renounce)) demo) ∧
  ∃ a', assets (after (run (do_update renounce)) demo) !! 1 = Some a' ∧ identity a' = identity usd.
Proof.
  split; [exact given_up|].
  destruct (only_the_issuer_decides (U := checked128) (Q := reduced) no_description _ demo _ _ 1 usd demo_fresh given_up eq_refl) as (a' & H1 & H2 & _).
  exists a'. exact (conj H1 H2).
Defined.

Lemma revoked_permissions_stay_witness :
  ∃ d a', assets d !! 1 = Some a' ∧ Z.testbit (issuer_permissions (common_options a')) 4 = false ∧
    Z.testbit (flags (common_options a')) 4 = Z.testbit (flags (common_options usd)) 4.
Proof.
  exists (after (run (do_update renounce)) demo).
  apply (revoked_permissions_stay (U := checked128) (Q := reduced) no_description 1 demo _ usd 4 demo_fresh); [|done|done].
  eapply (circulating_step _ _ demo _ _ _ _ usd (mk_dynamic 500 0 0)); [done|done|discriminate|exact given_up|apply circulating_refl].
Defined.

(** What has been given up cannot be taken back while USD circulate. *)
Example no_way_back :
  run (do_update take_back) (after (run (do_update renounce)) demo) = Throw assert_exception.
Proof. vm_compute. reflexivity. Qed.

Lemma registry_stays_valid_witness : registry_ok (after (run (do_update renounce)) demo).
Proof. exact (registry_stays_valid (U := checked128) (Q := reduced) no_description (do_update renounce) demo () _ I demo_ok given_up). Defined.

Abbreviation expire := (update_expired_feeds (U := checked128) (Q := reduced)).
(** At time 1000 the feed of USD from 900 has 200 seconds; with 60 seconds it has expired. *)
Definition late : database :=
  set_bitassets (<[0 := set_options (opts 60) usd_data]> (bitassets demo)) 2 demo.

Lemma no_stale_feed_witness : ∃ b, bitassets (after expire late) !! 0 = Some b ∧ feed_is_expired 1000 usd_data = false ∧
  feed_is_expired (head_time late) (set_options (opts 60) usd_data) = true ∧ feed_is_expired (head_time (after expire late)) b = false.
Proof.
  assert (expire late = Ok ((), after expire late)) as Hrun by (vm_compute; reflexivity).
  eexists. split; [vm_compute; reflexivity|]. split; [done|]. split; [done|].
  eapply (no_stale_feed (U := checked128) (Q := reduced) late () _ 1 usd 0); [exact Hrun|done|done|done|vm_compute; reflexivity|].
  unfold lifetime_fits. cbn. lia.
Defined.

(** The rate of the feed of USD waits for the asset. *)
Definition waiting : database :=
  set_bitassets (<[0 := set_cer_updated false true usd_data]> (bitassets demo)) 2 demo.
Lemma exchange_rates_settle_witness :
  ∃ d', update_core_exchange_rates (U := checked128) 2 waiting = Ok ((), d') ∧ cer_pending (U := checked128) waiting = [0] ∧
    cer_pending (U := checked128) d' = [].
Proof.
  eexists. split; [vm_compute; reflexivity|]. split; [vm_compute; reflexivity|].
  apply (exchange_rates_settle (U := checked128) waiting 2). apply (bool_decide_unpack _). vm_compute. exact I.
Defined.

Definition choose : asset_update_feed_producers_operation := mk_producers (mk_asset 0 0) 9 1 {[6; 8]}.
Lemma feed_producers_kept_witness :
  ∃ b', bitassets (after (run (do_update_producers choose)) demo) !! 0 = Some b' ∧
    feeds b' !! 6 = Some (950, FeedsExample.feed 21) ∧ feeds b' !! 8 = Some (0, null_feed) ∧ feeds b' !! 5 = None.
Proof.
  assert (run (do_update_producers choose) demo = Ok ((), after (run (do_update_producers choose)) demo)) as Hrun by (vm_compute; reflexivity).
  destruct (feed_producers_kept (U := checked128) (Q := reduced) no_description choose demo () _ usd 0 usd_data Hrun eq_refl eq_refl eq_refl)
    as (_ & b' & Hb' & _ & Hall).
  exists b'. split; [exact Hb'|]. rewrite !Hall. by vm_compute.
Defined.

(** The committee may only issue assets that the core asset backs.  The check of a new backing
    looks at the old one: the committee's GOLD is backed by USD, or by itself, afterwards. *)
Definition back_gold (by_ lifetime : Z) : asset_update_bitasset_operation :=
  mk_update_bitasset (mk_asset 0 0) 0 2 (mk_bitasset_options lifetime 2 86400 0 2000 by_).
Theorem backing_unchecked :
  is_ok (run (do_update_bitasset (back_gold 1 200)) demo) = true ∧ is_ok (run (do_update_bitasset (back_gold 2 200)) demo) = true ∧
  (short_backing_asset ∘ options <$> bitassets (after (run (do_update_bitasset (back_gold 1 200))) demo) !! 1) = Some 1 ∧
  is_market_issued 1 usd = true.
Proof. by vm_compute. Qed.

(** A lifetime that the creation of an asset refuses is accepted by its update: no feed ever counts. *)
Theorem lifetime_unchecked :
  feed_lifetime_sec (new_bitasset_options (back_gold 0 0)) <? block_interval (parameters demo) = true ∧
  is_ok (run (do_update_bitasset (back_gold 0 0)) demo) = true ∧
  ∀ now fs, 0 ≤ now → (∀ e, e ∈ in_order fs → e.1 ≤ now) → current_feeds now (new_bitasset_options (back_gold 0 0)) fs = [].
Proof.
  split; [done|]. split; [by vm_compute|]. intros now fs Hn Hfs. unfold current_feeds.
  destruct (List.filter _ _) as [|e l] eqn:Hf; [done|]. assert (e ∈ e :: l) as He by left. rewrite <- Hf in He.
  apply list_elem_of_In, filter_In in He as [He Hu]. apply list_elem_of_In, Hfs in He. unfold unexpired in Hu. cbn in Hu. lia.
Qed.
End RegistryExample.
