(* ===== verification/AssetText.v ===== *)
(** * Amounts as texts: asset_object.cpp

    [amount_to_string] and [amount_from_string], with [std::stoll] and [std::to_string] of
    64-bit integers. *)

From S2P Require Import Prelude Safe Asset Names.
From Stdlib Require Import ZArith Ascii.

Local Open Scope Z_scope.

Definition is_digit (c : ascii) : bool := in_range "0" "9" c.
Definition digit_value (c : ascii) : Z := Z.of_nat (nat_of_ascii c) - 48.
Definition digit (n : Z) : ascii := ascii_of_nat (Z.to_nat (n + 48)).

(** ** The texts of integers *)

(** The decimal digits; 20 are enough for 64 bits. *)
Fixpoint digits (fuel : nat) (n : Z) : list ascii :=
  match fuel with
  | O => []
  | S fuel => if n <? 10 then [digit n] else digits fuel (n / 10) ++ [digit (n mod 10)]
  end.

(** [std::to_string]. *)
Definition to_string (n : Z) : list ascii := if n <? 0 then "-"%char :: digits 20 (- n) else digits 20 n.

(** The digits [std::stoll] takes. *)
Fixpoint take_digits (l : list ascii) : list ascii :=
  match l with c :: l => if is_digit c then c :: take_digits l else [] | [] => [] end.
Definition value (l : list ascii) : Z := foldl (λ n c, n * 10 + digit_value c) 0 l.

(** [std::stoll], of texts without spaces: a sign, digits, and the rest is not looked at. *)
Definition stoll (l : list ascii) : result Z :=
  let '(negative, l) := match l with c :: l' => if Ascii.eqb c "-" then (true, l') else if Ascii.eqb c "+" then (false, l') else (false, l) | [] => (false, []) end in
  match take_digits l with
  | [] => Throw other_exception
  | ds =>
      let n := if negative : bool then - value ds else value ds in
      if bool_decide (int64 n) then Ok n else Throw out_of_range_exception
  end.

(** ** amount_from_string *)

(** The loop over the characters: is there a sign, and a point? *)
Fixpoint scan (l : list ascii) (negative_found decimal_found : bool) : result (bool * bool) :=
  match l with
  | [] => Ok (negative_found, decimal_found)
  | c :: l =>
      if is_digit c then scan l negative_found decimal_found
      else if Ascii.eqb c "-" && negb negative_found then scan l true decimal_found
      else if Ascii.eqb c "." && negb decimal_found then scan l negative_found true
      else Throw other_exception
  end.

(** [find( '.' )] and [substr]. *)
Definition find_point (l : list ascii) : option nat := find_first_of "." l 0.
Definition substr (l : list ascii) (pos : nat) (count : option nat) : list ascii :=
  match count with Some n => take n (drop pos l) | None => drop pos l end.

Definition amount_from_string (precision : Z) (s : list ascii) : result Z :=
  '(negative_found, decimal_found) ← scan s false false;
  scaled_precision ← Asset.scaled_precision precision;
  let decimal_pos := find_point s in
  let lhs := substr s (if negative_found : bool then 1 else 0) decimal_pos in
  satoshis ← match lhs with [] => Ok 0 | _ => n ← stoll lhs; n ← safe_mul n scaled_precision; safe_add 0 n end;
  satoshis ← (if decimal_found : bool then
      let max_rhs_size := length (drop 1 (to_string scaled_precision)) in
      let rhs := substr s (S (default 0%nat decimal_pos)) None in
      FC_ASSERT (length rhs <=? max_rhs_size)%nat ;;
      let rhs := rhs ++ replicate (max_rhs_size - length rhs) "0"%char in
      match rhs with [] => Ok satoshis | _ => n ← stoll rhs; safe_add satoshis n end
    else Ok satoshis);
  FC_ASSERT (satoshis <=? GRAPHENE_MAX_BITCORE_SUPPLY) ;;
  if negative_found : bool then safe_mul satoshis (-1) else Ok satoshis.

(** ** amount_to_string *)

Fixpoint times_ten (n : nat) (scaled_precision : Z) : result Z :=
  match n with O => Ok scaled_precision | S n => p ← safe_mul scaled_precision 10; times_ten n p end.

Definition amount_to_string (precision amount : Z) : result (list ascii) :=
  scaled_precision ← times_ten (Z.to_nat precision) 1;
  let result := to_string (amount ÷ scaled_precision) in
  let decimals := Z.rem amount scaled_precision in
  if decimals =? 0 then Ok result
  else Ok (result ++ "."%char :: drop 1 (to_string (to_sint 64 (scaled_precision + decimals)))).

(** ** The decimal digits *)

#[local] Coercion Z.of_nat : nat >-> Z.

Definition all_digits (l : list ascii) : Prop := Forall (λ c, is_digit c = true) l.

Lemma digit_ok n : 0 ≤ n < 10 → is_digit (digit n) = true ∧ digit_value (digit n) = n.
Proof.
  intros Hn. assert (n ∈ [0; 1; 2; 3; 4; 5; 6; 7; 8; 9]) as Hin by (rewrite !elem_of_cons; lia).
  revert n Hn Hin. refine (λ n Hn Hin, _). clear Hn. revert n Hin.
  apply Forall_forall. repeat constructor.
Qed.

Lemma digit_value_range c : is_digit c = true → 0 ≤ digit_value c < 10.
Proof.
  unfold is_digit, in_range, digit_value. rewrite andb_true_iff, !Nat.leb_le.
  change (nat_of_ascii "0") with 48%nat. change (nat_of_ascii "9") with 57%nat. lia.
Qed.

Lemma value_snoc l c : value (l ++ [c]) = value l * 10 + digit_value c.
Proof. unfold value. by rewrite foldl_app. Qed.

Lemma value_cons c l : value (c :: l) = digit_value c * 10 ^ length l + value l.
Proof.
  induction l as [|x l IH] using rev_ind; [cbn; lia|].
  rewrite app_comm_cons, !value_snoc, IH, length_app. cbn [length].
  rewrite Nat2Z.inj_add, Z.pow_add_r by lia. lia.
Qed.

Lemma value_range l : all_digits l → 0 ≤ value l < 10 ^ length l.
Proof.
  induction 1 as [|c l Hc Hl IH]; [cbn; lia|].
  rewrite value_cons. apply digit_value_range in Hc. cbn [length].
  rewrite Nat2Z.inj_succ, Z.pow_succ_r by lia. nia.
Qed.

Lemma digits_ok (fuel : nat) n : 0 ≤ n < 10 ^ fuel → (0 < fuel)%nat →
  all_digits (digits fuel n) ∧ value (digits fuel n) = n ∧ digits fuel n ≠ [].
Proof.
  revert n. induction fuel as [|fuel IH]; intros n Hn Hf; [lia|].
  cbn [digits]. destruct (Z.ltb_spec n 10).
  { destruct (digit_ok n) as [? Hv]; [lia|]. split_and!; [by repeat constructor| |done].
    by change (value [digit n]) with (0 * 10 + digit_value (digit n)); rewrite Hv. }
  rewrite Nat2Z.inj_succ, Z.pow_succ_r in Hn by lia.
  assert (0 < fuel)%nat. { destruct fuel; [cbn in Hn; lia|lia]. }
  destruct (IH (n / 10)) as (Hd & Hv & _); [|done|].
  { split; [apply Z.div_pos; lia|apply Z.div_lt_upper_bound; lia]. }
  destruct (digit_ok (n mod 10)) as [? Hm]; [apply Z.mod_pos_bound; lia|].
  split_and!.
  - apply Forall_app. split; [done|]. by constructor.
  - rewrite value_snoc, Hv, Hm. pose proof (Z.div_mod n 10). lia.
  - by intros [_ ?]%app_eq_nil.
Qed.

Lemma digits_length (fuel k : nat) n : (k < fuel)%nat → 10 ^ k ≤ n < 10 ^ S k → length (digits fuel n) = S k.
Proof.
  revert k n. induction fuel as [|fuel IH]; intros k n Hk Hn; [lia|].
  rewrite Nat2Z.inj_succ, Z.pow_succ_r in Hn by lia.
  cbn [digits]. destruct k as [|k]; [destruct (Z.ltb_spec n 10); [done|cbn in Hn; lia]|].
  rewrite Nat2Z.inj_succ, Z.pow_succ_r in Hn by lia. pose proof (Z.pow_pos_nonneg 10 k).
  destruct (Z.ltb_spec n 10); [lia|].
  rewrite length_app, (IH k); [cbn; lia|lia|].
  rewrite Nat2Z.inj_succ, Z.pow_succ_r by lia.
  split; [apply Z.div_le_lower_bound; lia|apply Z.div_lt_upper_bound; lia].
Qed.

(** ** Reading digits back *)

Lemma scan_digits l r negative_found decimal_found : all_digits l →
  scan (l ++ r) negative_found decimal_found = scan r negative_found decimal_found.
Proof. induction 1 as [|c l Hc Hl IH]; [done|]. cbn. by rewrite Hc. Qed.

Lemma digit_not c x : is_digit c = true → is_digit x = false → Ascii.eqb c x = false.
Proof. intros Hc Hx. destruct (Ascii.eqb_spec c x) as [->|]; congruence. Qed.

Lemma find_point_digits l r : all_digits l → find_point (l ++ r) = find_from "." r (length l).
Proof.
  intros Hl. unfold find_point, find_first_of. rewrite drop_0. change (length l) with (0 + length l)%nat.
  generalize 0%nat. induction Hl as [|c l Hc Hl IH]; intros k; cbn; [by rewrite Nat.add_0_r|].
  rewrite (digit_not c "."), IH by done. f_equal. lia.
Qed.

Lemma take_digits_all l : all_digits l → take_digits l = l.
Proof. induction 1 as [|c l Hc Hl IH]; [done|]. cbn. by rewrite Hc, IH. Qed.

Lemma stoll_digits l : all_digits l → l ≠ [] → int64 (value l) → stoll l = Ok (value l).
Proof.
  intros Hl Hne Hv. unfold stoll. destruct Hl as [|c l Hc Hl]; [done|].
  rewrite (digit_not c "-"), (digit_not c "+") by done.
  rewrite take_digits_all by by constructor. by rewrite bool_decide_true.
Qed.

(** ** The two texts an amount is made of *)

Lemma to_string_pos n : 0 ≤ n < 10 ^ 20 →
  all_digits (to_string n) ∧ value (to_string n) = n ∧ to_string n ≠ [].
Proof.
  intros Hn. unfold to_string. destruct (Z.ltb_spec n 0); [lia|]. by apply digits_ok; [|lia].
Qed.

(** A one and the decimals: the one is dropped, the zeros before the decimals are kept. *)
Lemma decimals_text (p : nat) d : (p ≤ 18)%nat → 0 ≤ d < 10 ^ p →
  let ds := drop 1 (to_string (10 ^ p + d)) in all_digits ds ∧ length ds = p ∧ value ds = d.
Proof.
  intros Hp Hd ds. assert (10 ^ p ≤ 10 ^ 18) by (apply Z.pow_le_mono_r; lia).
  destruct (to_string_pos (10 ^ p + d)) as (Ha & Hv & _); [lia|].
  assert (length (to_string (10 ^ p + d)) = S p) as Hl.
  { unfold to_string. destruct (Z.ltb_spec (10 ^ p + d) 0); [lia|]. apply digits_length; [lia|].
    rewrite Nat2Z.inj_succ, Z.pow_succ_r by lia. lia. }
  subst ds. destruct (to_string _) as [|c ds]; [done|]. cbn [drop] in *. injection Hl as Hl.
  inversion Ha as [|? ? _ Hds]; subst. split_and!; [done..|].
  rewrite value_cons in Hv. pose proof (value_range ds Hds).
  by destruct (Z.div_mod_unique (10 ^ length ds) (digit_value c) 1 (value ds) d); [lia..|].
Qed.

Lemma safe_mul_fits a b : int64 a → int64 b → int64 (a * b) → safe_mul a b = Ok (a * b).
Proof. intros Ha Hb Hab. pose proof (safe_mul_spec a b Ha Hb) as Hs. by rewrite bool_decide_true in Hs. Qed.
Lemma safe_add_fits a b : int64 a → int64 b → int64 (a + b) → safe_add a b = Ok (a + b).
Proof. intros. by rewrite safe_add_spec, bool_decide_true. Qed.

Lemma power_fits (p : nat) : (p ≤ 18)%nat → 1 ≤ 10 ^ p ≤ 10 ^ 18 ∧ int64 (10 ^ p).
Proof.
  intros Hp. assert (10 ^ 0 ≤ 10 ^ p ≤ 10 ^ 18) by (split; apply Z.pow_le_mono_r; lia).
  split; [lia|]. split; [unfold int64_min|unfold int64_max]; lia.
Qed.

Lemma times_ten_ok (k m : nat) : (m + k ≤ 18)%nat → times_ten k (10 ^ m) = Ok (10 ^ (m + k)%nat).
Proof.
  revert m. induction k as [|k IH]; intros m Hm; [by rewrite Nat.add_0_r|].
  assert (10 ^ S m = 10 ^ m * 10) as HS by (rewrite Nat2Z.inj_succ, Z.pow_succ_r; lia).
  destruct (power_fits m) as [_ Hf]; [lia|]. destruct (power_fits (S m)) as [_ HfS]; [lia|].
  cbn [times_ten]. rewrite safe_mul_fits; [|done|by split|by rewrite <- HS].
  cbn. rewrite <- HS, IH by lia. do 3 f_equal. lia.
Qed.

Lemma scaled_precision_power (p : nat) : (p ≤ 18)%nat → Asset.scaled_precision p = Ok (10 ^ p).
Proof.
  intros Hp. assert (p ∈ seq 0 19) as Hin by (apply elem_of_seq; lia). clear Hp. revert p Hin.
  apply Forall_forall. repeat constructor.
Qed.

(** ** The round trip *)

(** The part before the point counts units of [10 ^ p]. *)
Lemma reads_units (p : nat) q : (p ≤ 18)%nat → 0 ≤ q → q * 10 ^ p ≤ GRAPHENE_MAX_BITCORE_SUPPLY →
  match to_string q with
  | [] => Ok 0
  | _ => n ← stoll (to_string q); n ← safe_mul n (10 ^ p); safe_add 0 n
  end = Ok (q * 10 ^ p).
Proof.
  intros Hp Hq Hmax. destruct (power_fits p Hp) as [HP HPf]. unfold GRAPHENE_MAX_BITCORE_SUPPLY in Hmax.
  assert (int64 q ∧ int64 (q * 10 ^ p)) as [Hqf Hf] by (unfold int64, int64_min, int64_max; nia).
  destruct (to_string_pos q) as (Ha & Hv & Hne); [nia|].
  destruct (to_string q) as [|c l] eqn:Hs; [done|]. rewrite <- Hs in *. clear Hs c l.
  rewrite stoll_digits, Hv, Ok_bind by (rewrite ?Hv; done).
  rewrite safe_mul_fits, Ok_bind by done. by rewrite safe_add_fits.
Qed.

Lemma reads_digits (p : nat) q : (p ≤ 18)%nat → 0 ≤ q → q * 10 ^ p ≤ GRAPHENE_MAX_BITCORE_SUPPLY →
  amount_from_string p (to_string q) = Ok (q * 10 ^ p).
Proof.
  intros Hp Hq Hmax. destruct (power_fits p Hp) as [HP HPf].
  destruct (to_string_pos q) as (Ha & Hv & Hne); [unfold GRAPHENE_MAX_BITCORE_SUPPLY in *; nia|].
  unfold amount_from_string. pose proof (scan_digits _ [] false false Ha) as Hscan.
  pose proof (find_point_digits _ [] Ha) as Hfind. rewrite app_nil_r in Hscan, Hfind.
  rewrite Hscan, Hfind, scaled_precision_power by done. cbn [scan find_from]. rewrite !Ok_bind.
  unfold substr. rewrite drop_0, reads_units, !Ok_bind by done.
  unfold FC_ASSERT. by destruct (Z.leb_spec (q * 10 ^ p) GRAPHENE_MAX_BITCORE_SUPPLY); [|lia].
Qed.

Lemma reads_decimals (p : nat) q d : (p ≤ 18)%nat → 0 ≤ q → 0 ≤ d < 10 ^ p → d ≠ 0 →
  q * 10 ^ p + d ≤ GRAPHENE_MAX_BITCORE_SUPPLY →
  amount_from_string p (to_string q ++ "."%char :: drop 1 (to_string (10 ^ p + d))) = Ok (q * 10 ^ p + d).
Proof.
  intros Hp Hq Hd Hnz Hmax. destruct (power_fits p Hp) as [HP HPf].
  destruct (to_string_pos q) as (Ha & Hv & Hne); [unfold GRAPHENE_MAX_BITCORE_SUPPLY in *; nia|].
  destruct (decimals_text p d) as (Hds & Hlen & Hdv); [done..|]. set (ds := drop 1 _) in *.
  destruct (decimals_text p 0) as (_ & Hsize & _); [done|lia|]. rewrite Z.add_0_r in Hsize.
  unfold amount_from_string. rewrite scan_digits, find_point_digits, scaled_precision_power by done.
  rewrite <- (app_nil_r ds) at 1. cbn [scan find_from is_digit]. 
  replace (is_digit ".") with false by reflexivity. cbn [Ascii.eqb Bool.eqb andb negb].
  rewrite scan_digits by done. cbn [scan]. rewrite !Ok_bind.
  unfold substr, default. rewrite drop_0, take_app_length, reads_units, !Ok_bind by (done || lia).
  assert (drop (S (id (length (to_string q)))) (to_string q ++ "."%char :: ds) = ds) as ->.
  { unfold id. rewrite cons_middle, app_assoc, drop_app_length'; [done|]. rewrite length_app. cbn. lia. }
  rewrite Hsize, Hlen, Nat.leb_refl, Nat.sub_diag, app_nil_r. unfold FC_ASSERT. rewrite Ok_bind.
  assert (int64 d ∧ int64 (q * 10 ^ p) ∧ int64 (q * 10 ^ p + d)) as (Hdf & Huf & Hf).
  { unfold GRAPHENE_MAX_BITCORE_SUPPLY in Hmax. unfold int64, int64_min, int64_max. nia. }
  destruct ds as [|c l] eqn:Hs; [done|]. rewrite <- Hs in *. clearbody ds.
  rewrite stoll_digits, Hdv, !Ok_bind by (rewrite ?Hdv; congruence || done).
  rewrite safe_add_fits, Ok_bind by done.
  by destruct (Z.leb_spec (q * 10 ^ p + d) GRAPHENE_MAX_BITCORE_SUPPLY); [|lia].
Qed.

(** C38: an amount of an asset, printed for the users and read back, is the same amount: with
    up to eighteen decimals and any amount from zero to the largest supply, the text
    [amount_to_string] writes is one [amount_from_string] accepts, and it returns the
    amount; in particular the zeros after the point are neither lost nor added. *)
Theorem amounts_read_back (p n : Z) :
  0 ≤ p ≤ 18 → 0 ≤ n ≤ GRAPHENE_MAX_BITCORE_SUPPLY →
  ∃ s, amount_to_string p n = Ok s ∧ amount_from_string p s = Ok n.
Proof.
  intros Hp Hn. rewrite <- (Z2Nat.id p) by lia. set (k := Z.to_nat p). assert (k ≤ 18)%nat as Hk by lia.
  destruct (power_fits k Hk) as [HP _]. unfold amount_to_string. rewrite Nat2Z.id.
  assert (times_ten k 1 = Ok (10 ^ k)) as -> by exact (times_ten_ok k 0 Hk). rewrite Ok_bind. cbn [Nat.add].
  rewrite Z.quot_div_nonneg, Z.rem_mod_nonneg by lia.
  pose proof (Z.div_mod n (10 ^ k)) as Hdm. pose proof (Z.mod_pos_bound n (10 ^ k)).
  assert (0 ≤ n / 10 ^ k) by (apply Z.div_pos; lia).
  destruct (Z.eqb_spec (n mod 10 ^ k) 0) as [Hz|Hz]; eexists; (split; [reflexivity|]).
  - rewrite reads_digits; [f_equal|..]; unfold GRAPHENE_MAX_BITCORE_SUPPLY in *; lia.
  - rewrite to_sint_64_id by (unfold int64, int64_min, int64_max; lia).
    rewrite reads_decimals; [f_equal|..]; unfold GRAPHENE_MAX_BITCORE_SUPPLY in *; lia.
Qed.

(** ** Texts *)

Module TextExample.
Lemma amounts_read_back_witness :
  (0 ≤ 4 ≤ 18 ∧ 0 ≤ 12345 ≤ GRAPHENE_MAX_BITCORE_SUPPLY) ∧
  ∃ s, amount_to_string 4 12345 = Ok s ∧ amount_from_string 4 s = Ok 12345.
Proof.
  split; [by split|]. apply (amounts_read_back 4 12345); by split.
Defined.

Local Notation text := String.list_ascii_of_string.

(** The text of one unit and of its decimals. *)
Example printed : amount_to_string 4 10005 = Ok (text "1.0005") ∧ amount_to_string 4 30000 = Ok (text "3").
Proof. by vm_compute. Qed.

(** A sign within the digits is taken: it is looked for anywhere, and the first character is
    dropped whatever it is, so a subtraction is read as its second number, and digits with a
    sign behind them lose the first digit. *)
Theorem misplaced_sign :
  amount_from_string 4 (text "1-2") = Ok 20000 ∧ amount_from_string 4 (text "12-") = Ok (-20000) ∧
  amount_from_string 4 (text "-.5") = Throw other_exception ∧ amount_from_string 4 (text ".5") = Ok 5000 ∧
  amount_from_string 4 (text "-") = Ok 0.
Proof. by vm_compute. Qed.

(** The decimals of a negative amount are added to the power of ten that keeps their zeros,
    and the digit dropped is not the one: [-1.2345] is printed as [-1.655]. *)
Theorem negative_decimals :
  amount_to_string 4 (-12345) = Ok (text "-1.655") ∧ amount_from_string 4 (text "-1.655") = Ok (-16550) ∧
  amount_to_string 1 (-5) = Ok (text "0.").
Proof. by vm_compute. Qed.
End TextExample.
