(* ===== verification/Listings.v ===== *)
(** * Gateways and the assets they carry: gateway_evaluator.cpp

    An asset lists the accounts of its gateways, a gateway the assets it carries.  The
    evaluators that create and update a gateway write both lists, and so does
    [asset_update_gateway_evaluator] of [AssetRegistry]; the theorem says that the two never
    disagree. *)

From S2P Require Import Prelude Safe Asset Authority Collateral Feeds Transfers AssetRegistry.
From Stdlib Require Import ZArith.
From stdpp Require Import gmap strings.

Local Open Scope Z_scope.

(** ** do_allowed_asset *)

Definition erase_gateway (acct : Z) (p : asset_object) : asset_object :=
  set_whitelist_gateways (whitelist_gateways p ∖ {[acct]}) p.
Definition insert_gateway (acct : Z) (p : asset_object) : asset_object :=
  set_whitelist_gateways ({[acct]} ∪ whitelist_gateways p) p.

(** The loop over the options of the lenders; every asset of [do_asset] was found before. *)
Definition refresh_option (d : database) (do_asset : gset Z) (p : lender_option) : lender_option :=
  if bool_decide (lender_asset p ∈ do_asset)
  then match assets d !! lender_asset p with
       | Some ass => mk_lender_option (lender_asset p) (sproduct p) (whitelist_gateways ass)
       | None => p
       end
  else p.

(** The gateway is given by its account and the assets it carries; the result is what it
    carries then. *)
Definition do_allowed_asset (gateway_account : Z) (allowed_assets allowed_new : gset Z) : M database (gset Z) :=
  mapM_ (λ a, modify_asset a (erase_gateway gateway_account)) (ordered allowed_assets) ;;
  mapM_ (λ a, modify_asset a (insert_gateway gateway_account)) (ordered allowed_new) ;;
  modify_st (λ d, set_gateways (gateways d) (refresh_option d (allowed_assets ∪ allowed_new) <$> lender_options d) d) ;;
  mret allowed_new.

(** ** What the evaluators do to the two lists *)

Definition set_accounts (m : gmap Z account) (d : database) : database :=
  mk_database (assets d) (next_asset d) (bitassets d) (next_bitasset d) (dynamics d) (next_dynamic d) m (gateways d)
    (lender_options d) (head_time d) (parameters d).
Definition as_gateway (g : Z) (a : account) : account :=
  mk_account (account_name a) (lock_balance a) true (Some g) (active_accounts a).

(** [gateway_create_evaluator::do_apply] creates the gateway [g]; the index by account is
    unique, so that the account has none yet. *)
Definition create_listing (g acct : Z) (allowed_asset : gset Z) : M database () :=
  account ← get_account acct;
  assert_st (bool_decide (gateway_of account = None)) ;;
  s ← do_allowed_asset acct ∅ allowed_asset;
  modify_st (λ d, set_gateways (<[g := s]> (gateways d)) (lender_options d) d) ;;
  modify_st (λ d, set_accounts (<[acct := as_gateway g account]> (accounts d)) d).

(** [gateway_update_evaluator]: the gateway is one of the account. *)
Definition update_listing (g acct : Z) (allowed_asset : gset Z) : M database () :=
  account ← get_account acct;
  assert_st (bool_decide (gateway_of account = Some g)) ;;
  old ← get_gateway g;
  s ← do_allowed_asset acct old allowed_asset;
  modify_gateway g (λ _, s).

(** ** The loops, pointwise *)

Lemma modify_asset_run i f d u d' : modify_asset i f d = Ok (u, d') →
  ∃ a, assets d !! i = Some a ∧ d' = set_assets (<[i := f a]> (assets d)) (next_asset d) d.
Proof.
  intros (a & d1 & Hget & Hmod)%M_bind_Ok. unfold get_asset, found in Hget. cbn in Hget. unfold mbind, M_bind, get_st in Hget.
  destruct (assets d !! i) as [b|] eqn:Hb; [|done]. injection Hget as <- <-. exists b. split; [done|].
  by injection Hmod as _ <-.
Qed.

Lemma modify_gateway_run g f d u d' : modify_gateway g f d = Ok (u, d') →
  ∃ s, gateways d !! g = Some s ∧ d' = set_gateways (<[g := f s]> (gateways d)) (lender_options d) d.
Proof.
  intros (s & d1 & Hget & Hmod)%M_bind_Ok. unfold get_gateway, found in Hget. cbn in Hget. unfold mbind, M_bind, get_st in Hget.
  destruct (gateways d !! g) as [b|] eqn:Hb; [|done]. injection Hget as <- <-. exists b. split; [done|].
  by injection Hmod as _ <-.
Qed.

Lemma get_asset_run i d a d' : get_asset i d = Ok (a, d') → assets d !! i = Some a ∧ d' = d.
Proof.
  unfold get_asset, found. unfold mbind, M_bind, get_st. destruct (assets d !! i); [|done]. by intros [= -> ->].
Qed.

Lemma registry_account_run i d a d' : get_account i d = Ok (a, d') → accounts d !! i = Some a ∧ d' = d.
Proof.
  unfold get_account, found. unfold mbind, M_bind, get_st. destruct (accounts d !! i); [|done]. by intros [= -> ->].
Qed.

#[local] Opaque modify_asset modify_gateway.

(** A change of every asset of a list leaves everything else alone. *)
Lemma modify_assets_run f l d u d' : NoDup l → mapM_ (λ i, modify_asset i f) l d = Ok (u, d') →
  d' = set_assets (assets d') (next_asset d) d ∧
  (∀ i, assets d' !! i = (if bool_decide (i ∈ l) then f else id) <$> assets d !! i) ∧
  (∀ i, i ∈ l → is_Some (assets d !! i)).
Proof.
  revert d. induction l as [|x l IH]; intros d Hl Hrun.
  { injection Hrun as _ <-. split_and!; [by destruct d|intros i; by destruct (assets d !! i)|intros i []%not_elem_of_nil]. }
  apply NoDup_cons in Hl as [Hx Hl].
  apply M_bind_Ok in Hrun as (v & d1 & (a & Ha & ->)%modify_asset_run & Hrun).
  apply IH in Hrun as (Hd & Hp & Hi); [|done]. cbn in Hp, Hi. split_and!.
  - rewrite Hd. by destruct d.
  - intros i. rewrite Hp. destruct (decide (i = x)) as [->|Hne].
    + rewrite lookup_insert_eq, Ha. cbn. rewrite bool_decide_false by done. rewrite bool_decide_true by set_solver. done.
    + rewrite lookup_insert_ne by done. f_equal. by case_bool_decide; case_bool_decide; set_solver.
  - intros i [->|Hin]%elem_of_cons; [by eexists|]. destruct (decide (i = x)) as [->|Hne]; [by eexists|].
    specialize (Hi i Hin). by rewrite lookup_insert_ne in Hi.
Qed.

(** A change of the gateway of every account of a list; gateways have one account. *)
Lemma modify_gateways_run f l d u d' :
  (∀ acct1 a1 acct2 a2 g, accounts d !! acct1 = Some a1 → accounts d !! acct2 = Some a2 →
     gateway_of a1 = Some g → gateway_of a2 = Some g → acct1 = acct2) →
  NoDup l → mapM_ (λ acct, n ← gateway_id_of acct; modify_gateway n f) l d = Ok (u, d') →
  d' = set_gateways (gateways d') (lender_options d) d ∧
  (∀ acct a g, accounts d !! acct = Some a → gateway_of a = Some g →
     gateways d' !! g = (if bool_decide (acct ∈ l) then f else id) <$> gateways d !! g) ∧
  (∀ acct, acct ∈ l → ∃ a g s, accounts d !! acct = Some a ∧ gateway_of a = Some g ∧ gateways d !! g = Some s).
Proof.
  revert d. induction l as [|x l IH]; intros d Hone Hl Hrun.
  { injection Hrun as _ <-. split_and!; [by destruct d|intros acct a g _ _; by destruct (gateways d !! g)|intros i []%not_elem_of_nil]. }
  apply NoDup_cons in Hl as [Hx Hl].
  apply M_bind_Ok in Hrun as (v & d1 & Hstep & Hrun).
  apply M_bind_Ok in Hstep as (n & d2 & Hid & Hstep).
  apply M_bind_Ok in Hid as (ax & d3 & [Hax ->]%registry_account_run & Hid).
  unfold found in Hid. destruct (gateway_of ax) as [n'|] eqn:Hn; [|done]. injection Hid as -> <-.
  apply modify_gateway_run in Hstep as (s & Hs & ->).
  apply IH in Hrun as (Hd & Hp & Hi); [|done..]. cbn in Hp, Hi. split_and!.
  - rewrite Hd. by destruct d.
  - intros acct a g Ha Hg. rewrite (Hp acct a g Ha Hg). destruct (decide (g = n)) as [->|Hne].
    + assert (acct = x) as -> by eauto. rewrite lookup_insert_eq, Hs. cbn.
      by rewrite bool_decide_false, bool_decide_true by set_solver.
    + assert (acct ≠ x) by (intros ->; congruence). rewrite lookup_insert_ne by done.
      f_equal. by case_bool_decide; case_bool_decide; set_solver.
  - intros acct [->|Hin]%elem_of_cons; [by exists ax, n, s|].
    destruct (Hi acct Hin) as (a & g & s' & Ha & Hg & Hs'). destruct (decide (g = n)) as [->|]; [by exists a, n, s|].
    rewrite lookup_insert_ne in Hs' by done. by exists a, g, s'.
Qed.

(** ** The two lists *)

Definition carries (d : database) (acct i : Z) : Prop :=
  ∃ a g s, accounts d !! acct = Some a ∧ gateway_of a = Some g ∧ gateways d !! g = Some s ∧ i ∈ s.
Definition lists (d : database) (i acct : Z) : Prop := ∃ a, assets d !! i = Some a ∧ acct ∈ whitelist_gateways a.

Record listed (d : database) : Prop := mk_listed {
  listed_same acct i : carries d acct i ↔ lists d i acct;
  listed_found acct a g : accounts d !! acct = Some a → gateway_of a = Some g → is_Some (gateways d !! g);
  listed_one acct1 a1 acct2 a2 g : accounts d !! acct1 = Some a1 → accounts d !! acct2 = Some a2 →
    gateway_of a1 = Some g → gateway_of a2 = Some g → acct1 = acct2;
  listed_fresh : AssetRegistry.fresh d
}.

Definition stays_listed (d d' : database) : Prop := listed d → listed d'.
#[export] Instance stays_listed_preorder : PreOrder stays_listed.
Proof. split; [by intros d H|intros d1 d2 d3 H1 H2 H; auto]. Qed.

(** What the property depends on. *)
Definition listing (d : database) := (whitelist_gateways <$> assets d, gateways d, accounts d).

Lemma lists_listing d i acct : lists d i acct ↔ ∃ w, (whitelist_gateways <$> assets d) !! i = Some w ∧ acct ∈ w.
Proof. unfold lists. setoid_rewrite lookup_fmap_Some. naive_solver. Qed.

Lemma listing_listed d d' : listing d' = listing d → next_asset d' = next_asset d → stays_listed d d'.
Proof.
  intros [= Hw Hg Ha] Hn [Hs Hf Ho Hfr]. split.
  - intros acct i. rewrite lists_listing, Hw, <- lists_listing, <- Hs. unfold carries. by rewrite Hg, Ha.
  - rewrite Hg, Ha. exact Hf.
  - rewrite Ha. exact Ho.
  - intros j Hj. rewrite Hn. apply Hfr. apply (fmap_is_Some whitelist_gateways). rewrite <- lookup_fmap, <- Hw, lookup_fmap.
    by apply fmap_is_Some.
Qed.

(** ** Every operation keeps them the same *)

Lemma modify_asset_listed i f : (∀ a, whitelist_gateways (f a) = whitelist_gateways a) → moves stays_listed (modify_asset i f).
Proof.
  intros Hf d u d' (a & Ha & ->)%modify_asset_run. apply listing_listed; [|done].
  unfold listing. cbn. do 2 f_equal. rewrite fmap_insert, Hf. apply insert_id. by rewrite lookup_fmap, Ha.
Qed.

Lemma modify_st_listed f : (∀ d, listing (f d) = listing d ∧ next_asset (f d) = next_asset d) → moves stays_listed (modify_st f).
Proof. intros Hf d a d' [= _ <-]. destruct (Hf d). by apply listing_listed. Qed.

Lemma modify_bitasset_listed n f : moves stays_listed (modify_bitasset n f).
Proof. unfold modify_bitasset. repeat moves_step. by apply modify_st_listed. Qed.

Section Market.
Context {U : Type} `{Multiprecision U} {Q : Type} `{Rational Q} `{Selection} `{MarketLaws}.
Context (parse_description : string → result (string * string)).

Lemma same_listed {A} (m : M database A) : same registry_of m → moves stays_listed m.
Proof.
  intros Hm d a d' Hrun. apply Hm in Hrun. unfold registry_of in Hrun. injection Hrun as Ha Hn _ _ _ Hg Hc.
  apply listing_listed; [|done]. unfold listing. by rewrite Ha, Hg, Hc.
Qed.
Lemma cancel_listed i : moves stays_listed (cancel_settle_orders i).
Proof. apply same_listed, cancel_keeps. Qed.
Lemma revive_listed i : moves stays_listed (revive_bitasset i).
Proof. apply same_listed, revive_keeps. Qed.
Lemma check_listed i : moves stays_listed (check_call_orders i).
Proof. apply same_listed, check_keeps. Qed.
#[local] Hint Resolve cancel_listed revive_listed check_listed modify_bitasset_listed : zos.

Ltac listing_steps := repeat first [moves_step | apply modify_asset_listed; done | apply modify_st_listed; done].

Lemma update_listed o : moves stays_listed (run parse_description (do_update o)).
Proof.
  cbn [run]. unfold update_evaluate, update_apply. listing_steps.
Qed.
Lemma others_listed act : match act with do_create _ _ | do_update_gateway _ => True | _ => moves stays_listed (run parse_description act) end.
Proof.
  destruct act; try done.
  - cbn [run]. unfold asset_property_evaluate, asset_property_apply. listing_steps.
  - apply update_listed.
  - cbn [run]. unfold update_bitasset_evaluate, update_bitasset_apply. listing_steps.
  - cbn [run]. unfold producers_evaluate, producers_apply. listing_steps.
  - cbn [run]. unfold publish_evaluate, may_publish, publish_apply. listing_steps.
  - cbn [run]. unfold update_expired_feeds. apply moves_bind; [apply _|apply moves_get; apply _|intros d].
    apply moves_bind; [apply _| |intros _].
    + unfold update_expired_feed. listing_steps.
    + generalize (size (bitassets d)). intros fuel. induction fuel as [|fuel IH]; cbn; unfold update_core_exchange_rate; listing_steps.
  - cbn [run]. listing_steps.
Qed.

(** A new asset is listed by nobody. *)
Lemma create_unlisted pool des o d i d2 : create_apply pool des o d = Ok (i, d2) →
  ∃ a, assets d2 = <[next_asset d := a]> (assets d) ∧ whitelist_gateways a = ∅ ∧
    gateways d2 = gateways d ∧ accounts d2 = accounts d ∧ next_asset d2 = next_asset d + 1.
Proof.
  unfold create_apply. cbn. unfold mbind, M_bind, get_st, modify_st, mret, M_ret.
  destruct (create_bitasset_opts o) as [b|]; intros [= _ <-]; eexists; (split; [reflexivity|]); by split_and!.
Qed.

Lemma create_listed fee o : moves stays_listed (run parse_description (do_create fee o)).
Proof.
  intros d u d'. cbn [run]. intros (? & ? & [_ ->]%lift_Ok & Hrun)%M_bind_Ok.
  apply M_bind_Ok in Hrun as (des & d1 & <-%create_evaluate_reads & Hrun).
  apply M_bind_Ok in Hrun as ([pool rest] & ? & [_ ->]%lift_Ok & Hrun).
  apply M_bind_Ok in Hrun as (i & d2 & (a & Ea & Ew & Eg & Ec & En)%create_unlisted & [= _ <-]).
  intros [Hs Hf Ho Hfr].
  assert (assets d !! next_asset d = None) as Hnone.
  { apply eq_None_not_Some. intros Hi%Hfr. lia. }
  split; unfold carries; rewrite ?Eg, ?Ec; [|done..|].
  - intros acct j. rewrite (Hs acct j : (∃ _, _) ↔ _). unfold lists. rewrite Ea.
    destruct (decide (j = next_asset d)) as [->|]; [|by rewrite lookup_insert_ne].
    rewrite lookup_insert_eq, Hnone. split; [by intros (? & ? & _)|]. intros (? & [= <-] & Hin). rewrite Ew in Hin. set_solver.
  - intros j. rewrite Ea, En. destruct (decide (j = next_asset d)) as [->|]; [lia|]. rewrite lookup_insert_ne by done.
    intros Hj%Hfr. lia.
Qed.

Lemma update_gateway_evaluate_reads o : moves eq (update_gateway_evaluate o).
Proof. unfold update_gateway_evaluate, gateway_id_of. repeat moves_step. Qed.

(** The gateways of the asset are replaced, in both lists. *)
Lemma update_gateway_applied o d u d' : listed d → update_gateway_apply o d = Ok (u, d') →
  let i := gateway_asset o in let new := list_to_set (new_gateways o) : gset Z in
  accounts d' = accounts d ∧ next_asset d' = next_asset d ∧
  ∃ ass, assets d !! i = Some ass ∧ assets d' = <[i := set_whitelist_gateways new ass]> (assets d) ∧
  (∀ acct a g, accounts d !! acct = Some a → gateway_of a = Some g →
     gateways d' !! g = (λ s, (if bool_decide (acct ∈ new) then union {[i]} else id)
       (if bool_decide (acct ∈ whitelist_gateways ass) then s ∖ {[i]} else s)) <$> gateways d !! g) ∧
  (∀ acct, acct ∈ new → ∃ a g, accounts d !! acct = Some a ∧ gateway_of a = Some g).
Proof.
  intros Hl Hrun i new. pose proof (listed_one d Hl) as Hone.
  apply M_bind_Ok in Hrun as (ass & d0 & [Hass ->]%get_asset_run & Hrun).
  apply M_bind_Ok in Hrun as (u1 & d1 & Hloop & Hrun).
  apply modify_gateways_run in Hloop as (E1 & P1 & _); [|done|apply ordered_NoDup].
  apply M_bind_Ok in Hrun as (u2 & d2 & (a1 & Ha1 & ->)%modify_asset_run & Hrun).
  rewrite E1 in Ha1. cbn in Ha1. assert (a1 = ass) as -> by (subst i; congruence).
  apply M_bind_Ok in Hrun as (a2 & d3 & [Ha2 ->]%get_asset_run & Hrun). cbn in Ha2. rewrite lookup_insert_eq in Ha2.
  injection Ha2 as <-.
  apply M_bind_Ok in Hrun as (u3 & d4 & Hloop2 & [= _ <-]). cbn in Hloop2.
  apply modify_gateways_run in Hloop2 as (E2 & P2 & I2); [|cbn; rewrite E1; exact Hone|apply ordered_NoDup].
  cbn in P2, I2. rewrite E2, E1 in *. cbn in *. split_and!; [done..|].
  exists ass. split_and!; [done|done| |].
  - intros acct a g Ha Hg. rewrite (P2 acct a g Ha Hg), (P1 acct a g Ha Hg), <- option_fmap_compose.
    rewrite !(bool_decide_ext _ _ (ordered_elem _ _)). destruct (gateways d !! g); [cbn|done].
    do 2 f_equal. by case_bool_decide.
  - intros acct Hin. destruct (I2 acct) as (a & g & s & ? & ? & _); [by apply ordered_elem|]. by exists a, g.
Qed.

Lemma update_gateway_listed o : moves stays_listed (update_gateway_apply o).
Proof.
  intros d u d' Hrun Hl. apply update_gateway_applied in Hrun as (Ec & En & ass & Hass & Ea & Hg & Hnew); [|done].
  destruct Hl as [Hs Hf Ho Hfr]. set (i := gateway_asset o) in *. set (new := list_to_set (new_gateways o)) in *.
  assert (∀ acct a g s s', accounts d !! acct = Some a → gateway_of a = Some g → gateways d !! g = Some s →
    gateways d' !! g = Some s' → (∀ j, j ∈ s' ↔ if bool_decide (j = i) then acct ∈ new else j ∈ s)) as Hcarry.
  { intros acct a g s s' Ha Hga Hgs Hgs' j. rewrite (Hg acct a g Ha Hga), Hgs in Hgs'. injection Hgs' as <-.
    assert (acct ∈ whitelist_gateways ass ↔ i ∈ s) as Hold.
    { transitivity (lists d i acct); [split; [by exists ass|intros (? & ? & ?); congruence]|]. rewrite <- Hs.
      split; [intros (a' & g' & s' & ? & ? & ? & ?); congruence|by exists a, g, s]. }
    repeat case_bool_decide; subst; set_solver. }
  split.
  - intros acct j. destruct (decide (j = i)) as [->|Hne].
    + split.
      * intros (a & g & s' & Ha & Hga & Hgs' & Hin). rewrite Ec in Ha. destruct (Hf acct a g Ha Hga) as [s Hgs].
        apply (Hcarry acct a g s s') in Hin; [|done..]. rewrite bool_decide_true in Hin by done.
        exists (set_whitelist_gateways new ass). by rewrite Ea, lookup_insert_eq.
      * intros (b & Hb & Hin). rewrite Ea, lookup_insert_eq in Hb. injection Hb as <-. cbn in Hin.
        destruct (Hnew acct Hin) as (a & g & Ha & Hga). destruct (Hf acct a g Ha Hga) as [s Hgs].
        pose proof (Hg acct a g Ha Hga) as Hgs'. rewrite Hgs in Hgs'. eexists a, g, _. rewrite Ec. split_and!; [done..|].
        apply (Hcarry acct a g s _ Ha Hga Hgs Hgs'). by rewrite bool_decide_true.
    + transitivity (lists d j acct); [rewrite <- Hs|unfold lists; by rewrite Ea, lookup_insert_ne].
      split; intros (a & g & s & Ha & Hga & Hgs & Hin).
      * rewrite Ec in Ha. destruct (Hf acct a g Ha Hga) as [s0 Hgs0]. exists a, g, s0. split_and!; [done..|].
        apply (Hcarry acct a g s0 s) in Hin; [|done..]. by rewrite bool_decide_false in Hin.
      * pose proof (Hg acct a g Ha Hga) as Hgs'. rewrite Hgs in Hgs'. eexists a, g, _. rewrite Ec. split_and!; [done..|].
        apply (Hcarry acct a g s _ Ha Hga Hgs Hgs'). by rewrite bool_decide_false.
  - intros acct a g. rewrite Ec. intros Ha Hga. rewrite (Hg acct a g Ha Hga). apply fmap_is_Some. by eapply Hf.
  - rewrite Ec. exact Ho.
  - intros j Hj. rewrite En. apply Hfr. rewrite Ea in Hj. destruct (decide (j = i)) as [->|]; [by eexists|].
    by rewrite lookup_insert_ne in Hj.
Qed.
End Market.

(** ** Gateways list their assets *)

(** Everything [do_allowed_asset] does. *)
Lemma do_allowed_asset_applied acct old new d s d' : do_allowed_asset acct old new d = Ok (s, d') →
  s = new ∧ accounts d' = accounts d ∧ gateways d' = gateways d ∧ next_asset d' = next_asset d ∧
  (∀ i, is_Some (assets d' !! i) ↔ is_Some (assets d !! i)) ∧
  (∀ i x, lists d' i x ↔ if bool_decide (x = acct) then i ∈ new ∨ i ∉ old ∧ lists d i x else lists d i x).
Proof.
  intros (u1 & d1 & Hold & Hrun)%M_bind_Ok. apply M_bind_Ok in Hrun as (u2 & d2 & Hnew & [= <- <-]).
  apply modify_assets_run in Hold as (E1 & P1 & I1); [|apply ordered_NoDup].
  apply modify_assets_run in Hnew as (E2 & P2 & I2); [|apply ordered_NoDup].
  rewrite E2, E1. cbn. split_and!; [done..| |].
  - intros i. by rewrite P2, P1, !fmap_is_Some.
  - intros i x. unfold lists. cbn. rewrite P2, P1.
    assert (i ∈ new → is_Some (assets d !! i)) as Hreal.
    { intros Hin%ordered_elem%I2. rewrite P1 in Hin. by apply fmap_is_Some in Hin. }
    rewrite !(bool_decide_ext _ _ (ordered_elem _ _)). destruct (assets d !! i) as [a|] eqn:Ha; cbn.
    + split; [intros (b & [= <-] & Hin)|intros Hin; eexists; split; [reflexivity|]]; repeat case_bool_decide; cbn in *; subst; set_solver.
    + case_bool_decide; [|set_solver]. split; [by intros (? & ? & _)|]. intros [[? ?]%Hreal|(_ & ? & ? & _)]; congruence.
Qed.

Lemma create_listing_listed g acct allowed d u d' : gateways d !! g = None →
  create_listing g acct allowed d = Ok (u, d') → listed d → listed d'.
Proof.
  intros Hg (a & d0 & [Ha ->]%registry_account_run & Hrun)%M_bind_Ok [Hs Hf Ho Hfr].
  apply M_bind_Ok in Hrun as ([] & ? & [Hnew ->]%assert_st_Ok & Hrun). apply bool_decide_eq_true in Hnew.
  apply M_bind_Ok in Hrun as (s & d1 & (-> & Ec & Eg & En & Ea & El)%do_allowed_asset_applied & Hrun).
  injection Hrun as _ <-.
  assert (∀ acct' a' g', accounts d !! acct' = Some a' → gateway_of a' = Some g' → g' ≠ g) as Hne.
  { intros acct' a' g' Ha' Hg' ->. destruct (Hf acct' a' g Ha' Hg'). congruence. }
  split; unfold carries; cbn; rewrite ?Ec, ?Eg.
  - intros x j. destruct (decide (x = acct)) as [->|].
    + transitivity (j ∈ allowed).
      * split; [intros (? & ? & ? & Hx & Hy & Hz & ?)|intros Hin; exists (as_gateway g a), g, allowed].
        -- rewrite lookup_insert_eq in Hx. injection Hx as <-. injection Hy as <-. rewrite lookup_insert_eq in Hz. congruence.
        -- by rewrite !lookup_insert_eq.
      * transitivity (lists d1 j acct); [|done]. rewrite El, bool_decide_true by done. split; [by left|].
        intros [?|[_ (a' & g' & s' & ? & ? & _)%Hs]]; [done|congruence].
    + transitivity (lists d1 j x); [|done]. rewrite El, bool_decide_false, <- Hs by done.
      split; intros (a' & g' & s' & Hx & Hy & Hz & ?); exists a', g', s'; rewrite lookup_insert_ne in * by done.
      * assert (g' ≠ g) by eauto. rewrite lookup_insert_ne in Hz by done. done.
      * assert (g' ≠ g) by eauto. by rewrite lookup_insert_ne by done.
  - intros x a' g' Hx Hg'. destruct (decide (g' = g)) as [->|]; [by rewrite lookup_insert_eq; eexists|].
    rewrite lookup_insert_ne by done. destruct (decide (x = acct)) as [->|].
    + rewrite lookup_insert_eq in Hx. injection Hx as <-. injection Hg' as ->. done.
    + rewrite lookup_insert_ne in Hx by done. by eapply Hf.
  - intros x1 a1 x2 a2 g'. destruct (decide (x1 = acct)) as [->|], (decide (x2 = acct)) as [->|]; rewrite ?lookup_insert_eq, ?lookup_insert_ne by done; [done| | |apply Ho].
    + intros [= <-] Hx [= <-] Hy. exfalso. by eapply Hne.
    + intros Hx [= <-] Hy [= <-]. exfalso. by eapply Hne.
  - intros j. cbn. rewrite En. intros Hj%Ea. by apply Hfr.
Qed.

Lemma update_listing_listed g acct allowed : moves stays_listed (update_listing g acct allowed).
Proof.
  intros d u d' (a & d0 & [Ha ->]%registry_account_run & Hrun)%M_bind_Ok [Hs Hf Ho Hfr].
  apply M_bind_Ok in Hrun as ([] & ? & [Hga ->]%assert_st_Ok & Hrun). apply bool_decide_eq_true in Hga.
  apply M_bind_Ok in Hrun as (old & ? & Hget & Hrun). unfold get_gateway, found, mbind, M_bind, get_st in Hget.
  destruct (gateways d !! g) as [old'|] eqn:Hold; [|done]. injection Hget as -> <-.
  apply M_bind_Ok in Hrun as (s & d1 & (-> & Ec & Eg & En & Ea & El)%do_allowed_asset_applied & Hrun).
  apply modify_gateway_run in Hrun as (s & _ & ->).
  assert (∀ x, x ≠ acct → ∀ a' g', accounts d !! x = Some a' → gateway_of a' = Some g' → g' ≠ g) as Hne.
  { intros x Hx a' g' Ha' Hg' ->. by apply Hx, (Ho x a' acct a g). }
  split; unfold carries; cbn; rewrite ?Ec, ?Eg.
  - intros x j. transitivity (lists d1 j x); [|done]. rewrite El. destruct (decide (x = acct)) as [->|Hx].
    + rewrite bool_decide_true by done. split.
      * intros (a' & g' & s' & Ha' & Hg' & Hs' & Hin). assert (g' = g) as -> by congruence.
        rewrite lookup_insert_eq in Hs'. left. congruence.
      * intros [Hin|[Hin (a' & g' & s' & ? & ? & ? & ?)%Hs]]; [|congruence].
        exists a, g, allowed. by rewrite lookup_insert_eq.
    + rewrite bool_decide_false, <- Hs by done.
      split; intros (a' & g' & s' & Ha' & Hg' & Hs' & Hin); exists a', g', s'; assert (g' ≠ g) by (by eapply Hne).
      * by rewrite lookup_insert_ne in Hs' by done.
      * by rewrite lookup_insert_ne by done.
  - intros x a' g' Hx Hg'. destruct (decide (g' = g)) as [->|]; [by rewrite lookup_insert_eq; eexists|].
    rewrite lookup_insert_ne by done. by eapply Hf.
  - exact Ho.
  - intros j. cbn. rewrite En. intros Hj%Ea. by apply Hfr.
Qed.

(** What else the two do: who has which gateway. *)
Lemma create_listing_applied g acct allowed d u d' : create_listing g acct allowed d = Ok (u, d') →
  ∃ a, accounts d !! acct = Some a ∧ gateway_of a = None ∧ accounts d' = <[acct := as_gateway g a]> (accounts d) ∧
    gateways d' = <[g := allowed]> (gateways d).
Proof.
  intros (a & d0 & [Ha ->]%registry_account_run & Hrun)%M_bind_Ok.
  apply M_bind_Ok in Hrun as ([] & ? & [Hnew ->]%assert_st_Ok & Hrun). apply bool_decide_eq_true in Hnew.
  apply M_bind_Ok in Hrun as (s & d1 & (-> & Ec & Eg & _)%do_allowed_asset_applied & Hrun).
  injection Hrun as _ <-. cbn. rewrite Ec, Eg. by exists a.
Qed.

Lemma update_listing_applied g acct allowed d u d' : update_listing g acct allowed d = Ok (u, d') →
  is_Some (gateways d !! g) ∧ accounts d' = accounts d ∧ gateways d' = <[g := allowed]> (gateways d).
Proof.
  intros (a & d0 & [Ha ->]%registry_account_run & Hrun)%M_bind_Ok.
  apply M_bind_Ok in Hrun as ([] & ? & [Hga ->]%assert_st_Ok & Hrun).
  apply M_bind_Ok in Hrun as (old & ? & Hget & Hrun). unfold get_gateway, found, mbind, M_bind, get_st in Hget.
  destruct (gateways d !! g) as [old'|] eqn:Hold; [|done]. injection Hget as -> <-.
  apply M_bind_Ok in Hrun as (s & d1 & (-> & Ec & Eg & _)%do_allowed_asset_applied & Hrun).
  apply modify_gateway_run in Hrun as (s & _ & ->). cbn. rewrite Ec, Eg. split_and!; [by eexists|done..].
Qed.

(** ** Reachable states *)

Section Reachable.
Context {U : Type} `{Multiprecision U} {Q : Type} `{Rational Q} `{Selection} `{MarketLaws}.
Context (parse_description : string → result (string * string)).

(** The operations on assets and on gateways, and the updates of a block. *)
Inductive listing_step : database → database → Prop :=
  | registry_step act d u d' : run parse_description act d = Ok (u, d') → listing_step d d'
  | create_step g acct allowed d u d' : gateways d !! g = None → create_listing g acct allowed d = Ok (u, d') → listing_step d d'
  | update_step g acct allowed d u d' : update_listing g acct allowed d = Ok (u, d') → listing_step d d'.

(** C37: the assets and the gateways agree at all times: whatever operations on assets and on
    gateways are applied, in any order, an account is listed among the gateways of an asset
    just when it has a gateway and that gateway carries the asset; and the gateways have
    one account each.  Issue and withdrawal look at the first list, authentication at the
    second. *)
Theorem whitelists_mirror d d' : listed d → rtc listing_step d d' →
  listed d' ∧ ∀ acct i, lists d' i acct ↔ carries d' acct i.
Proof.
  intros Hl Hsteps. cut (listed d'); [intros Hl'; split; [done|intros; symmetry; by apply listed_same]|].
  revert Hl. induction Hsteps as [d|d d1 d' Hstep Hsteps IH]; intros Hl; [done|]. apply IH.
  destruct Hstep as [act d u d1 Hrun|g acct allowed d u d1 Hg Hrun|g acct allowed d u d1 Hrun].
  - pose proof (others_listed parse_description act) as Hothers.
    destruct act; try by apply (Hothers _ _ _ Hrun Hl).
    + by apply (create_listed parse_description _ _ _ _ _ Hrun).
    + cbn [run] in Hrun. apply M_bind_Ok in Hrun as (? & ? & [_ ->]%lift_Ok & Hrun).
      apply M_bind_Ok in Hrun as (? & ? & <-%update_gateway_evaluate_reads & Hrun). by apply (update_gateway_listed _ _ _ _ Hrun).
  - by apply (create_listing_listed g acct allowed d u d1).
  - by apply (update_listing_listed g acct allowed d u d1).
Qed.
End Reachable.

(** ** A gateway that moves *)

Module ListingsExample.
Import CollateralExample FeedsExample RegistryExample.

(** Two options of lenders on USD, of different products. *)
Definition start : database :=
  set_gateways ∅ (<[0 := mk_lender_option 1 lender_desc ∅]> (<[1 := mk_lender_option 1 "OTHER" ∅]> ∅)) demo.
(** Account 5 becomes a gateway for USD; the issuer of USD then takes account 5 alone; the
    gateway turns to gold. *)
Definition opened : database := after (create_listing 0 5 {[1]}) start.
Definition take_5 : asset_update_gateway_operation := mk_update_gateway (mk_asset 0 0) 9 1 [5].
Definition chosen : database := after (run (do_update_gateway take_5)) opened.
Definition moved : database := after (update_listing 0 5 {[2]}) chosen.

Lemma no_gateways acct a : accounts start !! acct = Some a → gateway_of a = None.
Proof. unfold start, demo. cbn [accounts set_gateways]. rewrite !lookup_insert_Some, lookup_empty. naive_solver. Qed.

Lemma start_listed : listed start.
Proof.
  split.
  - intros acct i. split.
    + intros (a & g & s & Ha & Hg & _). apply no_gateways in Ha. congruence.
    + intros (a & Ha & Hin). apply demo_assets in Ha as [[_ ->]|[[_ ->]|[_ ->]]]; by apply not_elem_of_empty in Hin.
  - intros acct a g Ha Hg. apply no_gateways in Ha. congruence.
  - intros acct1 a1 acct2 a2 g Ha1 Ha2 Hg1. apply no_gateways in Ha1. congruence.
  - exact demo_fresh.
Qed.

Lemma moves_there : rtc (listing_step (U := checked128) (Q := reduced) no_description) start moved.
Proof.
  apply (rtc_l _ _ opened); [apply (create_step _ 0 5 {[1]} start () opened eq_refl); vm_compute; reflexivity|].
  apply (rtc_l _ _ chosen); [apply (registry_step _ (do_update_gateway take_5) opened () chosen); vm_compute; reflexivity|].
  apply rtc_once, (update_step _ 0 5 {[2]} chosen () moved). vm_compute. reflexivity.
Qed.

Lemma whitelists_mirror_witness : listed moved ∧ ∀ acct i, lists moved i acct ↔ carries moved acct i.
Proof. exact (whitelists_mirror no_description start moved start_listed moves_there). Defined.

Example listed_for : whitelist_gateways <$> assets opened !! 1 = Some {[5]} ∧ whitelist_gateways <$> assets moved !! 1 = Some ∅ ∧
  whitelist_gateways <$> assets moved !! 2 = Some {[5]} ∧ gateways moved !! 0 = Some {[2]}.
Proof. by vm_compute. Qed.

(** The two evaluators copy the gateways of an asset to different options of the lenders: a
    change by the gateway reaches every product, a change by the issuer only the loans. *)
Definition withdrawn : database := after (run (do_update_gateway (mk_update_gateway (mk_asset 0 0) 9 1 []))) opened.
Theorem options_left_behind :
  (lender_gateways <$> lender_options opened !! 1 = Some {[5]}) ∧
  (lender_gateways <$> lender_options withdrawn !! 0 = Some ∅) ∧ (lender_gateways <$> lender_options withdrawn !! 1 = Some {[5]}) ∧
  (whitelist_gateways <$> assets withdrawn !! 1 = Some ∅).
Proof. by vm_compute. Qed.
End ListingsExample.
