(* ===== verification/Identities.v ===== *)
(** * Identities: witnesses, committee and budget members, gateways, carriers and authors

    witness_evaluator.cpp, committee_member_evaluator.cpp, budget_member_evaluator.cpp,
    gateway_evaluator.cpp, carrier_evaluator.cpp, author_evaluator.cpp and the operations they
    evaluate: an account takes a role, locks a pledge for it, gives the role up and gets the
    pledge back.  The six objects share the fields of [member]; [details] has the others. *)

From S2P Require Import Prelude ObjectId Safe Uint128 Asset Vesting Balance Authority Votes Names Transfers AssetRegistry Listings.
From Stdlib Require Import ZArith.
From stdpp Require Import gmap strings.

Local Open Scope Z_scope.

(** ** types.hpp, account_object.hpp, config.hpp *)

Inductive kind := committee | witness | budget | gateway | carrier | author.
#[export] Instance kind_eq_dec : EqDecision kind.
Proof. solve_decision. Defined.
Definition kind_number (k : kind) : nat :=
  match k with committee => 0 | witness => 1 | budget => 2 | gateway => 3 | carrier => 4 | author => 5 end.
Definition kind_of_number (n : nat) : option kind :=
  match n with 0 => Some committee | 1 => Some witness | 2 => Some budget | 3 => Some gateway | 4 => Some carrier | 5 => Some author
  | _ => None end%nat.
#[export] Instance kind_countable : Countable kind.
Proof. refine (inj_countable kind_number kind_of_number _). by intros []. Defined.

(** The numbers of [object_type], the flags of accounts and the types of votes. *)
Definition kind_of_type (t : Z) : option kind :=
  if t =? 5 then Some committee else if t =? 20 then Some gateway else if t =? 6 then Some witness
  else if t =? 21 then Some carrier else if t =? 25 then Some author else if t =? 22 then Some budget else None.
Definition account_flag (k : kind) : Z :=
  match k with gateway => 1 | carrier => 2 | witness => 16 | committee => 32 | budget => 64 | author => 33554432 end.
Definition vote_type_of (k : kind) : Z :=
  match k with committee => 0 | witness => 1 | gateway => 3 | carrier => 4 | budget => 5 | author => 6 end.
Definition vote_type_worker : Z := 2.

Inductive identity_type := identity_disable | identity_enable | identity_enable_lost.
#[export] Instance identity_type_eq_dec : EqDecision identity_type.
Proof. solve_decision. Defined.

Definition GRAPHENE_MAX_URL_LENGTH : nat := 127.
Definition gateway_mask : Z := 239.
Definition carrier_mask : Z := 239.
Definition carrier_op_mask : Z := 3.
Definition author_mask : Z := 458752.

(** ** The objects *)

Inductive details :=
  | committee_details
  | witness_details (signing_key : Z)
  | budget_details (votes : gset Z)
  | gateway_details (need_auth : Z) (trust_auth : gmap Z Z) (def_auth : option Z) (dynamic_id : Z)
  | carrier_details (need_auth : Z) (config : string) (op_type dynamic_id : Z)
  | author_details (auth_type : Z) (allow_asset : list Z) (config : string).

Record member := mk_member {
  name : string;
  member_account : Z;
  vote_id : Z;
  url : string;
  memo : string;
  lock_asset : asset;
  enable : identity_type;
  info : details
}.

(** [gateway_dynamic_object]. *)
Record gateway_dynamic := mk_gateway_dynamic {
  deposit_amount : gmap Z Z;
  withdraw_amount : gmap Z Z;
  deposit_count : gmap Z Z;
  withdraw_count : gmap Z Z;
  issue_amount : gmap Z Z
}.
Definition no_traffic : gateway_dynamic := mk_gateway_dynamic ∅ ∅ ∅ ∅ ∅.

Record state := mk_state {
  books : ledger;
  registry : AssetRegistry.database;
  lifetime_members : gset Z;
  locked : gmap Z asset;
  members : gmap (kind * Z) member;
  next_member : gmap kind Z;
  gateway_dynamics : gmap Z gateway_dynamic;
  next_gateway_dynamic : Z;
  next_carrier_dynamic : Z;
  next_available_vote_id : Z;
  workers : gset Z;
  lock_fee : kind → Z;
  identify_lock_vesting_seconds : Z
}.

Definition set_books l s := mk_state l (registry s) (lifetime_members s) (locked s) (members s) (next_member s)
  (gateway_dynamics s) (next_gateway_dynamic s) (next_carrier_dynamic s) (next_available_vote_id s) (workers s) (lock_fee s) (identify_lock_vesting_seconds s).
Definition set_registry d s := mk_state (books s) d (lifetime_members s) (locked s) (members s) (next_member s)
  (gateway_dynamics s) (next_gateway_dynamic s) (next_carrier_dynamic s) (next_available_vote_id s) (workers s) (lock_fee s) (identify_lock_vesting_seconds s).
Definition set_locked m s := mk_state (books s) (registry s) (lifetime_members s) m (members s) (next_member s)
  (gateway_dynamics s) (next_gateway_dynamic s) (next_carrier_dynamic s) (next_available_vote_id s) (workers s) (lock_fee s) (identify_lock_vesting_seconds s).
Definition set_members m n s := mk_state (books s) (registry s) (lifetime_members s) (locked s) m n
  (gateway_dynamics s) (next_gateway_dynamic s) (next_carrier_dynamic s) (next_available_vote_id s) (workers s) (lock_fee s) (identify_lock_vesting_seconds s).
Definition set_next_vote n s := mk_state (books s) (registry s) (lifetime_members s) (locked s) (members s) (next_member s)
  (gateway_dynamics s) (next_gateway_dynamic s) (next_carrier_dynamic s) n (workers s) (lock_fee s) (identify_lock_vesting_seconds s).
Definition set_dynamics D g c s := mk_state (books s) (registry s) (lifetime_members s) (locked s) (members s) (next_member s)
  D g c (next_available_vote_id s) (workers s) (lock_fee s) (identify_lock_vesting_seconds s).

Definition on_books {A} : M ledger A → M state A := zoom books set_books.
Definition on_registry {A} : M AssetRegistry.database A → M state A := zoom registry set_registry.

(** [op.account( db )]: the account as the ledger has it; its name is in the registry. *)
Definition get_account (i : Z) : M state account_object := on_books (get Balance.accounts i).
Definition name_of (i : Z) : M state string := a ← on_registry (AssetRegistry.get_account i); mret (account_name a).
Definition is_lifetime_member (i : Z) : M state bool := s ← get_st; mret (bool_decide (i ∈ lifetime_members s)).
Definition has_flag (k : kind) (a : account_object) : bool := any (uaccount_property a) (account_flag k).
Definition balance_of (owner i : Z) : M state asset := s ← get_st; mret (get_balance owner i (books s)).

(** [db.get_fee( operation, 1 )]: the pledge of the role. *)
Definition get_fee (k : kind) : M state asset := s ← get_st; mret (mk_asset (to_sint 64 (lock_fee s k)) GRAPHENE_CORE_ASSET).

(** [balance >= amount] of assets. *)
Definition covers (balance needed : asset) : M state () := lt ← lift (asset_ltb balance needed); assert_st (negb lt).

(** ** Steps the evaluators share *)

(** The checks of a creation: [pays] adds the fee to what the account has to have.  The pledge
    is the default asset when the fee is at most 1. *)
Definition create_checks (k : kind) (acct : Z) (fee : asset) (pays : bool) : M state asset :=
  lifetime ← is_lifetime_member acct;
  assert_st lifetime ;;
  a ← get_account acct;
  assert_st (negb (has_flag k a)) ;;
  if 1 <? amount fee then
    lock_fees ← get_fee k;
    needed ← (if pays then lift (asset_add lock_fees fee) else mret lock_fees);
    balance ← balance_of acct (asset_id fee);
    covers balance needed ;;
    mret lock_fees
  else mret (mk_asset 0 GRAPHENE_CORE_ASSET).

Definition check_unlocked (acct : Z) : M state () := a ← get_account acct; assert_st (negb (is_lock_balance a)).

(** [get_next_vote_id]. *)
Definition take_vote_id (k : kind) : M state Z :=
  s ← get_st;
  let '(v, next) := get_next_vote_id (next_available_vote_id s) (vote_type_of k) in
  modify_st (set_next_vote next) ;;
  mret v.

(** [db.create]: the indices of every object are unique by account and by vote identifier. *)
Definition create_member (k : kind) (m : member) : M state Z :=
  s ← get_st;
  assert_st (bool_decide (map_Forall (λ p m', p.1 = k → member_account m' ≠ member_account m ∧ vote_id m' ≠ vote_id m) (members s))) ;;
  let i := default 0 (next_member s !! k) in
  modify_st (set_members (<[(k, i) := m]> (members s)) (<[k := i + 1]> (next_member s))) ;;
  mret i.

Definition get_member (k : kind) (i : Z) : M state member :=
  s ← get_st; lift (match members s !! (k, i) with Some m => Ok m | None => Throw other_exception end).
Definition modify_member (k : kind) (i : Z) (f : member → member) : M state () :=
  m ← get_member k i; modify_st (λ s, set_members (<[(k, i) := f m]> (members s)) (next_member s) s).

(** [p.uaccount_property |= flag]. *)
Definition set_flag (k : kind) (a : account_object) : account_object :=
  Balance.mk_account (registrar a) (referrer a) (lifetime_referrer a) (network_fee_percentage a)
    (lifetime_referrer_fee_percentage a) (referrer_rewards_percentage a) (cashback_vb a) (Z.lor (uaccount_property a) (account_flag k)).
Definition take_flag (k : kind) (acct : Z) : M state () :=
  on_books (a ← get Balance.accounts acct; modify_st (λ l, Balance.set_accounts (<[acct := set_flag k a]> (Balance.accounts l)) l)).

(** [auto statistics = account.statistics( db ); db.modify( statistics, f )].  The variable
    is a copy of the object, but the index of the statistics is a [simple_index] (db_init.cpp),
    whose [modify] looks the stored object up by the instance of the identifier of its
    argument and applies [f] to that, and the undo history saves the copy, which is equal to
    the stored object then.  So the stored [lock_asset] changes. *)
Definition modify_statistics (acct : Z) (f : asset → result asset) : M state () :=
  s ← get_st;
  old ← lift (match locked s !! acct with Some a => Ok a | None => Throw other_exception end);
  new ← lift (f old);
  modify_st (set_locked (<[acct := new]> (locked s))).

(** The pledge leaves the balance and is added to [lock_asset] of the statistics. *)
Definition lock_pledge (utype acct : Z) (lock_fees : asset) : M state () :=
  debit ← lift (asset_neg lock_fees);
  on_books (adjust_balance utype "" acct debit) ;;
  modify_statistics acct (λ old, asset_add old lock_fees).

(** The end of every creation. *)
Definition take_role (k : kind) (utype acct : Z) (lock_fees : asset) : M state () :=
  take_flag k acct ;;
  if 0 <? amount lock_fees then lock_pledge utype acct lock_fees else mret ().

(** ** The operations and their validation *)

Record witness_create_operation := mk_witness_create {
  wc_fee : asset; wc_account : Z; wc_url : string; wc_memo : string; block_signing_key : Z }.
Record witness_update_operation := mk_witness_update {
  wu_fee : asset; wu_witness : Z; wu_account : Z; wu_url : option string; wu_memo : option string; new_signing_key : option Z }.
Record change_identity_operation := mk_change_identity {
  ci_fee : asset; ci_issuer : Z; ci_object : object_id_type; ci_enable : bool }.
Record committee_member_create_operation := mk_committee_create {
  cc_fee : asset; cc_account : Z; cc_url : string; cc_memo : string }.
Record committee_member_update_operation := mk_committee_update {
  cu_fee : asset; cu_member : Z; cu_account : Z; cu_url : option string; cu_memo : option string }.
Record budget_member_create_operation := mk_budget_create {
  bc_fee : asset; bc_account : Z; bc_url : string; bc_memo : string }.
Record budget_member_update_operation := mk_budget_update {
  bu_fee : asset; bu_member : Z; bu_account : Z; bu_url : option string; bu_memo : option string; bu_votes : option (gset Z) }.
Record gateway_create_operation := mk_gateway_create {
  gc_fee : asset; gc_account : Z; gc_need_auth : Z; gc_url : string; gc_memo : string; gc_allowed_asset : gset Z }.
Record gateway_update_operation := mk_gateway_update {
  gu_fee : asset; gu_gateway : Z; gu_account : Z; gu_need_auth : option Z; gu_url : option string; gu_memo : option string;
  gu_allowed_asset : option (gset Z) }.
Record carrier_create_operation := mk_carrier_create {
  rc_fee : asset; rc_account : Z; rc_need_auth : Z; rc_url : string; rc_memo : string; rc_config : option string }.
Record carrier_update_operation := mk_carrier_update {
  ru_fee : asset; ru_carrier : Z; ru_account : Z; ru_need_auth : option Z; ru_url : option string; ru_memo : option string;
  ru_config : option string }.
Record author_create_operation := mk_author_create {
  ac_fee : asset; ac_account : Z; ac_auth_type : Z; ac_allow_asset : list Z; ac_url : string; ac_memo : string; ac_config : option string }.
Record author_update_operation := mk_author_update {
  au_fee : asset; au_author : Z; au_account : Z; au_auth_type : option Z; au_url : option string; au_memo : option string;
  au_config : option string; au_allow_asset : option (list Z) }.

Definition when_set {A} (x : option A) (check : A → result ()) : result () := match x with Some a => check a | None => Ok () end.
Definition fee_paid (fee : asset) : result () := FC_ASSERT (0 <=? amount fee).
Definition url_valid (s : string) : result () :=
  FC_ASSERT (String.length s <? GRAPHENE_MAX_URL_LENGTH)%nat ;; FC_ASSERT (is_safe_string s).
Definition memo_valid (s : string) : result () :=
  FC_ASSERT (String.length s <? GRAPHENE_MAX_MEMO_LENGTH)%nat ;; FC_ASSERT (is_safe_string s).
Definition config_valid (limit : nat) (s : string) : result () :=
  FC_ASSERT (String.length s <? limit)%nat ;; FC_ASSERT (is_safe_js_string s).
Definition within_mask (mask x : Z) : result () := FC_ASSERT (negb (beyond x mask)).

Definition witness_create_validate (o : witness_create_operation) : result () :=
  fee_paid (wc_fee o) ;; url_valid (wc_url o) ;; memo_valid (wc_memo o).
Definition witness_update_validate (o : witness_update_operation) : result () :=
  fee_paid (wu_fee o) ;; when_set (wu_url o) url_valid ;; when_set (wu_memo o) memo_valid.
Definition committee_create_validate (o : committee_member_create_operation) : result () :=
  fee_paid (cc_fee o) ;; url_valid (cc_url o) ;; memo_valid (cc_memo o).
Definition committee_update_validate (o : committee_member_update_operation) : result () :=
  fee_paid (cu_fee o) ;; when_set (cu_url o) url_valid ;; when_set (cu_memo o) memo_valid.
Definition budget_create_validate (o : budget_member_create_operation) : result () :=
  fee_paid (bc_fee o) ;; url_valid (bc_url o) ;; memo_valid (bc_memo o).
Definition budget_update_validate (o : budget_member_update_operation) : result () :=
  fee_paid (bu_fee o) ;; when_set (bu_url o) url_valid ;; when_set (bu_memo o) memo_valid.
Definition gateway_create_validate (o : gateway_create_operation) : result () :=
  fee_paid (gc_fee o) ;; within_mask gateway_mask (gc_need_auth o) ;; url_valid (gc_url o) ;; memo_valid (gc_memo o).
Definition gateway_update_validate (o : gateway_update_operation) : result () :=
  fee_paid (gu_fee o) ;; when_set (gu_need_auth o) (within_mask gateway_mask) ;; when_set (gu_url o) url_valid ;;
  when_set (gu_memo o) memo_valid ;; when_set (gu_allowed_asset o) (λ s, FC_ASSERT (size s <? 102)%nat).
Definition carrier_create_validate (o : carrier_create_operation) : result () :=
  fee_paid (rc_fee o) ;; within_mask carrier_mask (rc_need_auth o) ;; url_valid (rc_url o) ;; memo_valid (rc_memo o) ;;
  when_set (rc_config o) (config_valid 500).
Definition carrier_update_validate (o : carrier_update_operation) : result () :=
  fee_paid (ru_fee o) ;; when_set (ru_need_auth o) (within_mask carrier_mask) ;; when_set (ru_url o) url_valid ;;
  when_set (ru_memo o) memo_valid ;; when_set (ru_config o) (config_valid 5000).
Definition author_create_validate (o : author_create_operation) : result () :=
  fee_paid (ac_fee o) ;; url_valid (ac_url o) ;; memo_valid (ac_memo o) ;; within_mask author_mask (ac_auth_type o) ;;
  FC_ASSERT (length (ac_allow_asset o) <? 100)%nat ;; when_set (ac_config o) (config_valid 500).
Definition author_update_validate (o : author_update_operation) : result () :=
  fee_paid (au_fee o) ;; when_set (au_auth_type o) (within_mask author_mask) ;; when_set (au_url o) url_valid ;;
  when_set (au_memo o) memo_valid ;; when_set (au_config o) (config_valid 500) ;;
  when_set (au_allow_asset o) (λ l, FC_ASSERT ((length l <? 100)%nat && (0 <? length l)%nat)).

(** ** Creations *)

Definition witness_create_evaluate (o : witness_create_operation) : M state asset :=
  lock_fees ← create_checks witness (wc_account o) (wc_fee o) false; check_unlocked (wc_account o) ;; mret lock_fees.
Definition witness_create_apply (lock_fees : asset) (o : witness_create_operation) : M state Z :=
  v ← take_vote_id witness;
  n ← name_of (wc_account o);
  i ← create_member witness (mk_member n (wc_account o) v (wc_url o) (wc_memo o) lock_fees identity_enable
        (witness_details (block_signing_key o)));
  take_role witness 78 (wc_account o) lock_fees ;; mret i.

Definition committee_create_evaluate (o : committee_member_create_operation) : M state asset :=
  lock_fees ← create_checks committee (cc_account o) (cc_fee o) false; check_unlocked (cc_account o) ;; mret lock_fees.
Definition committee_create_apply (lock_fees : asset) (o : committee_member_create_operation) : M state Z :=
  v ← take_vote_id committee;
  n ← name_of (cc_account o);
  i ← create_member committee (mk_member n (cc_account o) v (cc_url o) (cc_memo o) lock_fees identity_enable committee_details);
  take_role committee 42 (cc_account o) lock_fees ;; mret i.

Definition budget_create_evaluate (o : budget_member_create_operation) : M state asset :=
  lock_fees ← create_checks budget (bc_account o) (bc_fee o) false; check_unlocked (bc_account o) ;; mret lock_fees.
Definition budget_create_apply (lock_fees : asset) (o : budget_member_create_operation) : M state Z :=
  v ← take_vote_id budget;
  n ← name_of (bc_account o);
  i ← create_member budget (mk_member n (bc_account o) v (bc_url o) (bc_memo o) lock_fees identity_enable (budget_details ∅));
  take_role budget 40 (bc_account o) lock_fees ;; mret i.

Definition assets_exist (s : gset Z) : M state () := on_registry (mapM_ (λ i, get_asset i ;; mret ()) (ordered s)).

Definition gateway_create_evaluate (o : gateway_create_operation) : M state asset :=
  lock_fees ← create_checks gateway (gc_account o) (gc_fee o) true;
  assets_exist (gc_allowed_asset o) ;; check_unlocked (gc_account o) ;; mret lock_fees.
Definition gateway_create_apply (lock_fees : asset) (o : gateway_create_operation) : M state Z :=
  v ← take_vote_id gateway;
  n ← name_of (gc_account o);
  s ← get_st;
  modify_st (set_dynamics (<[next_gateway_dynamic s := no_traffic]> (gateway_dynamics s)) (next_gateway_dynamic s + 1) (next_carrier_dynamic s)) ;;
  i ← create_member gateway (mk_member n (gc_account o) v (gc_url o) (gc_memo o) lock_fees identity_enable
        (gateway_details (gc_need_auth o) ∅ None (next_gateway_dynamic s)));
  on_registry (create_listing i (gc_account o) (gc_allowed_asset o)) ;;
  take_role gateway 64 (gc_account o) lock_fees ;; mret i.

Definition carrier_create_evaluate (o : carrier_create_operation) : M state asset :=
  lock_fees ← create_checks carrier (rc_account o) (rc_fee o) true; check_unlocked (rc_account o) ;; mret lock_fees.
Definition carrier_create_apply (lock_fees : asset) (o : carrier_create_operation) : M state Z :=
  v ← take_vote_id carrier;
  n ← name_of (rc_account o);
  s ← get_st;
  modify_st (set_dynamics (gateway_dynamics s) (next_gateway_dynamic s) (next_carrier_dynamic s + 1)) ;;
  i ← create_member carrier (mk_member n (rc_account o) v (rc_url o) (rc_memo o) lock_fees identity_enable
        (carrier_details (rc_need_auth o) (default "" (rc_config o)) carrier_op_mask (next_carrier_dynamic s)));
  take_role carrier 41 (rc_account o) lock_fees ;; mret i.

Definition author_create_evaluate (o : author_create_operation) : M state asset :=
  lock_fees ← create_checks author (ac_account o) (ac_fee o) true; check_unlocked (ac_account o) ;; mret lock_fees.
Definition author_create_apply (lock_fees : asset) (o : author_create_operation) : M state Z :=
  v ← take_vote_id author;
  n ← name_of (ac_account o);
  i ← create_member author (mk_member n (ac_account o) v (ac_url o) (ac_memo o) lock_fees identity_enable
        (author_details (Z.land (ac_auth_type o) author_mask) (ac_allow_asset o) (default "" (ac_config o))));
  take_role author 97 (ac_account o) lock_fees ;; mret i.

(** ** Updates *)

Definition owned_by (k : kind) (i acct : Z) : M state () := m ← get_member k i; assert_st (member_account m =? acct).
Definition set_texts (u m : option string) (d : details → details) (x : member) : member :=
  mk_member (name x) (member_account x) (vote_id x) (default (url x) u) (default (memo x) m) (lock_asset x) (enable x) (d (info x)).

Definition witness_update_evaluate (o : witness_update_operation) : M state () :=
  owned_by witness (wu_witness o) (wu_account o) ;; check_unlocked (wu_account o).
Definition witness_update_apply (o : witness_update_operation) : M state () :=
  modify_member witness (wu_witness o) (set_texts (wu_url o) (wu_memo o) (λ d,
    match d with witness_details key => witness_details (default key (new_signing_key o)) | _ => d end)).

Definition committee_update_evaluate (o : committee_member_update_operation) : M state () :=
  owned_by committee (cu_member o) (cu_account o).
Definition committee_update_apply (o : committee_member_update_operation) : M state () :=
  modify_member committee (cu_member o) (set_texts (cu_url o) (cu_memo o) (λ d, d)).

(** Votes for workers that were removed are dropped. *)
Definition verify_budget_votes (s : state) (votes : gset Z) : gset Z :=
  filter (λ v, vote_type v = vote_type_worker → v ∈ workers s) votes.
Definition budget_update_evaluate (o : budget_member_update_operation) : M state () :=
  owned_by budget (bu_member o) (bu_account o).
Definition budget_update_apply (o : budget_member_update_operation) : M state () :=
  s ← get_st;
  modify_member budget (bu_member o) (set_texts (bu_url o) (bu_memo o) (λ d,
    match d with
    | budget_details votes => budget_details (match bu_votes o with Some v => verify_budget_votes s v | None => votes end)
    | _ => d
    end)).

Definition gateway_update_evaluate (o : gateway_update_operation) : M state () :=
  owned_by gateway (gu_gateway o) (gu_account o) ;;
  match gu_allowed_asset o with Some s => assets_exist s | None => mret () end.
Definition gateway_update_apply (o : gateway_update_operation) : M state () :=
  modify_member gateway (gu_gateway o) (set_texts (gu_url o) (gu_memo o) (λ d,
    match d with
    | gateway_details need trust def dyn => gateway_details (default need (gu_need_auth o)) trust def dyn
    | _ => d
    end)) ;;
  match gu_allowed_asset o with
  | Some s => m ← get_member gateway (gu_gateway o); on_registry (update_listing (gu_gateway o) (member_account m) s)
  | None => mret ()
  end.

Definition carrier_update_evaluate (o : carrier_update_operation) : M state () :=
  owned_by carrier (ru_carrier o) (ru_account o).
Definition carrier_update_apply (o : carrier_update_operation) : M state () :=
  modify_member carrier (ru_carrier o) (set_texts (ru_url o) (ru_memo o) (λ d,
    match d with
    | carrier_details need config ops dyn => carrier_details (default need (ru_need_auth o)) (default config (ru_config o)) ops dyn
    | _ => d
    end)).

Definition author_update_evaluate (o : author_update_operation) : M state () :=
  owned_by author (au_author o) (au_account o).
Definition author_update_apply (o : author_update_operation) : M state () :=
  modify_member author (au_author o) (set_texts (au_url o) (au_memo o) (λ d,
    match d with
    | author_details type allow config =>
        author_details (match au_auth_type o with Some t => Z.land t author_mask | None => type end)
          (default allow (au_allow_asset o)) (default config (au_config o))
    | _ => d
    end)).

(** ** change_identity_evaluator *)

(** The role of the object; an identifier of another type is refused. *)
Definition identity_of (o : change_identity_operation) : M state kind :=
  match kind_of_type (ObjectId.type (ci_object o)) with Some k => mret k | None => throw assert_exception end.

Definition change_identity_evaluate (o : change_identity_operation) : M state asset :=
  k ← identity_of o;
  m ← get_member k (instance (ci_object o));
  lock_fees ← get_fee k;
  assert_st (member_account m =? ci_issuer o) ;;
  (if ci_enable o
   then assert_st (bool_decide (enable m = identity_disable ∨ enable m = identity_enable_lost))
   else assert_st (bool_decide (enable m = identity_enable ∨ enable m = identity_enable_lost))) ;;
  (if ci_enable o && bool_decide (enable m = identity_disable) then
     balance ← balance_of (member_account m) (asset_id lock_fees); covers balance lock_fees
   else mret ()) ;;
  mret lock_fees.

Definition set_identity (lock : asset) (e : identity_type) (x : member) : member :=
  mk_member (name x) (member_account x) (vote_id x) (url x) (memo x) lock e (info x).

(** The pledge leaves [lock_asset] of the statistics. *)
Definition unlock_pledge (acct : Z) (lock_fees : asset) : M state () :=
  modify_statistics acct (λ old, asset_sub old lock_fees).

(** It becomes a vesting balance, or is paid at once when the time is at most an hour. *)
Definition return_pledge (acct : Z) (lock_fees : asset) : M state () :=
  s ← get_st;
  let secs := identify_lock_vesting_seconds s in
  if 3600 <? secs then
    on_books (modify_st (λ l,
      let policy := linear (mk_linear (head_block_time l) secs 1 (amount lock_fees)) in
      set_vestings (<[next_vesting_id l := mk_vbo acct 0 lock_fees policy true]> (vestings l)) (next_vesting_id l + 1) l))
  else on_books (adjust_balance 80 "" acct lock_fees).

(** [adjust_identify]. *)
Definition adjust_identify (k : kind) (i : Z) (lock_fees : asset) (o : change_identity_operation) : M state () :=
  m ← get_member k i;
  let acct := member_account m in
  if ci_enable o then
    (if bool_decide (enable m = identity_disable) && (0 <? amount lock_fees) then lock_pledge 79 acct lock_fees else mret ()) ;;
    modify_member k i (λ p,
      set_identity (if bool_decide (enable p = identity_disable) && (0 <? amount lock_fees) then lock_fees else lock_asset p)
        identity_enable p)
  else
    let lock_fees := lock_asset m in
    modify_member k i (λ p, set_identity (mk_asset 0 (asset_id (lock_asset p))) identity_disable p) ;;
    if 0 <? amount lock_fees then unlock_pledge acct lock_fees ;; return_pledge acct lock_fees else mret ().

Definition change_identity_apply (lock_fees : asset) (o : change_identity_operation) : M state () :=
  k ← identity_of o; adjust_identify k (instance (ci_object o)) lock_fees o.

(** ** The operations *)

Inductive identity_operation :=
  | op_witness_create (o : witness_create_operation) | op_witness_update (o : witness_update_operation)
  | op_committee_create (o : committee_member_create_operation) | op_committee_update (o : committee_member_update_operation)
  | op_budget_create (o : budget_member_create_operation) | op_budget_update (o : budget_member_update_operation)
  | op_gateway_create (o : gateway_create_operation) | op_gateway_update (o : gateway_update_operation)
  | op_carrier_create (o : carrier_create_operation) | op_carrier_update (o : carrier_update_operation)
  | op_author_create (o : author_create_operation) | op_author_update (o : author_update_operation)
  | op_change_identity (o : change_identity_operation).

Definition execute (op : identity_operation) : M state () :=
  match op with
  | op_witness_create o => lift (witness_create_validate o) ;; l ← witness_create_evaluate o; witness_create_apply l o ;; mret ()
  | op_witness_update o => lift (witness_update_validate o) ;; witness_update_evaluate o ;; witness_update_apply o
  | op_committee_create o => lift (committee_create_validate o) ;; l ← committee_create_evaluate o; committee_create_apply l o ;; mret ()
  | op_committee_update o => lift (committee_update_validate o) ;; committee_update_evaluate o ;; committee_update_apply o
  | op_budget_create o => lift (budget_create_validate o) ;; l ← budget_create_evaluate o; budget_create_apply l o ;; mret ()
  | op_budget_update o => lift (budget_update_validate o) ;; budget_update_evaluate o ;; budget_update_apply o
  | op_gateway_create o => lift (gateway_create_validate o) ;; l ← gateway_create_evaluate o; gateway_create_apply l o ;; mret ()
  | op_gateway_update o => lift (gateway_update_validate o) ;; gateway_update_evaluate o ;; gateway_update_apply o
  | op_carrier_create o => lift (carrier_create_validate o) ;; l ← carrier_create_evaluate o; carrier_create_apply l o ;; mret ()
  | op_carrier_update o => lift (carrier_update_validate o) ;; carrier_update_evaluate o ;; carrier_update_apply o
  | op_author_create o => lift (author_create_validate o) ;; l ← author_create_evaluate o; author_create_apply l o ;; mret ()
  | op_author_update o => lift (author_update_validate o) ;; author_update_evaluate o ;; author_update_apply o
  | op_change_identity o => l ← change_identity_evaluate o; change_identity_apply l o
  end.

(** * The steps, one by one *)

Lemma get_account_run i s a s' : get_account i s = Ok (a, s') → Balance.accounts (books s) !! i = Some a ∧ s' = s.
Proof. intros (l & [Ha ->]%get_Ok & ->)%zoom_Ok. split; [done|by destruct s]. Qed.

Lemma get_member_run k i s m s' : get_member k i s = Ok (m, s') → members s !! (k, i) = Some m ∧ s' = s.
Proof. unfold get_member, mbind, M_bind, get_st, lift. destruct (members s !! (k, i)); [|done]. by intros [= -> ->]. Qed.

Lemma name_of_reads i : moves eq (name_of i).
Proof.
  intros s n s' (a & s1 & (d & Hd & ->)%zoom_Ok & [= _ <-])%M_bind_Ok.
  apply (get_account_moves eq) in Hd as <-. by destruct s.
Qed.
Lemma assets_exist_reads x : moves eq (assets_exist x).
Proof.
  intros s u s' (d & Hd & ->)%zoom_Ok.
  assert (moves eq (mapM_ (λ i, get_asset i ;; mret ()) (ordered x))) as Hm by (repeat moves_step).
  apply Hm in Hd as <-. by destruct s.
Qed.
Lemma get_account_reads i : moves eq (get_account i).
Proof. by intros s a s' [_ ->]%get_account_run. Qed.
Lemma get_member_reads k i : moves eq (get_member k i).
Proof. by intros s a s' [_ ->]%get_member_run. Qed.
#[local] Hint Resolve name_of_reads assets_exist_reads get_account_reads get_member_reads : zos.

Lemma get_fee_run k s a s' : get_fee k s = Ok (a, s') → a = mk_asset (to_sint 64 (lock_fee s k)) 0 ∧ s' = s.
Proof. by intros [= <- <-]. Qed.

(** A creation is checked: the role is new, and the pledge is the one of the role, or none. *)
Lemma create_checks_run k acct fee pays s lock s' : create_checks k acct fee pays s = Ok (lock, s') →
  s' = s ∧ (∃ a, Balance.accounts (books s) !! acct = Some a ∧ has_flag k a = false) ∧
  (lock = mk_asset 0 0 ∨ lock = mk_asset (to_sint 64 (lock_fee s k)) 0).
Proof.
  intros (b & s0 & Hl & Hrun)%M_bind_Ok. injection Hl as _ <-.
  apply M_bind_Ok in Hrun as ([] & s1 & [_ ->]%assert_st_Ok & Hrun).
  apply M_bind_Ok in Hrun as (a & s1 & [Ha ->]%get_account_run & Hrun).
  apply M_bind_Ok in Hrun as ([] & s1 & [Hf ->]%assert_st_Ok & Hrun). apply negb_true_iff in Hf.
  destruct (1 <? amount fee); [|injection Hrun as <- <-; split_and!; [done|by exists a|by left]].
  apply M_bind_Ok in Hrun as (l & s1 & [-> ->]%get_fee_run & Hrun).
  apply M_bind_Ok in Hrun as (n & s1 & Hn & Hrun).
  assert (s1 = s) as -> by (destruct pays; [by apply lift_Ok in Hn as [_ ->]|by injection Hn]).
  apply M_bind_Ok in Hrun as (bal & s1 & [= _ <-] & Hrun).
  apply M_bind_Ok in Hrun as ([] & s1 & Hc & Hrun).
  apply M_bind_Ok in Hc as (lt & s2 & [_ ->]%lift_Ok & [_ ->]%assert_st_Ok).
  injection Hrun as <- <-. split_and!; [done|by exists a|by right].
Qed.

Lemma take_vote_id_run k s v s' : take_vote_id k s = Ok (v, s') →
  v = Votes.vote_id (vote_type_of k) (next_available_vote_id s) ∧ s' = set_next_vote (to_uint 64 (next_available_vote_id s + 1)) s.
Proof. by intros [= <- <-]. Qed.

Lemma create_member_run k m s i s' : create_member k m s = Ok (i, s') →
  (∀ p m', members s !! p = Some m' → p.1 = k → member_account m' ≠ member_account m ∧ vote_id m' ≠ vote_id m) ∧
  i = default 0 (next_member s !! k) ∧
  s' = set_members (<[(k, i) := m]> (members s)) (<[k := i + 1]> (next_member s)) s.
Proof.
  intros (s0 & s1 & [= <- <-] & Hrun)%M_bind_Ok.
  apply M_bind_Ok in Hrun as ([] & s1 & [Hu ->]%assert_st_Ok & [= <- <-]). by apply bool_decide_eq_true in Hu.
Qed.

Lemma modify_member_run k i f s u s' : modify_member k i f s = Ok (u, s') →
  ∃ m, members s !! (k, i) = Some m ∧ s' = set_members (<[(k, i) := f m]> (members s)) (next_member s) s.
Proof. intros (m & s1 & [Hm ->]%get_member_run & [= _ <-])%M_bind_Ok. by exists m. Qed.

Lemma take_flag_run k acct s u s' : take_flag k acct s = Ok (u, s') →
  ∃ a, Balance.accounts (books s) !! acct = Some a ∧
    s' = set_books (Balance.set_accounts (<[acct := set_flag k a]> (Balance.accounts (books s))) (books s)) s.
Proof. intros (l & (a & l1 & [Ha ->]%get_Ok & [= _ <-])%M_bind_Ok & ->)%zoom_Ok. by exists a. Qed.

Lemma asset_add_Ok b a c : int64 (amount b) → int64 (amount a) → asset_add b a = Ok c →
  asset_id b = asset_id a ∧ int64 (amount b + amount a) ∧ c = mk_asset (amount b + amount a) (asset_id a).
Proof.
  intros Hb Ha Hc. unfold asset_add in Hc. inv_ok.
  match goal with Hs : safe_add _ _ = Ok _ |- _ => apply safe_add_Ok in Hs as [-> Hr]; [|done..] end.
  assert (asset_id b = asset_id a) as -> by lia. done.
Qed.
Lemma asset_sub_Ok b a c : int64 (amount b) → int64 (amount a) → asset_sub b a = Ok c →
  asset_id b = asset_id a ∧ int64 (amount b - amount a) ∧ c = mk_asset (amount b - amount a) (asset_id a).
Proof.
  intros Hb Ha Hc. unfold asset_sub in Hc. inv_ok.
  match goal with Hs : safe_sub _ _ = Ok _ |- _ => apply safe_sub_Ok in Hs as [-> Hr]; [|done..] end.
  assert (asset_id b = asset_id a) as -> by lia. done.
Qed.

(** The pledge moves from the balance to the statistics. *)
Definition pledge_moved (acct : Z) (d : asset) (s s' : state) : Prop :=
  ∃ old l, locked s !! acct = Some old ∧ asset_id old = asset_id d ∧ int64 (amount old + amount d) ∧
    credited (acct, asset_id d) (- amount d) (books s) l ∧ ledger_ok l ∧
    s' = set_locked (<[acct := mk_asset (amount old + amount d) (asset_id d)]> (locked s)) (set_books l s).

Lemma lock_pledge_run utype acct d s u s' :
  ledger_ok (books s) → int64 (amount d) → 0 < amount d →
  (∀ x a, locked s !! x = Some a → int64 (amount a)) →
  lock_pledge utype acct d s = Ok (u, s') → pledge_moved acct d s s'.
Proof.
  intros Hl Hd Hpos Hty (neg & s1 & [Hneg ->]%lift_Ok & Hrun)%M_bind_Ok.
  unfold asset_neg in Hneg. apply bind_Ok in Hneg as (n & Hn & [= <-]). apply safe_neg_Ok in Hn as [-> Hn]; [|done].
  apply M_bind_Ok in Hrun as ([] & s1 & (l & Hadj & ->)%zoom_Ok & Hrun). unfold modify_statistics in Hrun.
  destruct (adjust_balance_Ok utype "" acct (mk_asset (- amount d) (asset_id d)) _ _ _ Hl Hn Hadj) as [Hl' [[_ Hz]|Hc]]; cbn in *; [lia|].
  apply M_bind_Ok in Hrun as (s2 & s3 & Hst & Hrun). injection Hst as <- <-. cbn in Hrun.
  apply M_bind_Ok in Hrun as (old & s1 & [Hold ->]%lift_Ok & Hrun).
  destruct (locked s !! acct) as [old'|] eqn:Hlk; [|done]. injection Hold as ->.
  apply M_bind_Ok in Hrun as (new & s1 & [Hnew ->]%lift_Ok & [= _ <-]).
  apply asset_add_Ok in Hnew as (? & ? & ->); [|by eapply Hty|done].
  exists old, l. split_and!; try done; congruence.
Qed.

Lemma unlock_pledge_run acct d s u s' :
  int64 (amount d) → (∀ x a, locked s !! x = Some a → int64 (amount a)) →
  unlock_pledge acct d s = Ok (u, s') →
  ∃ old, locked s !! acct = Some old ∧ asset_id old = asset_id d ∧ int64 (amount old - amount d) ∧
    s' = set_locked (<[acct := mk_asset (amount old - amount d) (asset_id d)]> (locked s)) s.
Proof.
  intros Hd Hty (s0 & s1 & [= <- <-] & Hrun)%M_bind_Ok.
  apply M_bind_Ok in Hrun as (old & s1 & [Hold ->]%lift_Ok & Hrun).
  destruct (locked s !! acct) as [old'|] eqn:Hlk; [|done]. injection Hold as ->.
  apply M_bind_Ok in Hrun as (new & s1 & [Hnew ->]%lift_Ok & [= _ <-]).
  apply asset_sub_Ok in Hnew as (? & ? & ->); [|by eapply Hty|done].
  exists old. split_and!; try done; congruence.
Qed.

(** ** What a creation amounts to *)

Definition kind_of (d : details) : kind :=
  match d with
  | committee_details => committee
  | witness_details _ => witness
  | budget_details _ => budget
  | gateway_details _ _ _ _ => gateway
  | carrier_details _ _ _ _ => carrier
  | author_details _ _ _ => author
  end.

(** The state in which the account takes the role, with the new object in the index. *)
Definition with_member (k : kind) (m : member) (reg : AssetRegistry.database) (D : gmap Z gateway_dynamic) (g c : Z) (s : state) : state :=
  let i := default 0 (next_member s !! k) in
  set_dynamics D g c (set_registry reg (set_members (<[(k, i) := m]> (members s)) (<[k := i + 1]> (next_member s))
    (set_next_vote (to_uint 64 (next_available_vote_id s + 1)) s))).

Definition registered (k : kind) (i acct : Z) (d d' : AssetRegistry.database) : Prop :=
  if bool_decide (k = gateway) then ∃ allowed, create_listing i acct allowed d = Ok ((), d') else d' = d.

Record opening (s : state) (k : kind) (acct : Z) (lock : asset) (m : member) (reg : AssetRegistry.database) : Prop := mk_opening {
  opening_role : ∃ a, Balance.accounts (books s) !! acct = Some a ∧ has_flag k a = false;
  opening_pledge : lock = mk_asset 0 0 ∨ lock = mk_asset (to_sint 64 (lock_fee s k)) 0;
  opening_kind : kind_of (info m) = k;
  opening_account : member_account m = acct;
  opening_vote : vote_id m = Votes.vote_id (vote_type_of k) (next_available_vote_id s);
  opening_lock : lock_asset m = lock;
  opening_enable : enable m = identity_enable;
  opening_unique p m' : members s !! p = Some m' → p.1 = k → member_account m' ≠ acct ∧ vote_id m' ≠ vote_id m;
  opening_registry : registered k (default 0 (next_member s !! k)) acct (registry s) reg
}.

Definition opened (s s' : state) : Prop := ∃ k acct lock m reg D g c utype,
  opening s k acct lock m reg ∧ take_role k utype acct lock (with_member k m reg D g c s) = Ok ((), s').

Lemma evaluated_run k acct fee pays (extra : M state ()) s lock s' : moves eq extra →
  (lock_fees ← create_checks k acct fee pays; extra ;; check_unlocked acct ;; mret lock_fees) s = Ok (lock, s') →
  s' = s ∧ (∃ a, Balance.accounts (books s) !! acct = Some a ∧ has_flag k a = false) ∧
  (lock = mk_asset 0 0 ∨ lock = mk_asset (to_sint 64 (lock_fee s k)) 0).
Proof.
  intros Hextra (l & s1 & (-> & Ha & Hl)%create_checks_run & Hrun)%M_bind_Ok.
  apply M_bind_Ok in Hrun as ([] & s1 & <-%Hextra & Hrun).
  apply M_bind_Ok in Hrun as ([] & s1 & Hu & [= <- <-]).
  apply M_bind_Ok in Hu as (a & s2 & [_ ->]%get_account_run & [_ ->]%assert_st_Ok). done.
Qed.

Lemma unlocked_run k acct fee pays s lock s' :
  (lock_fees ← create_checks k acct fee pays; check_unlocked acct ;; mret lock_fees) s = Ok (lock, s') →
  s' = s ∧ (∃ a, Balance.accounts (books s) !! acct = Some a ∧ has_flag k a = false) ∧
  (lock = mk_asset 0 0 ∨ lock = mk_asset (to_sint 64 (lock_fee s k)) 0).
Proof.
  intros Hrun. apply (evaluated_run k acct fee pays (mret ())); [apply moves_ret; apply _|].
  apply M_bind_Ok in Hrun as (l & s1 & H1 & Hrun). apply M_bind_Ok. by exists l, s1.
Qed.

(** Open the next step of a creation. *)
Ltac creation_step Hrun :=
  let s1 := fresh "s" in let v := fresh "v" in let Hv := fresh in
  first
    [ apply M_bind_Ok in Hrun as (v & s1 & [-> ->]%take_vote_id_run & Hrun)
    | apply M_bind_Ok in Hrun as (v & s1 & <-%name_of_reads & Hrun)
    | apply M_bind_Ok in Hrun as (v & s1 & (Hv & -> & ->)%create_member_run & Hrun); cbn in Hrun, Hv ].

Ltac close_creation reg s Hrun :=
  let Hrole := fresh "Hrole" in
  apply M_bind_Ok in Hrun as ([] & ? & Hrole & [= _ <-]);
  eexists _, _, _, _, reg, _, _, _, _; split; [|exact Hrole]; split; try done.

Lemma create_opened op s s' : execute op s = Ok ((), s') →
  match op with
  | op_witness_create _ | op_committee_create _ | op_budget_create _ | op_gateway_create _ | op_carrier_create _
  | op_author_create _ => opened s s'
  | _ => True
  end.
Proof.
  destruct op; try done; cbn [execute]; intros ([] & s0 & [_ ->]%lift_Ok & Hrun)%M_bind_Ok;
    apply M_bind_Ok in Hrun as (lock & s1 & Heval & Hrun); apply M_bind_Ok in Hrun as (i & s2 & Hrun & [= <-]).
  - apply unlocked_run in Heval as (-> & Ha & Hlock). repeat creation_step Hrun. by close_creation (registry s) s Hrun.
  - apply unlocked_run in Heval as (-> & Ha & Hlock). repeat creation_step Hrun. by close_creation (registry s) s Hrun.
  - apply unlocked_run in Heval as (-> & Ha & Hlock). repeat creation_step Hrun. by close_creation (registry s) s Hrun.
  - apply evaluated_run in Heval as (-> & Ha & Hlock); [|auto with zos]. repeat creation_step Hrun.
    apply M_bind_Ok in Hrun as (? & ? & [= <- <-] & Hrun). apply M_bind_Ok in Hrun as ([] & ? & [= <-] & Hrun).
    repeat creation_step Hrun. apply M_bind_Ok in Hrun as ([] & ? & (reg & Hreg & ->)%zoom_Ok & Hrun). cbn in Hreg.
    close_creation reg s Hrun. by exists (gc_allowed_asset o).
  - apply unlocked_run in Heval as (-> & Ha & Hlock). repeat creation_step Hrun.
    apply M_bind_Ok in Hrun as (? & ? & [= <- <-] & Hrun). apply M_bind_Ok in Hrun as ([] & ? & [= <-] & Hrun).
    repeat creation_step Hrun. by close_creation (registry s) s Hrun.
  - apply unlocked_run in Heval as (-> & Ha & Hlock). repeat creation_step Hrun. by close_creation (registry s) s Hrun.
Qed.

(** ** What an update amounts to *)

Definition same_holding (m m' : member) : Prop :=
  member_account m' = member_account m ∧ vote_id m' = vote_id m ∧ lock_asset m' = lock_asset m ∧ enable m' = enable m ∧
  kind_of (info m') = kind_of (info m).

Definition with_edited (k : kind) (i : Z) (m : member) (reg : AssetRegistry.database) (s : state) : state :=
  set_registry reg (set_members (<[(k, i) := m]> (members s)) (next_member s) s).

Definition updated (s s' : state) : Prop := ∃ k i m m' reg,
  members s !! (k, i) = Some m ∧ same_holding m m' ∧
  (reg = registry s ∨ k = gateway ∧ ∃ allowed, update_listing i (member_account m) allowed (registry s) = Ok ((), reg)) ∧
  s' = with_edited k i m' reg s.

Lemma set_texts_holding u m d x : (∀ y, kind_of (d y) = kind_of y) → same_holding x (set_texts u m d x).
Proof. intros Hd. split_and!; [done..|apply Hd]. Qed.

Lemma edited_updated k i u m d s v s' : (∀ y, kind_of (d y) = kind_of y) →
  modify_member k i (set_texts u m d) s = Ok (v, s') → updated s s'.
Proof.
  intros Hd (x & Hx & ->)%modify_member_run. eexists k, i, x, _, (registry s).
  split_and!; [done|by apply set_texts_holding|by left|done].
Qed.

Lemma owned_by_reads k i acct : moves eq (owned_by k i acct).
Proof. unfold owned_by. repeat moves_step. Qed.
Lemma check_unlocked_reads acct : moves eq (check_unlocked acct).
Proof. unfold check_unlocked. repeat moves_step. Qed.
#[local] Hint Resolve owned_by_reads check_unlocked_reads : zos.

Lemma update_updated op s s' : execute op s = Ok ((), s') →
  match op with
  | op_witness_update _ | op_committee_update _ | op_budget_update _ | op_gateway_update _ | op_carrier_update _
  | op_author_update _ => updated s s'
  | _ => True
  end.
Proof.
  destruct op; try done; cbn [execute]; intros ([] & s0 & [_ ->]%lift_Ok & Hrun)%M_bind_Ok;
    apply M_bind_Ok in Hrun as ([] & s1 & Heval & Hrun).
  - assert (moves eq (witness_update_evaluate o)) as Hr by (unfold witness_update_evaluate; repeat moves_step).
    apply Hr in Heval as <-. unfold witness_update_apply in Hrun. apply edited_updated in Hrun; [done|by intros []].
  - unfold committee_update_evaluate in Heval. unfold committee_update_apply in Hrun.
    apply owned_by_reads in Heval as <-. apply edited_updated in Hrun; [done|by intros []].
  - unfold budget_update_evaluate in Heval. unfold budget_update_apply in Hrun.
    apply owned_by_reads in Heval as <-. apply M_bind_Ok in Hrun as (? & ? & [= <- <-] & Hrun).
    apply edited_updated in Hrun; [done|by intros []].
  - assert (moves eq (gateway_update_evaluate o)) as Hr by (unfold gateway_update_evaluate; repeat moves_step).
    apply Hr in Heval as <-. unfold gateway_update_apply in Hrun. apply M_bind_Ok in Hrun as ([] & s1 & (m & Hm & ->)%modify_member_run & Hrun).
    set (m' := set_texts _ _ _ m) in *.
    assert (same_holding m m') as Hsame by (apply set_texts_holding; by intros []).
    destruct (gu_allowed_asset o) as [allowed|].
    + apply M_bind_Ok in Hrun as (m2 & ? & [Hm2 ->]%get_member_run & (reg & Hreg & ->)%zoom_Ok). cbn in Hm2, Hreg.
      rewrite lookup_insert_eq in Hm2. injection Hm2 as <-.
      exists gateway, (gu_gateway o), m, m', reg. split_and!; [done|done| |done]. right. split; [done|]. exists allowed.
      by destruct Hsame as [<- _].
    + injection Hrun as <-. exists gateway, (gu_gateway o), m, m', (registry s). split_and!; [done|done|by left|done].
  - unfold carrier_update_evaluate in Heval. unfold carrier_update_apply in Hrun.
    apply owned_by_reads in Heval as <-. apply edited_updated in Hrun; [done|by intros []].
  - unfold author_update_evaluate in Heval. unfold author_update_apply in Hrun.
    apply owned_by_reads in Heval as <-. apply edited_updated in Hrun; [done|by intros []].
Qed.

(** ** What a change of identity amounts to *)

(** The pledge is locked again, or the identity was only lost; or it is given up. *)
Inductive changed (s s' : state) : Prop :=
  | enabled k i m s1 : members s !! (k, i) = Some m → enable m ≠ identity_enable →
      (let lock := mk_asset (to_sint 64 (lock_fee s k)) 0 in
       if bool_decide (enable m = identity_disable) && (0 <? amount lock)
       then pledge_moved (member_account m) lock s s1 ∧ s' = with_edited k i (set_identity lock identity_enable m) (registry s) s1
       else s' = with_edited k i (set_identity (lock_asset m) identity_enable m) (registry s) s) → changed s s'
  | disabled k i m : members s !! (k, i) = Some m → enable m ≠ identity_disable →
      (let s1 := with_edited k i (set_identity (mk_asset 0 (asset_id (lock_asset m))) identity_disable m) (registry s) s in
       if 0 <? amount (lock_asset m)
       then (unlock_pledge (member_account m) (lock_asset m) ;; return_pledge (member_account m) (lock_asset m)) s1 = Ok ((), s')
       else s' = s1) → changed s s'.

Lemma change_evaluate_run o s l s' : change_identity_evaluate o s = Ok (l, s') → ∃ k m,
  kind_of_type (ObjectId.type (ci_object o)) = Some k ∧ members s !! (k, instance (ci_object o)) = Some m ∧
  l = mk_asset (to_sint 64 (lock_fee s k)) 0 ∧ s' = s ∧ member_account m = ci_issuer o ∧
  (if ci_enable o then enable m ≠ identity_enable else enable m ≠ identity_disable).
Proof.
  intros (k & s0 & Hk & Hrun)%M_bind_Ok. unfold identity_of in Hk.
  destruct (kind_of_type _) as [k'|] eqn:Hkind; [|done]. injection Hk as -> <-.
  apply M_bind_Ok in Hrun as (m & s1 & [Hm ->]%get_member_run & Hrun).
  apply M_bind_Ok in Hrun as (l1 & s1 & [-> ->]%get_fee_run & Hrun).
  apply M_bind_Ok in Hrun as ([] & s1 & [Ha ->]%assert_st_Ok & Hrun).
  apply M_bind_Ok in Hrun as ([] & s1 & Hen & Hrun).
  apply M_bind_Ok in Hrun as ([] & s2 & Hc & [= <- <-]).
  exists k, m. split_and!; [done|done|done| |lia|].
  - assert (s1 = s) as -> by (by destruct (ci_enable o); apply assert_st_Ok in Hen as [_ ->]).
    destruct (_ && _) in Hc; [|by injection Hc].
    apply M_bind_Ok in Hc as (b & s1 & [= _ <-] & Hc). by apply M_bind_Ok in Hc as (lt & s3 & [_ ->]%lift_Ok & [_ ->]%assert_st_Ok).
  - destruct (ci_enable o); apply assert_st_Ok in Hen as [Hen%bool_decide_eq_true _]; intros Heq; rewrite Heq in Hen; by destruct Hen.
Qed.

Lemma change_changed o s s' :
  ledger_ok (books s) → (∀ x a, locked s !! x = Some a → int64 (amount a)) →
  execute (op_change_identity o) s = Ok ((), s') → changed s s'.
Proof.
  intros Hl Hty (l & s0 & (k & m & Hkind & Hm & -> & -> & _ & Hen)%change_evaluate_run & Hrun)%M_bind_Ok.
  apply M_bind_Ok in Hrun as (k' & s1 & Hk & Hrun). unfold identity_of in Hk. rewrite Hkind in Hk. injection Hk as <- <-.
  apply M_bind_Ok in Hrun as (m' & s1 & [Hm' ->]%get_member_run & Hrun). assert (m' = m) as -> by congruence. clear Hm'.
  destruct (ci_enable o).
  - apply M_bind_Ok in Hrun as ([] & s1 & Hlock & (m' & Hm' & ->)%modify_member_run).
    apply (enabled s _ k (instance (ci_object o)) m s1 Hm Hen). cbn zeta. revert Hlock Hm'.
    destruct (bool_decide (enable m = identity_disable) && (0 <? _)) eqn:Hb; intros Hlock Hm'.
    + apply andb_true_iff in Hb as [Hd Hpos%Z.ltb_lt]. apply lock_pledge_run in Hlock; [|done|apply to_sint_range; lia|done|done].
      assert (members s1 = members s ∧ registry s1 = registry s) as [Em Er] by (by destruct Hlock as (? & ? & _ & _ & _ & _ & _ & ->)).
      split; [done|]. assert (m' = m) as -> by congruence. rewrite Hd. cbn [andb]. rewrite (proj2 (Z.ltb_lt _ _) Hpos).
      unfold with_edited. rewrite <- Er. by destruct s1.
    + injection Hlock as <-. assert (m' = m) as -> by congruence. unfold with_edited. cbn in Hb |- *. rewrite Hb. by destruct s.
  - apply M_bind_Ok in Hrun as ([] & s1 & (m' & Hm' & ->)%modify_member_run & Hrun). assert (m' = m) as -> by congruence.
    apply (disabled s _ k (instance (ci_object o)) m Hm Hen). cbn zeta.
    destruct (0 <? amount (lock_asset m)); [|injection Hrun as <-; by destruct s]. by destruct s.
Qed.

(** * Invariants *)

(** ** Pledges *)

Definition pledge_of (x : Z) (p : kind * Z) (m : member) : Z := if member_account m =? x then amount (lock_asset m) else 0.
(** What an account has pledged for all its roles. *)
Definition pledged (x : Z) (ms : gmap (kind * Z) member) : Z := msum (pledge_of x) ms.
Definition locked_of (s : state) (x : Z) : Z := match locked s !! x with Some a => amount a | None => 0 end.

Record member_ok (s : state) (k : kind) (i : Z) (m : member) : Prop := mk_member_ok {
  mo_kind : kind_of (info m) = k;
  mo_id : 0 ≤ i < default 0 (next_member s !! k);
  mo_vote : ∃ n, 0 ≤ n < next_available_vote_id s ∧ vote_id m = Votes.vote_id (vote_type_of k) n;
  mo_asset : asset_id (lock_asset m) = 0;
  mo_amount : 0 ≤ amount (lock_asset m) ∧ int64 (amount (lock_asset m));
  mo_disabled : enable m = identity_disable → amount (lock_asset m) = 0;
  mo_role : ∃ a, Balance.accounts (books s) !! member_account m = Some a ∧ has_flag k a = true
}.

Record identities_ok (s : state) : Prop := mk_identities_ok {
  id_ledger : ledger_ok (books s);
  id_fee k : 0 ≤ lock_fee s k < 2 ^ 63;
  id_secs : uint 32 (identify_lock_vesting_seconds s);
  id_next : 0 ≤ next_available_vote_id s;
  id_start k : 0 ≤ default 0 (next_member s !! k);
  id_member k i m : members s !! (k, i) = Some m → member_ok s k i m;
  id_flag k x a : Balance.accounts (books s) !! x = Some a → has_flag k a = true →
    ∃ i m, members s !! (k, i) = Some m ∧ member_account m = x;
  id_one k i j m m' : members s !! (k, i) = Some m → members s !! (k, j) = Some m' → member_account m = member_account m' → i = j;
  id_vote p q m m' : members s !! p = Some m → members s !! q = Some m' → vote_id m = vote_id m' → p = q;
  id_locked x a : locked s !! x = Some a → asset_id a = 0 ∧ int64 (amount a);
  id_pledged x : locked_of s x = pledged x (members s);
  id_listed : listed (registry s);
  id_gateway x g : (∃ a, AssetRegistry.accounts (registry s) !! x = Some a ∧ gateway_of a = Some g) ↔
    ∃ m, members s !! (gateway, g) = Some m ∧ member_account m = x;
  id_column g : is_Some (gateways (registry s) !! g) → is_Some (members s !! (gateway, g))
}.

(** ** Flags and vote identifiers *)

Lemma flags_distinct k k' : any (account_flag k) (account_flag k') = bool_decide (k = k').
Proof. by destruct k, k'. Qed.

Lemma has_flag_set k k' a : has_flag k (set_flag k' a) = has_flag k a || bool_decide (k' = k).
Proof.
  unfold has_flag. cbn. rewrite <- flags_distinct. unfold any. rewrite Z.land_lor_distr_l.
  destruct (Z.eqb_spec (Z.lor (Z.land (uaccount_property a) (account_flag k)) (Z.land (account_flag k') (account_flag k))) 0) as [[-> ->]%Z.lor_eq_0_iff|Hne]; [done|].
  destruct (Z.eqb_spec (Z.land (uaccount_property a) (account_flag k)) 0) as [E|]; [|done]. rewrite E in Hne. cbn in *.
  destruct (Z.eqb_spec (Z.land (account_flag k') (account_flag k)) 0); [done|done].
Qed.

Lemma vote_id_instance t n : 0 ≤ t < 256 → 0 ≤ n < 2 ^ 56 → vote_instance (Votes.vote_id t n) = n.
Proof.
  intros Ht Hn. unfold vote_instance, Votes.vote_id.
  assert (0 ≤ Z.shiftl n 8 < 2 ^ 64) by (rewrite Z.shiftl_mul_pow2 by lia; lia).
  rewrite to_uint_id by done. rewrite Z.shiftr_lor, Z.shiftr_shiftl_l by lia. cbn [Z.sub Z.shiftl].
  rewrite Z.sub_diag, Z.shiftl_0_r, (Z.shiftr_div_pow2 t), Z.div_small by lia. apply Z.lor_0_r.
Qed.

Lemma vote_ids_distinct k k' n n' : 0 ≤ n < 2 ^ 56 → 0 ≤ n' < 2 ^ 56 →
  Votes.vote_id (vote_type_of k) n = Votes.vote_id (vote_type_of k') n' → n = n'.
Proof.
  intros Hn Hn' Heq. assert (∀ k, 0 ≤ vote_type_of k < 256) as Ht by (by intros []).
  rewrite <- (vote_id_instance (vote_type_of k) n), Heq by done. by apply vote_id_instance.
Qed.

(** ** Taking a role *)

Definition total_locked (L : gmap Z asset) : Z := msum (λ _ a, amount a) L.

Lemma ledger_ok_accounts l m : ledger_ok l → ledger_ok (Balance.set_accounts m l).
Proof. intros [Hb Hv Hn Hd Ht]. by split. Qed.

(** The books and the statistics when [lock] has left the balance of the account. *)
Record pledge_taken (acct : Z) (lock : asset) (s : state) (B : ledger) (L : gmap Z asset) : Prop := mk_taken {
  taken_ledger : ledger_ok B;
  taken_accounts : Balance.accounts B = Balance.accounts (books s);
  taken_wealth i : wealth i B = wealth i (books s) - only i lock ∧ supply i B = supply i (books s);
  taken_typed x a : L !! x = Some a → asset_id a = 0 ∧ int64 (amount a);
  taken_locked x : match L !! x with Some a => amount a | None => 0 end = locked_of s x + (if x =? acct then amount lock else 0);
  taken_total : total_locked L = total_locked (locked s) + amount lock
}.

Lemma pledge_moved_taken acct lock s s' :
  asset_id lock = 0 → (∀ x a, locked s !! x = Some a → asset_id a = 0 ∧ int64 (amount a)) →
  pledge_moved acct lock s s' → ∃ B L, s' = set_locked L (set_books B s) ∧ pledge_taken acct lock s B L.
Proof.
  intros Hid Hty (old & B & Hold & Ha & Hi & Hc & Hl & ->). eexists B, _. split; [reflexivity|].
  split; [done|by destruct Hc as [h ->]| | | |].
  - intros i. pose proof (credited_wealth i acct (mk_asset (- amount lock) (asset_id lock)) _ _ Hc) as Hw.
    rewrite (only_neg i lock) in Hw by done. split; [lia|]. by destruct Hc as [h ->].
  - intros x a. destruct (decide (x = acct)) as [->|]; [rewrite lookup_insert_eq; by intros [= <-]|rewrite lookup_insert_ne by done; apply Hty].
  - intros x. unfold locked_of. destruct (Z.eqb_spec x acct) as [->|]; [by rewrite lookup_insert_eq, Hold|rewrite lookup_insert_ne by done; lia].
  - unfold total_locked. rewrite (msum_insert _ _ _ old) by done. cbn. lia.
Qed.

Lemma take_role_taken k u acct lock s s' :
  ledger_ok (books s) → asset_id lock = 0 → 0 ≤ amount lock → int64 (amount lock) →
  (∀ x a, locked s !! x = Some a → asset_id a = 0 ∧ int64 (amount a)) →
  take_role k u acct lock s = Ok ((), s') → ∃ a B L,
    Balance.accounts (books s) !! acct = Some a ∧ s' = set_locked L (set_books B s) ∧
    pledge_taken acct lock (set_books (Balance.set_accounts (<[acct := set_flag k a]> (Balance.accounts (books s))) (books s)) s) B L.
Proof.
  intros Hl Hid Hpos Hi Hty ([] & s1 & (a & Ha & ->)%take_flag_run & Hrun)%M_bind_Ok. exists a.
  pose proof (ledger_ok_accounts (books s) (<[acct := set_flag k a]> (Balance.accounts (books s))) Hl) as Hl1.
  destruct (Z.ltb_spec 0 (amount lock)).
  - apply lock_pledge_run in Hrun; [|done|done|done|intros x b Hb; by destruct (Hty x b Hb)].
    apply pledge_moved_taken in Hrun as (B & L & -> & Ht); [|done|done]. exists B, L. by split_and!.
  - injection Hrun as <-. exists (Balance.set_accounts (<[acct := set_flag k a]> (Balance.accounts (books s))) (books s)), (locked s). split_and!; [done|by destruct s|]. assert (amount lock = 0) as Hz by lia.
    split; [done|done| |done| |]; [intros i| |]; unfold only; rewrite ?Hz; cbn; [destruct (_ =? _); lia|intros x; destruct (x =? acct); unfold locked_of; cbn; lia|lia].
Qed.

(** ** Every operation keeps the invariants *)

Lemma pledged_create x p m ms : ms !! p = None → pledged x (<[p := m]> ms) = pledged x ms + pledge_of x p m.
Proof. intros Hp. unfold pledged. rewrite msum_insert_fresh by done. lia. Qed.
Lemma pledged_edit x p m m' ms : ms !! p = Some m → pledged x (<[p := m']> ms) = pledged x ms - pledge_of x p m + pledge_of x p m'.
Proof. apply msum_insert. Qed.

Lemma fee_range s k : 0 ≤ lock_fee s k < 2 ^ 63 → to_sint 64 (lock_fee s k) = lock_fee s k ∧ int64 (lock_fee s k).
Proof. intros Hf. assert (int64 (lock_fee s k)) by (unfold int64, int64_min, int64_max; lia). by rewrite to_sint_64_id. Qed.

Lemma opening_lock_ok s k acct lock m reg : identities_ok s → opening s k acct lock m reg →
  asset_id lock = 0 ∧ 0 ≤ amount lock ∧ int64 (amount lock).
Proof.
  intros Hok [_ [-> | ->] _ _ _ _ _ _ _]; [by split_and!|]. destruct (fee_range s k (id_fee s Hok k)) as [-> Hi]. cbn.
  split_and!; [done|by apply (id_fee s Hok)|apply Hi..].
Qed.

(** The registry when a role is taken. *)
Lemma opening_registry_ok s k acct lock m reg : identities_ok s → opening s k acct lock m reg →
  let i := default 0 (next_member s !! k) in let ms := <[(k, i) := m]> (members s) in
  listed reg ∧
  (∀ x g, (∃ a, AssetRegistry.accounts reg !! x = Some a ∧ gateway_of a = Some g) ↔ ∃ m, ms !! (gateway, g) = Some m ∧ member_account m = x) ∧
  (∀ g, is_Some (gateways reg !! g) → is_Some (ms !! (gateway, g))).
Proof.
  intros Hok Hop i ms. pose proof (opening_registry _ _ _ _ _ _ Hop) as Hreg. unfold registered in Hreg.
  assert (members s !! (k, i) = None) as Hfresh.
  { apply eq_None_not_Some. intros [m' Hm']. pose proof (mo_id _ _ _ _ (id_member s Hok _ _ _ Hm')). subst i. lia. }
  case_bool_decide as Hk.
  - subst k. destruct Hreg as [allowed Hreg]. fold i in Hreg.
    assert (gateways (registry s) !! i = None) as Hcol.
    { apply eq_None_not_Some. intros Hs%(id_column s Hok). rewrite Hfresh in Hs. by destruct Hs. }
    split; [by apply (create_listing_listed i acct allowed (registry s) () reg Hcol Hreg (id_listed s Hok))|].
    apply create_listing_applied in Hreg as (a & Ha & Hnone & Ea & Eg). subst ms. split.
    + intros x g. rewrite Ea. destruct (decide (x = acct)) as [->|Hx].
      * rewrite lookup_insert_eq. split.
        -- intros (? & [= <-] & [= <-]). exists m. rewrite lookup_insert_eq. split; [done|apply (opening_account _ _ _ _ _ _ Hop)].
        -- intros (m' & Hm' & Hacct). destruct (decide (g = i)) as [->|]; [by eexists|].
           rewrite lookup_insert_ne in Hm' by congruence.
           assert (∃ a, AssetRegistry.accounts (registry s) !! acct = Some a ∧ gateway_of a = Some g) as (? & ? & ?) by (apply (id_gateway s Hok); by exists m').
           congruence.
      * rewrite lookup_insert_ne by done. rewrite (id_gateway s Hok). split; intros (m' & Hm' & Hacct); exists m'.
        -- split; [|done]. rewrite lookup_insert_ne; [done|]. intros [= <-]. congruence.
        -- split; [|done]. destruct (decide (g = i)) as [->|]; [|by rewrite lookup_insert_ne in Hm' by congruence].
           rewrite lookup_insert_eq in Hm'. injection Hm' as <-. by rewrite (opening_account _ _ _ _ _ _ Hop) in Hacct.
    + intros g. rewrite Eg. destruct (decide (g = i)) as [->|]; [by rewrite !lookup_insert_eq|].
      rewrite !lookup_insert_ne by congruence. apply (id_column s Hok).
  - subst reg ms. split; [apply (id_listed s Hok)|]. split; intros; (rewrite lookup_insert_ne by congruence) || setoid_rewrite lookup_insert_ne; try congruence.
    + apply (id_gateway s Hok).
    + by apply (id_column s Hok).
Qed.

Lemma next_vote n : 0 ≤ n < 2 ^ 56 → to_uint 64 (n + 1) = n + 1.
Proof. intros Hn. apply to_uint_id. int_lia. Qed.

Lemma flagged_iff (A : gmap Z account_object) k' x : (∃ b, A !! x = Some b ∧ has_flag k' b = true) ↔ has_flag k' <$> A !! x = Some true.
Proof. rewrite fmap_Some. naive_solver. Qed.

(** The state after a creation, field by field. *)
Section Opened.
Context (s : state) (k : kind) (acct : Z) (lock : asset) (m : member) (reg : AssetRegistry.database) (D : gmap Z gateway_dynamic) (g c i : Z).
Context (a : account_object) (B : ledger) (L : gmap Z asset).
Context (Hok : identities_ok s) (Hn : next_available_vote_id s < 2 ^ 56) (Hop : opening s k acct lock m reg).
Context (Hi : i = default 0 (next_member s !! k)) (Ha : Balance.accounts (books s) !! acct = Some a).
Context (Ta : Balance.accounts B = <[acct := set_flag k a]> (Balance.accounts (books s))).

Let s' : state := set_locked L (set_books B (set_dynamics D g c (set_registry reg
  (set_members (<[(k, i) := m]> (members s)) (<[k := i + 1]> (next_member s)) (set_next_vote (next_available_vote_id s + 1) s))))).

Lemma opened_fresh : members s !! (k, i) = None.
Proof.
  apply eq_None_not_Some. intros [m' Hm']. pose proof (mo_id _ _ _ _ (id_member s Hok _ _ _ Hm')). lia.
Qed.

Lemma opened_members p x : members s' !! p = Some x → p = (k, i) ∧ x = m ∨ p ≠ (k, i) ∧ members s !! p = Some x.
Proof.
  cbn. destruct (decide (p = (k, i))) as [->|]; [rewrite lookup_insert_eq; intros [= <-]; by left|].
  rewrite lookup_insert_ne by done. by right.
Qed.

Lemma opened_vote_new p x : members s !! p = Some x → vote_id x ≠ vote_id m.
Proof.
  destruct p as [k' j]. intros Hx Heq. destruct (mo_vote _ _ _ _ (id_member s Hok _ _ _ Hx)) as (n' & Hn' & Hv').
  rewrite Hv', (opening_vote _ _ _ _ _ _ Hop) in Heq. pose proof (id_next s Hok). apply vote_ids_distinct in Heq; lia.
Qed.

Lemma opened_account_new j x : members s !! (k, j) = Some x → member_account x ≠ member_account m.
Proof.
  intros Hx. rewrite (opening_account _ _ _ _ _ _ Hop). by apply (opening_unique _ _ _ _ _ _ Hop (k, j) x Hx).
Qed.

Lemma opened_flag k' x : has_flag k' <$> Balance.accounts B !! x =
  (if bool_decide (k' = k ∧ x = acct) then λ _, Some true else id) (has_flag k' <$> Balance.accounts (books s) !! x).
Proof.
  rewrite Ta. destruct (decide (x = acct)) as [->|Hx].
  - rewrite lookup_insert_eq, Ha. cbn. rewrite has_flag_set. destruct (decide (k' = k)) as [->|Hk].
    + rewrite !bool_decide_true by done. by rewrite orb_true_r.
    + rewrite !bool_decide_false by naive_solver. by rewrite orb_false_r.
  - rewrite lookup_insert_ne by done. by rewrite bool_decide_false by naive_solver.
Qed.

Lemma opened_member k' j x : members s' !! (k', j) = Some x → member_ok s' k' j x.
Proof.
  pose proof (id_next s Hok) as H0. pose proof (id_start s Hok k) as Hst. rewrite <- Hi in Hst.
  intros [[[= -> ->] ->]|[Hne Hx]]%opened_members.
  - destruct (opening_lock_ok s k acct lock m reg Hok Hop) as (Hid & Hpos & Hint). destruct Hop as [_ _ Ok Oa Ov Ol Oe _ _].
    split; cbn; rewrite ?lookup_insert_eq, ?Ol, ?Oa, ?Oe; try done; [cbn; lia|exists (next_available_vote_id s); split; [lia|done]|].
    apply flagged_iff. rewrite opened_flag, bool_decide_true by done. done.
  - destruct (id_member s Hok k' j x Hx) as [Mk Mi (n' & Hn' & Mv) Ms Ma Md Mr%flagged_iff]. split; cbn; try done.
    + destruct (decide (k' = k)) as [->|]; [rewrite lookup_insert_eq; cbn; lia|by rewrite lookup_insert_ne].
    + exists n'. split; [lia|done].
    + apply flagged_iff. rewrite opened_flag, Mr. by case_bool_decide.
Qed.

Lemma opened_role k' x b : Balance.accounts B !! x = Some b → has_flag k' b = true →
  ∃ j y, members s' !! (k', j) = Some y ∧ member_account y = x.
Proof.
  intros Hb Hflag. assert (has_flag k' <$> Balance.accounts B !! x = Some true) as Hf by (apply flagged_iff; by exists b).
  rewrite opened_flag in Hf. case_bool_decide as Hc.
  - destruct Hc as [-> ->]. exists i, m. cbn. rewrite lookup_insert_eq. split; [done|apply (opening_account _ _ _ _ _ _ Hop)].
  - apply flagged_iff in Hf as (b' & Hb' & Hf'). destruct (id_flag s Hok k' x b' Hb' Hf') as (j & y & Hy & Hx). exists j, y. cbn.
    rewrite lookup_insert_ne; [done|]. intros [= <- <-]. pose proof opened_fresh. congruence.
Qed.

Lemma opened_one k' j1 j2 x y : members s' !! (k', j1) = Some x → members s' !! (k', j2) = Some y →
  member_account x = member_account y → j1 = j2.
Proof.
  intros [[[= -> ->] ->]|[_ Hx]]%opened_members [[E ->]|[_ Hy]]%opened_members Heq.
  - by injection E.
  - exfalso. symmetry in Heq. by eapply opened_account_new.
  - injection E as -> ->. exfalso. by eapply opened_account_new.
  - by eapply (id_one s Hok).
Qed.

Lemma opened_vote p q x y : members s' !! p = Some x → members s' !! q = Some y → vote_id x = vote_id y → p = q.
Proof.
  intros [[-> ->]|[_ Hx]]%opened_members [[-> ->]|[_ Hy]]%opened_members Heq; [done| | |by eapply (id_vote s Hok)].
  - exfalso. symmetry in Heq. by eapply opened_vote_new.
  - exfalso. by eapply opened_vote_new.
Qed.

Lemma opened_pledged x : pledged x (members s') = pledged x (members s) + (if x =? acct then amount lock else 0).
Proof.
  cbn. rewrite pledged_create by apply opened_fresh. unfold pledge_of.
  by rewrite (opening_account _ _ _ _ _ _ Hop), (opening_lock _ _ _ _ _ _ Hop), (Z.eqb_sym acct x).
Qed.
End Opened.

Lemma opened_ok s s' : identities_ok s → next_available_vote_id s < 2 ^ 56 → opened s s' → identities_ok s'.
Proof.
  intros Hok Hn (k & acct & lock & m & reg & D & g & c & u & Hop & Hrole).
  destruct (opening_lock_ok s k acct lock m reg Hok Hop) as (Hid & Hpos & Hi).
  destruct (opening_registry_ok s k acct lock m reg Hok Hop) as (Rl & Rg & Rc). cbn zeta in Rg, Rc.
  apply take_role_taken in Hrole as (a & B & L & Ha & -> & [Tl Ta _ Tt Tk _]); [|apply (id_ledger s Hok)|done..|apply (id_locked s Hok)].
  cbn in Ha, Ta, Tk. pose proof (id_next s Hok) as H0. pose proof (id_start s Hok k) as Hst.
  unfold with_member. rewrite next_vote by lia. set (i := default 0 (next_member s !! k)) in *. cbv zeta.
  split; [done|apply Hok|apply Hok|cbn; lia| |by eapply opened_member|by eapply opened_role|by eapply opened_one|by eapply opened_vote|done| |done..].
  - intros k'. cbn. destruct (decide (k' = k)) as [->|]; [rewrite lookup_insert_eq; cbn; lia|rewrite lookup_insert_ne by done; apply (id_start s Hok)].
  - intros x. erewrite opened_pledged by done. rewrite <- (id_pledged s Hok). unfold locked_of at 1. cbn. by rewrite Tk.
Qed.

(** The state after a change of one object. *)
Section Edited.
Context (s : state) (k : kind) (i : Z) (m m' : member) (reg : AssetRegistry.database) (B : ledger) (L : gmap Z asset).
Context (Hok : identities_ok s) (Hm : members s !! (k, i) = Some m).
Context (Ea : member_account m' = member_account m) (Ev : vote_id m' = vote_id m) (Ek : kind_of (info m') = kind_of (info m)).
Context (Hid : asset_id (lock_asset m') = 0) (Hamount : 0 ≤ amount (lock_asset m') ∧ int64 (amount (lock_asset m')))
  (Hdis : enable m' = identity_disable → amount (lock_asset m') = 0).
Context (Hl : ledger_ok B) (Hacc : Balance.accounts B = Balance.accounts (books s)).
Context (Hty : ∀ x a, L !! x = Some a → asset_id a = 0 ∧ int64 (amount a)).
Context (HL : ∀ x, match L !! x with Some a => amount a | None => 0 end =
  locked_of s x + (if x =? member_account m then amount (lock_asset m') - amount (lock_asset m) else 0)).
Context (Rl : listed reg) (Ra : AssetRegistry.accounts reg = AssetRegistry.accounts (registry s))
  (Rc : ∀ g, is_Some (gateways reg !! g) → is_Some (gateways (registry s) !! g)).

Let s' : state := set_locked L (set_books B (with_edited k i m' reg s)).

Lemma edited_members p x : members s' !! p = Some x → ∃ y, members s !! p = Some y ∧ member_account x = member_account y ∧
  vote_id x = vote_id y ∧ kind_of (info x) = kind_of (info y).
Proof.
  cbn. destruct (decide (p = (k, i))) as [->|]; [rewrite lookup_insert_eq; intros [= <-]; by exists m|].
  rewrite lookup_insert_ne by done. intros Hx. by exists x.
Qed.

Lemma edited_back p y : members s !! p = Some y → ∃ x, members s' !! p = Some x ∧ member_account x = member_account y.
Proof.
  intros Hy. cbn. destruct (decide (p = (k, i))) as [->|]; [|exists y; by rewrite lookup_insert_ne].
  exists m'. rewrite lookup_insert_eq. split; [done|congruence].
Qed.

Lemma edited_member k' j x : members s' !! (k', j) = Some x → member_ok s' k' j x.
Proof.
  cbn. destruct (decide ((k', j) = (k, i))) as [[= -> ->]|Hne].
  - rewrite lookup_insert_eq. intros [= <-]. destruct (id_member s Hok k i m Hm) as [Mk Mi Mv Ms Ma Md Mr].
    split; cbn; rewrite ?Ea, ?Ev, ?Ek, ?Hacc; done.
  - rewrite lookup_insert_ne by done. intros Hx. destruct (id_member s Hok k' j x Hx) as [Mk Mi Mv Ms Ma Md Mr].
    split; cbn; rewrite ?Hacc; done.
Qed.

Lemma edited_ok : identities_ok s'.
Proof.
  split; [done|apply Hok|apply Hok|apply Hok|apply (id_start s Hok)|exact edited_member| | | |done| |done| |].
  - intros k' x a. cbn. rewrite Hacc. intros Hx Hf. destruct (id_flag s Hok k' x a Hx Hf) as (j & y & Hy & <-).
    destruct (edited_back _ _ Hy) as (z & Hz & ?). by exists j, z.
  - intros k' j1 j2 x y (x' & Hx & Ex & _)%edited_members (y' & Hy & Ey & _)%edited_members Heq.
    apply (id_one s Hok k' j1 j2 x' y'); congruence.
  - intros p q x y (x' & Hx & _ & Ex & _)%edited_members (y' & Hy & _ & Ey & _)%edited_members Heq.
    apply (id_vote s Hok p q x' y'); congruence.
  - intros x. unfold locked_of at 1. cbn. rewrite HL, (id_pledged s Hok), (pledged_edit x _ m) by done.
    unfold pledge_of. rewrite Ea, (Z.eqb_sym (member_account m) x). destruct (x =? member_account m); lia.
  - intros x g. cbn. rewrite Ra, (id_gateway s Hok). split.
    + intros (y & Hy & Hx). destruct (edited_back _ _ Hy) as (z & Hz & ?). exists z. split; [done|congruence].
    + intros (z & (y & Hy & ? & _)%edited_members & Hx). exists y. split; [done|congruence].
  - intros g Hg%Rc%(id_column s Hok). destruct Hg as [y Hy]. destruct (edited_back _ _ Hy) as (z & Hz & _). by exists z.
Qed.
End Edited.

Lemma locked_typed s : identities_ok s → ∀ x a, locked s !! x = Some a → int64 (amount a).
Proof. intros Hok x a Ha. by destruct (id_locked s Hok x a Ha). Qed.

Lemma updated_ok s s' : identities_ok s → updated s s' → identities_ok s'.
Proof.
  intros Hok (k & i & m & m' & reg & Hm & (Ea & Ev & El & Ee & Ek) & Hreg & ->).
  destruct (id_member s Hok k i m Hm) as [Mk Mi Mv Ms Ma Md Mr].
  assert (listed reg ∧ AssetRegistry.accounts reg = AssetRegistry.accounts (registry s) ∧
    ∀ g, is_Some (gateways reg !! g) → is_Some (gateways (registry s) !! g)) as (Rl & Ra & Rc).
  { destruct Hreg as [->|[-> [allowed Hreg]]]; [by split_and!; [apply Hok|..]|].
    split; [by apply (update_listing_listed _ _ _ _ _ _ Hreg), Hok|].
    apply update_listing_applied in Hreg as (Hg & -> & ->). split; [done|]. intros g.
    destruct (decide (g = i)) as [->|]; [done|by rewrite lookup_insert_ne]. }
  apply (edited_ok s k i m m' reg (books s) (locked s)); try done; rewrite ?El, ?Ee; try done; [apply Hok|apply (id_locked s Hok)|].
  intros x. unfold locked_of. destruct (x =? _); lia.
Qed.

(** ** Giving a role up and taking it again *)

(** The pledge returns to the account, vesting or at once. *)
Lemma return_pledge_run acct d s u s' :
  ledger_ok (books s) → uint 32 (identify_lock_vesting_seconds s) → 0 < amount d → int64 (amount d) →
  return_pledge acct d s = Ok (u, s') → ∃ B, s' = set_books B s ∧ ledger_ok B ∧
    Balance.accounts B = Balance.accounts (books s) ∧
    (∀ i, wealth i B = wealth i (books s) + only i d ∧ supply i B = supply i (books s)) ∧
    (if 3600 <? identify_lock_vesting_seconds s
     then vestings B !! next_vesting_id (books s) = Some (mk_vbo acct 0 d
       (linear (mk_linear (head_block_time (books s)) (identify_lock_vesting_seconds s) 1 (amount d))) true)
     else held (acct, asset_id d) B = held (acct, asset_id d) (books s) + amount d).
Proof.
  intros Hl Hsecs Hpos Hi (s0 & s1 & [= <- <-] & Hrun)%M_bind_Ok. cbv zeta in Hrun.
  destruct (3600 <? identify_lock_vesting_seconds s); apply zoom_Ok in Hrun as (B & Hrun & ->); exists B; (split; [done|]).
  - injection Hrun as _ <-. split_and!; [|done| |cbn; by rewrite lookup_insert_eq].
    + apply ledger_ok_vesting; [done| |lia..]. cbn. pose proof (ok_time _ Hl). split_and!; cbn; try done; try int_lia.
      rewrite Z.sub_diag. apply linear_vested_range; cbn; try done; int_lia.
    + intros i. rewrite vesting_wealth_create by (by apply ledger_ok_typed). done.
  - destruct (adjust_balance_Ok _ _ _ _ _ _ _ Hl Hi Hrun) as [Hl' [[_ ?]|Hc]]; [lia|].
    split_and!; [done|by destruct Hc as [h ->]| |].
    + intros i. by eapply adjust_balance_wealth.
    + destruct Hc as [h ->]. unfold held at 1. cbn. by rewrite lookup_insert_eq.
Qed.

(** What a change of identity does to the books, the statistics and the object. *)
Definition holding (lock : asset) (e : identity_type) (m : member) : Prop :=
  asset_id lock = 0 ∧ 0 ≤ amount lock ∧ int64 (amount lock) ∧ (e = identity_disable → amount lock = 0).

Definition exchanged (s s' : state) (k : kind) (i : Z) (m : member) (lock : asset) (e : identity_type) : Prop :=
  members s !! (k, i) = Some m ∧ holding lock e m ∧ ∃ B L,
    s' = set_locked L (set_books B (with_edited k i (set_identity lock e m) (registry s) s)) ∧
    pledge_taken (member_account m) (mk_asset (amount lock - amount (lock_asset m)) 0) s B L.

Lemma not_taken acct s : identities_ok s → pledge_taken acct (mk_asset 0 0) s (books s) (locked s).
Proof.
  intros Hok. split; [apply Hok|done| |apply (id_locked s Hok)| |cbn; lia].
  - intros i. unfold only. cbn [asset_id amount]. destruct (0 =? i); lia.
  - intros x. unfold locked_of. cbn [amount]. destruct (x =? acct); lia.
Qed.

Lemma changed_exchanged s s' : identities_ok s → changed s s' → ∃ k i m lock e, exchanged s s' k i m lock e.
Proof.
  intros Hok [k i m s1 Hm Hen Hs'|k i m Hm Hen Hs']; cbv zeta in Hs';
    destruct (id_member s Hok k i m Hm) as [_ _ _ Ms [Ma Mi] Md _].
  - destruct (fee_range s k (id_fee s Hok k)) as [Hf Hfi]. rewrite Hf in Hs'. pose proof (id_fee s Hok k) as Hfee. revert Hs'.
    destruct (bool_decide (enable m = identity_disable) && _) eqn:Hb.
    + apply andb_true_iff in Hb as [Hd%bool_decide_eq_true _]. intros [Hmoved ->].
      apply pledge_moved_taken in Hmoved as (B & L & -> & Ht); [|done|apply (id_locked s Hok)].
      exists k, i, m, (mk_asset (lock_fee s k) 0), identity_enable. split_and!; [done|split_and!; cbn; (done || lia)|].
      exists B, L. split; [done|]. cbn. rewrite (Md Hd), Z.sub_0_r. exact Ht.
    + intros ->. exists k, i, m, (lock_asset m), identity_enable. split_and!; [done|by split_and!|].
      exists (books s), (locked s). split; [done|]. rewrite Z.sub_diag. by apply not_taken.
  - exists k, i, m, (mk_asset 0 (asset_id (lock_asset m))), identity_disable. split_and!; [done|by split_and!|]. revert Hs'.
    destruct (Z.ltb_spec 0 (amount (lock_asset m))).
    + intros ([] & s1 & (old & Hold & Hid & Hint & ->)%unlock_pledge_run & Hrun)%M_bind_Ok; [|done|exact (locked_typed s Hok)].
      apply return_pledge_run in Hrun as (B & -> & Hl & Hacc & Hw & _); [|apply Hok|apply Hok|done|done].
      eexists B, _. split; [reflexivity|]. cbn in Hold. split; cbn; [done|done| | | |].
      * intros j. destruct (Hw j) as [Ew Es]. change (wealth j B = wealth j (books s) + only j (lock_asset m)) in Ew. rewrite Ew.
        split; [|exact Es]. unfold only. rewrite Ms. cbn [asset_id amount]. destruct (0 =? j); lia.
      * intros x a. destruct (decide (x = member_account m)) as [->|]; [rewrite lookup_insert_eq; intros [= <-]; cbn; by rewrite Ms|].
        rewrite lookup_insert_ne by done. apply (id_locked s Hok).
      * intros x. unfold locked_of. destruct (Z.eqb_spec x (member_account m)) as [->|]; [rewrite lookup_insert_eq, Hold; cbn; lia|].
        rewrite lookup_insert_ne by done. lia.
      * unfold total_locked. rewrite (msum_insert _ _ _ old) by done. cbn. lia.
    + intros ->. exists (books s), (locked s). split; [done|]. cbn. replace (0 - amount (lock_asset m)) with 0 by lia. by apply not_taken.
Qed.

Lemma exchanged_ok s s' k i m lock e : identities_ok s → exchanged s s' k i m lock e → identities_ok s'.
Proof.
  intros Hok (Hm & (Hid & Ha & Hi & Hd) & B & L & -> & [Tl Ta _ Tt Tk _]).
  apply (edited_ok s k i m); try done; apply Hok.
Qed.

(** The roles of the accounts stay consistent, whatever operation on witnesses, committee and
    budget members, gateways, carriers and authors is executed: an account has at most one
    object of each role and has the flag of the role just when it has the object; no two
    objects share a vote identifier; the statistics of every account lock the sum of the
    pledges of its objects, an object that is disabled has none, and the gateways of the
    registry of assets are those of the accounts. *)
Theorem identities_consistent op s s' :
  identities_ok s → next_available_vote_id s < 2 ^ 56 → execute op s = Ok ((), s') → identities_ok s'.
Proof.
  intros Hok Hn Hrun. pose proof (create_opened op s s' Hrun) as Hc. pose proof (update_updated op s s' Hrun) as Hu.
  destruct op; try (by apply (opened_ok s s')); try (by apply (updated_ok s s')).
  apply change_changed in Hrun; [|apply Hok|by apply locked_typed].
  destruct (changed_exchanged s s' Hok Hrun) as (k & i & m & lock & e & Hx). by eapply exchanged_ok.
Qed.

(** Pledges are neither lost nor made: whatever operation on these objects is executed, the
    shares of each asset in balances and vesting balances, with what the statistics lock for
    the core asset, stay the same, and so does the recorded supply. *)
Theorem pledges_conserved op s s' i :
  identities_ok s → next_available_vote_id s < 2 ^ 56 → execute op s = Ok ((), s') →
  let total s := wealth i (books s) + (if i =? 0 then total_locked (locked s) else 0) in
  total s' = total s ∧ supply i (books s') = supply i (books s).
Proof.
  intros Hok Hn Hrun total.
  assert (∀ acct lock s0 B L, asset_id lock = 0 → pledge_taken acct lock s0 B L →
    wealth i B + (if i =? 0 then total_locked L else 0) = wealth i (books s0) + (if i =? 0 then total_locked (locked s0) else 0) ∧
    supply i B = supply i (books s0)) as Htaken.
  { intros acct lock s0 B L Hid [_ _ Hw _ _ Ht]. destruct (Hw i) as [-> ->]. rewrite Ht. unfold only. rewrite Hid, (Z.eqb_sym 0 i).
    destruct (i =? 0); split; lia || done. }
  pose proof (create_opened op s s' Hrun) as Hc. pose proof (update_updated op s s' Hrun) as Hu.
  assert (opened s s' ∨ updated s s' ∨ changed s s') as [Ho|[Hup|Hch]].
  { destruct op; auto. right. right. apply change_changed in Hrun; [done|apply Hok|by apply locked_typed]. }
  - destruct Ho as (k & acct & lock & m & reg & D & g & c & u & Hop & Hrole).
    destruct (opening_lock_ok s k acct lock m reg Hok Hop) as (Hid & Hpos & Hi).
    apply take_role_taken in Hrole as (a & B & L & _ & -> & Ht); [|apply Hok|done..|apply (id_locked s Hok)].
    exact (Htaken _ _ _ B L Hid Ht).
  - by destruct Hup as (k & j & m & m' & reg & _ & _ & _ & ->).
  - destruct (changed_exchanged s s' Hok Hch) as (k & j & m & lock & e & _ & _ & B & L & -> & Ht).
    exact (Htaken (member_account m) (mk_asset (amount lock - amount (lock_asset m)) 0) s B L eq_refl Ht).
Qed.

(** Giving a role up frees its pledge, to the last share. *)
Theorem pledge_returned o s s' k m :
  identities_ok s → kind_of_type (ObjectId.type (ci_object o)) = Some k → members s !! (k, instance (ci_object o)) = Some m →
  ci_enable o = false → 0 < amount (lock_asset m) → execute (op_change_identity o) s = Ok ((), s') →
  let acct := member_account m in let n := amount (lock_asset m) in
  (if 3600 <? identify_lock_vesting_seconds s
   then vestings (books s') !! next_vesting_id (books s) = Some (mk_vbo acct 0 (mk_asset n 0)
     (linear (mk_linear (head_block_time (books s)) (identify_lock_vesting_seconds s) 1 n)) true)
   else held (acct, 0) (books s') = held (acct, 0) (books s) + n) ∧
  locked_of s' acct = locked_of s acct - n ∧
  enable <$> members s' !! (k, instance (ci_object o)) = Some identity_disable.
Proof.
  intros Hok Hk Hm Hoff Hpos Hrun acct n. destruct (id_member s Hok k _ m Hm) as [_ _ _ Ms [_ Mi] _ _].
  apply M_bind_Ok in Hrun as (l & s0 & (k' & m' & Hk' & Hm' & _ & -> & _ & _)%change_evaluate_run & Hrun).
  apply M_bind_Ok in Hrun as (k2 & s1 & Hk2 & Hrun). unfold identity_of in Hk2. rewrite Hk in Hk2. injection Hk2 as <- <-.
  apply M_bind_Ok in Hrun as (m2 & s1 & [Hm2 ->]%get_member_run & Hrun). assert (m2 = m) as -> by congruence. rewrite Hoff in Hrun.
  apply M_bind_Ok in Hrun as ([] & s1 & (m2' & Hm2' & ->)%modify_member_run & Hrun).
  cbv zeta in Hrun. rewrite (proj2 (Z.ltb_lt _ _) Hpos) in Hrun.
  apply M_bind_Ok in Hrun as ([] & s1 & (old & Hold & _ & _ & ->)%unlock_pledge_run & Hrun); [|done|exact (locked_typed s Hok)].
  apply return_pledge_run in Hrun as (B & -> & _ & _ & _ & Hback); [|apply Hok|apply Hok|done|done]. cbn in Hold, Hback. rewrite Ms in Hback.
  subst acct n. split_and!.
  - cbn. destruct (3600 <? _); [|exact Hback]. rewrite Hback. destruct (lock_asset m) as [x y]. cbn in Ms |- *. by rewrite Ms.
  - unfold locked_of. cbn. by rewrite lookup_insert_eq, Hold.
  - cbn. by rewrite lookup_insert_eq.
Qed.

(** ** Identities of one account *)

Module IdentitiesExample.

Definition citizen : account_object := Balance.mk_account 7 7 7 2000 3000 5000 None 0.
Definition purse : ledger :=
  mk_ledger (<[(5, 0) := 5000]> ∅) ∅ 0 (<[0 := mk_dyn 5000 0 0]> ∅) (<[5 := citizen]> ∅) ∅ ∅ 1000 0 0
    (mk_params 100 100 1000 5 50) false [].
Definition start : state :=
  mk_state purse ListingsExample.start {[5]} (<[5 := mk_asset 0 0]> ∅) ∅ ∅ ∅ 0 0 12 ∅ (λ _, 1000) 7200.

Definition after (op : identity_operation) (s : state) : state := match execute op s with Ok (_, s') => s' | Throw _ => s end.
Definition bid : identity_operation := op_witness_create (mk_witness_create (mk_asset 20 0) 5 "url" "memo" 77).
Definition witness_0 : object_id_type := mk_id (pack 1 6 0).
Definition resign : identity_operation := op_change_identity (mk_change_identity (mk_asset 1 0) 5 witness_0 false).
Definition elected : state := after bid start.
Definition resigned : state := after resign elected.

Example pledge_locked : held (5, 0) (books elected) = 4000 ∧ locked elected !! 5 = Some (mk_asset 1000 0) ∧
  locked resigned !! 5 = Some (mk_asset 0 0) ∧ held (5, 0) (books resigned) = 4000 ∧
  (λ v, amount (vb_balance v)) <$> vestings (books resigned) !! 0 = Some 1000.
Proof. by vm_compute. Qed.

Lemma start_ok : identities_ok start.
Proof.
  split; cbn -[msum].
  - constructor; cbn.
    + intros k b [[<- <-]|[_ Hb]]%lookup_insert_Some; [split; [lia|int_lia]|by rewrite lookup_empty in Hb].
    + intros i v Hv. by rewrite lookup_empty in Hv.
    + intros i _. apply lookup_empty.
    + intros i d [[<- <-]|[_ Hd]]%lookup_insert_Some; [cbn; split; int_lia|by rewrite lookup_empty in Hd].
    + int_lia.
  - intros _. lia.
  - int_lia.
  - lia.
  - intros k. by rewrite lookup_empty.
  - intros k i m Hm. by rewrite lookup_empty in Hm.
  - intros k x a [[_ <-]|[_ Ha]]%lookup_insert_Some; [by destruct k|by rewrite lookup_empty in Ha].
  - intros k i j m m' Hm. by rewrite lookup_empty in Hm.
  - intros p q m m' Hm. by rewrite lookup_empty in Hm.
  - intros x a [[_ <-]|[_ Ha]]%lookup_insert_Some; [cbn; split; [done|int_lia]|by rewrite lookup_empty in Ha].
  - intros x. unfold locked_of, pledged. cbn [locked start members]. rewrite msum_empty.
    destruct (decide (x = 5)) as [->|]; [done|]. by rewrite lookup_insert_ne by done.
  - exact ListingsExample.start_listed.
  - intros x g. split; [intros (a & Ha & Hg)|intros (m & Hm & _); by rewrite lookup_empty in Hm].
    apply ListingsExample.no_gateways in Ha. congruence.
  - intros g [x Hx]. by rewrite lookup_empty in Hx.
Qed.

Lemma bids : execute bid start = Ok ((), elected).
Proof. vm_compute. reflexivity. Qed.

Lemma identities_consistent_witness : identities_ok elected.
Proof. apply (identities_consistent bid start elected start_ok); [reflexivity|exact bids]. Defined.

Lemma pledges_conserved_witness :
  wealth 0 (books elected) + (if 0 =? 0 then total_locked (locked elected) else 0) =
  wealth 0 (books start) + (if 0 =? 0 then total_locked (locked start) else 0).
Proof. apply (pledges_conserved bid start elected 0 start_ok); [reflexivity|exact bids]. Defined.

(** An account whose balance is locked may not take a role, but it may give one up: nothing
    checks the lock. *)
Definition frozen : state := set_books (Balance.set_accounts
  (<[5 := Balance.mk_account 7 7 7 2000 3000 5000 None (256 + 16)]> (Balance.accounts (books elected))) (books elected)) elected.
Theorem locked_account_resigns :
  is_lock_balance <$> Balance.accounts (books frozen) !! 5 = Some true ∧
  is_ok (execute resign frozen) ∧ ¬ is_ok (execute (op_witness_update (mk_witness_update (mk_asset 0 0) 0 5 None None None)) frozen).
Proof. split_and!; [by vm_compute|by vm_compute|by vm_compute]. Qed.

(** The space of the identifier is not looked at: an implementation object of the same type and
    instance stands for the witness. *)
Theorem space_ignored :
  execute (op_change_identity (mk_change_identity (mk_asset 1 0) 5 (mk_id (pack 2 6 0)) false)) elected = execute resign elected.
Proof. by vm_compute. Qed.

(** The balance in the asset of the fee is compared with the pledge in the core asset: who pays
    the fee in another asset never becomes a witness. *)
Theorem fee_in_core_only (n : Z) : 1 < n →
  ¬ is_ok (execute (op_witness_create (mk_witness_create (mk_asset n 1) 5 "url" "memo" 77)) start).
Proof.
  intros Hn. assert (1 <? n = true) as H1 by lia. assert (0 <=? n = true) as H0 by lia.
  cbn [execute]. unfold witness_create_validate, fee_paid. cbn [wc_fee amount]. rewrite H0.
  unfold witness_create_evaluate, create_checks. cbn [wc_fee amount wc_account]. rewrite H1. by vm_compute.
Qed.
End IdentitiesExample.
