(* ===== verification/Authentication.v ===== *)
(** * Authentication of accounts

    account_evaluator.cpp (account_authenticate_evaluator), protocol/account.cpp and the
    questions of account_member_evaluator.cpp that depend on it: who may withdraw from a
    gateway or deposit with it.  An author states that it knows an account; a gateway trusts
    authors for assets.  What the code reads from memory it never wrote, and the hash of the
    bytes of an object in memory, are arguments of the operation ([memory]). *)

From S2P Require Import Prelude ObjectId Safe Uint128 Asset Vesting Balance Authority Votes Names Transfers AssetRegistry Listings Identities.
From Stdlib Require Import ZArith.
From stdpp Require Import gmap strings.

Local Open Scope Z_scope.

(** ** The flags of gateways, authors and accounts *)

Definition gateway_cash : Z := 1.
Definition gateway_bit : Z := 2.
Definition gateway_dispost : Z := 4.
Definition gateway_withdray : Z := 8.
Definition gateway_hash : Z := 32.
Definition auth_gateway : Z := 65536.
Definition auth_carrier : Z := 131072.
Definition auth_author : Z := 262144.
Definition auth_nosetting : Z := 2000.
Definition account_flag_mask : Z := 16777216.

(** ** The data *)

(** [memo_data]; public keys are numbers, 0 is [public_key_type()]. *)
Record memo_data := mk_memo { memo_from : Z; memo_to : Z; memo_nonce : Z; memo_message : list Z }.

Record account_auth_item := mk_item { item_state : Z; item_expiration : Z; item_hash64 : Z; item_time : Z }.

Record account_auth_data := mk_auth_data {
  auth_state : gmap Z account_auth_item;
  hash64 : Z;
  auth_info : option memo_data;
  auth_memo_key : memo_data
}.

(** The parts of the objects that only these operations touch: [auth_data], [options.auth_key]
    and [user_info] of accounts, what authors pay, whom carriers trust, and the carriers of the
    products of the options of lenders. *)
Record state := mk_state {
  base : Identities.state;
  auth_data : gmap Z account_auth_data;
  auth_keys : gmap Z Z;
  user_info : gmap Z memo_data;
  author_pays : gmap Z (Z * Z);
  carrier_trust : gmap Z (gmap Z Z * option Z);
  option_carriers : gmap Z (list (gset Z));
  budget_supply : Z
}.

Definition set_base b s := mk_state b (auth_data s) (auth_keys s) (user_info s) (author_pays s) (carrier_trust s) (option_carriers s) (budget_supply s).
Definition set_auth_data m s := mk_state (base s) m (auth_keys s) (user_info s) (author_pays s) (carrier_trust s) (option_carriers s) (budget_supply s).
Definition set_auth_keys m s := mk_state (base s) (auth_data s) m (user_info s) (author_pays s) (carrier_trust s) (option_carriers s) (budget_supply s).
Definition set_user_info m s := mk_state (base s) (auth_data s) (auth_keys s) m (author_pays s) (carrier_trust s) (option_carriers s) (budget_supply s).
Definition set_author_pays m s := mk_state (base s) (auth_data s) (auth_keys s) (user_info s) m (carrier_trust s) (option_carriers s) (budget_supply s).
Definition set_carrier_trust m s := mk_state (base s) (auth_data s) (auth_keys s) (user_info s) (author_pays s) m (option_carriers s) (budget_supply s).
Definition set_budget_supply n s := mk_state (base s) (auth_data s) (auth_keys s) (user_info s) (author_pays s) (carrier_trust s) (option_carriers s) n.

Definition on_base {A} : M Identities.state A → M state A := zoom base set_base.
Definition head_time (s : state) : Z := head_block_time (books (base s)).
Definition the_account (i : Z) : M state account_object := on_base (Identities.get_account i).
Definition the_asset (i : Z) : M state asset_object := on_base (on_registry (get_asset i)).
Definition the_name (i : Z) : M state string := on_base (name_of i).

(** ** account_object.cpp *)

(** [find] in the index of the objects of a role by account. *)
Definition by_account (k : kind) (acct : Z) (s : Identities.state) : option (Z * member) :=
  head (omap (λ p : (kind * Z) * member,
    if bool_decide (p.1.1 = k ∧ member_account p.2 = acct) then Some (p.1.2, p.2) else None) (map_to_list (members s))).

(** [get_author_id], [get_carrier_id] and [get_gateway_id], with the object. *)
Definition role_of (k : kind) (acct : Z) : M state (Z * member) :=
  s ← get_st; lift (match by_account k acct (base s) with Some p => Ok p | None => Throw assert_exception end).

(** [is_author_enable], [is_carrier_enable] and [is_gateway_enable]. *)
Definition role_enabled (k : kind) (acct : Z) (a : account_object) (s : Identities.state) : bool :=
  has_flag k a && match by_account k acct s with Some (_, m) => bool_decide (enable m = identity_enable) | None => false end.

Definition get_auth_asset (s : state) (acct : Z) (a : account_object) (type : Z) : list Z :=
  (if any type 1 && has_flag author a then
     match by_account author acct (base s) with
     | Some (_, m) => match info m with author_details _ allow _ => allow | _ => [] end
     | None => []
     end
   else []) ++
  (if any type 2 && has_flag gateway a then
     match by_account gateway acct (base s) with
     | Some (g, _) => ordered (default ∅ (gateways (registry (base s)) !! g))
     | None => []
     end
   else []) ++
  (if any type 4 && has_flag carrier a then
     map_to_list (lender_options (registry (base s))) ≫= λ p,
       omap (λ carriers : gset Z, if bool_decide (acct ∈ carriers) then Some (lender_asset p.2) else None)
         (default [] (option_carriers s !! p.1))
   else []).
Definition is_auth_asset (s : state) (acct : Z) (a : account_object) (aid : Z) : bool :=
  bool_decide (aid ∈ get_auth_asset s acct a 119).

(** [is_gateway_enable( db, asset )]. *)
Definition is_gateway_enable (s : state) (acct : Z) (a : account_object) (aid : Z) : result bool :=
  if has_flag gateway a then
    match by_account gateway acct (base s) with
    | Some (_, m) =>
        if bool_decide (enable m = identity_enable) then
          match assets (registry (base s)) !! aid with
          | Some ass => Ok (bool_decide (member_account m ∈ whitelist_gateways ass))
          | None => Throw other_exception
          end
        else Ok false
    | None => Ok false
    end
  else Ok false.

(** ** The operation *)

Record account_auth := mk_account_auth { authenticator : option Z; new_info : option memo_data; new_key : option memo_data }.
Record account_author := mk_account_author { au_state : Z; au_expiration : Z; au_subject : Z; au_hash64 : Z }.

Record account_authenticate_operation := mk_authenticate {
  au_fee : asset;
  au_issuer : Z;
  op_type : Z;
  o_lock_balance : option bool;
  o_auth_key : option Z;
  o_auth_account : option account_author;
  o_auth_data : option account_auth;
  o_flags : option Z;
  o_need_auth : option Z;
  o_trust_auth : option (gmap Z Z)
}.

(** The default constructor: [from], [to] and [nonce] are 0. *)
Definition no_memo : memo_data := mk_memo 0 0 0 [].
Definition memo_length (m : memo_data) : Z := Z.of_nat (length (memo_message m)).

(** [*x] of an optional that holds nothing; the checks before it exclude that. *)
Definition deref {A} (x : option A) : result A := match x with Some a => Ok a | None => Throw assert_exception end.
Definition valid {A} (x : option A) : bool := match x with Some _ => true | None => false end.

Definition signed_memo (m : memo_data) : result () :=
  FC_ASSERT (negb (memo_from m =? 0)) ;; FC_ASSERT (memo_length m <? 20000).

Definition authenticate_validate (o : account_authenticate_operation) : result () :=
  FC_ASSERT (0 <=? amount (au_fee o)) ;;
  FC_ASSERT (negb (au_issuer o =? 0)) ;;
  let t := op_type o in
  if t =? 1 then FC_ASSERT (valid (o_flags o))
  else if t =? 2 then FC_ASSERT false
  else if t =? 3 then FC_ASSERT (valid (o_lock_balance o))
  else if t =? 4 then FC_ASSERT (valid (o_auth_key o))
  else if t =? 5 then
    FC_ASSERT (valid (o_auth_data o)) ;;
    d ← deref (o_auth_data o);
    FC_ASSERT (valid (new_key d) || valid (new_info d)) ;;
    when_set (new_key d) signed_memo ;;
    when_set (new_info d) signed_memo
  else if t =? 6 then
    FC_ASSERT (valid (o_auth_account o)) ;;
    a ← deref (o_auth_account o);
    FC_ASSERT (au_expiration a <? 365 * 24 * 3600 * 10) ;;
    FC_ASSERT (negb (any (au_state a) 4294901760))
  else if (t =? 7) || (t =? 8) then
    FC_ASSERT (valid (o_need_auth o) || valid (o_trust_auth o) || valid (o_auth_data o)) ;;
    when_set (o_trust_auth o) (λ m, FC_ASSERT (size m <? 100)%nat) ;;
    when_set (o_auth_data o) (λ d, FC_ASSERT (valid (authenticator d)))
  else if t =? 9 then
    FC_ASSERT (valid (o_auth_data o)) ;;
    d ← deref (o_auth_data o);
    FC_ASSERT (valid (new_info d)) ;;
    i ← deref (new_info d);
    FC_ASSERT (memo_length i <? 20000)
  else if t =? 10 then FC_ASSERT (valid (o_flags o))
  else if t =? 11 then FC_ASSERT (valid (o_flags o)) ;; FC_ASSERT (valid (o_need_auth o))
  else FC_ASSERT false.

(** ** do_evaluate *)

Definition can_auth (a : account_object) : bool :=
  any (uaccount_property a) (Z.lor (account_flag author) (Z.lor (account_flag carrier) (account_flag gateway))).
Definition key_of (acct : Z) : M state Z := s ← get_st; mret (default 0 (auth_keys s !! acct)).

(** The authors a gateway or a carrier trusts, and its default one. *)
Definition check_trust (o : account_authenticate_operation) : M state () :=
  match o_auth_data o with
  | Some d =>
      x ← lift (deref (authenticator d));
      the_account x ;; role_of author x ;; mret ()
  | None => mret ()
  end ;;
  match o_trust_auth o with
  | Some trust =>
      mapM_ (λ p, the_asset p.1 ;; ca ← the_account p.2; s ← get_st;
        assert_st (can_auth ca) ;; assert_st (is_auth_asset s p.2 ca p.1)) (map_to_list trust)
  | None => mret ()
  end.

(** An account with the name: the index by name is unique. *)
Definition account_named (n : string) (d : AssetRegistry.database) : option Z :=
  head (omap (λ p : Z * account, if bool_decide (account_name p.2 = n) then Some p.1 else None) (map_to_list (accounts d))).

Definition evaluate_data (o : account_authenticate_operation) : M state () :=
  d ← lift (deref (o_auth_data o));
  match authenticator d with
  | Some x =>
      auth ← the_account x;
      assert_st (has_flag author auth) ;;
      match new_key d with Some k => y ← key_of x; assert_st (y =? memo_to k) | None => mret () end
  | None => mret ()
  end ;;
  match o_auth_key o with Some k => y ← key_of (au_issuer o); assert_st (negb (k =? y)) | None => mret () end ;;
  match new_info d with Some i => assert_st (memo_from i =? memo_to i) | None => mret () end.

Definition evaluate_author (o : account_authenticate_operation) : M state () :=
  au ← lift (deref (o_auth_account o));
  assert_st (negb (au_subject au =? au_issuer o)) ;;
  auth ← the_account (au_subject au);
  issuer_obj ← the_account (au_issuer o);
  role_of author (au_issuer o) ;;
  the_account (referrer auth) ;;
  assert_st (can_auth issuer_obj) ;;
  s ← get_st;
  (if has_flag author issuer_obj then assert_st (role_enabled author (au_issuer o) issuer_obj (base s))
   else if has_flag carrier issuer_obj then assert_st (role_enabled carrier (au_issuer o) issuer_obj (base s))
   else if has_flag gateway issuer_obj then assert_st (role_enabled gateway (au_issuer o) issuer_obj (base s))
   else mret ()) ;;
  match auth_data s !! au_subject au with
  | Some d => if au_state au =? 0 then assert_st (bool_decide (is_Some (auth_state d !! au_issuer o))) else mret ()
  | None => mret ()
  end ;;
  assert_st (negb (any (au_state au) author_mask)) ;;
  assert_st (Z.land (au_state au) author_mask <? auth_nosetting).

Definition authenticate_evaluate (o : account_authenticate_operation) : M state () :=
  acnt ← the_account (au_issuer o);
  let t := op_type o in
  if t =? 1 then
    f ← lift (deref (o_flags o));
    assert_st (negb (beyond f account_flag_mask)) ;;
    assert_st (negb (f =? Z.land (uaccount_property acnt) account_flag_mask))
  else if t =? 3 then
    b ← lift (deref (o_lock_balance o)); assert_st (negb (Bool.eqb b (is_lock_balance acnt)))
  else if t =? 4 then
    k ← lift (deref (o_auth_key o)); y ← key_of (au_issuer o); assert_st (negb (k =? y))
  else if t =? 5 then evaluate_data o
  else if t =? 6 then evaluate_author o
  else if t =? 7 then role_of gateway (au_issuer o) ;; check_trust o
  else if t =? 8 then role_of carrier (au_issuer o) ;; check_trust o
  else if t =? 9 then
    d ← lift (deref (o_auth_data o));
    i ← lift (deref (new_info d));
    s ← get_st;
    x ← lift (deref (account_named "admin-notify" (registry (base s))));
    y ← key_of x;
    assert_st (memo_to i =? y) ;;
    assert_st (memo_length i <=? 1000)
  else if t =? 10 then f ← lift (deref (o_flags o)); assert_st (negb (beyond f carrier_op_mask))
  else if t =? 11 then
    role_of author (au_issuer o) ;;
    lift (deref (o_flags o)) ;; lift (deref (o_need_auth o)) ;; mret ()
  else assert_st false.

(** ** do_apply *)

(** What a machine finds in its memory: the 64 bits that the constructor of [account_auth_data]
    leaves as they are, and the hash of the bytes of the object [key], pointers included. *)
Record memory := mk_memory { left_bits : Z; bytes_hash : memo_data → Z }.

Definition new_auth_data (mem : memory) : account_auth_data := mk_auth_data ∅ (left_bits mem) None no_memo.

Definition set_property (p : Z) (a : account_object) : account_object :=
  Balance.mk_account (registrar a) (referrer a) (lifetime_referrer a) (network_fee_percentage a)
    (lifetime_referrer_fee_percentage a) (referrer_rewards_percentage a) (cashback_vb a) p.
Definition modify_property (acct : Z) (f : Z → Z) : M state () :=
  a ← the_account acct;
  on_base (on_books (modify_st (λ l, Balance.set_accounts (<[acct := set_property (f (uaccount_property a)) a]> (Balance.accounts l)) l))).

(** The registry of assets knows of each account whether its balance is locked. *)
Definition as_locked (b : bool) (a : account) : account :=
  mk_account (account_name a) b (gateway_member a) (gateway_of a) (active_accounts a).
Definition set_flags (acct f : Z) : M state () :=
  modify_property acct (λ p, Z.lor (Z.ldiff p account_flag_mask) (Z.land f account_flag_mask)).
Definition lock_account (acct : Z) (b : bool) : M state () :=
  modify_property acct (λ p, if b then Z.lor p account_lock_balance else Z.ldiff p account_lock_balance) ;;
  on_base (on_registry (a ← AssetRegistry.get_account acct; modify_st (λ d, set_accounts (<[acct := as_locked b a]> (accounts d)) d))).

Definition expired (now : Z) (i : account_auth_item) : bool := time_plus (item_time i) (item_expiration i) <? now.

(** The roles of the account that is authenticated. *)
Definition role_bits (s : state) (acct : Z) (a : account_object) : result Z :=
  bits ← (if has_flag author a then
            match by_account author acct (base s) with
            | Some (_, m) => match info m with author_details type _ _ => Ok (Z.lor type auth_author) | _ => Ok auth_author end
            | None => Throw assert_exception
            end
          else Ok 0);
  Ok (Z.lor (Z.lor bits (if has_flag carrier a then auth_carrier else 0)) (if has_flag gateway a then auth_gateway else 0)).

Definition record_authentication (mem : memory) (o : account_authenticate_operation) (au : account_author) : M state () :=
  a ← the_account (au_subject au);
  s ← get_st;
  let now := head_time s in
  let data := default (new_auth_data mem) (auth_data s !! au_subject au) in
  items ← (if au_state au =? 0 then mret (delete (au_issuer o) (auth_state data))
           else
             bits ← lift (role_bits s (au_subject au) a);
             mret (<[au_issuer o := mk_item (Z.lor (au_state au) bits) (au_expiration au)
                       (if au_hash64 au =? 0 then hash64 data else au_hash64 au) now]> (auth_state data)));
  modify_st (λ s, set_auth_data (<[au_subject au := mk_auth_data (filter (λ p, expired now p.2 = false) items)
    (hash64 data) (auth_info data) (auth_memo_key data)]> (auth_data s)) s).

(** What the author pays to the account and to its referrer. *)
Definition reward_authentication (o : account_authenticate_operation) (au : account_author) : M state () :=
  acnt ← the_account (au_subject au);
  au_obj ← role_of author (au_issuer o);
  s ← get_st;
  let '(for_account, for_referrer) := default (0, 0) (author_pays s !! au_obj.1) in
  total ← lift (safe_add for_account for_referrer);
  if 0 <? total then
    all ← on_base (balance_of (au_issuer o) GRAPHENE_CORE_ASSET);
    if total <=? amount all then
      acnt_name ← the_name (au_subject au);
      issuer_name ← the_name (au_issuer o);
      debit ← lift (asset_neg (mk_asset total GRAPHENE_CORE_ASSET));
      on_base (on_books (adjust_balance 109 ("to " ++ acnt_name) (au_issuer o) debit)) ;;
      (if 0 <? for_account
       then on_base (on_books (adjust_balance 110 ("from " ++ issuer_name) (au_subject au) (mk_asset for_account GRAPHENE_CORE_ASSET)))
       else mret ()) ;;
      (if 0 <? for_referrer
       then on_base (on_books (adjust_balance 111 ("from " ++ issuer_name) (referrer acnt) (mk_asset for_referrer GRAPHENE_CORE_ASSET)))
       else mret ())
    else mret ()
  else mret ().

(** The author the default of a gateway or a carrier names. *)
Definition new_default (o : account_authenticate_operation) (old : option Z) : M state (option Z) :=
  match o_auth_data o with
  | Some d => x ← lift (deref (authenticator d)); the_account x ;; p ← role_of author x; mret (Some p.1)
  | None => mret old
  end.

Definition set_info (d : details) (x : member) : member :=
  mk_member (name x) (member_account x) (vote_id x) (url x) (memo x) (lock_asset x) (enable x) d.

Definition configure_gateway (o : account_authenticate_operation) : M state () :=
  auth ← role_of gateway (au_issuer o);
  match info auth.2 with
  | gateway_details need trust def dyn =>
      def' ← new_default o def;
      on_base (modify_member gateway auth.1 (set_info
        (gateway_details (default need (o_need_auth o)) (default trust (o_trust_auth o)) def' dyn)))
  | _ => throw other_exception
  end.

Definition configure_carrier (o : account_authenticate_operation) : M state () :=
  auth ← role_of carrier (au_issuer o);
  s ← get_st;
  let '(trust, def) := default (∅, None) (carrier_trust s !! auth.1) in
  match info auth.2 with
  | carrier_details need config ops dyn =>
      def' ← new_default o def;
      on_base (modify_member carrier auth.1 (set_info (carrier_details (default need (o_need_auth o)) config ops dyn))) ;;
      modify_st (λ s, set_carrier_trust (<[auth.1 := (default trust (o_trust_auth o), def')]> (carrier_trust s)) s)
  | _ => throw other_exception
  end.

Definition support_operations (o : account_authenticate_operation) : M state () :=
  auth ← role_of carrier (au_issuer o);
  f ← lift (deref (o_flags o));
  match info auth.2 with
  | carrier_details need config _ dyn =>
      on_base (modify_member carrier auth.1 (set_info (carrier_details need config (Z.land f carrier_op_mask) dyn)))
  | _ => throw other_exception
  end.

Definition apply_data (mem : memory) (o : account_authenticate_operation) : M state () :=
  s ← get_st;
  d ← lift (deref (o_auth_data o));
  let acct := au_issuer o in
  let data := default (new_auth_data mem) (auth_data s !! acct) in
  match o_auth_key o with Some k => modify_st (λ s, set_auth_keys (<[acct := k]> (auth_keys s)) s) | None => mret () end ;;
  let '(hash, key) := match new_key d with Some k => (bytes_hash mem k, k) | None => (hash64 data, auth_memo_key data) end in
  modify_st (λ s, set_auth_data (<[acct := mk_auth_data (auth_state data) hash
    (match new_info d with Some i => Some i | None => auth_info data end) key]> (auth_data s)) s).

Definition authenticate_apply (mem : memory) (o : account_authenticate_operation) : M state () :=
  let t := op_type o in
  if t =? 6 then
    au ← lift (deref (o_auth_account o)); record_authentication mem o au ;; reward_authentication o au
  else if t =? 7 then configure_gateway o
  else if t =? 8 then configure_carrier o
  else if t =? 9 then
    d ← lift (deref (o_auth_data o));
    i ← lift (deref (new_info d));
    modify_st (λ s, set_user_info (<[au_issuer o := i]> (user_info s)) s)
  else if t =? 10 then support_operations o
  else if t =? 11 then
    auth ← role_of author (au_issuer o);
    f ← lift (deref (o_flags o));
    n ← lift (deref (o_need_auth o));
    modify_st (λ s, set_author_pays (<[auth.1 := (f, n)]> (author_pays s)) s)
  else if t =? 1 then
    f ← lift (deref (o_flags o)); set_flags (au_issuer o) f
  else if t =? 3 then b ← lift (deref (o_lock_balance o)); lock_account (au_issuer o) b
  else if t =? 4 then
    k ← lift (deref (o_auth_key o)); modify_st (λ s, set_auth_keys (<[au_issuer o := k]> (auth_keys s)) s)
  else if t =? 5 then apply_data mem o
  else mret ().

Definition authenticate (mem : memory) (o : account_authenticate_operation) : M state () :=
  lift (authenticate_validate o) ;; authenticate_evaluate o ;; authenticate_apply mem o.

(** ** account_member_evaluator.cpp: may an account use a gateway? *)

(** The settings of a gateway: what it asks for, whom it trusts, its default author. *)
Definition settings (ca : member) : Z * gmap Z Z * option Z :=
  match info ca with gateway_details need trust def _ => (need, trust, def) | _ => (0, ∅, None) end.

Definition trusted_author (ca : member) (aid : Z) : M state Z :=
  let '(_, trust, def) := settings ca in
  match trust !! aid with
  | Some x => mret x
  | None =>
      match def with
      | Some n => ass ← on_base (get_member author n); mret (member_account ass)
      | None => mret (member_account ca)
      end
  end.

(** The answer that the records of an account give. *)
Definition item_answer (now need : Z) (d : option account_auth_data) (x : Z) : Z :=
  match d with
  | None => -1
  | Some d =>
      match auth_state d !! x with
      | None => -2
      | Some i =>
          if any need gateway_hash && negb (item_hash64 i =? hash64 d) then -3
          else if expired now i then -4
          else to_sint 32 (Z.ldiff (item_state i) author_mask)
      end
  end.

Definition get_can_author (ca : member) (acct aid : Z) : M state Z :=
  ass ← the_asset aid;
  let need := (settings ca).1.1 in
  if negb (any need (if Transfers.is_cash_issued (transfer_view ass) then gateway_cash else gateway_bit)) then mret auth_nosetting
  else
    author_id ← trusted_author ca aid;
    author_account ← the_account author_id;
    s ← get_st;
    if negb (is_auth_asset s author_id author_account aid) then mret (-5)
    else mret (item_answer (head_time s) need (auth_data s !! acct) author_id).

Definition get_can_withdraw (ca : member) (acct aid : Z) : M state Z :=
  if any (settings ca).1.1 gateway_withdray then get_can_author ca acct aid else mret auth_nosetting.
Definition get_can_deposit (ca : member) (acct aid : Z) : M state Z :=
  if any (settings ca).1.1 gateway_dispost then get_can_author ca acct aid else mret auth_nosetting.

(** * The steps, one by one *)

Lemma the_account_run i s a s' : the_account i s = Ok (a, s') → Balance.accounts (books (base s)) !! i = Some a ∧ s' = s.
Proof. intros (b & [Ha ->]%Identities.get_account_run & ->)%zoom_Ok. split; [done|by destruct s]. Qed.

Lemma the_asset_run i s a s' : the_asset i s = Ok (a, s') → assets (registry (base s)) !! i = Some a ∧ s' = s.
Proof. intros (b & (d & [Ha ->]%get_asset_run & ->)%zoom_Ok & ->)%zoom_Ok. split; [done|by destruct s as [[] ]]. Qed.

Lemma by_account_some k acct s g m : by_account k acct s = Some (g, m) → members s !! (k, g) = Some m ∧ member_account m = acct.
Proof.
  intros Hh%head_Some_elem_of. apply list_elem_of_omap in Hh as ([[k' i] x] & Hin%elem_of_map_to_list & Hif). cbn in Hif.
  case_bool_decide as Hc; [|done]. destruct Hc as [-> Ha]. by injection Hif as -> ->.
Qed.

Lemma by_account_none k acct s : by_account k acct s = None → ∀ i m, members s !! (k, i) = Some m → member_account m ≠ acct.
Proof.
  unfold by_account. intros Hh i m Hm Ha.
  assert ((i, m) ∈ omap (λ p : (kind * Z) * member, if bool_decide (p.1.1 = k ∧ member_account p.2 = acct) then Some (p.1.2, p.2) else None)
    (map_to_list (members s))) as Hin.
  { apply list_elem_of_omap. exists ((k, i), m). split; [by apply elem_of_map_to_list|]. cbn. by rewrite bool_decide_true. }
  apply head_None in Hh. rewrite Hh in Hin. by apply not_elem_of_nil in Hin.
Qed.

(** The index finds the object: an account has one of each role. *)
Lemma by_account_iff k acct s g m :
  (∀ i j m m', members s !! (k, i) = Some m → members s !! (k, j) = Some m' → member_account m = member_account m' → i = j) →
  by_account k acct s = Some (g, m) ↔ members s !! (k, g) = Some m ∧ member_account m = acct.
Proof.
  intros Hone. split; [apply by_account_some|]. intros [Hm Ha].
  destruct (by_account k acct s) as [[j x]|] eqn:Hb; [|by edestruct (by_account_none _ _ _ Hb g m)].
  apply by_account_some in Hb as [Hx Hax]. assert (j = g) as -> by (eapply Hone; [exact Hx|exact Hm|congruence]). by rewrite Hx in Hm; injection Hm as ->.
Qed.

Lemma role_of_run k acct s p s' : role_of k acct s = Ok (p, s') → by_account k acct (base s) = Some p ∧ s' = s.
Proof. unfold role_of, mbind, M_bind, get_st, lift. destruct (by_account k acct (base s)); [|done]. by intros [= -> ->]. Qed.

Lemma the_account_reads i : moves eq (the_account i).
Proof. by intros s a s' [_ ->]%the_account_run. Qed.
Lemma the_asset_reads i : moves eq (the_asset i).
Proof. by intros s a s' [_ ->]%the_asset_run. Qed.
Lemma the_name_reads i : moves eq (the_name i).
Proof. intros s n s' (b & <-%(name_of_reads i) & ->)%zoom_Ok. by destruct s. Qed.
Lemma role_of_reads k acct : moves eq (role_of k acct).
Proof. by intros s a s' [_ ->]%role_of_run. Qed.
Lemma key_of_reads acct : moves eq (key_of acct).
Proof. by intros s a s' [= _ ->]. Qed.
Lemma balance_of_reads acct i : moves eq (on_base (balance_of acct i)).
Proof. intros s n s' (b & [= _ <-] & ->)%zoom_Ok. by destruct s. Qed.
#[export] Hint Resolve the_account_reads the_asset_reads the_name_reads role_of_reads key_of_reads balance_of_reads : zos.

Lemma check_trust_reads o : moves eq (check_trust o).
Proof. unfold check_trust. repeat moves_step. Qed.
Lemma evaluate_data_reads o : moves eq (evaluate_data o).
Proof. unfold evaluate_data. repeat moves_step. Qed.
Lemma evaluate_author_reads o : moves eq (evaluate_author o).
Proof. unfold evaluate_author. repeat moves_step. Qed.
#[local] Hint Resolve check_trust_reads evaluate_data_reads evaluate_author_reads : zos.
Lemma authenticate_evaluate_reads o : moves eq (authenticate_evaluate o).
Proof. unfold authenticate_evaluate. repeat moves_step. Qed.

Lemma get_can_author_reads ca acct aid : moves eq (get_can_author ca acct aid).
Proof.
  assert (moves eq (trusted_author ca aid)) as Ht.
  { unfold trusted_author. intros s x s' Hrun. destruct (settings ca) as [[need trust] def]. destruct (trust !! aid); [by injection Hrun|].
    destruct def as [n|]; [|by injection Hrun]. apply M_bind_Ok in Hrun as (m & s1 & (b & [_ ->]%get_member_run & ->)%zoom_Ok & [= _ <-]).
    by destruct s. }
  unfold get_can_author. repeat moves_step.
Qed.

(** ** What authentication leaves as it is *)

(** The state of the roles has changed at most in the balances, in flags that
    are no roles, in the details of objects and in the locks of accounts. *)
Record alike (b b' : Identities.state) : Prop := mk_alike {
  al_time : head_block_time (books b') = head_block_time (books b);
  al_flags k x : has_flag k <$> Balance.accounts (books b') !! x = has_flag k <$> Balance.accounts (books b) !! x;
  al_members p : option_Forall2 same_holding (members b !! p) (members b' !! p);
  al_authors i : members b' !! (author, i) = members b !! (author, i);
  al_rest : next_member b' = next_member b ∧ next_available_vote_id b' = next_available_vote_id b ∧ locked b' = locked b ∧
    lock_fee b' = lock_fee b ∧ identify_lock_vesting_seconds b' = identify_lock_vesting_seconds b;
  al_assets : assets (registry b') = assets (registry b) ∧ gateways (registry b') = gateways (registry b) ∧
    next_asset (registry b') = next_asset (registry b);
  al_gateways x : gateway_of <$> accounts (registry b') !! x = gateway_of <$> accounts (registry b) !! x
}.

Lemma same_holding_refl m : same_holding m m.
Proof. by repeat split. Qed.

Lemma same_holding_trans m1 m2 m3 : same_holding m1 m2 → same_holding m2 m3 → same_holding m1 m3.
Proof. intros (A1 & A2 & A3 & A4 & A5) (B1 & B2 & B3 & B4 & B5). split_and!; congruence. Qed.

#[export] Instance alike_preorder : PreOrder alike.
Proof.
  split.
  - intros b. split; try done. intros p. destruct (members b !! p); constructor. apply same_holding_refl.
  - intros b1 b2 b3 H1 H2. split.
    + by rewrite (al_time _ _ H2), (al_time _ _ H1).
    + intros k x. by rewrite (al_flags _ _ H2), (al_flags _ _ H1).
    + intros p. pose proof (al_members _ _ H1 p) as M1. pose proof (al_members _ _ H2 p) as M2.
      inversion M1; inversion M2; constructor || congruence. eapply same_holding_trans; [|done]. congruence.
    + intros i. by rewrite (al_authors _ _ H2), (al_authors _ _ H1).
    + destruct (al_rest _ _ H1) as (? & ? & ? & ? & ?), (al_rest _ _ H2) as (? & ? & ? & ? & ?). by split_and!; congruence.
    + destruct (al_assets _ _ H1) as (? & ? & ?), (al_assets _ _ H2) as (? & ? & ?). by split_and!; congruence.
    + intros x. by rewrite (al_gateways _ _ H2), (al_gateways _ _ H1).
Qed.

Lemma seen_alike {A B} (f : A → B) (o o' : option A) y :
  f <$> o' = f <$> o → (∃ a, o' = Some a ∧ f a = y) ↔ ∃ a, o = Some a ∧ f a = y.
Proof.
  intros E. transitivity (f <$> o' = Some y); [|rewrite E]; rewrite fmap_Some; split; intros (a & ? & ?); exists a; by split.
Qed.

(** The lists of gateways depend on no other part of accounts. *)
Lemma gateways_listed d d' :
  assets d' = assets d → gateways d' = gateways d → next_asset d' = next_asset d →
  (∀ x, gateway_of <$> accounts d' !! x = gateway_of <$> accounts d !! x) → listed d → listed d'.
Proof.
  intros Ea Eg En Ex [Hs Hf Ho Hfr].
  assert (∀ x g, (∃ a, accounts d' !! x = Some a ∧ gateway_of a = g) ↔ ∃ a, accounts d !! x = Some a ∧ gateway_of a = g) as Hx.
  { intros x g. by apply seen_alike. }
  split.
  - intros acct i. unfold lists. rewrite Ea. change (∃ a, assets d !! i = Some a ∧ acct ∈ whitelist_gateways a) with (lists d i acct).
    rewrite <- Hs. unfold carries. rewrite Eg. split; intros (a & g & s & Ha & Hg & Hr).
    + destruct (proj1 (Hx acct (Some g))) as (a' & ? & ?); [by exists a|]. by exists a', g, s.
    + destruct (proj2 (Hx acct (Some g))) as (a' & ? & ?); [by exists a|]. by exists a', g, s.
  - intros acct a g Ha Hg. rewrite Eg. destruct (proj1 (Hx acct (Some g))) as (a' & ? & ?); [by exists a|]. by apply (Hf acct a').
  - intros x1 a1 x2 a2 g H1 H2 G1 G2. destruct (proj1 (Hx x1 (Some g))) as (b1 & ? & ?); [by exists a1|].
    destruct (proj1 (Hx x2 (Some g))) as (b2 & ? & ?); [by exists a2|]. by apply (Ho x1 b1 x2 b2 g).
  - unfold AssetRegistry.fresh in *. rewrite Ea, En. exact Hfr.
Qed.

Lemma alike_ok b b' : identities_ok b → alike b b' → ledger_ok (books b') → identities_ok b'.
Proof.
  intros Hok Hal Hl. destruct (al_rest _ _ Hal) as (En & Ev & EL & Ef & Es).
  assert (∀ p m', members b' !! p = Some m' → ∃ m, members b !! p = Some m ∧ same_holding m m') as Hback.
  { intros p m' Hm'. pose proof (al_members _ _ Hal p) as Hp. rewrite Hm' in Hp. inversion Hp. by eexists. }
  assert (∀ p m, members b !! p = Some m → ∃ m', members b' !! p = Some m' ∧ same_holding m m') as Hforth.
  { intros p m Hm. pose proof (al_members _ _ Hal p) as Hp. rewrite Hm in Hp. inversion Hp. by eexists. }
  assert (∀ x k, (∃ a, Balance.accounts (books b') !! x = Some a ∧ has_flag k a = true) ↔
    ∃ a, Balance.accounts (books b) !! x = Some a ∧ has_flag k a = true) as Hflag.
  { intros x k. by rewrite !flagged_iff, (al_flags _ _ Hal). }
  split.
  - done.
  - rewrite Ef. apply Hok.
  - rewrite Es. apply Hok.
  - rewrite Ev. apply Hok.
  - rewrite En. apply (id_start b Hok).
  - intros k i m' (m & Hm & Ha & Hv & Hla & He & Hk)%Hback. destruct (id_member b Hok k i m Hm) as [Mk Mi Mv Ms Ma Md Mr].
    split; rewrite ?Hk, ?Ha, ?Hv, ?Hla, ?He, ?En, ?Ev; try done. by apply Hflag.
  - intros k x a Ha Hf. destruct (proj1 (Hflag x k)) as (a0 & Ha0 & Hf0); [by exists a|].
    destruct (id_flag b Hok k x a0 Ha0 Hf0) as (i & m & Hm & <-). apply Hforth in Hm as (m' & Hm' & E & _). by exists i, m'.
  - intros k i j m1 m2 (x & Hx & E & _)%Hback (y & Hy & E' & _)%Hback Heq. apply (id_one b Hok k i j x y); congruence.
  - intros p q m1 m2 (x & Hx & _ & E & _)%Hback (y & Hy & _ & E' & _)%Hback Heq. apply (id_vote b Hok p q x y); congruence.
  - intros x a. rewrite EL. apply (id_locked b Hok).
  - intros x. unfold locked_of. rewrite EL. change (locked_of b x = pledged x (members b')). rewrite (id_pledged b Hok).
    apply msum_ext. intros p. destruct (al_members _ _ Hal p) as [m m' (Ha & _ & Hla & _)|]; constructor.
    unfold pledge_of. by rewrite Ha, Hla.
  - destruct (al_assets _ _ Hal) as (Ea & Eg & Ex). eapply gateways_listed; [done..|apply (al_gateways _ _ Hal)|apply Hok].
  - intros x g. transitivity (∃ a, accounts (registry b) !! x = Some a ∧ gateway_of a = Some g).
    { apply seen_alike, Hal. }
    rewrite (id_gateway b Hok). split.
    + intros (m & (m' & Hm' & E & _)%Hforth & <-). by exists m'.
    + intros (m' & (m & Hm & E & _)%Hback & <-). by exists m.
  - intros g. rewrite (proj1 (proj2 (al_assets _ _ Hal))). intros [m Hm]%(id_column b Hok). apply Hforth in Hm as (m' & Hm' & _). by exists m'.
Qed.

(** *** The steps of authentication *)

Definition calm (s s' : state) : Prop := alike (base s) (base s').
#[export] Instance calm_preorder : PreOrder calm.
Proof. split; [intros s; apply alike_preorder|intros s1 s2 s3; apply alike_preorder]. Qed.

Lemma reads_calm {A} (m : M state A) : moves eq m → moves calm m.
Proof. intros Hm s a s' <-%Hm. apply alike_preorder. Qed.
Lemma on_base_calm {A} (m : M Identities.state A) : moves alike m → moves calm (on_base m).
Proof. by intros Hm s a s' (b & Hb%Hm & ->)%zoom_Ok. Qed.
Lemma modify_st_calm f : (∀ s, base (f s) = base s) → moves calm (modify_st f).
Proof. intros Hf s a s' [= _ <-]. unfold calm. rewrite Hf. reflexivity. Qed.

(** A change of the ledger that leaves flags and time. *)
Lemma books_alike l b : head_block_time l = head_block_time (books b) →
  (∀ k x, has_flag k <$> Balance.accounts l !! x = has_flag k <$> Balance.accounts (books b) !! x) → alike b (set_books l b).
Proof.
  intros Ht Hx. split; try done. intros p. cbn. destruct (members b !! p); constructor. apply same_holding_refl.
Qed.

Lemma adjust_balance_accounts u info a d : same Balance.accounts (adjust_balance u info a d).
Proof.
  intros l x l' Hrun. unfold adjust_balance in Hrun. case_match; [by inv_ok|].
  apply M_bind_Ok in Hrun as (? & l0 & [= <- <-] & Hrun).
  apply M_bind_Ok in Hrun as (b & l1 & Hb & Hp). assert (Balance.accounts l1 = Balance.accounts l) as <-.
  { case_match; inv_ok; try done; case_match; by inv_ok. }
  unfold push_history in Hp. apply M_bind_Ok in Hp as (? & ? & [= <- <-] & Hp).
  case_match; [|by inv_ok]. apply M_bind_Ok in Hp as (? & ? & [_ ->]%assert_st_Ok & ->%put_st_Ok). done.
Qed.

Lemma adjust_balance_alike u info a d : moves alike (on_books (adjust_balance u info a d)).
Proof.
  intros b x b' (l & Hl & ->)%zoom_Ok. apply books_alike; [by apply adjust_balance_time in Hl|].
  by apply adjust_balance_accounts in Hl as ->.
Qed.

Lemma set_property_flag k p a : has_flag k (set_property p a) = any p (account_flag k).
Proof. done. Qed.

Lemma modify_property_run acct f s u s' : modify_property acct f s = Ok (u, s') → ∃ a,
  Balance.accounts (books (base s)) !! acct = Some a ∧
  s' = set_base (set_books (Balance.set_accounts (<[acct := set_property (f (uaccount_property a)) a]> (Balance.accounts (books (base s)))) (books (base s))) (base s)) s.
Proof. intros (a & s1 & [Ha ->]%the_account_run & Hrun)%M_bind_Ok. injection Hrun as _ <-. by exists a. Qed.

Lemma modify_property_calm acct f :
  (∀ k p, any (f p) (account_flag k) = any p (account_flag k)) → moves calm (modify_property acct f).
Proof.
  intros Hf s u s' (a & Ha & ->)%modify_property_run. apply books_alike; [done|]. intros k x. cbn.
  destruct (decide (x = acct)) as [->|]; [|by rewrite lookup_insert_ne].
  rewrite lookup_insert_eq, Ha. cbn. by rewrite set_property_flag, Hf.
Qed.

(** Changing one bit that is no role leaves the roles. *)
Lemma role_bits_same n x p k : 0 ≤ n → Z.testbit (account_flag k) n = false →
  (∀ j, j ≠ n → Z.testbit x j = Z.testbit p j) → any x (account_flag k) = any p (account_flag k).
Proof.
  intros Hn Hk Hx. unfold any. do 2 f_equal. apply Z.bits_inj'. intros j _. rewrite !Z.land_spec.
  destruct (decide (j = n)) as [->|Hj]; [by rewrite Hk, !andb_false_r|by rewrite Hx].
Qed.

Lemma lock_bit_no_role k p b :
  any (if b : bool then Z.lor p account_lock_balance else Z.ldiff p account_lock_balance) (account_flag k) = any p (account_flag k).
Proof.
  apply (role_bits_same 8); [lia|by destruct k|]. intros j Hj. change account_lock_balance with (2 ^ 8).
  destruct b; rewrite ?Z.lor_spec, ?Z.ldiff_spec, Z.pow2_bits_false by lia; by rewrite ?orb_false_r, ?andb_true_r.
Qed.

Lemma flag_bit_no_role k p f :
  any (Z.lor (Z.ldiff p account_flag_mask) (Z.land f account_flag_mask)) (account_flag k) = any p (account_flag k).
Proof.
  apply (role_bits_same 24); [lia|by destruct k|]. intros j Hj. change account_flag_mask with (2 ^ 24).
  rewrite Z.lor_spec, Z.ldiff_spec, Z.land_spec, Z.pow2_bits_false by lia. by rewrite andb_false_r, andb_true_r, orb_false_r.
Qed.

Lemma registry_alike reg b :
  assets reg = assets (registry b) → gateways reg = gateways (registry b) → next_asset reg = next_asset (registry b) →
  (∀ x, gateway_of <$> accounts reg !! x = gateway_of <$> accounts (registry b) !! x) → alike b (set_registry reg b).
Proof. intros Ea Eg En Ex. split; try done. intros p. cbn. destruct (members b !! p); constructor. apply same_holding_refl. Qed.

Lemma lock_account_calm acct b : moves calm (lock_account acct b).
Proof.
  apply moves_bind; [apply _| |].
  - apply modify_property_calm. intros k p. apply lock_bit_no_role.
  - intros _. apply on_base_calm. intros s u s' (d & Hd & ->)%zoom_Ok.
    apply M_bind_Ok in Hd as (a & d1 & [Ha ->]%registry_account_run & [= _ <-]). apply registry_alike; [done..|]. intros x. cbn.
    destruct (decide (x = acct)) as [->|]; [by rewrite lookup_insert_eq, Ha|by rewrite lookup_insert_ne].
Qed.

(** New details of the same role. *)
Lemma set_details_calm k i d s u s' m : k ≠ author → members (base s) !! (k, i) = Some m → kind_of d = kind_of (info m) →
  on_base (modify_member k i (set_info d)) s = Ok (u, s') → calm s s'.
Proof.
  intros Hk Hm Hd (b & (m' & Hm' & ->)%modify_member_run & ->)%zoom_Ok. assert (m' = m) as -> by congruence.
  split; try done; [|intros j; cbn; by rewrite lookup_insert_ne by congruence].
  intros p. cbn. destruct (decide (p = (k, i))) as [->|Hp].
  - rewrite lookup_insert_eq, Hm. constructor. by repeat split.
  - rewrite lookup_insert_ne by done. destruct (members (base s) !! p); constructor. apply same_holding_refl.
Qed.

#[local] Hint Resolve modify_st_calm lock_account_calm : zos.

Lemma new_default_reads o old : moves eq (new_default o old).
Proof. unfold new_default. repeat moves_step. Qed.

Lemma configure_gateway_calm o : moves calm (configure_gateway o).
Proof.
  intros s u s' ([i m] & s1 & [Hb ->]%role_of_run & Hrun)%M_bind_Ok. apply by_account_some in Hb as [Hm _]. cbn [fst snd] in Hrun.
  destruct (info m) eqn:Hi; try done. apply M_bind_Ok in Hrun as (def' & s1 & <-%new_default_reads & Hrun).
  eapply set_details_calm; [|exact Hm| |exact Hrun]; [done|by rewrite Hi].
Qed.

Lemma configure_carrier_calm o : moves calm (configure_carrier o).
Proof.
  intros s u s' ([i m] & s1 & [Hb ->]%role_of_run & Hrun)%M_bind_Ok. apply by_account_some in Hb as [Hm _].
  apply M_bind_Ok in Hrun as (s0 & s1 & [= -> ->] & Hrun). destruct (default _ _) as [trust def]. cbn [fst snd] in Hrun.
  destruct (info m) eqn:Hi; try done. apply M_bind_Ok in Hrun as (def' & s2 & <-%new_default_reads & Hrun).
  apply M_bind_Ok in Hrun as (v & s2 & Hmod & Hrun). transitivity s2.
  - eapply set_details_calm; [|exact Hm| |exact Hmod]; [done|by rewrite Hi].
  - by apply modify_st_calm in Hrun.
Qed.

Lemma support_operations_calm o : moves calm (support_operations o).
Proof.
  intros s u s' ([i m] & s1 & [Hb ->]%role_of_run & Hrun)%M_bind_Ok. apply by_account_some in Hb as [Hm _].
  apply M_bind_Ok in Hrun as (f & s1 & [_ ->]%lift_Ok & Hrun). cbn [fst snd] in Hrun. destruct (info m) eqn:Hi; try done.
  eapply set_details_calm; [|exact Hm| |exact Hrun]; [done|by rewrite Hi].
Qed.

Lemma set_flags_calm acct f : moves calm (set_flags acct f).
Proof. apply modify_property_calm. intros k p. apply flag_bit_no_role. Qed.

Lemma record_authentication_calm mem o au : moves calm (record_authentication mem o au).
Proof.
  unfold record_authentication. apply moves_bind; [apply _|apply reads_calm, the_account_reads|]. intros a. repeat moves_step.
Qed.

Lemma reward_authentication_calm o au : moves calm (reward_authentication o au).
Proof.
  unfold reward_authentication.
  assert (∀ u info a d, moves calm (on_base (on_books (adjust_balance u info a d)))) as Hadj by (intros; apply on_base_calm, adjust_balance_alike).
  repeat first [moves_step | apply Hadj | apply reads_calm; solve [eauto with zos]].
Qed.

Lemma apply_data_calm mem o : moves calm (apply_data mem o).
Proof. unfold apply_data. repeat first [moves_step | by apply modify_st_calm]. Qed.
#[local] Hint Resolve configure_gateway_calm configure_carrier_calm support_operations_calm set_flags_calm record_authentication_calm reward_authentication_calm apply_data_calm : zos.

Lemma authenticate_calm mem o : moves calm (authenticate mem o).
Proof.
  unfold authenticate. apply moves_bind; [apply _|apply moves_lift; apply _|intros _].
  apply moves_bind; [apply _|apply reads_calm, authenticate_evaluate_reads|intros _].
  unfold authenticate_apply. repeat first [by apply modify_st_calm | moves_step].
Qed.

(** ** The records of authentication *)

(** The fields of an operation are in their types. *)
Record typed (o : account_authenticate_operation) : Prop := mk_typed {
  ty_flags f : o_flags o = Some f → uint 32 f;
  ty_need n : o_need_auth o = Some n → uint 32 n;
  ty_author a : o_auth_account o = Some a → uint 32 (au_state a) ∧ uint 32 (au_expiration a) ∧ uint 64 (au_hash64 a)
}.

Definition ten_years : Z := 365 * 24 * 3600 * 10.

Record item_ok (now : Z) (i : account_auth_item) : Prop := mk_item_ok {
  it_state : 0 < Z.ldiff (item_state i) author_mask < 2 ^ 16;
  it_expiration : 0 ≤ item_expiration i < ten_years;
  it_time : 0 ≤ item_time i ≤ now
}.

Record records_ok (s : state) : Prop := mk_records_ok {
  ro_item x d y i : auth_data s !! x = Some d → auth_state d !! y = Some i → item_ok (head_time s) i;
  ro_pays n a r : author_pays s !! n = Some (a, r) → uint 32 a ∧ uint 32 r;
  ro_type i m t l c : members (base s) !! (author, i) = Some m → info m = author_details t l c → Z.ldiff t author_mask = 0
}.

(** Nothing but other parts of the state has changed. *)
Definition records_same (s s' : state) : Prop := auth_data s' = auth_data s ∧ author_pays s' = author_pays s.
#[export] Instance records_same_preorder : PreOrder records_same.
Proof. split; [by intros s|]. intros s1 s2 s3 [E1 E2] [E3 E4]. split; congruence. Qed.

Lemma on_base_records {A} (m : M Identities.state A) : moves records_same (on_base m).
Proof. by intros s a s' (b & _ & ->)%zoom_Ok. Qed.
Lemma reads_records {A} (m : M state A) : moves eq m → moves records_same m.
Proof. intros Hm s a s' <-%Hm. reflexivity. Qed.

Lemma records_kept s s' : records_ok s → calm s s' →
  (∀ x d y i, auth_data s' !! x = Some d → auth_state d !! y = Some i → item_ok (head_time s') i) →
  (∀ n a r, author_pays s' !! n = Some (a, r) → uint 32 a ∧ uint 32 r) → records_ok s'.
Proof.
  intros Hok Hc Hi Hp. split; [done..|]. intros i m t l c. rewrite (al_authors _ _ Hc). apply (ro_type s Hok).
Qed.

Lemma records_same_ok s s' : records_ok s → calm s s' → records_same s s' → records_ok s'.
Proof.
  intros Hok Hc [Ed Ep]. apply (records_kept s); [done..| |by rewrite Ep; apply Hok]. intros x d y i. rewrite Ed. unfold head_time.
  rewrite (al_time _ _ Hc). apply (ro_item s Hok).
Qed.

Lemma testbit_above x k n : 0 ≤ x < 2 ^ k → 0 ≤ k ≤ n → Z.testbit x n = false.
Proof.
  intros Hx Hk. rewrite Z.testbit_eqb by lia. rewrite Z.div_small; [done|]. split; [lia|].
  apply Z.lt_le_trans with (2 ^ k); [lia|apply Z.pow_le_mono_r; lia].
Qed.
(** A mask of the bits from 16 on: only they are in it. *)
Lemma mask_bit (mask : Z) (b : bool) n : forallb (λ j, Bool.eqb (Z.testbit mask j) b) (seqZ 0 16) = true → 0 ≤ n < 16 → Z.testbit mask n = b.
Proof.
  intros Hall Hn. rewrite forallb_forall in Hall. apply Bool.eqb_prop, Hall. apply list_elem_of_In, elem_of_seqZ. lia.
Qed.

Lemma ldiff_low x : 0 ≤ x < 2 ^ 16 → Z.ldiff x author_mask = x.
Proof.
  intros Hx. apply Z.bits_inj'. intros n Hn. rewrite Z.ldiff_spec. destruct (Z.testbit author_mask n) eqn:Hm; [|by rewrite andb_true_r].
  destruct (Z.lt_ge_cases n 16); [by rewrite (mask_bit _ false) in Hm by (done || lia)|].
  by rewrite andb_false_r, (testbit_above _ 16) by lia.
Qed.

Lemma ldiff_lor a b m : Z.ldiff (Z.lor a b) m = Z.lor (Z.ldiff a m) (Z.ldiff b m).
Proof. apply Z.bits_inj'. intros n _. rewrite !Z.ldiff_spec, !Z.lor_spec, !Z.ldiff_spec. by destruct (Z.testbit a n), (Z.testbit b n), (Z.testbit m n). Qed.

(** The roles of an account are within the mask. *)
Lemma role_bits_masked s acct a bits : records_ok s → role_bits s acct a = Ok bits → Z.ldiff bits author_mask = 0.
Proof.
  intros Hok Hrun. unfold role_bits in Hrun. apply bind_Ok in Hrun as (r & Hr & [= <-]).
  assert (Z.ldiff r author_mask = 0) as Hz.
  { destruct (has_flag author a); [|by injection Hr as <-]. destruct (by_account _ _ _) as [[i m]|] eqn:Hb; [|done].
    apply by_account_some in Hb as [Hm _]. destruct (info m) eqn:Hi; injection Hr as <-; try done.
    by rewrite ldiff_lor, (ro_type s Hok i m _ _ _ Hm Hi). }
  rewrite !ldiff_lor, Hz. by destruct (has_flag carrier a), (has_flag gateway a).
Qed.

(** What a statement of an author records. *)
Definition recorded (mem : memory) (o : account_authenticate_operation) (au : account_author) (bits : Z) (s : state) : state :=
  let data := default (new_auth_data mem) (auth_data s !! au_subject au) in
  let items := if au_state au =? 0 then delete (au_issuer o) (auth_state data)
    else <[au_issuer o := mk_item (Z.lor (au_state au) bits) (au_expiration au)
      (if au_hash64 au =? 0 then hash64 data else au_hash64 au) (head_time s)]> (auth_state data) in
  set_auth_data (<[au_subject au := mk_auth_data (filter (λ p, expired (head_time s) p.2 = false) items)
    (hash64 data) (auth_info data) (auth_memo_key data)]> (auth_data s)) s.

Lemma record_authentication_run mem o au s u s' : records_ok s → record_authentication mem o au s = Ok (u, s') →
  ∃ bits, Z.ldiff bits author_mask = 0 ∧ s' = recorded mem o au bits s.
Proof.
  intros Hok (a & s1 & [_ ->]%the_account_run & Hrun)%M_bind_Ok. apply M_bind_Ok in Hrun as (s0 & s1 & [= -> ->] & Hrun).
  apply M_bind_Ok in Hrun as (items & s2 & Hitems & [= _ <-]). unfold recorded. destruct (au_state au =? 0).
  - injection Hitems as <- <-. by exists 0.
  - apply M_bind_Ok in Hitems as (bits & s3 & [Hb ->]%lift_Ok & [= <- <-]). exists bits. split; [by eapply role_bits_masked|done].
Qed.

Lemma recorded_items mem o au bits s x d y i :
  records_ok s → 0 ≤ head_time s → Z.ldiff bits author_mask = 0 → uint 32 (au_expiration au) → au_expiration au < ten_years →
  0 ≤ au_state au < 2 ^ 16 →
  auth_data (recorded mem o au bits s) !! x = Some d → auth_state d !! y = Some i → item_ok (head_time s) i.
Proof.
  intros Hok Ht Hb He Hy Hs. unfold recorded. cbn [auth_data set_auth_data].
  assert (∀ j, auth_state (default (new_auth_data mem) (auth_data s !! au_subject au)) !! y = Some j → item_ok (head_time s) j) as Hold.
  { destruct (auth_data s !! au_subject au) as [d0|] eqn:Hd0; cbn; intros j; [by apply (ro_item s Hok (au_subject au) d0)|by rewrite lookup_empty]. }
  destruct (decide (x = au_subject au)) as [->|]; [rewrite lookup_insert_eq|by rewrite lookup_insert_ne; [apply Hok|]].
  intros [= <-]. cbn [auth_state]. intros [Hi _]%map_lookup_filter_Some. destruct (Z.eqb_spec (au_state au) 0) as [Hz|Hz].
  - apply lookup_delete_Some in Hi as [_ Hi]. by apply Hold.
  - destruct (decide (y = au_issuer o)) as [->|]; [|by rewrite lookup_insert_ne in Hi; [apply Hold|]].
    rewrite lookup_insert_eq in Hi. injection Hi as <-. split; cbn; [|unfold uint in He; lia|lia].
    rewrite ldiff_lor, Hb, Z.lor_0_r, ldiff_low by done. lia.
Qed.

(** The steps other than the statements of authors. *)
Lemma modify_st_records f : (∀ s, auth_data (f s) = auth_data s ∧ author_pays (f s) = author_pays s) → moves records_same (modify_st f).
Proof. intros Hf s a s' [= _ <-]. exact (Hf s). Qed.

Lemma reward_records o au : moves records_same (reward_authentication o au).
Proof.
  unfold reward_authentication.
  repeat first [apply on_base_records | apply reads_records; solve [eauto with zos] | moves_step].
Qed.
Lemma configure_gateway_records o : moves records_same (configure_gateway o).
Proof.
  unfold configure_gateway.
  repeat first [apply on_base_records | apply reads_records; solve [eauto using new_default_reads with zos] | moves_step].
Qed.
Lemma configure_carrier_records o : moves records_same (configure_carrier o).
Proof.
  unfold configure_carrier.
  repeat first [apply on_base_records | by apply modify_st_records | apply reads_records; solve [eauto using new_default_reads with zos] | moves_step].
Qed.
Lemma support_operations_records o : moves records_same (support_operations o).
Proof. unfold support_operations. repeat first [apply on_base_records | apply reads_records; solve [eauto with zos] | moves_step]. Qed.
Lemma modify_property_records acct f : moves records_same (modify_property acct f).
Proof. unfold modify_property. repeat first [apply on_base_records | apply reads_records; solve [eauto with zos] | moves_step]. Qed.
Lemma lock_account_records acct b : moves records_same (lock_account acct b).
Proof. unfold lock_account. repeat first [apply on_base_records | apply modify_property_records | moves_step]. Qed.

(** Users change their data, not what authors stated about them. *)
Lemma apply_data_records mem o s u s' : apply_data mem o s = Ok (u, s') → base s' = base s ∧ author_pays s' = author_pays s ∧
  ∀ x d y i, auth_data s' !! x = Some d → auth_state d !! y = Some i → ∃ d0, auth_data s !! x = Some d0 ∧ auth_state d0 !! y = Some i.
Proof.
  intros (s0 & s2 & [= <- <-] & Hrun)%M_bind_Ok. apply M_bind_Ok in Hrun as (d & s3 & [_ ->]%lift_Ok & Hrun).
  apply M_bind_Ok in Hrun as (v & s1 & Hkey & Hrun).
  assert (base s1 = base s ∧ author_pays s1 = author_pays s ∧ auth_data s1 = auth_data s) as (Eb & Ep & Ed).
  { destruct (o_auth_key o); by injection Hkey as _ <-. }
  destruct (match new_key d with Some _ => _ | None => _ end) as [hash key]. injection Hrun as _ <-. cbn. split_and!; [done..|].
  intros x dx y i. destruct (decide (x = au_issuer o)) as [->|Hx]; [rewrite lookup_insert_eq|rewrite lookup_insert_ne, Ed by done; by eauto].
  intros [= <-]. cbn. destruct (auth_data s !! au_issuer o) as [d0|]; cbn; [by eauto|by rewrite lookup_empty].
Qed.

Lemma validated_author o au : authenticate_validate o = Ok () → op_type o = 6 → o_auth_account o = Some au → typed o →
  uint 32 (au_expiration au) ∧ au_expiration au < ten_years ∧ 0 ≤ au_state au < 2 ^ 16.
Proof.
  intros Hv H6 Ha Hty. destruct (ty_author o Hty au Ha) as (Hs & He & _). unfold authenticate_validate in Hv. rewrite H6, Ha in Hv. cbn in Hv.
  apply bind_Ok in Hv as ([] & _ & Hv). apply bind_Ok in Hv as ([] & _ & Hv).
  apply bind_Ok in Hv as ([] & Hy & Hv). apply FC_ASSERT_Ok in Hy. apply FC_ASSERT_Ok in Hv.
  split_and!; [done|by apply Z.ltb_lt|apply Hs|]. unfold any in Hv. apply negb_true_iff, negb_false_iff, Z.eqb_eq in Hv.
  unfold uint in Hs. destruct (Z.lt_ge_cases (au_state au) (2 ^ 16)) as [|Hge]; [done|exfalso].
  assert (Z.shiftr (au_state au) 16 = 0) as Hz.
  { apply Z.bits_inj'. intros n Hn. rewrite Z.shiftr_spec, Z.bits_0 by done. destruct (Z.lt_ge_cases n 16) as [Hlt|Hge'].
    - pose proof (f_equal (λ z, Z.testbit (Z.shiftr z 16) n) Hv) as Hbit. cbn beta in Hbit.
      rewrite Z.shiftr_land, Z.land_spec, (mask_bit (Z.shiftr 4294901760 16) true), andb_true_r in Hbit by (done || lia).
      by rewrite Z.shiftr_0_l, Z.bits_0, Z.shiftr_spec in Hbit by done.
    - apply (testbit_above _ 32); [unfold uint in Hs|]; lia. }
  rewrite Z.shiftr_div_pow2 in Hz by lia. apply Z.div_small_iff in Hz; lia.
Qed.

Lemma authenticate_run mem o s u s' : authenticate mem o s = Ok (u, s') →
  authenticate_validate o = Ok () ∧ authenticate_evaluate o s = Ok ((), s) ∧ authenticate_apply mem o s = Ok (u, s').
Proof.
  intros ([] & s1 & [Hv ->]%lift_Ok & Hrun)%M_bind_Ok. apply M_bind_Ok in Hrun as ([] & s1 & He & Hrun).
  pose proof (authenticate_evaluate_reads o _ _ _ He) as <-. done.
Qed.

Lemma deref_Ok {A} (x : option A) a : deref x = Ok a ↔ x = Some a.
Proof. unfold deref. destruct x; naive_solver. Qed.

(** Whatever authors and users do, the records stay in order. *)
Lemma authenticate_records mem o s u s' : records_ok s → typed o → 0 ≤ head_time s →
  authenticate mem o s = Ok (u, s') → records_ok s'.
Proof.
  intros Hok Hty Ht Hrun. pose proof (authenticate_calm _ _ _ _ _ Hrun) as Hc. apply authenticate_run in Hrun as (Hv & _ & Hrun).
  unfold authenticate_apply in Hrun.
  destruct (Z.eqb_spec (op_type o) 6) as [H6|_].
  { apply M_bind_Ok in Hrun as (au & s1 & [Hau%deref_Ok ->]%lift_Ok & Hrun).
    apply M_bind_Ok in Hrun as (v & s1 & (bits & Hb & ->)%record_authentication_run & Hrun); [|done].
    destruct (validated_author o au Hv H6 Hau Hty) as (He & Hy & Hs). destruct (reward_records _ _ _ _ _ Hrun) as [Ed Ep].
    apply (records_kept s); [done..| |by rewrite Ep; apply Hok]. intros x d y i. rewrite Ed. unfold head_time. rewrite (al_time _ _ Hc).
    by apply recorded_items. }
  destruct (op_type o =? 7); [by apply (records_same_ok s); [..|eapply configure_gateway_records]|].
  destruct (op_type o =? 8); [by apply (records_same_ok s); [..|eapply configure_carrier_records]|].
  destruct (op_type o =? 9).
  { apply M_bind_Ok in Hrun as (d & s1 & [_ ->]%lift_Ok & Hrun). apply M_bind_Ok in Hrun as (i & s1 & [_ ->]%lift_Ok & Hrun).
    injection Hrun as _ <-. by apply (records_same_ok s). }
  destruct (op_type o =? 10); [by apply (records_same_ok s); [..|eapply support_operations_records]|].
  destruct (op_type o =? 11).
  { apply M_bind_Ok in Hrun as (p & s1 & [_ ->]%role_of_run & Hrun). apply M_bind_Ok in Hrun as (f & s1 & [Hf%deref_Ok ->]%lift_Ok & Hrun).
    apply M_bind_Ok in Hrun as (n & s1 & [Hn%deref_Ok ->]%lift_Ok & Hrun). injection Hrun as _ <-.
    apply (records_kept s); [done..|apply Hok|]. intros j a r. cbn. destruct (decide (j = p.1)) as [->|Hj].
    - rewrite lookup_insert_eq. intros [= <- <-]. split; [by apply (ty_flags o Hty)|by apply (ty_need o Hty)].
    - rewrite lookup_insert_ne by done. apply Hok. }
  destruct (op_type o =? 1).
  { apply M_bind_Ok in Hrun as (f & s1 & [_ ->]%lift_Ok & Hrun). by apply (records_same_ok s); [..|eapply modify_property_records]. }
  destruct (op_type o =? 3).
  { apply M_bind_Ok in Hrun as (b & s1 & [_ ->]%lift_Ok & Hrun). by apply (records_same_ok s); [..|eapply lock_account_records]. }
  destruct (op_type o =? 4).
  { apply M_bind_Ok in Hrun as (k & s1 & [_ ->]%lift_Ok & Hrun). injection Hrun as _ <-. by apply (records_same_ok s). }
  destruct (op_type o =? 5).
  { apply apply_data_records in Hrun as (_ & Ep & Hd). apply (records_kept s); [done..| |by rewrite Ep; apply Hok].
    intros x d y i Hx Hi. destruct (Hd x d y i Hx Hi) as (d0 & Hd0 & Hi0). unfold head_time. rewrite (al_time _ _ Hc). by apply (ro_item s Hok x d0 y). }
  injection Hrun as _ <-. done.
Qed.

(** ** Money *)

(** The ledger stays well formed and nothing is made or lost. *)
Definition thrifty (l l' : ledger) : Prop :=
  ledger_ok l → ledger_ok l' ∧ ∀ i, wealth i l' = wealth i l ∧ supply i l' = supply i l.
#[export] Instance thrifty_preorder : PreOrder thrifty.
Proof.
  split; [by intros l Hl|]. intros l1 l2 l3 H12 H23 Hl. destruct (H12 Hl) as [Hl2 E2]. destruct (H23 Hl2) as [Hl3 E3]. split; [done|].
  intros i. destruct (E2 i), (E3 i). split; congruence.
Qed.

Definition ledger_of (s : state) : ledger := books (base s).
Definition saves (s s' : state) : Prop := thrifty (ledger_of s) (ledger_of s').
#[export] Instance saves_preorder : PreOrder saves.
Proof. split; [intros s; apply thrifty_preorder|intros s1 s2 s3; apply thrifty_preorder]. Qed.

Lemma same_ledger_saves s s' : ledger_of s' = ledger_of s → saves s s'.
Proof. unfold saves. intros ->. reflexivity. Qed.
Lemma reads_saves {A} (m : M state A) : moves eq m → moves saves m.
Proof. intros Hm s a s' <-%Hm. reflexivity. Qed.
Lemma modify_st_saves f : (∀ s, base (f s) = base s) → moves saves (modify_st f).
Proof. intros Hf s a s' [= _ <-]. apply same_ledger_saves. unfold ledger_of. by rewrite Hf. Qed.
Lemma modify_member_saves k i f : moves saves (on_base (modify_member k i f)).
Proof. intros s u s' (b & (m & _ & ->)%modify_member_run & ->)%zoom_Ok. by apply same_ledger_saves. Qed.

Lemma modify_property_saves acct f : moves saves (modify_property acct f).
Proof. intros s u s' (a & Ha & ->)%modify_property_run Hl. split; [by apply ledger_ok_accounts|]. intros i. done. Qed.
Lemma on_registry_saves {A} (m : M AssetRegistry.database A) : moves saves (on_base (on_registry m)).
Proof. intros s u s' (b & (d & _ & ->)%zoom_Ok & ->)%zoom_Ok. by apply same_ledger_saves. Qed.
Lemma record_saves mem o au : moves saves (record_authentication mem o au).
Proof.
  unfold record_authentication. repeat first [by apply modify_st_saves | apply reads_saves; solve [eauto with zos] | moves_step].
Qed.

Lemma adjust_saves u info acct d s v s' : on_base (on_books (adjust_balance u info acct d)) s = Ok (v, s') → ledger_ok (ledger_of s) → int64 (amount d) →
  ledger_ok (ledger_of s') ∧ ∀ i, wealth i (ledger_of s') = wealth i (ledger_of s) + only i d ∧ supply i (ledger_of s') = supply i (ledger_of s).
Proof.
  intros (b & (l & Hl & ->)%zoom_Ok & ->)%zoom_Ok Hok Hd. cbn. split; [by eapply adjust_balance_Ok|]. intros i. by eapply adjust_balance_wealth.
Qed.

Lemma asset_neg_Ok a c : int64 (amount a) → asset_neg a = Ok c → c = mk_asset (- amount a) (asset_id a) ∧ int64 (- amount a).
Proof. intros Ha (n & Hn & [= <-])%bind_Ok. by apply safe_neg_Ok in Hn as [-> ?]. Qed.

(** What an author pays is what the account and its referrer get. *)
Lemma reward_saves o au s u s' : records_ok s → reward_authentication o au s = Ok (u, s') → saves s s'.
Proof.
  intros Hok Hrun Hl. apply M_bind_Ok in Hrun as (acnt & s1 & [_ ->]%the_account_run & Hrun).
  apply M_bind_Ok in Hrun as (au_obj & s1 & [_ ->]%role_of_run & Hrun). apply M_bind_Ok in Hrun as (s0 & s1 & [= <- <-] & Hrun).
  destruct (default (0, 0) (author_pays s !! au_obj.1)) as [fa fr] eqn:Hpay.
  assert (uint 32 fa ∧ uint 32 fr) as [Ha Hr].
  { destruct (author_pays s !! au_obj.1) as [[a r]|] eqn:Hp; cbn in Hpay; injection Hpay as <- <-; [by apply (ro_pays s Hok _ _ _ Hp)|by split]. }
  assert (int64 fa ∧ int64 fr) as [Ia Ir] by (unfold uint in *; int_lia).
  apply M_bind_Ok in Hrun as (total & s1 & [Htot ->]%lift_Ok & Hrun). apply safe_add_Ok in Htot as [-> It]; [|done..].
  destruct (0 <? fa + fr); [|by injection Hrun as _ <-].
  apply M_bind_Ok in Hrun as (all & s1 & <-%balance_of_reads & Hrun). destruct (_ <=? _); [|by injection Hrun as _ <-].
  apply M_bind_Ok in Hrun as (n1 & s1 & <-%the_name_reads & Hrun). apply M_bind_Ok in Hrun as (n2 & s1 & <-%the_name_reads & Hrun).
  apply M_bind_Ok in Hrun as (debit & s1 & [Hneg ->]%lift_Ok & Hrun). apply asset_neg_Ok in Hneg as [-> In]; [|done].
  apply M_bind_Ok in Hrun as (v & s1 & Hpaid & Hrun). apply adjust_saves in Hpaid as [L1 W1]; [|done..].
  apply M_bind_Ok in Hrun as (w & s2 & Hto & Hrun).
  assert (ledger_ok (ledger_of s2) ∧ ∀ i, wealth i (ledger_of s2) = wealth i (ledger_of s1) + only i (mk_asset fa 0) ∧
    supply i (ledger_of s2) = supply i (ledger_of s1)) as [L2 W2].
  { destruct (Z.ltb_spec 0 fa); [by apply adjust_saves in Hto|injection Hto as _ <-]. split; [done|]. intros i. unfold only. cbn [asset_id amount].
    unfold uint in Ha. assert (fa = 0) as -> by lia. destruct (0 =? i); split; lia || done. }
  assert (ledger_ok (ledger_of s') ∧ ∀ i, wealth i (ledger_of s') = wealth i (ledger_of s2) + only i (mk_asset fr 0) ∧
    supply i (ledger_of s') = supply i (ledger_of s2)) as [L3 W3].
  { destruct (Z.ltb_spec 0 fr); [by apply adjust_saves in Hrun|injection Hrun as _ <-]. split; [done|]. intros i. unfold only. cbn [asset_id amount].
    unfold uint in Hr. assert (fr = 0) as -> by lia. destruct (0 =? i); split; lia || done. }
  split; [done|]. intros i. destruct (W1 i) as [A1 B1], (W2 i) as [A2 B2], (W3 i) as [A3 B3]. rewrite B3, B2, B1, A3, A2, A1.
  unfold only, GRAPHENE_CORE_ASSET. cbn [asset_id amount]. destruct (0 =? i); split; lia || done.
Qed.

(** The statement of an author, and what else account_authenticate does, moves money but makes none. *)
Lemma authenticate_saves mem o s u s' : records_ok s → typed o → 0 ≤ head_time s → authenticate mem o s = Ok (u, s') → saves s s'.
Proof.
  intros Hok Hty Ht (Hv & _ & Hrun)%authenticate_run. unfold authenticate_apply in Hrun.
  destruct (Z.eqb_spec (op_type o) 6) as [H6|_].
  { apply M_bind_Ok in Hrun as (au & s1 & [Hau%deref_Ok ->]%lift_Ok & Hrun). apply M_bind_Ok in Hrun as (v & s1 & Hrec & Hrun).
    etransitivity; [by eapply record_saves|]. eapply reward_saves; [|exact Hrun].
    pose proof (record_authentication_calm _ _ _ _ _ _ Hrec) as Hc. apply record_authentication_run in Hrec as (bits & Hb & ->); [|done].
    destruct (validated_author o au Hv H6 Hau Hty) as (He & Hy & Hs). apply (records_kept s); [done..| |apply Hok].
    intros x d y i. unfold head_time. rewrite (al_time _ _ Hc). by apply recorded_items. }
  revert s u s' Hrun Hok Ht. cut (∀ m : M state (), moves saves m → ∀ s u s', m s = Ok (u, s') → records_ok s → 0 ≤ head_time s → saves s s').
  { intros Hcut. apply Hcut. unfold configure_gateway, configure_carrier, support_operations, lock_account, set_flags, apply_data.
    repeat first [by apply modify_st_saves | apply modify_member_saves | apply on_registry_saves | apply modify_property_saves
      | apply reads_saves; solve [eauto using new_default_reads with zos] | moves_step]. }
  intros m Hm s u s' Hs _ _. by eapply Hm.
Qed.

(** ** Who may use a gateway *)

(** The author a gateway relies on for an asset. *)
Inductive trusts (s : state) (ca : member) (aid x : Z) : Prop :=
  | trusts_named : (settings ca).1.2 !! aid = Some x → trusts s ca aid x
  | trusts_default n m : (settings ca).1.2 !! aid = None → (settings ca).2 = Some n →
      members (base s) !! (author, n) = Some m → member_account m = x → trusts s ca aid x
  | trusts_itself : (settings ca).1.2 !! aid = None → (settings ca).2 = None → member_account ca = x → trusts s ca aid x.

(** An account may speak about an asset as its author, as a gateway that carries it or as a
    carrier of one of its products. *)
Inductive vouches (s : state) (x aid : Z) : Prop :=
  | vouches_author a i m type allow config : Balance.accounts (books (base s)) !! x = Some a → has_flag author a = true →
      by_account author x (base s) = Some (i, m) → info m = author_details type allow config → aid ∈ allow → vouches s x aid
  | vouches_gateway a g m carried : Balance.accounts (books (base s)) !! x = Some a → has_flag gateway a = true →
      by_account gateway x (base s) = Some (g, m) → gateways (registry (base s)) !! g = Some carried → aid ∈ carried → vouches s x aid
  | vouches_carrier a n opt products carriers : Balance.accounts (books (base s)) !! x = Some a → has_flag carrier a = true →
      lender_options (registry (base s)) !! n = Some opt → lender_asset opt = aid → option_carriers s !! n = Some products →
      carriers ∈ products → x ∈ carriers → vouches s x aid.

Lemma trusted_author_iff s ca aid x s' : trusted_author ca aid s = Ok (x, s') ↔ trusts s ca aid x ∧ s' = s.
Proof.
  unfold trusted_author. destruct (settings ca) as [[need trust] def] eqn:Hset. destruct (trust !! aid) as [y|] eqn:Hy.
  - split; [intros [= -> ->]; split; [|done]; apply trusts_named; by rewrite Hset|].
    intros [[Hx|? ? Hx|Hx] ->]; rewrite Hset in Hx; cbn in Hx; [|congruence..]. assert (x = y) as -> by congruence. done.
  - destruct def as [n|].
    + split.
      * intros (m & s1 & (b & [Hm ->]%get_member_run & ->)%zoom_Ok & [= <- <-])%M_bind_Ok.
        split; [by apply (trusts_default _ _ _ _ n m); rewrite ?Hset|by destruct s].
      * intros [[Hx|n' m Hx Hd Hm <-|Hx Hd]  ->]; rewrite Hset in Hx; cbn in Hx; [congruence| |by rewrite Hset in Hd].
        rewrite Hset in Hd. injection Hd as <-. unfold on_base, zoom, get_member, mbind, M_bind, get_st, lift. rewrite Hm. by destruct s.
    + split; [intros [= <- <-]; split; [|done]; by apply trusts_itself; rewrite ?Hset|].
      intros [[Hx|? ? Hx Hd|Hx Hd <-] ->]; rewrite Hset in Hx; cbn in Hx; [congruence|by rewrite Hset in Hd|done].
Qed.

Lemma is_auth_asset_iff s x a aid : Balance.accounts (books (base s)) !! x = Some a → is_auth_asset s x a aid = true ↔ vouches s x aid.
Proof.
  intros Ha. unfold is_auth_asset, get_auth_asset. rewrite bool_decide_eq_true, !elem_of_app.
  change (any 119 1) with true. change (any 119 2) with true. change (any 119 4) with true. cbn [andb]. split.
  - intros [Hin|[Hin|Hin]].
    + destruct (has_flag author a) eqn:Hf; [|by apply not_elem_of_nil in Hin].
      destruct (by_account author x (base s)) as [[i m]|] eqn:Hb; [|by apply not_elem_of_nil in Hin].
      destruct (info m) eqn:Hi; try (by apply not_elem_of_nil in Hin). by eapply vouches_author.
    + destruct (has_flag gateway a) eqn:Hf; [|by apply not_elem_of_nil in Hin].
      destruct (by_account gateway x (base s)) as [[g m]|] eqn:Hb; [|by apply not_elem_of_nil in Hin].
      apply ordered_elem in Hin. destruct (gateways (registry (base s)) !! g) as [l|] eqn:Hg; [|by apply not_elem_of_empty in Hin].
      by eapply vouches_gateway.
    + destruct (has_flag carrier a) eqn:Hf; [|by apply not_elem_of_nil in Hin].
      apply list_elem_of_bind in Hin as ([n opt] & Hin & Hn%elem_of_map_to_list).
      apply list_elem_of_omap in Hin as (cs & Hcs & Hif). case_bool_decide; [|done]. injection Hif as <-.
      destruct (option_carriers s !! n) as [l|] eqn:Hl; cbn in Hl, Hcs; rewrite Hl in Hcs; [|by apply not_elem_of_nil in Hcs]. by eapply vouches_carrier.
  - intros [a' i m type allow config Ha' Hf Hb Hi Hin|a' g m l Ha' Hf Hb Hg Hin|a' n opt l cs Ha' Hf Hn <- Hl Hcs Hx];
      assert (a' = a) as -> by congruence; rewrite Hf.
    + left. by rewrite Hb, Hi.
    + right; left. rewrite Hb, Hg. by apply ordered_elem.
    + right; right. apply list_elem_of_bind. exists (n, opt). split; [|by apply elem_of_map_to_list].
      apply list_elem_of_omap. exists cs. split; [cbn [fst]; by rewrite Hl|]. by case_bool_decide.
Qed.

(** What the answer of [get_can_author] stands for. *)
Definition authenticated (s : state) (ca : member) (acct aid : Z) : Prop := ∃ x d i,
  trusts s ca aid x ∧ vouches s x aid ∧ auth_data s !! acct = Some d ∧ auth_state d !! x = Some i ∧
  (any (settings ca).1.1 gateway_hash = true → item_hash64 i = hash64 d) ∧ head_time s ≤ item_time i + item_expiration i.

(** The gateway asks for authentication before the asset is moved. *)
Definition asks (ca : member) (a : asset_object) : bool :=
  any (settings ca).1.1 (if Transfers.is_cash_issued (transfer_view a) then gateway_cash else gateway_bit).

Definition in_time (s : state) : Prop := 0 ≤ head_time s ∧ head_time s + ten_years < 2 ^ 32.

Lemma item_expired now i : item_ok now i → now + ten_years < 2 ^ 32 → expired now i = (item_time i + item_expiration i <? now).
Proof.
  intros [_ He Ht] Hnow. unfold expired, time_plus, to_uint. rewrite Z.mod_small; [done|]. lia.
Qed.

Lemma item_positive now i : item_ok now i → to_sint 32 (Z.ldiff (item_state i) author_mask) = Z.ldiff (item_state i) author_mask.
Proof. intros [Hs _ _]. apply to_sint_id; lia. Qed.

Lemma answer_positive s d x need : records_ok s → in_time s → (∀ d', d = Some d' → ∃ acct, auth_data s !! acct = Some d') →
  0 < item_answer (head_time s) need d x ↔ ∃ d' i, d = Some d' ∧ auth_state d' !! x = Some i ∧
    (any need gateway_hash = true → item_hash64 i = hash64 d') ∧ head_time s ≤ item_time i + item_expiration i.
Proof.
  intros Hok [_ Hnow] Hd. unfold item_answer. destruct d as [d|]; [|split; [lia|by intros (? & ? & ? & _)]].
  destruct (Hd d eq_refl) as [acct Hacct]. destruct (auth_state d !! x) as [i|] eqn:Hi; [|split; [lia|naive_solver]].
  pose proof (ro_item s Hok acct d x i Hacct Hi) as Hit. rewrite (item_expired (head_time s) i), (item_positive (head_time s) i) by done.
  destruct (any need gateway_hash) eqn:Hh; destruct (Z.eqb_spec (item_hash64 i) (hash64 d)) as [He|He]; cbn [andb negb];
    try (split; [lia|intros (d' & i' & [= <-] & Hi' & Hhash & _); assert (i' = i) as -> by congruence; by rewrite Hhash in He]);
    (destruct (Z.ltb_spec (item_time i + item_expiration i) (head_time s));
      [split; [lia|intros (d' & i' & [= <-] & Hi' & _ & ?); assert (i' = i) as -> by congruence; lia]
      |split; [intros _; by exists d, i|intros _; apply (it_state _ _ Hit)]]).
Qed.

Lemma trusts_one s ca aid x y : trusts s ca aid x → trusts s ca aid y → y = x.
Proof.
  intros Hx Hy. assert (trusted_author ca aid s = Ok (x, s)) as Ex by by apply trusted_author_iff.
  assert (trusted_author ca aid s = Ok (y, s)) as Ey by by apply trusted_author_iff. congruence.
Qed.

Lemma answer_cases s need d acct x : records_ok s → auth_data s !! acct = d →
  let answer := item_answer (head_time s) need d x in
  answer = auth_nosetting ∨ answer = -1 ∨ answer = -2 ∨ answer = -3 ∨ answer = -4 ∨ answer = -5 ∨ 0 < answer < 2 ^ 16.
Proof.
  intros Hok Hd. unfold item_answer. destruct d as [d|]; [|tauto]. destruct (auth_state d !! x) as [i|] eqn:Hi; [|tauto].
  destruct (_ && _); [tauto|]. destruct (expired _ _); [tauto|]. do 6 right. pose proof (ro_item s Hok acct d x i Hd Hi) as Hit.
  rewrite (item_positive (head_time s)) by done. apply Hit.
Qed.

(** The two ways the check ends: not asked for, or by the records of a trusted author. *)
Lemma check_cases ca acct aid s a answer s' :
  assets (registry (base s)) !! aid = Some a → get_can_author ca acct aid s = Ok (answer, s') →
  s' = s ∧ (asks ca a = false ∧ answer = auth_nosetting ∨ asks ca a = true ∧ ∃ x, trusts s ca aid x ∧
    (¬ vouches s x aid ∧ answer = -5 ∨ vouches s x aid ∧ answer = item_answer (head_time s) (settings ca).1.1 (auth_data s !! acct) x)).
Proof.
  intros Ha Hrun. pose proof (get_can_author_reads _ _ _ _ _ _ Hrun) as <-. split; [done|].
  apply M_bind_Ok in Hrun as (a' & s1 & [Ha' ->]%the_asset_run & Hrun). assert (a' = a) as -> by congruence. cbv zeta in Hrun.
  fold (asks ca a) in Hrun. destruct (asks ca a) eqn:Hask; cbn [negb] in Hrun; [right; split; [done|]|by injection Hrun as <-; left].
  apply M_bind_Ok in Hrun as (x & s1 & [Hx ->]%trusted_author_iff & Hrun). apply M_bind_Ok in Hrun as (ax & s1 & [Hax ->]%the_account_run & Hrun).
  apply M_bind_Ok in Hrun as (s0 & s1 & [= <- <-] & Hrun). exists x. split; [done|]. pose proof (is_auth_asset_iff s x ax aid Hax) as Hiff.
  destruct (is_auth_asset s x ax aid); cbn [negb] in Hrun; injection Hrun as <-; [right; split; [by apply Hiff|done]|left; split; [|done]].
  intros Hv%Hiff. done.
Qed.

Lemma check_answer ca acct aid s a answer s' :
  records_ok s → in_time s → assets (registry (base s)) !! aid = Some a →
  get_can_author ca acct aid s = Ok (answer, s') → 0 < answer ↔ asks ca a = false ∨ authenticated s ca acct aid.
Proof.
  intros Hok Hin Ha Hrun. destruct (check_cases _ _ _ _ a _ _ Ha Hrun) as [_ [[Hask ->]|[Hask (x & Hx & Hcase)]]].
  { split; [by left|unfold auth_nosetting; lia]. }
  rewrite Hask. destruct Hcase as [[Hno ->]|[Hv ->]].
  - split; [lia|]. intros [?|(y & d & i & Hy & Hvy & _)]; [done|]. by rewrite (trusts_one _ _ _ _ _ Hx Hy) in Hvy.
  - rewrite answer_positive by (done || intros d' Hd'; by exists acct). split.
    + intros (d & i & Hd & Hi & Hh & Hl). right. by exists x, d, i.
    + intros [?|(y & d & i & Hy & _ & Hr)]; [done|]. rewrite (trusts_one _ _ _ _ _ Hx Hy) in Hr. by exists d, i.
Qed.

(** C29: an account passes the gateway's check for an asset exactly when the gateway does not ask,
    or when an author it relies on for the asset, and who may speak about it, has stated that
    it knows the account; the statement has not expired, and it is about the data the account
    has now if the gateway wants that. *)
Theorem check_passed_iff_known ca acct aid s a answer s' :
  records_ok s → in_time s → assets (registry (base s)) !! aid = Some a →
  get_can_author ca acct aid s = Ok (answer, s') →
  s' = s ∧ (0 < answer ↔ asks ca a = false ∨ authenticated s ca acct aid) ∧
  (answer = auth_nosetting ∨ answer = -1 ∨ answer = -2 ∨ answer = -3 ∨ answer = -4 ∨ answer = -5 ∨ 0 < answer < 2 ^ 16).
Proof.
  intros Hok Hin Ha Hrun. split_and!; [|by eapply check_answer|].
  - by apply (check_cases _ _ _ _ a) in Hrun as [-> _].
  - destruct (check_cases _ _ _ _ a _ _ Ha Hrun) as [_ [[_ ->]|[_ (x & _ & [[_ ->]|[_ ->]])]]]; [by left|tauto|by apply (answer_cases s _ _ acct)].
Qed.

(** ** How long a statement lasts *)

(** The state at a later time. *)
Definition ledger_at (t : Z) (l : ledger) : ledger :=
  mk_ledger (balances l) (vestings l) (next_vesting_id l) (Balance.dynamic_data l) (Balance.accounts l) (statistics l) (witnesses l)
    t (initial_time l) (coupon_supply l) (Balance.parameters l) (record_history l) (applied_balances l).
Definition at_time (t : Z) (s : state) : state := set_base (set_books (ledger_at t (books (base s))) (base s)) s.

Lemma trusts_at t s ca aid x : trusts s ca aid x → trusts (at_time t s) ca aid x.
Proof. intros [Hx|n m Hx Hd Hm Ha|Hx Hd Ha]; [by apply trusts_named|by apply (trusts_default _ _ _ _ n m)|by apply trusts_itself]. Qed.
Lemma vouches_at t s x aid : vouches s x aid → vouches (at_time t s) x aid.
Proof.
  intros [a i m type allow config|a g m l|a n opt l cs]; [by eapply vouches_author|by eapply vouches_gateway|by eapply vouches_carrier].
Qed.
Lemma at_time_eq t s : auth_data (at_time t s) = auth_data s ∧ registry (base (at_time t s)) = registry (base s) ∧ head_time (at_time t s) = t.
Proof. done. Qed.
Lemma vouches_account s x aid : vouches s x aid → ∃ a, Balance.accounts (books (base s)) !! x = Some a.
Proof. intros []; by eexists. Qed.

(** The check, computed. *)
Lemma get_can_author_eq ca acct aid s a x : assets (registry (base s)) !! aid = Some a → asks ca a = true →
  trusts s ca aid x → vouches s x aid →
  get_can_author ca acct aid s = Ok (item_answer (head_time s) (settings ca).1.1 (auth_data s !! acct) x, s).
Proof.
  intros Ha Hask Hx Hv. destruct (vouches_account _ _ _ Hv) as [ax Hax].
  assert (the_asset aid s = Ok (a, s)) as E1.
  { unfold the_asset, on_base, on_registry, zoom, get_asset, mbind, M_bind, get_st, found. rewrite Ha. by destruct s as [[] ]. }
  assert (the_account x s = Ok (ax, s)) as E2.
  { unfold the_account, on_base, Identities.get_account, on_books, zoom, get, mbind, M_bind, get_st, lift. rewrite Hax. by destruct s as [[] ]. }
  apply (is_auth_asset_iff s x ax) in Hv; [|done].
  unfold get_can_author, mbind, M_bind, get_st. rewrite E1. fold (asks ca a). rewrite Hask. cbn [negb].
  rewrite (proj2 (trusted_author_iff s ca aid x s)) by done. by rewrite E2, Hv.
Qed.

(** C33: the statement of an author opens the gateways that rely on it for as long as it says, to the
    second, and not longer.  The statement is recorded with a hash: the one it names, or, if it names
    0, the hash of the account's data at that time.  In every later state where the record still has
    it, whatever else has happened, a gateway that asks for the asset and relies on the author, who
    may speak about the asset there, gets the state that was stated until the statement expires and
    -4 afterwards, and a gateway that also asks for the hash gets -3 instead whenever the recorded
    hash is not that of the account's data by then (see [machines_disagree]). *)
Theorem statement_lasts mem o au s s' :
  records_ok s → typed o → in_time s → op_type o = 6 → o_auth_account o = Some au → au_state au ≠ 0 →
  authenticate mem o s = Ok ((), s') →
  let data := default (new_auth_data mem) (auth_data s !! au_subject au) in
  let stated := if au_hash64 au =? 0 then hash64 data else au_hash64 au in
  ∃ d1, auth_data s' !! au_subject au = Some d1 ∧ hash64 d1 = hash64 data ∧ is_Some (auth_state d1 !! au_issuer o) ∧
  ∀ s2 d2 ca aid a,
    auth_data s2 !! au_subject au = Some d2 → auth_state d2 !! au_issuer o = auth_state d1 !! au_issuer o →
    assets (registry (base s2)) !! aid = Some a → asks ca a = true → trusts s2 ca aid (au_issuer o) → vouches s2 (au_issuer o) aid →
    head_time s ≤ head_time s2 → uint 32 (head_time s2) →
    get_can_author ca (au_subject au) aid s2 =
      Ok (if any (settings ca).1.1 gateway_hash && negb (stated =? hash64 d2) then -3
          else if head_time s2 <=? head_time s + au_expiration au then au_state au else -4, s2).
Proof.
  intros Hok Hty [Ht0 Hnow] H6 Hau Hs Hrun data stated.
  apply authenticate_run in Hrun as (Hv & _ & Hrun). unfold authenticate_apply in Hrun. rewrite H6 in Hrun. cbn [Z.eqb Pos.eqb] in Hrun.
  apply M_bind_Ok in Hrun as (au' & s1 & [Hau'%deref_Ok ->]%lift_Ok & Hrun). assert (au' = au) as -> by congruence.
  apply M_bind_Ok in Hrun as (v & s1 & (bits & Hb & ->)%record_authentication_run & Hrun); [|done].
  destruct (reward_records _ _ _ _ _ Hrun) as [Ed _]. destruct (validated_author o au Hv H6 Hau Hty) as (He & Hy & Hst).
  set (i := mk_item (Z.lor (au_state au) bits) (au_expiration au) stated (head_time s)).
  assert (item_ok (head_time s) i) as Hi.
  { split; [|unfold uint in He; cbn; lia|cbn; lia]. cbn. rewrite ldiff_lor, Hb, Z.lor_0_r, ldiff_low by done. lia. }
  assert (∀ t, head_time s ≤ t → uint 32 t → expired t i = (head_time s + au_expiration au <? t)) as Hexp.
  { intros t' _ _. unfold expired, time_plus, to_uint. rewrite Z.mod_small; [done|]. cbn. unfold uint in He. lia. }
  rewrite Ed. unfold recorded. cbn [auth_data set_auth_data]. rewrite lookup_insert_eq, (proj2 (Z.eqb_neq _ _)) by done.
  eexists. split; [reflexivity|]. cbn [hash64 auth_state]. fold data stated i. split; [done|].
  rewrite (proj2 (map_lookup_filter_Some _ _ (au_issuer o) i)).
  2: { split; [apply lookup_insert_eq|]. cbn [snd]. rewrite Hexp by (unfold uint, ten_years in *; lia). apply Z.ltb_ge. unfold uint in He. lia. }
  split; [done|]. intros s2 d2 ca aid a Hd2 Hi2 Ha Hask Htr Hvo Ht Ht32.
  rewrite (get_can_author_eq ca _ aid _ a (au_issuer o)) by done. rewrite Hd2. unfold item_answer. rewrite Hi2.
  change (item_hash64 i) with stated. rewrite Hexp by done. rewrite (item_positive (head_time s)) by done.
  cbn [item_state i]. rewrite ldiff_lor, Hb, Z.lor_0_r, ldiff_low by done.
  by destruct (_ && _), (Z.ltb_spec (head_time s + au_expiration au) (head_time s2)), (Z.leb_spec (head_time s2) (head_time s + au_expiration au)); try lia.
Qed.

(** ** A town: a gateway, an author and a customer *)

Module AuthenticationExample.
Import RegistryExample.

(** Asset 1 is lent; account 5 will be its gateway, 7 an author for it, 9 a customer. *)
Definition coin : asset_object := mk_asset_object "COIN" 4 0 (some_options 79 2 (rate 1)) 1 (Some 0) ASSET_LOAN ∅ "COIN" "".
Definition town_registry : database :=
  mk_database (<[0 := core]> (<[1 := coin]> ∅)) 2 (<[0 := usd_data]> ∅) 1 (<[0 := mk_dynamic 5000 0 0]> (<[1 := mk_dynamic 0 0 0]> ∅)) 2
    (<[5 := some_account "bank" ∅]> (<[7 := some_account "notary" ∅]> (<[9 := some_account "customer" ∅]> ∅))) ∅ ∅ 1000
    (mk_registry_parameters 10 10 5).
Definition townsman : account_object := Balance.mk_account 7 7 7 2000 3000 5000 None 0.
Definition town_ledger : ledger :=
  mk_ledger (<[(7, 0) := 5000]> ∅) ∅ 0 (<[0 := mk_dyn 5000 0 0]> (<[1 := mk_dyn 0 0 0]> ∅))
    (<[5 := townsman]> (<[7 := townsman]> (<[9 := townsman]> ∅))) ∅ ∅ 1000 0 0 (mk_params 100 100 1000 5 50) false [].
Definition town_roles : Identities.state :=
  Identities.mk_state town_ledger town_registry {[5; 7]} (<[5 := mk_asset 0 0]> (<[7 := mk_asset 0 0]> ∅)) ∅ ∅ ∅ 0 0 12 ∅ (λ _, 1000) 7200.
Definition town : state := mk_state town_roles ∅ ∅ ∅ ∅ ∅ ∅ 0.

Definition plain : memory := mk_memory 0 (λ _, 77).
Definition after {A} (m : M state A) (s : state) : state := match m s with Ok (_, s') => s' | Throw _ => s end.
Definition as_role (op : identity_operation) : M state () := on_base (execute op).

Definition no_authenticate (issuer type : Z) : account_authenticate_operation :=
  mk_authenticate (mk_asset 1 0) issuer type None None None None None None None.
Definition open_bank : M state () :=
  as_role (op_gateway_create (mk_gateway_create (mk_asset 1 0) 5 14 "url" "memo" {[1]})).
Definition open_notary : M state () :=
  as_role (op_author_create (mk_author_create (mk_asset 1 0) 7 0 [1] "url" "memo" None)).
Definition trust_notary : account_authenticate_operation :=
  mk_authenticate (mk_asset 1 0) 5 7 None None None None None None (Some (<[1 := 7]> ∅)).
(** The notary states that it knows the customer, for 500 seconds. *)
Definition know (h : Z) : account_authenticate_operation :=
  mk_authenticate (mk_asset 1 0) 7 6 None None (Some (mk_account_author 3 500 9 h)) None None None None.

Definition trusted : state := after (open_bank ;; open_notary ;; authenticate plain trust_notary) town.
Definition known : state := after (authenticate plain (know 0)) trusted.
Definition listed_coin : asset_object := set_whitelist_gateways {[5]} coin.
Definition bank : member := match members (base known) !! (gateway, 0) with Some m => m | None => mk_member "" 0 0 "" "" null_asset identity_disable committee_details end.

Example answers : (λ t, fst <$> match get_can_deposit bank 9 1 (at_time t known) with Ok p => Some p | Throw _ => None end) <$> [1000; 1500; 1501]
  = [Some 3; Some 3; Some (-4)].
Proof. by vm_compute. Qed.
Example unknown_refused : fst <$> match get_can_deposit bank 9 1 trusted with Ok p => Some p | Throw _ => None end = Some (-1).
Proof. by vm_compute. Qed.

(** Whether records are in order can be computed. *)
Definition records_check (s : state) : bool :=
  bool_decide (map_Forall (λ _ d, map_Forall (λ _ i, (0 < Z.ldiff (item_state i) author_mask < 2 ^ 16) ∧ (0 ≤ item_expiration i < ten_years) ∧
    (0 ≤ item_time i ≤ head_time s)) (auth_state d)) (auth_data s)) &&
  bool_decide (map_Forall (λ _ p, (0 ≤ p.1 < 2 ^ 32) ∧ (0 ≤ p.2 < 2 ^ 32)) (author_pays s)) &&
  bool_decide (map_Forall (λ _ m, match info m with author_details t _ _ => Z.ldiff t author_mask | _ => 0 end = 0) (members (base s))).
Lemma records_checked s : records_check s = true → records_ok s.
Proof.
  unfold records_check. rewrite !andb_true_iff, !bool_decide_eq_true. intros [[Hi Hp] Ht]. split.
  - intros x d y i Hd Hx. destruct (Hi x d Hd y i Hx) as (? & ? & ?). by split.
  - intros n a r Hn. exact (Hp n _ Hn).
  - intros i m t l c Hm Hinfo. specialize (Ht _ m Hm). cbn beta in Ht. by rewrite Hinfo in Ht.
Qed.

Lemma known_in_time : in_time known.
Proof. by vm_compute. Qed.
Lemma trusted_in_time : in_time trusted.
Proof. by vm_compute. Qed.

Lemma check_passed_iff_known_witness : 0 < 3 ↔ asks bank listed_coin = false ∨ authenticated known bank 9 1.
Proof.
  apply (check_passed_iff_known bank 9 1 known listed_coin 3 known); [apply records_checked; vm_compute; reflexivity|exact known_in_time|vm_compute; reflexivity|vm_compute; reflexivity].
Defined.

Lemma know_typed h : uint 64 h → typed (know h).
Proof. intros Hh. split; [done..|]. intros a [= <-]. cbn. split_and!; [int_lia|int_lia|done]. Qed.

Definition notary : account_object :=
  match Balance.accounts (books (base known)) !! 7 with Some a => a | None => townsman end.
Lemma notary_vouches : vouches known 7 1.
Proof. apply (is_auth_asset_iff known 7 notary 1); vm_compute; reflexivity. Qed.

(** At second 1500 the customer may deposit, at 1501 no more. *)
Lemma statement_lasts_witness : get_can_author bank 9 1 (at_time 1500 known) = Ok (3, at_time 1500 known) ∧
  get_can_author bank 9 1 (at_time 1501 known) = Ok (-4, at_time 1501 known).
Proof.
  assert (authenticate plain (know 0) trusted = Ok ((), known)) as Hrun by (vm_compute; reflexivity).
  assert (∀ t, head_time trusted ≤ t → uint 32 t → get_can_author bank 9 1 (at_time t known) = Ok (if t <=? 1500 then 3 else -4, at_time t known)) as Hall.
  { intros t Ht Hu. destruct (statement_lasts plain (know 0) (mk_account_author 3 500 9 0) trusted known) as (d1 & Hd1 & Hh & _ & Hall).
    - apply records_checked. vm_compute. reflexivity.
    - exact (know_typed 0 ltac:(int_lia)).
    - exact trusted_in_time.
    - reflexivity.
    - reflexivity.
    - discriminate.
    - exact Hrun.
    - assert (any (settings bank).1.1 gateway_hash = false) as Hno by (vm_compute; reflexivity).
      assert (head_time trusted = 1000) as H1000 by (vm_compute; reflexivity).
      specialize (Hall (at_time t known) d1 bank 1 listed_coin). destruct (at_time_eq t known) as (E1 & E2 & E3).
      rewrite Hno, H1000, E1, E2, E3 in Hall. cbn [andb au_subject au_expiration au_state] in Hall. apply Hall.
      + exact Hd1.
      + reflexivity.
      + vm_compute. reflexivity.
      + vm_compute. reflexivity.
      + apply trusts_named. vm_compute. reflexivity.
      + apply vouches_at. exact notary_vouches.
      + rewrite H1000 in Ht. exact Ht.
      + exact Hu. }
  split; apply Hall; [vm_compute; discriminate|int_lia|vm_compute; discriminate|int_lia].
Defined.

(** The hash of the bytes in memory differs from machine to machine, pointers included: what one
    machine accepts another refuses, though both executed the same operations. *)
Definition strict_trust : account_authenticate_operation :=
  mk_authenticate (mk_asset 1 0) 5 7 None None None None None (Some 46) (Some (<[1 := 7]> ∅)).
Definition my_data : account_authenticate_operation :=
  mk_authenticate (mk_asset 1 0) 9 5 None None None (Some (mk_account_auth None None (Some (mk_memo 1 2 0 [5])))) None None None.
Definition on_machine (mem : memory) : state :=
  after (open_bank ;; open_notary ;; authenticate mem strict_trust ;; authenticate mem my_data ;; authenticate mem (know 77)) town.
Definition strict_bank : member := match members (base (on_machine plain)) !! (gateway, 0) with Some m => m | None => bank end.
Theorem machines_disagree :
  fst <$> match get_can_deposit strict_bank 9 1 (on_machine plain) with Ok p => Some p | Throw _ => None end = Some 3 ∧
  fst <$> match get_can_deposit strict_bank 9 1 (on_machine (mk_memory 0 (λ _, 78))) with Ok p => Some p | Throw _ => None end = Some (-3).
Proof. split; by vm_compute. Qed.
End AuthenticationExample.
