(* ===== verification/Gateways.v ===== *)
(** * Money through gateways

    account_member_evaluator.cpp and protocol/account_member.cpp: the committee issues an asset
    to a gateway or takes it back, accounts withdraw to a gateway and gateways deposit to
    accounts.  The steps of the roles (Identities), of authentication (Authentication) and of
    gateways act on one state; the theorems are about all of them together. *)

From S2P Require Import Prelude ObjectId Safe Uint128 Asset Vesting Balance Authority Votes Names Transfers AssetRegistry Listings Identities Authentication.
From Stdlib Require Import ZArith.
From stdpp Require Import gmap strings.

Local Open Scope Z_scope.

Definition GRAPHENE_MAX_MEMO_DATA_LENGTH : Z := 280.
Definition GRAPHENE_MAX_SHARE_BUDGET : Z := 280000000000000.

(** ** The operations *)

Record gateway_issue_currency_operation := mk_gateway_issue {
  gi_fee : asset; gi_issuer : Z; account_to : Z; issue_currency : asset; revoke : bool; gi_memo : option memo_data }.
(** [gateway_withdraw_operation] and [gateway_deposit_operation]. *)
Record gateway_operation := mk_gateway_operation { go_fee : asset; go_from : Z; go_to : Z; go_amount : asset }.

Definition issue_validate (o : gateway_issue_currency_operation) : result () :=
  FC_ASSERT (0 <=? amount (gi_fee o)) ;;
  FC_ASSERT (0 <=? amount (issue_currency o)) ;;
  when_set (gi_memo o) (λ m, FC_ASSERT (memo_length m <? GRAPHENE_MAX_MEMO_DATA_LENGTH)).
Definition gateway_validate (o : gateway_operation) : result () :=
  FC_ASSERT (0 <=? amount (go_fee o)) ;; FC_ASSERT (0 <=? amount (go_amount o)) ;; FC_ASSERT (negb (go_from o =? go_to o)).

(** ** Parts of the state *)

Definition is_loan_issued (a : Transfers.asset_object) : bool :=
  any (Transfers.uasset_property a) (Z.lor ASSET_LOAN Transfers.ASSET_CASH) && Transfers.is_bitasset_issued a.
Definition is_lender_issued (i : Z) (a : Transfers.asset_object) : bool :=
  (Z.land (Transfers.uasset_property a) ASSET_LENDER =? ASSET_LENDER) && (Transfers.is_bitasset_issued a || (i =? 0)).

Definition the_dynamic (i : Z) : M state asset_dynamic_data := on_base (on_books (get Balance.dynamic_data i)).
Definition modify_supply (i : Z) (f : Z → result Z) : M state () :=
  on_base (on_books (
    ad ← get Balance.dynamic_data i;
    n ← lift (f (Balance.current_supply ad));
    modify_st (λ l, Balance.set_dynamic (<[i := mk_dyn n (Balance.accumulated_fees ad) (Balance.fee_pool ad)]> (Balance.dynamic_data l)) l))).

(** The object that an iterator of the index of gateways points to, and its dynamic data. *)
Definition gateway_at (acct : Z) : M state (Z * member) := role_of gateway acct.
Definition dynamic_id_of (m : member) : Z := match info m with gateway_details _ _ _ d => d | _ => 0 end.
Definition the_traffic (m : member) : M state gateway_dynamic :=
  s ← get_st; lift (match gateway_dynamics (base s) !! dynamic_id_of m with Some t => Ok t | None => Throw other_exception end).
Definition modify_traffic (m : member) (f : gateway_dynamic → result gateway_dynamic) : M state () :=
  t ← the_traffic m;
  t' ← lift (f t);
  on_base (modify_st (λ b, Identities.set_dynamics (<[dynamic_id_of m := t']> (gateway_dynamics b)) (next_gateway_dynamic b) (next_carrier_dynamic b) b)).

(** [data.x\[id\] += n] of a map whose missing entries are 0. *)
Definition bump (i n : Z) (m : gmap Z Z) : result (gmap Z Z) := v ← safe_add (default 0 (m !! i)) n; Ok (<[i := v]> m).
Definition drop_from (i n : Z) (m : gmap Z Z) : result (gmap Z Z) := v ← safe_sub (default 0 (m !! i)) n; Ok (<[i := v]> m).
Definition count (i : Z) (m : gmap Z Z) : gmap Z Z := <[i := to_uint 64 (default 0 (m !! i) + 1)]> m.

Definition with_issue (f : gmap Z Z → result (gmap Z Z)) (t : gateway_dynamic) : result gateway_dynamic :=
  m ← f (issue_amount t); Ok (mk_gateway_dynamic (deposit_amount t) (withdraw_amount t) (deposit_count t) (withdraw_count t) m).
Definition record_withdraw (d : asset) (t : gateway_dynamic) : result gateway_dynamic :=
  m ← bump (asset_id d) (amount d) (withdraw_amount t);
  Ok (mk_gateway_dynamic (deposit_amount t) m (deposit_count t) (count (asset_id d) (withdraw_count t)) (issue_amount t)).
Definition record_deposit (d : asset) (t : gateway_dynamic) : result gateway_dynamic :=
  m ← bump (asset_id d) (amount d) (deposit_amount t);
  Ok (mk_gateway_dynamic m (withdraw_amount t) (count (asset_id d) (deposit_count t)) (withdraw_count t) (issue_amount t)).

(** ** gateway_issue_currency_evaluator *)

Definition issue_evaluate (o : gateway_issue_currency_operation) : M state () :=
  let i := asset_id (issue_currency o) in let n := amount (issue_currency o) in
  a ← the_asset i;
  c ← the_account (account_to o);
  ad ← the_dynamic i;
  assert_st (negb (is_lock_balance c)) ;;
  lift (issue_validate o) ;;
  assert_st (Transfers.is_bitasset_issued (transfer_view a) || (i =? GRAPHENE_CORE_ASSET)) ;;
  assert_st (has_flag gateway c) ;;
  if revoke o then
    itr ← gateway_at (account_to o);
    t ← the_traffic itr.2;
    issued ← lift (deref (issue_amount t !! i));
    ubalance ← on_base (balance_of (account_to o) i);
    assert_st (n <=? amount ubalance) ;;
    assert_st (n <=? Balance.current_supply ad) ;;
    assert_st (n <=? issued)
  else
    s ← get_st;
    enabled ← lift (is_gateway_enable s (account_to o) c i);
    assert_st enabled ;;
    assert_st (Balance.current_supply ad <=? max_supply (common_options a)) ;;
    umax ← lift (safe_sub (max_supply (common_options a)) (Balance.current_supply ad));
    assert_st (n <=? umax) ;;
    if i =? GRAPHENE_CORE_ASSET then
      left ← lift (safe_sub GRAPHENE_MAX_SHARE_BUDGET (budget_supply s)); assert_st (n <=? left)
    else mret ().

Definition modify_budget (f : Z → result Z) : M state () :=
  s ← get_st; n ← lift (f (budget_supply s)); modify_st (set_budget_supply n).

Definition issue_apply (o : gateway_issue_currency_operation) : M state () :=
  let i := asset_id (issue_currency o) in let n := amount (issue_currency o) in
  if revoke o then
    debit ← lift (asset_neg (issue_currency o));
    on_base (on_books (adjust_balance 88 "" (account_to o) debit)) ;;
    modify_supply i (λ x, safe_sub x n) ;;
    itr ← gateway_at (account_to o);
    modify_traffic itr.2 (with_issue (drop_from i n)) ;;
    if i =? GRAPHENE_CORE_ASSET then modify_budget (λ x, safe_sub x n) else mret ()
  else
    on_base (on_books (adjust_balance 3 "" (account_to o) (issue_currency o))) ;;
    modify_supply i (λ x, safe_add x n) ;;
    itr ← gateway_at (account_to o);
    modify_traffic itr.2 (with_issue (bump i n)) ;;
    if i =? GRAPHENE_CORE_ASSET then modify_budget (λ x, safe_add x n) else mret ().

(** ** gateway_withdraw_evaluator and gateway_deposit_evaluator *)

Definition check_loan (i : Z) (a : asset_object) : M state () :=
  assert_st (is_loan_issued (transfer_view a) || is_lender_issued i (transfer_view a)).

Definition withdraw_evaluate (o : gateway_operation) : M state () :=
  let i := asset_id (go_amount o) in
  t ← the_account (go_to o);
  f ← the_account (go_from o);
  a ← the_asset i;
  assert_st (negb (is_lock_balance f)) ;;
  assert_st (negb (is_lock_balance t)) ;;
  gateway_at (go_to o) ;;
  lift (gateway_validate o) ;;
  check_loan i a ;;
  assert_st (has_flag gateway t) ;;
  ca ← role_of gateway (go_to o);
  answer ← get_can_withdraw ca.2 (go_from o) i;
  assert_st (negb (answer =? 0)) ;;
  s ← get_st;
  enabled ← lift (is_gateway_enable s (go_to o) t i);
  assert_st enabled ;;
  ubalance ← on_base (balance_of (go_from o) i);
  assert_st (amount (go_amount o) <=? amount ubalance).

Definition withdraw_apply (o : gateway_operation) : M state () :=
  itr ← gateway_at (go_to o);
  on_base (on_books (adjust_balance 4 "" (go_to o) (go_amount o))) ;;
  debit ← lift (asset_neg (go_amount o));
  on_base (on_books (adjust_balance 5 "" (go_from o) debit)) ;;
  modify_traffic itr.2 (record_withdraw (go_amount o)).

Definition deposit_evaluate (o : gateway_operation) : M state () :=
  let i := asset_id (go_amount o) in
  t ← the_account (go_to o);
  f ← the_account (go_from o);
  a ← the_asset i;
  assert_st (negb (is_lock_balance f)) ;;
  assert_st (negb (is_lock_balance t)) ;;
  gateway_at (go_from o) ;;
  lift (gateway_validate o) ;;
  check_loan i a ;;
  assert_st (has_flag gateway f) ;;
  s ← get_st;
  enabled ← lift (is_gateway_enable s (go_from o) f i);
  assert_st enabled ;;
  ca ← role_of gateway (go_from o);
  answer ← get_can_deposit ca.2 (go_to o) i;
  assert_st (0 <? answer) ;;
  ubalance ← on_base (balance_of (go_from o) i);
  assert_st (amount (go_amount o) <=? amount ubalance).

Definition deposit_apply (o : gateway_operation) : M state () :=
  itr ← gateway_at (go_from o);
  on_base (on_books (adjust_balance 6 "" (go_to o) (go_amount o))) ;;
  debit ← lift (asset_neg (go_amount o));
  on_base (on_books (adjust_balance 7 "" (go_from o) debit)) ;;
  modify_traffic itr.2 (record_deposit (go_amount o)).

(** ** Operations and blocks *)

Inductive gateway_action :=
  | gateway_issue (o : gateway_issue_currency_operation)
  | gateway_withdraw (o : gateway_operation)
  | gateway_deposit (o : gateway_operation).

Definition run_gateway (act : gateway_action) : M state () :=
  match act with
  | gateway_issue o => issue_evaluate o ;; issue_apply o
  | gateway_withdraw o => withdraw_evaluate o ;; withdraw_apply o
  | gateway_deposit o => deposit_evaluate o ;; deposit_apply o
  end.

(** * What the steps keep *)

(** ** The traffic of gateways and the types of authors, through the operations on roles *)

(** What gateways have been issued of an asset. *)
Definition issued_by (i g : Z) (t : gateway_dynamic) : Z := default 0 (issue_amount t !! i).
Definition issued (i : Z) (b : Identities.state) : Z := msum (issued_by i) (gateway_dynamics b).

Record traffic_ok (b : Identities.state) : Prop := mk_traffic_ok {
  tr_fresh g : is_Some (gateway_dynamics b !! g) → g < next_gateway_dynamic b;
  tr_typed g t i n : gateway_dynamics b !! g = Some t → issue_amount t !! i = Some n → int64 n
}.

Definition masked_details (d : details) : Prop := match d with author_details t _ _ => Z.ldiff t author_mask = 0 | _ => True end.
Definition masked (b : Identities.state) : Prop := ∀ i m, members b !! (author, i) = Some m → masked_details (info m).

Record sound (b b' : Identities.state) : Prop := mk_sound {
  so_time : head_block_time (books b') = head_block_time (books b);
  so_masked : masked b → masked b';
  so_traffic : traffic_ok b → traffic_ok b' ∧ ∀ i, issued i b' = issued i b
}.
#[export] Instance sound_preorder : PreOrder sound.
Proof.
  split; [by intros b; split|]. intros b1 b2 b3 [T1 M1 F1] [T2 M2 F2]. split; [congruence|auto|].
  intros H1. destruct (F1 H1) as [H2 E1]. destruct (F2 H2) as [H3 E2]. split; [done|]. intros i. by rewrite E2, E1.
Qed.

Lemma same_sound b b' : head_block_time (books b') = head_block_time (books b) → members b' = members b →
  gateway_dynamics b' = gateway_dynamics b → next_gateway_dynamic b' = next_gateway_dynamic b → sound b b'.
Proof.
  intros Et Em Ed En. split; [done|unfold masked; by rewrite Em|]. intros [Hf Ht].
  split; [split; rewrite Ed; [by rewrite En|exact Ht]|]. intros i. unfold issued. by rewrite Ed.
Qed.
Lemma members_sound b ms n : (masked b → masked (set_members ms n b)) → sound b (set_members ms n b).
Proof. intros Hm. split; [done|exact Hm|]. intros []. split; [by split|done]. Qed.

Lemma reads_sound {A} (m : M Identities.state A) : moves eq m → moves sound m.
Proof. intros Hm b a b' <-%Hm. reflexivity. Qed.
Lemma on_books_sound {A} (m : M ledger A) : same head_block_time m → moves sound (on_books m).
Proof. intros Hm b a b' (l & Hl%Hm & ->)%zoom_Ok. by apply same_sound. Qed.
Lemma on_registry_sound {A} (m : M AssetRegistry.database A) : moves sound (on_registry m).
Proof. intros b a b' (d & _ & ->)%zoom_Ok. by apply same_sound. Qed.

Lemma create_member_sound k m : masked_details (info m) → moves sound (create_member k m).
Proof.
  intros Hm b i b' Hrun. unfold create_member in Hrun. apply M_bind_Ok in Hrun as (b0 & b1 & [= <- <-] & Hrun).
  apply M_bind_Ok in Hrun as ([] & b2 & [_ ->]%assert_st_Ok & [= _ <-]). apply members_sound. intros Hold j x.
  cbn. intros [[[= _ _] <-]|[_ Hx]]%lookup_insert_Some; [done|by apply (Hold j)].
Qed.
Lemma modify_member_sound k i f : (∀ x, masked_details (info x) → masked_details (info (f x))) → moves sound (modify_member k i f).
Proof.
  intros Hf b u b' (m & Hm & ->)%modify_member_run. apply members_sound. intros Hold j x.
  cbn. intros [[[= -> ->] <-]|[_ Hx]]%lookup_insert_Some; [apply Hf; by apply (Hold j)|by apply (Hold j)].
Qed.
Lemma take_vote_id_sound k : moves sound (take_vote_id k).
Proof. intros b v b' Hrun. unfold take_vote_id in Hrun. inv_ok. case_match. inv_ok. by apply same_sound. Qed.
Lemma get_fee_reads k : moves eq (Identities.get_fee k).
Proof. by intros b a b' [_ ->]%get_fee_run. Qed.

#[local] Hint Resolve take_vote_id_sound : zos.

Lemma adjust_balance_sound u info a d : moves sound (on_books (adjust_balance u info a d)).
Proof. apply on_books_sound, adjust_balance_time. Qed.
Lemma take_flag_sound k acct : moves sound (take_flag k acct).
Proof. intros b u b' (a & _ & ->)%take_flag_run. by apply same_sound. Qed.
Lemma modify_st_sound f : (∀ b, sound b (f b)) → moves sound (modify_st f).
Proof. intros Hf b u b' [= _ <-]. apply Hf. Qed.

Ltac sound_step :=
  first [ apply adjust_balance_sound | apply take_flag_sound | apply on_registry_sound | apply take_vote_id_sound
        | apply create_member_sound; try done | let x := fresh "x" in let Hx := fresh "Hx" in apply modify_member_sound; intros x Hx; cbn in Hx |- *; try (destruct (info x); done)
        | apply modify_st_sound; intros ?; by apply same_sound
        | apply reads_sound; solve [eauto using Identities.get_account_reads, Identities.get_member_reads, get_fee_reads, name_of_reads with zos]
        | moves_step ].

Lemma take_role_sound k u acct l : moves sound (take_role k u acct l).
Proof. unfold take_role, lock_pledge. repeat sound_step. Qed.
Lemma create_checks_sound k acct fee pays : moves sound (create_checks k acct fee pays).
Proof. unfold create_checks, is_lifetime_member, balance_of, covers. repeat sound_step. Qed.
Lemma check_unlocked_sound acct : moves sound (check_unlocked acct).
Proof. unfold check_unlocked. repeat sound_step. Qed.
Lemma owned_by_sound k i acct : moves sound (owned_by k i acct).
Proof. unfold owned_by. repeat sound_step. Qed.
#[local] Hint Resolve take_role_sound create_checks_sound check_unlocked_sound owned_by_sound : zos.

(** A new gateway has no traffic. *)
Lemma new_traffic_sound b : sound b (Identities.set_dynamics (<[next_gateway_dynamic b := no_traffic]> (gateway_dynamics b))
  (next_gateway_dynamic b + 1) (next_carrier_dynamic b) b).
Proof.
  split; [done..|]. intros [Hf Ht]. assert (gateway_dynamics b !! next_gateway_dynamic b = None) as Hn.
  { apply eq_None_not_Some. intros Hs%Hf. lia. }
  split; [split|]; cbn.
  - intros g [t [[<- _]|[_ Hg]]%lookup_insert_Some]; [lia|]. enough (g < next_gateway_dynamic b) by lia. by apply Hf; exists t.
  - intros g t i n [[_ <-]|[_ Hg]]%lookup_insert_Some; [cbn; by rewrite lookup_empty|by apply (Ht g)].
  - intros i. unfold issued. cbn. rewrite msum_insert_fresh by done. unfold issued_by. cbn. rewrite lookup_empty. cbn. lia.
Qed.

Lemma masked_auth_type t : Z.ldiff (Z.land t author_mask) author_mask = 0.
Proof. apply Z.bits_inj'. intros n _. rewrite Z.ldiff_spec, Z.land_spec, Z.bits_0. by destruct (Z.testbit t n), (Z.testbit author_mask n). Qed.

Lemma set_texts_masked u m d x : (masked_details (info x) → masked_details (d (info x))) →
  masked_details (info x) → masked_details (info (set_texts u m d x)).
Proof. intros Hd. exact Hd. Qed.

(** A state that is read and changed at once. *)
Lemma moves_get_modify {S A} (R : S → S → Prop) `{!PreOrder R} (F : S → S → S) (K : S → M S A) :
  (∀ s, R s (F s s)) → (∀ s, moves R (K s)) → moves R (s ← get_st; modify_st (F s) ;; K s).
Proof. intros HF HK s a s' Hrun. etransitivity; [apply HF|]. exact (HK s _ _ _ Hrun). Qed.

Ltac get_modify_step := match goal with |- moves _ (get_st ≫= _) => apply moves_get_modify; [apply _|..] end.

Lemma creations_sound op : match op with
  | op_witness_create _ | op_committee_create _ | op_budget_create _ | op_gateway_create _ | op_carrier_create _ | op_author_create _ => moves sound (execute op)
  | _ => True end.
Proof.
  destruct op; cbn [execute]; try exact I.
  - unfold witness_create_evaluate, witness_create_apply. repeat sound_step.
  - unfold committee_create_evaluate, committee_create_apply. repeat sound_step.
  - unfold budget_create_evaluate, budget_create_apply. repeat sound_step.
  - unfold gateway_create_evaluate, gateway_create_apply, assets_exist.
    repeat first [ get_modify_step; [apply new_traffic_sound|intros ?] | sound_step ].
  - unfold carrier_create_evaluate, carrier_create_apply.
    repeat first [ get_modify_step; [intros ?; by apply same_sound|intros ?] | sound_step ].
  - unfold author_create_evaluate, author_create_apply. repeat sound_step.
    apply masked_auth_type.
Qed.

Lemma updates_sound op : match op with
  | op_witness_update _ | op_committee_update _ | op_budget_update _ | op_gateway_update _ | op_carrier_update _ | op_author_update _ => moves sound (execute op)
  | _ => True end.
Proof.
  destruct op; cbn [execute]; try exact I.
  - unfold witness_update_evaluate, witness_update_apply. repeat sound_step.
  - unfold committee_update_evaluate, committee_update_apply. repeat sound_step.
  - unfold budget_update_evaluate, budget_update_apply. repeat sound_step.
  - unfold gateway_update_evaluate, gateway_update_apply, assets_exist. repeat sound_step.
  - unfold carrier_update_evaluate, carrier_update_apply. repeat sound_step.
  - unfold author_update_evaluate, author_update_apply. repeat sound_step.
    destruct (info x); try done. destruct (au_auth_type o); [apply masked_auth_type|done].
Qed.

Lemma change_sound o : moves sound (execute (op_change_identity o)).
Proof.
  cbn [execute]. unfold change_identity_evaluate, change_identity_apply, identity_of, adjust_identify, lock_pledge, unlock_pledge,
    return_pledge, balance_of, covers. repeat sound_step.
Qed.

Lemma execute_sound op : moves sound (execute op).
Proof.
  pose proof (creations_sound op) as Hc. pose proof (updates_sound op) as Hu. destruct op; try exact Hc; try exact Hu. apply change_sound.
Qed.

(** ** The operations of gateways *)

Lemma the_dynamic_run i s ad s' : the_dynamic i s = Ok (ad, s') → Balance.dynamic_data (ledger_of s) !! i = Some ad ∧ s' = s.
Proof. intros (b & (l & [Ha ->]%get_Ok & ->)%zoom_Ok & ->)%zoom_Ok. split; [done|]. by destruct s as [[] ]. Qed.

Lemma the_traffic_run m s t s' : the_traffic m s = Ok (t, s') → gateway_dynamics (base s) !! dynamic_id_of m = Some t ∧ s' = s.
Proof. unfold the_traffic, mbind, M_bind, get_st, lift. destruct (_ !! _); [|done]. by intros [= -> ->]. Qed.
Lemma the_traffic_reads m : moves eq (the_traffic m).
Proof. by intros s t s' [_ ->]%the_traffic_run. Qed.
Lemma the_dynamic_reads i : moves eq (the_dynamic i).
Proof. by intros s t s' [_ ->]%the_dynamic_run. Qed.
Lemma gateway_at_reads x : moves eq (gateway_at x).
Proof. apply role_of_reads. Qed.
#[local] Hint Resolve the_traffic_reads the_dynamic_reads gateway_at_reads get_can_author_reads : zos.

Lemma issue_evaluate_reads o : moves eq (issue_evaluate o).
Proof. unfold issue_evaluate. repeat moves_step. Qed.
Lemma withdraw_evaluate_reads o : moves eq (withdraw_evaluate o).
Proof. unfold withdraw_evaluate, check_loan, get_can_withdraw. repeat moves_step. Qed.
Lemma deposit_evaluate_reads o : moves eq (deposit_evaluate o).
Proof. unfold deposit_evaluate, check_loan, get_can_deposit. repeat moves_step. Qed.

Definition with_ledger (l : ledger) (s : state) : state := set_base (set_books l (base s)) s.
Definition with_traffic (m : member) (t : gateway_dynamic) (s : state) : state :=
  set_base (Identities.set_dynamics (<[dynamic_id_of m := t]> (gateway_dynamics (base s))) (next_gateway_dynamic (base s))
    (next_carrier_dynamic (base s)) (base s)) s.

Lemma adjust_run u info acct d s v s' : on_base (on_books (adjust_balance u info acct d)) s = Ok (v, s') → ledger_ok (ledger_of s) →
  int64 (amount d) → ∃ l, s' = with_ledger l s ∧ ledger_ok l ∧ Balance.accounts l = Balance.accounts (ledger_of s) ∧
    head_block_time l = head_block_time (ledger_of s) ∧
    (∀ i, wealth i l = wealth i (ledger_of s) + only i d ∧ supply i l = supply i (ledger_of s)) ∧
    (∀ k, held k l = held k (ledger_of s) + (if decide (k = (acct, asset_id d)) then amount d else 0)).
Proof.
  intros (b & (l & Hl & ->)%zoom_Ok & ->)%zoom_Ok Hok Hd. exists l. split; [done|].
  pose proof (adjust_balance_Ok _ _ _ _ _ _ _ Hok Hd Hl) as [Hl' Hc]. split_and!; [done|by apply adjust_balance_accounts in Hl| | |].
  - by apply adjust_balance_time in Hl.
  - intros i. by eapply adjust_balance_wealth.
  - intros k. destruct Hc as [[-> Hz]|[h ->]]; [case_decide; unfold ledger_of; lia|]. unfold held, ledger_of. cbn.
    destruct (decide (k = (acct, asset_id d))) as [->|Hk]; [by rewrite lookup_insert_eq|rewrite lookup_insert_ne by done; lia].
Qed.

Lemma modify_supply_run j f d s u s' : ledger_ok (ledger_of s) → (∀ x n, int64 x → f x = Ok n → n = x + d ∧ int64 n) →
  modify_supply j f s = Ok (u, s') → ∃ l, s' = with_ledger l s ∧ ledger_ok l ∧ Balance.accounts l = Balance.accounts (ledger_of s) ∧
    head_block_time l = head_block_time (ledger_of s) ∧ balances l = balances (ledger_of s) ∧
    ∀ i, wealth i l = wealth i (ledger_of s) ∧ supply i l = supply i (ledger_of s) + (if j =? i then d else 0).
Proof.
  intros Hok Hf (b & (l & Hl & ->)%zoom_Ok & ->)%zoom_Ok. exists l. split; [done|].
  apply M_bind_Ok in Hl as (ad & l1 & [Had ->]%get_Ok & Hl). apply M_bind_Ok in Hl as (n & l2 & [Hn ->]%lift_Ok & [= _ <-]).
  fold (ledger_of s) in *. destruct (ok_dynamic _ Hok j ad Had) as [Is If]. apply Hf in Hn as [-> In]; [|done].
  split_and!; try done.
  - destruct Hok as [Hb Hv Hx Hdy Ht]. split; try done. intros i ad'. cbn. intros [[_ <-]|[_ Hi]]%lookup_insert_Some; [by split|by apply (Hdy i)].
  - intros i. split; [done|]. unfold supply. cbn. destruct (Z.eqb_spec j i) as [->|Hne]; [by rewrite lookup_insert_eq, Had|].
    rewrite lookup_insert_ne by done. lia.
Qed.

Lemma modify_traffic_run m f s u s' : modify_traffic m f s = Ok (u, s') →
  ∃ t t', gateway_dynamics (base s) !! dynamic_id_of m = Some t ∧ f t = Ok t' ∧ s' = with_traffic m t' s.
Proof.
  intros (t & s1 & [Ht ->]%the_traffic_run & Hrun)%M_bind_Ok. apply M_bind_Ok in Hrun as (t' & s1 & [Ht' ->]%lift_Ok & Hrun).
  injection Hrun as _ <-. by exists t, t'.
Qed.

Lemma with_traffic_issued m t t' s i : gateway_dynamics (base s) !! dynamic_id_of m = Some t →
  issued i (base (with_traffic m t' s)) = issued i (base s) - issued_by i 0 t + issued_by i 0 t'.
Proof. intros Ht. unfold issued. cbn. by rewrite (msum_insert _ _ _ t). Qed.

Lemma with_traffic_ok m t t' s : traffic_ok (base s) → gateway_dynamics (base s) !! dynamic_id_of m = Some t →
  (∀ i n, issue_amount t' !! i = Some n → int64 n) → traffic_ok (base (with_traffic m t' s)).
Proof.
  intros [Hf Ht] Hm Hty. split; cbn.
  - intros g [x [[<- _]|[_ Hg]]%lookup_insert_Some]; apply Hf; by eexists.
  - intros g x i n [[_ <-]|[_ Hg]]%lookup_insert_Some; [apply Hty|by apply (Ht g)].
Qed.

(** ** Sums that stay equal *)

Definition circulating (i : Z) (s : state) : Z := wealth i (ledger_of s) + (if i =? 0 then total_locked (locked (base s)) else 0).

(** [d] shares of asset [j] were issued, or taken back; all the books say so. *)
Record reissued (j d : Z) (s s' : state) : Prop := mk_reissued {
  re_circulating i : circulating i s' = circulating i s + (if j =? i then d else 0);
  re_supply i : supply i (ledger_of s') = supply i (ledger_of s) + (if j =? i then d else 0);
  re_issued i : issued i (base s') = issued i (base s) + (if j =? i then d else 0);
  re_budget : budget_supply s' = budget_supply s + (if j =? 0 then d else 0)
}.

(** A step issues shares of one asset at most. *)
Definition balanced (s s' : state) : Prop := ∃ j d, reissued j d s s'.

Record system_ok (s : state) : Prop := mk_system_ok {
  sy_identities : identities_ok (base s);
  sy_records : records_ok s;
  sy_traffic : traffic_ok (base s);
  sy_budget : int64 (budget_supply s)
}.

Lemma bump_Ok j n m m' : int64 n → (∀ x, m !! j = Some x → int64 x) → bump j n m = Ok m' →
  m' = <[j := default 0 (m !! j) + n]> m ∧ int64 (default 0 (m !! j) + n).
Proof.
  intros Hn Hm (v & Hv & [= <-])%bind_Ok. apply safe_add_Ok in Hv as [-> ?]; [done| |done].
  destruct (m !! j); [by apply Hm|apply int64_0].
Qed.
Lemma drop_Ok j n m m' : int64 n → (∀ x, m !! j = Some x → int64 x) → drop_from j n m = Ok m' →
  m' = <[j := default 0 (m !! j) + - n]> m ∧ int64 (default 0 (m !! j) + - n).
Proof.
  intros Hn Hm (v & Hv & [= <-])%bind_Ok. apply safe_sub_Ok in Hv as [-> ?]; [done| |done].
  destruct (m !! j); [by apply Hm|apply int64_0].
Qed.

Lemma traffic_same b b' : gateway_dynamics b' = gateway_dynamics b → next_gateway_dynamic b' = next_gateway_dynamic b → traffic_ok b → traffic_ok b'.
Proof. intros Ed En [Hf Ht]. split; rewrite Ed; [by rewrite En|exact Ht]. Qed.

(** Both ways to change what a gateway was issued. *)
Lemma issue_traffic_run m f j d s u s' : traffic_ok (base s) →
  (∀ x x', (∀ y, x !! j = Some y → int64 y) → f x = Ok x' → x' = <[j := default 0 (x !! j) + d]> x ∧ int64 (default 0 (x !! j) + d)) →
  modify_traffic m (with_issue f) s = Ok (u, s') →
  ∃ t, s' = with_traffic m t s ∧ traffic_ok (base s') ∧ ∀ i, issued i (base s') = issued i (base s) + (if j =? i then d else 0).
Proof.
  intros Hok Hf (t & t' & Ht & Hrun & ->)%modify_traffic_run. apply bind_Ok in Hrun as (x & Hx & [= <-]).
  apply Hf in Hx as [-> Hi]; [|intros y; by apply (tr_typed _ Hok _ _ _ _ Ht)]. eexists. split; [done|]. split.
  - eapply with_traffic_ok; [done..|]. cbn. intros i n [[_ <-]|[_ Hn]]%lookup_insert_Some; [done|by apply (tr_typed _ Hok _ _ _ _ Ht Hn)].
  - intros i. erewrite with_traffic_issued by done. unfold issued_by. cbn. destruct (Z.eqb_spec j i) as [->|Hne].
    + rewrite lookup_insert_eq. cbn. lia.
    + rewrite lookup_insert_ne by done. lia.
Qed.

Lemma modify_budget_run f s u s' : modify_budget f s = Ok (u, s') → ∃ n, f (budget_supply s) = Ok n ∧ s' = set_budget_supply n s.
Proof. intros (s0 & s1 & [= <- <-] & Hrun)%M_bind_Ok. apply M_bind_Ok in Hrun as (n & s2 & [Hn ->]%lift_Ok & [= _ <-]). by exists n. Qed.

Lemma with_ledger_calm l s : Balance.accounts l = Balance.accounts (ledger_of s) → head_block_time l = head_block_time (ledger_of s) →
  calm s (with_ledger l s).
Proof. intros Ha Ht. apply books_alike; [done|]. intros k x. by rewrite Ha. Qed.
Lemma with_traffic_calm m t s : calm s (with_traffic m t s).
Proof. split; try done. intros p. cbn. destruct (members (base s) !! p); constructor. apply same_holding_refl. Qed.

(** The four changes of an issue, in either direction. *)
Lemma reissue_run u acct a j d fs ft fb s v s' :
  system_ok s → asset_id a = j → amount a = d → int64 d →
  (∀ x n, int64 x → fs x = Ok n → n = x + d ∧ int64 n) →
  (∀ x x', (∀ y, x !! j = Some y → int64 y) → ft x = Ok x' → x' = <[j := default 0 (x !! j) + d]> x ∧ int64 (default 0 (x !! j) + d)) →
  (∀ x n, int64 x → fb x = Ok n → n = x + d ∧ int64 n) →
  (on_base (on_books (adjust_balance u "" acct a)) ;;
   modify_supply j fs ;;
   itr ← gateway_at acct;
   modify_traffic itr.2 (with_issue ft) ;;
   if j =? GRAPHENE_CORE_ASSET then modify_budget fb else mret ()) s = Ok (v, s') →
  reissued j d s s' ∧ ledger_ok (ledger_of s') ∧ traffic_ok (base s') ∧ int64 (budget_supply s') ∧ calm s s' ∧ records_same s s' ∧
  (∀ k, held k (ledger_of s') = held k (ledger_of s) + (if decide (k = (acct, j)) then d else 0)).
Proof.
  intros Hok Hj Ha Hd Hfs Hft Hfb Hrun. subst j. pose proof (id_ledger _ (sy_identities s Hok)) as Hl.
  apply M_bind_Ok in Hrun as (w & s1 & (l1 & -> & L1 & A1 & T1 & W1 & K1)%adjust_run & Hrun); [|done|by rewrite Ha].
  apply M_bind_Ok in Hrun as (w1 & s2 & Hs2 & Hrun). apply (modify_supply_run _ _ d) in Hs2 as (l2 & -> & L2 & A2 & T2 & B2 & W2); [|done..].
  apply M_bind_Ok in Hrun as ([g m] & s2 & [_ ->]%role_of_run & Hrun). apply M_bind_Ok in Hrun as (w2 & s3 & Hs3 & Hrun).
  apply (issue_traffic_run _ _ (asset_id a) d) in Hs3 as (t & -> & F3 & I3); [|by eapply traffic_same, (sy_traffic s Hok)|done].
  set (s3 := with_traffic _ _ _) in *.
  assert (∃ n, s' = set_budget_supply n s3 ∧ n = budget_supply s + (if asset_id a =? 0 then d else 0) ∧ int64 n) as (n & -> & -> & In).
  { unfold GRAPHENE_CORE_ASSET in Hrun. destruct (asset_id a =? 0).
    - apply modify_budget_run in Hrun as (n & Hn & ->). apply Hfb in Hn as [-> ?]; [by eexists|apply (sy_budget s Hok)].
    - injection Hrun as _ <-. exists (budget_supply s). split_and!; [by destruct s|lia|apply (sy_budget s Hok)]. }
  assert (ledger_of s3 = l2) as E3 by done. split_and!.
  - split; intros; cbn [budget_supply set_budget_supply]; try done.
    + destruct (W1 i) as [X1 Y1], (W2 i) as [X2 Y2]. unfold circulating. change (ledger_of (set_budget_supply _ s3)) with l2. rewrite X2.
      change (ledger_of (with_ledger l1 s)) with l1. rewrite X1. unfold only. rewrite Ha. cbn. destruct (asset_id a =? i); lia.
    + destruct (W1 i) as [X1 Y1], (W2 i) as [X2 Y2]. change (ledger_of (set_budget_supply _ s3)) with l2. rewrite Y2.
      change (ledger_of (with_ledger l1 s)) with l1. by rewrite Y1.
  - done.
  - done.
  - done.
  - transitivity (with_ledger l2 (with_ledger l1 s)); [|apply (with_traffic_calm m t)].
    transitivity (with_ledger l1 s); by apply with_ledger_calm.
  - done.
  - intros k. change (ledger_of (set_budget_supply _ s3)) with l2. specialize (K1 k). unfold held in *. rewrite B2. rewrite <- Ha. exact K1.
Qed.

(** What a step keeps, and how it moves balances. *)
Record moved (j d : Z) (paid : Z * Z → Z) (s s' : state) : Prop := mk_moved {
  mv_reissued : reissued j d s s';
  mv_ledger : ledger_ok (ledger_of s');
  mv_traffic : traffic_ok (base s');
  mv_budget : int64 (budget_supply s');
  mv_calm : calm s s';
  mv_records : records_same s s';
  mv_held k : held k (ledger_of s') = held k (ledger_of s) + paid k
}.

Lemma moved_ok j d paid s s' : system_ok s → moved j d paid s s' → system_ok s'.
Proof.
  intros [Hi Hr Ht Hb] [_ Ml Mt Mb Mc Mr _]. split; [by eapply alike_ok|by eapply records_same_ok|done|done].
Qed.

Definition issue_delta (o : gateway_issue_currency_operation) : Z :=
  if revoke o then - amount (issue_currency o) else amount (issue_currency o).

Lemma issue_moved o s s' : system_ok s → int64 (amount (issue_currency o)) → run_gateway (gateway_issue o) s = Ok ((), s') →
  moved (asset_id (issue_currency o)) (issue_delta o)
    (λ k, if decide (k = (account_to o, asset_id (issue_currency o))) then issue_delta o else 0) s s'.
Proof.
  intros Hok Hn Hrun. apply M_bind_Ok in Hrun as (v & s1 & <-%issue_evaluate_reads & Hrun). unfold issue_apply, issue_delta in *.
  destruct (revoke o).
  - apply M_bind_Ok in Hrun as (debit & s1 & [Hd ->]%lift_Ok & Hrun). apply asset_neg_Ok in Hd as [-> Hneg]; [|done].
    apply (reissue_run _ _ _ (asset_id (issue_currency o)) (- amount (issue_currency o))) in Hrun as (R & L & T & B & C & S & K); try done.
    + intros x n Hx Hsub. by apply safe_sub_Ok in Hsub.
    + intros x x' Hx Hsub. by apply drop_Ok in Hsub.
    + intros x n Hx Hsub. by apply safe_sub_Ok in Hsub.
  - apply (reissue_run _ _ _ (asset_id (issue_currency o)) (amount (issue_currency o))) in Hrun as (R & L & T & B & C & S & K); try done.
    + intros x n Hx Hadd. by apply safe_add_Ok in Hadd.
    + intros x x' Hx Hadd. by apply bump_Ok in Hadd.
    + intros x n Hx Hadd. by apply safe_add_Ok in Hadd.
Qed.

(** A payment between two accounts that is recorded in the traffic of a gateway. *)
Lemma carry_moved u1 u2 gate to from a rec s s' :
  system_ok s → int64 (amount a) → from ≠ to → (∀ t t', rec t = Ok t' → issue_amount t' = issue_amount t) →
  (itr ← gateway_at gate;
   on_base (on_books (adjust_balance u1 "" to a)) ;;
   debit ← lift (asset_neg a);
   on_base (on_books (adjust_balance u2 "" from debit)) ;;
   modify_traffic itr.2 rec) s = Ok ((), s') →
  moved 0 0 (λ k, (if decide (k = (to, asset_id a)) then amount a else 0) - (if decide (k = (from, asset_id a)) then amount a else 0)) s s'.
Proof.
  intros Hok Hn Hne Hrec Hrun. pose proof (id_ledger _ (sy_identities s Hok)) as Hl.
  apply M_bind_Ok in Hrun as ([g m] & s1 & [_ ->]%role_of_run & Hrun).
  apply M_bind_Ok in Hrun as (v & s1 & (l1 & -> & L1 & A1 & T1 & W1 & K1)%adjust_run & Hrun); [|done..].
  apply M_bind_Ok in Hrun as (debit & s1 & [Hd ->]%lift_Ok & Hrun). apply asset_neg_Ok in Hd as [-> Hneg]; [|done].
  apply M_bind_Ok in Hrun as (w & s2 & (l2 & -> & L2 & A2 & T2 & W2 & K2)%adjust_run & Hrun); [|done..].
  apply modify_traffic_run in Hrun as (t & t' & Ht & Hr%Hrec & ->).
  set (s2 := with_ledger l2 (with_ledger l1 s)) in *. change (ledger_of (with_ledger l1 s)) with l1 in *.
  assert (traffic_ok (base s2)) as F2 by (by eapply traffic_same, (sy_traffic s Hok)).
  split.
  - assert (∀ b : bool, (if b then 0 else 0) = 0) as Hzero by by intros [].
    split; intros; rewrite Hzero, ?Z.add_0_r; try done.
    + unfold circulating. change (ledger_of (with_traffic _ _ s2)) with l2. rewrite (proj1 (W2 i)), (proj1 (W1 i)). unfold only. cbn [amount asset_id].
      change (locked (base (with_traffic _ _ s2))) with (locked (base s)). destruct (asset_id a =? i); lia.
    + change (ledger_of (with_traffic _ _ s2)) with l2. rewrite (proj2 (W2 i)), (proj2 (W1 i)). done.
    + erewrite with_traffic_issued by done. unfold issued_by. rewrite Hr. change (issued i (base s2)) with (issued i (base s)). lia.
  - exact L2.
  - eapply with_traffic_ok; [done..|]. intros i n. rewrite Hr. by apply (tr_typed _ F2 _ _ _ _ Ht).
  - apply (sy_budget s Hok).
  - transitivity s2; [|apply with_traffic_calm]. transitivity (with_ledger l1 s); by apply with_ledger_calm.
  - done.
  - intros k. change (ledger_of (with_traffic _ _ s2)) with l2. rewrite K2, K1. cbn [amount asset_id].
    destruct (decide (k = (to, asset_id a))), (decide (k = (from, asset_id a))); lia.
Qed.

(** ** The system *)

(** The amounts of operations are in their types. *)
Definition action_typed (act : gateway_action) : Prop :=
  match act with
  | gateway_issue o => int64 (amount (issue_currency o))
  | gateway_withdraw o | gateway_deposit o => int64 (amount (go_amount o))
  end.

Inductive system_step (s s' : state) : Prop :=
  | step_role op : next_available_vote_id (base s) < 2 ^ 56 → on_base (execute op) s = Ok ((), s') → system_step s s'
  | step_authentication mem o : typed o → authenticate mem o s = Ok ((), s') → system_step s s'
  | step_gateway act : action_typed act → run_gateway act s = Ok ((), s') → system_step s s'
  | step_time t : head_time s ≤ t → uint 32 t → s' = at_time t s → system_step s s'.

Lemma new_books_ok l b : identities_ok b → ledger_ok l → Balance.accounts l = Balance.accounts (books b) → identities_ok (set_books l b).
Proof.
  intros Hok Hl Ha. split; try apply Hok; [done| |].
  - intros k i m Hm. destruct (id_member b Hok k i m Hm). split; cbn; rewrite ?Ha; done.
  - cbn. rewrite Ha. apply (id_flag b Hok).
Qed.

Lemma later_ledger_ok t l : ledger_ok l → head_block_time l ≤ t → uint 32 t → ledger_ok (ledger_at t l).
Proof.
  intros [Hb Hv Hx Hd Ht] Hle Hu. split; try done. intros i v Hi. eapply vesting_ok_later; [by apply (Hv i)|done..].
Qed.

Lemma time_ok t s : system_ok s → head_time s ≤ t → uint 32 t → system_ok (at_time t s).
Proof.
  intros [Hi [Hr Hp Hty] Ht Hb] Hle Hu. split; [| | |done].
  - apply new_books_ok; [done|by apply later_ledger_ok; [apply Hi|..]|done].
  - split; [|done..]. intros x d y i Hd Hx. destruct (Hr x d y i Hd Hx). split; [done..|]. change (head_time (at_time t s)) with t. lia.
  - by apply (traffic_same (base s)).
Qed.

(** What account_authenticate does not touch. *)
Definition untouched (s s' : state) : Prop := gateway_dynamics (base s') = gateway_dynamics (base s) ∧
  next_gateway_dynamic (base s') = next_gateway_dynamic (base s) ∧ budget_supply s' = budget_supply s ∧ locked (base s') = locked (base s).
#[export] Instance untouched_preorder : PreOrder untouched.
Proof. split; [by intros s|]. intros s1 s2 s3 (E1 & E2 & E3 & E4) (F1 & F2 & F3 & F4). split_and!; congruence. Qed.

Lemma reads_untouched {A} (m : M state A) : moves eq m → moves untouched m.
Proof. intros Hm s a s' <-%Hm. reflexivity. Qed.
Lemma on_books_untouched {A} (m : M ledger A) : moves untouched (on_base (on_books m)).
Proof. by intros s a s' (b & (l & _ & ->)%zoom_Ok & ->)%zoom_Ok. Qed.
Lemma on_registry_untouched {A} (m : M AssetRegistry.database A) : moves untouched (on_base (on_registry m)).
Proof. by intros s a s' (b & (d & _ & ->)%zoom_Ok & ->)%zoom_Ok. Qed.
Lemma modify_member_untouched k i f : moves untouched (on_base (modify_member k i f)).
Proof. by intros s u s' (b & (m & _ & ->)%modify_member_run & ->)%zoom_Ok. Qed.
Lemma modify_st_untouched f : (∀ s, untouched s (f s)) → moves untouched (modify_st f).
Proof. intros Hf s u s' [= _ <-]. apply Hf. Qed.

Lemma authenticate_untouched mem o : moves untouched (authenticate mem o).
Proof.
  unfold authenticate. apply moves_bind; [apply _|apply moves_lift; apply _|intros _].
  apply moves_bind; [apply _|apply reads_untouched, authenticate_evaluate_reads|intros _].
  unfold authenticate_apply, record_authentication, reward_authentication, configure_gateway, configure_carrier, support_operations,
    set_flags, lock_account, modify_property, apply_data.
  repeat first [ apply on_books_untouched | apply on_registry_untouched | apply modify_member_untouched
    | by apply modify_st_untouched | apply reads_untouched; solve [eauto using new_default_reads with zos] | moves_step ].
Qed.

Lemma role_kept op s s' : system_ok s → next_available_vote_id (base s) < 2 ^ 56 → on_base (execute op) s = Ok ((), s') →
  system_ok s' ∧ balanced s s'.
Proof.
  intros [Hi [Hr Hp Hty] Ht Hb] Hn (b & Hrun & ->)%zoom_Ok. pose proof (execute_sound _ _ _ _ Hrun) as [St Sm Sf]. destruct (Sf Ht) as [Ft Fi].
  split.
  - split; [by eapply identities_consistent|split|done|done].
    + intros x d y i Hd Hx. unfold head_time. cbn. rewrite St. by apply (Hr x d y).
    + done.
    + intros i m t l c Hm Hinfo. assert (masked b) as Hmb.
      { apply Sm. intros j x Hx. destruct (info x) eqn:E; try done. by apply (Hty j x _ _ _ Hx E). }
      specialize (Hmb i m Hm). by rewrite Hinfo in Hmb.
  - exists 0, 0. assert (∀ c : bool, (if c then 0 else 0) = 0) as Hzero by by intros [].
    split; intros; rewrite Hzero, ?Z.add_0_r; [by eapply pledges_conserved|by eapply pledges_conserved|apply Fi|done].
Qed.

Lemma nothing_issued s s' : ledger_ok (ledger_of s) → saves s s' → untouched s s' → balanced s s'.
Proof.
  intros Hl Hs (Ed & _ & Eb & El). exists 0, 0. assert (∀ c : bool, (if c then 0 else 0) = 0) as Hzero by by intros [].
  destruct (Hs Hl) as [_ Hw]. split; intros; rewrite Hzero, ?Z.add_0_r; [|by apply Hw| |done].
  - unfold circulating. by rewrite El, (proj1 (Hw i)).
  - unfold issued. by rewrite Ed.
Qed.

Lemma authentication_kept mem o s s' : system_ok s → typed o → authenticate mem o s = Ok ((), s') → system_ok s' ∧ balanced s s'.
Proof.
  intros [Hi Hr Ht Hb] Hty Hrun. pose proof (id_ledger _ Hi) as Hl. pose proof (ok_time _ Hl) as Hu.
  assert (0 ≤ head_time s) as Hpos by (unfold uint in Hu; apply Hu).
  pose proof (authenticate_saves _ _ _ _ _ Hr Hty Hpos Hrun) as Hs. pose proof (authenticate_untouched _ _ _ _ _ Hrun) as Hun.
  split; [|by apply nothing_issued]. destruct Hun as (Ed & En & Eb & _). split.
  - eapply alike_ok; [done|by eapply authenticate_calm|by apply Hs].
  - by eapply authenticate_records.
  - by apply (traffic_same (base s)).
  - by rewrite Eb.
Qed.

(** What the evaluators have checked. *)
Lemma validated_parties o (s : state) v s' : lift (gateway_validate o) s = Ok (v, s') → go_from o ≠ go_to o ∧ 0 ≤ amount (go_amount o) ∧ s' = s.
Proof.
  intros [Hv ->]%lift_Ok. apply bind_Ok in Hv as ([] & _ & Hv). apply bind_Ok in Hv as ([] & Ha%FC_ASSERT_Ok & Hv%FC_ASSERT_Ok).
  apply Z.leb_le in Ha. split_and!; [|done..]. by destruct (Z.eqb_spec (go_from o) (go_to o)).
Qed.

Ltac step_reads H :=
  let x := fresh "x" in let s1 := fresh "s1" in let H1 := fresh "Hstep" in let E := fresh in
  apply M_bind_Ok in H as (x & s1 & H1 & H);
  match type of H1 with ?m ?s = _ => assert (E : moves eq m) by (repeat moves_step); pose proof (E _ _ _ H1); clear E; subst s1 end.
Ltac step_assert H :=
  let H1 := fresh "Hassert" in apply M_bind_Ok in H as ([] & ? & [H1 ->]%assert_st_Ok & H).

Lemma withdraw_checked o s s' : withdraw_evaluate o s = Ok ((), s') → go_from o ≠ go_to o ∧ 0 ≤ amount (go_amount o).
Proof.
  intros Hrun. unfold withdraw_evaluate in Hrun. do 3 step_reads Hrun. do 2 step_assert Hrun. step_reads Hrun.
  by apply M_bind_Ok in Hrun as (v & s1 & (? & ? & ->)%validated_parties & _).
Qed.

(** What a deposit has passed. *)
Lemma deposit_checked o s s' : deposit_evaluate o s = Ok ((), s') →
  go_from o ≠ go_to o ∧ 0 ≤ amount (go_amount o) ∧ amount (go_amount o) ≤ held (go_from o, asset_id (go_amount o)) (ledger_of s) ∧
  ∃ f t a ca answer, Balance.accounts (ledger_of s) !! go_from o = Some f ∧ Balance.accounts (ledger_of s) !! go_to o = Some t ∧
    is_lock_balance f = false ∧ is_lock_balance t = false ∧ assets (registry (base s)) !! asset_id (go_amount o) = Some a ∧
    is_gateway_enable s (go_from o) f (asset_id (go_amount o)) = Ok true ∧
    by_account gateway (go_from o) (base s) = Some ca ∧ get_can_deposit ca.2 (go_to o) (asset_id (go_amount o)) s = Ok (answer, s) ∧ 0 < answer.
Proof.
  intros Hrun. unfold deposit_evaluate in Hrun. apply M_bind_Ok in Hrun as (t & s1 & [Ht ->]%the_account_run & Hrun).
  apply M_bind_Ok in Hrun as (f & s1 & [Hf ->]%the_account_run & Hrun). apply M_bind_Ok in Hrun as (a & s1 & [Ha ->]%the_asset_run & Hrun).
  step_assert Hrun. step_assert Hrun. step_reads Hrun.
  apply M_bind_Ok in Hrun as (v & s1 & (Hne & Hpos & ->)%validated_parties & Hrun). unfold check_loan in Hrun. step_assert Hrun. step_assert Hrun.
  apply M_bind_Ok in Hrun as (s0 & s1 & [= <- <-] & Hrun). apply M_bind_Ok in Hrun as (en & s1 & [Hen ->]%lift_Ok & Hrun). step_assert Hrun. subst en.
  apply M_bind_Ok in Hrun as (ca & s1 & [Hca ->]%role_of_run & Hrun). apply M_bind_Ok in Hrun as (answer & s1 & Hans & Hrun).
  assert (s1 = s) as ->.
  { assert (moves eq (get_can_deposit ca.2 (go_to o) (asset_id (go_amount o)))) as Hm by (unfold get_can_deposit; repeat moves_step).
    by apply Hm in Hans. }
  step_assert Hrun. apply M_bind_Ok in Hrun as (b & s1 & (y & [= <- <-] & ->)%zoom_Ok & Hrun). apply assert_st_Ok in Hrun as [Hle _].
  rewrite get_balance_held in Hle. apply Z.leb_le in Hle. split_and!; [done..|]. exists f, t, a, ca, answer.
  split_and!; try done; by first [apply negb_true_iff|apply Z.ltb_lt].
Qed.

Lemma gateway_moves act s s' : system_ok s → action_typed act → run_gateway act s = Ok ((), s') → ∃ j d paid, moved j d paid s s'.
Proof.
  intros Hok Hty Hrun. destruct act as [o|o|o]; [by eexists _, _, _; eapply issue_moved| |].
  - apply M_bind_Ok in Hrun as ([] & s1 & Hev & Hrun). destruct (withdraw_checked _ _ _ Hev) as [Hne _].
    apply withdraw_evaluate_reads in Hev as <-. eexists _, _, _. eapply (carry_moved 4 5 (go_to o) _ _ _ (record_withdraw (go_amount o))); [done..| |exact Hrun].
    by intros x y (z & _ & [= <-])%bind_Ok.
  - apply M_bind_Ok in Hrun as ([] & s1 & Hev & Hrun). destruct (deposit_checked _ _ _ Hev) as (Hne & _).
    apply deposit_evaluate_reads in Hev as <-. eexists _, _, _. eapply (carry_moved 6 7 (go_from o) _ _ _ (record_deposit (go_amount o))); [done..| |exact Hrun].
    by intros x y (z & _ & [= <-])%bind_Ok.
Qed.

Lemma step_kept s s' : system_ok s → system_step s s' → system_ok s' ∧ balanced s s'.
Proof.
  intros Hok [op Hn Hrun|mem o Hty Hrun|act Hty Hrun|t Hle Hu ->].
  - by eapply role_kept.
  - by eapply authentication_kept.
  - destruct (gateway_moves act s s' Hok Hty Hrun) as (j & d & paid & Hm). split; [by eapply moved_ok|]. exists j, d. apply Hm.
  - split; [by apply time_ok|]. apply nothing_issued; [apply (sy_identities s Hok)| |done].
    intros Hl. split; [by apply later_ledger_ok|done].
Qed.

(** C28: roles, authentication and gateways keep each other's invariants: from a consistent state every
    sequence of creations, updates and resignations of the six roles, of statements of
    authors, of issues, withdrawals and deposits and of blocks that pass leads to a consistent
    state.  Accounts have at most one object per role and their flags say which, pledges add up,
    lists of gateways agree, the ledger and every record are in their types. *)
Theorem system_consistent s s' : system_ok s → rtc system_step s s' → system_ok s'.
Proof. intros Hok Hsteps. induction Hsteps as [|s1 s2 s3 Hstep _ IH]; [done|]. apply IH. by eapply step_kept. Qed.

(** C26: what the committee issues to gateways is backed one to one: whatever happens, the shares
    of an asset in balances, vesting balances and pledges grow exactly as its recorded supply,
    as what the gateways were issued, and, for the core asset, as what left the budget.  The
    pledges are [lock_asset] of the stored statistics, which [modify_statistics] changes. *)
Theorem gateway_money_backed s s' i : system_ok s → rtc system_step s s' →
  circulating i s' - circulating i s = supply i (ledger_of s') - supply i (ledger_of s) ∧
  supply i (ledger_of s') - supply i (ledger_of s) = issued i (base s') - issued i (base s) ∧
  supply 0 (ledger_of s') - supply 0 (ledger_of s) = budget_supply s' - budget_supply s.
Proof.
  intros Hok Hsteps. induction Hsteps as [|s1 s2 s3 Hstep _ IH]; [lia|].
  destruct (step_kept _ _ Hok Hstep) as [Hok2 (j & d & [Rc Rs Ri Rb])]. destruct (IH Hok2) as (I1 & I2 & I3).
  specialize (Rc i). specialize (Ri i). pose proof (Rs i). pose proof (Rs 0). lia.
Qed.

(** C32: a deposit moves exactly its amount from an enabled gateway that lists the asset to an account
    that passed the gateway's check, neither of them locked; nobody else's balance changes. *)
Theorem deposit_exact o s s' : system_ok s → in_time s → int64 (amount (go_amount o)) →
  run_gateway (gateway_deposit o) s = Ok ((), s') →
  let i := asset_id (go_amount o) in let n := amount (go_amount o) in
  go_from o ≠ go_to o ∧ 0 ≤ n ≤ held (go_from o, i) (ledger_of s) ∧
  (∀ k, held k (ledger_of s') = held k (ledger_of s) + (if decide (k = (go_to o, i)) then n else 0) - (if decide (k = (go_from o, i)) then n else 0)) ∧
  (∃ g ca a, members (base s) !! (gateway, g) = Some ca ∧ member_account ca = go_from o ∧ enable ca = identity_enable ∧
    assets (registry (base s)) !! i = Some a ∧ go_from o ∈ whitelist_gateways a ∧
    (any (settings ca).1.1 gateway_dispost = true → asks ca a = true → authenticated s ca (go_to o) i)) ∧
  (∃ f t, Balance.accounts (ledger_of s) !! go_from o = Some f ∧ Balance.accounts (ledger_of s) !! go_to o = Some t ∧
    is_lock_balance f = false ∧ is_lock_balance t = false).
Proof.
  intros Hok Hin Hn Hrun i n. pose proof Hrun as Hpaid. apply M_bind_Ok in Hrun as ([] & s1 & Hev & Hrun).
  destruct (deposit_checked _ _ _ Hev) as (Hne & Hpos & Hle & f & t & a & [g ca] & answer & Hf & Ht & Lf & Lt & Ha & Hen & Hca & Hans & Hpass).
  apply deposit_evaluate_reads in Hev as <-.
  apply (carry_moved 6 7 (go_from o) _ _ _ (record_deposit (go_amount o))) in Hrun as Hm; [|done..|by intros x y (z & _ & [= <-])%bind_Ok].
  apply by_account_some in Hca as Hg. destruct Hg as [Hg Hacct].
  unfold is_gateway_enable in Hen. destruct (has_flag gateway f); [|done]. rewrite Hca, Ha in Hen.
  case_bool_decide as Henab; [|done]. injection Hen as Hwl%bool_decide_eq_true. rewrite Hacct in Hwl.
  split_and!; [done|done|done| | |].
  - intros k. rewrite (mv_held _ _ _ _ _ Hm k). subst i n. lia.
  - exists g, ca, a. split_and!; try done. intros Hdep Hask. unfold get_can_deposit in Hans. cbn [snd] in Hans. rewrite Hdep in Hans.
    apply (check_answer ca (go_to o) i s a answer s (sy_records s Hok) Hin Ha Hans) in Hpass as [Hno|]; [congruence|done].
  - by exists f, t.
Qed.

(** ** The town at work *)

Module GatewaysExample.
Import RegistryExample AuthenticationExample.

Lemma town_listed : listed town_registry.
Proof.
  assert (∀ acct a, accounts town_registry !! acct = Some a → gateway_of a = None) as Hno.
  { intros acct a. unfold town_registry. cbn [accounts]. rewrite !lookup_insert_Some, lookup_empty. naive_solver. }
  assert (∀ i a, assets town_registry !! i = Some a → whitelist_gateways a = ∅ ∧ i < 2) as Has.
  { intros i a. unfold town_registry. cbn [assets]. rewrite !lookup_insert_Some, lookup_empty. naive_solver lia. }
  split.
  - intros acct i. split.
    + intros (a & g & l & Ha%Hno & Hg & _). congruence.
    + intros (a & [Hw _]%Has & Hin). rewrite Hw in Hin. by apply not_elem_of_empty in Hin.
  - intros acct a g Ha%Hno Hg. congruence.
  - intros x1 a1 x2 a2 g Ha%Hno _ Hg. congruence.
  - intros i [a [_ Hi]%Has]. exact Hi.
Qed.

Lemma town_ledger_ok : ledger_ok town_ledger.
Proof.
  constructor; cbn.
  - intros k b [[_ <-]|[_ Hb]]%lookup_insert_Some; [split; [lia|int_lia]|by rewrite lookup_empty in Hb].
  - intros i v Hv. by rewrite lookup_empty in Hv.
  - intros i _. apply lookup_empty.
  - intros i d. rewrite !lookup_insert_Some, lookup_empty. intros [[_ <-]|[_ [[_ <-]|[_ Hd]]]]; [cbn; split; int_lia..|done].
  - int_lia.
Qed.

Lemma town_roles_ok : identities_ok town_roles.
Proof.
  split; cbn -[msum].
  - exact town_ledger_ok.
  - intros _. lia.
  - int_lia.
  - lia.
  - intros k. by rewrite lookup_empty.
  - intros k i m Hm. by rewrite lookup_empty in Hm.
  - intros k x a. rewrite !lookup_insert_Some, lookup_empty. intros [[_ <-]|[_ [[_ <-]|[_ [[_ <-]|[_ Ha]]]]]]; by destruct k || done.
  - intros k i j m m' Hm. by rewrite lookup_empty in Hm.
  - intros p q m m' Hm. by rewrite lookup_empty in Hm.
  - intros x a. rewrite !lookup_insert_Some, lookup_empty. intros [[_ <-]|[_ [[_ <-]|[_ Ha]]]]; [cbn; split; [done|int_lia]..|done].
  - intros x. unfold locked_of, pledged. cbn [locked town_roles members]. rewrite msum_empty.
    destruct (decide (x = 5)) as [->|]; [done|rewrite lookup_insert_ne by done]. destruct (decide (x = 7)) as [->|]; [done|by rewrite lookup_insert_ne].
  - exact town_listed.
  - intros x g. split; [intros (a & Ha & Hg)|intros (m & Hm & _); by rewrite lookup_empty in Hm].
    revert Ha. rewrite !lookup_insert_Some, lookup_empty. intros [[_ <-]|[_ [[_ <-]|[_ [[_ <-]|[_ Ha]]]]]]; done.
  - intros g [x Hx]. by rewrite lookup_empty in Hx.
Qed.

Lemma town_ok : system_ok town.
Proof.
  split; [exact town_roles_ok|by apply records_checked; vm_compute|split; cbn|by vm_compute].
  - intros g [x Hx]. by rewrite lookup_empty in Hx.
  - intros g t i n Hx. by rewrite lookup_empty in Hx.
Qed.

(** The bank gets 300 coins, pays 100 to the customer, who brings 40 back. *)
Definition issue (n : Z) (back : bool) : gateway_action := gateway_issue (mk_gateway_issue (mk_asset 1 0) 0 5 (mk_asset n 1) back None).
Definition pay_out : gateway_operation := mk_gateway_operation (mk_asset 1 0) 5 9 (mk_asset 100 1).
Definition bring (n : Z) : gateway_operation := mk_gateway_operation (mk_asset 1 0) 9 5 (mk_asset n 1).

Definition opened_bank : state := after open_bank town.
Definition opened_notary : state := after open_notary opened_bank.
Definition trusting : state := after (authenticate plain trust_notary) opened_notary.
Definition funded : state := after (run_gateway (issue 300 false)) trusting.
Definition introduced : state := after (authenticate plain (know 0)) funded.
Definition paid : state := after (run_gateway (gateway_deposit pay_out)) introduced.
Definition returned : state := after (run_gateway (gateway_withdraw (bring 40))) paid.
Definition recalled : state := after (run_gateway (issue 240 true)) returned.

Example balances_after : held (5, 1) (ledger_of recalled) = 0 ∧ held (9, 1) (ledger_of recalled) = 60 ∧ supply 1 (ledger_of recalled) = 60 ∧
  (λ t, (issue_amount t !! 1, withdraw_count t !! 1)) <$> gateway_dynamics (base recalled) !! 0 = Some (Some 60, Some 1).
Proof. by vm_compute. Qed.

Lemma after_run (m : M state ()) s : is_ok (m s) → m s = Ok ((), after m s).
Proof. unfold after. destruct (m s) as [[[] s']|]; by intros. Qed.

Lemma role_step op s : next_available_vote_id (base s) <? 2 ^ 56 = true → is_ok (as_role op s) → system_step s (after (as_role op) s).
Proof. intros Hn Hok. apply (step_role _ _ op); [by apply Z.ltb_lt|by apply after_run]. Qed.
Lemma authentication_step mem o s : typed o → is_ok (authenticate mem o s) → system_step s (after (authenticate mem o) s).
Proof. intros Hty Hok. apply (step_authentication _ _ mem o); [done|by apply after_run]. Qed.
Lemma action_step act s : action_typed act → is_ok (run_gateway act s) → system_step s (after (run_gateway act) s).
Proof. intros Hty Hok. apply (step_gateway _ _ act); [done|by apply after_run]. Qed.

Lemma trust_typed : typed trust_notary.
Proof. by split. Qed.

Lemma step1 : system_step town opened_bank.
Proof. apply role_step; vm_compute; done. Qed.
Lemma step2 : system_step opened_bank opened_notary.
Proof. apply role_step; vm_compute; done. Qed.
Lemma step3 : system_step opened_notary trusting.
Proof. apply authentication_step; [exact trust_typed|by vm_compute]. Qed.
Lemma step4 : system_step trusting funded.
Proof. apply action_step; [cbn; int_lia|by vm_compute]. Qed.
Lemma step5 : system_step funded introduced.
Proof. apply authentication_step; [apply know_typed; int_lia|by vm_compute]. Qed.
Lemma step6 : system_step introduced paid.
Proof. apply action_step; [cbn; int_lia|by vm_compute]. Qed.
Lemma step7 : system_step paid returned.
Proof. apply action_step; [cbn; int_lia|by vm_compute]. Qed.
Lemma step8 : system_step returned recalled.
Proof. apply action_step; [cbn; int_lia|by vm_compute]. Qed.

Lemma works : rtc system_step town recalled.
Proof.
  exact (rtc_l _ _ _ _ step1 (rtc_l _ _ _ _ step2 (rtc_l _ _ _ _ step3 (rtc_l _ _ _ _ step4
    (rtc_l _ _ _ _ step5 (rtc_l _ _ _ _ step6 (rtc_l _ _ _ _ step7 (rtc_once _ _ step8)))))))).
Qed.

Lemma system_consistent_witness : system_ok recalled.
Proof. exact (system_consistent town recalled town_ok works). Defined.

(** 60 coins are out, which the books say as well. *)
Lemma gateway_money_backed_witness : circulating 1 recalled - circulating 1 town = 60 ∧ issued 1 (base recalled) - issued 1 (base town) = 60.
Proof.
  destruct (gateway_money_backed town recalled 1 town_ok works) as (Hc & Hs & _).
  assert (supply 1 (ledger_of recalled) - supply 1 (ledger_of town) = 60) as E by (vm_compute; reflexivity). split; lia.
Defined.

Lemma introduced_ok : system_ok introduced.
Proof.
  assert (system_ok opened_bank) as H1 by apply (step_kept _ _ town_ok step1).
  assert (system_ok opened_notary) as H2 by apply (step_kept _ _ H1 step2).
  assert (system_ok trusting) as H3 by apply (step_kept _ _ H2 step3).
  assert (system_ok funded) as H4 by apply (step_kept _ _ H3 step4). apply (step_kept _ _ H4 step5).
Qed.

Lemma deposit_exact_witness : held (9, 1) (ledger_of paid) = held (9, 1) (ledger_of introduced) + 100.
Proof.
  assert (in_time introduced) as Hin by (by vm_compute). assert (int64 (amount (go_amount pay_out))) as Hn by (cbn; int_lia).
  assert (run_gateway (gateway_deposit pay_out) introduced = Ok ((), paid)) as Hrun by (apply after_run; by vm_compute).
  destruct (deposit_exact pay_out introduced paid introduced_ok Hin Hn Hrun) as (_ & _ & Hheld & _).
  pose proof (Hheld (9, 1)) as H9. vm_compute in H9. vm_compute. exact H9.
Defined.

(** Withdrawals do not ask for a positive answer, as deposits do, but for one that is not 0: when
    the statement about the customer has expired the answer is -4, the customer may not deposit any
    more, and yet the gateway must take the coins. *)
Definition later : state := at_time 1501 paid.
Theorem withdraw_unauthenticated :
  is_ok (run_gateway (gateway_deposit pay_out) later) = false ∧ is_ok (run_gateway (gateway_withdraw (bring 40)) later) = true ∧
  fst <$> match get_can_withdraw bank 9 1 later with Ok p => Some p | Throw _ => None end = Some (-4).
Proof. split_and!; by vm_compute. Qed.
End GatewaysExample.
